(* ===== verification/_CoqProject ===== *)
-Q . S2P
Prelude.v
GoStrings.v
GoCrypto.v
GoPath.v
GoNet.v
GoBase64.v
Api.v
Names.v
PortAllocator.v
Annotations.v
LoadBalancers.v
GatewayApi.v
Kube.v
Finalizers.v
Services.v
RouteResources.v
ConvAnnotations.v
ConvPolicies.v
Converter.v
ConvGateway.v
EnvoyResource.v
EnvoyBootstrap.v
Manager.v
LBController.v
LBSteadyState.v
EnvoyController.v
DataPath.v
RouteController.v
RouteSteadyState.v
CCM.v
CCMService.v
CCMNodes.v
CCMSources.v
CCMGateway.v
SyncSecrets.v
SecretConversion.v
TenantSyncSecret.v
ManagerSyncSecret.v
SecretChain.v
Upserts.v
GatewayCRDs.v
TenantController.v
TenantProvision.v
IngressToGateway.v
ConversionPass.v
CLIIngress.v
CLIPass.v
CLIPreview.v
CLIExamples.v
CLIClient.v
CLIUI.v
CLILoadBalancer.v
TunnelClient.v
CLITunnel.v
EntryPoints.v
