(* ===== verification/Prelude.v ===== *)
(** * KubeLB: a verification of the load balancer's core

    KubeLB gives the Services, Ingresses and Gateway API routes of many tenant clusters a
    shared load balancer. In each tenant cluster the cloud controller manager (CCM) copies
    what is to be exposed into LoadBalancer and Route objects of the management cluster.
    There the manager allocates a port of the shared Envoy proxies to every upstream port,
    turns load balancers and routes into an Envoy snapshot, and creates the Services and
    routes that lead traffic to Envoy. A separate converter turns Ingresses into Gateway
    API routes and Envoy Gateway policies.

    ** How the development follows the code

    Each file models the named Go files under [src/]; a definition keeps the name of the
    Go function it translates, a struct is a record with a field prefix, an enum an
    inductive type or a string as in the source. A map that may be nil is an [option]; a
    pure function that returns an error is a [result]; a panic is [None] or [Panic] and is
    stated as such.

    Foundations:
    - [Prelude]: the notation, errors as values, machine integers, lemmas on lists and
      maps, the hint database and the tactics all files share.
    - [GoStrings], [GoCrypto], [GoPath], [GoNet], [GoBase64]: what the code uses of Go's
      [strings], [strconv], [fmt], [crypto/sha256], [path.Match], [net.ParseIP] and
      [encoding/base64], executable and with the lemmas the components need.
    - [Api]: the resources of [api/ce/kubelb.k8c.io/v1alpha1] and the Kubernetes types
      they embed, with the fields the modelled code reads.
    - [GatewayApi]: the Gateway API, Ingress and Envoy Gateway types, with the validity of
      a filter as the Gateway API documents it.
    - [Kube]: the API server as the controllers see it. A [Cluster] is a finite map of
      objects, a counter for UIDs and a list of faults still to come: each call of the
      client takes the next one, so a theorem that quantifies over clusters quantifies over
      every pattern of failing calls. Controllers are
      programs of a state monad with outcomes [Ret], [Fail], [Panic] and [Diverge];
      [within] and [triple] are its logic, and [well_formed] the invariant that every object is stored under its
      own key.

    Pure components:
    - [Names]: [internal/kubelb/utils.go], names, labels and keys.
    - [PortAllocator]: [internal/port-lookup/allocator.go] and [mapper.go]. The state is
      the pair of tables; the operations are whole methods, since each holds the lock; a
      run is a sequence of the steps of [step]. The class [PortLookup] is the interface its
      clients [LoadBalancers] and [EnvoyResource] call, and [ConsistentLookup] states what
      an implementation promises them: their theorems are proved against it, and
      [reachable_consistent] discharges it for the allocator.
    - [Annotations]: the annotation half of [utils.go], [GetAnnotations] of
      [internal/controllers/kubelb/shared.go], [internal/util/kubernetes/util.go].
    - [LoadBalancers]: [internal/kubelb/loadbalancer.go].
    - [ConvAnnotations], [ConvPolicies], [Converter], [ConvGateway]: [pkg/conversion], the
      annotation handlers, the policies, the routes, and the Gateway, filters, options and
      secrets.
    - [EnvoyResource]: [internal/envoy/resource.go], and [EnvoyBootstrap]:
      [internal/envoy/bootstrap.go] with the parsing of [server.go].

    Controllers, one state each and every call of the client in the order of the code:
    - [Finalizers]: the finalizers and the update of an object that every loop shares.
    - [Services]: [internal/resources/service]; [RouteResources]: [internal/resources] for
      Ingress, Gateway, HTTPRoute, GRPCRoute and unstructured objects.
    - [Manager]: the state the manager's controllers share (cluster, port allocator, Envoy
      cache), the helpers of [internal/controllers/kubelb/shared.go], and the event
      predicates of [internal/util/predicate].
    - [LBController]: [loadbalancer_controller.go]; [LBSteadyState]: what a reconcile
      without failing calls leaves behind.
    - [EnvoyController]: [envoy_cp_controller.go] with its pod template and predicates.
    - [DataPath]: the composition of the two: what a LoadBalancer controller publishes, the
      snapshot of the Envoy controller serves.
    - [RouteController]: [route_controller.go]; [RouteSteadyState] as for load balancers.
    - [CCM]: the two clusters the CCM talks to and [internal/controllers/ccm/shared.go];
      [CCMService], [CCMNodes], [CCMGateway]: the controllers of the same names;
      [CCMSources]: [source_reconciler.go], generic in the adapter, with the adapters of
      Ingress, HTTPRoute and GRPCRoute as instances of [SourceLaws].
    - [SyncSecrets], [SecretConversion], [TenantSyncSecret], [ManagerSyncSecret]: the
      controllers that carry a Secret from a tenant to the manager, and [SecretChain]:
      their composition.
    - [Upserts]: what the libraries that create or update an object promise.
    - [GatewayCRDs]: [gateway_crd_controller.go] and [internal/resources/reconciling].
    - [TenantController]: [tenant_controller.go] with [resources/tenant]; [TenantProvision]:
      what a pass without failing calls gives a tenant.
    - [IngressToGateway]: [internal/ingress-to-gateway], the controller that applies the
      conversion, on a cluster with a clock; [ConversionPass]: its two passes.
    - [CLIIngress]: [cli/internal/ingress], the commands that convert, preview and list
      Ingresses; [CLIPass]: what they promise; [CLIPreview]: that the preview shows what is
      applied; [CLIExamples]: runs.
    - [CLIClient]: [cli/internal/config], [edition], [cache], [output] and the parts of
      [cli/cmd] that set up a client and choose Ingresses.
    - [CLIUI]: [cli/internal/ui], the dashboard of [kubelb serve]; [CLILoadBalancer]:
      [cli/internal/loadbalancer].
    - [TunnelClient]: [cli/internal/tunnel/connect.go], the connection of a tunnel;
      [CLITunnel]: the other files of [cli/internal/tunnel].
    - [EntryPoints]: [cmd/kubelb/main.go] and [cmd/ccm/main.go], what the two programs start.

    ** What the theorems show

    - Ports: an allocator that started empty never gives one port to two upstreams
      ([allocator_ports_unique]); [AllocatePorts] refines an abstract specification of the
      table; an allocator restored from stored statuses, however corrupt, gives no port to
      two endpoints, and a restart keeps the ports that load balancers and Routes have
      published ([restart_keeps_ports]);
      allocation returns when there is room and the draws are fair, and never returns when
      the pool is full.
    - Load balancers and routes in the manager, under every pattern of failing calls: a
      reconcile writes nothing outside its own objects ([lb_reconcile_frame],
      [route_reconcile_frame]) and gives up its finalizer only when everything made for the
      object is gone ([lb_finalizer_safe], [route_finalizer_safe]). Without failing calls a
      deleted object goes away and its ports are free, and a live one (of a load
      balancer: with one endpoint whose ports match its own; of a Route: with an HTTPRoute)
      ends with the Service or route, the ports and the status it should have ([lb_reconcile_converges],
      [route_reconcile_converges], [create_or_update_service_converges]).
    - Envoy: a snapshot is consistent, loses no listener when the allocator is consistent,
      and does not depend on the order of its inputs; the cache holds snapshots of the
      current objects ([envoy_cache_current]) and keeps its invariant when a reconcile
      fails; the proxy's Deployment converges and its probes are answered. Across both
      controllers, a port a load balancer publishes has a listener in the snapshot that
      leads to the endpoints of that port ([published_ports_served]).
    - Conversion: every host and path of an Ingress is served by a route with exactly its
      rules; grouping partitions the hosts and is deterministic; filters have the
      members and values of their types, which are distinct; a redirect excludes backends; what the policies decide; listeners,
      their merge and secret copies.
    - Annotations, names and load balancers: propagation key by key, a three-way merge,
      valid and bounded names, Service ports and hostnames.
    - The CCM, under every pattern of failing calls of either cluster: a pass writes
      nothing that belongs to another object ([ccm_service_isolated], [source_isolated],
      [gateway_isolated]) and gives up its finalizer only when the copy in the management
      cluster is gone ([ccm_service_finalizer_safe], [source_finalizer_safe],
      [gateway_finalizer_safe], [secret_finalizers_safe]). Without failing calls a Service,
      Ingress or route ends with its copy, its status and no orphans
      ([ccm_service_converges], [source_converges]), the copies of an object that is gone
      are removed ([ccm_orphans_reaped], [source_orphans_reaped]), the manager has the
      addresses of the ready nodes, and a Secret reaches the manager
      ([secret_reaches_manager]).
    - The Ingress-to-Gateway controller: it writes nothing but what belongs to the Ingress
      ([conversion_isolated]), a wait ends in thirty seconds whatever happens, an Ingress
      counts as converted only after two passes five seconds apart
      ([conversion_status_spec]), and two passes settle it when the Gateway accepts
      ([conversion_converges]).
    - The Tenant controller: a tenant is given its namespace, an account with the rights
      of the CCM and no others, and a kubeconfig made of the account's token
      ([tenant_provisioned]); a Tenant is let go only when nothing of it is left
      ([tenant_finalizer_safe]); and no pass touches another tenant ([tenant_isolated]).
    - The definitions of the Gateway API: those of a channel are installed
      ([crds_installed]) and restored when they drift ([crd_drift_repaired]).
    - The command line client converts what it shows ([preview_is_applied]), accounts for
      every Ingress in bounded time ([cli_apply_accounts]), writes nothing else
      ([cli_convert_isolated]) and nothing at all in a dry run ([cli_preview_reads_only]);
      its marks are read back by its list ([list_reads_back]) and respected by the
      controller ([cli_marks_respected]); and its policies are the controller's but for two
      annotations ([cli_policies_agree]).
    - The dashboard shows what the list command shows ([dashboard_lists_like_command]),
      answers every request at once ([dashboard_answers]) and changes nothing but what the
      request names, except that a batch without a name converts every Ingress
      ([dashboard_isolated]).
    - A load balancer made from the command line is served by the manager on one port
      ([cli_lb_served]); creating one, or a tunnel, ends in time and writes one object
      ([cli_lb_create_bounded], [tunnel_create_bounded]); deleting needs a confirmation
      ([cli_lb_delete_confirmed], [tunnel_delete_confirmed]).
    - A tunnel is opened for a ready Tunnel with a token that is valid then
      ([connect_serves_port], [expiry_either_encoding]), though a later reconnection uses
      the same token unchecked ([expired_token_reused]); what comes through it is asked of
      the port of localhost that was asked for and after that only of where its answers
      redirect ([forward_asks_local_service]), which may be another host
      ([redirect_leaves_localhost]), and the answer goes back whole
      ([forward_returns_answer]); when the connection keeps breaking, the client gives up
      after ten attempts and five minutes of delays ([tunnel_gives_up]).
    - The manager that starts has consistent ports ([manager_starts_consistent]), and the
      CCM starts controllers with the types they watch ([ccm_starts_with_types]).

    The examples at the end of a component's file are inputs on which the code does
    something its documentation or the Gateway API does not allow.

    ** Parameters and bounds

    Code outside the repository is a parameter of the definitions that use it:
    [url.Parse], [json.Marshal] and [json.Unmarshal], [IntOrString.IntValue], the
    deterministic protobuf marshaller and the hash of a snapshot's version,
    [meta.SetStatusCondition], the decoding of an embedded object, [clientcmd.Load], the
    embedded files with the YAML decoder, [yaml.Marshal], the refusals of the file system,
    the transport of [net/http] with its URLs and headers of a redirect (the redirects
    themselves are followed as its documentation says), [meta.IsNoMatchError],
    and the libraries [k8c.io/reconciler] and [controllerutil] that create or update an object
    (the class [UpsertLaws] states what they promise; [directUpsert] keeps it). Hypotheses on them are
    stated in the theorem that needs them ([no_collision] for signatures, [coherent] for
    the address cache, [truthful] for a client that never reports a missing object
    falsely, [truthfulKinds] for one that never calls a kind unknown that has objects). The API server of [Kube] stores what it is given: it does no defaulting,
    gives no cluster IPs and node ports, keeps no resource versions and collects no
    garbage; it does keep the status a subresource, refuse a write that names another UID,
    drop empty maps, and remove an object that is being deleted once its last finalizer is
    gone. [retry.RetryOnConflict] makes the five attempts of its default backoff.
    Concurrent writers are the faults (a conflict, a missing or a present object) and the
    arbitrary cluster a reconcile starts from; a reconcile itself is one sequence of
    calls. Checks of the world outside the cluster (DNS, TLS and the notifications of the
    Envoy cache) are oracles. [time.Sleep] advances a clock, and what others do meanwhile
    is a function of the cluster; polling has sixteen turns of fuel, which is enough for
    thirty seconds in steps of two ([poll_returns]), and the waits of the command line have
    as many as fit in their time (80 for a load balancer, 60 for a tunnel). A tunnel makes
    ten attempts.

    Random numbers are a list of draws; [None] means that the list ended before the loop
    did, and [allocate_ports_terminates] and [allocate_port_diverges_when_full] say when
    that happens. The loops of [path.Match] carry the length of the pattern as fuel
    ([Match_go_fuel] shows it is enough); an IPv6 address has at most 8 groups. Ports and
    rates are kept at their width ([to_uint32], [to_int32]). Strings are byte strings; the
    case mappings and the white space are those of ASCII.

    ** Not modelled

    Metrics, events and logging (reads that only feed a gauge are kept), client
    configuration, leader election and caches of the two programs, the flags of the commands, the page of the dashboard, the status command and the
    formatting of messages on the terminal, the enterprise API types but the Tunnel, and
    generated deep copies. Of a status the times and observed generations are left out. *)

From stdpp Require Export base tactics numbers list gmap strings pretty sorting.

(** ** Notation scope *)

Declare Scope go_scope.
Delimit Scope go_scope with go.

(** The Go string concatenation [a + b], kept apart from list append. *)
Notation "a ⊕ b" := (String.app a b)
  (at level 60, right associativity) : go_scope.

(** ** Errors as values

    A Go function that returns [(T, error)] is a function to [result T]. *)

Inductive result (A : Type) : Type :=
| Ok (a : A)
| Err (msg : string).
Arguments Ok {A} _.
Arguments Err {A} _.

Definition rbind {A B} (c : result A) (k : A -> result B) : result B :=
  match c with
  | Ok a => k a
  | Err e => Err e
  end.

Notation "'let?' x ':=' c 'in' k" := (rbind c (fun x => k))
  (at level 10, x pattern, c at level 100, k at level 200) : go_scope.

(** A loop that stops at the first error *)
Fixpoint mapR {A B} (f : A -> result B) (l : list A) : result (list B) :=
  match l with
  | [] => Ok []
  | x :: l =>
      match f x with
      | Err e => Err e
      | Ok y => match mapR f l with Ok ys => Ok (y :: ys) | Err e => Err e end
      end
  end.

(** ** Machine integers

    Go's conversions [uint32(x)], [int32(x)] and [int64(x)] keep the low bits. *)

Definition to_uint32 (z : Z) : Z := (z mod 2 ^ 32)%Z.
Definition to_int32 (z : Z) : Z :=
  let u := (z mod 2 ^ 32)%Z in if (u <? 2 ^ 31)%Z then u else (u - 2 ^ 32)%Z.

(** ** Sorting strings: [sort.Strings] *)

Definition sort_strings (l : list string) : list string := merge_sort String.le l.

(** ** Removing duplicates: the first occurrence is kept *)

Fixpoint dedupe {A} `{Countable A} (seen : gset A) (l : list A) : list A :=
  match l with
  | [] => []
  | x :: l => if bool_decide (x ∈ seen) then dedupe seen l else x :: dedupe ({[x]} ∪ seen) l
  end.

(** ** Tactics *)

(** Invert monadic binds that are known to succeed. *)
Ltac rinv :=
  repeat match goal with
  | H : rbind ?c _ = Ok _ |- _ =>
      let E := fresh "Hr" in destruct c eqn:E; simpl in H; [|discriminate H]
  | H : Ok _ = Ok _ |- _ => injection H as H; try subst
  end.

(** ** Generic lemmas *)

Section sorting_strings.
Context (l : list string).

Lemma sort_strings_perm : sort_strings l ≡ₚ l.
Proof. apply merge_sort_Permutation. Qed.

Lemma elem_of_sort_strings x : x ∈ sort_strings l ↔ x ∈ l.
Proof. by rewrite sort_strings_perm. Qed.

Lemma sort_strings_sorted : StronglySorted String.le (sort_strings l).
Proof. apply StronglySorted_merge_sort; apply _. Qed.

Lemma NoDup_sort_strings : NoDup l → NoDup (sort_strings l).
Proof. by rewrite sort_strings_perm. Qed.
End sorting_strings.

(** Sorting forgets the order in which a Go map was ranged over. *)
Lemma sort_strings_proper l1 l2 : l1 ≡ₚ l2 → sort_strings l1 = sort_strings l2.
Proof.
  intros Hp. apply (StronglySorted_unique String.le).
  - apply sort_strings_sorted.
  - apply sort_strings_sorted.
  - by rewrite !sort_strings_perm.
Qed.

Lemma elem_of_dedupe {A} `{Countable A} (seen : gset A) l x : x ∈ dedupe seen l ↔ x ∈ l ∧ x ∉ seen.
Proof.
  revert seen. induction l as [|y l IH]; intros seen; simpl; [set_solver|].
  case_bool_decide; rewrite ?elem_of_cons, IH; [set_solver|].
  destruct (decide (x = y)) as [->|]; set_solver.
Qed.

Lemma NoDup_dedupe {A} `{Countable A} (seen : gset A) l : NoDup (dedupe seen l).
Proof.
  revert seen. induction l as [|y l IH]; intros seen; simpl; [constructor|].
  case_bool_decide; [done|]. constructor; [|done]. rewrite elem_of_dedupe. set_solver.
Qed.

Lemma elem_of_snoc {A} (x y : A) l : x ∈ l ++ [y] ↔ x ∈ l ∨ x = y.
Proof. by rewrite elem_of_app, list_elem_of_singleton. Qed.

(** Filtering a mapped list, and filters that agree on the elements of a list. *)
Lemma filter_map {A B} (f : A -> B) (P : B -> Prop) `{!∀ x, Decision (P x)} (l : list A) :
  filter P (f <$> l) = f <$> filter (λ x, P (f x)) l.
Proof.
  induction l as [|x l IH]; [done|]. rewrite fmap_cons.
  destruct (decide (P (f x))).
  - rewrite !filter_cons_True by done. by rewrite IH.
  - rewrite !filter_cons_False by done. done.
Qed.

Lemma filter_ext_in {A} (P Q : A -> Prop) `{!∀ x, Decision (P x), !∀ x, Decision (Q x)} (l : list A) :
  (∀ x, x ∈ l → P x ↔ Q x) → filter P l = filter Q l.
Proof.
  induction l as [|x l IH]; [done|]. intros Hpq.
  pose proof (Hpq x ltac:(left)) as Hx.
  assert (filter P l = filter Q l) as IH' by (apply IH; intros; apply Hpq; by right).
  destruct (decide (P x)).
  - rewrite !filter_cons_True by tauto. by rewrite IH'.
  - rewrite !filter_cons_False by tauto. done.
Qed.

Lemma filter_all {A} (P : A -> Prop) `{!∀ x, Decision (P x)} (l : list A) : Forall P l → filter P l = l.
Proof. induction 1 as [|x l Hx _ IH]; [done|]. rewrite filter_cons_True by done. by rewrite IH. Qed.

Lemma filter_none {A} (P : A -> Prop) `{!∀ x, Decision (P x)} (l : list A) : Forall (λ x, ¬ P x) l → filter P l = [].
Proof. induction 1 as [|x l Hx _ IH]; [done|]. by rewrite filter_cons_False. Qed.

(** A search for a key that is unique in the list *)
Lemma find_unique {A B} (f : A -> B) (P : A -> bool) (l : list A) x :
  NoDup (f <$> l) → x ∈ l → P x = true → (∀ y, y ∈ l → P y = true → f y = f x) → List.find P l = Some x.
Proof.
  induction l as [|y l IH]; [by intros _ ?%elem_of_nil|].
  rewrite fmap_cons. intros [Hn Hnd]%NoDup_cons Hin Hx Hu. simpl. destruct (P y) eqn:Hy.
  - apply elem_of_cons in Hin as [->|Hin]; [done|]. destruct Hn. rewrite (Hu y) by (done || by left).
    by apply list_elem_of_fmap_2.
  - apply elem_of_cons in Hin as [->|Hin]; [congruence|]. apply IH; [done..|]. intros z Hz. apply Hu. by right.
Qed.

Lemma NoDup_fmap_filter {A B} (f : A -> B) (P : A -> Prop) `{!∀ x, Decision (P x)} (l : list A) :
  NoDup (f <$> l) → NoDup (f <$> filter P l).
Proof. intros Hnd. eapply sublist_NoDup; [exact Hnd|]. apply fmap_sublist, sublist_filter. Qed.

(** A map that separates what an injective-on-the-list map separates has no duplicates. *)
Lemma NoDup_fmap_fmap {A B C} (g : A -> B) (f : A -> C) (l : list A) :
  (∀ x y, x ∈ l → y ∈ l → f x = f y → g x = g y) → NoDup (g <$> l) → NoDup (f <$> l).
Proof.
  induction l as [|x l IH]; [constructor|]. rewrite !fmap_cons. intros Hfg [Hx Hnd]%NoDup_cons.
  constructor; [|apply IH; [intros; apply Hfg; by try right|done]].
  intros (y & Hy & Hin)%list_elem_of_fmap. apply Hx. rewrite (Hfg x y); [|left|by right|done].
  by apply list_elem_of_fmap_2.
Qed.

(** A loop that succeeds on a list succeeds on its permutations. *)
Lemma mapR_perm {A B} (f : A -> result B) l1 l2 r1 :
  l1 ≡ₚ l2 → mapR f l1 = Ok r1 → ∃ r2, mapR f l2 = Ok r2 ∧ r1 ≡ₚ r2.
Proof.
  intros Hp. revert r1. induction Hp as [|x l1 l2 Hp IH|x y l|l1 l2 l3 _ IH1 _ IH2]; intros r1; simpl.
  - intros [= <-]. by exists [].
  - destruct (f x) as [z|]; [|done]. destruct (mapR f l1) as [zs|]; [|done]. intros [= <-].
    destruct (IH zs eq_refl) as (r2 & -> & ?). exists (z :: r2). by split; [|constructor].
  - destruct (f y) as [b|]; [|done]. destruct (f x) as [a|]; [|done]. destruct (mapR f l) as [zs|]; [|done].
    intros [= <-]. eexists. split; [done|]. constructor.
  - intros (r2 & H2 & Hp2)%IH1. destruct (IH2 _ H2) as (r3 & H3 & Hp3). exists r3. by split; [|transitivity r2].
Qed.

Lemma to_int32_small z : (0 ≤ z < 2 ^ 31)%Z → to_int32 z = z.
Proof.
  intros Hz. unfold to_int32. rewrite Z.mod_small by lia.
  destruct (Z.ltb_spec z (2 ^ 31)); lia.
Qed.

Lemma to_uint32_small z : (0 ≤ z < 2 ^ 32)%Z → to_uint32 z = z.
Proof. intros Hz. unfold to_uint32. by rewrite Z.mod_small by lia. Qed.

Lemma to_uint32_range z : (0 ≤ to_uint32 z < 2 ^ 32)%Z.
Proof. unfold to_uint32. apply Z.mod_pos_bound. lia. Qed.

(** ** Hint database of the development *)

Create HintDb kubelb discriminated.
Create Rewrite HintDb kubelb_rw.
#[export] Hint Resolve sort_strings_perm sort_strings_sorted NoDup_sort_strings : kubelb.
#[export] Hint Extern 1 (NoDup (map_to_list _).*1) => apply NoDup_fst_map_to_list : kubelb.
#[export] Hint Resolve to_int32_small to_uint32_small to_uint32_range : kubelb.

(** Lengths of strings: compute with the length lemmas, then decide. *)
Ltac str_lia := autorewrite with kubelb_rw in *; simpl in *; lia.
