(* ===== verification/GoStrings.v ===== *)
(** * The parts of Go's [strings], [strconv], [fmt] and [path] that KubeLB calls

    A Go string is a sequence of bytes: here a [string] of [ascii] bytes.
    The case mappings, the white-space test and the quoting verb are those of
    Go on ASCII text; bytes above 127 are passed through unchanged (the names,
    labels and annotation keys the program handles are validated to be ASCII
    by the Kubernetes API server). *)

From Stdlib Require Import Ascii.
From S2P Require Import Prelude.

Local Open Scope go_scope.

(** ** Slicing: [s[:n]] and [s[n:]] *)

Fixpoint str_take (n : nat) (s : string) : string :=
  match n, s with
  | S n, String a s => String a (str_take n s)
  | _, _ => ""
  end.

Fixpoint str_drop (n : nat) (s : string) : string :=
  match n, s with
  | S n, String _ s => str_drop n s
  | 0, _ => s
  | _, "" => ""
  end.

(** ** Byte classes *)

Definition byte_of (a : ascii) : Z := Z.of_N (N_of_ascii a).
Definition in_range (lo hi a : ascii) : bool :=
  ((byte_of lo <=? byte_of a) && (byte_of a <=? byte_of hi))%Z.
Definition is_lower : ascii -> bool := in_range "a" "z".
Definition is_upper : ascii -> bool := in_range "A" "Z".
Definition is_digit : ascii -> bool := in_range "0" "9".
Definition is_ws (a : ascii) : bool := Ascii.is_space a.

Definition lower_byte (a : ascii) : ascii :=
  if is_upper a then ascii_of_N (N_of_ascii a + 32) else a.
Definition upper_byte (a : ascii) : ascii :=
  if is_lower a then ascii_of_N (N_of_ascii a - 32) else a.

Fixpoint str_map (f : ascii -> ascii) (s : string) : string :=
  match s with
  | "" => ""
  | String a s => String (f a) (str_map f s)
  end.

Fixpoint str_forall (f : ascii -> bool) (s : string) : bool :=
  match s with
  | "" => true
  | String a s => f a && str_forall f s
  end.

(** ** Package [strings] *)

Definition ToLower (s : string) : string := str_map lower_byte s.
Definition ToUpper (s : string) : string := str_map upper_byte s.
Definition EqualFold (s t : string) : bool := bool_decide (ToLower s = ToLower t).

Definition HasPrefix (s p : string) : bool := String.prefix p s.
Definition HasSuffix (s p : string) : bool :=
  bool_decide (String.length p ≤ String.length s ∧
               str_drop (String.length s - String.length p) s = p).
Definition TrimPrefix (s p : string) : string :=
  if HasPrefix s p then str_drop (String.length p) s else s.
Definition TrimSuffix (s p : string) : string :=
  if HasSuffix s p then str_take (String.length s - String.length p) s else s.

(** [strings.Contains] *)
Fixpoint Contains (s sub : string) : bool :=
  String.prefix sub s ||
  match s with
  | "" => false
  | String _ s => Contains s sub
  end.

(** [strings.TrimLeftFunc], [strings.TrimRightFunc] *)
Fixpoint trim_left (f : ascii -> bool) (s : string) : string :=
  match s with
  | "" => ""
  | String a t => if f a then trim_left f t else s
  end.

Fixpoint trim_right (f : ascii -> bool) (s : string) : string :=
  match s with
  | "" => ""
  | String a s =>
      match trim_right f s with
      | "" => if f a then "" else String a ""
      | t => String a t
      end
  end.

Definition is_char (c a : ascii) : bool := Ascii.eqb a c.
Definition TrimRight (s : string) (c : ascii) : string := trim_right (is_char c) s.
Definition Trim (s : string) (c : ascii) : string := trim_right (is_char c) (trim_left (is_char c) s).
Definition TrimSpace (s : string) : string := trim_right is_ws (trim_left is_ws s).

(** [strings.Split(s, sep)] for a one-byte separator: never empty. *)
Fixpoint Split (s : string) (sep : ascii) : list string :=
  match s with
  | "" => [""]
  | String a s =>
      if Ascii.eqb a sep then "" :: Split s sep
      else match Split s sep with
           | [] => [String a ""]
           | h :: t => String a h :: t
           end
  end.

(** [strings.SplitN(s, sep, 2)]: [None] when the separator does not occur. *)
Fixpoint Cut (s : string) (sep : ascii) : option (string * string) :=
  match s with
  | "" => None
  | String a s =>
      if Ascii.eqb a sep then Some ("", s)
      else match Cut s sep with
           | Some (b, t) => Some (String a b, t)
           | None => None
           end
  end.

Fixpoint Join (l : list string) (sep : string) : string :=
  match l with
  | [] => ""
  | [s] => s
  | s :: l => s ⊕ sep ⊕ Join l sep
  end.

(** [strings.ReplaceAll(s, old, new)] for a one-byte [old]. *)
Fixpoint ReplaceAll (s : string) (old : ascii) (new : string) : string :=
  match s with
  | "" => ""
  | String a s =>
      if Ascii.eqb a old then new ⊕ ReplaceAll s old new
      else String a (ReplaceAll s old new)
  end.

(** [strings.IndexByte(s, c) >= 0] *)
Definition has_byte (c : ascii) (s : string) : bool := negb (str_forall (λ a, negb (Ascii.eqb a c)) s).

(** ** Package [strconv] *)

Definition Itoa (z : Z) : string := pretty z.

Fixpoint parse_digits (s : string) (acc : Z) : option Z :=
  match s with
  | "" => Some acc
  | String a s =>
      if is_digit a then parse_digits s (acc * 10 + (byte_of a - 48))%Z else None
  end.

Definition maxInt64 : Z := (2 ^ 63 - 1)%Z.
Definition minInt64 : Z := (- 2 ^ 63)%Z.

(** [strconv.Atoi] and [strconv.ParseInt(s, 10, 64)] on a 64-bit platform:
    an optional sign, at least one digit, nothing else, and the value fits. *)
Definition Atoi (s : string) : option Z :=
  let '(neg, body) :=
    match s with
    | String "-" t => (true, t)
    | String "+" t => (false, t)
    | _ => (false, s)
    end in
  if bool_decide (body = "") then None
  else match parse_digits body 0 with
       | None => None
       | Some n =>
           let v := if neg then (- n)%Z else n in
           if ((minInt64 <=? v) && (v <=? maxInt64))%Z then Some v else None
       end.

Definition hex_digit (n : N) : ascii :=
  if (n <? 10)%N then ascii_of_N (48 + n) else ascii_of_N (87 + n).

(** [hex.EncodeToString] *)
Fixpoint EncodeToString (bs : list N) : string :=
  match bs with
  | [] => ""
  | b :: bs => String (hex_digit (b / 16)) (String (hex_digit (b mod 16)) (EncodeToString bs))
  end.

(** The [%q] verb: [strconv.Quote]. *)
Definition quote_byte (a : ascii) : string :=
  let n := N_of_ascii a in
  if (n =? 34)%N then String "\" (String a "")
  else if (n =? 92)%N then String "\" (String a "")
  else if (n =? 7)%N then "\a"
  else if (n =? 8)%N then "\b"
  else if (n =? 9)%N then "\t"
  else if (n =? 10)%N then "\n"
  else if (n =? 11)%N then "\v"
  else if (n =? 12)%N then "\f"
  else if (n =? 13)%N then "\r"
  else if (n <? 32)%N || (n =? 127)%N then
    "\x" ⊕ String (hex_digit (n / 16)) (String (hex_digit (n mod 16)) "")
  else String a "".

Fixpoint quote_body (s : string) : string :=
  match s with
  | "" => ""
  | String a s => quote_byte a ⊕ quote_body s
  end.

Definition dquote : string := String (ascii_of_nat 34) "".
Definition Quote (s : string) : string := dquote ⊕ quote_body s ⊕ dquote.

(** ** Lemmas *)

Lemma str_app_nil_r s : s ⊕ "" = s.
Proof. induction s as [|a s IH]; [done|]. change (String a (s ⊕ "") = String a s). by rewrite IH. Qed.

Lemma str_app_assoc s t u : (s ⊕ t) ⊕ u = s ⊕ t ⊕ u.
Proof.
  induction s as [|a s IH]; [done|].
  change (String a ((s ⊕ t) ⊕ u) = String a (s ⊕ t ⊕ u)). by rewrite IH.
Qed.

Lemma str_length_app s t : String.length (s ⊕ t) = String.length s + String.length t.
Proof.
  induction s as [|a s IH]; [done|].
  change (S (String.length (s ⊕ t)) = S (String.length s) + String.length t). by rewrite IH.
Qed.

Lemma str_app_cons a s t : String a s ⊕ t = String a (s ⊕ t).
Proof. done. Qed.

Lemma str_take_drop n s : str_take n s ⊕ str_drop n s = s.
Proof.
  revert s. induction n as [|n IH]; intros [|a s]; try done.
  simpl. by rewrite str_app_cons, IH.
Qed.

Lemma str_take_length n s : String.length (str_take n s) = n `min` String.length s.
Proof. revert s. induction n as [|n IH]; intros [|a s]; simpl; auto. Qed.

Lemma str_drop_length n s : String.length (str_drop n s) = String.length s - n.
Proof. revert s. induction n as [|n IH]; intros [|a s]; simpl; auto. Qed.

Lemma str_drop_app s t : str_drop (String.length s) (s ⊕ t) = t.
Proof. induction s as [|a s IH]; [done|]. exact IH. Qed.

Lemma str_take_app s t : str_take (String.length s) (s ⊕ t) = s.
Proof. induction s as [|a s IH]; [by destruct t|]. simpl. by f_equal. Qed.

(** Two concatenations whose heads have equal length split the same way. *)
Lemma str_app_inj_l s1 s2 t1 t2 :
  s1 ⊕ t1 = s2 ⊕ t2 → String.length s1 = String.length s2 → s1 = s2 ∧ t1 = t2.
Proof.
  intros H Hl. split.
  - by rewrite <-(str_take_app s1 t1), Hl, H, str_take_app.
  - by rewrite <-(str_drop_app s1 t1), Hl, H, str_drop_app.
Qed.

Lemma str_app_inj_r s1 s2 t1 t2 :
  s1 ⊕ t1 = s2 ⊕ t2 → String.length t1 = String.length t2 → s1 = s2 ∧ t1 = t2.
Proof.
  intros H Hl. apply str_app_inj_l; [done|].
  apply (f_equal String.length) in H. rewrite !str_length_app in H. lia.
Qed.

Lemma HasPrefix_app p s : HasPrefix (p ⊕ s) p = true.
Proof.
  unfold HasPrefix. induction p as [|a p IH]; [by destruct s|].
  rewrite str_app_cons. simpl. destruct (ascii_dec a a); [done|congruence].
Qed.

Lemma HasPrefix_inv s p : HasPrefix s p = true → ∃ t, s = p ⊕ t.
Proof.
  unfold HasPrefix. revert s. induction p as [|a p IH]; intros s H; [by exists s|].
  destruct s as [|b s]; [done|]. simpl in H.
  destruct (ascii_dec a b) as [->|]; [|done].
  destruct (IH s H) as [t ->]. by exists t.
Qed.

Lemma HasSuffix_app s p : HasSuffix (s ⊕ p) p = true.
Proof.
  unfold HasSuffix. apply bool_decide_eq_true. rewrite str_length_app. split; [lia|].
  replace (String.length s + String.length p - String.length p) with (String.length s) by lia.
  apply str_drop_app.
Qed.

Lemma HasSuffix_inv s p : HasSuffix s p = true → ∃ t, s = t ⊕ p.
Proof.
  unfold HasSuffix. intros [_ H]%bool_decide_eq_true.
  exists (str_take (String.length s - String.length p) s).
  rewrite <-H at 2. by rewrite str_take_drop.
Qed.

Lemma TrimSuffix_app s p : TrimSuffix (s ⊕ p) p = s.
Proof.
  unfold TrimSuffix. rewrite HasSuffix_app, str_length_app.
  replace (String.length s + String.length p - String.length p) with (String.length s) by lia.
  apply str_take_app.
Qed.

Lemma TrimPrefix_app p s : TrimPrefix (p ⊕ s) p = s.
Proof. unfold TrimPrefix. by rewrite HasPrefix_app, str_drop_app. Qed.

Lemma str_forall_app f s t : str_forall f (s ⊕ t) = str_forall f s && str_forall f t.
Proof.
  induction s as [|a s IH]; [done|]. rewrite str_app_cons. simpl. rewrite IH.
  by rewrite andb_assoc.
Qed.

Lemma str_forall_impl (f g : ascii -> bool) s : (∀ a, f a = true → g a = true) → str_forall f s = true → str_forall g s = true.
Proof.
  intros H. induction s as [|a s IH]; simpl; [done|]. intros [Ha Hs]%andb_true_iff. by rewrite H, IH.
Qed.

Lemma str_forall_take f n s : str_forall f s = true → str_forall f (str_take n s) = true.
Proof.
  revert s. induction n as [|n IH]; intros [|a s]; simpl; try done.
  intros [-> H]%andb_true_iff. by rewrite IH.
Qed.

Lemma str_forall_trim_right f g s : str_forall f s = true → str_forall f (trim_right g s) = true.
Proof.
  induction s as [|a s IH]; simpl; [done|]. intros [Ha Hs]%andb_true_iff.
  specialize (IH Hs). destruct (trim_right g s); simpl in *; [|by rewrite Ha].
  destruct (g a); simpl; [done|by rewrite Ha].
Qed.

Lemma str_forall_trim_left f g s : str_forall f s = true → str_forall f (trim_left g s) = true.
Proof.
  induction s as [|a s IH]; simpl; [done|]. intros [Ha Hs]%andb_true_iff.
  destruct (g a); simpl; [by apply IH|]. by rewrite Ha.
Qed.

Lemma trim_right_length f s : String.length (trim_right f s) ≤ String.length s.
Proof.
  induction s as [|a s IH]; simpl; [lia|].
  destruct (trim_right f s); simpl in *; [destruct (f a); simpl; lia|lia].
Qed.

Lemma trim_left_length f s : String.length (trim_left f s) ≤ String.length s.
Proof. induction s as [|a s IH]; simpl; [lia|]. destruct (f a); simpl; lia. Qed.

(** A right-trimmed string does not end in a trimmed byte. *)
Lemma trim_right_last f s t a : trim_right f s = t ⊕ String a "" → f a = false.
Proof.
  revert t. induction s as [|b s IH]; intros t; simpl; [by destruct t|].
  destruct (trim_right f s) as [|c u].
  - destruct (f b) eqn:Hb; [by destruct t|].
    destruct t as [|d t]; [by intros [= ->]|]. rewrite str_app_cons. by destruct t.
  - destruct t as [|d t]; [done|]. rewrite str_app_cons. intros [= -> H]. by apply (IH t).
Qed.

(** A non-empty string trimmed on the left starts with a kept byte. *)
Lemma trim_left_head f s a t : trim_left f s = String a t → f a = false.
Proof.
  revert a t. induction s as [|b s IH]; intros a t; simpl; [done|].
  destruct (f b) eqn:Hb; [apply IH|]. by intros [= -> ->].
Qed.

Lemma trim_right_head f s a t : trim_right f s = String a t → ∃ u, s = String a u.
Proof.
  destruct s as [|b s]; simpl; [done|].
  destruct (trim_right f s); [destruct (f b); [done|]|]; intros [= ->]; eauto.
Qed.

(** A string that starts with a kept byte survives right trimming. *)
Lemma trim_right_nonempty f a s : f a = false → trim_right f (String a s) ≠ "".
Proof. simpl. intros ->. by destruct (trim_right f s). Qed.

Lemma Split_nonempty s c : Split s c ≠ [].
Proof. destruct s as [|a s]; simpl; [done|]. destruct (Ascii.eqb a c); [done|]. by destruct (Split s c). Qed.

Lemma Split_forall f s c : str_forall f s = true → Forall (λ p, str_forall f p = true) (Split s c).
Proof.
  induction s as [|a s IH]; simpl; [by repeat constructor|].
  intros [Ha Hs]%andb_true_iff. specialize (IH Hs).
  destruct (Ascii.eqb a c); [by constructor|].
  destruct (Split s c) as [|h t]; inversion IH; subst; constructor; simpl; try done; by rewrite Ha.
Qed.

Lemma Join_cons_head a h t sep : Join (String a h :: t) sep = String a (Join (h :: t) sep).
Proof. by destruct t. Qed.

(** [strings.Join(strings.Split(s, c), c) = s]. *)
Lemma Join_Split s c : Join (Split s c) (String c "") = s.
Proof.
  induction s as [|a s IH]; [done|]. simpl.
  pose proof (Split_nonempty s c).
  destruct (Ascii.eqb_spec a c) as [->|]; destruct (Split s c) as [|h t]; try done.
  - by rewrite <-IH.
  - by rewrite Join_cons_head, IH.
Qed.

(** A string without the byte [c]. *)
Definition no_byte (c : ascii) (s : string) : Prop := str_forall (λ a, negb (Ascii.eqb a c)) s = true.

Lemma Split_no_byte c s : no_byte c s → Split s c = [s].
Proof.
  unfold no_byte. induction s as [|a s IH]; [done|]. cbn [Split str_forall].
  intros [Ha Hs]%andb_true_iff. apply negb_true_iff in Ha. by rewrite Ha, (IH Hs).
Qed.

Lemma Split_app c s t : no_byte c s → Split (s ⊕ String c t) c = s :: Split t c.
Proof.
  unfold no_byte. induction s as [|a s IH].
  { change ("" ⊕ String c t) with (String c t). cbn [Split]. by rewrite Ascii.eqb_refl. }
  rewrite str_app_cons. cbn [Split str_forall].
  intros [Ha Hs]%andb_true_iff. apply negb_true_iff in Ha. by rewrite Ha, (IH Hs).
Qed.

(** [strings.Split] undoes [strings.Join] on parts without the separator. *)
Lemma Split_Join c l : l ≠ [] → Forall (no_byte c) l → Split (Join l (String c "")) c = l.
Proof.
  induction l as [|s [|t l] IH]; intros Hne Hf; [done|..].
  - apply Split_no_byte. by inversion Hf.
  - apply Forall_cons in Hf as [Hs Hf].
    change (Join (s :: t :: l) (String c "")) with (s ⊕ String c (Join (t :: l) (String c ""))).
    by rewrite Split_app, IH.
Qed.

Lemma Itoa_inj x y : Itoa x = Itoa y → x = y.
Proof. apply (inj pretty). Qed.

Lemma EncodeToString_length bs : String.length (EncodeToString bs) = 2 * length bs.
Proof. induction bs as [|b bs IH]; [done|]. simpl. rewrite IH. lia. Qed.

#[export] Hint Rewrite str_length_app str_take_length str_drop_length EncodeToString_length : kubelb_rw.

(** The parts of a cut make up the string again, and a separator is found. *)
Lemma Cut_Some s sep b t : Cut s sep = Some (b, t) → s = b ⊕ String sep t.
Proof.
  revert b. induction s as [|a s IH]; intros b; [done|]. cbn [Cut]. destruct (Ascii.eqb_spec a sep) as [->|]; [by intros [= <- <-]|].
  destruct (Cut s sep) as [[b' t']|]; [|done]. intros [= <- <-]. rewrite str_app_cons. by rewrite <- IH.
Qed.
Lemma Cut_app s sep t : is_Some (Cut (s ⊕ String sep t) sep).
Proof.
  induction s as [|a s IH]; cbn [Cut].
  - change ("" ⊕ String sep t) with (String sep t). cbn [Cut]. rewrite Ascii.eqb_refl. by eexists.
  - rewrite str_app_cons. cbn [Cut]. destruct (Ascii.eqb a sep); [by eexists|]. destruct IH as [[b' t'] ->]. by eexists.
Qed.
