(* ===== verification/GoCrypto.v ===== *)
(** * Go's [crypto/sha256], executable

    [truncateName] and [rulesSignature] call [sha256.Sum256]; it is modelled here
    on byte lists with 32-bit words as [N] below [2^32], so that generated names
    can be evaluated.  The published digests of the empty message, of [abc] and of
    a two-block message check the definition. *)

From Stdlib Require Import Ascii.
From S2P Require Import Prelude GoStrings.

Local Open Scope N_scope.

Definition w32 (n : N) : N := n mod 4294967296.
Definition rotr (k x : N) : N :=
  N.lor (N.shiftr x k) (w32 (N.shiftl x (32 - k))).
Definition not32 (x : N) : N := N.lxor x 4294967295.

Definition sha_ch (x y z : N) : N := N.lxor (N.land x y) (N.land (not32 x) z).
Definition sha_maj (x y z : N) : N :=
  N.lxor (N.land x y) (N.lxor (N.land x z) (N.land y z)).
Definition big_sigma0 (x : N) : N := N.lxor (rotr 2 x) (N.lxor (rotr 13 x) (rotr 22 x)).
Definition big_sigma1 (x : N) : N := N.lxor (rotr 6 x) (N.lxor (rotr 11 x) (rotr 25 x)).
Definition small_sigma0 (x : N) : N := N.lxor (rotr 7 x) (N.lxor (rotr 18 x) (N.shiftr x 3)).
Definition small_sigma1 (x : N) : N := N.lxor (rotr 17 x) (N.lxor (rotr 19 x) (N.shiftr x 10)).

(** The constants of the standard are the first 32 fractional bits of the cube and
    square roots of the first primes; they are computed from that description. *)
Fixpoint prime_list (fuel : nat) (n : N) (found : list N) : list N :=
  match fuel with
  | O => reverse found
  | S fuel =>
      if forallb (λ q, negb (n mod q =? 0)) found then prime_list fuel (n + 1) (n :: found)
      else prime_list fuel (n + 1) found
  end.

(** The primes below 312: there are 64 of them. *)
Definition sha_primes : list N := Eval vm_compute in prime_list 310 2 [].

(** Integer cube root, one bit at a time. *)
Fixpoint cbrt_go (bits : nat) (n r : N) : N :=
  match bits with
  | O => r
  | S bits =>
      let r' := r + N.shiftl 1 (N.of_nat bits) in
      cbrt_go bits n (if r' * r' * r' <=? n then r' else r)
  end.

Definition sha_k : list N :=
  Eval vm_compute in (λ q, w32 (cbrt_go 36 (N.shiftl q 96) 0)) <$> sha_primes.

Record sha_state := ShaState { ha : N; hb : N; hc : N; hd' : N; he : N; hf : N; hg : N; hh : N }.

Definition sha_root (q : N) : N := w32 (N.sqrt (N.shiftl q 64)).

Definition sha_init : sha_state :=
  Eval vm_compute in
  ShaState (sha_root 2) (sha_root 3) (sha_root 5) (sha_root 7)
           (sha_root 11) (sha_root 13) (sha_root 17) (sha_root 19).

(** Big-endian bytes of an [n]-byte word. *)
Fixpoint be_bytes (n : nat) (x : N) : list N :=
  match n with
  | O => []
  | S n => be_bytes n (x / 256) ++ [x mod 256]
  end.

Definition be_word (bs : list N) : N := foldl (λ acc b, acc * 256 + b) 0 bs.

(** The message schedule: [n] further words from the reversed window [rw]. *)
Fixpoint schedule (n : nat) (rw : list N) : list N :=
  match n with
  | O => reverse rw
  | S n =>
      let w := w32 (small_sigma1 (nth 1 rw 0) + nth 6 rw 0 + small_sigma0 (nth 14 rw 0) + nth 15 rw 0) in
      schedule n (w :: rw)
  end.

Definition sha_round (st : sha_state) (kw : N * N) : sha_state :=
  let '(ShaState a b c d e f g h) := st in
  let t1 := h + big_sigma1 e + sha_ch e f g + fst kw + snd kw in
  let t2 := big_sigma0 a + sha_maj a b c in
  ShaState (w32 (t1 + t2)) a b c (w32 (d + t1)) e f g.

Definition sha_add (s t : sha_state) : sha_state :=
  ShaState (w32 (ha s + ha t)) (w32 (hb s + hb t)) (w32 (hc s + hc t)) (w32 (hd' s + hd' t))
           (w32 (he s + he t)) (w32 (hf s + hf t)) (w32 (hg s + hg t)) (w32 (hh s + hh t)).

Fixpoint chunks (fuel n : nat) (l : list N) : list (list N) :=
  match fuel, l with
  | S fuel, _ :: _ => take n l :: chunks fuel n (drop n l)
  | _, _ => []
  end.

Definition sha_block (st : sha_state) (blk : list N) : sha_state :=
  let w := schedule 48 (reverse (be_word <$> chunks 16 4 blk)) in
  sha_add st (foldl sha_round st (zip sha_k w)).

Definition sha_pad (msg : list N) : list N :=
  let len := N.of_nat (length msg) in
  let zeros := N.to_nat ((119 - len mod 64) mod 64) in
  msg ++ [128] ++ replicate zeros 0 ++ be_bytes 8 (len * 8).

Definition sha_digest (s : sha_state) : list N :=
  mjoin (be_bytes 4 <$> [ha s; hb s; hc s; hd' s; he s; hf s; hg s; hh s]).

Definition Sum256 (msg : list N) : list N :=
  let p := sha_pad msg in
  sha_digest (foldl sha_block sha_init (chunks (length p) 64 p)).

(** [[]byte(s)] *)
Definition bytes_of (s : string) : list N := N_of_ascii <$> String.list_ascii_of_string s.

(** ** Lemmas *)

Example sha256_empty :
  EncodeToString (Sum256 []) = "e3b0c44298fc1c149afbf4c8996fb92427ae41e4649b934ca495991b7852b855".
Proof. vm_compute. reflexivity. Qed.

Example sha256_abc :
  EncodeToString (Sum256 (bytes_of "abc"))
  = "ba7816bf8f01cfea414140de5dae2223b00361a396177a9cb410ff61f20015ad".
Proof. vm_compute. reflexivity. Qed.

Example sha256_two_blocks :
  EncodeToString (Sum256 (bytes_of "abcdbcdecdefdefgefghfghighijhijkijkljklmklmnlmnomnopnopq"))
  = "248d6a61d20638b8e5c026930c3e6039a33ce45964ff2167f6ecedd419db06c1".
Proof. vm_compute. reflexivity. Qed.

Lemma be_bytes_length n x : length (be_bytes n x) = n.
Proof.
  revert x. induction n as [|n IH]; intros x; [done|].
  cbn [be_bytes]. rewrite length_app, IH. simpl. lia.
Qed.

Lemma be_bytes_range n x : Forall (λ b, b < 256) (be_bytes n x).
Proof.
  revert x. induction n as [|n IH]; intros x; cbn [be_bytes]; [constructor|].
  apply Forall_app. split; [apply IH|]. repeat constructor. by apply N.mod_lt.
Qed.

Lemma Sum256_length msg : length (Sum256 msg) = 32%nat.
Proof.
  unfold Sum256, sha_digest. cbn [fmap list_fmap mjoin list_join].
  by rewrite !length_app, !be_bytes_length.
Qed.

Lemma Sum256_range msg : Forall (λ b, b < 256) (Sum256 msg).
Proof.
  unfold Sum256, sha_digest. cbn [fmap list_fmap mjoin list_join].
  rewrite !Forall_app. split_and!; try apply be_bytes_range. constructor.
Qed.
