(* ===== verification/GoPath.v ===== *)
(** * Go's [path.Match], byte for byte

    [matchPattern] decides annotation allow and deny rules with [path.Match].
    The definitions follow the standard library's [Match], [scanChunk],
    [matchChunk] and [getEsc], with [utf8.DecodeRuneInString] for the character
    classes.  [None] is [ErrBadPattern].  The loops of Go shorten the pattern at
    every turn; here they carry fuel, and [Match_go_fuel] shows that the length of
    the pattern is enough. *)

From Stdlib Require Import Ascii.
From S2P Require Import Prelude GoStrings.

Local Open Scope go_scope.

(** ** [utf8.DecodeRuneInString]: the rune and its width *)

Definition runeError : Z := 65533.

Definition cont (lo hi : Z) (s : string) : option (Z * string) :=
  match s with
  | String a t =>
      if ((lo <=? byte_of a) && (byte_of a <=? hi))%Z then Some ((byte_of a mod 64)%Z, t) else None
  | "" => None
  end.

Definition decode2 (b0 : Z) (t : string) : Z * nat :=
  match cont 128 191 t with
  | Some (c1, _) => (((b0 mod 32) * 64 + c1)%Z, 2)
  | None => (runeError, 1)
  end.

Definition decode3 (b0 lo hi : Z) (t : string) : Z * nat :=
  match cont lo hi t with
  | Some (c1, t1) =>
      match cont 128 191 t1 with
      | Some (c2, _) => (((b0 mod 16) * 4096 + c1 * 64 + c2)%Z, 3)
      | None => (runeError, 1)
      end
  | None => (runeError, 1)
  end.

Definition decode4 (b0 lo hi : Z) (t : string) : Z * nat :=
  match cont lo hi t with
  | Some (c1, t1) =>
      match cont 128 191 t1 with
      | Some (c2, t2) =>
          match cont 128 191 t2 with
          | Some (c3, _) => (((b0 mod 8) * 262144 + c1 * 4096 + c2 * 64 + c3)%Z, 4)
          | None => (runeError, 1)
          end
      | None => (runeError, 1)
      end
  | None => (runeError, 1)
  end.

Definition DecodeRune (s : string) : Z * nat :=
  match s with
  | "" => (runeError, 0)
  | String a t =>
      let b0 := byte_of a in
      if (b0 <? 128)%Z then (b0, 1)
      else if (b0 <? 194)%Z then (runeError, 1)
      else if (b0 <? 224)%Z then decode2 b0 t
      else if (b0 =? 224)%Z then decode3 b0 160 191 t
      else if (b0 =? 237)%Z then decode3 b0 128 159 t
      else if (b0 <? 240)%Z then decode3 b0 128 191 t
      else if (b0 =? 240)%Z then decode4 b0 144 191 t
      else if (b0 <? 244)%Z then decode4 b0 128 191 t
      else if (b0 =? 244)%Z then decode4 b0 128 143 t
      else (runeError, 1)
  end.

(** ** [scanChunk] *)

Fixpoint strip_stars (p : string) : bool * string :=
  match p with
  | String "*" t => (true, snd (strip_stars t))
  | _ => (false, p)
  end.

Fixpoint scan_go (s : string) (inrange : bool) : string * string :=
  match s with
  | "" => ("", "")
  | String a t =>
      if Ascii.eqb a "\" then
        match t with
        | "" => (s, "")
        | String b u => let '(c, r) := scan_go u inrange in (String a (String b c), r)
        end
      else if Ascii.eqb a "*" && negb inrange then ("", s)
      else
        let inrange' := if Ascii.eqb a "[" then true else if Ascii.eqb a "]" then false else inrange in
        let '(c, r) := scan_go t inrange' in (String a c, r)
  end.

Definition scanChunk (p : string) : bool * string * string :=
  let '(star, p') := strip_stars p in
  let '(chunk, rest) := scan_go p' false in
  (star, chunk, rest).

(** ** [getEsc]: one possibly escaped rune of a character class *)

Definition getEsc (chunk : string) : option (Z * string) :=
  match chunk with
  | "" => None
  | String a t =>
      if Ascii.eqb a "-" || Ascii.eqb a "]" then None
      else
        let body := if Ascii.eqb a "\" then t else chunk in
        if bool_decide (body = "") then None
        else
          let '(r, n) := DecodeRune body in
          let nchunk := str_drop n body in
          if (r =? runeError)%Z && (n =? 1) then None
          else if bool_decide (nchunk = "") then None
          else Some (r, nchunk)
  end.

(** ** [matchChunk] *)

(** The class loop: [nrange] says whether a range was read already. *)
Fixpoint class_go (fuel : nat) (chunk : string) (r : Z) (nrange matched : bool)
  : option (bool * string) :=
  match fuel with
  | O => None
  | S fuel =>
      let close :=
        match chunk with
        | String "]" t => if nrange then Some t else None
        | _ => None
        end in
      match close with
      | Some t => Some (matched, t)
      | None =>
          match getEsc chunk with
          | None => None
          | Some (lo, chunk1) =>
              let hi :=
                match chunk1 with
                | String "-" t => getEsc t
                | _ => Some (lo, chunk1)
                end in
              match hi with
              | None => None
              | Some (hi, chunk2) =>
                  class_go fuel chunk2 r true (matched || ((lo <=? r) && (r <=? hi))%Z)
              end
          end
      end
  end.

Inductive chunk_match := MNo | MYes (rest : string).

Fixpoint matchChunk_go (fuel : nat) (chunk s : string) (failed : bool) : option chunk_match :=
  match chunk with
  | "" => Some (if failed then MNo else MYes s)
  | String a t =>
      match fuel with
      | O => None
      | S fuel =>
          let failed := failed || bool_decide (s = "") in
          if Ascii.eqb a "[" then
            let '(r, n) := if failed then (0%Z, 0) else DecodeRune s in
            let s := str_drop n s in
            let '(negated, t) :=
              match t with
              | String "^" u => (true, u)
              | _ => (false, t)
              end in
            match class_go (S (String.length t)) t r false false with
            | None => None
            | Some (m, rest) => matchChunk_go fuel rest s (failed || Bool.eqb m negated)
            end
          else if Ascii.eqb a "?" then
            let slash := match s with String "/" _ => true | _ => false end in
            let n := if failed then 0 else snd (DecodeRune s) in
            matchChunk_go fuel t (str_drop n s) (failed || slash)
          else
            let lit := if Ascii.eqb a "\" then t else chunk in
            match lit with
            | "" => None
            | String b u =>
                match s with
                | String c s' =>
                    if failed then matchChunk_go fuel u s true
                    else matchChunk_go fuel u s' (negb (Ascii.eqb b c))
                | "" => matchChunk_go fuel u s true
                end
            end
      end
  end.

Definition matchChunk (chunk s : string) : option chunk_match :=
  matchChunk_go (String.length chunk) chunk s false.

(** ** [Match] *)

Inductive skip_result := SkipBad | SkipNone | SkipTo (rest : string).

(** The inner loop of a star: match the chunk after skipping bytes, never a slash. *)
Fixpoint try_skip (chunk : string) (last : bool) (name : string) : skip_result :=
  match name with
  | "" => SkipNone
  | String a name' =>
      if Ascii.eqb a "/" then SkipNone
      else match matchChunk chunk name' with
           | None => SkipBad
           | Some (MYes t) =>
               if last && negb (bool_decide (t = "")) then try_skip chunk last name' else SkipTo t
           | Some MNo => try_skip chunk last name'
           end
  end.

(** The remainder of a failed pattern is still checked for syntax. *)
Fixpoint check_rest (fuel : nat) (pattern : string) : option bool :=
  match pattern, fuel with
  | "", _ => Some false
  | _, O => None
  | _, S fuel =>
      let '(_, chunk, rest) := scanChunk pattern in
      match matchChunk chunk "" with
      | None => None
      | Some _ => check_rest fuel rest
      end
  end.

Fixpoint Match_go (fuel : nat) (pattern name : string) : option bool :=
  match pattern, fuel with
  | "", _ => Some (bool_decide (name = ""))
  | _, O => None
  | _, S fuel =>
      let '(star, chunk, rest) := scanChunk pattern in
      if star && bool_decide (chunk = "") then Some (negb (has_byte "/" name))
      else
        match matchChunk chunk name with
        | None => None
        | Some m =>
            let next :=
              match m with
              | MYes t =>
                  if bool_decide (t = "") || negb (bool_decide (rest = "")) then Some t else None
              | MNo => None
              end in
            match next with
            | Some t => Match_go fuel rest t
            | None =>
                match (if star then try_skip chunk (bool_decide (rest = "")) name else SkipNone) with
                | SkipBad => None
                | SkipTo t => Match_go fuel rest t
                | SkipNone => check_rest fuel rest
                end
            end
        end
  end.

Definition Match (pattern name : string) : option bool :=
  Match_go (String.length pattern) pattern name.

(** Examples of the documented behaviour of [path.Match]. *)
Example Match_tests :
  [Match "a*" "abc"; Match "a*" "ab/c"; Match "*c" "abc"; Match "a*/b" "abc/b"; Match "a*/b" "a/c/b";
   Match "a[b-d]e" "ace"; Match "a[^a]b" "aab"; Match "a[" "a"; Match "a\*b" "a*b"; Match "[-]" "-";
   Match "a*b*c*d*e*/f" "axbxcxdxe/f"; Match "a?b" "a/b"; Match "[]a]" "]"; Match "a[" "x";
   Match "*x" "xxx"; Match "nginx.*/*" "nginx.org/x"; Match "\" "a"]
  = [Some true; Some false; Some true; Some true; Some false;
     Some true; Some false; None; Some true; None;
     Some true; Some false; None; None;
     Some true; Some true; None].
Proof. vm_compute. reflexivity. Qed.

(** ** Lemmas *)

(** Bytes without a special meaning in a pattern. *)
Definition plain_byte (a : ascii) : bool :=
  negb (Ascii.eqb a "*" || Ascii.eqb a "?" || Ascii.eqb a "[" || Ascii.eqb a "\").
Definition plain (p : string) : bool := str_forall plain_byte p.

Lemma plain_byte_cases a : plain_byte a = true →
  Ascii.eqb a "*" = false ∧ Ascii.eqb a "?" = false ∧ Ascii.eqb a "[" = false ∧ Ascii.eqb a "\" = false.
Proof.
  unfold plain_byte. intros H%negb_true_iff.
  repeat apply orb_false_iff in H as [H ?]. auto.
Qed.

Lemma strip_stars_plain a t : plain_byte a = true → strip_stars (String a t) = (false, String a t).
Proof. intros (H & _)%plain_byte_cases. by destruct a as [[] [] [] [] [] [] [] []]. Qed.

(** Scanning a literal leaves it whole, whatever the class flag was. *)
Lemma scan_go_plain p : plain p = true → ∀ b, scan_go p b = (p, "").
Proof.
  unfold plain. induction p as [|a p IH]; simpl; [done|]. intros [Ha Hp]%andb_true_iff b.
  destruct (plain_byte_cases _ Ha) as (-> & _ & -> & ->). simpl. by rewrite IH.
Qed.

(** A literal followed by a star ends the chunk at the star unless a class is open. *)
Lemma scan_go_plain_star p : str_forall (λ a, negb (Ascii.eqb a "]")) p = true →
  plain p = true → scan_go (p ⊕ "*") false = (p, "*").
Proof.
  unfold plain. induction p as [|a p IH]; [done|].
  rewrite str_app_cons. simpl. intros [Hb Hq]%andb_true_iff [Ha Hp]%andb_true_iff.
  destruct (plain_byte_cases _ Ha) as (-> & _ & -> & ->).
  apply negb_true_iff in Hb as ->. simpl. by rewrite IH.
Qed.

Lemma matchChunk_go_failed p : plain p = true → ∀ fuel s,
  String.length p ≤ fuel → matchChunk_go fuel p s true = Some MNo.
Proof.
  unfold plain. induction p as [|a p IH]; intros Hp fuel s Hf; [by destruct fuel|].
  simpl in *. apply andb_true_iff in Hp as [Ha Hp].
  destruct fuel as [|fuel]; [lia|]. simpl.
  destruct (plain_byte_cases _ Ha) as (_ & -> & -> & ->).
  destruct s; apply IH; auto; lia.
Qed.

(** A literal chunk matches exactly the names it is a prefix of. *)
Lemma matchChunk_go_plain p : plain p = true → ∀ fuel s,
  String.length p ≤ fuel →
  matchChunk_go fuel p s false =
    Some (if HasPrefix s p then MYes (str_drop (String.length p) s) else MNo).
Proof.
  unfold plain, HasPrefix. induction p as [|a p IH]; intros Hp fuel s Hf.
  { destruct fuel; by destruct s. }
  simpl in *. apply andb_true_iff in Hp as [Ha Hp].
  destruct fuel as [|fuel]; [lia|]. simpl.
  destruct (plain_byte_cases _ Ha) as (_ & -> & -> & ->).
  destruct s as [|c s]; simpl.
  { apply matchChunk_go_failed; [done|lia]. }
  destruct (ascii_dec a c) as [->|Hne].
  - rewrite Ascii.eqb_refl. simpl. apply IH; [done|lia].
  - apply Ascii.eqb_neq in Hne as ->. simpl. apply matchChunk_go_failed; [done|lia].
Qed.

Lemma matchChunk_plain p s : plain p = true →
  matchChunk p s = Some (if HasPrefix s p then MYes (str_drop (String.length p) s) else MNo).
Proof. intros. by apply matchChunk_go_plain. Qed.

Lemma prefix_full s p : HasPrefix s p = true → str_drop (String.length p) s = "" → s = p.
Proof.
  intros [t ->]%HasPrefix_inv. rewrite str_drop_app. intros ->. apply str_app_nil_r.
Qed.

(** A pattern without special bytes is an exact comparison. *)
Lemma Match_plain p name : plain p = true → Match p name = Some (bool_decide (p = name)).
Proof.
  intros Hp. destruct p as [|a p].
  { unfold Match. simpl. f_equal. apply bool_decide_ext. naive_solver. }
  unfold Match. cbn [Match_go String.length]. unfold scanChunk.
  pose proof Hp as Hp'. unfold plain in Hp'. simpl in Hp'. apply andb_true_iff in Hp' as [Ha _].
  rewrite strip_stars_plain, scan_go_plain by done.
  rewrite andb_false_l, matchChunk_plain by done. simpl orb.
  destruct (HasPrefix name (String a p)) eqn:Hpre.
  - rewrite orb_false_r. case_bool_decide as Hd.
    + rewrite Hd. apply prefix_full in Hd; [|done]. subst name.
      destruct (String.length p); by rewrite (bool_decide_eq_true_2 (_ = _)).
    + rewrite (bool_decide_eq_false_2 (String a p = name)); [by destruct (String.length p)|].
      intros <-. apply Hd. rewrite <-(str_app_nil_r (String a p)) at 2. apply str_drop_app.
  - rewrite (bool_decide_eq_false_2 (String a p = name)); [by destruct (String.length p)|].
    intros <-. rewrite <-(str_app_nil_r (String a p)) in Hpre at 1. by rewrite HasPrefix_app in Hpre.
Qed.

(** A literal prefix followed by a star matches the names that extend the prefix
    without another slash: the star of [path.Match] never crosses a slash. *)
Lemma Match_plain_star p name : plain p = true → str_forall (λ a, negb (Ascii.eqb a "]")) p = true →
  p ≠ "" →
  Match (p ⊕ "*") name =
    Some (HasPrefix name p && negb (has_byte "/" (str_drop (String.length p) name))).
Proof.
  intros Hp Hb Hne. destruct p as [|a p]; [done|]. clear Hne.
  unfold Match. rewrite str_length_app, str_app_cons. cbn [Match_go String.length Nat.add].
  pose proof Hp as Hp'. unfold plain in Hp'. simpl in Hp'. apply andb_true_iff in Hp' as [Ha _].
  unfold scanChunk. rewrite strip_stars_plain by done.
  pose proof (scan_go_plain_star _ Hb Hp) as Hs. rewrite str_app_cons in Hs. rewrite Hs.
  rewrite andb_false_l, matchChunk_plain by done.
  rewrite (bool_decide_eq_false_2 ("*" = "")) by done.
  rewrite Nat.add_1_r.
  destruct (HasPrefix name (String a p)); [|by destruct (String.length p)].
  cbn [negb]. by rewrite orb_true_r.
Qed.

(** The name of the matched rule never changes the syntax verdict of a literal pattern. *)
Lemma Match_plain_refl p : plain p = true → Match p p = Some true.
Proof. intros Hp. rewrite Match_plain by done. by rewrite bool_decide_eq_true_2. Qed.

(** *** Fuel: the length of the pattern is enough for every loop *)

Lemma strip_stars_length p : String.length (snd (strip_stars p)) ≤ String.length p.
Proof.
  induction p as [|a p IH]; simpl; [lia|].
  destruct a as [[] [] [] [] [] [] [] []]; simpl; lia.
Qed.

Lemma strip_stars_star p : fst (strip_stars p) = true →
  String.length (snd (strip_stars p)) < String.length p.
Proof.
  destruct p as [|a p]; simpl; [done|]. pose proof (strip_stars_length p).
  destruct a as [[] [] [] [] [] [] [] []]; simpl; intros; try done; lia.
Qed.

Lemma scan_go_rest_length fuel : ∀ s b, String.length s ≤ fuel →
  String.length (snd (scan_go s b)) ≤ String.length s.
Proof.
  induction fuel as [|fuel IH]; intros [|a s] b Hf; simpl in *; try lia.
  destruct (Ascii.eqb a "\").
  { destruct s as [|b' u]; simpl; [lia|].
    specialize (IH u b). destruct (scan_go u b). simpl in *. lia. }
  destruct (Ascii.eqb a "*" && negb b); simpl; [lia|].
  match goal with |- context [scan_go s ?x] => specialize (IH s x); destruct (scan_go s x) end.
  simpl in *. lia.
Qed.

Lemma scanChunk_rest_shorter p : p ≠ "" → String.length (snd (scanChunk p)) < String.length p.
Proof.
  intros Hne. unfold scanChunk.
  destruct (strip_stars p) as [star p'] eqn:Hs.
  pose proof (strip_stars_length p) as Hl. pose proof (strip_stars_star p) as Hst.
  rewrite Hs in Hl, Hst. simpl in *.
  pose proof (scan_go_rest_length _ p' false (le_n _)) as Hr.
  destruct star; [specialize (Hst eq_refl); destruct (scan_go p' false); simpl in *; lia|].
  assert (p' = p) as ->.
  { destruct p as [|a p]; [done|]. simpl in Hs.
    destruct a as [[] [] [] [] [] [] [] []]; congruence. }
  destruct p as [|a p]; [done|]. clear Hl Hst Hr Hne.
  simpl in Hs |- *. destruct (Ascii.eqb_spec a "*") as [->|Hns]; [simpl in Hs; congruence|].
  destruct (Ascii.eqb a "\").
  { destruct p as [|b u]; simpl; [lia|].
    pose proof (scan_go_rest_length _ u false (le_n _)). destruct (scan_go u false). simpl in *. lia. }
  simpl. match goal with |- context [scan_go p ?x] =>
    pose proof (scan_go_rest_length _ p x (le_n _)); destruct (scan_go p x) end.
  simpl in *. lia.
Qed.

Lemma check_rest_fuel n : ∀ m p, String.length p ≤ n → String.length p ≤ m →
  check_rest n p = check_rest m p.
Proof.
  induction n as [|n IH]; intros m [|a p] Hn Hm; simpl in Hn, Hm; try lia; try by destruct m.
  destruct m as [|m]; [lia|]. cbn [check_rest].
  pose proof (scanChunk_rest_shorter (String a p)) as Hlt.
  destruct (scanChunk (String a p)) as [[star chunk] rest]. simpl in Hlt.
  specialize (Hlt ltac:(done)). destruct (matchChunk chunk ""); [|done].
  apply IH; lia.
Qed.

(** More fuel than the length of the pattern changes nothing. *)
Lemma Match_go_fuel n : ∀ m p name, String.length p ≤ n → String.length p ≤ m →
  Match_go n p name = Match_go m p name.
Proof.
  induction n as [|n IH]; intros m [|a p] name Hn Hm; simpl in Hn, Hm; try lia; try by destruct m.
  destruct m as [|m]; [lia|]. cbn [Match_go].
  pose proof (scanChunk_rest_shorter (String a p)) as Hlt.
  destruct (scanChunk (String a p)) as [[star chunk] rest]. simpl in Hlt.
  specialize (Hlt ltac:(done)).
  repeat case_match; try done; try (apply IH; lia); try (apply check_rest_fuel; lia).
Qed.
