(* ===== verification/GoNet.v ===== *)
(** * [net.ParseIP]: which strings are IP addresses, and how they are written

    [net.ParseIP(s) != nil] as the Go standard library decides it: four decimal fields
    without leading zeros, or an IPv6 address in any of its notations, without a zone. *)

From Stdlib Require Import Ascii.
From S2P Require Import Prelude GoStrings.

Local Open Scope go_scope.

Definition is_hex (a : ascii) : bool := is_digit a || in_range "a" "f" a || in_range "A" "F" a.

(** One field of an IPv4 address *)
Definition ipv4_field (f : string) : bool :=
  negb (bool_decide (f = "")) && str_forall is_digit f &&
  match f with
  | String "0" (String _ _) => false
  | _ => match parse_digits f 0 with Some v => (v <=? 255)%Z | None => false end
  end.

Definition is_ipv4 (s : string) : bool :=
  let fields := Split s "." in
  bool_decide (length fields = 4) && forallb ipv4_field fields.

(** The leading hexadecimal digits and the rest *)
Fixpoint hex_span (s : string) : nat * string :=
  match s with
  | String a t => if is_hex a then let '(n, r) := hex_span t in (S n, r) else (0, s)
  | "" => (0, "")
  end.

(** The loop over the groups; [room] counts the 16-bit groups left, [ellipsis] says that a
    double colon has been read. The result is [Some] of whether the groups fill the
    address and whether there was a double colon. *)
Fixpoint ipv6_groups (room : nat) (ellipsis : bool) (s : string) : option (bool * bool) :=
  match room with
  | 0 => if bool_decide (s = "") then Some (true, ellipsis) else None
  | S room' =>
      let '(digits, rest) := hex_span s in
      if bool_decide (digits = 0 ∨ 4 < digits) then None
      else
        match rest with
        | "" => Some (bool_decide (room' = 0), ellipsis)
        | String "." _ =>
            if negb ellipsis && negb (bool_decide (room = 2)) then None
            else if bool_decide (room < 2) then None
            else if is_ipv4 s then Some (bool_decide (room = 2), ellipsis) else None
        | String ":" "" => None
        | String ":" (String ":" t) =>
            if ellipsis then None
            else if bool_decide (t = "") then Some (bool_decide (room' = 0), true)
            else ipv6_groups room' true t
        | String ":" t => ipv6_groups room' ellipsis t
        | _ => None
        end
  end.

Definition is_ipv6 (s : string) : bool :=
  match
    match s with
    | String ":" (String ":" "") => Some (false, true)
    | String ":" (String ":" t) => ipv6_groups 8 true t
    | _ => ipv6_groups 8 false s
    end
  with
  | Some (full, ellipsis) => negb (Bool.eqb full ellipsis)
  | None => false
  end.

(** The first dot or colon decides the family; a percent sign starts a zone. *)
Fixpoint first_separator (s : string) : option ascii :=
  match s with
  | "" => None
  | String a t => if Ascii.eqb a "." || Ascii.eqb a ":" || Ascii.eqb a "%" then Some a else first_separator t
  end.

Definition ParseIP (s : string) : bool :=
  match first_separator s with
  | Some "."%char => is_ipv4 s
  | Some ":"%char => negb (has_byte "%" s) && is_ipv6 s
  | _ => false
  end.

Example parse_ip_samples :
  ParseIP <$> ["10.0.0.1"; "::1"; "fe80::1"; "1:2:3:4:5:6:7:8"; "::ffff:10.0.0.1"; "::"; "1::"; "1:2:3:4:5:6:1.2.3.4"] =
    replicate 8 true ∧
  ParseIP <$> [""; "node-1.example.com"; "10.0.0"; "10.0.0.256"; "10.0.0.01"; "1:2:3"; ":::"; "1::2::3";
               "1:2:3:4:5:6:7::8"; "fe80::1%eth0"; "10.0.0.1."; "12345::"] = replicate 12 false.
Proof. by vm_compute. Qed.

(** ** The 16 bytes of [net.ParseIP], as one number

    [bytes.Compare] of two addresses compares these numbers, since both have 16 bytes. *)

Definition nibble_value (a : ascii) : Z :=
  let b := byte_of a in
  (if is_digit a then b - 48 else if in_range "a" "f" a then b - 87 else b - 55)%Z.

Fixpoint hex_value (acc : Z) (s : string) : Z :=
  match s with "" => acc | String a s => hex_value (acc * 16 + nibble_value a) s end.

Definition ipv4_value (s : string) : Z :=
  foldl (λ acc f, acc * 256 + default 0 (parse_digits f 0))%Z 0%Z (Split s ".").

(** The parts before and after the double colon *)
Fixpoint cut_ellipsis (s : string) : string * option string :=
  match s with
  | String ":" (String ":" t) => ("", Some t)
  | String a t => let '(l, r) := cut_ellipsis t in (String a l, r)
  | "" => ("", None)
  end.

(** The 16-bit groups of a part; the last may be an IPv4 address. *)
Definition ipv6_part (s : string) : list Z :=
  if bool_decide (s = "") then []
  else Split s ":" ≫= λ g,
         if has_byte "." g then [ipv4_value g / 65536; ipv4_value g mod 65536]%Z else [hex_value 0 g].

Definition ipv6_value (s : string) : Z :=
  let '(l, r) := cut_ellipsis s in
  let front := ipv6_part l in
  let back := default [] (ipv6_part <$> r) in
  foldl (λ acc g, acc * 65536 + g)%Z 0%Z (front ++ replicate (8 - length front - length back) 0%Z ++ back).

(** [None] is the nil of a string that is not an IP address. *)
Definition ip_value (s : string) : option Z :=
  if ParseIP s then
    Some match first_separator s with
         | Some "."%char => (65535 * 2 ^ 32 + ipv4_value s)%Z
         | _ => ipv6_value s
         end
  else None.

Example ip_values :
  ip_value "10.0.0.1" = ip_value "::ffff:10.0.0.1" ∧ ip_value "::1" = Some 1%Z ∧ ip_value "1::" = Some (2 ^ 112)%Z ∧
  ip_value "::A:b" = Some (10 * 65536 + 11)%Z ∧ ip_value "node-1" = None.
Proof. by vm_compute. Qed.

(** ** [IP.String] and [net.JoinHostPort] *)

Fixpoint hex_groups (fuel : nat) (n : Z) : string :=
  match fuel with
  | O => ""
  | S fuel => (if (n <? 16)%Z then "" else hex_groups fuel (n / 16)) ⊕ String (hex_digit (Z.to_N (n mod 16))) ""
  end.
(** A 16-bit group has at most four digits. *)
Definition hex_group (n : Z) : string := hex_groups 4 n.

Definition ip_groups (v : Z) : list Z := (λ i, Z.shiftr v (16 * (7 - Z.of_nat i)) mod 65536)%Z <$> seq 0 8.

Fixpoint leading_zeros (l : list Z) : nat := match l with 0%Z :: l => S (leading_zeros l) | _ => 0 end.

(** Where the first longest run of two zero groups or more starts, and how long it is *)
Fixpoint longest_run (i : nat) (l : list Z) : nat * nat :=
  match l with
  | [] => (0, 1)
  | _ :: l' => let '(j, n) := longest_run (S i) l' in if decide (n < S (leading_zeros l) ∧ 2 ≤ leading_zeros l) then (i, leading_zeros l) else (j, n)
  end.

Definition IP_String (v : Z) : string :=
  if bool_decide (Z.shiftr v 32 = 65535%Z)
  then Join ((λ i, Itoa (Z.shiftr v (8 * (3 - Z.of_nat i)) mod 256)%Z) <$> seq 0 4) "."
  else
    let groups := ip_groups v in
    let '(i, n) := longest_run 0 groups in
    if decide (2 ≤ n) then Join (hex_group <$> take i groups) ":" ⊕ "::" ⊕ Join (hex_group <$> drop (i + n) groups) ":"
    else Join (hex_group <$> groups) ":".

Definition JoinHostPort (host port : string) : string :=
  if has_byte ":" host then "[" ⊕ host ⊕ "]:" ⊕ port else host ⊕ ":" ⊕ port.

Example ip_strings :
  (λ s, IP_String <$> ip_value s) <$> ["10.0.0.1"; "::ffff:10.0.0.1"; "::"; "::1"; "2001:0DB8::00a0"; "1:0:0:2:0:0:0:3"; "1:0:2:3:4:5:6:7"; "1:0:0:2:3:0:0:4"] =
  Some <$> ["10.0.0.1"; "10.0.0.1"; "::"; "::1"; "2001:db8::a0"; "1:0:0:2::3"; "1:0:2:3:4:5:6:7"; "1::2:3:0:0:4"].
Proof. by vm_compute. Qed.
