(* ===== verification/GoBase64.v ===== *)
(** * [encoding/base64] and [json.Marshal] of bytes

    [base64.StdEncoding] on byte strings, and what [json.Marshal] makes of a byte slice. *)

From Stdlib Require Import Ascii.
From S2P Require Import Prelude GoStrings.
Local Open Scope go_scope.
Local Open Scope Z_scope.

(** The digit of six bits *)
Definition base64_digit (n : Z) : ascii :=
  ascii_of_nat (Z.to_nat
    (if n <? 26 then 65 + n else if n <? 52 then 71 + n else if n <? 62 then n - 4 else if n =? 62 then 43 else 47)).

(** [base64.StdEncoding.EncodeToString] *)
Fixpoint Base64 (s : string) : string :=
  match s with
  | "" => ""
  | String a "" =>
      let x := byte_of a in
      String (base64_digit (x / 4)) (String (base64_digit (x mod 4 * 16)) "==")
  | String a (String b "") =>
      let x := byte_of a in let y := byte_of b in
      String (base64_digit (x / 4)) (String (base64_digit (x mod 4 * 16 + y / 16))
        (String (base64_digit (y mod 16 * 4)) "="))
  | String a (String b (String c t)) =>
      let x := byte_of a in let y := byte_of b in let z := byte_of c in
      String (base64_digit (x / 4)) (String (base64_digit (x mod 4 * 16 + y / 16))
        (String (base64_digit (y mod 16 * 4 + z / 64)) (String (base64_digit (z mod 64)) (Base64 t))))
  end.

Example base64_samples : Base64 <$> ["{}"; "a"; "foobar"; "???>>>"] = ["e30="; "YQ=="; "Zm9vYmFy"; "Pz8/Pj4+"].
Proof. by vm_compute. Qed.

(** [json.Marshal] of a [[]byte]: null for nil, else a string in base64. A status that
    was never set is nil. *)
Definition MarshalBytes (raw : string) : string :=
  if bool_decide (raw = "") then "null" else dquote ⊕ Base64 raw ⊕ dquote.

(** It is never an object. *)
Lemma MarshalBytes_not_object raw : MarshalBytes raw ≠ "{}".
Proof. unfold MarshalBytes. by case_bool_decide. Qed.

(** ** Decoding, for the round trip *)

Definition base64_value (a : ascii) : Z :=
  let n := byte_of a in
  if n =? 43 then 62 else if n =? 47 then 63 else if n <? 58 then n + 4 else if n <? 91 then n - 65 else n - 71.

Definition byte_chr (n : Z) : ascii := ascii_of_nat (Z.to_nat n).

Fixpoint Base64Decode (s : string) : string :=
  match s with
  | String a (String b (String c (String d t))) =>
      let w := base64_value a in let x := base64_value b in
      if Ascii.eqb c "=" then String (byte_chr (w * 4 + x / 16)) ""
      else
        let y := base64_value c in
        if Ascii.eqb d "=" then String (byte_chr (w * 4 + x / 16)) (String (byte_chr (x mod 16 * 16 + y / 4)) "")
        else
          let z := base64_value d in
          String (byte_chr (w * 4 + x / 16)) (String (byte_chr (x mod 16 * 16 + y / 4))
            (String (byte_chr (y mod 4 * 64 + z)) (Base64Decode t)))
  | _ => ""
  end.

Lemma base64_digit_sound : forallb (λ n, (base64_value (base64_digit (Z.of_nat n)) =? Z.of_nat n) &&
  negb (Ascii.eqb (base64_digit (Z.of_nat n)) "=")) (seq 0 64) = true.
Proof. by vm_compute. Qed.

Lemma base64_digit_inv n : 0 ≤ n < 64 → base64_value (base64_digit n) = n ∧ Ascii.eqb (base64_digit n) "=" = false.
Proof.
  intros Hn. pose proof base64_digit_sound as H. rewrite forallb_forall in H. specialize (H (Z.to_nat n)).
  rewrite Z2Nat.id in H by lia. rewrite andb_true_iff, Z.eqb_eq, negb_true_iff in H. apply H. apply in_seq. lia.
Qed.

Lemma byte_of_range a : 0 ≤ byte_of a < 256.
Proof. unfold byte_of. pose proof (N_ascii_bounded a). lia. Qed.
Lemma byte_chr_of a n : n = byte_of a → byte_chr n = a.
Proof.
  intros ->. unfold byte_chr, byte_of. rewrite <- (ascii_nat_embedding a) at 2. f_equal.
  unfold nat_of_ascii. lia.
Qed.

(** Solve the arithmetic of six and eight bits. *)
Ltac bits := Z.to_euclidean_division_equations; lia.

(** Take the digits apart and put the bytes together. *)
Ltac digits :=
  repeat match goal with
  | |- context [base64_value (base64_digit ?n)] =>
      let H := fresh in
      assert (0 ≤ n < 64) as H by bits; rewrite (proj1 (base64_digit_inv n H)); clear H
  | |- context [Ascii.eqb (base64_digit ?n) "="] =>
      let H := fresh in
      assert (0 ≤ n < 64) as H by bits; rewrite (proj2 (base64_digit_inv n H)); clear H
  end.

(** Decoding undoes encoding. *)
Lemma Base64_roundtrip s : Base64Decode (Base64 s) = s.
Proof.
  assert (∀ n s, (String.length s ≤ n)%nat → Base64Decode (Base64 s) = s) as H; [|by eapply (H (String.length s))].
  clear s. induction n as [|n IH]; intros [|a [|b [|c t]]] Hn; simpl in Hn; try done; try lia.
  all: simpl; pose proof (byte_of_range a) as Ha; try pose proof (byte_of_range b) as Hb; try pose proof (byte_of_range c) as Hc.
  - digits. simpl. f_equal. apply byte_chr_of. bits.
  - digits. simpl. repeat f_equal; apply byte_chr_of; bits.
  - digits. rewrite IH by lia. repeat f_equal; apply byte_chr_of; bits.
Qed.

(** ** [base64.StdEncoding.DecodeString] *)

(** Line breaks are skipped; groups of four digits, the last one padded; the bits of the
    last digit that are not needed are not looked at. [None] is a [CorruptInputError]. *)
Definition is_base64 (a : ascii) : bool := is_upper a || is_lower a || is_digit a || Ascii.eqb a "+" || Ascii.eqb a "/".
Fixpoint skipNewlines (s : string) : string :=
  match s with
  | "" => ""
  | String a t => if (byte_of a =? 10) || (byte_of a =? 13) then skipNewlines t else String a (skipNewlines t)
  end.
Fixpoint groups_ok (s : string) : bool :=
  match s with
  | "" => true
  | String a (String b (String c (String d t))) =>
      is_base64 a && is_base64 b &&
      (if Ascii.eqb c "=" then Ascii.eqb d "=" && bool_decide (t = "")
       else is_base64 c && (if Ascii.eqb d "=" then bool_decide (t = "") else is_base64 d && groups_ok t))
  | _ => false
  end.
Definition DecodeString (s : string) : option string :=
  let digits := skipNewlines s in if groups_ok digits then Some (Base64Decode digits) else None.

Lemma base64_digit_ok n : 0 ≤ n < 64 → is_base64 (base64_digit n) = true ∧ (byte_of (base64_digit n) =? 10) || (byte_of (base64_digit n) =? 13) = false.
Proof.
  intros Hn. assert (forallb (λ n, is_base64 (base64_digit (Z.of_nat n)) && negb ((byte_of (base64_digit (Z.of_nat n)) =? 10) || (byte_of (base64_digit (Z.of_nat n)) =? 13))) (seq 0 64) = true) as H by by vm_compute.
  rewrite forallb_forall in H. specialize (H (Z.to_nat n)). rewrite Z2Nat.id in H by lia. rewrite andb_true_iff, negb_true_iff in H. apply H. apply in_seq. lia.
Qed.

Lemma Base64_wellformed s : skipNewlines (Base64 s) = Base64 s ∧ groups_ok (Base64 s) = true.
Proof.
  assert (∀ n s, (String.length s ≤ n)%nat → skipNewlines (Base64 s) = Base64 s ∧ groups_ok (Base64 s) = true) as H; [|by eapply (H (String.length s))].
  clear s. induction n as [|n IH]; intros [|a [|b [|c t]]] Hn; simpl in Hn; try done; try lia.
  all: pose proof (byte_of_range a) as Ha; try pose proof (byte_of_range b) as Hb; try pose proof (byte_of_range c) as Hc; cbn [Base64].
  all: repeat match goal with
    | |- context [base64_digit ?n] =>
        let H := fresh in assert (0 ≤ n < 64) as H by bits; destruct (base64_digit_ok n H) as [? ?]; pose proof (proj2 (base64_digit_inv n H)); clear H;
        generalize dependent (base64_digit n); intros end.
  all: cbn [skipNewlines groups_ok]; repeat match goal with H : _ = _ |- _ => rewrite H end; try (split; reflexivity).
  destruct (IH t ltac:(lia)) as [-> ->]. split; reflexivity.
Qed.

Lemma DecodeString_Base64 s : DecodeString (Base64 s) = Some s.
Proof. unfold DecodeString. destruct (Base64_wellformed s) as [-> ->]. by rewrite Base64_roundtrip. Qed.

(** The bytes of an encoding *)
Definition base64_byte (a : ascii) : bool := is_base64 a || Ascii.eqb a "=".

Lemma groups_ok_bytes s : groups_ok s = true → str_forall base64_byte s = true.
Proof.
  assert (∀ n s, (String.length s ≤ n)%nat → groups_ok s = true → str_forall base64_byte s = true) as H; [|by eapply (H (String.length s))].
  clear s. induction n as [|n IH]; intros [|a [|b [|c [|d t]]]] Hn; simpl in Hn; try done; try lia.
  cbn [groups_ok str_forall]. unfold base64_byte at 1 2 3 4.
  intros [[Ha Hb]%andb_true_iff H]%andb_true_iff. rewrite Ha, Hb. destruct (Ascii.eqb c "=").
  - apply andb_true_iff in H as [-> ->%bool_decide_eq_true]. by rewrite !orb_true_r.
  - apply andb_true_iff in H as [-> H]. destruct (Ascii.eqb d "="); [apply bool_decide_eq_true in H as ->; by rewrite orb_true_r|].
    apply andb_true_iff in H as [-> H]. simpl. by apply IH; [lia|].
Qed.

Lemma Base64_bytes s : str_forall base64_byte (Base64 s) = true.
Proof. apply groups_ok_bytes, Base64_wellformed. Qed.

(** A text with another byte than these and line breaks is not an encoding. *)
Lemma DecodeString_foreign s a : has_byte a s = true → base64_byte a = false → (byte_of a =? 10) || (byte_of a =? 13) = false → DecodeString s = None.
Proof.
  intros Hs Ha Hn. unfold DecodeString. destruct (groups_ok _) eqn:Hg; [|done]. apply groups_ok_bytes in Hg. exfalso. revert Hs Hg. unfold has_byte.
  induction s as [|b s IH]; [done|]. cbn [str_forall skipNewlines]. destruct (Ascii.eqb_spec b a) as [->|Hne].
  - rewrite Hn. cbn [str_forall]. by rewrite Ha.
  - cbn [negb andb]. intros Hs. destruct ((byte_of b =? 10) || (byte_of b =? 13)); [by apply IH|]. cbn [str_forall]. intros [_ Hg]%andb_true_iff. by apply IH.
Qed.
