(* ===== verification/Api.v ===== *)
(** * The resources KubeLB stores and watches

    [api/ce/kubelb.k8c.io/v1alpha1] as records of the fields the modelled components
    read or write.  The Kubernetes types these
    structures embed ([metav1.ObjectMeta], [corev1.Service], [unstructured]) are
    records of the fields the program reads or writes.  A Go map that may be nil
    is an [option]: [None] is nil, which [CompareAnnotations] tells apart from the
    empty map. *)

From S2P Require Import Prelude.

(** ** Kubernetes types *)

Abbreviation StrMap := (gmap string string).
Abbreviation GoMap := (option (gmap string string)).

(** Reading a nil map behaves like reading an empty one. *)
Definition entries (m : GoMap) : StrMap := default ∅ m.
(** [m[k]]: the zero value when the key is absent. *)
Definition get (m : GoMap) (k : string) : string := default "" (entries m !! k).

(** [metav1.OwnerReference], of a controlling owner *)
Record OwnerReference := {
  or_APIVersion : string;
  or_Kind : string;
  or_Name : string;
  or_UID : string;
}.

(** [om_Deleting] says whether [DeletionTimestamp] is set. *)
Record ObjectMeta := {
  om_Name : string;
  om_Namespace : string;
  om_UID : string;
  om_Labels : GoMap;
  om_Annotations : GoMap;
  om_Finalizers : list string;
  om_OwnerReferences : list OwnerReference;
  om_Deleting : bool;
}.

(** Metadata as a literal of the code gives it: no finalizers, no owners, not deleting. *)
Definition objectMeta (name ns uid : string) (labels annotations : GoMap) : ObjectMeta :=
  {| om_Name := name; om_Namespace := ns; om_UID := uid; om_Labels := labels; om_Annotations := annotations;
     om_Finalizers := []; om_OwnerReferences := []; om_Deleting := false |}.

Definition ProtocolTCP : string := "TCP".
Definition ProtocolUDP : string := "UDP".
Definition ServiceAffinityClientIP : string := "ClientIP".
Definition LastAppliedConfigAnnotation : string := "kubectl.kubernetes.io/last-applied-configuration".

(** [intstr.IntOrString] *)
Inductive IntOrString :=
| FromInt (z : Z)
| FromString (s : string).

(** [corev1.ServicePort] *)
Record CoreServicePort := {
  sp_Name : string;
  sp_Protocol : string;
  sp_Port : Z;
  sp_TargetPort : IntOrString;
  sp_NodePort : Z;
}.

(** [corev1.PortStatus] and [corev1.LoadBalancerIngress] *)
Record PortStatus := { pst_Port : Z; pst_Protocol : string; pst_Error : option string }.
Record LoadBalancerIngress := {
  lbi_IP : string;
  lbi_Hostname : string;
  lbi_IPMode : option string;
  lbi_Ports : list PortStatus;
}.

(** [corev1.Service]: metadata, the fields of [Spec] and [Status.LoadBalancer.Ingress] *)
Record Service := {
  svc_Meta : ObjectMeta;
  svc_Ports : list CoreServicePort;
  svc_Type : string;
  svc_ExternalTrafficPolicy : string;
  svc_SessionAffinity : string;
  svc_Selector : GoMap;
  svc_ClusterIP : string;
  svc_ClusterIPs : list string;
  svc_LoadBalancerClass : option string;
  svc_AllocateLoadBalancerNodePorts : option bool;
  svc_LoadBalancerSourceRanges : list string;
  svc_ExternalName : string;
  svc_IPFamilies : list string;
  svc_IPFamilyPolicy : option string;
  svc_InternalTrafficPolicy : option string;
  svc_Ingress : list LoadBalancerIngress;
}.

(** A Service literal with ports, type, traffic policy and affinity *)
Definition service (meta : ObjectMeta) (ports : list CoreServicePort) (type policy affinity : string) : Service :=
  {| svc_Meta := meta; svc_Ports := ports; svc_Type := type; svc_ExternalTrafficPolicy := policy;
     svc_SessionAffinity := affinity; svc_Selector := None; svc_ClusterIP := ""; svc_ClusterIPs := [];
     svc_LoadBalancerClass := None; svc_AllocateLoadBalancerNodePorts := None;
     svc_LoadBalancerSourceRanges := []; svc_ExternalName := ""; svc_IPFamilies := []; svc_IPFamilyPolicy := None;
     svc_InternalTrafficPolicy := None; svc_Ingress := [] |}.

(** [unstructured.Unstructured]: what the accessors the program calls return, and the
    [spec] of the object as JSON text. *)
Record Unstructured := {
  u_APIVersion : string;
  u_Kind : string;
  u_Meta : ObjectMeta;
  u_Spec : string;
}.
Definition u_Name (u : Unstructured) : string := om_Name (u_Meta u).
Definition u_Namespace (u : Unstructured) : string := om_Namespace (u_Meta u).
Definition u_Annotations (u : Unstructured) : GoMap := om_Annotations (u_Meta u).

(** ** [common_types.go] *)

Record EndpointAddress := { ea_IP : string; ea_Hostname : string }.

Record EndpointPort := { ep_Name : string; ep_Port : Z; ep_Protocol : string }.

(** [lbe_AddressesReference] is the name in the [corev1.ObjectReference]. *)
Record LoadBalancerEndpoints := {
  lbe_Name : string;
  lbe_Addresses : list EndpointAddress;
  lbe_AddressesReference : option string;
  lbe_Ports : list EndpointPort;
}.

Definition DefaultAddressName : string := "default".

(** [type AnnotatedResource string] and its constants *)
Abbreviation AnnotatedResource := string (only parsing).
Definition AnnotatedResourceAll : AnnotatedResource := "all".
Definition AnnotatedResourceService : AnnotatedResource := "service".
Definition AnnotatedResourceIngress : AnnotatedResource := "ingress".
Definition AnnotatedResourceGateway : AnnotatedResource := "gateway".
Definition AnnotatedResourceHTTPRoute : AnnotatedResource := "httproute".
Definition AnnotatedResourceGRPCRoute : AnnotatedResource := "grpcroute".

Record AnnotationSettings := {
  as_PropagatedAnnotations : option StrMap;
  as_PropagateAllAnnotations : option bool;
  as_DeniedAnnotations : option (list string);
  as_DefaultAnnotations : option (gmap AnnotatedResource StrMap);
}.

(** ** [loadbalancer_types.go] *)

Record LoadBalancerPort := { lbp_Name : string; lbp_Protocol : string; lbp_Port : Z }.

Definition LoadBalancerPersistenceTypeSourceIP : string := "SourceIP".
Record LoadBalancerPersistence := { pers_Type : string }.

Record LoadBalancerSpec := {
  lbs_Endpoints : list LoadBalancerEndpoints;
  lbs_Ports : list LoadBalancerPort;
  lbs_Hostname : string;
  lbs_Type : string;
  lbs_ExternalTrafficPolicy : string;
  lbs_Persistence : option LoadBalancerPersistence;
}.

(** The status type [ServicePort]: a [corev1.ServicePort] and the upstream port. *)
Record ServicePort := { stp_Core : CoreServicePort; stp_UpstreamTargetPort : Z }.
Record ServiceStatus := { ss_Ports : list ServicePort }.

Record HostnameStatus := {
  hs_Hostname : string;
  hs_TLSEnabled : bool;
  hs_DNSRecordCreated : bool;
}.

(** [lst_LoadBalancer] is [corev1.LoadBalancerStatus], its list of ingress points. *)
Record LoadBalancerStatus := {
  lst_LoadBalancer : list LoadBalancerIngress;
  lst_Service : ServiceStatus;
  lst_Hostname : option HostnameStatus;
}.
Definition emptyLoadBalancerStatus : LoadBalancerStatus :=
  {| lst_LoadBalancer := []; lst_Service := {| ss_Ports := [] |}; lst_Hostname := None |}.

Record LoadBalancer := {
  lb_Meta : ObjectMeta;
  lb_Spec : LoadBalancerSpec;
  lb_Status : LoadBalancerStatus;
}.

(** ** [route_types.go] *)

Record KubernetesSource := { ks_Route : Unstructured; ks_Services : list Service }.

(** [metav1.Condition]; times and the observed generation are left out. The status is
    ["True"], ["False"] or ["Unknown"]. *)
Record Condition := {
  cond_Type : string;
  cond_Status : string;
  cond_Reason : string;
  cond_Message : string;
}.

(** [rs_Status] is the raw JSON of the status copied from the generated resource. *)
Record ResourceState := {
  rs_APIVersion : string;
  rs_Kind : string;
  rs_Name : string;
  rs_Namespace : string;
  rs_GeneratedName : string;
  rs_Status : string;
  rs_Conditions : list Condition;
}.
Definition emptyResourceState : ResourceState :=
  {| rs_APIVersion := ""; rs_Kind := ""; rs_Name := ""; rs_Namespace := ""; rs_GeneratedName := "";
     rs_Status := ""; rs_Conditions := [] |}.

Record RouteServiceStatus := { rss_State : ResourceState; rss_Ports : list CoreServicePort }.

(** [RouteResourcesStatus]; [Source] is never set. *)
Record RouteResourcesStatus := {
  rrs_Services : option (gmap string RouteServiceStatus);
  rrs_Route : ResourceState;
}.
Definition emptyRouteStatus : RouteResourcesStatus := {| rrs_Services := None; rrs_Route := emptyResourceState |}.

Record Route := {
  rt_Meta : ObjectMeta;
  rt_Endpoints : list LoadBalancerEndpoints;
  rt_Source : option KubernetesSource;
  rt_Status : RouteResourcesStatus;
}.
Definition rt_StatusServices (r : Route) : option (gmap string RouteServiceStatus) := rrs_Services (rt_Status r).

(** [TenantStatus] and [SyncSecretStatus] without the observed generation *)
Record PhaseStatus := { ps_Phase : string; ps_Conditions : list Condition }.
Definition emptyPhaseStatus : PhaseStatus := {| ps_Phase := ""; ps_Conditions := [] |}.

(** [tenant_state_types.go] *)
Record Version := { ver_GitVersion : string; ver_GitCommit : string; ver_BuildDate : string; ver_Edition : string }.
Definition emptyVersion : Version := {| ver_GitVersion := ""; ver_GitCommit := ""; ver_BuildDate := ""; ver_Edition := "" |}.

(** ** [tenant_types.go] and [config_types.go] *)

Record DNSSettings := {
  dns_WildcardDomain : option string;
  dns_AllowExplicitHostnames : option bool;
  dns_UseDNSAnnotations : option bool;
  dns_UseCertificateAnnotations : option bool;
}.

Record ConfigDNSSettings := {
  cdns_WildcardDomain : string;
  cdns_AllowExplicitHostnames : bool;
  cdns_UseDNSAnnotations : bool;
  cdns_UseCertificateAnnotations : bool;
}.

Record CertificatesSettings := { cert_DefaultClusterIssuer : option string }.

Record EnvoyProxyHeaderLimits := {
  hl_MaxRequestHeadersKb : option Z;
  hl_MaxRequestHeadersCount : option Z;
  hl_MaxResponseHeadersKb : option Z;
}.

(** [LoadBalancerSettings] and [IngressSettings] *)
Record ClassSettings := { cls_Class : option string; cls_Disable : bool }.

(** The default gateway is a [corev1.ObjectReference]: its namespace and name. *)
Record ObjectReference := { ref_Namespace : string; ref_Name : string }.
Record GatewayAPISettings := {
  gas_Class : option string;
  gas_DefaultGateway : option ObjectReference;
  gas_Disable : bool;
}.

(** [corev1.Toleration] and [corev1.Affinity] are carried from the settings to the pods of
    the proxy unread, as texts. *)
Abbreviation Toleration := string (only parsing).
Abbreviation Affinity := string (only parsing).

(** [corev1.ResourceRequirements]: quantities by resource name *)
Record ResourceRequirements := { rq_Requests : StrMap; rq_Limits : StrMap }.

Record TenantEnvoyProxy := { tep_Replicas : option Z; tep_Resources : option ResourceRequirements }.

(** Durations are in nanoseconds, as [time.Duration]. *)
Record EnvoyProxyGracefulShutdown := {
  gs_Disabled : bool;
  gs_DrainTimeout : option Z;
  gs_MinDrainDuration : option Z;
  gs_TerminationGracePeriodSeconds : option Z;
}.

Record EnvoyProxyOverloadManager := {
  ovm_Enabled : bool;
  ovm_MaxActiveDownstreamConnections : Z;
  ovm_MaxHeapSizeBytes : Z;
}.

Definition EnvoyProxyTopologyShared : string := "shared".
Definition EnvoyProxyTopologyDedicated : string := "dedicated".
Definition EnvoyProxyTopologyGlobal : string := "global".

Record EnvoyProxy := {
  ep_Topology : string;
  ep_UseDaemonset : bool;
  ep_Replicas : Z;
  ep_SinglePodPerNode : bool;
  ep_NodeSelector : GoMap;
  ep_Tolerations : list Toleration;
  ep_Resources : option ResourceRequirements;
  ep_Affinity : option Affinity;
  ep_GracefulShutdown : option EnvoyProxyGracefulShutdown;
  ep_OverloadManager : option EnvoyProxyOverloadManager;
  ep_PodMonitor : option bool;
  ep_HeaderLimits : option EnvoyProxyHeaderLimits;
}.

Record Tenant := {
  tn_Meta : ObjectMeta;
  tn_Annotations : AnnotationSettings;
  tn_EnvoyProxy : option TenantEnvoyProxy;
  tn_LoadBalancer : ClassSettings;
  tn_Ingress : ClassSettings;
  tn_GatewayAPI : GatewayAPISettings;
  tn_DNS : DNSSettings;
  tn_Certificates : CertificatesSettings;  tn_Status : PhaseStatus;
}.

Record Config := {
  cf_Meta : ObjectMeta;
  cf_Annotations : AnnotationSettings;
  cf_EnvoyProxy : EnvoyProxy;
  cf_LoadBalancer : ClassSettings;
  cf_Ingress : ClassSettings;
  cf_GatewayAPI : GatewayAPISettings;
  cf_DNS : ConfigDNSSettings;
  cf_Certificates : CertificatesSettings;
  cf_Version : Version;
}.
Definition cf_HeaderLimits (c : Config) : option EnvoyProxyHeaderLimits := ep_HeaderLimits (cf_EnvoyProxy c).
Definition GetEnvoyProxyTopology (c : Config) : string := ep_Topology (cf_EnvoyProxy c).

(** ** [addresses_types.go] and [sync_secret_types.go] *)

Record Addresses := { ad_Meta : ObjectMeta; ad_Addresses : list EndpointAddress }.

(** [corev1.Secret]; a value of [Data] is a byte string. *)
Record Secret := {
  sec_Meta : ObjectMeta;
  sec_Immutable : option bool;
  sec_Type : string;
  sec_Data : GoMap;
  sec_StringData : GoMap;
}.

Record SyncSecret := {
  syn_Meta : ObjectMeta;
  syn_Immutable : option bool;
  syn_Data : GoMap;
  syn_StringData : GoMap;
  syn_Type : string;
  syn_Status : PhaseStatus;
}.

(** ** Workloads of the Envoy proxy *)

Record ContainerPort := { cp_Name : string; cp_ContainerPort : Z; cp_Protocol : string }.

(** [corev1.Probe] with an HTTP GET: path, port and the thresholds *)
Record Probe := {
  prb_Path : string;
  prb_Port : Z;
  prb_TimeoutSeconds : Z;
  prb_PeriodSeconds : Z;
  prb_SuccessThreshold : Z;
  prb_FailureThreshold : Z;
}.

(** [ct_PreStop] is the HTTP GET of the lifecycle's [PreStop] hook: path and port. *)
Record Container := {
  ct_Name : string;
  ct_Image : string;
  ct_Command : list string;
  ct_Args : list string;
  ct_Ports : list ContainerPort;
  ct_Resources : option ResourceRequirements;
  ct_StartupProbe : option Probe;
  ct_ReadinessProbe : option Probe;
  ct_LivenessProbe : option Probe;
  ct_PreStop : option (string * Z);
}.

(** [corev1.TopologySpreadConstraint] *)
Record TopologySpreadConstraint := {
  tsc_MaxSkew : Z;
  tsc_TopologyKey : string;
  tsc_WhenUnsatisfiable : string;
  tsc_MatchLabels : StrMap;
}.

Record PodTemplateSpec := {
  pt_Name : string;
  pt_Namespace : string;
  pt_Labels : GoMap;
  pt_Annotations : GoMap;
  pt_TerminationGracePeriodSeconds : option Z;
  pt_Containers : list Container;
  pt_Affinity : option Affinity;
  pt_Tolerations : list Toleration;
  pt_NodeSelector : GoMap;
  pt_TopologySpreadConstraints : list TopologySpreadConstraint;
}.

(** [appsv1.Deployment] and [appsv1.DaemonSet] *)
Record Deployment := {
  dep_Meta : ObjectMeta;
  dep_Replicas : option Z;
  dep_Selector : GoMap;
  dep_Template : PodTemplateSpec;
}.

Record DaemonSet := {
  ds_Meta : ObjectMeta;
  ds_Selector : GoMap;
  ds_Template : PodTemplateSpec;
}.

(** ** Cluster objects *)

Record Namespace := { ns_Meta : ObjectMeta }.

(** [corev1.Node]: [Status.Addresses] as pairs of type and address, [Status.Conditions] as
    pairs of type and status *)
Record Node := {
  nd_Meta : ObjectMeta;
  nd_Addresses : list (string * string);
  nd_Conditions : list (string * string);
}.

Record GatewayClass := { gwc_Meta : ObjectMeta }.
Record ServiceAccount := { sa_Meta : ObjectMeta }.

(** [rbacv1.Role] and [rbacv1.RoleBinding] *)
Record PolicyRule := { prl_APIGroups : list string; prl_Resources : list string; prl_Verbs : list string }.
Record Role := { rol_Meta : ObjectMeta; rol_Rules : list PolicyRule }.
Record Subject := { sub_Kind : string; sub_Name : string; sub_Namespace : string }.
Record RoleRef := { rr_Name : string; rr_Kind : string; rr_APIGroup : string }.
Record RoleBinding := { rb_Meta : ObjectMeta; rb_RoleRef : RoleRef; rb_Subjects : list Subject }.

(** [TenantState]: version, conditions and [LoadBalancer.Disable] of its status; the time of
    the last update is left out. *)
Record TenantStateStatus := { tss_Version : Version; tss_Conditions : list Condition; tss_Disable : bool }.
Definition emptyTenantStateStatus : TenantStateStatus :=
  {| tss_Version := emptyVersion; tss_Conditions := []; tss_Disable := false |}.
Record TenantState := { ts_Meta : ObjectMeta; ts_Status : TenantStateStatus }.

(** [PodMonitor] of [monitoring.coreos.com]: the labels it selects and the endpoints as
    pairs of port and path *)
Record PodMonitor := { pm_Meta : ObjectMeta; pm_MatchLabels : StrMap; pm_Endpoints : list (string * string) }.

(** *** [tunnel_types.go] of the enterprise edition; references to resources are left out. *)
Record TunnelStatus := {
  tus_Hostname : string;
  tus_URL : string;
  tus_ConnectionManagerURL : string;
  tus_Phase : string;
  tus_Conditions : list Condition;
}.
Definition emptyTunnelStatus : TunnelStatus :=
  {| tus_Hostname := ""; tus_URL := ""; tus_ConnectionManagerURL := ""; tus_Phase := ""; tus_Conditions := [] |}.
(** [tun_Hostname] is the hostname of the specification. *)
Record Tunnel := { tun_Meta : ObjectMeta; tun_Hostname : string; tun_Status : TunnelStatus }.

Record ConfigMap := { cm_Meta : ObjectMeta; cm_Data : GoMap }.

(** [discoveryv1.EndpointSlice]: the addresses of each endpoint, and the ports as pairs of
    name and number *)
Record EndpointSlice := {
  es_Meta : ObjectMeta;
  es_Endpoints : list (list string);
  es_Ports : list (option string * option Z);
}.

(** [apiextensionsv1.CustomResourceDefinition]: the group and the conversion strategy apart,
    the specification is kept as text. *)
Record CustomResourceDefinition := { crd_Meta : ObjectMeta; crd_Group : string; crd_Rest : string; crd_Conversion : option string }.

(** ** Decidable equality *)

#[export] Instance OwnerReference_eq_dec : EqDecision OwnerReference.
Proof. solve_decision. Defined.
#[export] Instance ObjectMeta_eq_dec : EqDecision ObjectMeta.
Proof. solve_decision. Defined.

#[export] Instance EndpointAddress_eq_dec : EqDecision EndpointAddress.
Proof. solve_decision. Defined.
#[export] Instance EndpointPort_eq_dec : EqDecision EndpointPort.
Proof. solve_decision. Defined.
#[export] Instance LoadBalancerPort_eq_dec : EqDecision LoadBalancerPort.
Proof. solve_decision. Defined.
#[export] Instance LoadBalancerPersistence_eq_dec : EqDecision LoadBalancerPersistence.
Proof. solve_decision. Defined.
#[export] Instance LoadBalancerEndpoints_eq_dec : EqDecision LoadBalancerEndpoints.
Proof. solve_decision. Defined.
#[export] Instance IntOrString_eq_dec : EqDecision IntOrString.
Proof. solve_decision. Defined.
#[export] Instance CoreServicePort_eq_dec : EqDecision CoreServicePort.
Proof. solve_decision. Defined.
#[export] Instance PortStatus_eq_dec : EqDecision PortStatus.
Proof. solve_decision. Defined.
#[export] Instance LoadBalancerIngress_eq_dec : EqDecision LoadBalancerIngress.
Proof. solve_decision. Defined.
#[export] Instance Service_eq_dec : EqDecision Service.
Proof. solve_decision. Defined.
#[export] Instance Unstructured_eq_dec : EqDecision Unstructured.
Proof. solve_decision. Defined.
#[export] Instance KubernetesSource_eq_dec : EqDecision KubernetesSource.
Proof. solve_decision. Defined.
#[export] Instance ServicePort_eq_dec : EqDecision ServicePort.
Proof. solve_decision. Defined.
#[export] Instance ServiceStatus_eq_dec : EqDecision ServiceStatus.
Proof. solve_decision. Defined.
#[export] Instance HostnameStatus_eq_dec : EqDecision HostnameStatus.
Proof. solve_decision. Defined.
#[export] Instance LoadBalancerStatus_eq_dec : EqDecision LoadBalancerStatus.
Proof. solve_decision. Defined.
#[export] Instance Condition_eq_dec : EqDecision Condition.
Proof. solve_decision. Defined.
#[export] Instance ResourceState_eq_dec : EqDecision ResourceState.
Proof. solve_decision. Defined.
#[export] Instance RouteServiceStatus_eq_dec : EqDecision RouteServiceStatus.
Proof. solve_decision. Defined.
#[export] Instance RouteResourcesStatus_eq_dec : EqDecision RouteResourcesStatus.
Proof. solve_decision. Defined.
#[export] Instance ResourceRequirements_eq_dec : EqDecision ResourceRequirements.
Proof. solve_decision. Defined.
#[export] Instance ContainerPort_eq_dec : EqDecision ContainerPort.
Proof. solve_decision. Defined.
#[export] Instance Probe_eq_dec : EqDecision Probe.
Proof. solve_decision. Defined.
#[export] Instance Container_eq_dec : EqDecision Container.
Proof. solve_decision. Defined.
#[export] Instance TopologySpreadConstraint_eq_dec : EqDecision TopologySpreadConstraint.
Proof. solve_decision. Defined.
#[export] Instance PodTemplateSpec_eq_dec : EqDecision PodTemplateSpec.
Proof. solve_decision. Defined.
#[export] Instance TenantEnvoyProxy_eq_dec : EqDecision TenantEnvoyProxy.
Proof. solve_decision. Defined.
#[export] Instance EnvoyProxyGracefulShutdown_eq_dec : EqDecision EnvoyProxyGracefulShutdown.
Proof. solve_decision. Defined.
#[export] Instance EnvoyProxyOverloadManager_eq_dec : EqDecision EnvoyProxyOverloadManager.
Proof. solve_decision. Defined.
#[export] Instance EnvoyProxyHeaderLimits_eq_dec : EqDecision EnvoyProxyHeaderLimits.
Proof. solve_decision. Defined.
#[export] Instance EnvoyProxy_eq_dec : EqDecision EnvoyProxy.
Proof. solve_decision. Defined.

#[export] Instance PhaseStatus_eq_dec : EqDecision PhaseStatus.
Proof. solve_decision. Defined.
#[export] Instance Version_eq_dec : EqDecision Version.
Proof. solve_decision. Defined.
#[export] Instance PolicyRule_eq_dec : EqDecision PolicyRule.
Proof. solve_decision. Defined.
#[export] Instance Subject_eq_dec : EqDecision Subject.
Proof. solve_decision. Defined.
#[export] Instance RoleRef_eq_dec : EqDecision RoleRef.
Proof. solve_decision. Defined.
#[export] Instance TenantStateStatus_eq_dec : EqDecision TenantStateStatus.
Proof. solve_decision. Defined.
