(* ===== verification/Names.v ===== *)
(** * Names and keys

    The naming half of [internal/kubelb/utils.go]: the labels, the patterns that
    key the Envoy resources and the port allocator, and the functions that turn
    tenant names into valid Kubernetes names. *)

From Stdlib Require Import Ascii.
From S2P Require Import Prelude GoStrings GoCrypto Api.

Local Open Scope go_scope.

(** ** Constants *)

Definition LabelOriginNamespace : string := "kubelb.k8c.io/origin-ns".
Definition LabelOriginName : string := "kubelb.k8c.io/origin-name".
Definition LabelOriginResourceKind : string := "kubelb.k8c.io/origin-resource-kind".
Definition LabelTenantName : string := "kubelb.k8c.io/tenant".
Definition LabelManagedBy : string := "kubelb.k8c.io/managed-by".
Definition LabelControllerName : string := "kubelb".
Definition NameSuffixLength : nat := 4.
Definition MaxNameLength : nat := 60.
Definition AnnotationValueTrue : string := "true".
Definition AnnotationRequestWildcardDomain : string := "kubelb.k8c.io/request-wildcard-domain".
Definition AnnotationProxyProtocol : string := "kubelb.k8c.io/proxy-protocol".

(** ** The [fmt] patterns *)

(** [EnvoyResourceIdentifierPattern = "%s-%s-ep-%d-port-%d-%s"] *)
Definition EnvoyResourceIdentifier (ns name : string) (i port : Z) (proto : string) : string :=
  ns ⊕ "-" ⊕ name ⊕ "-ep-" ⊕ Itoa i ⊕ "-port-" ⊕ Itoa port ⊕ "-" ⊕ proto.

(** [EnvoyEndpointPattern = "%s-%s-ep-%d"] *)
Definition EnvoyEndpoint (ns name : string) (i : Z) : string :=
  ns ⊕ "-" ⊕ name ⊕ "-ep-" ⊕ Itoa i.

(** [EnvoyEndpointRoutePattern = "tenant-%s-route-%s-%s-%s"] *)
Definition EnvoyEndpointRoute (ns svcNs svcName routeName : string) : string :=
  "tenant-" ⊕ ns ⊕ "-route-" ⊕ svcNs ⊕ "-" ⊕ svcName ⊕ "-" ⊕ routeName.

(** [EnvoyRoutePortIdentifierPattern = "tenant-%s-route-%s-%s-%s-%s-port-%d-%s"] *)
Definition EnvoyRoutePortIdentifier (ns svcNs svcName routeNs routeName : string) (port : Z) (proto : string) : string :=
  "tenant-" ⊕ ns ⊕ "-route-" ⊕ svcNs ⊕ "-" ⊕ svcName ⊕ "-" ⊕ routeNs ⊕ "-" ⊕ routeName
    ⊕ "-port-" ⊕ Itoa port ⊕ "-" ⊕ proto.

(** [EnvoyListenerPattern = "%v-%s"] *)
Definition EnvoyListenerKey (port : Z) (proto : string) : string := Itoa port ⊕ "-" ⊕ proto.

(** [RouteServiceMapKey = "%s/%s"] *)
Definition RouteServiceMapKey (ns name : string) : string := ns ⊕ "/" ⊕ name.

(** ** Generated names *)

Definition truncateName (name : string) : string :=
  let suffix := str_take NameSuffixLength (EncodeToString (Sum256 (bytes_of name))) in
  let prefix := TrimRight (str_take (MaxNameLength - (NameSuffixLength + 1)) name) "-" in
  prefix ⊕ "-" ⊕ suffix.

Definition GenerateName (name namespace : string) : string :=
  let output := namespace ⊕ "-" ⊕ name in
  if MaxNameLength <=? String.length output then truncateName output else output.

Definition dns_byte (a : ascii) : ascii :=
  if is_lower a || is_digit a || Ascii.eqb a "-" then a else "-"%char.

Definition dns1035Name (name : string) : string :=
  let output := Trim (str_map dns_byte (ToLower name)) "-" in
  match output with
  | "" => "k"
  | String a _ => if is_lower a then output else "k-" ⊕ output
  end.

Definition GenerateRouteServiceName (routeName serviceName namespace : string) : string :=
  let output := dns1035Name (namespace ⊕ "-" ⊕ routeName ⊕ "-" ⊕ serviceName) in
  if MaxNameLength <=? String.length output then truncateName output else output.

(** ** Origin names from labels *)

Definition GetName (m : ObjectMeta) : string :=
  match entries (om_Labels m) !! LabelOriginName with
  | Some n => n
  | None => om_Name m
  end.

Definition GetNamespace (m : ObjectMeta) : string :=
  match entries (om_Labels m) !! LabelOriginNamespace with
  | Some n => n
  | None => om_Namespace m
  end.

Definition AddKubeLBLabels (labels : GoMap) (name namespace gvk : string) : StrMap :=
  let labels := <[LabelManagedBy := LabelControllerName]>
                (<[LabelOriginNamespace := namespace]>
                (<[LabelOriginName := name]> (entries labels))) in
  if bool_decide (gvk = "") then labels else <[LabelOriginResourceKind := gvk]> labels.

(** ** DNS-1035 labels: [[a-z]([-a-z0-9]*[a-z0-9])?] *)

Definition label_byte (a : ascii) : bool := is_lower a || is_digit a || Ascii.eqb a "-".
Definition alnum_byte (a : ascii) : bool := is_lower a || is_digit a.

Definition str_last (s : string) : option ascii :=
  last (String.list_ascii_of_string s).

Definition is_dns1035 (s : string) : bool :=
  match s with
  | "" => false
  | String a _ =>
      is_lower a && str_forall label_byte s &&
      match str_last s with Some z => alnum_byte z | None => false end &&
      (String.length s <=? 63)
  end.

(** ** Lemmas: bytes *)

(** Decide a statement about one byte by running through all of them. *)
Ltac byte_cases a :=
  destruct a as [[] [] [] [] [] [] [] []]; vm_compute; try congruence; try tauto.

Lemma dns_byte_label a : label_byte (dns_byte (lower_byte a)) = true.
Proof. byte_cases a. Qed.

Lemma label_not_dash a : label_byte a = true → Ascii.eqb a "-" = false → alnum_byte a = true.
Proof. unfold label_byte, alnum_byte. intros [?|H]%orb_true_iff H'; congruence. Qed.

Lemma hex_digit_alnum n : (n < 16)%N → alnum_byte (hex_digit n) = true.
Proof.
  intros Hn. assert (n ∈ (N.of_nat <$> seq 0 16)) as Hin.
  { apply list_elem_of_fmap. exists (N.to_nat n). split; [lia|]. apply elem_of_seq. lia. }
  revert Hin. generalize n. apply Forall_forall. vm_compute. by repeat constructor.
Qed.

(** ** Lemmas: last byte *)

Lemma list_ascii_app s t :
  String.list_ascii_of_string (s ⊕ t) = String.list_ascii_of_string s ++ String.list_ascii_of_string t.
Proof. induction s as [|a s IH]; [done|]. rewrite str_app_cons. simpl. by rewrite IH. Qed.

Lemma str_last_app s t : t ≠ "" → str_last (s ⊕ t) = str_last t.
Proof.
  intros Ht. unfold str_last. rewrite list_ascii_app.
  destruct t as [|a t]; [done|]. simpl. by rewrite last_app_cons.
Qed.

Lemma str_last_snoc s a : str_last s = Some a → ∃ t, s = t ⊕ String a "".
Proof.
  unfold str_last. induction s as [|b s IH]; simpl; [done|].
  destruct s as [|c s].
  - simpl. intros [= ->]. by exists "".
  - intros H. destruct (IH H) as [t Ht]. exists (String b t). by rewrite Ht.
Qed.

Lemma str_last_is_Some s : s ≠ "" → is_Some (str_last s).
Proof. destruct s as [|a s]; [done|]. intros _. apply last_is_Some. done. Qed.

Lemma str_forall_last f s a : str_forall f s = true → str_last s = Some a → f a = true.
Proof.
  intros Hf [t ->]%str_last_snoc. rewrite str_forall_app in Hf.
  apply andb_true_iff in Hf as [_ Hf]. simpl in Hf. by rewrite andb_true_r in Hf.
Qed.

Lemma str_map_forall f g s : (∀ a, g (f a) = true) → str_forall g (str_map f s) = true.
Proof. intros H. induction s as [|a s IH]; simpl; [done|]. by rewrite H. Qed.

Lemma str_map_map f g s : str_map f (str_map g s) = str_map (λ a, f (g a)) s.
Proof. induction s as [|a s IH]; simpl; [done|]. by rewrite IH. Qed.

(** The four hexadecimal digits of the name suffix. *)
Lemma name_suffix_spec name :
  let suffix := str_take NameSuffixLength (EncodeToString (Sum256 (bytes_of name))) in
  String.length suffix = 4 ∧ str_forall alnum_byte suffix = true.
Proof.
  split.
  - rewrite str_take_length, EncodeToString_length, Sum256_length. done.
  - apply str_forall_take. pose proof (Sum256_range (bytes_of name)) as Hr.
    induction Hr as [|b bs Hb _ IH]; [done|]. simpl.
    rewrite IH, !hex_digit_alnum; [done| |].
    + by apply N.mod_lt.
    + by apply N.Div0.div_lt_upper_bound.
Qed.

(** ** Lemmas: digits and dashes *)

Definition not_dash (a : ascii) : bool := negb (Ascii.eqb a "-").

Lemma pretty_N_char_digit x : is_digit (pretty_N_char x) = true.
Proof. unfold pretty_N_char. by repeat case_match. Qed.

Lemma pretty_N_go_digits x s : str_forall is_digit s = true → str_forall is_digit (pretty_N_go x s) = true.
Proof.
  revert s. induction (N.lt_wf_0 x) as [x _ IH]. intros s Hs.
  destruct (decide (x = 0)%N) as [->|Hx]; [by rewrite pretty_N_go_0|].
  rewrite pretty_N_go_step by lia. apply IH; [apply N.div_lt; lia|].
  simpl. by rewrite pretty_N_char_digit.
Qed.

Lemma Itoa_digits z : (0 ≤ z)%Z → str_forall is_digit (Itoa z) = true.
Proof.
  intros Hz. unfold Itoa, pretty, pretty_Z. destruct z as [|p|p]; [done| |lia].
  unfold pretty, pretty_positive, pretty, pretty_N. case_decide; [done|]. by apply pretty_N_go_digits.
Qed.

Lemma digits_not_dash s : str_forall is_digit s = true → str_forall not_dash s = true.
Proof.
  assert (∀ a, is_digit a = true → not_dash a = true) as Hd by (intros a; byte_cases a).
  induction s as [|a s IH]; simpl; [done|]. intros [Ha Hs]%andb_true_iff. by rewrite Hd, IH.
Qed.

Lemma str_app_nil_l s : "" ⊕ s = s.
Proof. done. Qed.

Lemma dash_app t : "-" ⊕ t = String "-" t.
Proof. done. Qed.

(** The last dash splits a string in one way. *)
Lemma last_dash_inj s1 s2 t1 t2 :
  s1 ⊕ "-" ⊕ t1 = s2 ⊕ "-" ⊕ t2 →
  str_forall not_dash t1 = true → str_forall not_dash t2 = true → s1 = s2 ∧ t1 = t2.
Proof.
  rewrite !dash_app. revert s2. induction s1 as [|a s1 IH]; intros [|b s2] H H1 H2;
    rewrite ?str_app_cons in H; rewrite ?str_app_nil_l in H; simplify_eq/=.
  - done.
  - rewrite str_forall_app in H1. by rewrite andb_false_r in H1.
  - rewrite str_forall_app in H2. by rewrite andb_false_r in H2.
  - destruct (IH s2) as [-> ->]; done.
Qed.

(** And so does the first one. *)
Lemma first_dash_inj s1 s2 t1 t2 :
  s1 ⊕ "-" ⊕ t1 = s2 ⊕ "-" ⊕ t2 →
  str_forall not_dash s1 = true → str_forall not_dash s2 = true → s1 = s2 ∧ t1 = t2.
Proof.
  rewrite !dash_app. revert s2. induction s1 as [|a s1 IH]; intros [|b s2] H H1 H2;
    rewrite ?str_app_cons in H; rewrite ?str_app_nil_l in H; simplify_eq/=; try done.
  apply andb_true_iff in H1 as [_ H1], H2 as [_ H2].
  destruct (IH s2) as [-> ->]; done.
Qed.

(** ** Lemmas: generated names *)

Lemma truncateName_length name : String.length (truncateName name) ≤ MaxNameLength.
Proof.
  unfold truncateName. rewrite !str_length_app.
  destruct (name_suffix_spec name) as [-> _].
  pose proof (trim_right_length (is_char "-") (str_take (MaxNameLength - (NameSuffixLength + 1)) name)) as Hl.
  rewrite str_take_length in Hl. unfold TrimRight, MaxNameLength, NameSuffixLength in *.
  change (String.length "-") with 1. lia.
Qed.

(** What a name needs to be a DNS-1035 label once its length is bounded. *)
Definition dns_shape (s : string) : Prop :=
  (∃ a t, s = String a t ∧ is_lower a = true) ∧
  str_forall label_byte s = true ∧
  (∀ z, str_last s = Some z → alnum_byte z = true).

Lemma dns_shape_dns1035 s : dns_shape s → String.length s ≤ 63 → is_dns1035 s = true.
Proof.
  intros ((a & t & -> & Ha) & Hf & Hl) Hlen. unfold is_dns1035.
  destruct (str_last_is_Some (String a t)) as [z Hz]; [done|].
  rewrite Ha, Hf, Hz, (Hl z Hz). by apply Nat.leb_le in Hlen as ->.
Qed.

Lemma dns1035Name_shape name : dns_shape (dns1035Name name).
Proof.
  unfold dns1035Name, Trim, ToLower. rewrite str_map_map.
  set (m := str_map _ name).
  assert (str_forall label_byte (trim_right (is_char "-") (trim_left (is_char "-") m)) = true) as Hall.
  { apply str_forall_trim_right, str_forall_trim_left, str_map_forall, dns_byte_label. }
  destruct (trim_right _ _) as [|a t] eqn:Ht.
  { split_and!; [by exists "k"%char, ""|done|]. by intros z [= <-]. }
  assert (∀ z, str_last (String a t) = Some z → alnum_byte z = true) as Hlast.
  { intros z Hz. apply label_not_dash; [by eapply str_forall_last|].
    destruct (str_last_snoc _ _ Hz) as [u Hu]. rewrite Hu in Ht. by apply trim_right_last in Ht. }
  destruct (is_lower a) eqn:Ha.
  - split_and!; eauto.
  - split_and!.
    + by exists "k"%char, ("-" ⊕ String a t).
    + rewrite str_forall_app. by rewrite Hall.
    + intros z. rewrite str_last_app by done. apply Hlast.
Qed.

Lemma truncateName_shape name : dns_shape name → dns_shape (truncateName name).
Proof.
  intros ((a & t & -> & Ha) & Hf & _). unfold truncateName.
  destruct (name_suffix_spec (String a t)) as [Hlen Hsuf].
  set (suffix := str_take _ _) in *.
  set (prefix := TrimRight _ _).
  assert (is_char "-" a = false) as Hd.
  { revert Ha. unfold is_char. byte_cases a. }
  assert (∃ u, prefix = String a u) as [u Hu].
  { unfold prefix, TrimRight, MaxNameLength, NameSuffixLength. simpl str_take.
    match goal with |- context [trim_right ?f (String a ?r)] =>
      pose proof (trim_right_nonempty f a r Hd);
      destruct (trim_right f (String a r)) as [|b v] eqn:Hv; [done|];
      apply trim_right_head in Hv as [? [= ->]]; eauto end. }
  assert (str_forall label_byte prefix = true) as Hp.
  { apply str_forall_trim_right, str_forall_take, Hf. }
  assert (str_forall label_byte suffix = true) as Hs.
  { clear -Hsuf. induction suffix as [|b s IH]; [done|]. simpl in *.
    apply andb_true_iff in Hsuf as [Hb Hs]. unfold label_byte at 1.
    unfold alnum_byte in Hb. rewrite Hb. by rewrite IH. }
  assert (suffix ≠ "") as Hne by (intros ->; simpl in Hlen; lia).
  split_and!.
  - rewrite Hu. by exists a, (u ⊕ "-" ⊕ suffix).
  - by rewrite !str_forall_app, Hp, Hs.
  - intros z. rewrite str_last_app by done. rewrite str_last_app by done.
    intros Hz. by eapply str_forall_last.
Qed.

(** ** Properties *)

(** every Service name KubeLB generates for a route is a valid DNS-1035 label
    (starts with a letter, contains only lower-case letters, digits and dashes,
    ends with a letter or digit, at most 63 bytes), whatever the route, service
    and namespace are called. *)
Theorem route_service_name_valid (routeName serviceName namespace : string) :
  is_dns1035 (GenerateRouteServiceName routeName serviceName namespace) = true.
Proof.
  unfold GenerateRouteServiceName. set (o := dns1035Name _).
  pose proof (dns1035Name_shape _ : dns_shape o) as Ho.
  destruct (Nat.leb_spec MaxNameLength (String.length o)).
  - apply dns_shape_dns1035; [by apply truncateName_shape|].
    pose proof (truncateName_length o). unfold MaxNameLength in *. lia.
  - apply dns_shape_dns1035; [done|]. unfold MaxNameLength in *. lia.
Qed.

(** generated names never exceed [MaxNameLength] (60) bytes; a shorter name is
    kept verbatim and a longer one ends in a dash and the first four hexadecimal
    digits of its SHA-256. *)
Theorem generate_name_bound (name namespace : string) :
  let full := namespace ⊕ "-" ⊕ name in
  let out := GenerateName name namespace in
  String.length out ≤ MaxNameLength ∧
  (String.length full < MaxNameLength → out = full) ∧
  (MaxNameLength ≤ String.length full →
   HasSuffix out ("-" ⊕ str_take 4 (EncodeToString (Sum256 (bytes_of full)))) = true).
Proof.
  cbv zeta. unfold GenerateName. set (full := namespace ⊕ "-" ⊕ name).
  destruct (Nat.leb_spec MaxNameLength (String.length full)) as [Hl|Hl]; split_and!.
  - apply truncateName_length.
  - lia.
  - intros _. apply HasSuffix_app.
  - lia.
  - done.
  - lia.
Qed.

Lemma generate_name_bound_witness :
  GenerateName "web" "tenant-a" = "tenant-a-web" ∧
  String.length (GenerateName "0123456789012345678901234567890123456789012345678901234567890" "ns") ≤ MaxNameLength.
Proof.
  split.
  - exact (proj1 (proj2 (generate_name_bound "web" "tenant-a")) ltac:(vm_compute; lia)).
  - exact (proj1 (generate_name_bound "0123456789012345678901234567890123456789012345678901234567890" "ns")).
Defined.

Lemma EnvoyEndpoint_index ns1 ns2 name1 name2 i1 i2 : (0 ≤ i1)%Z → (0 ≤ i2)%Z →
  EnvoyEndpoint ns1 name1 i1 = EnvoyEndpoint ns2 name2 i2 →
  i1 = i2 ∧ ns1 ⊕ "-" ⊕ name1 ⊕ "-ep" = ns2 ⊕ "-" ⊕ name2 ⊕ "-ep".
Proof.
  unfold EnvoyEndpoint. intros Hi1 Hi2 H.
  change ("-ep-" ⊕ Itoa i1) with ("-ep" ⊕ "-" ⊕ Itoa i1) in H.
  change ("-ep-" ⊕ Itoa i2) with ("-ep" ⊕ "-" ⊕ Itoa i2) in H.
  assert (∀ i, (0 ≤ i)%Z → str_forall not_dash (Itoa i) = true) as Hd.
  { intros i Hi. by apply digits_not_dash, Itoa_digits. }
  destruct (last_dash_inj (ns1 ⊕ "-" ⊕ name1 ⊕ "-ep") (ns2 ⊕ "-" ⊕ name2 ⊕ "-ep") (Itoa i1) (Itoa i2))
    as [Hp Hi]; [by rewrite !str_app_assoc|auto..|]. by apply Itoa_inj in Hi.
Qed.

(** The endpoints of one namespace *)
Lemma EnvoyEndpoint_inj ns name1 name2 i1 i2 : (0 ≤ i1)%Z → (0 ≤ i2)%Z →
  EnvoyEndpoint ns name1 i1 = EnvoyEndpoint ns name2 i2 → name1 = name2 ∧ i1 = i2.
Proof.
  intros H1 H2 [-> H]%EnvoyEndpoint_index; [|done..]. split; [|done]. apply (inj (String.app ns)), (inj (String.app "-")) in H.
  assert (String.length name1 = String.length name2) as Hl.
  { apply (f_equal String.length) in H. rewrite !str_length_app in H. lia. }
  by apply str_app_inj_l in H as [-> _].
Qed.

(** the allocator's endpoint keys tell apart the endpoints of load balancers
    whose names have the same length, in particular of all load balancers the
    cloud controller creates, whose names are Service UIDs. *)
Theorem endpoint_key_injective (ns1 ns2 name1 name2 : string) (i1 i2 : Z) :
  (0 ≤ i1)%Z → (0 ≤ i2)%Z → String.length name1 = String.length name2 →
  EnvoyEndpoint ns1 name1 i1 = EnvoyEndpoint ns2 name2 i2 →
  ns1 = ns2 ∧ name1 = name2 ∧ i1 = i2.
Proof.
  intros Hi1 Hi2 Hlen [-> Hp]%EnvoyEndpoint_index; [|done..].
  apply str_app_inj_r in Hp as [-> Hp]; [|by rewrite !str_length_app, Hlen].
  apply (inj (String.app "-")) in Hp. apply str_app_inj_l in Hp as [-> _]; done.
Qed.

Lemma endpoint_key_injective_witness :
  EnvoyEndpoint "tenant-a" "uid-1" 0 = "tenant-a-uid-1-ep-0" ∧
  ("tenant-a" = "tenant-a" ∧ "uid-1" = "uid-1" ∧ 0%Z = 0%Z).
Proof.
  split; [reflexivity|].
  apply (endpoint_key_injective "tenant-a" "tenant-a" "uid-1" "uid-1" 0 0); [lia|lia|reflexivity|reflexivity].
Defined.

(** a port key determines its port and protocol. *)
Theorem listener_key_injective (p1 p2 : Z) (proto1 proto2 : string) :
  (0 ≤ p1)%Z → (0 ≤ p2)%Z →
  EnvoyListenerKey p1 proto1 = EnvoyListenerKey p2 proto2 → p1 = p2 ∧ proto1 = proto2.
Proof.
  unfold EnvoyListenerKey. intros Hp1 Hp2 H.
  apply first_dash_inj in H as [H ->]; [|by apply digits_not_dash, Itoa_digits..].
  split; [by apply Itoa_inj|done].
Qed.

Lemma listener_key_injective_witness :
  EnvoyListenerKey 443 "TCP" = "443-TCP" ∧ (443%Z = 443%Z ∧ "TCP" = "TCP").
Proof.
  split; [reflexivity|]. apply (listener_key_injective 443 443 "TCP" "TCP"); [lia|lia|reflexivity].
Defined.

(** The same dash separates namespace and name, so the key alone is ambiguous when
    the names have different lengths. *)
Example endpoint_key_ambiguous :
  EnvoyEndpoint "tenant-a" "b" 0 = EnvoyEndpoint "tenant" "a-b" 0.
Proof. reflexivity. Qed.

