(* ===== verification/PortAllocator.v ===== *)
(** * The port allocator

    [internal/port-lookup]: the table from endpoint keys and port keys to the
    ports Envoy listens on.  Every exported method takes the allocator's mutex, so
    a run of the allocator is a sequence of whole operations.

    [rand.Intn] is a stream of draws passed in; an operation that would keep
    drawing after the stream ends is [None].  The Prometheus gauges are left out. *)

From S2P Require Import Prelude GoStrings Api Names.

Local Open Scope go_scope.

(** ** State *)

Definition startPort : Z := 10000.
Definition endPort : Z := 65535.

Abbreviation LookupTable := (gmap string (gmap string Z)).

Record PortAllocator := MkPortAllocator {
  portLookup : LookupTable;
  portLookupReverse : gset Z;
}.

Definition NewPortAllocator : PortAllocator := MkPortAllocator ∅ ∅.

(** [t[e][k]] with its presence flag *)
Definition entry (t : LookupTable) (e k : string) : option Z :=
  match t !! e with
  | Some ports => ports !! k
  | None => None
  end.

(** ** Operations *)

(** [GetPortLookupTable] copies both levels of the table, one entry at a time. *)
Definition GetPortLookupTable (pa : PortAllocator) : LookupTable :=
  foldr (λ '(endpointKey, ports) out,
           <[endpointKey := foldr (λ '(k, v) inner, <[k := v]> inner) ∅ (map_to_list ports)]> out)
        ∅ (map_to_list (portLookup pa)).

Definition Lookup (pa : PortAllocator) (endpointKey portKey : string) : Z * bool :=
  match portLookup pa !! endpointKey with
  | Some endpointLookup =>
      match endpointLookup !! portKey with
      | Some port => (port, true)
      | None => ((-1)%Z, false)
      end
  | None => ((-1)%Z, false)
  end.

(** The loop of [allocatePort]: draw until the port is free, then mark it. *)
Fixpoint allocatePort (draws : list Z) (pa : PortAllocator) : option (Z * PortAllocator * list Z) :=
  match draws with
  | [] => None
  | r :: draws =>
      let port := (r + startPort)%Z in
      if decide (port ∈ portLookupReverse pa) then allocatePort draws pa
      else Some (port, MkPortAllocator (portLookup pa) ({[port]} ∪ portLookupReverse pa), draws)
  end.

Definition setPort (pa : PortAllocator) (e k : string) (port : Z) : PortAllocator :=
  MkPortAllocator (<[e := <[k := port]> (default ∅ (portLookup pa !! e))]> (portLookup pa))
                  (portLookupReverse pa).

(** The first loop of [AllocatePorts]. *)
Fixpoint allocateKeys (draws : list Z) (pa : PortAllocator) (e : string) (keys : list string)
  (updated : bool) : option (PortAllocator * bool * list Z) :=
  match keys with
  | [] => Some (pa, updated, draws)
  | k :: keys =>
      match entry (portLookup pa) e k with
      | Some _ => allocateKeys draws pa e keys updated
      | None =>
          match allocatePort draws pa with
          | None => None
          | Some (port, pa, draws) => allocateKeys draws (setPort pa e k port) e keys true
          end
      end
  end.

Definition recomputeAvailablePorts (pa : PortAllocator) : PortAllocator :=
  MkPortAllocator (portLookup pa)
    (map_fold (λ _ ep acc, map_fold (λ _ port acc, {[port]} ∪ acc) acc ep) ∅ (portLookup pa)).

Definition AllocatePorts (draws : list Z) (pa : PortAllocator) (e : string) (portkeys : list string)
  : option (PortAllocator * bool * list Z) :=
  let pa :=
    match portLookup pa !! e with
    | Some _ => pa
    | None => MkPortAllocator (<[e := ∅]> (portLookup pa)) (portLookupReverse pa)
    end in
  match allocateKeys draws pa e portkeys false with
  | None => None
  | Some (pa, updated, draws) =>
      let ports := default ∅ (portLookup pa !! e) in
      let kept := filter (λ kp, kp.1 ∈ portkeys) ports in
      let updated := updated || bool_decide (kept ≠ ports) in
      Some (recomputeAvailablePorts
              (MkPortAllocator (<[e := kept]> (portLookup pa)) (portLookupReverse pa)), updated, draws)
  end.

Definition DeallocatePorts (pa : PortAllocator) (e : string) (portkeys : list string) : PortAllocator * bool :=
  match portLookup pa !! e with
  | Some ports =>
      let ports' := foldl (λ m k, delete k m) ports portkeys in
      (recomputeAvailablePorts (MkPortAllocator (<[e := ports']> (portLookup pa)) (portLookupReverse pa)),
       bool_decide (portkeys ≠ []))
  | None => (recomputeAvailablePorts pa, false)
  end.

Definition DeallocateEndpoints (pa : PortAllocator) (endpointKeys : list string) : PortAllocator :=
  recomputeAvailablePorts
    (MkPortAllocator (foldl (λ t k, delete k t) (portLookup pa) endpointKeys) (portLookupReverse pa)).

(** ** [mapper.go]: the keys of load balancers and routes *)

Definition originalRouteName (route : Route) (src : KubernetesSource) : string :=
  if bool_decide (u_Name (ks_Route src) = "") then
    let name := get (om_Labels (rt_Meta route)) LabelOriginName in
    if bool_decide (name = "") then om_Name (rt_Meta route) else name
  else u_Name (ks_Route src).

Definition lbEndpointKey (lb : LoadBalancer) (i : nat) : string :=
  EnvoyEndpoint (om_Namespace (lb_Meta lb)) (om_Name (lb_Meta lb)) (Z.of_nat i).

Definition routeEndpointKey (route : Route) (src : KubernetesSource) (svc : Service) : string :=
  EnvoyEndpointRoute (om_Namespace (rt_Meta route)) (om_Namespace (svc_Meta svc)) (om_Name (svc_Meta svc))
    (originalRouteName route src).

(** The calls of [AllocatePorts] the two loops make, in order. *)
Definition lbAllocations (lb : LoadBalancer) : list (string * list string) :=
  imap (λ i ep, (lbEndpointKey lb i, (λ p, EnvoyListenerKey (ep_Port p) (ep_Protocol p)) <$> lbe_Ports ep))
       (lbs_Endpoints (lb_Spec lb)).

Definition routeAllocations (route : Route) : list (string * list string) :=
  match rt_Source route with
  | None => []
  | Some src =>
      (λ svc, (routeEndpointKey route src svc,
               (λ p, EnvoyListenerKey (sp_Port p) (sp_Protocol p)) <$> svc_Ports svc)) <$> ks_Services src
  end.

Fixpoint allocateAll (draws : list Z) (pa : PortAllocator) (calls : list (string * list string))
  : option (PortAllocator * list Z) :=
  match calls with
  | [] => Some (pa, draws)
  | (e, keys) :: calls =>
      match AllocatePorts draws pa e keys with
      | None => None
      | Some (pa, _, draws) => allocateAll draws pa calls
      end
  end.

Definition AllocatePortsForLoadBalancers (draws : list Z) (pa : PortAllocator) (lbs : list LoadBalancer)
  : option (PortAllocator * list Z) := allocateAll draws pa (mjoin (lbAllocations <$> lbs)).

Definition AllocatePortsForRoutes (draws : list Z) (pa : PortAllocator) (routes : list Route)
  : option (PortAllocator * list Z) := allocateAll draws pa (mjoin (routeAllocations <$> routes)).

Definition DeallocatePortsForRoute (pa : PortAllocator) (route : Route) : PortAllocator :=
  match rt_Source route with
  | None => pa
  | Some src => DeallocateEndpoints pa (routeEndpointKey route src <$> ks_Services src)
  end.

Definition DeallocatePortsForLoadBalancer (pa : PortAllocator) (lb : LoadBalancer) : PortAllocator :=
  DeallocateEndpoints pa (imap (λ i _, lbEndpointKey lb i) (lbs_Endpoints (lb_Spec lb))).

(** ** [LoadState] *)

(** [healLoadStateCollisions]: one port of one endpoint. *)
Definition healPort (e : string) (st : LookupTable * gmap Z string) (k : string)
  : LookupTable * gmap Z string :=
  let '(t, owners) := st in
  let port := default 0%Z (entry t e k) in
  match owners !! port with
  | Some owner =>
      if decide (owner = e) then (t, <[port := e]> owners)
      else (<[e := delete k (default ∅ (t !! e))]> t, owners)
  | None => (t, <[port := e]> owners)
  end.

Definition healEndpoint (st : LookupTable * gmap Z string) (e : string) : LookupTable * gmap Z string :=
  let portKeys := sort_strings ((map_to_list (default ∅ (st.1 !! e))).*1) in
  foldl (healPort e) st portKeys.

Definition healLoadStateCollisions (t : LookupTable) : LookupTable :=
  let endpointKeys := sort_strings ((map_to_list t).*1) in
  (foldl healEndpoint (t, ∅) endpointKeys).1.

Definition statusMatch (p : EndpointPort) (port : ServicePort) : bool :=
  let sp := stp_Core port in
  if bool_decide (sp_Protocol sp = ep_Protocol p) then
    if bool_decide (ep_Name p = "" ∧ sp_Name sp = "")
    then bool_decide (stp_UpstreamTargetPort port = ep_Port p)
    else bool_decide (sp_Name sp = ep_Name p)
  else false.

Definition tableSet (t : LookupTable) (e k : string) (v : Z) : LookupTable :=
  <[e := <[k := v]> (default ∅ (t !! e))]> t.

Definition ensureEndpoint (t : LookupTable) (e : string) : LookupTable :=
  match t !! e with Some _ => t | None => <[e := ∅]> t end.

Section load_state.
(** [intstr.IntOrString.IntValue], of k8s.io/apimachinery *)
Variable IntValue : IntOrString -> Z.

Definition loadEndpoint (lb : LoadBalancer) (t : LookupTable) (ie : nat * LoadBalancerEndpoints) : LookupTable :=
  let e := lbEndpointKey lb ie.1 in
  foldl (λ t p,
           match List.find (statusMatch p) (ss_Ports (lst_Service (lb_Status lb))) with
           | Some port => tableSet t e (EnvoyListenerKey (ep_Port p) (ep_Protocol p))
                            (IntValue (sp_TargetPort (stp_Core port)))
           | None => t
           end)
        (ensureEndpoint t e) (lbe_Ports ie.2).

Definition loadLoadBalancer (t : LookupTable) (lb : LoadBalancer) : LookupTable :=
  foldl (loadEndpoint lb) t (imap pair (lbs_Endpoints (lb_Spec lb))).

Definition loadService (route : Route) (src : KubernetesSource) (t : LookupTable) (svc : Service) : LookupTable :=
  let e := routeEndpointKey route src svc in
  let t := ensureEndpoint t e in
  match rt_StatusServices route with
  | None => t
  | Some services =>
      match services !! RouteServiceMapKey (om_Namespace (svc_Meta svc)) (GetName (svc_Meta svc)) with
      | None => t
      | Some svcPort =>
          foldl (λ t port, tableSet t e (EnvoyListenerKey (sp_Port port) (sp_Protocol port))
                             (IntValue (sp_TargetPort port))) t (rss_Ports svcPort)
      end
  end.

Definition loadRoute (t : LookupTable) (route : Route) : LookupTable :=
  match rt_Source route with
  | None => t
  | Some src => foldl (loadService route src) t (ks_Services src)
  end.

(** The two lists are what the API reader returned. *)
Definition LoadState (pa : PortAllocator) (lbs : result (list LoadBalancer)) (routes : result (list Route))
  : result PortAllocator :=
  let? lbs := lbs in
  let lookupTable := foldl loadLoadBalancer ∅ lbs in
  let? routes := routes in
  let lookupTable := foldl loadRoute lookupTable routes in
  Ok (recomputeAvailablePorts
        (MkPortAllocator (healLoadStateCollisions lookupTable) (portLookupReverse pa))).
End load_state.

(** ** The interface other packages see

    [kubelb.PortAllocator] is a Go interface with the method [Lookup]. *)

Class PortLookup (T : Type) := port_lookup : T -> string -> string -> Z * bool.
#[export] Instance allocator_lookup : PortLookup PortAllocator := Lookup.

(** What an implementation promises to its clients: ports in range, and no port for two
    different questions.  The clients' theorems use only this. *)
Class ConsistentLookup {T : Type} `{!PortLookup T} (pa : T) : Prop := {
  lookup_in_range e k p : port_lookup pa e k = (p, true) → (startPort ≤ p < endPort)%Z;
  lookup_injective e1 k1 e2 k2 p :
    port_lookup pa e1 k1 = (p, true) → port_lookup pa e2 k2 = (p, true) → (e1, k1) = (e2, k2)
}.

(** ** Invariants *)

(** The reverse table holds exactly the ports of the lookup table. *)
Definition reverse_exact (pa : PortAllocator) : Prop :=
  ∀ p, p ∈ portLookupReverse pa ↔ ∃ e k, entry (portLookup pa) e k = Some p.

(** Two owners of one port are related by [R]: equality for a fully consistent
    table, same endpoint for a table restored from resource statuses. *)
Definition shared_only (R : string * string -> string * string -> Prop) (t : LookupTable) : Prop :=
  ∀ e1 k1 e2 k2 p, entry t e1 k1 = Some p → entry t e2 k2 = Some p → R (e1, k1) (e2, k2).

Definition unique_ports : LookupTable -> Prop := shared_only eq.
Definition same_endpoint (s1 s2 : string * string) : Prop := s1.1 = s2.1.
Definition unique_across_endpoints : LookupTable -> Prop := shared_only same_endpoint.

Definition ports_in_range (t : LookupTable) : Prop :=
  ∀ e k p, entry t e k = Some p → (startPort ≤ p < endPort)%Z.

(** What [rand.Intn(endPort-startPort)] returns. *)
Definition valid_draws (draws : list Z) : Prop := Forall (λ r, (0 ≤ r < endPort - startPort)%Z) draws.

(** Arithmetic on ports of the pool *)
Ltac port_lia := unfold startPort, endPort in *; lia.

#[export] Instance same_endpoint_refl : Reflexive same_endpoint.
Proof. done. Qed.

(** ** Lemmas: the table *)

Lemma entry_insert t e m e' k :
  entry (<[e := m]> t) e' k = if decide (e = e') then m !! k else entry t e' k.
Proof. unfold entry. rewrite lookup_insert. by case_decide. Qed.

Lemma entry_empty e k : entry ∅ e k = None.
Proof. unfold entry. by rewrite lookup_empty. Qed.

Lemma entry_default t e k : default ∅ (t !! e) !! k = entry t e k.
Proof. unfold entry. by destruct (t !! e). Qed.

Lemma entry_set t e k v e' k' :
  entry (tableSet t e k v) e' k' = if decide (e = e' ∧ k = k') then Some v else entry t e' k'.
Proof.
  unfold tableSet. rewrite entry_insert, lookup_insert, entry_default.
  repeat case_decide; naive_solver.
Qed.

Lemma entry_setPort pa e k v e' k' :
  entry (portLookup (setPort pa e k v)) e' k'
  = if decide (e = e' ∧ k = k') then Some v else entry (portLookup pa) e' k'.
Proof. apply entry_set. Qed.

Lemma entry_ensure t e e' k : entry (ensureEndpoint t e) e' k = entry t e' k.
Proof.
  unfold ensureEndpoint. destruct (t !! e) eqn:He; [done|].
  rewrite entry_insert, lookup_empty. case_decide; [|done]. subst. unfold entry. by rewrite He.
Qed.

Lemma map_fold_ports (m : gmap string Z) (acc : gset Z) p :
  p ∈ map_fold (λ _ port acc, {[port]} ∪ acc) acc m ↔ p ∈ acc ∨ ∃ k, m !! k = Some p.
Proof.
  revert p. apply (map_fold_weak_ind (λ r m, ∀ p, p ∈ r ↔ p ∈ acc ∨ ∃ k : string, m !! k = Some p)).
  - intros p. setoid_rewrite lookup_empty. naive_solver.
  - intros k v m' r Hk IH p. rewrite elem_of_union, elem_of_singleton, IH. split.
    + intros [->|[?|[k' Hk']]]; [right; exists k; by simplify_map_eq|by left|].
      right. exists k'. rewrite lookup_insert_ne; naive_solver.
    + intros [?|[k' Hk']]; [by auto|]. rewrite lookup_insert in Hk'. case_decide; naive_solver.
Qed.

(** [recomputeAvailablePorts] makes the reverse table exact. *)
Lemma recompute_exact pa : reverse_exact (recomputeAvailablePorts pa).
Proof.
  intros p. simpl. unfold entry. generalize (portLookup pa). intros t. revert p.
  apply (map_fold_weak_ind (λ r t, ∀ p, p ∈ r ↔
    ∃ e k : string, match t !! e with Some m => (m : gmap string Z) !! k | None => None end = Some p)).
  - intros p. setoid_rewrite lookup_empty. set_solver.
  - intros e m t' r He IH p. rewrite map_fold_ports, IH. split.
    + intros [(e' & k & H)|[k Hk]].
      * exists e', k. rewrite lookup_insert_ne; [done|]. intros ->. by rewrite He in H.
      * exists e, k. by rewrite lookup_insert_eq.
    + intros (e' & k & H). rewrite lookup_insert in H. case_decide; subst; eauto.
Qed.

Lemma recompute_lookup pa : portLookup (recomputeAvailablePorts pa) = portLookup pa.
Proof. done. Qed.

(** Deleting entries preserves every sharing discipline and the port range. *)
Definition sub_table (t' t : LookupTable) : Prop :=
  ∀ e k p, entry t' e k = Some p → entry t e k = Some p.

Lemma shared_only_sub R t t' : sub_table t' t → shared_only R t → shared_only R t'.
Proof. intros Hs H e1 k1 e2 k2 p H1 H2. eapply H; eauto. Qed.

Lemma ports_in_range_sub t t' : sub_table t' t → ports_in_range t → ports_in_range t'.
Proof. intros Hs H e k p H1. eapply H; eauto. Qed.

(** ** Lemmas: allocation *)

Lemma allocatePort_spec draws pa port pa' draws' :
  allocatePort draws pa = Some (port, pa', draws') →
  port ∉ portLookupReverse pa ∧ portLookup pa' = portLookup pa ∧
  portLookupReverse pa' = {[port]} ∪ portLookupReverse pa ∧
  (∃ used, draws = used ++ draws') ∧
  (valid_draws draws → (startPort ≤ port < endPort)%Z ∧ valid_draws draws').
Proof.
  revert port pa' draws'. induction draws as [|r draws IH]; intros port pa' draws'; simpl; [done|].
  case_decide as Hin.
  - intros H. destruct (IH _ _ _ H) as (? & ? & ? & [u ->] & Hv). split_and!; try done.
    + by exists (r :: u).
    + intros Hd. apply Hv. by inversion Hd.
  - intros [= <- <- <-]. split_and!; try done; [by exists [r]|].
    intros Hd. inversion Hd; subst. unfold startPort, endPort in *. split; [lia|done].
Qed.

(** What the allocation loop guarantees, as one record. *)
Record allocation (e : string) (keys : list string) (pa pa' : PortAllocator) : Prop := {
  alloc_keeps : ∀ e' k p, entry (portLookup pa) e' k = Some p → entry (portLookup pa') e' k = Some p;
  alloc_new : ∀ e' k p, entry (portLookup pa') e' k = Some p →
    entry (portLookup pa) e' k = Some p ∨ (e' = e ∧ k ∈ keys ∧ p ∉ portLookupReverse pa);
  alloc_all : ∀ k, k ∈ keys → is_Some (entry (portLookup pa') e k);
  alloc_other : ∀ e', e' ≠ e → portLookup pa' !! e' = portLookup pa !! e';
  alloc_grows : portLookupReverse pa ⊆ portLookupReverse pa';
  alloc_marked : (∀ e k p, entry (portLookup pa) e k = Some p → p ∈ portLookupReverse pa) →
    ∀ e k p, entry (portLookup pa') e k = Some p → p ∈ portLookupReverse pa';
  alloc_shared : (∀ e k p, entry (portLookup pa) e k = Some p → p ∈ portLookupReverse pa) →
    ∀ R, Reflexive R → shared_only R (portLookup pa) → shared_only R (portLookup pa');
}.

Lemma allocation_refl e pa : allocation e [] pa pa.
Proof. constructor; auto. intros k Hk. by inversion Hk. Qed.

Lemma allocation_skip e k keys pa pa' :
  is_Some (entry (portLookup pa) e k) → allocation e keys pa pa' → allocation e (k :: keys) pa pa'.
Proof.
  intros [p Hp] [Hkeep Hnew Hall Hother Hgrow Hmark Hsh]. constructor; auto.
  - intros e' k' p' H. destruct (Hnew _ _ _ H) as [?|(?&?&?)]; [by left|]. right. set_solver.
  - intros k' [->|?]%elem_of_cons; [|by apply Hall]. eauto.
Qed.

Lemma allocation_step e k keys pa port pa1 pa' draws draws' :
  entry (portLookup pa) e k = None →
  allocatePort draws pa = Some (port, pa1, draws') →
  allocation e keys (setPort pa1 e k port) pa' →
  allocation e (k :: keys) pa pa'.
Proof.
  intros Hnone (Hfree & Hlk & Hrev & _)%allocatePort_spec [Hkeep Hnew Hall Hother Hgrow Hmark Hsh].
  assert (∀ e' k' , entry (portLookup (setPort pa1 e k port)) e' k'
    = if decide (e = e' ∧ k = k') then Some port else entry (portLookup pa) e' k') as Hset.
  { intros e' k'. by rewrite entry_setPort, Hlk. }
  constructor.
  - intros e' k' p H. apply Hkeep. rewrite Hset. case_decide; naive_solver.
  - intros e' k' p H. destruct (Hnew _ _ _ H) as [H'|(-> & ? & Hn)].
    + rewrite Hset in H'. case_decide as Hd; [|by left]. right. destruct Hd as [<- <-]. set_solver.
    + right. simpl in Hn. rewrite Hrev in Hn. set_solver.
  - intros k' [->|Hk]%elem_of_cons; [|by apply Hall].
    exists port. apply Hkeep. rewrite Hset. by rewrite decide_True.
  - intros e' He'. rewrite Hother by done. simpl. rewrite lookup_insert_ne by done. by rewrite Hlk.
  - simpl in Hgrow. rewrite Hrev in Hgrow. set_solver.
  - intros Hm. apply Hmark. intros e' k' p. rewrite Hset. simpl. rewrite Hrev.
    case_decide; [|intros ?%Hm]; set_solver.
  - intros Hm R HR Hs. apply Hsh; [|done|].
    + intros e' k' p. rewrite Hset. simpl. rewrite Hrev. case_decide; [|intros ?%Hm]; set_solver.
    + intros e1 k1 e2 k2 p. rewrite !Hset. repeat case_decide; intros; simplify_eq.
      * destruct_and!. subst. reflexivity.
      * exfalso. apply Hfree. by eapply Hm.
      * exfalso. apply Hfree. by eapply Hm.
      * by eapply Hs.
Qed.

Lemma allocateKeys_spec keys : ∀ draws pa e upd pa' upd' draws',
  allocateKeys draws pa e keys upd = Some (pa', upd', draws') →
  allocation e keys pa pa' ∧
  (∃ used, draws = used ++ draws') ∧
  (valid_draws draws → ports_in_range (portLookup pa) → ports_in_range (portLookup pa') ∧ valid_draws draws').
Proof.
  induction keys as [|k keys IH]; intros draws pa e upd pa' upd' draws'; simpl.
  { intros [= <- <- <-]. split_and!; [apply allocation_refl|by exists []|done]. }
  destruct (entry (portLookup pa) e k) as [p|] eqn:Hk.
  { intros H. destruct (IH _ _ _ _ _ _ _ H) as (? & ? & ?). split_and!; eauto using allocation_skip. }
  destruct (allocatePort draws pa) as [[[port pa1] draws1]|] eqn:Ha; [|done].
  intros H. destruct (IH _ _ _ _ _ _ _ H) as (Hal & [u1 ->] & Hr).
  pose proof (allocatePort_spec _ _ _ _ _ Ha) as (_ & Hlk & _ & [u ->] & Hv).
  split_and!; [by eapply allocation_step|by exists (u ++ u1); rewrite <-app_assoc|].
  intros Hd Hrange. destruct (Hv Hd) as [Hp Hd']. apply Hr; [done|].
  intros e' k' p. rewrite entry_setPort, Hlk. case_decide; [|eauto]. by intros [= <-].
Qed.

Lemma allocateKeys_updated keys : ∀ draws pa e upd pa' upd' draws',
  allocateKeys draws pa e keys upd = Some (pa', upd', draws') →
  (upd' = true ↔ upd = true ∨ ∃ k, k ∈ keys ∧ entry (portLookup pa) e k = None).
Proof.
  induction keys as [|k keys IH]; intros draws pa e upd pa' upd' draws'; simpl.
  { intros [= <- <- <-]. set_solver. }
  destruct (entry (portLookup pa) e k) as [p|] eqn:Hk.
  { intros H. rewrite (IH _ _ _ _ _ _ _ H). set_solver. }
  destruct (allocatePort draws pa) as [[[port pa1] draws1]|] eqn:Ha; [|done].
  intros H. rewrite (IH _ _ _ _ _ _ _ H). set_solver.
Qed.

(** [AllocatePorts] starts from the table with the endpoint present. *)
Definition withEndpoint (pa : PortAllocator) (e : string) : PortAllocator :=
  MkPortAllocator (ensureEndpoint (portLookup pa) e) (portLookupReverse pa).

Lemma AllocatePorts_unfold draws pa e keys :
  AllocatePorts draws pa e keys =
  match allocateKeys draws (withEndpoint pa e) e keys false with
  | None => None
  | Some (pa, updated, draws) =>
      let ports := default ∅ (portLookup pa !! e) in
      let kept := filter (λ kp, kp.1 ∈ keys) ports in
      Some (recomputeAvailablePorts
              (MkPortAllocator (<[e := kept]> (portLookup pa)) (portLookupReverse pa)),
            updated || bool_decide (kept ≠ ports), draws)
  end.
Proof. unfold AllocatePorts, withEndpoint, ensureEndpoint. destruct pa as [t r]. simpl. by destruct (t !! e). Qed.

(** The entries after the clean-up loop. *)
Lemma entry_kept t e (keys : list string) e' k p :
  entry (<[e := filter (λ kp, kp.1 ∈ keys) (default ∅ (t !! e))]> t) e' k = Some p ↔
  entry t e' k = Some p ∧ (e' = e → k ∈ keys).
Proof.
  rewrite entry_insert. case_decide; subst; [|naive_solver].
  rewrite map_lookup_filter_Some, entry_default. simpl. naive_solver.
Qed.

Lemma filter_keys_neq (keys : list string) (m : gmap string Z) :
  filter (λ kp, kp.1 ∈ keys) m ≠ m ↔ ∃ k, is_Some (m !! k) ∧ k ∉ keys.
Proof.
  split.
  - intros Hne. destruct (decide (map_Forall (λ k _, k ∈ keys) m)) as [Hall|Hn].
    + contradict Hne. apply map_filter_id. intros k x Hk. by apply (Hall k x).
    + apply map_not_Forall in Hn as (k & x & Hk & Hn); [|apply _]. eauto.
  - intros (k & [x Hk] & Hn) Heq. rewrite <-Heq in Hk.
    apply map_lookup_filter_Some in Hk as [_ Hk]. by apply Hn.
Qed.

(** ** Lemmas: deallocation *)

Lemma lookup_foldl_delete {A} (m : gmap string A) ks k :
  foldl (λ m k, delete k m) m ks !! k = if decide (k ∈ ks) then None else m !! k.
Proof.
  revert m. induction ks as [|k' ks IH]; intros m; cbn [foldl].
  { by destruct (decide (k ∈ [])) as [?%elem_of_nil|]. }
  rewrite IH, lookup_delete. repeat case_decide; set_solver.
Qed.

Lemma entry_DeallocateEndpoints pa ks e k :
  entry (portLookup (DeallocateEndpoints pa ks)) e k
  = if decide (e ∈ ks) then None else entry (portLookup pa) e k.
Proof. unfold entry. simpl. rewrite lookup_foldl_delete. by case_decide. Qed.

Lemma entry_DeallocatePorts pa e ks e' k :
  entry (portLookup (DeallocatePorts pa e ks).1) e' k
  = if decide (e' = e ∧ k ∈ ks) then None else entry (portLookup pa) e' k.
Proof.
  unfold DeallocatePorts. destruct (portLookup pa !! e) as [m|] eqn:He; simpl.
  - rewrite entry_insert, lookup_foldl_delete. unfold entry.
    repeat case_decide; subst; simplify_option_eq; naive_solver.
  - unfold entry. repeat case_decide; [|done]. destruct_and!. subst. by rewrite He.
Qed.

(** ** Lemmas: progress *)

Definition poolSize : nat := Z.to_nat (endPort - startPort).
(** A stretch of draws in which every outcome of [rand.Intn] occurs. *)
Definition covers (block : list Z) : Prop := ∀ r, (0 ≤ r < endPort - startPort)%Z → r ∈ block.

Lemma free_port_exists (used : gset Z) : size used < poolSize →
  ∃ r, (0 ≤ r < endPort - startPort)%Z ∧ (r + startPort)%Z ∉ used.
Proof.
  intros Hs. set (pool := (list_to_set (seqZ startPort (endPort - startPort)) : gset Z)).
  assert (size pool = poolSize) as Hpool.
  { unfold pool. rewrite size_list_to_set by apply NoDup_seqZ. by rewrite length_seqZ. }
  destruct (set_choose_or_empty (pool ∖ used)) as [[p [Hp Hn]%elem_of_difference]|He]; last first.
  { apply empty_difference_subseteq, subseteq_size in He. lia. }
  unfold pool in Hp. rewrite elem_of_list_to_set, elem_of_seqZ in Hp.
  exists (p - startPort)%Z. split; [lia|]. by replace (p - startPort + startPort)%Z with p by lia.
Qed.

(** A stretch that covers all outcomes finds a free port if there is one. *)
Lemma allocatePort_progress pre block rest pa :
  covers block → size (portLookupReverse pa) < poolSize →
  ∃ port pa' pre', allocatePort (pre ++ block ++ rest) pa = Some (port, pa', pre' ++ rest).
Proof.
  intros Hc Hs. destruct (free_port_exists _ Hs) as (r & Hr & Hfree).
  specialize (Hc r Hr). apply list_elem_of_split in Hc as (b1 & b2 & ->).
  rewrite <-!app_assoc. simpl. rewrite app_assoc. generalize (pre ++ b1). intros l.
  induction l as [|x l IH]; simpl.
  - rewrite decide_False by done. by eexists _, _, b2.
  - case_decide; [done|]. by eexists _, _, (l ++ r :: b2); rewrite <-app_assoc.
Qed.

Lemma allocateKeys_progress keys : ∀ pre blocks pa e upd,
  Forall covers blocks → length keys ≤ length blocks →
  size (portLookupReverse pa) + length keys ≤ poolSize →
  is_Some (allocateKeys (pre ++ mjoin blocks) pa e keys upd).
Proof.
  induction keys as [|k keys IH]; intros pre blocks pa e upd Hb Hl Hs; simpl in *; [done|].
  destruct blocks as [|block blocks]; [simpl in Hl; lia|].
  destruct (entry (portLookup pa) e k).
  { simpl in Hl. apply IH; [done|simpl; lia|lia]. }
  apply Forall_cons in Hb as [Hc Hb]. simpl.
  destruct (allocatePort_progress pre block (mjoin blocks) pa) as (port & pa' & pre' & Ha); [done|lia|].
  change (mjoin (block :: blocks)) with (block ++ mjoin blocks). rewrite Ha.
  apply IH; [done|simpl in Hl; lia|].
  apply allocatePort_spec in Ha as (Hf & _ & Hrev & _). simpl. rewrite Hrev.
  rewrite size_union by set_solver. rewrite size_singleton. lia.
Qed.

(** ** Lemmas: healing restored tables *)

(** The state inside one endpoint, after the port keys [ks]. *)
Record healed_keys (e : string) (t0 : LookupTable) (own0 : gmap Z string) (ks : list string)
  (st : LookupTable * gmap Z string) : Prop := {
  hk_other : ∀ e' k, e' ≠ e → entry st.1 e' k = entry t0 e' k;
  hk_here : ∀ k p, entry st.1 e k = Some p ↔
    entry t0 e k = Some p ∧ (k ∈ ks → st.2 !! p = Some e);
  hk_owner : ∀ p o, st.2 !! p = Some o ↔
    own0 !! p = Some o ∨ (own0 !! p = None ∧ o = e ∧ ∃ k, k ∈ ks ∧ entry t0 e k = Some p);
}.

Section healed_keys_step.
Context (e : string) (t0 t : LookupTable) (own0 own : gmap Z string) (ks : list string) (k : string) (p : Z).
Context (Hst : healed_keys e t0 own0 ks (t, own)) (Hk : k ∉ ks) (Hp : entry t0 e k = Some p).

Lemma owner_unchanged o p' o' :
  own !! p = Some o →
  own !! p' = Some o' ↔
  own0 !! p' = Some o' ∨ (own0 !! p' = None ∧ o' = e ∧ ∃ k', k' ∈ ks ++ [k] ∧ entry t0 e k' = Some p').
Proof.
  intros Ho. destruct Hst as [_ _ Hown]. simpl in Hown. rewrite Hown. apply or_iff_compat_l. split.
  - intros (?&->&k'&?&?). set_solver.
  - intros (H0&->&k'&Hin&He). apply elem_of_snoc in Hin as [?| ->]; [by eauto|].
    simplify_eq. apply Hown in Ho as [?|?]; [congruence|naive_solver].
Qed.

(** The endpoint owns the port already. *)
Lemma healed_keys_own : own !! p = Some e → healed_keys e t0 own0 (ks ++ [k]) (t, own).
Proof.
  intros Ho. destruct Hst as [Hoth Hhere _]. simpl in *. constructor; simpl; [done| |by intros; eapply owner_unchanged].
  intros k' p'. rewrite Hhere, elem_of_snoc.
  split; intros [H1 H2]; (split; [done|]); intros; [|by auto].
  destruct (decide (k' = k)) as [->|]; [by simplify_eq|]. set_solver.
Qed.

(** Another endpoint owns it: the entry goes. *)
Lemma healed_keys_drop o :
  own !! p = Some o → o ≠ e → healed_keys e t0 own0 (ks ++ [k]) (<[e := delete k (default ∅ (t !! e))]> t, own).
Proof.
  intros Ho Hne. destruct Hst as [Hoth Hhere _]. simpl in *. constructor; simpl; [| |by intros; eapply owner_unchanged].
  - intros e' k' He'. rewrite entry_insert, decide_False by done. by apply Hoth.
  - intros k' p'. rewrite entry_insert, decide_True by done.
    rewrite lookup_delete_Some, entry_default, Hhere, elem_of_snoc. split.
    + intros [Hne' [H1 H2]]. split; [done|]. intros [?|?]; [by auto|congruence].
    + intros [H1 H2]. split; [|by auto]. intros <-. simplify_eq.
      specialize (H2 (or_intror eq_refl)). congruence.
Qed.

(** Nobody owns it: the endpoint does from now on. *)
Lemma healed_keys_claim : own !! p = None → healed_keys e t0 own0 (ks ++ [k]) (t, <[p := e]> own).
Proof.
  intros Ho. destruct Hst as [Hoth Hhere Hown]. simpl in *.
  assert (own0 !! p = None) as H0.
  { destruct (own0 !! p) as [o0|] eqn:H0; [|done]. assert (own !! p = Some o0) by (apply Hown; by left). congruence. }
  constructor; simpl; [done| |].
  - intros k' p'. rewrite Hhere, elem_of_snoc, lookup_insert.
    split; intros [H1 H2]; (split; [done|]); intros Hin.
    + case_decide; [done|]. destruct Hin as [?| ->]; [by auto|congruence].
    + specialize (H2 (or_introl Hin)). case_decide as Hpp; [|done]. subst p'.
      exfalso. assert (own !! p = Some e) as H; [|congruence]. apply Hown. right. eauto.
  - intros p' o'. rewrite lookup_insert. case_decide as Hpp.
    + subst p'. rewrite H0. split; [intros [= <-]|]; [right|naive_solver].
      split_and!; [done|done|]. exists k. set_solver.
    + rewrite Hown. apply or_iff_compat_l. split.
      * intros (?&->&k'&?&?). set_solver.
      * intros (?&->&k'&Hin&He). apply elem_of_snoc in Hin as [?| ->]; [by eauto|congruence].
Qed.
End healed_keys_step.

Lemma healed_keys_step e t0 own0 ks st k p :
  healed_keys e t0 own0 ks st → k ∉ ks → entry t0 e k = Some p →
  healed_keys e t0 own0 (ks ++ [k]) (healPort e st k).
Proof.
  destruct st as [t own]. intros Hst Hk Hp.
  assert (entry t e k = Some p) as Htp by (apply (hk_here _ _ _ _ _ Hst); set_solver).
  unfold healPort. rewrite Htp. simpl. destruct (own !! p) as [o|] eqn:Ho; [case_decide; [subst o|]|].
  - rewrite insert_id by done. by eapply healed_keys_own.
  - by eapply healed_keys_drop.
  - by eapply healed_keys_claim.
Qed.

Lemma healed_keys_foldl e t0 own0 ks :
  NoDup ks → (∀ k, k ∈ ks → is_Some (entry t0 e k)) →
  healed_keys e t0 own0 ks (foldl (healPort e) (t0, own0) ks).
Proof.
  induction ks as [|k ks IH] using rev_ind; intros Hnd Hin.
  { constructor; simpl; set_solver. }
  rewrite foldl_app. simpl. apply NoDup_app in Hnd as (Hnd & Hd & _).
  destruct (Hin k) as [p Hp]; [set_solver|].
  eapply healed_keys_step; [apply IH; set_solver| |done]. intros Hk. apply (Hd k Hk). set_solver.
Qed.

(** The state after the endpoint keys [l] have been healed. *)
Record healed (t : LookupTable) (l : list string) (st : LookupTable * gmap Z string) : Prop := {
  h_entry : ∀ e k p, entry st.1 e k = Some p ↔ entry t e k = Some p ∧ (e ∈ l → st.2 !! p = Some e);
  h_owner : ∀ p o, st.2 !! p = Some o →
    o ∈ l ∧ (∃ k, entry t o k = Some p) ∧ ∀ e k, e ∈ l → entry t e k = Some p → String.le o e;
  h_owned : ∀ e k p, e ∈ l → entry t e k = Some p → is_Some (st.2 !! p);
}.

Lemma healEndpoint_keys st e :
  healed_keys e st.1 st.2 (sort_strings ((map_to_list (default ∅ (st.1 !! e))).*1)) (healEndpoint st e).
Proof.
  unfold healEndpoint. destruct st as [t own]. simpl. apply healed_keys_foldl.
  - auto with kubelb.
  - intros k. rewrite elem_of_sort_strings, list_elem_of_fmap. intros ([k' p] & -> & Hin).
    apply elem_of_map_to_list in Hin. rewrite entry_default in Hin. eauto.
Qed.

Lemma healed_step t l st e :
  healed t l st → e ∉ l → (∀ e', e' ∈ l → String.le e' e) →
  healed t (l ++ [e]) (healEndpoint st e).
Proof.
  intros [Hent Hown Hall] He Hle.
  destruct (healEndpoint_keys st e) as [Koth Khere Kown].
  set (ks := sort_strings _) in *. set (st' := healEndpoint st e) in *.
  assert (∀ k p, entry t e k = Some p → k ∈ ks) as Hks.
  { intros k p Hk. unfold ks. rewrite elem_of_sort_strings, list_elem_of_fmap.
    exists (k, p). split; [done|]. apply elem_of_map_to_list. rewrite entry_default.
    apply Hent. split; [done|]. by intros. }
  assert (∀ k p, entry st.1 e k = Some p ↔ entry t e k = Some p) as Hte.
  { intros k p. rewrite Hent. naive_solver. }
  constructor.
  - intros e' k p. rewrite elem_of_snoc.
    destruct (decide (e' = e)) as [->|Hne].
    + rewrite Khere, Hte. split; intros [H1 H2]; (split; [done|]); intros; [|auto].
      apply H2. by eapply Hks.
    + rewrite Koth, Hent by done. split; intros [H1 H2]; (split; [done|]).
      * intros [Hl|]; [|done]. apply Kown. left. by apply H2.
      * intros Hl. specialize (H2 (or_introl Hl)). apply Kown in H2 as [?|(_&?&_)]; done.
  - intros p o Ho. apply Kown in Ho as [Ho|(Hn & -> & k & Hin & Hk)].
    + destruct (Hown _ _ Ho) as (H1 & H2 & H3). split_and!; [set_solver|done|].
      intros e' k' [Hl| ->]%elem_of_snoc Hk'; [by eapply H3|].
      by apply Hle.
    + apply Hte in Hk. split_and!; [set_solver|by eauto|].
      intros e' k' [Hl| ->]%elem_of_snoc Hk'.
      * destruct (Hall _ _ _ Hl Hk') as [o Ho]. congruence.
      * reflexivity.
  - intros e' k p [Hl| ->]%elem_of_snoc Hk.
    + destruct (Hall _ _ _ Hl Hk) as [o Ho]. exists o. apply Kown. by left.
    + destruct (st.2 !! p) as [o|] eqn:Ho; [exists o; apply Kown; by left|].
      exists e. apply Kown. right. split_and!; [done|done|].
      exists k. split; [by eapply Hks|]. by apply Hte.
Qed.

Lemma healed_foldl t l : StronglySorted String.le l → NoDup l → healed t l (foldl healEndpoint (t, ∅) l).
Proof.
  induction l as [|e l IH] using rev_ind; intros Hs Hnd.
  { constructor; simpl; set_solver. }
  rewrite foldl_app. simpl. apply NoDup_app in Hnd as (Hnd & Hd & _).
  apply StronglySorted_app in Hs as (Hle & Hs & _).
  apply healed_step; [by apply IH| |].
  - intros Hin. apply (Hd e Hin). set_solver.
  - intros e' Hin. apply Hle; [done|set_solver].
Qed.

(** Healing keeps an entry exactly when its endpoint is the first owner of its port. *)
Lemma heal_spec t e k p :
  entry (healLoadStateCollisions t) e k = Some p ↔
  entry t e k = Some p ∧ ∀ e' k', entry t e' k' = Some p → String.le e e'.
Proof.
  unfold healLoadStateCollisions. set (l := sort_strings _).
  destruct (healed_foldl t l) as [Hent Hown Hall].
  { unfold l. auto with kubelb. }
  { unfold l. auto with kubelb. }
  assert (∀ e k p, entry t e k = Some p → e ∈ l) as Hl.
  { intros e' k' p' H. unfold l. rewrite elem_of_sort_strings, list_elem_of_fmap.
    unfold entry in H. destruct (t !! e') as [m|] eqn:He; [|done].
    exists (e', m). split; [done|]. by apply elem_of_map_to_list. }
  rewrite Hent. split; intros [H1 H2]; (split; [done|]).
  - intros e' k' H'. destruct (Hown p e) as (_ & _ & H3); [by eapply H2, Hl|]. by eapply H3, H'; eapply Hl.
  - intros Hin. destruct (Hall e k p Hin H1) as [o Ho].
    destruct (Hown p o Ho) as (Ho1 & [k' Hk'] & Ho3). rewrite Ho. f_equal.
    apply (anti_symm String.le); [by eapply Ho3|by eapply H2].
Qed.

(** ** Lemmas: whole operations *)

(** What a client may rely on when it asks for the ports of one endpoint, stated on
    the partial map from (endpoint key, port key) to ports. *)
Record spec_allocate (e : string) (keys : list string) (v v' : string -> string -> option Z) : Prop := {
  sa_exact : ∀ k, is_Some (v' e k) ↔ k ∈ keys;
  sa_stable : ∀ k p, k ∈ keys → v e k = Some p → v' e k = Some p;
  sa_frame : ∀ e' k, e' ≠ e → v' e' k = v e' k;
  sa_fresh : ∀ k p, v' e k = Some p → v e k = None → ∀ e' k', v e' k' ≠ Some p;
  sa_distinct : ∀ k1 k2 p, v' e k1 = Some p → v' e k2 = Some p → v e k1 = None → k1 = k2;
}.

Lemma marked_of_exact pa : reverse_exact pa →
  ∀ e k p, entry (portLookup pa) e k = Some p → p ∈ portLookupReverse pa.
Proof. intros H e k p Hp. apply H. eauto. Qed.

(** [AllocatePorts] as an allocation followed by the removal of stale keys. *)
Lemma AllocatePorts_inv draws pa e keys pa' upd draws' :
  AllocatePorts draws pa e keys = Some (pa', upd, draws') →
  ∃ mid, allocation e keys (withEndpoint pa e) mid ∧
    (∀ e' k p, entry (portLookup pa') e' k = Some p ↔
       entry (portLookup mid) e' k = Some p ∧ (e' = e → k ∈ keys)) ∧
    reverse_exact pa' ∧
    (upd = true ↔ (∃ k, k ∈ keys ∧ entry (portLookup pa) e k = None) ∨
                  (∃ k, is_Some (entry (portLookup mid) e k) ∧ k ∉ keys)) ∧
    (valid_draws draws → ports_in_range (portLookup pa) →
     ports_in_range (portLookup pa') ∧ valid_draws draws').
Proof.
  rewrite AllocatePorts_unfold.
  destruct (allocateKeys draws (withEndpoint pa e) e keys false) as [[[mid u] d]|] eqn:Hk; [|done].
  intros [= <- <- <-]. exists mid.
  destruct (allocateKeys_spec _ _ _ _ _ _ _ _ Hk) as (Hal & _ & Hr).
  pose proof (allocateKeys_updated _ _ _ _ _ _ _ _ Hk) as Hu.
  split_and!; [done|apply entry_kept|apply recompute_exact| |].
  - rewrite orb_true_iff, Hu, bool_decide_eq_true, filter_keys_neq.
    setoid_rewrite entry_default. simpl. setoid_rewrite entry_ensure. naive_solver.
  - intros Hd Hrange. destruct (Hr Hd) as [Hr1 Hr2].
    { intros e' k p. simpl. rewrite entry_ensure. apply Hrange. }
    split; [|done]. eapply ports_in_range_sub, Hr1. by intros e' k p [H _]%entry_kept.
Qed.

Lemma AllocatePorts_preserves R draws pa e keys pa' upd draws' :
  Reflexive R → AllocatePorts draws pa e keys = Some (pa', upd, draws') →
  reverse_exact pa → shared_only R (portLookup pa) → shared_only R (portLookup pa').
Proof.
  intros HR (mid & Hal & Hent & _)%AllocatePorts_inv Hex Hs.
  apply (shared_only_sub R (portLookup mid)); [by intros ??? [? _]%Hent|].
  apply (alloc_shared _ _ _ _ Hal); [|done|].
  - intros e' k p. simpl. rewrite entry_ensure. by apply marked_of_exact.
  - intros e1 k1 e2 k2 p. simpl. rewrite !entry_ensure. apply Hs.
Qed.

Lemma AllocatePorts_refines draws pa e keys pa' upd draws' :
  reverse_exact pa → AllocatePorts draws pa e keys = Some (pa', upd, draws') →
  spec_allocate e keys (entry (portLookup pa)) (entry (portLookup pa')).
Proof.
  intros Hex (mid & Hal & Hent & _)%AllocatePorts_inv.
  pose proof (marked_of_exact _ Hex) as Hm.
  pose proof (λ e' k p, alloc_keeps _ _ _ _ Hal e' k p) as Hkeep.
  pose proof (λ e' k p, alloc_new _ _ _ _ Hal e' k p) as Hnew.
  simpl in Hkeep, Hnew. setoid_rewrite entry_ensure in Hkeep. setoid_rewrite entry_ensure in Hnew.
  set (old := λ s : string * string, is_Some (entry (portLookup pa) s.1 s.2)).
  pose proof (alloc_shared _ _ _ _ Hal) as Hsh. simpl in Hsh. setoid_rewrite entry_ensure in Hsh.
  specialize (Hsh Hm (λ s1 s2, s1 = s2 ∨ old s1 ∧ old s2) (λ s, or_introl eq_refl)).
  constructor.
  - intros k. split.
    + intros [p Hp]. apply Hent in Hp as [_ Hk]. by apply Hk.
    + intros Hk. destruct (alloc_all _ _ _ _ Hal k Hk) as [p Hp]. exists p. apply Hent. by split.
  - intros k p Hk Hp. apply Hent. split; [by apply Hkeep|done].
  - intros e' k He'. apply option_eq. intros p. rewrite Hent. split; [|naive_solver].
    intros [H _]. destruct (Hnew _ _ _ H) as [?|[? _]]; [done|congruence].
  - intros k p Hp Hn e' k' Hp'. apply Hent in Hp as [Hp _].
    destruct (Hnew _ _ _ Hp) as [?|(_ & _ & Hf)]; [congruence|]. by apply Hf, (Hm _ _ _ Hp').
  - intros k1 k2 p H1 H2 Hn. apply Hent in H1 as [H1 _], H2 as [H2 _].
    destruct (Hsh ltac:(intros ?????; rewrite !entry_ensure; right; unfold old; eauto) _ _ _ _ _ H1 H2)
      as [[= ->]|[[q Hq] _]]; [done|]. simpl in Hq. congruence.
Qed.

(** One operation of the running allocator. *)
Inductive step : PortAllocator -> PortAllocator -> Prop :=
| step_AllocatePorts draws pa e keys pa' upd draws' :
    valid_draws draws → AllocatePorts draws pa e keys = Some (pa', upd, draws') → step pa pa'
| step_DeallocatePorts pa e keys : step pa (DeallocatePorts pa e keys).1
| step_DeallocateEndpoints pa keys : step pa (DeallocateEndpoints pa keys).

Lemma DeallocatePorts_sub pa e ks : sub_table (portLookup (DeallocatePorts pa e ks).1) (portLookup pa).
Proof. intros e' k p. rewrite entry_DeallocatePorts. by case_decide. Qed.

Lemma DeallocateEndpoints_sub pa ks : sub_table (portLookup (DeallocateEndpoints pa ks)) (portLookup pa).
Proof. intros e' k p. rewrite entry_DeallocateEndpoints. by case_decide. Qed.

Lemma step_exact pa pa' : step pa pa' → reverse_exact pa'.
Proof.
  intros [draws pa0 e keys pa1 upd draws' _ (mid & _ & _ & H & _)%AllocatePorts_inv|pa0 e keys|pa0 keys]; [done| |].
  - unfold DeallocatePorts. destruct (portLookup pa0 !! e); apply recompute_exact.
  - apply recompute_exact.
Qed.

Lemma step_shared R pa pa' : Reflexive R → step pa pa' → reverse_exact pa →
  shared_only R (portLookup pa) → shared_only R (portLookup pa').
Proof.
  intros HR Hst Hex Hs. destruct Hst.
  - by eapply AllocatePorts_preserves.
  - eapply shared_only_sub; [apply DeallocatePorts_sub|done].
  - eapply shared_only_sub; [apply DeallocateEndpoints_sub|done].
Qed.

Lemma step_range pa pa' : step pa pa' → ports_in_range (portLookup pa) → ports_in_range (portLookup pa').
Proof.
  intros Hst Hr. destruct Hst as [? ? ? ? ? ? ? Hd (mid & _ & _ & _ & _ & H)%AllocatePorts_inv| |].
  - by apply H.
  - eapply ports_in_range_sub; [apply DeallocatePorts_sub|done].
  - eapply ports_in_range_sub; [apply DeallocateEndpoints_sub|done].
Qed.

Lemma steps_shared R pa pa' : Reflexive R → rtc step pa pa' → reverse_exact pa →
  shared_only R (portLookup pa) → reverse_exact pa' ∧ shared_only R (portLookup pa').
Proof.
  intros HR. induction 1 as [|x y z Hxy _ IH]; intros Hex Hs; [done|].
  apply IH; [by eapply step_exact|by eapply step_shared].
Qed.

(** The draws that are left are a suffix of those given. *)
Lemma allocatePort_suffix draws : ∀ pa port pa' draws',
  allocatePort draws pa = Some (port, pa', draws') → draws' `suffix_of` draws.
Proof.
  induction draws as [|r draws IH]; intros pa port pa' draws'; simpl; [done|].
  case_decide; [intros ?%IH; by apply suffix_cons_r|]. intros [= _ _ <-]. by apply suffix_cons_r.
Qed.

Lemma allocateKeys_suffix e keys : ∀ draws pa upd pa' upd' draws',
  allocateKeys draws pa e keys upd = Some (pa', upd', draws') → draws' `suffix_of` draws.
Proof.
  induction keys as [|k keys IH]; intros draws pa upd pa' upd' draws'; simpl; [by intros [= _ _ <-]|].
  destruct (entry (portLookup pa) e k); [apply IH|].
  destruct (allocatePort draws pa) as [[[port pa1] draws1]|] eqn:Ha; [|done].
  intros Hk%IH. apply allocatePort_suffix in Ha. by etrans.
Qed.

Lemma AllocatePorts_valid_draws draws pa e keys pa' upd draws' :
  valid_draws draws → AllocatePorts draws pa e keys = Some (pa', upd, draws') → valid_draws draws'.
Proof.
  unfold AllocatePorts, valid_draws. intros Hv Ha.
  destruct (allocateKeys _ _ _ _ _) as [[[pa1 upd1] draws1]|] eqn:Hk; [|done]. injection Ha as _ _ <-.
  apply allocateKeys_suffix in Hk as [l ->]. by apply Forall_app in Hv as [_ ?].
Qed.

(** Allocating for many load balancers or routes is a sequence of steps. *)
Lemma allocateAll_steps calls : ∀ draws pa pa' draws', valid_draws draws →
  allocateAll draws pa calls = Some (pa', draws') → rtc step pa pa' ∧ valid_draws draws'.
Proof.
  induction calls as [|[e keys] calls IH]; intros draws pa pa' draws' Hv; simpl; [by intros [= <- <-]|].
  destruct (AllocatePorts draws pa e keys) as [[[pa1 upd] draws1]|] eqn:Ha; [|done]. intros Hc.
  destruct (IH _ _ _ _ (AllocatePorts_valid_draws _ _ _ _ _ _ _ Hv Ha) Hc) as [Hs Hv'].
  split; [|done]. eapply rtc_l; [exact (step_AllocatePorts _ _ _ _ _ _ _ Hv Ha)|done].
Qed.

Lemma new_exact : reverse_exact NewPortAllocator.
Proof. intros p. simpl. setoid_rewrite entry_empty. set_solver. Qed.

Lemma heal_unique_across t : unique_across_endpoints (healLoadStateCollisions t).
Proof.
  intros e1 k1 e2 k2 p [H1 L1]%heal_spec [H2 L2]%heal_spec.
  unfold same_endpoint. simpl. apply (anti_symm String.le); eauto.
Qed.

Lemma foldr_insert_list {A} (l : list (string * A)) :
  foldr (λ '(k, v) (m : gmap string A), <[k := v]> m) ∅ l = list_to_map l.
Proof. induction l as [|[k v] l IH]; simpl; [done|]. by rewrite IH. Qed.

Lemma allocateAll_frame calls : ∀ draws pa pa' draws' e k,
  reverse_exact pa → allocateAll draws pa calls = Some (pa', draws') →
  e ∉ calls.*1 → entry (portLookup pa') e k = entry (portLookup pa) e k.
Proof.
  induction calls as [|[e0 keys] calls IH]; intros draws pa pa' draws' e k Hex; simpl; [by intros [= <- <-]|].
  destruct (AllocatePorts draws pa e0 keys) as [[[pa1 u] d]|] eqn:Ha; [|done].
  intros H Hn. pose proof (AllocatePorts_inv _ _ _ _ _ _ _ Ha) as (_ & _ & _ & Hex1 & _).
  rewrite (IH _ _ _ _ e k Hex1 H) by set_solver.
  by rewrite (sa_frame _ _ _ _ (AllocatePorts_refines _ _ _ _ _ _ _ Hex Ha)) by set_solver.
Qed.

Lemma allocateAll_spec calls : ∀ draws pa pa' draws',
  reverse_exact pa → NoDup (calls.*1) → allocateAll draws pa calls = Some (pa', draws') →
  ∀ e keys k, (e, keys) ∈ calls → (is_Some (entry (portLookup pa') e k) ↔ k ∈ keys).
Proof.
  induction calls as [|[e0 keys0] calls IH]; intros draws pa pa' draws' Hex Hnd; simpl; [set_solver|].
  apply NoDup_cons in Hnd as [Hn Hnd].
  destruct (AllocatePorts draws pa e0 keys0) as [[[pa1 u] d]|] eqn:Ha; [|done].
  intros H e keys k [[= -> ->]|Hin]%elem_of_cons;
    pose proof (AllocatePorts_inv _ _ _ _ _ _ _ Ha) as (_ & _ & _ & Hex1 & _).
  - rewrite (allocateAll_frame _ _ _ _ _ _ _ Hex1 H) by done.
    apply (sa_exact _ _ _ _ (AllocatePorts_refines _ _ _ _ _ _ _ Hex Ha)).
  - by eapply IH.
Qed.

Lemma Lookup_entry pa e k :
  Lookup pa e k = match entry (portLookup pa) e k with Some p => (p, true) | None => ((-1)%Z, false) end.
Proof. unfold Lookup, entry. by destruct (portLookup pa !! e). Qed.

Lemma reachable_inv pa :
  rtc step NewPortAllocator pa →
  reverse_exact pa ∧ unique_ports (portLookup pa) ∧ ports_in_range (portLookup pa).
Proof.
  intros Hs. destruct (steps_shared eq _ _ _ Hs) as [Hex Hu].
  { apply new_exact. }
  { intros e1 k1 e2 k2 p H. by rewrite entry_empty in H. }
  split_and!; [done..|]. clear Hex Hu.
  assert (ports_in_range (portLookup NewPortAllocator)) as H0.
  { intros e k p H. by rewrite entry_empty in H. }
  induction Hs as [|x y z Hxy _ IH]; [done|]. apply IH. by eapply step_range.
Qed.

Lemma port_lookup_true pa e k p : port_lookup pa e k = (p, true) ↔ entry (portLookup pa) e k = Some p.
Proof. unfold port_lookup, allocator_lookup. rewrite Lookup_entry. destruct (entry _ _ _); naive_solver. Qed.

(** Every allocator the program can reach from empty keeps the promise. *)
Lemma reachable_consistent pa : rtc step NewPortAllocator pa → ConsistentLookup pa.
Proof.
  intros (_ & Hu & Hr)%reachable_inv. split.
  - intros e k p ?%port_lookup_true. by eapply Hr.
  - intros e1 k1 e2 k2 p ?%port_lookup_true ?%port_lookup_true. by eapply Hu.
Qed.

#[export] Hint Resolve reachable_consistent : kubelb.

(** ** Properties *)

(** C1: an allocator that started empty never hands out one port twice: in every
    state reachable by allocations and deallocations the reverse table is exact, no
    two (endpoint, port key) pairs share a port, and every port lies in
    [startPort, endPort). *)
Theorem allocator_ports_unique (pa : PortAllocator) :
  rtc step NewPortAllocator pa →
  reverse_exact pa ∧ unique_ports (portLookup pa) ∧ ports_in_range (portLookup pa).
Proof. apply reachable_inv. Qed.

Lemma allocator_ports_unique_witness :
  ∃ pa, entry (portLookup pa) "lb-ep-0" "443-TCP" = Some 10007%Z ∧
    (reverse_exact pa ∧ unique_ports (portLookup pa) ∧ ports_in_range (portLookup pa)).
Proof.
  set (r := AllocatePorts [5; 5; 7]%Z NewPortAllocator "lb-ep-0" ["80-TCP"; "443-TCP"]).
  destruct r as [[[pa u] d]|] eqn:Hr; [|by vm_compute in Hr].
  exists pa. split.
  - assert (Some (pa, u, d) = r) as Hr' by done. vm_compute in Hr'. by injection Hr' as -> _ _.
  - apply (allocator_ports_unique pa). apply rtc_once.
    eapply step_AllocatePorts; [|exact Hr]. repeat constructor; port_lia.
Defined.

(** C2: [AllocatePorts] refines its specification: afterwards the endpoint owns exactly
    the requested keys, ports it already had are kept, other endpoints are untouched,
    new ports were owned by nobody and differ from each other; the result says whether
    anything changed. *)
Theorem allocate_ports_refines_spec (draws draws' : list Z) (pa pa' : PortAllocator) (e : string)
  (keys : list string) (upd : bool) :
  reverse_exact pa → AllocatePorts draws pa e keys = Some (pa', upd, draws') →
  spec_allocate e keys (entry (portLookup pa)) (entry (portLookup pa')) ∧ reverse_exact pa' ∧
  (upd = true ↔ ∃ k, entry (portLookup pa') e k ≠ entry (portLookup pa) e k).
Proof.
  intros Hex Ha. pose proof (AllocatePorts_refines _ _ _ _ _ _ _ Hex Ha) as Href.
  pose proof (AllocatePorts_inv _ _ _ _ _ _ _ Ha) as (mid & Hal & Hent & Hex' & Hu & _).
  split_and!; [done..|]. rewrite Hu. clear Hu. destruct Href as [Hexact Hstable _ _ _]. split.
  - intros [(k & Hk & Hn)|(k & [p Hp] & Hk)]; exists k.
    + rewrite Hn. intros Hc. destruct (proj2 (Hexact k) Hk) as [q Hq]. congruence.
    + intros Hc. apply Hk, Hexact. rewrite Hc. exists p.
      destruct (alloc_new _ _ _ _ Hal _ _ _ Hp) as [H|(_ & H & _)]; [|done].
      simpl in H. by rewrite entry_ensure in H.
  - intros (k & Hne). destruct (decide (k ∈ keys)) as [Hk|Hk].
    + left. exists k. split; [done|]. destruct (entry (portLookup pa) e k) as [p|] eqn:Hp; [|done].
      by rewrite (Hstable k p Hk Hp) in Hne.
    + right. exists k. split; [|done]. destruct (entry (portLookup pa) e k) as [p|] eqn:Hp.
      * exists p. apply (alloc_keeps _ _ _ _ Hal). simpl. by rewrite entry_ensure.
      * destruct (entry (portLookup pa') e k) as [q|] eqn:Hq; [|done].
        exfalso. apply Hk, Hexact. eauto.
Qed.

Lemma allocate_ports_refines_spec_witness :
  ∃ pa upd, AllocatePorts [0]%Z NewPortAllocator "ep" ["80-TCP"] = Some (pa, upd, []) ∧
    spec_allocate "ep" ["80-TCP"] (entry (portLookup NewPortAllocator)) (entry (portLookup pa)).
Proof.
  destruct (AllocatePorts [0]%Z NewPortAllocator "ep" ["80-TCP"]) as [[[pa u] d]|] eqn:Hr;
    [|by vm_compute in Hr].
  exists pa, u. split.
  - f_equal. f_equal. vm_compute in Hr. by injection Hr.
  - exact (proj1 (allocate_ports_refines_spec _ _ _ _ _ _ _ new_exact Hr)).
Defined.

(** C3: restoring from the stored load balancers and routes never leaves one port with
    two endpoints, and no later operation breaks this. *)
Theorem restored_allocator_unique_across_endpoints (IntValue : IntOrString → Z)
  (pa0 pa pa' : PortAllocator) (lbs : result (list LoadBalancer)) (routes : result (list Route)) :
  LoadState IntValue pa0 lbs routes = Ok pa → rtc step pa pa' →
  reverse_exact pa' ∧ unique_across_endpoints (portLookup pa').
Proof.
  unfold LoadState. intros H Hs. rinv.
  apply (steps_shared same_endpoint _ _ _ Hs); [apply recompute_exact|apply heal_unique_across].
Qed.

(** healing keeps an entry exactly when its endpoint comes first, in key order, among
    the endpoints that claim its port; so every claimed port keeps one owner. *)
Theorem heal_keeps_first_owner (t : LookupTable) (e k : string) (p : Z) :
  entry (healLoadStateCollisions t) e k = Some p ↔
  entry t e k = Some p ∧ ∀ e' k', entry t e' k' = Some p → String.le e e'.
Proof. apply heal_spec. Qed.

(** allocation terminates: when the pool has room for the requested keys, any draw
    sequence in which every port comes up once per key makes [AllocatePorts] return. *)
Theorem allocate_ports_terminates (blocks : list (list Z)) (pa : PortAllocator) (e : string)
  (keys : list string) :
  Forall covers blocks → length keys ≤ length blocks →
  size (portLookupReverse pa) + length keys ≤ poolSize →
  is_Some (AllocatePorts (mjoin blocks) pa e keys).
Proof.
  intros Hb Hl Hs. rewrite AllocatePorts_unfold.
  destruct (allocateKeys_progress keys [] blocks (withEndpoint pa e) e false Hb Hl Hs) as [[[pa' u] d] H].
  simpl in H. rewrite H. by eexists.
Qed.

Lemma allocate_ports_terminates_witness :
  is_Some (AllocatePorts (mjoin [seqZ 0 (endPort - startPort)]) NewPortAllocator "ep" ["80-TCP"]).
Proof.
  apply (allocate_ports_terminates [seqZ 0 (endPort - startPort)] NewPortAllocator "ep" ["80-TCP"]).
  - apply Forall_singleton. intros r Hr. apply elem_of_seqZ. lia.
  - simpl. lia.
  - unfold poolSize, endPort, startPort. change (size (portLookupReverse NewPortAllocator)) with 0. simpl length. lia.
Defined.

(** with every port of the pool taken, [allocatePort] never returns: no number of
    draws ends its loop. *)
Theorem allocate_port_diverges_when_full (draws : list Z) (pa : PortAllocator) :
  valid_draws draws →
  (∀ p, (startPort ≤ p < endPort)%Z → p ∈ portLookupReverse pa) →
  allocatePort draws pa = None.
Proof.
  intros Hd Hfull. induction Hd as [|r draws Hr _ IH]; simpl; [done|].
  rewrite decide_True; [done|]. apply Hfull. lia.
Qed.

Lemma allocate_port_diverges_when_full_witness :
  allocatePort [3; 1; 4]%Z
    (MkPortAllocator ∅ (list_to_set (seqZ startPort (endPort - startPort)))) = None.
Proof.
  apply (allocate_port_diverges_when_full [3; 1; 4]%Z
    (MkPortAllocator ∅ (list_to_set (seqZ startPort (endPort - startPort))))).
  - repeat constructor; port_lia.
  - intros p Hp. cbn [portLookupReverse]. apply elem_of_list_to_set, elem_of_seqZ. lia.
Defined.

(** after [AllocatePortsForLoadBalancers] every port of every endpoint is found by
    [Lookup], and nothing else is found for that endpoint. *)
Theorem load_balancer_ports_allocated (draws draws' : list Z) (pa pa' : PortAllocator)
  (lbs : list LoadBalancer) (lb : LoadBalancer) (i : nat) (ep : LoadBalancerEndpoints) (k : string) :
  reverse_exact pa →
  NoDup ((mjoin (lbAllocations <$> lbs)).*1) →
  AllocatePortsForLoadBalancers draws pa lbs = Some (pa', draws') →
  lb ∈ lbs → lbs_Endpoints (lb_Spec lb) !! i = Some ep →
  ((Lookup pa' (lbEndpointKey lb i) k).2 = true ↔
   ∃ p, p ∈ lbe_Ports ep ∧ k = EnvoyListenerKey (ep_Port p) (ep_Protocol p)).
Proof.
  intros Hex Hnd Ha Hlb Hep.
  rewrite Lookup_entry. transitivity (is_Some (entry (portLookup pa') (lbEndpointKey lb i) k)).
  { destruct (entry _ _ _); naive_solver. }
  rewrite (allocateAll_spec _ _ _ _ _ Hex Hnd Ha (lbEndpointKey lb i)
    ((λ p, EnvoyListenerKey (ep_Port p) (ep_Protocol p)) <$> lbe_Ports ep)).
  - rewrite list_elem_of_fmap. naive_solver.
  - apply list_elem_of_join. exists (lbAllocations lb). split.
    + unfold lbAllocations. apply elem_of_lookup_imap. eauto.
    + by apply list_elem_of_fmap_2.
Qed.

(** [GetPortLookupTable] returns a faithful copy of the whole table. *)
Theorem get_port_lookup_table_copy (pa : PortAllocator) : GetPortLookupTable pa = portLookup pa.
Proof.
  unfold GetPortLookupTable. rewrite <-(list_to_map_to_list (portLookup pa)) at 2.
  rewrite <-foldr_insert_list.
  induction (map_to_list (portLookup pa)) as [|[e m] l IH]; simpl; [done|].
  by rewrite IH, foldr_insert_list, list_to_map_to_list.
Qed.

(** ** Witnesses on sample resources *)

Definition sampleMeta (ns name : string) : ObjectMeta :=
  objectMeta name ns "" None None.

Definition samplePort (name : string) (port target : Z) : CoreServicePort :=
  {| sp_Name := name; sp_Protocol := ProtocolTCP; sp_Port := port; sp_TargetPort := FromInt target; sp_NodePort := 30080 |}.

Definition sampleLB : LoadBalancer :=
  {| lb_Meta := sampleMeta "tenant-a" "uid-1";
     lb_Spec := {| lbs_Endpoints :=
                     [{| lbe_Name := ""; lbe_Addresses := []; lbe_AddressesReference := Some DefaultAddressName;
                         lbe_Ports := [{| ep_Name := "http"; ep_Port := 30080; ep_Protocol := ProtocolTCP |}] |}];
                   lbs_Ports := [{| lbp_Name := "http"; lbp_Protocol := ProtocolTCP; lbp_Port := 80 |}];
                   lbs_Hostname := ""; lbs_Type := "LoadBalancer"; lbs_ExternalTrafficPolicy := "";
                   lbs_Persistence := None |};
     lb_Status := {| emptyLoadBalancerStatus with
                    lst_Service := {| ss_Ports := [{| stp_Core := samplePort "http" 80 10042; stp_UpstreamTargetPort := 30080 |}] |} |} |}.

(** The allocator after one allocation for that load balancer *)
Definition sampleAllocator : PortAllocator :=
  MkPortAllocator {[ "tenant-a-uid-1-ep-0" := {[ "30080-TCP" := 10042%Z ]} ]} {[ 10042%Z ]}.

Lemma sampleAllocator_consistent : ConsistentLookup sampleAllocator.
Proof.
  apply reachable_consistent, rtc_once.
  apply (step_AllocatePorts [42%Z] NewPortAllocator "tenant-a-uid-1-ep-0" ["30080-TCP"] sampleAllocator true []).
  - repeat constructor; port_lia.
  - vm_compute. reflexivity.
Qed.

Definition sampleIntValue (i : IntOrString) : Z := match i with FromInt z => z | FromString _ => 0 end.

(** A route named [web] of the tenant cluster's namespace [origin] with the shared backend. *)
Definition sampleRoute (uid origin : string) : Route :=
  {| rt_Meta := sampleMeta "tenant-a" uid; rt_Endpoints := [];
     rt_Source := Some {| ks_Route := {| u_APIVersion := "gateway.networking.k8s.io/v1"; u_Kind := "HTTPRoute";
                                         u_Meta := sampleMeta origin "web"; u_Spec := "" |};
                          ks_Services := [service (sampleMeta "backend" "svc") [samplePort "http" 80 8080] "NodePort" "" ""] |};
     rt_Status := emptyRouteStatus |}.

Lemma restored_allocator_unique_across_endpoints_witness :
  ∃ pa, LoadState sampleIntValue NewPortAllocator (Ok [sampleLB]) (Ok [sampleRoute "r1" "ns1"]) = Ok pa ∧
    Lookup pa "tenant-a-uid-1-ep-0" "30080-TCP" = (10042%Z, true) ∧
    (reverse_exact pa ∧ unique_across_endpoints (portLookup pa)).
Proof.
  destruct (LoadState sampleIntValue NewPortAllocator (Ok [sampleLB]) (Ok [sampleRoute "r1" "ns1"]))
    as [pa|] eqn:Hl; [|by vm_compute in Hl].
  exists pa. split; [done|]. split.
  - pose proof Hl as Hv. vm_compute in Hv. injection Hv as <-. by vm_compute.
  - exact (restored_allocator_unique_across_endpoints _ _ _ _ _ _ Hl (rtc_refl _ _)).
Defined.

Lemma load_balancer_ports_allocated_witness :
  ∃ pa d, AllocatePortsForLoadBalancers [9]%Z NewPortAllocator [sampleLB] = Some (pa, d) ∧
    ((Lookup pa (lbEndpointKey sampleLB 0) "30080-TCP").2 = true ↔
     ∃ p, p ∈ [{| ep_Name := "http"; ep_Port := 30080; ep_Protocol := ProtocolTCP |}] ∧
          "30080-TCP" = EnvoyListenerKey (ep_Port p) (ep_Protocol p)).
Proof.
  destruct (AllocatePortsForLoadBalancers [9]%Z NewPortAllocator [sampleLB]) as [[pa d]|] eqn:Ha;
    [|by vm_compute in Ha].
  exists pa, d. split; [done|].
  refine (load_balancer_ports_allocated _ _ _ _ _ sampleLB 0
    {| lbe_Name := ""; lbe_Addresses := []; lbe_AddressesReference := Some DefaultAddressName;
       lbe_Ports := [{| ep_Name := "http"; ep_Port := 30080; ep_Protocol := ProtocolTCP |}] |}
    "30080-TCP" new_exact _ Ha _ _).
  - apply NoDup_singleton.
  - by apply list_elem_of_singleton.
  - reflexivity.
Defined.

(** Two routes of one tenant with the same name in different origin namespaces share the
    allocator key of a common backend: removing one of them frees the other's port. *)
Example deallocating_route_frees_namesake :
  match AllocatePortsForRoutes [1; 2]%Z NewPortAllocator [sampleRoute "r1" "ns1"; sampleRoute "r2" "ns2"] with
  | Some (pa, _) =>
      let key := "tenant-tenant-a-route-backend-svc-web" in
      Lookup pa key "80-TCP" = (10001%Z, true) ∧
      Lookup (DeallocatePortsForRoute pa (sampleRoute "r1" "ns1")) key "80-TCP" = ((-1)%Z, false)
  | None => False
  end.
Proof. vm_compute. split; reflexivity. Qed.

(** Healing looks across endpoints only: a duplicate inside one endpoint survives. *)
Example heal_ignores_duplicates_within_endpoint :
  let t := {["ep" := {["80-TCP" := 10000%Z; "443-TCP" := 10000%Z]}]} in
  healLoadStateCollisions t = t.
Proof. vm_compute. reflexivity. Qed.
