(* ===== verification/Annotations.v ===== *)
(** * Annotations

    How KubeLB moves annotations from a tenant's resources to the ones it
    generates: the propagation policy of [internal/kubelb/utils.go], the tenant
    over config resolution of [internal/controllers/kubelb/shared.go], and the
    comparison, merge and three-way reconciliation of
    [internal/util/kubernetes/util.go]. *)

From Stdlib Require Import Ascii.
From S2P Require Import Prelude GoStrings GoPath Api Names.

Local Open Scope go_scope.

(** ** Propagation policy *)

Definition matchPattern (pattern key : string) : bool :=
  match Match pattern key with
  | Some matched => matched
  | None => bool_decide (pattern = key)
  end.

(** The closure [compileDenyMatcher] returns. *)
Definition compileDenyMatcher (patterns : list string) (key : string) : bool :=
  existsb (λ p, matchPattern p key) patterns.

Record rule := { rule_pattern : string; rule_values : option (list string) }.

Definition compileRule (kv : string * string) : rule :=
  {| rule_pattern := kv.1;
     rule_values := if bool_decide (kv.2 = "") then None else Some (TrimSpace <$> Split kv.2 ",") |}.

(** The closure [compileAllowMatcher] returns. *)
Definition compileAllowMatcher (allow : option StrMap) (key value : string) : bool :=
  match allow with
  | None => false
  | Some m =>
      existsb (λ r, matchPattern (rule_pattern r) key &&
                    match rule_values r with
                    | None => true
                    | Some vs => bool_decide (value ∈ vs)
                    end)
              (compileRule <$> map_to_list m)
  end.

(** One loop of [mergeDefaultAnnotations]: add what is missing. *)
Definition addMissing (out defaults : StrMap) : StrMap :=
  map_fold (λ k v out, match out !! k with Some _ => out | None => <[k := v]> out end) out defaults.

Definition mergeDefaultAnnotations (out : StrMap) (settings : AnnotationSettings) (resource : AnnotatedResource)
  : StrMap :=
  match as_DefaultAnnotations settings with
  | None => out
  | Some d =>
      addMissing (addMissing out (default ∅ (d !! resource))) (default ∅ (d !! AnnotatedResourceAll))
  end.

Definition propagated (settings : AnnotationSettings) (kv : string * string) : Prop :=
  compileDenyMatcher (default [] (as_DeniedAnnotations settings)) kv.1 = false ∧
  (as_PropagateAllAnnotations settings = Some true ∨
   compileAllowMatcher (as_PropagatedAnnotations settings) kv.1 kv.2 = true).

#[export] Instance propagated_dec settings kv : Decision (propagated settings kv).
Proof. unfold propagated. apply _. Defined.

Definition PropagateAnnotations (source : GoMap) (settings : AnnotationSettings) (resource : AnnotatedResource)
  : StrMap :=
  let out := filter (propagated settings) (entries source) in
  mergeDefaultAnnotations out settings resource.

(** ** Tenant over config: [GetAnnotations] *)

Definition GetAnnotations (tenant config : AnnotationSettings) : AnnotationSettings :=
  let policy :=
    if decide (as_PropagateAllAnnotations tenant ≠ None ∨ as_PropagatedAnnotations tenant ≠ None)
    then tenant else config in
  {| as_PropagateAllAnnotations := as_PropagateAllAnnotations policy;
     as_PropagatedAnnotations := as_PropagatedAnnotations policy;
     as_DeniedAnnotations :=
       match as_DeniedAnnotations tenant with
       | Some d => Some d
       | None => as_DeniedAnnotations config
       end;
     as_DefaultAnnotations :=
       match as_DefaultAnnotations tenant with
       | Some d => Some d
       | None => as_DefaultAnnotations config
       end |}.

(** ** DNS and certificate annotations *)

Definition ExternalDNSHostnameAnnotation : string := "external-dns.alpha.kubernetes.io/hostname".
Definition ExternalDNSTTLAnnotation : string := "external-dns.alpha.kubernetes.io/ttl".
Definition ExternalDNSTTLDefault : string := "10".
Definition CertManagerClusterIssuerAnnotation : string := "cert-manager.io/cluster-issuer".

(** The map is updated in place.  A nil map is replaced by a local one, so its caller
    sees no change. *)
Definition AddDNSAndCertificateAnnotations (annotations : GoMap) (tenant : Tenant) (config : Config)
  (hostname : string) (skipCertificateAnnotations : bool) : GoMap :=
  let shouldAddDNS := default (cdns_UseDNSAnnotations (cf_DNS config)) (dns_UseDNSAnnotations (tn_DNS tenant)) in
  let shouldAddCert :=
    default (cdns_UseCertificateAnnotations (cf_DNS config)) (dns_UseCertificateAnnotations (tn_DNS tenant)) in
  match annotations with
  | None => None
  | Some m =>
      let m :=
        if shouldAddDNS then
          <[ExternalDNSTTLAnnotation := ExternalDNSTTLDefault]>
          (<[ExternalDNSHostnameAnnotation := hostname]> m)
        else m in
      Some
        (if negb skipCertificateAnnotations && shouldAddCert then
           match cert_DefaultClusterIssuer (tn_Certificates tenant) with
           | Some issuer => <[CertManagerClusterIssuerAnnotation := issuer]> m
           | None =>
               match cert_DefaultClusterIssuer (cf_Certificates config) with
               | Some issuer => <[CertManagerClusterIssuerAnnotation := issuer]> m
               | None => m
               end
           end
         else m)
  end.

(** ** Comparison, merge and reconciliation *)

Definition CompareAnnotations (a b : GoMap) : bool :=
  match a, b with
  | None, None => true
  | Some a, Some b =>
      bool_decide (a = b) ||
      bool_decide (delete LastAppliedConfigAnnotation a = delete LastAppliedConfigAnnotation b)
  | _, _ => false
  end.

Definition ManagedAnnotationsKey : string := "kubelb.k8c.io/managed-annotations".

Definition dropStale (desired : StrMap) (merged : StrMap) (key : string) : StrMap :=
  match desired !! key with
  | Some _ => merged
  | None => if bool_decide (key = "") then merged else delete key merged
  end.

Definition managedKeys (desired : StrMap) : list string :=
  filter (λ k, k ≠ ManagedAnnotationsKey) (map_to_list desired).*1.

Definition ReconcileAnnotations (existing desired : GoMap) : StrMap :=
  let merged :=
    foldl (dropStale (entries desired)) (entries existing)
          (Split (get existing ManagedAnnotationsKey) ",") in
  let merged := entries desired ∪ merged in
  let managed := managedKeys (entries desired) in
  match managed with
  | [] => delete ManagedAnnotationsKey merged
  | _ => <[ManagedAnnotationsKey := Join (sort_strings managed) ","]> merged
  end.

Definition MergeAnnotations (existing desired : GoMap) : GoMap :=
  if CompareAnnotations existing desired then existing
  else Some (entries desired ∪ entries existing).

(** ** Lemmas: propagation *)

Lemma addMissing_union out d : addMissing out d = out ∪ d.
Proof.
  unfold addMissing. apply (map_fold_weak_ind (λ r d, r = out ∪ d)).
  - by rewrite (right_id ∅ (∪)).
  - intros k v m r Hk ->. rewrite lookup_union. apply map_eq. intros i.
    destruct (out !! k) as [x|] eqn:Ho; rewrite ?Hk; simpl.
    + rewrite !lookup_union, lookup_insert. case_decide; [subst|done].
      rewrite Ho. by destruct (m !! i).
    + rewrite lookup_insert, !lookup_union, lookup_insert. case_decide; [subst|done]. by rewrite Ho.
Qed.

(** The defaults that apply to a resource kind: its own, then the ones for all kinds. *)
Definition defaultsFor (settings : AnnotationSettings) (resource : AnnotatedResource) : StrMap :=
  match as_DefaultAnnotations settings with
  | None => ∅
  | Some d => default ∅ (d !! resource) ∪ default ∅ (d !! AnnotatedResourceAll)
  end.

Lemma mergeDefaultAnnotations_union out settings resource :
  mergeDefaultAnnotations out settings resource = out ∪ defaultsFor settings resource.
Proof.
  unfold mergeDefaultAnnotations, defaultsFor. destruct (as_DefaultAnnotations settings).
  - by rewrite !addMissing_union, (assoc_L (∪)).
  - by rewrite (right_id ∅ (∪)).
Qed.

Lemma matchPattern_plain p key : plain p = true → matchPattern p key = bool_decide (p = key).
Proof. intros Hp. unfold matchPattern. by rewrite Match_plain. Qed.

Lemma PropagateAnnotations_lookup source settings resource k :
  PropagateAnnotations source settings resource !! k =
  match entries source !! k with
  | Some v => if decide (propagated settings (k, v)) then Some v else defaultsFor settings resource !! k
  | None => defaultsFor settings resource !! k
  end.
Proof.
  unfold PropagateAnnotations. rewrite mergeDefaultAnnotations_union, lookup_union, map_lookup_filter.
  destruct (entries source !! k) as [v|]; simpl; [|by rewrite (left_id None (∪))].
  destruct (decide (propagated settings (k, v))); simplify_option_eq.
  - by destruct (defaultsFor settings resource !! k).
  - done.
Qed.

(** ** Lemmas: the comma-separated list of managed keys *)

Definition no_comma (s : string) : Prop := no_byte "," s.

Lemma lookup_foldl_dropStale desired keys m k :
  foldl (dropStale desired) m keys !! k =
  if decide (k ∈ keys ∧ k ≠ "" ∧ desired !! k = None) then None else m !! k.
Proof.
  revert m. induction keys as [|k0 keys IH]; intros m; cbn [foldl].
  { rewrite decide_False; [done|]. intros [H _]. by apply elem_of_nil in H. }
  rewrite IH. unfold dropStale. destruct (decide (k ∈ keys ∧ k ≠ "" ∧ desired !! k = None)) as [H|H].
  { rewrite decide_True; [done|set_solver]. }
  destruct (desired !! k0) eqn:Hd; [|case_bool_decide as He].
  - rewrite decide_False; [done|]. intros ([->|?]%elem_of_cons & ? & ?); naive_solver.
  - rewrite decide_False; [done|]. intros ([->|?]%elem_of_cons & ? & ?); naive_solver.
  - rewrite lookup_delete. destruct (decide (k0 = k)) as [->|Hne].
    + rewrite decide_True; [done|set_solver].
    + rewrite decide_False; [done|]. intros ([->|?]%elem_of_cons & ? & ?); naive_solver.
Qed.

Lemma elem_of_managedKeys d k : k ∈ managedKeys d ↔ k ≠ ManagedAnnotationsKey ∧ is_Some (d !! k).
Proof.
  unfold managedKeys. rewrite list_elem_of_filter, list_elem_of_fmap. split.
  - intros (Hk & [k' v] & -> & Hin). apply elem_of_map_to_list in Hin. eauto.
  - intros (Hk & v & Hv). split; [done|]. exists (k, v). split; [done|]. by apply elem_of_map_to_list.
Qed.

Lemma ReconcileAnnotations_lookup existing desired k :
  k ≠ ManagedAnnotationsKey →
  ReconcileAnnotations existing desired !! k =
  match entries desired !! k with
  | Some v => Some v
  | None =>
      if decide (k ∈ Split (get existing ManagedAnnotationsKey) "," ∧ k ≠ "") then None
      else entries existing !! k
  end.
Proof.
  intros Hk. unfold ReconcileAnnotations.
  assert (∀ m : StrMap, match managedKeys (entries desired) with
    | [] => delete ManagedAnnotationsKey m
    | _ => <[ManagedAnnotationsKey := Join (sort_strings (managedKeys (entries desired))) ","]> m
    end !! k = m !! k) as Hm.
  { intros m. destruct (managedKeys (entries desired)); by rewrite ?lookup_delete_ne, ?lookup_insert_ne. }
  rewrite Hm, lookup_union, lookup_foldl_dropStale.
  destruct (entries desired !! k) as [v|]; simpl.
  - by destruct (if decide _ then None else _).
  - rewrite (left_id None (∪)). apply decide_ext. naive_solver.
Qed.

(** The record a reconciliation leaves behind is read back by the next one. *)
Lemma ReconcileAnnotations_managed existing desired :
  Forall no_comma (managedKeys (entries desired)) →
  ∀ k, k ≠ "" →
  k ∈ Split (get (Some (ReconcileAnnotations existing desired)) ManagedAnnotationsKey) "," ↔
  k ∈ managedKeys (entries desired).
Proof.
  intros Hc k Hk. unfold get, entries at 1. simpl. unfold ReconcileAnnotations.
  destruct (managedKeys (entries desired)) as [|k0 l] eqn:Hm.
  - rewrite lookup_delete_eq. simpl. set_solver.
  - rewrite lookup_insert_eq. cbn [default from_option id].
    rewrite (Split_Join ",").
    + by rewrite elem_of_sort_strings.
    + intros Hn. pose proof (sort_strings_perm (k0 :: l)) as Hp. rewrite Hn in Hp.
      by apply Permutation_nil in Hp.
    + by rewrite sort_strings_perm.
Qed.

Lemma ReconcileAnnotations_record existing existing' desired :
  ReconcileAnnotations existing desired !! ManagedAnnotationsKey
  = ReconcileAnnotations existing' desired !! ManagedAnnotationsKey.
Proof.
  unfold ReconcileAnnotations. destruct (managedKeys (entries desired)).
  - by rewrite !lookup_delete_eq.
  - by rewrite !lookup_insert_eq.
Qed.

(** ** Comparison is an equivalence *)

Definition same_annotations (a b : GoMap) : Prop := CompareAnnotations a b = true.

Lemma CompareAnnotations_spec a b :
  same_annotations a b ↔
  (a = None ↔ b = None) ∧
  delete LastAppliedConfigAnnotation (entries a) = delete LastAppliedConfigAnnotation (entries b).
Proof.
  unfold same_annotations, CompareAnnotations.
  destruct a as [a|], b as [b|]; simpl; try naive_solver.
  rewrite orb_true_iff, !bool_decide_eq_true. naive_solver.
Qed.

#[export] Instance same_annotations_equiv : Equivalence same_annotations.
Proof.
  split; intros ?**; rewrite CompareAnnotations_spec in *; try naive_solver.
  destruct_and!. split; [naive_solver|]. by etrans.
Qed.

#[export] Instance CompareAnnotations_proper :
  Proper (same_annotations ==> same_annotations ==> eq) CompareAnnotations.
Proof.
  intros a a' Ha b b' Hb. apply eq_bool_prop_intro. rewrite !Is_true_true.
  change (same_annotations a b ↔ same_annotations a' b'). by rewrite Ha, Hb.
Qed.

(** ** Properties *)

(** what reaches a generated resource, key by key: a source annotation that is not
    denied and is admitted by the policy keeps its value; otherwise the default of the
    resource kind, then the default for all kinds, then nothing. *)
Theorem propagate_annotations_spec (source : GoMap) (settings : AnnotationSettings)
  (resource : AnnotatedResource) (k : string) :
  PropagateAnnotations source settings resource !! k =
  match entries source !! k with
  | Some v => if decide (propagated settings (k, v)) then Some v else defaultsFor settings resource !! k
  | None => defaultsFor settings resource !! k
  end.
Proof. apply PropagateAnnotations_lookup. Qed.

(** a deny rule that ends in a star (such as [nginx.ingress.kubernetes.io/*]) blocks
    every annotation of that prefix without a further slash, also when all annotations
    are propagated. *)
Theorem denied_prefix_not_propagated (source : GoMap) (settings : AnnotationSettings)
  (resource : AnnotatedResource) (prefix rest : string) :
  plain prefix = true → str_forall (λ a, negb (Ascii.eqb a "]")) prefix = true → prefix ≠ "" →
  prefix ⊕ "*" ∈ default [] (as_DeniedAnnotations settings) →
  has_byte "/" rest = false →
  defaultsFor settings resource !! (prefix ⊕ rest) = None →
  PropagateAnnotations source settings resource !! (prefix ⊕ rest) = None.
Proof.
  intros Hp Hb Hne Hin Hrest Hdef. rewrite PropagateAnnotations_lookup, Hdef.
  destruct (entries source !! _) as [v|]; [|done].
  rewrite decide_False; [done|]. intros [Hdeny _]. simpl in Hdeny.
  unfold compileDenyMatcher in Hdeny. apply Bool.not_true_iff_false in Hdeny. apply Hdeny.
  apply existsb_exists. exists (prefix ⊕ "*"). split; [by apply list_elem_of_In|].
  unfold matchPattern. rewrite Match_plain_star by done.
  by rewrite HasPrefix_app, str_drop_app, Hrest.
Qed.

(** a tenant that turns propagation off keeps every source annotation out, whatever
    the global configuration allows. *)
Theorem tenant_can_opt_out (source : GoMap) (tenant config : AnnotationSettings)
  (resource : AnnotatedResource) :
  as_PropagateAllAnnotations tenant = Some false → as_PropagatedAnnotations tenant = None →
  PropagateAnnotations source (GetAnnotations tenant config) resource
  = defaultsFor (GetAnnotations tenant config) resource.
Proof.
  intros Hall Hlist. apply map_eq. intros k. rewrite PropagateAnnotations_lookup.
  destruct (entries source !! k) as [v|]; [|done].
  rewrite decide_False; [done|]. intros [_ Hp]. unfold GetAnnotations in Hp. simpl in Hp.
  rewrite decide_True in Hp by (left; congruence). rewrite Hall, Hlist in Hp. simpl in Hp. naive_solver.
Qed.

(** C39: two reconciliations in a row act as a three-way merge: the wanted keys have the
    wanted values, keys KubeLB set before and no longer wants are gone, and annotations
    other controllers put on the resource survive. *)
Theorem reconcile_annotations_three_way (existing d1 d2 : GoMap) (k : string) :
  Forall no_comma (managedKeys (entries d1)) →
  k ≠ ManagedAnnotationsKey → k ≠ "" →
  ReconcileAnnotations (Some (ReconcileAnnotations existing d1)) d2 !! k =
  match entries d2 !! k, entries d1 !! k with
  | Some v, _ => Some v
  | None, Some _ => None
  | None, None =>
      if decide (k ∈ Split (get existing ManagedAnnotationsKey) ",") then None else entries existing !! k
  end.
Proof.
  intros Hc Hk Hne. rewrite ReconcileAnnotations_lookup by done.
  destruct (entries d2 !! k) as [v2|] eqn:H2; [done|].
  pose proof (ReconcileAnnotations_managed existing d1 Hc k Hne) as Hm.
  rewrite elem_of_managedKeys in Hm.
  destruct (entries d1 !! k) as [v1|] eqn:H1.
  - rewrite decide_True; [done|]. split; [|done]. apply Hm. by split; [|exists v1].
  - rewrite decide_False.
    + simpl. rewrite ReconcileAnnotations_lookup, H1 by done.
      apply decide_ext. naive_solver.
    + intros [Hin _]. apply Hm in Hin as [_ [v Hv]]. congruence.
Qed.

Lemma reconcile_annotations_three_way_witness :
  let existing := Some {["cloud/lb" := "x"]} : GoMap in
  let d1 := Some {["aws/type" := "nlb"]} : GoMap in
  let d2 := Some ∅ : GoMap in
  ReconcileAnnotations (Some (ReconcileAnnotations existing d1)) d2 !! "aws/type" = None ∧
  ReconcileAnnotations (Some (ReconcileAnnotations existing d1)) d2 !! "cloud/lb" = Some "x".
Proof.
  split.
  - refine (eq_trans (reconcile_annotations_three_way (Some {["cloud/lb" := "x"]}) (Some {["aws/type" := "nlb"]})
      (Some ∅) "aws/type" _ _ _) _); [by vm_compute; repeat constructor|done|done|by vm_compute].
  - refine (eq_trans (reconcile_annotations_three_way (Some {["cloud/lb" := "x"]}) (Some {["aws/type" := "nlb"]})
      (Some ∅) "cloud/lb" _ _ _) _); [by vm_compute; repeat constructor|done|done|by vm_compute].
Defined.

(** reconciling again with the same wanted annotations changes nothing, so the
    generated Service is not rewritten on every pass. *)
Theorem reconcile_annotations_idempotent (existing desired : GoMap) :
  Forall no_comma (managedKeys (entries desired)) →
  ReconcileAnnotations (Some (ReconcileAnnotations existing desired)) desired
  = ReconcileAnnotations existing desired.
Proof.
  intros Hc. apply map_eq. intros k.
  destruct (decide (k = ManagedAnnotationsKey)) as [->|Hk]; [apply ReconcileAnnotations_record|].
  rewrite ReconcileAnnotations_lookup by done.
  destruct (entries desired !! k) as [v|] eqn:Hd.
  - rewrite ReconcileAnnotations_lookup by done. by rewrite Hd.
  - case_decide as Hin; [|done]. destruct Hin as [Hin Hne].
    apply ReconcileAnnotations_managed, elem_of_managedKeys in Hin as [_ [v Hv]]; [congruence|done..].
Qed.

Lemma reconcile_annotations_idempotent_witness :
  let d := Some {["a" := "1"; "b" := "2"]} : GoMap in
  ReconcileAnnotations (Some (ReconcileAnnotations None d)) d = ReconcileAnnotations None d.
Proof.
  apply (reconcile_annotations_idempotent None (Some {["a" := "1"; "b" := "2"]})).
  vm_compute. by repeat constructor.
Defined.

(** ** Witnesses and examples *)

Definition sampleSettings (denied : list string) (defaults : gmap AnnotatedResource StrMap) : AnnotationSettings :=
  {| as_PropagatedAnnotations := None; as_PropagateAllAnnotations := Some true;
     as_DeniedAnnotations := Some denied; as_DefaultAnnotations := Some defaults |}.

Lemma denied_prefix_not_propagated_witness :
  PropagateAnnotations (Some {["nginx.org/x" := "1"; "other" := "2"]}) (sampleSettings ["nginx.org/*"] ∅)
    AnnotatedResourceService !! ("nginx.org/" ⊕ "x") = None.
Proof.
  apply (denied_prefix_not_propagated _ (sampleSettings ["nginx.org/*"] ∅)); try reflexivity; [done|].
  apply list_elem_of_singleton. reflexivity.
Defined.

Lemma tenant_can_opt_out_witness :
  let tenant := {| as_PropagatedAnnotations := None; as_PropagateAllAnnotations := Some false;
                   as_DeniedAnnotations := None; as_DefaultAnnotations := None |} in
  PropagateAnnotations (Some {["a" := "1"]}) (GetAnnotations tenant (sampleSettings [] ∅)) AnnotatedResourceService
  = ∅.
Proof.
  exact (tenant_can_opt_out (Some {["a" := "1"]})
    {| as_PropagatedAnnotations := None; as_PropagateAllAnnotations := Some false;
       as_DeniedAnnotations := None; as_DefaultAnnotations := None |}
    (sampleSettings [] ∅) AnnotatedResourceService eq_refl eq_refl).
Defined.

(** A denied key that is also a default annotation is put on the resource after all. *)
Example default_annotation_bypasses_denial :
  PropagateAnnotations None
    (sampleSettings ["secret"] {[AnnotatedResourceAll := {["secret" := "v"]}]}) AnnotatedResourceService
    !! "secret" = Some "v".
Proof. vm_compute. reflexivity. Qed.

(** A lone star does not reach keys with a prefix part. *)
Example deny_star_misses_prefixed_keys :
  PropagateAnnotations (Some {["plain" := "1"; "vendor.io/x" := "2"]}) (sampleSettings ["*"] ∅)
    AnnotatedResourceService = {["vendor.io/x" := "2"]}.
Proof. vm_compute. reflexivity. Qed.
