(* ===== verification/LoadBalancers.v ===== *)
(** * Load balancers and hostnames

    [internal/kubelb/loadbalancer.go]: the mapping of a tenant's Service to a
    LoadBalancer, the check whether a stored LoadBalancer is up to date, the ports of
    the Service KubeLB creates, and the hostnames it generates. *)

From Stdlib Require Import Ascii.
From S2P Require Import Prelude GoStrings Api Names PortAllocator Annotations.

Local Open Scope go_scope.

(** ** [MapLoadBalancer] *)

Definition mappedPortName (port : CoreServicePort) : string :=
  if bool_decide (sp_Name port = "")
  then Itoa (sp_Port port) ⊕ "-" ⊕ ToLower (sp_Protocol port)
  else ToLower (sp_Name port).

(** Annotations of the Service without kubectl's record: the map of the Service itself
    is changed, and shared with the result. *)
Definition withoutLastApplied (a : GoMap) : GoMap := delete LastAppliedConfigAnnotation <$> a.

(** The load balancer, and the Service as the call leaves it. *)
Definition MapLoadBalancer (userService : Service) (clusterEndpoints : list EndpointAddress)
  (useAddressesReference : bool) (clusterName : string) : LoadBalancer * Service :=
  let ports := svc_Ports userService in
  let lbEndpoints :=
    {| lbe_Name := "";
       lbe_Addresses := if useAddressesReference then [] else clusterEndpoints;
       lbe_AddressesReference := if useAddressesReference then Some DefaultAddressName else None;
       lbe_Ports := (λ p, {| ep_Name := mappedPortName p; ep_Port := sp_NodePort p; ep_Protocol := sp_Protocol p |}) <$> ports |} in
  let meta := svc_Meta userService in
  let annotations := withoutLastApplied (om_Annotations meta) in
  ({| lb_Meta :=
        objectMeta (om_UID meta) clusterName ""
          (Some (<[LabelOriginNamespace := om_Namespace meta]>
                (<[LabelOriginName := om_Name meta]>
                (<[LabelTenantName := clusterName]> ∅))))
          annotations;
      lb_Spec :=
        {| lbs_Endpoints := [lbEndpoints];
           lbs_Ports := (λ p, {| lbp_Name := mappedPortName p; lbp_Protocol := sp_Protocol p; lbp_Port := sp_Port p |}) <$> ports;
           lbs_Hostname := "";
           lbs_Type := svc_Type userService;
           lbs_ExternalTrafficPolicy := svc_ExternalTrafficPolicy userService;
           lbs_Persistence :=
             if bool_decide (svc_SessionAffinity userService = ServiceAffinityClientIP)
             then Some {| pers_Type := LoadBalancerPersistenceTypeSourceIP |} else None |};
      lb_Status := emptyLoadBalancerStatus |},
   {| userService with svc_Meta := {| meta with om_Annotations := annotations |} |}).

(** ** [LoadBalancerIsDesiredState] *)

(** Compare two slices of equal length position by position. *)
Fixpoint all_match {A} (f : A -> A -> bool) (l1 l2 : list A) : bool :=
  match l1, l2 with
  | [], [] => true
  | x :: l1, y :: l2 => f x y && all_match f l1 l2
  | _, _ => false
  end.

Definition loadBalancerPortIsDesiredState (actual desired : LoadBalancerPort) : bool :=
  bool_decide (lbp_Protocol actual = lbp_Protocol desired) && bool_decide (lbp_Port actual = lbp_Port desired).

Definition endpointPortIsDesiredState (actual desired : EndpointPort) : bool :=
  bool_decide (ep_Port actual = ep_Port desired) && bool_decide (ep_Protocol actual = ep_Protocol desired).

Definition endpointAddressIsDesiredState (actual desired : EndpointAddress) : bool :=
  bool_decide (ea_Hostname actual = ea_Hostname desired) && bool_decide (ea_IP actual = ea_IP desired).

Definition endpointsAreDesiredState (actual desired : LoadBalancerEndpoints) : bool :=
  all_match endpointAddressIsDesiredState (lbe_Addresses desired) (lbe_Addresses actual) &&
  all_match endpointPortIsDesiredState (lbe_Ports desired) (lbe_Ports actual).

Definition LoadBalancerIsDesiredState (actual desired : LoadBalancer) : bool :=
  let a := lb_Spec actual in
  let d := lb_Spec desired in
  bool_decide (lbs_Type a = lbs_Type d) &&
  bool_decide (lbs_ExternalTrafficPolicy a = lbs_ExternalTrafficPolicy d) &&
  bool_decide (lbs_Persistence a = lbs_Persistence d) &&
  all_match loadBalancerPortIsDesiredState (lbs_Ports a) (lbs_Ports d) &&
  all_match endpointsAreDesiredState (lbs_Endpoints a) (lbs_Endpoints d) &&
  CompareAnnotations (om_Annotations (lb_Meta actual)) (om_Annotations (lb_Meta desired)).

(** ** Hostnames *)

(** [^[a-z0-9]([a-z0-9-]{0,61}[a-z0-9])?$] on the lower-cased label *)
Definition labelRegex (label : string) : bool :=
  match label with
  | "" => false
  | String a rest =>
      alnum_byte a && str_forall label_byte rest &&
      (bool_decide (rest = "") ||
       ((String.length rest <=? 62) && match str_last rest with Some z => alnum_byte z | None => false end))
  end.

Definition validLabel (label : string) : bool :=
  negb (bool_decide (label = "")) && (String.length label <=? 63) && labelRegex (ToLower label).

Definition isValidHostname (hostname : string) : bool :=
  negb (bool_decide (hostname = "")) && (String.length hostname <=? 253) &&
  negb (Contains hostname ".." || HasPrefix hostname "." || HasSuffix hostname ".") &&
  (2 <=? length (Split hostname ".")) && forallb validLabel (Split hostname ".").

(** The result of [rand.Read] on eight bytes is [random], [None] when it fails; [now] is
    the Unix time. *)
Definition GenerateHostname (tenant : DNSSettings) (config : ConfigDNSSettings)
  (random : option (list N)) (now : Z) : string :=
  let baseDomain :=
    match dns_WildcardDomain tenant with
    | Some d => if bool_decide (d = "") then cdns_WildcardDomain config else d
    | None => cdns_WildcardDomain config
    end in
  if bool_decide (baseDomain = "") then ""
  else
    match random with
    | None => "lb-" ⊕ Itoa now ⊕ "." ⊕ baseDomain
    | Some bytes =>
        let randomPrefix := ToLower (EncodeToString bytes) in
        let baseDomain := TrimPrefix (TrimPrefix (TrimPrefix baseDomain "*.") "**.") "*" in
        if negb (isValidHostname baseDomain) then ""
        else
          let hostname := randomPrefix ⊕ "." ⊕ baseDomain in
          if isValidHostname hostname then hostname
          else "lb-" ⊕ Itoa now ⊕ "." ⊕ baseDomain
    end.

Definition ShouldConfigureHostname (annotations : GoMap) (hostname : string) (tenant : DNSSettings)
  (config : ConfigDNSSettings) : bool :=
  if bool_decide (hostname = "") then
    match entries annotations !! AnnotationRequestWildcardDomain with
    | None => false
    | Some val =>
        if bool_decide (val = AnnotationValueTrue) then
          match dns_WildcardDomain tenant with
          | Some d => negb (bool_decide (d = ""))
          | None => negb (bool_decide (cdns_WildcardDomain config = ""))
          end
        else false
    end
  else
    match dns_AllowExplicitHostnames tenant with
    | Some allow => allow
    | None => cdns_AllowExplicitHostnames config
    end.

(** ** [CreateServicePorts] *)

Section create_service_ports.
Context {T : Type} `{!PortLookup T} (portAllocator : T).

Definition upstreamPort (eps : LoadBalancerEndpoints) (i : nat) (lbPort : LoadBalancerPort) : option Z :=
  match lbe_Ports eps !! i with
  | None => None
  | Some byIndex =>
      Some match List.find (λ p, bool_decide (ep_Name p = lbp_Name lbPort)) (lbe_Ports eps) with
           | Some byName => ep_Port byName
           | None => ep_Port byIndex
           end
  end.

Definition existingMatch (lbPort : LoadBalancerPort) (p : CoreServicePort) : bool :=
  bool_decide (sp_Name p = lbp_Name lbPort) ||
  (bool_decide (sp_Port p = lbp_Port lbPort) && bool_decide (sp_Protocol p = lbp_Protocol lbPort)).

(** One turn of the loop; [None] is the panic of an index out of range. *)
Definition desiredPort (lb : LoadBalancer) (eps : LoadBalancerEndpoints) (existing : list CoreServicePort)
  (i : nat) (lbPort : LoadBalancerPort) : option CoreServicePort :=
  match upstreamPort eps i lbPort with
  | None => None
  | Some upstream =>
      let endpointKey := EnvoyEndpoint (om_Namespace (lb_Meta lb)) (om_Name (lb_Meta lb)) 0 in
      let portKey := EnvoyListenerKey upstream (lbp_Protocol lbPort) in
      let '(value, exists_) := port_lookup portAllocator endpointKey portKey in
      let targetPort := if exists_ : bool then to_int32 value else upstream in
      Some {| sp_Name := lbp_Name lbPort;
              sp_Protocol := lbp_Protocol lbPort;
              sp_Port := lbp_Port lbPort;
              sp_TargetPort := FromInt targetPort;
              sp_NodePort := match List.find (existingMatch lbPort) existing with
                             | Some p => sp_NodePort p
                             | None => 0
                             end |}
  end.

Fixpoint desiredPorts (lb : LoadBalancer) (eps : LoadBalancerEndpoints) (existing : list CoreServicePort)
  (i : nat) (ports : list LoadBalancerPort) : option (list CoreServicePort) :=
  match ports with
  | [] => Some []
  | p :: ports =>
      match desiredPort lb eps existing i p with
      | None => None
      | Some d => cons d <$> desiredPorts lb eps existing (S i) ports
      end
  end.

Definition port_name_le (p q : CoreServicePort) : Prop := String.le (sp_Name p) (sp_Name q).

#[export] Instance port_name_le_dec : RelDecision port_name_le.
Proof. unfold port_name_le. intros p q. apply _. Defined.

Definition CreateServicePorts (lb : LoadBalancer) (existingService : Service) : option (list CoreServicePort) :=
  match lbs_Endpoints (lb_Spec lb) with
  | [] => Some []
  | eps :: _ =>
      merge_sort port_name_le <$> desiredPorts lb eps (svc_Ports existingService) 0 (lbs_Ports (lb_Spec lb))
  end.
End create_service_ports.

(** ** Lemmas: comparing slices *)

Lemma all_match_fmap {A B} (f : A -> A -> bool) (g : A -> B) l1 l2 :
  (∀ x y, f x y = true ↔ g x = g y) → (all_match f l1 l2 = true ↔ g <$> l1 = g <$> l2).
Proof.
  intros Hf. revert l2. induction l1 as [|x l1 IH]; intros [|y l2]; try done.
  rewrite !fmap_cons. cbn [all_match]. rewrite andb_true_iff, Hf, IH.
  split; [by intros [-> ->]|by intros [= -> ->]].
Qed.

(** What the desired-state check looks at, as projections. *)
Definition port_view (p : LoadBalancerPort) : string * Z := (lbp_Protocol p, lbp_Port p).
Definition endpoint_port_view (p : EndpointPort) : Z * string := (ep_Port p, ep_Protocol p).
Definition endpoints_view (e : LoadBalancerEndpoints) : list EndpointAddress * list (Z * string) :=
  (lbe_Addresses e, endpoint_port_view <$> lbe_Ports e).

Lemma endpointAddress_view a d : endpointAddressIsDesiredState a d = true ↔ a = d.
Proof.
  unfold endpointAddressIsDesiredState. rewrite andb_true_iff, !bool_decide_eq_true.
  destruct a, d; simpl. naive_solver.
Qed.

Lemma endpoints_view_spec a d : endpointsAreDesiredState a d = true ↔ endpoints_view a = endpoints_view d.
Proof.
  unfold endpointsAreDesiredState, endpoints_view. rewrite andb_true_iff.
  rewrite (all_match_fmap _ id) by apply endpointAddress_view.
  rewrite (all_match_fmap _ endpoint_port_view).
  - rewrite !list_fmap_id. split; [by intros [-> ->]|by intros [= -> ->]].
  - intros x y. unfold endpointPortIsDesiredState, endpoint_port_view.
    rewrite andb_true_iff, !bool_decide_eq_true. split; [by intros [-> ->]|by intros [= -> ->]].
Qed.

(** ** Lemmas: service ports *)

Section create_service_ports_lemmas.
Context {T : Type} `{!PortLookup T} (pa : T).

Lemma desiredPort_None lb eps existing i p :
  desiredPort pa lb eps existing i p = None ↔ length (lbe_Ports eps) ≤ i.
Proof.
  unfold desiredPort, upstreamPort. rewrite <-lookup_ge_None.
  destruct (lbe_Ports eps !! i); [|done]. destruct (port_lookup _ _ _). naive_solver.
Qed.

Lemma desiredPorts_None lb eps existing ports : ∀ i,
  i ≤ length (lbe_Ports eps) →
  desiredPorts pa lb eps existing i ports = None ↔ length (lbe_Ports eps) < i + length ports.
Proof.
  induction ports as [|p ports IH]; intros i Hi; simpl; [split; [done|lia]|].
  destruct (desiredPort pa lb eps existing i p) as [d|] eqn:Hd.
  - assert (i < length (lbe_Ports eps)) as Hlt.
    { apply Nat.nle_gt. intros H. apply desiredPort_None with (lb := lb) (existing := existing) (p := p) in H. congruence. }
    rewrite fmap_None, IH by lia. split; lia.
  - apply desiredPort_None in Hd. split; [lia|done].
Qed.

Lemma desiredPorts_length lb eps existing ports : ∀ i out,
  desiredPorts pa lb eps existing i ports = Some out → length out = length ports.
Proof.
  induction ports as [|p ports IH]; intros i out; simpl; [by intros [= <-]|].
  destruct (desiredPort pa lb eps existing i p) as [d|]; [|done].
  intros (out' & Ho & ->)%fmap_Some. simpl. by rewrite (IH _ _ Ho).
Qed.

Lemma desiredPorts_lookup lb eps existing ports : ∀ i out j d,
  desiredPorts pa lb eps existing i ports = Some out → out !! j = Some d →
  ∃ p, ports !! j = Some p ∧ desiredPort pa lb eps existing (i + j) p = Some d.
Proof.
  induction ports as [|p ports IH]; intros i out j d; simpl; [by intros [= <-]|].
  destruct (desiredPort pa lb eps existing i p) as [d0|] eqn:Hd; [|done].
  intros (out' & Ho & ->)%fmap_Some. destruct j as [|j]; simpl.
  - intros [= <-]. exists p. by rewrite Nat.add_0_r.
  - intros Hj. destruct (IH _ _ _ _ Ho Hj) as (q & ? & ?). exists q. by rewrite <-Nat.add_succ_comm.
Qed.
End create_service_ports_lemmas.

(** ** Lemmas: hostnames *)

Lemma str_forall_map f g h s : (∀ a, f a = true → g (h a) = true) → str_forall f s = true →
  str_forall g (str_map h s) = true.
Proof.
  intros H. induction s as [|a s IH]; simpl; [done|]. intros [Ha Hs]%andb_true_iff. by rewrite H, IH.
Qed.

Lemma str_map_length f s : String.length (str_map f s) = String.length s.
Proof. induction s; simpl; auto. Qed.

Lemma alnum_lower a : alnum_byte a = true → alnum_byte (lower_byte a) = true.
Proof. byte_cases a. Qed.

Lemma alnum_label a : alnum_byte a = true → label_byte a = true.
Proof. unfold label_byte, alnum_byte. by intros ->. Qed.

Lemma alnum_not_dot a : alnum_byte a = true → negb (Ascii.eqb a ".") = true.
Proof. byte_cases a. Qed.

Lemma labelRegex_alnum s : s ≠ "" → str_forall alnum_byte s = true → String.length s ≤ 63 → labelRegex s = true.
Proof.
  destruct s as [|a s]; [done|]. intros _ Hs Hl. simpl in Hs, Hl. apply andb_true_iff in Hs as [Ha Hs].
  unfold labelRegex. rewrite Ha, (str_forall_impl _ _ _ alnum_label Hs). simpl.
  case_bool_decide as He; [done|]. simpl.
  destruct (str_last_is_Some s He) as [z Hz]. rewrite Hz, (str_forall_last _ _ _ Hs Hz).
  rewrite andb_true_r. apply Nat.leb_le. lia.
Qed.

Lemma validLabel_alnum s : s ≠ "" → str_forall alnum_byte s = true → String.length s ≤ 63 → validLabel s = true.
Proof.
  intros Hne Hs Hl. unfold validLabel. rewrite bool_decide_eq_false_2 by done.
  rewrite (proj2 (Nat.leb_le _ _) Hl). simpl. apply labelRegex_alnum.
  - unfold ToLower. by destruct s.
  - by apply (str_forall_map alnum_byte _ _ _ alnum_lower).
  - unfold ToLower. by rewrite str_map_length.
Qed.

Lemma hex_alnum bs : Forall (λ b, b < 256)%N bs → str_forall alnum_byte (EncodeToString bs) = true.
Proof.
  induction 1 as [|b bs Hb _ IH]; [done|]. simpl. rewrite IH, !hex_digit_alnum; [done| |].
  - by apply N.mod_lt.
  - by apply N.Div0.div_lt_upper_bound.
Qed.

Lemma dot_app t : "." ⊕ t = String "." t.
Proof. done. Qed.

Lemma HasPrefix_head_ne a s c t : negb (Ascii.eqb a c) = true → HasPrefix (String a s) (String c t) = false.
Proof.
  intros Ha%negb_true_iff. apply not_true_iff_false. intros [u Hu]%HasPrefix_inv.
  rewrite str_app_cons in Hu. injection Hu as -> _. by rewrite Ascii.eqb_refl in Ha.
Qed.

Lemma Contains_dots_app p b : no_byte "." p →
  Contains (p ⊕ "." ⊕ b) ".." = HasPrefix b "." || Contains b "..".
Proof.
  rewrite dot_app. unfold no_byte. induction p as [|a p IH].
  { intros _. rewrite str_app_nil_l. cbn [Contains]. by unfold HasPrefix; f_equal. }
  cbn [str_forall]. intros [Ha Hp]%andb_true_iff. rewrite str_app_cons. cbn [Contains].
  rewrite (IH Hp). pose proof (HasPrefix_head_ne a (p ⊕ String "." b) "." "." Ha) as Hn.
  unfold HasPrefix in Hn at 1. by rewrite Hn.
Qed.

Lemma HasSuffix_dot s : HasSuffix s "." = true ↔ str_last s = Some "."%char.
Proof.
  split.
  - intros [t ->]%HasSuffix_inv. by rewrite str_last_app.
  - intros [t ->]%str_last_snoc. apply HasSuffix_app.
Qed.

(** A valid label in front of a valid hostname is a valid hostname, if it fits. *)
Lemma isValidHostname_cons p b :
  validLabel p = true → no_byte "." p → isValidHostname b = true →
  String.length p + 1 + String.length b ≤ 253 → isValidHostname (p ⊕ "." ⊕ b) = true.
Proof.
  intros Hp Hd Hb Hl. unfold isValidHostname in Hb |- *.
  apply andb_true_iff in Hb as [[[[H1 H2]%andb_true_iff H3]%andb_true_iff H4]%andb_true_iff H5].
  apply negb_true_iff, orb_false_iff in H3 as [[H31 H32]%orb_false_iff H33].
  apply negb_true_iff, bool_decide_eq_false in H1.
  assert (p ≠ "") as Hpne by (intros ->; by vm_compute in Hp).
  rewrite bool_decide_eq_false_2 by (rewrite dot_app; by destruct p).
  rewrite !str_length_app. simpl String.length at 2.
  rewrite (proj2 (Nat.leb_le _ _)) by (simpl; lia).
  rewrite Contains_dots_app, H32, H31 by done.
  assert (HasPrefix (p ⊕ "." ⊕ b) "." = false) as ->.
  { destruct p as [|a p]; [done|]. unfold no_byte in Hd. cbn [str_forall] in Hd.
    apply andb_true_iff in Hd as [Ha _]. rewrite str_app_cons. by apply HasPrefix_head_ne. }
  assert (HasSuffix (p ⊕ "." ⊕ b) "." = false) as ->.
  { apply not_true_iff_false. rewrite HasSuffix_dot.
    rewrite (str_last_app p) by (rewrite dot_app; done). rewrite str_last_app by done.
    rewrite <-HasSuffix_dot. by rewrite H33. }
  rewrite dot_app, Split_app by done. cbn [length forallb]. rewrite Hp, H5.
  destruct (Split b "."); [done|]. done.
Qed.

(** ** Properties *)

(** the stored LoadBalancer counts as up to date exactly when it has the wanted
    type, traffic policy, persistence, the same (protocol, port) list, the same addresses
    and endpoint ports, and the same annotations up to kubectl's record. *)
Theorem load_balancer_desired_state_spec (actual desired : LoadBalancer) :
  LoadBalancerIsDesiredState actual desired = true ↔
  lbs_Type (lb_Spec actual) = lbs_Type (lb_Spec desired) ∧
  lbs_ExternalTrafficPolicy (lb_Spec actual) = lbs_ExternalTrafficPolicy (lb_Spec desired) ∧
  lbs_Persistence (lb_Spec actual) = lbs_Persistence (lb_Spec desired) ∧
  port_view <$> lbs_Ports (lb_Spec actual) = port_view <$> lbs_Ports (lb_Spec desired) ∧
  endpoints_view <$> lbs_Endpoints (lb_Spec actual) = endpoints_view <$> lbs_Endpoints (lb_Spec desired) ∧
  same_annotations (om_Annotations (lb_Meta actual)) (om_Annotations (lb_Meta desired)).
Proof.
  unfold LoadBalancerIsDesiredState, same_annotations. rewrite !andb_true_iff, !bool_decide_eq_true.
  rewrite (all_match_fmap _ port_view), (all_match_fmap _ endpoints_view) by
    (apply endpoints_view_spec ||
     (intros x y; unfold loadBalancerPortIsDesiredState, port_view;
      rewrite andb_true_iff, !bool_decide_eq_true; split; [by intros [-> ->]|by intros [= -> ->]])).
  tauto.
Qed.

(** C40: [CreateServicePorts] panics exactly when the first endpoint has fewer ports than
    the load balancer; otherwise it returns one port per load balancer port, sorted by
    name. *)
Theorem create_service_ports_total (pa : PortAllocator) (lb : LoadBalancer) (svc : Service)
  (eps : LoadBalancerEndpoints) (rest : list LoadBalancerEndpoints) :
  lbs_Endpoints (lb_Spec lb) = eps :: rest →
  (CreateServicePorts pa lb svc = None ↔ length (lbe_Ports eps) < length (lbs_Ports (lb_Spec lb))) ∧
  (∀ out, CreateServicePorts pa lb svc = Some out →
     length out = length (lbs_Ports (lb_Spec lb)) ∧ Sorted port_name_le out).
Proof.
  intros He. unfold CreateServicePorts. rewrite He. split.
  - rewrite fmap_None, desiredPorts_None by lia. done.
  - intros out (l & Hl & ->)%fmap_Some. split.
    + rewrite merge_sort_Permutation. by eapply desiredPorts_length.
    + apply Sorted_merge_sort. intros p q. unfold port_name_le. apply (total String.le).
Qed.

(** every Service port KubeLB creates targets the port the allocator assigned to the
    upstream it stands for, keeps name, port and protocol of its load balancer port, and
    reuses the node port the existing Service had for it. *)
Theorem create_service_ports_targets {T : Type} `{!PortLookup T} (pa : T) (lb : LoadBalancer) (svc : Service)
  (eps : LoadBalancerEndpoints) (rest : list LoadBalancerEndpoints) (out : list CoreServicePort)
  (d : CoreServicePort) :
  ConsistentLookup pa →
  lbs_Endpoints (lb_Spec lb) = eps :: rest → CreateServicePorts pa lb svc = Some out → d ∈ out →
  ∃ i p up, lbs_Ports (lb_Spec lb) !! i = Some p ∧ upstreamPort eps i p = Some up ∧
    sp_Name d = lbp_Name p ∧ sp_Port d = lbp_Port p ∧ sp_Protocol d = lbp_Protocol p ∧
    sp_TargetPort d =
      FromInt (match port_lookup pa (lbEndpointKey lb 0) (EnvoyListenerKey up (lbp_Protocol p)) with
               | (allocated, true) => allocated
               | (_, false) => up
               end) ∧
    (∀ q, List.find (existingMatch p) (svc_Ports svc) = Some q → sp_NodePort d = sp_NodePort q).
Proof.
  intros Hr He Hc Hin. unfold CreateServicePorts in Hc. rewrite He in Hc.
  apply fmap_Some in Hc as (l & Hl & ->). rewrite merge_sort_Permutation in Hin.
  apply list_elem_of_lookup in Hin as [j Hj].
  destruct (desiredPorts_lookup _ _ _ _ _ _ _ _ _ Hl Hj) as (p & Hp & Hd).
  unfold desiredPort in Hd. destruct (upstreamPort eps (0 + j) p) as [up|] eqn:Hu; [|done].
  exists j, p, up. unfold lbEndpointKey. simpl in Hu, Hd |- *.
  destruct (port_lookup _ _ _) as [q [|]] eqn:Hq; injection Hd as <-; simpl; split_and!; try done.
  - rewrite to_int32_small; [done|]. apply lookup_in_range in Hq. port_lia.
  - by intros q' ->.
  - by intros q' ->.
Qed.

(** a generated hostname is empty (no usable wildcard domain) or valid, when the
    random source works and the domain leaves room for the prefix. *)
Theorem generated_hostname_valid (tenant : DNSSettings) (config : ConfigDNSSettings) (bytes : list N) (now : Z) :
  length bytes = 8 → Forall (λ b, b < 256)%N bytes →
  (∀ d, dns_WildcardDomain tenant = Some d → String.length d ≤ 236) →
  String.length (cdns_WildcardDomain config) ≤ 236 →
  GenerateHostname tenant config (Some bytes) now = "" ∨
  isValidHostname (GenerateHostname tenant config (Some bytes) now) = true.
Proof.
  intros Hlen Hb Ht Hc. unfold GenerateHostname.
  set (base := match dns_WildcardDomain tenant with Some d => _ | None => _ end).
  assert (String.length base ≤ 236) as Hbase.
  { unfold base. destruct (dns_WildcardDomain tenant) as [d|]; [case_bool_decide|]; auto. }
  clearbody base. case_bool_decide; [by left|].
  set (b := TrimPrefix _ "*"). assert (String.length b ≤ 236) as Hbl.
  { unfold b. unfold TrimPrefix. repeat case_match; str_lia. }
  destruct (isValidHostname b) eqn:Hv; [|by left]. right. cbn [negb].
  set (p := ToLower (EncodeToString bytes)).
  assert (isValidHostname (p ⊕ "." ⊕ b) = true) as Hok; [|by rewrite Hok].
  assert (String.length p = 16) as Hpl.
  { unfold p, ToLower. rewrite str_map_length, EncodeToString_length, Hlen. done. }
  assert (str_forall alnum_byte p = true) as Hpa.
  { apply (str_forall_map alnum_byte _ _ _ alnum_lower). by apply hex_alnum. }
  apply isValidHostname_cons; [|by eapply str_forall_impl, Hpa; apply alnum_not_dot|done|lia].
  apply validLabel_alnum; [by intros Hp; rewrite Hp in Hpl|done|lia].
Qed.

(** ** Witnesses *)

Definition sampleService (annotations : GoMap) : Service :=
  service (objectMeta "web" "apps" "uid-1" None annotations) [samplePort "HTTP" 80 8080] "LoadBalancer" "" "".

Lemma create_service_ports_total_witness :
  (CreateServicePorts NewPortAllocator sampleLB (sampleService None) = None ↔ 1 < 1) ∧
  (∀ out, CreateServicePorts NewPortAllocator sampleLB (sampleService None) = Some out →
     length out = 1 ∧ Sorted port_name_le out).
Proof.
  apply (create_service_ports_total NewPortAllocator sampleLB (sampleService None)
    (List.hd {| lbe_Name := ""; lbe_Addresses := []; lbe_AddressesReference := None; lbe_Ports := [] |}
       (lbs_Endpoints (lb_Spec sampleLB))) []).
  reflexivity.
Defined.

Lemma create_service_ports_targets_witness :
  ∃ d, CreateServicePorts sampleAllocator sampleLB (sampleService None) = Some [d] ∧ sp_TargetPort d = FromInt 10042 ∧
    ∃ i p, lbs_Ports (lb_Spec sampleLB) !! i = Some p ∧ sp_Port d = lbp_Port p.
Proof.
  eexists. split; [vm_compute; reflexivity|]. split; [reflexivity|].
  edestruct (create_service_ports_targets sampleAllocator sampleLB (sampleService None))
    as (i & p & up & Hp & _ & _ & Hport & _).
  - apply sampleAllocator_consistent.
  - reflexivity.
  - vm_compute. reflexivity.
  - left.
  - exists i, p. split; [exact Hp|exact Hport].
Defined.

Lemma generated_hostname_valid_witness :
  GenerateHostname {| dns_WildcardDomain := Some "*.apps.example.com"; dns_AllowExplicitHostnames := None;
                      dns_UseDNSAnnotations := None; dns_UseCertificateAnnotations := None |}
    {| cdns_WildcardDomain := "example.com"; cdns_AllowExplicitHostnames := false;
       cdns_UseDNSAnnotations := false; cdns_UseCertificateAnnotations := false |}
    (Some [1; 2; 3; 4; 5; 6; 7; 255]%N) 0 = "01020304050607ff.apps.example.com".
Proof.
  edestruct (generated_hostname_valid
    {| dns_WildcardDomain := Some "*.apps.example.com"; dns_AllowExplicitHostnames := None;
       dns_UseDNSAnnotations := None; dns_UseCertificateAnnotations := None |}
    {| cdns_WildcardDomain := "example.com"; cdns_AllowExplicitHostnames := false;
       cdns_UseDNSAnnotations := false; cdns_UseCertificateAnnotations := false |}
    [1; 2; 3; 4; 5; 6; 7; 255]%N 0) as [H|H].
  - reflexivity.
  - repeat constructor.
  - intros d [= <-]. simpl. lia.
  - simpl. lia.
  - by vm_compute in H.
  - vm_compute. reflexivity.
Defined.

(** ** What the model shows *)

(** A Service whose only annotation is kubectl's record maps to a LoadBalancer with an
    empty, non-nil annotation map. The API server stores no annotations for it, and a nil
    map never equals the empty one, so the LoadBalancer never counts as up to date. *)
Example last_applied_only_never_up_to_date (addresses : list EndpointAddress) (cluster : string) :
  let '(desired, _) :=
    MapLoadBalancer (sampleService (Some {[ LastAppliedConfigAnnotation := "{}" ]})) addresses true cluster in
  let stored := {| desired with lb_Meta := {| (lb_Meta desired) with om_UID := "x"; om_Annotations := None |} |} in
  om_Annotations (lb_Meta desired) = Some ∅ ∧ LoadBalancerIsDesiredState stored desired = false.
Proof. by vm_compute. Qed.

(** When the random source fails, the fallback keeps the asterisk of the wildcard domain
    and is not a valid hostname. *)
Example random_failure_keeps_asterisk :
  let h := GenerateHostname {| dns_WildcardDomain := Some "*.apps.example.com"; dns_AllowExplicitHostnames := None;
                               dns_UseDNSAnnotations := None; dns_UseCertificateAnnotations := None |}
    {| cdns_WildcardDomain := ""; cdns_AllowExplicitHostnames := false;
       cdns_UseDNSAnnotations := false; cdns_UseCertificateAnnotations := false |} None 1700000000 in
  h = "lb-1700000000.*.apps.example.com" ∧ isValidHostname h = false.
Proof. by vm_compute. Qed.
