(* ===== verification/GatewayApi.v ===== *)
(** * Gateway API, Ingress and Envoy Gateway resources

    The fields of the Gateway API types ([sigs.k8s.io/gateway-api/apis/v1]), of
    [networkingv1.Ingress] and of the Envoy Gateway policies that the conversion in
    [pkg/conversion] reads or writes.  A Go pointer is an [option]; a nil slice is the
    empty list. *)

From S2P Require Import Prelude Api.

(** ** Route filters *)

Inductive HTTPRouteFilterType :=
| HTTPRouteFilterRequestHeaderModifier
| HTTPRouteFilterResponseHeaderModifier
| HTTPRouteFilterRequestRedirect
| HTTPRouteFilterURLRewrite
| HTTPRouteFilterRequestMirror.

#[export] Instance filter_type_eq_dec : EqDecision HTTPRouteFilterType.
Proof. solve_decision. Defined.
#[export] Instance filter_type_countable : Countable HTTPRouteFilterType.
Proof.
  refine (inj_countable'
    (λ t, match t with
          | HTTPRouteFilterRequestHeaderModifier => 0 | HTTPRouteFilterResponseHeaderModifier => 1
          | HTTPRouteFilterRequestRedirect => 2 | HTTPRouteFilterURLRewrite => 3
          | HTTPRouteFilterRequestMirror => 4
          end)
    (λ n, match n with
          | 0 => HTTPRouteFilterRequestHeaderModifier | 1 => HTTPRouteFilterResponseHeaderModifier
          | 2 => HTTPRouteFilterRequestRedirect | 3 => HTTPRouteFilterURLRewrite
          | _ => HTTPRouteFilterRequestMirror
          end) _).
  by intros [].
Defined.

(** [gwapiv1.HTTPPathModifier] *)
Inductive HTTPPathModifier :=
| ReplaceFullPath (path : string)
| ReplacePrefixMatch (prefix : string).

Record HTTPRequestRedirectFilter := {
  rr_Scheme : option string;
  rr_Hostname : option string;
  rr_Path : option HTTPPathModifier;
  rr_Port : option Z;
  rr_StatusCode : option Z;
}.

Record HTTPURLRewriteFilter := {
  ur_Path : option HTTPPathModifier;
}.

Record HTTPHeader := {
  hd_Name : string;
  hd_Value : string;
}.

Record HTTPHeaderFilter := {
  hf_Set : list HTTPHeader;
  hf_Add : list HTTPHeader;
}.

(** [gwapiv1.BackendObjectReference] *)
Record BackendObjectReference := {
  bor_Kind : option string;
  bor_Name : string;
  bor_Namespace : option string;
  bor_Port : option Z;
}.

(** [gwapiv1.HTTPRouteFilter] and [gwapiv1.GRPCRouteFilter]; [f_RequestMirror] is the
    backend of the mirror. *)
Record HTTPRouteFilter := {
  f_Type : HTTPRouteFilterType;
  f_RequestHeaderModifier : option HTTPHeaderFilter;
  f_ResponseHeaderModifier : option HTTPHeaderFilter;
  f_RequestRedirect : option HTTPRequestRedirectFilter;
  f_URLRewrite : option HTTPURLRewriteFilter;
  f_RequestMirror : option BackendObjectReference;
}.

#[export] Instance path_modifier_eq_dec : EqDecision HTTPPathModifier.
Proof. solve_decision. Defined.
#[export] Instance request_redirect_eq_dec : EqDecision HTTPRequestRedirectFilter.
Proof. solve_decision. Defined.
#[export] Instance url_rewrite_eq_dec : EqDecision HTTPURLRewriteFilter.
Proof. solve_decision. Defined.
#[export] Instance http_header_eq_dec : EqDecision HTTPHeader.
Proof. solve_decision. Defined.
#[export] Instance header_filter_eq_dec : EqDecision HTTPHeaderFilter.
Proof. solve_decision. Defined.
#[export] Instance backend_object_reference_eq_dec : EqDecision BackendObjectReference.
Proof. solve_decision. Defined.
#[export] Instance route_filter_eq_dec : EqDecision HTTPRouteFilter.
Proof. solve_decision. Defined.

(** What the Gateway API's validation asks of a filter: exactly the member its type
    names, a redirect code of 301 or 302, ports in range, header names present. *)
Definition valid_header (h : HTTPHeader) : Prop := hd_Name h ≠ "".

Definition valid_redirect (r : HTTPRequestRedirectFilter) : Prop :=
  (rr_StatusCode r = Some 301 ∨ rr_StatusCode r = Some 302)%Z ∧
  (∀ p, rr_Port r = Some p → 1 ≤ p ≤ 65535)%Z.

Definition valid_filter (f : HTTPRouteFilter) : Prop :=
  match f with
  | Build_HTTPRouteFilter HTTPRouteFilterRequestHeaderModifier (Some h) None None None None
  | Build_HTTPRouteFilter HTTPRouteFilterResponseHeaderModifier None (Some h) None None None =>
      hf_Set h ++ hf_Add h ≠ [] ∧ Forall valid_header (hf_Set h ++ hf_Add h)
  | Build_HTTPRouteFilter HTTPRouteFilterRequestRedirect None None (Some r) None None => valid_redirect r
  | Build_HTTPRouteFilter HTTPRouteFilterURLRewrite None None None (Some u) None => is_Some (ur_Path u)
  | Build_HTTPRouteFilter HTTPRouteFilterRequestMirror None None None None (Some _) => True
  | _ => False
  end.

(** ** Routes *)

Inductive PathMatchType := PathMatchExact | PathMatchPathPrefix | PathMatchRegularExpression.

Record HTTPPathMatch := {
  pm_Type : option PathMatchType;
  pm_Value : option string;
}.

Record HTTPRouteMatch := {
  rm_Path : option HTTPPathMatch;
}.

(** [gwapiv1.HTTPBackendRef] and [gwapiv1.GRPCBackendRef] *)
Record BackendRef := {
  br_Ref : BackendObjectReference;
  br_Filters : list HTTPRouteFilter;
}.
(** The reference to a Service by name and port, in the route's namespace *)
Definition serviceRef (name : string) (port : option Z) : BackendRef :=
  {| br_Ref := {| bor_Kind := None; bor_Name := name; bor_Namespace := None; bor_Port := port |}; br_Filters := [] |}.

Record HTTPRouteRule := {
  hrr_Matches : list HTTPRouteMatch;
  hrr_Filters : list HTTPRouteFilter;
  hrr_BackendRefs : list BackendRef;
}.

Record GRPCRouteRule := {
  grr_Filters : list HTTPRouteFilter;
  grr_BackendRefs : list BackendRef;
}.

Record ParentReference := {
  pr_Name : string;
  pr_Namespace : option string;
}.

(** [gwapiv1.RouteParentStatus]: the name of the parent and its conditions *)
Record RouteParentStatus := { rps_Name : string; rps_Conditions : list Condition }.

(** [gwapiv1.HTTPRoute] and [gwapiv1.GRPCRoute], which differ in their rules. *)
Record GatewayRoute (Rule : Type) := {
  gr_Meta : ObjectMeta;
  gr_ParentRefs : list ParentReference;
  gr_Hostnames : list string;
  gr_Rules : list Rule;
  gr_Status : list RouteParentStatus;
}.
Arguments gr_Meta {Rule} _.
Arguments gr_ParentRefs {Rule} _.
Arguments gr_Hostnames {Rule} _.
Arguments gr_Rules {Rule} _.
Arguments gr_Status {Rule} _.

Abbreviation HTTPRoute := (GatewayRoute HTTPRouteRule).
Abbreviation GRPCRoute := (GatewayRoute GRPCRouteRule).

#[export] Instance path_match_type_eq_dec : EqDecision PathMatchType.
Proof. solve_decision. Defined.
#[export] Instance path_match_eq_dec : EqDecision HTTPPathMatch.
Proof. solve_decision. Defined.
#[export] Instance route_match_eq_dec : EqDecision HTTPRouteMatch.
Proof. solve_decision. Defined.
#[export] Instance backend_ref_eq_dec : EqDecision BackendRef.
Proof. solve_decision. Defined.
#[export] Instance http_route_rule_eq_dec : EqDecision HTTPRouteRule.
Proof. solve_decision. Defined.
#[export] Instance parent_reference_eq_dec : EqDecision ParentReference.
Proof. solve_decision. Defined.
#[export] Instance route_parent_status_eq_dec : EqDecision RouteParentStatus.
Proof. solve_decision. Defined.
#[export] Instance grpc_route_rule_eq_dec : EqDecision GRPCRouteRule.
Proof. solve_decision. Defined.

(** ** Gateways *)

Inductive ProtocolType := HTTPProtocolType | HTTPSProtocolType.

Definition NamespacesFromAll : string := "All".
Definition TLSModeTerminate : string := "Terminate".

(** [gwapiv1.SecretObjectReference] *)
Record SecretObjectReference := { sor_Name : string; sor_Namespace : option string }.

Record ListenerTLSConfig := {
  ltc_Mode : option string;
  ltc_CertificateRefs : list SecretObjectReference;
}.

(** [ls_AllowedRoutes]: [AllowedRoutes], its [Namespaces] and their [From], each a pointer *)
Record Listener := {
  ls_Name : string;
  ls_Hostname : option string;
  ls_Port : Z;
  ls_Protocol : ProtocolType;
  ls_AllowedRoutes : option (option (option string));
  ls_TLS : option ListenerTLSConfig;
}.

Record Gateway := {
  gw_Meta : ObjectMeta;
  gw_GatewayClassName : string;
  gw_Listeners : list Listener;
  gw_Conditions : list Condition;
}.

#[export] Instance protocol_type_eq_dec : EqDecision ProtocolType.
Proof. solve_decision. Defined.
#[export] Instance secret_object_reference_eq_dec : EqDecision SecretObjectReference.
Proof. solve_decision. Defined.
#[export] Instance listener_tls_eq_dec : EqDecision ListenerTLSConfig.
Proof. solve_decision. Defined.
#[export] Instance listener_eq_dec : EqDecision Listener.
Proof. solve_decision. Defined.

(** ** Ingress *)

Inductive PathType := PathTypeExact | PathTypePrefix | PathTypeImplementationSpecific | PathTypeOther (s : string).

(** [networkingv1.IngressServiceBackend]: name, port number, port name *)
Record IngressServiceBackend := {
  isb_Name : string;
  isb_PortNumber : Z;
  isb_PortName : string;
}.

(** [networkingv1.IngressBackend]; a resource is only ever named in a warning. *)
Record IngressBackend := {
  ib_Service : option IngressServiceBackend;
  ib_Resource : option string;
}.

Record HTTPIngressPath := {
  ip_Path : string;
  ip_PathType : option PathType;
  ip_Backend : IngressBackend;
}.

(** A rule: its host and, unless [rule.HTTP] is nil, its paths. *)
Record IngressRule := {
  ir_Host : string;
  ir_HTTP : option (list HTTPIngressPath);
}.

Record IngressTLS := {
  it_Hosts : list string;
  it_SecretName : string;
}.

(** [ing_Ingress] is [Status.LoadBalancer.Ingress]. *)
Record Ingress := {
  ing_Meta : ObjectMeta;
  ing_ClassName : option string;
  ing_DefaultBackend : option IngressBackend;
  ing_Rules : list IngressRule;
  ing_TLS : list IngressTLS;
  ing_Ingress : list LoadBalancerIngress;
}.

#[export] Instance path_type_eq_dec : EqDecision PathType.
Proof. solve_decision. Defined.
#[export] Instance ingress_service_backend_eq_dec : EqDecision IngressServiceBackend.
Proof. solve_decision. Defined.
#[export] Instance ingress_backend_eq_dec : EqDecision IngressBackend.
Proof. solve_decision. Defined.
#[export] Instance http_ingress_path_eq_dec : EqDecision HTTPIngressPath.
Proof. solve_decision. Defined.
#[export] Instance ingress_rule_eq_dec : EqDecision IngressRule.
Proof. solve_decision. Defined.
#[export] Instance ingress_tls_eq_dec : EqDecision IngressTLS.
Proof. solve_decision. Defined.

(** ** Envoy Gateway policies *)

Inductive AuthorizationAction := AuthorizationActionAllow | AuthorizationActionDeny.

Record CORS := {
  cors_AllowOrigins : list string;
  cors_AllowMethods : list string;
  cors_AllowHeaders : list string;
  cors_ExposeHeaders : list string;
  cors_MaxAge : option string;
  cors_AllowCredentials : option bool;
}.

Record AuthorizationRule := {
  ar_Name : option string;
  ar_Action : AuthorizationAction;
  ar_ClientCIDRs : list string;
}.

Record Authorization := {
  az_Rules : list AuthorizationRule;
  az_DefaultAction : option AuthorizationAction;
}.

(** [egv1alpha1.BasicAuth]: the reference to the Secret with the users *)
Record BasicAuth := {
  ba_Name : string;
  ba_Namespace : option string;
}.

Inductive RateLimitUnit := RateLimitUnitSecond | RateLimitUnitMinute.

(** [egv1alpha1.RateLimitSpec]: the local rules *)
Record RateLimitSpec := {
  rl_Rules : list (Z * RateLimitUnit);
}.

(** [egv1alpha1.Timeout]: [TCP.ConnectTimeout] and [HTTP.RequestTimeout] *)
Record Timeout := {
  to_TCP : option (option string);
  to_HTTP : option (option string);
}.

(** [egv1alpha1.CircuitBreaker] *)
Record CircuitBreaker := {
  cb_MaxConnections : option Z;
}.

(** The reference of a policy to the route it applies to: group, kind and name *)
Record PolicyTargetReference := {
  ptr_Group : string;
  ptr_Kind : string;
  ptr_Name : string;
}.

Record SecurityPolicy := {
  secp_Meta : ObjectMeta;
  secp_TargetRef : PolicyTargetReference;
  secp_CORS : option CORS;
  secp_Authorization : option Authorization;
  secp_BasicAuth : option BasicAuth;
}.

Record BackendTrafficPolicy := {
  btp_Meta : ObjectMeta;
  btp_TargetRef : PolicyTargetReference;
  btp_Timeout : option Timeout;
  btp_CircuitBreaker : option CircuitBreaker;
  btp_RateLimit : option RateLimitSpec;
}.

(** Of [egv1alpha1.ClientTrafficPolicy] only the target is read. *)
Record ClientTrafficPolicy := { ctp_Meta : ObjectMeta; ctp_TargetRef : option PolicyTargetReference }.
