(* ===== verification/Kube.v ===== *)
(** * Controllers as programs over the Kubernetes API

    The reconcile loops of [internal/] read and write objects of one or two clusters
    through controller-runtime's client. Here is what they use of it:

    - errors that are wrapped and inspected ([fmt.Errorf] with [%w], [IsNotFound] and the
      like);
    - a state monad [M S] whose computations return, fail with an error, panic, or never
      return;
    - a cluster as a map from kind, namespace and name to an object, with the documented
      behaviour of [Get], [List], [Create], [Update], [Status().Update], [Patch] and
      [Delete]: the status is a subresource, a deleted object with finalizers is only
      marked, an update that removes the last finalizer of a marked object removes it;
    - faults: any call may fail with any error before it does anything. The list
      [cl_faults] has the outcome of the next calls, [None] for a call that goes through;
      when it is empty, all calls go through.

    A reconcile runs without interference; what other writers do between the calls of one
    reconcile appears as the conflicts and other errors of the fault list. Generations,
    resource versions, server-side defaulting and garbage collection are not modelled.

    The second half is a small logic of these programs: [within R m] says that every run
    of [m], whatever its outcome, moves the state along the preorder [R]. *)

From S2P Require Import Prelude GoStrings Api GatewayApi.
Local Open Scope go_scope.

(** ** Errors *)

Inductive Reason :=
| NotFound
| AlreadyExists
| Conflict
| OtherReason (r : string).

#[export] Instance Reason_eq_dec : EqDecision Reason.
Proof. solve_decision. Defined.

(** [Wrap] is [fmt.Errorf("prefix: %w", err)]. *)
Inductive Error :=
| StatusError (r : Reason) (msg : string)
| Errorf (msg : string)
| Wrap (prefix : string) (e : Error).

(** [ReasonForError]: the reason of the API status somewhere below the wrapping *)
Fixpoint ReasonForError (e : Error) : option Reason :=
  match e with
  | StatusError r _ => Some r
  | Errorf _ => None
  | Wrap _ e => ReasonForError e
  end.

Definition IsNotFound (e : Error) : bool := bool_decide (ReasonForError e = Some NotFound).
Definition IsAlreadyExists (e : Error) : bool := bool_decide (ReasonForError e = Some AlreadyExists).
Definition IsConflict (e : Error) : bool := bool_decide (ReasonForError e = Some Conflict).

Fixpoint ErrorString (e : Error) : string :=
  match e with
  | StatusError _ msg => msg
  | Errorf msg => msg
  | Wrap prefix e => prefix ⊕ ": " ⊕ ErrorString e
  end.

(** ** Programs *)

(** A run returns a value, fails with an error, panics, or does not return ([Diverge]). *)
Inductive outcome (A : Type) :=
| Ret (a : A)
| Fail (e : Error)
| Panic
| Diverge.
Arguments Ret {A} _.
Arguments Fail {A} _.
Arguments Panic {A}.
Arguments Diverge {A}.

Definition M (S A : Type) : Type := S -> outcome A * S.

#[export] Instance M_ret S : MRet (M S) := λ A a s, (Ret a, s).
#[export] Instance M_bind S : MBind (M S) := λ A B k m s,
  match m s with
  | (Ret a, s) => k a s
  | (Fail e, s) => (Fail e, s)
  | (Panic, s) => (Panic, s)
  | (Diverge, s) => (Diverge, s)
  end.
#[export] Instance M_fmap S : FMap (M S) := λ A B f m, m ≫= λ a, mret (f a).

Section programs.
Context {S : Type}.

Definition raise {A} (e : Error) : M S A := λ s, (Fail e, s).
Definition panic {A} : M S A := λ s, (Panic, s).
Definition diverge {A} : M S A := λ s, (Diverge, s).
Definition gets {A} (f : S -> A) : M S A := λ s, (Ret (f s), s).
Definition modify (f : S -> S) : M S unit := λ s, (Ret tt, f s).

(** [x, err := m]: the error becomes a value; a panic is not caught. *)
Definition try {A} (m : M S A) : M S (A + Error) := λ s,
  match m s with
  | (Ret a, s) => (Ret (inl a), s)
  | (Fail e, s) => (Ret (inr e), s)
  | (Panic, s) => (Panic, s)
  | (Diverge, s) => (Diverge, s)
  end.

(** [if err != nil { return fmt.Errorf("prefix: %w", err) }] *)
Definition wrap {A} (prefix : string) (m : M S A) : M S A :=
  try m ≫= λ r, match r with inl a => mret a | inr e => raise (Wrap prefix e) end.

Definition when (b : bool) (m : M S unit) : M S unit := if b then m else mret tt.

(** [for _, x := range l] *)
Fixpoint forM_ {A} (l : list A) (f : A -> M S unit) : M S unit :=
  match l with
  | [] => mret tt
  | x :: l => f x ≫= λ _, forM_ l f
  end.

Fixpoint forM {A B} (l : list A) (f : A -> M S B) : M S (list B) :=
  match l with
  | [] => mret []
  | x :: l => f x ≫= λ y, forM l f ≫= λ ys, mret (y :: ys)
  end.

Fixpoint foldM {A B} (f : B -> A -> M S B) (b : B) (l : list A) : M S B :=
  match l with
  | [] => mret b
  | x :: l => f b x ≫= λ b, foldM f b l
  end.

(** An optional value a panic-free program must have: dereferencing a nil pointer *)
Definition deref {A} (o : option A) : M S A := match o with Some a => mret a | None => panic end.

(** [retry.RetryOnConflict(retry.DefaultRetry, m)]: five attempts; the conflict of the
    last one is the error that is returned. *)
Fixpoint retryOnConflict {A} (steps : nat) (m : M S A) : M S A :=
  match steps with
  | O => m
  | Datatypes.S n =>
      try m ≫= λ r,
        match r with
        | inl a => mret a
        | inr e => if IsConflict e then retryOnConflict n m else raise e
        end
  end.
Definition RetryOnConflict {A} (m : M S A) : M S A := retryOnConflict 4 m.
End programs.

(** A part [T] of the state [S]: the cluster a client talks to, the port allocator *)
Record Lens (S T : Type) := { view : S -> T; over : T -> S -> S }.
Arguments view {S T} _ _.
Arguments over {S T} _ _ _.

Class LensLaws {S T} (L : Lens S T) : Prop := {
  view_over t s : view L (over L t s) = t;
  over_view s : over L (view L s) s = s;
  over_over t t' s : over L t (over L t' s) = over L t s;
}.

Definition idLens {S} : Lens S S := {| view := λ s, s; over := λ t _, t |}.
#[export] Instance idLens_laws S : LensLaws (@idLens S).
Proof. by split. Qed.

Definition zoom {S T A} (L : Lens S T) (m : M T A) : M S A := λ s,
  let '(r, t) := m (view L s) in (r, over L t s).

(** ** Objects *)

Inductive Object :=
| OService (o : Service)
| OLoadBalancer (o : LoadBalancer)
| ORoute (o : Route)
| OTenant (o : Tenant)
| OConfig (o : Config)
| OIngress (o : Ingress)
| OHTTPRoute (o : HTTPRoute)
| OGRPCRoute (o : GRPCRoute)
| OGateway (o : Gateway)
| OSecret (o : Secret)
| OSyncSecret (o : SyncSecret)
| OAddresses (o : Addresses)
| ODeployment (o : Deployment)
| ODaemonSet (o : DaemonSet)
| OSecurityPolicy (o : SecurityPolicy)
| OBackendTrafficPolicy (o : BackendTrafficPolicy)
| ONamespace (o : Namespace)
| ONode (o : Node)
| OGatewayClass (o : GatewayClass)
| OServiceAccount (o : ServiceAccount)
| ORole (o : Role)
| ORoleBinding (o : RoleBinding)
| OTenantState (o : TenantState)
| OPodMonitor (o : PodMonitor)
| OConfigMap (o : ConfigMap)
| OEndpointSlice (o : EndpointSlice)
| OCustomResourceDefinition (o : CustomResourceDefinition)
| OClientTrafficPolicy (o : ClientTrafficPolicy)
| OTunnel (o : Tunnel).

Definition kindOf (x : Object) : string :=
  match x with
  | OService _ => "Service" | OLoadBalancer _ => "LoadBalancer" | ORoute _ => "Route"
  | OTenant _ => "Tenant" | OConfig _ => "Config" | OIngress _ => "Ingress"
  | OHTTPRoute _ => "HTTPRoute" | OGRPCRoute _ => "GRPCRoute" | OGateway _ => "Gateway"
  | OSecret _ => "Secret" | OSyncSecret _ => "SyncSecret" | OAddresses _ => "Addresses"
  | ODeployment _ => "Deployment" | ODaemonSet _ => "DaemonSet"
  | OSecurityPolicy _ => "SecurityPolicy" | OBackendTrafficPolicy _ => "BackendTrafficPolicy"
  | ONamespace _ => "Namespace" | ONode _ => "Node"
  | OGatewayClass _ => "GatewayClass" | OServiceAccount _ => "ServiceAccount" | ORole _ => "Role"
  | ORoleBinding _ => "RoleBinding" | OTenantState _ => "TenantState" | OPodMonitor _ => "PodMonitor"
  | OConfigMap _ => "ConfigMap" | OEndpointSlice _ => "EndpointSlice"
  | OCustomResourceDefinition _ => "CustomResourceDefinition"
  | OClientTrafficPolicy _ => "ClientTrafficPolicy" | OTunnel _ => "Tunnel"
  end.

Definition metaOf (x : Object) : ObjectMeta :=
  match x with
  | OService o => svc_Meta o | OLoadBalancer o => lb_Meta o | ORoute o => rt_Meta o
  | OTenant o => tn_Meta o | OConfig o => cf_Meta o | OIngress o => ing_Meta o
  | OHTTPRoute o => gr_Meta o | OGRPCRoute o => gr_Meta o | OGateway o => gw_Meta o
  | OSecret o => sec_Meta o | OSyncSecret o => syn_Meta o | OAddresses o => ad_Meta o
  | ODeployment o => dep_Meta o | ODaemonSet o => ds_Meta o
  | OSecurityPolicy o => secp_Meta o | OBackendTrafficPolicy o => btp_Meta o
  | ONamespace o => ns_Meta o | ONode o => nd_Meta o
  | OGatewayClass o => gwc_Meta o | OServiceAccount o => sa_Meta o | ORole o => rol_Meta o
  | ORoleBinding o => rb_Meta o | OTenantState o => ts_Meta o | OPodMonitor o => pm_Meta o
  | OConfigMap o => cm_Meta o | OEndpointSlice o => es_Meta o
  | OCustomResourceDefinition o => crd_Meta o
  | OClientTrafficPolicy o => ctp_Meta o | OTunnel o => tun_Meta o
  end.

Abbreviation NamespacedName := (string * string)%type.
(** Kind, namespace and name *)
Abbreviation ObjectKey := (string * NamespacedName)%type.
Definition keyOf (x : Object) : ObjectKey := (kindOf x, (om_Namespace (metaOf x), om_Name (metaOf x))).

(** The Go types of objects: [copyStatus from o] is [o] with the status subresource of
    [from]; [freshStatus o] has the zero status. *)
Class Resource (O : Type) := {
  resKind : string;
  inject : O -> Object;
  project : Object -> option O;
  objMeta : O -> ObjectMeta;
  setMeta : ObjectMeta -> O -> O;
  copyStatus : O -> O -> O;
  freshStatus : O -> O;
  project_inject o : project (inject o) = Some o;
  inject_project x o : project x = Some o → x = inject o;
  kindOf_inject o : kindOf (inject o) = resKind;
  metaOf_inject o : metaOf (inject o) = objMeta o;
  objMeta_setMeta m o : objMeta (setMeta m o) = m;
  setMeta_objMeta o : setMeta (objMeta o) o = o;
  setMeta_setMeta m m' o : setMeta m (setMeta m' o) = setMeta m o;
  objMeta_copyStatus o o' : objMeta (copyStatus o o') = objMeta o';
  objMeta_freshStatus o : objMeta (freshStatus o) = objMeta o;
  copyStatus_self o : copyStatus o o = o;
  copyStatus_copyStatus a b o : copyStatus (copyStatus a b) o = copyStatus a o;
  copyStatus_freshStatus a o : copyStatus (freshStatus a) o = freshStatus o;
  copyStatus_setMeta_l m a o : copyStatus (setMeta m a) o = copyStatus a o;
  copyStatus_setMeta_r m a o : copyStatus a (setMeta m o) = setMeta m (copyStatus a o);
  freshStatus_setMeta m o : freshStatus (setMeta m o) = setMeta m (freshStatus o);
}.
Arguments resKind O {_}.

Ltac solve_resource :=
  intros;
  first [reflexivity
        |match goal with x : Object, H : _ = Some _ |- _ => destruct x; by simplify_eq/= end
        |match goal with o : _ |- _ => by destruct o end].

#[export, refine] Instance Service_resource : Resource Service := {|
  resKind := "Service"; inject := OService;
  project x := match x with OService o => Some o | _ => None end;
  objMeta := svc_Meta; setMeta m o := {| o with svc_Meta := m |};
  copyStatus from o := {| o with svc_Ingress := svc_Ingress from |};
  freshStatus o := {| o with svc_Ingress := [] |} |}.
Proof. all: solve_resource. Defined.

#[export, refine] Instance LoadBalancer_resource : Resource LoadBalancer := {|
  resKind := "LoadBalancer"; inject := OLoadBalancer;
  project x := match x with OLoadBalancer o => Some o | _ => None end;
  objMeta := lb_Meta; setMeta m o := {| o with lb_Meta := m |};
  copyStatus from o := {| o with lb_Status := lb_Status from |};
  freshStatus o := {| o with lb_Status := emptyLoadBalancerStatus |} |}.
Proof. all: solve_resource. Defined.

#[export, refine] Instance Route_resource : Resource Route := {|
  resKind := "Route"; inject := ORoute;
  project x := match x with ORoute o => Some o | _ => None end;
  objMeta := rt_Meta; setMeta m o := {| o with rt_Meta := m |};
  copyStatus from o := {| o with rt_Status := rt_Status from |};
  freshStatus o := {| o with rt_Status := emptyRouteStatus |} |}.
Proof. all: solve_resource. Defined.

#[export, refine] Instance Tenant_resource : Resource Tenant := {|
  resKind := "Tenant"; inject := OTenant;
  project x := match x with OTenant o => Some o | _ => None end;
  objMeta := tn_Meta; setMeta m o := {| o with tn_Meta := m |};
  copyStatus from o := {| o with tn_Status := tn_Status from |};
  freshStatus o := {| o with tn_Status := emptyPhaseStatus |} |}.
Proof. all: solve_resource. Defined.

#[export, refine] Instance Config_resource : Resource Config := {|
  resKind := "Config"; inject := OConfig;
  project x := match x with OConfig o => Some o | _ => None end;
  objMeta := cf_Meta; setMeta m o := {| o with cf_Meta := m |};
  copyStatus from o := {| o with cf_Version := cf_Version from |};
  freshStatus o := {| o with cf_Version := emptyVersion |} |}.
Proof. all: solve_resource. Defined.

#[export, refine] Instance Ingress_resource : Resource Ingress := {|
  resKind := "Ingress"; inject := OIngress;
  project x := match x with OIngress o => Some o | _ => None end;
  objMeta := ing_Meta; setMeta m o := {| o with ing_Meta := m |};
  copyStatus from o := {| o with ing_Ingress := ing_Ingress from |};
  freshStatus o := {| o with ing_Ingress := [] |} |}.
Proof. all: solve_resource. Defined.

#[export, refine] Instance HTTPRoute_resource : Resource HTTPRoute := {|
  resKind := "HTTPRoute"; inject := OHTTPRoute;
  project x := match x with OHTTPRoute o => Some o | _ => None end;
  objMeta := gr_Meta; setMeta m o := {| o with gr_Meta := m |};
  copyStatus from o := {| o with gr_Status := gr_Status from |};
  freshStatus o := {| o with gr_Status := [] |} |}.
Proof. all: solve_resource. Defined.

#[export, refine] Instance GRPCRoute_resource : Resource GRPCRoute := {|
  resKind := "GRPCRoute"; inject := OGRPCRoute;
  project x := match x with OGRPCRoute o => Some o | _ => None end;
  objMeta := gr_Meta; setMeta m o := {| o with gr_Meta := m |};
  copyStatus from o := {| o with gr_Status := gr_Status from |};
  freshStatus o := {| o with gr_Status := [] |} |}.
Proof. all: solve_resource. Defined.

#[export, refine] Instance Gateway_resource : Resource Gateway := {|
  resKind := "Gateway"; inject := OGateway;
  project x := match x with OGateway o => Some o | _ => None end;
  objMeta := gw_Meta; setMeta m o := {| o with gw_Meta := m |};
  copyStatus from o := {| o with gw_Conditions := gw_Conditions from |};
  freshStatus o := {| o with gw_Conditions := [] |} |}.
Proof. all: solve_resource. Defined.

#[export, refine] Instance Secret_resource : Resource Secret := {|
  resKind := "Secret"; inject := OSecret;
  project x := match x with OSecret o => Some o | _ => None end;
  objMeta := sec_Meta; setMeta m o := {| o with sec_Meta := m |};
  copyStatus _ o := o; freshStatus o := o |}.
Proof. all: solve_resource. Defined.

#[export, refine] Instance SyncSecret_resource : Resource SyncSecret := {|
  resKind := "SyncSecret"; inject := OSyncSecret;
  project x := match x with OSyncSecret o => Some o | _ => None end;
  objMeta := syn_Meta; setMeta m o := {| o with syn_Meta := m |};
  copyStatus from o := {| o with syn_Status := syn_Status from |};
  freshStatus o := {| o with syn_Status := emptyPhaseStatus |} |}.
Proof. all: solve_resource. Defined.

#[export, refine] Instance Addresses_resource : Resource Addresses := {|
  resKind := "Addresses"; inject := OAddresses;
  project x := match x with OAddresses o => Some o | _ => None end;
  objMeta := ad_Meta; setMeta m o := {| o with ad_Meta := m |};
  copyStatus _ o := o; freshStatus o := o |}.
Proof. all: solve_resource. Defined.

#[export, refine] Instance Deployment_resource : Resource Deployment := {|
  resKind := "Deployment"; inject := ODeployment;
  project x := match x with ODeployment o => Some o | _ => None end;
  objMeta := dep_Meta; setMeta m o := {| o with dep_Meta := m |};
  copyStatus _ o := o; freshStatus o := o |}.
Proof. all: solve_resource. Defined.

#[export, refine] Instance DaemonSet_resource : Resource DaemonSet := {|
  resKind := "DaemonSet"; inject := ODaemonSet;
  project x := match x with ODaemonSet o => Some o | _ => None end;
  objMeta := ds_Meta; setMeta m o := {| o with ds_Meta := m |};
  copyStatus _ o := o; freshStatus o := o |}.
Proof. all: solve_resource. Defined.

#[export, refine] Instance SecurityPolicy_resource : Resource SecurityPolicy := {|
  resKind := "SecurityPolicy"; inject := OSecurityPolicy;
  project x := match x with OSecurityPolicy o => Some o | _ => None end;
  objMeta := secp_Meta; setMeta m o := {| o with secp_Meta := m |};
  copyStatus _ o := o; freshStatus o := o |}.
Proof. all: solve_resource. Defined.

#[export, refine] Instance BackendTrafficPolicy_resource : Resource BackendTrafficPolicy := {|
  resKind := "BackendTrafficPolicy"; inject := OBackendTrafficPolicy;
  project x := match x with OBackendTrafficPolicy o => Some o | _ => None end;
  objMeta := btp_Meta; setMeta m o := {| o with btp_Meta := m |};
  copyStatus _ o := o; freshStatus o := o |}.
Proof. all: solve_resource. Defined.

#[export, refine] Instance Namespace_resource : Resource Namespace := {|
  resKind := "Namespace"; inject := ONamespace;
  project x := match x with ONamespace o => Some o | _ => None end;
  objMeta := ns_Meta; setMeta m _ := {| ns_Meta := m |};
  copyStatus _ o := o; freshStatus o := o |}.
Proof. all: solve_resource. Defined.

#[export, refine] Instance Node_resource : Resource Node := {|
  resKind := "Node"; inject := ONode;
  project x := match x with ONode o => Some o | _ => None end;
  objMeta := nd_Meta; setMeta m o := {| o with nd_Meta := m |};
  copyStatus _ o := o; freshStatus o := o |}.
Proof. all: solve_resource. Defined.

#[export, refine] Instance GatewayClass_resource : Resource GatewayClass := {|
  resKind := "GatewayClass"; inject := OGatewayClass;
  project x := match x with OGatewayClass o => Some o | _ => None end;
  objMeta := gwc_Meta; setMeta m _ := {| gwc_Meta := m |};
  copyStatus _ o := o; freshStatus o := o |}.
Proof. all: solve_resource. Defined.

#[export, refine] Instance ServiceAccount_resource : Resource ServiceAccount := {|
  resKind := "ServiceAccount"; inject := OServiceAccount;
  project x := match x with OServiceAccount o => Some o | _ => None end;
  objMeta := sa_Meta; setMeta m _ := {| sa_Meta := m |};
  copyStatus _ o := o; freshStatus o := o |}.
Proof. all: solve_resource. Defined.

#[export, refine] Instance Role_resource : Resource Role := {|
  resKind := "Role"; inject := ORole;
  project x := match x with ORole o => Some o | _ => None end;
  objMeta := rol_Meta; setMeta m o := {| o with rol_Meta := m |};
  copyStatus _ o := o; freshStatus o := o |}.
Proof. all: solve_resource. Defined.

#[export, refine] Instance RoleBinding_resource : Resource RoleBinding := {|
  resKind := "RoleBinding"; inject := ORoleBinding;
  project x := match x with ORoleBinding o => Some o | _ => None end;
  objMeta := rb_Meta; setMeta m o := {| o with rb_Meta := m |};
  copyStatus _ o := o; freshStatus o := o |}.
Proof. all: solve_resource. Defined.

#[export, refine] Instance TenantState_resource : Resource TenantState := {|
  resKind := "TenantState"; inject := OTenantState;
  project x := match x with OTenantState o => Some o | _ => None end;
  objMeta := ts_Meta; setMeta m o := {| o with ts_Meta := m |};
  copyStatus from o := {| o with ts_Status := ts_Status from |};
  freshStatus o := {| o with ts_Status := emptyTenantStateStatus |} |}.
Proof. all: solve_resource. Defined.

#[export, refine] Instance PodMonitor_resource : Resource PodMonitor := {|
  resKind := "PodMonitor"; inject := OPodMonitor;
  project x := match x with OPodMonitor o => Some o | _ => None end;
  objMeta := pm_Meta; setMeta m o := {| o with pm_Meta := m |};
  copyStatus _ o := o; freshStatus o := o |}.
Proof. all: solve_resource. Defined.

#[export, refine] Instance ConfigMap_resource : Resource ConfigMap := {|
  resKind := "ConfigMap"; inject := OConfigMap;
  project x := match x with OConfigMap o => Some o | _ => None end;
  objMeta := cm_Meta; setMeta m o := {| o with cm_Meta := m |};
  copyStatus _ o := o; freshStatus o := o |}.
Proof. all: solve_resource. Defined.

#[export, refine] Instance EndpointSlice_resource : Resource EndpointSlice := {|
  resKind := "EndpointSlice"; inject := OEndpointSlice;
  project x := match x with OEndpointSlice o => Some o | _ => None end;
  objMeta := es_Meta; setMeta m o := {| o with es_Meta := m |};
  copyStatus _ o := o; freshStatus o := o |}.
Proof. all: solve_resource. Defined.

#[export, refine] Instance CustomResourceDefinition_resource : Resource CustomResourceDefinition := {|
  resKind := "CustomResourceDefinition"; inject := OCustomResourceDefinition;
  project x := match x with OCustomResourceDefinition o => Some o | _ => None end;
  objMeta := crd_Meta; setMeta m o := {| o with crd_Meta := m |};
  copyStatus _ o := o; freshStatus o := o |}.
Proof. all: solve_resource. Defined.

#[export, refine] Instance ClientTrafficPolicy_resource : Resource ClientTrafficPolicy := {|
  resKind := "ClientTrafficPolicy"; inject := OClientTrafficPolicy;
  project x := match x with OClientTrafficPolicy o => Some o | _ => None end;
  objMeta := ctp_Meta; setMeta m o := {| o with ctp_Meta := m |};
  copyStatus _ o := o; freshStatus o := o |}.
Proof. all: solve_resource. Defined.

#[export, refine] Instance Tunnel_resource : Resource Tunnel := {|
  resKind := "Tunnel"; inject := OTunnel;
  project x := match x with OTunnel o => Some o | _ => None end;
  objMeta := tun_Meta; setMeta m o := {| o with tun_Meta := m |};
  copyStatus from o := {| o with tun_Status := tun_Status from |};
  freshStatus o := {| o with tun_Status := emptyTunnelStatus |} |}.
Proof. all: solve_resource. Defined.

(** ** Clusters and their client *)

Record Cluster := {
  cl_objects : gmap ObjectKey Object;
  cl_faults : list (option Error);
  cl_uid : nat;
}.

(** The outcome of the next call *)
Definition apiCall : M Cluster unit := λ c,
  match cl_faults c with
  | [] => (Ret tt, c)
  | None :: faults => (Ret tt, {| c with cl_faults := faults |})
  | Some e :: faults => (Fail e, {| c with cl_faults := faults |})
  end.

Definition setObjects (objects : gmap ObjectKey Object) : M Cluster unit :=
  modify (λ c, {| c with cl_objects := objects |}).

(** [controllerutil]'s finalizers *)
Definition ContainsFinalizer (m : ObjectMeta) (f : string) : bool := bool_decide (f ∈ om_Finalizers m).
Definition AddFinalizer (m : ObjectMeta) (f : string) : ObjectMeta :=
  {| m with om_Finalizers := if ContainsFinalizer m f then om_Finalizers m else om_Finalizers m ++ [f] |}.
Definition RemoveFinalizer (m : ObjectMeta) (f : string) : ObjectMeta :=
  {| m with om_Finalizers := filter (λ g, g ≠ f) (om_Finalizers m) |}.

(** [SetControllerReference] on an object without owners in the owner's namespace *)
Definition SetControllerReference (apiVersion kind : string) (owner m : ObjectMeta) : ObjectMeta :=
  {| m with om_OwnerReferences :=
       om_OwnerReferences m ++
       [{| or_APIVersion := apiVersion; or_Kind := kind; or_Name := om_Name owner; or_UID := om_UID owner |}] |}.

(** Metadata as it comes back from the server: an empty map is not sent, so it is read
    back as nil. *)
Definition wireMap (m : GoMap) : GoMap := match m with Some a => if bool_decide (a = ∅) then None else m | None => None end.
Definition onWire (m : ObjectMeta) : ObjectMeta :=
  {| m with om_Labels := wireMap (om_Labels m); om_Annotations := wireMap (om_Annotations m) |}.

Section client.
Context {O : Type} `{!Resource O}.

Definition objKey (o : O) : NamespacedName := (om_Namespace (objMeta o), om_Name (objMeta o)).
Definition storeKey (key : NamespacedName) : ObjectKey := (resKind O, key).

(** What is stored under a key, provided it is an object of that kind and name *)
Definition findObject (c : Cluster) (key : NamespacedName) : option O :=
  match cl_objects c !! storeKey key ≫= project with
  | Some o => if bool_decide (objKey o = key) then Some o else None
  | None => None
  end.

Definition notFound (key : NamespacedName) : Error :=
  StatusError NotFound (resKind O ⊕ " " ⊕ Quote key.2 ⊕ " not found").

(** The stored object a call is about *)
Definition existing (key : NamespacedName) : M Cluster O :=
  apiCall ≫= λ _, gets (λ c, findObject c key) ≫= λ found,
  match found with Some o => mret o | None => raise (notFound key) end.

Definition putObject (key : NamespacedName) (o : O) : M Cluster unit :=
  modify (λ c, {| c with cl_objects := <[storeKey key := inject o]> (cl_objects c) |}).
Definition dropObject (key : NamespacedName) : M Cluster unit :=
  modify (λ c, {| c with cl_objects := delete (storeKey key) (cl_objects c) |}).

Definition Get (key : NamespacedName) : M Cluster O := existing key.

Definition inNamespace (ns : option string) (o : O) : bool :=
  match ns with None => true | Some ns => bool_decide (om_Namespace (objMeta o) = ns) end.

Definition listObjects (c : Cluster) (ns : option string) (selector : StrMap) : list O :=
  filter (λ o, inNamespace ns o = true ∧ selector ⊆ entries (om_Labels (objMeta o)))
    (omap project (map_to_list (cl_objects c)).*2).

(** [List] with [InNamespace] and [MatchingLabels] *)
Definition List (ns : option string) (selector : StrMap) : M Cluster (list O) :=
  apiCall ≫= λ _, gets (λ c, listObjects c ns selector).

(** The server gives the object its UID and starts it with an empty status. *)
Definition created (c : Cluster) (o : O) : O :=
  setMeta {| (onWire (objMeta o)) with om_UID := "uid-" ⊕ Itoa (Z.of_nat (cl_uid c)); om_Deleting := false |}
    (freshStatus o).

Definition Create (o : O) : M Cluster O :=
  apiCall ≫= λ _, gets (λ c, findObject c (objKey o)) ≫= λ found,
  match found with
  | Some _ => raise (StatusError AlreadyExists (resKind O ⊕ " " ⊕ Quote (objKey o).2 ⊕ " already exists"))
  | None =>
      gets (λ c, created c o) ≫= λ o,
      modify (λ c, {| c with cl_uid := S (cl_uid c) |}) ≫= λ _,
      putObject (objKey o) o ≫= λ _, mret o
  end.

(** What an update stores: the status, the UID and the deletion mark stay. *)
Definition updated (old o : O) : O :=
  setMeta {| (onWire (objMeta o)) with om_UID := om_UID (objMeta old); om_Deleting := om_Deleting (objMeta old) |}
    (copyStatus old o).

Definition Update (o : O) : M Cluster O :=
  existing (objKey o) ≫= λ old,
  if bool_decide (om_UID (objMeta o) ≠ "" ∧ om_UID (objMeta o) ≠ om_UID (objMeta old))
  then raise (StatusError Conflict (resKind O ⊕ " " ⊕ Quote (objKey o).2 ⊕ ": UID in precondition differs"))
  else
    let o := updated old o in
    (if om_Deleting (objMeta o) && bool_decide (om_Finalizers (objMeta o) = [])
     then dropObject (objKey o) else putObject (objKey o) o) ≫= λ _, mret o.

(** [Status().Update], and [Status().Patch] of an object just read *)
Definition StatusUpdate (o : O) : M Cluster O :=
  existing (objKey o) ≫= λ old,
  putObject (objKey o) (copyStatus o old) ≫= λ _, mret (copyStatus o old).

Definition Delete (key : NamespacedName) : M Cluster unit :=
  existing key ≫= λ old,
  if bool_decide (om_Finalizers (objMeta old) = []) then dropObject key
  else putObject key (setMeta {| (objMeta old) with om_Deleting := true |} old).

(** [err := Get(...)] where only [IsNotFound] is told apart: [None] when it is *)
Definition GetIfExists (key : NamespacedName) : M Cluster (option O) :=
  try (Get key) ≫= λ r,
  match r with
  | inl o => mret (Some o)
  | inr e => if IsNotFound e then mret None else raise e
  end.

(** [if err := Delete(...); err != nil && !IsNotFound(err) { return err }] *)
Definition DeleteIgnoreNotFound (key : NamespacedName) : M Cluster unit :=
  try (Delete key) ≫= λ r,
  match r with
  | inl _ => mret tt
  | inr e => if IsNotFound e then mret tt else raise e
  end.
End client.
Arguments Get O {_} _.
Arguments GetIfExists O {_} _.
Arguments List O {_} _ _.
Arguments Delete O {_} _.
Arguments DeleteIgnoreNotFound O {_} _.
Arguments findObject O {_} _ _.
Arguments listObjects O {_} _ _ _.
Arguments storeKey O {_} _.

(** ** A logic of programs *)

(** Every run moves the state along [R]. *)
Definition within {S A} (R : relation S) (m : M S A) : Prop := ∀ s, R s (m s).2.

(** What a run that returns returns *)
Definition yields {S A} (Q : A -> Prop) (m : M S A) : Prop := ∀ s a s', m s = (Ret a, s') → Q a.

Section yields.
Context {S : Type}.

Lemma yields_True {A} (m : M S A) : yields (λ _, True) m.
Proof. by intros s a s' _. Qed.
Lemma yields_try {A} Q (m : M S A) : yields Q m → yields (λ r, match r with inl a => Q a | inr _ => True end) (try m).
Proof.
  intros Hm s r s'. unfold try. destruct (m s) as [[a|e| |] s1] eqn:Hr; intros [= <- <-]; [|done]. by eapply Hm.
Qed.
Lemma yields_bind {A B} Q (m : M S A) (k : A -> M S B) : (∀ a, yields Q (k a)) → yields Q (m ≫= k).
Proof. intros Hk s b s'. unfold mbind, M_bind. destruct (m s) as [[a|e| |] s1]; try done. apply Hk. Qed.
Lemma yields_ret {A} (Q : A -> Prop) a : Q a → yields Q (mret (M:=M S) a).
Proof. by intros Ha s b s' [= <- _]. Qed.
Lemma yields_bind_yields {A B} (P : A -> Prop) Q (m : M S A) (k : A -> M S B) :
  yields P m → (∀ a, P a → yields Q (k a)) → yields Q (m ≫= k).
Proof.
  intros Hm Hk s b s'. unfold mbind, M_bind. destruct (m s) as [[a|e| |] s1] eqn:Hr; try done.
  apply Hk. by eapply Hm.
Qed.
Lemma yields_wrap {A} Q p (m : M S A) : yields Q m → yields Q (wrap p m).
Proof.
  intros Hm s a s'. unfold wrap, mbind, M_bind, try. destruct (m s) as [[b|e| |] s1] eqn:Hr; try done.
  intros [= <- <-]. by eapply Hm.
Qed.
Lemma yields_foldM {A B} (I : B -> Prop) (f : B -> A -> M S B) b l :
  I b → (∀ b x, x ∈ l → I b → yields I (f b x)) → yields I (foldM f b l).
Proof.
  revert b. induction l as [|x l IH]; intros b Hb Hf; [by apply yields_ret|].
  eapply yields_bind_yields; [by apply Hf; [left|]|]. intros b' Hb'. apply IH; [done|]. intros. apply Hf; [by right|done].
Qed.
Lemma yields_retry {A} Q n (m : M S A) : yields Q m → yields Q (retryOnConflict n m).
Proof.
  intros Hm. induction n as [|n IH]; [done|]. eapply yields_bind_yields; [by apply yields_try|].
  intros [a|e] Ha; [by apply yields_ret|]. destruct (IsConflict e); [done|]. by intros s b s'.
Qed.
Lemma yields_zoom {T A} Q (L : Lens S T) (m : M T A) : yields Q m → yields Q (zoom L m).
Proof.
  intros Hm s a s'. unfold zoom. destruct (m (view L s)) as [r t] eqn:Hr. intros [= -> _]. by eapply Hm.
Qed.
End yields.

Create HintDb yields discriminated.
#[export] Hint Extern 1 (yields _ (try _)) => eapply yields_try : yields.
#[export] Hint Extern 1 (yields _ (wrap _ _)) => eapply yields_wrap : yields.
#[export] Hint Extern 1 (yields _ (zoom _ _)) => eapply yields_zoom : yields.
#[export] Hint Extern 100 (yields _ _) => eapply yields_True : yields.

Section within.
Context {S : Type} (R : relation S) `{!PreOrder R}.
Implicit Types A B : Type.

Lemma within_ret {A} (a : A) : within R (mret a).
Proof. intros s. simpl. reflexivity. Qed.
Lemma within_raise {A} e : within R (raise (A:=A) e).
Proof. intros s. simpl. reflexivity. Qed.
Lemma within_panic {A} : within R (panic (A:=A)).
Proof. intros s. simpl. reflexivity. Qed.
Lemma within_diverge {A} : within R (diverge (A:=A)).
Proof. intros s. simpl. reflexivity. Qed.
Lemma within_gets {A} (f : S -> A) : within R (gets f).
Proof. intros s. simpl. reflexivity. Qed.
Lemma within_modify f : (∀ s, R s (f s)) → within R (modify f).
Proof. intros Hf s. apply Hf. Qed.

Lemma within_bind_yields {A B} (Q : A -> Prop) (m : M S A) (k : A -> M S B) :
  yields Q m → within R m → (∀ a, Q a → within R (k a)) → within R (m ≫= k).
Proof.
  intros HQ Hm Hk s. specialize (Hm s). unfold mbind, M_bind.
  destruct (m s) as [[a|e| |] s1] eqn:Hr; try done. etrans; [done|apply Hk]. by eapply HQ.
Qed.

Lemma within_bind {A B} (m : M S A) (k : A -> M S B) :
  within R m → (∀ a, within R (k a)) → within R (m ≫= k).
Proof. intros Hm Hk. by apply (within_bind_yields (λ _, True)). Qed.

Lemma within_try {A} (m : M S A) : within R m → within R (try m).
Proof. intros Hm s. specialize (Hm s). unfold try. by destruct (m s) as [[]]. Qed.

Lemma within_wrap {A} p (m : M S A) : within R m → within R (wrap p m).
Proof.
  intros Hm. apply within_bind; [by apply within_try|]. intros [a|e]; [apply within_ret|apply within_raise].
Qed.

Lemma within_fmap {A B} (f : A -> B) (m : M S A) : within R m → within R (f <$> m).
Proof. intros Hm. apply within_bind; [done|]. intros a. apply within_ret. Qed.

Lemma within_when b m : within R m → within R (when b m).
Proof. intros Hm. destruct b; [done|apply within_ret]. Qed.

Lemma within_forM_ {A} (l : list A) f : (∀ x, x ∈ l → within R (f x)) → within R (forM_ l f).
Proof.
  induction l as [|x l IH]; intros Hf; [apply within_ret|].
  apply within_bind; [apply Hf; left|]. intros _. apply IH. intros. apply Hf. by right.
Qed.

Lemma within_forM {A B} (l : list A) (f : A -> M S B) : (∀ x, x ∈ l → within R (f x)) → within R (forM l f).
Proof.
  induction l as [|x l IH]; intros Hf; [apply within_ret|].
  apply within_bind; [apply Hf; left|]. intros y.
  apply within_bind; [apply IH; intros; apply Hf; by right|]. intros ys. apply within_ret.
Qed.

Lemma within_foldM {A B} (f : B -> A -> M S B) b l :
  (∀ b x, x ∈ l → within R (f b x)) → within R (foldM f b l).
Proof.
  revert b. induction l as [|x l IH]; intros b Hf; [apply within_ret|].
  apply within_bind; [apply Hf; left|]. intros b'. apply IH. intros. apply Hf. by right.
Qed.

Lemma within_deref {A} (o : option A) : within R (deref o).
Proof. destruct o; [apply within_ret|apply within_panic]. Qed.

(** With an invariant of the accumulator *)
Lemma within_foldM_inv {A B} (I : B -> Prop) (f : B -> A -> M S B) b l :
  I b → (∀ b x, x ∈ l → I b → within R (f b x) ∧ yields I (f b x)) → within R (foldM f b l).
Proof.
  revert b. induction l as [|x l IH]; intros b Hb Hf; [apply within_ret|].
  destruct (Hf b x ltac:(left) Hb) as [Hw Hy]. eapply within_bind_yields; [exact Hy|done|].
  intros b' Hb'. apply IH; [done|]. intros. apply Hf; [by right|done].
Qed.

Lemma within_retry {A} n (m : M S A) : within R m → within R (retryOnConflict n m).
Proof.
  intros Hm. induction n as [|n IH]; [done|]. apply within_bind; [by apply within_try|].
  intros [a|e]; [apply within_ret|]. destruct (IsConflict e); [done|apply within_raise].
Qed.

Lemma within_zoom {T A} (L : Lens S T) (R' : relation T) (m : M T A) :
  (∀ s t, R' (view L s) t → R s (over L t s)) → within R' m → within R (zoom L m).
Proof.
  intros HR Hm s. specialize (Hm (view L s)). unfold zoom. destruct (m (view L s)) as [r t]. by apply HR.
Qed.
End within.

Lemma within_weaken {S A} (R R' : relation S) (m : M S A) :
  (∀ s s', R s s' → R' s s') → within R m → within R' m.
Proof. intros HR Hm s. apply HR, Hm. Qed.

(** Split a program into its calls; the calls are left, or solved by the hints. *)
Create HintDb kube discriminated.
Ltac within_step :=
  lazymatch goal with
  | |- within _ (mbind _ _) =>
      eapply within_bind_yields; [apply _|solve [eauto with yields]| |intros ? ?]
  | |- within _ (mret _) => apply within_ret; apply _
  | |- within _ (raise _) => apply within_raise; apply _
  | |- within _ panic => apply within_panic; apply _
  | |- within _ diverge => apply within_diverge; apply _
  | |- within _ (gets _) => apply within_gets; apply _
  | |- within _ (try _) => apply within_try
  | |- within _ (wrap _ _) => apply within_wrap; [apply _|]
  | |- within _ (fmap _ _) => apply within_fmap; [apply _|]
  | |- within _ (when _ _) => apply within_when; [apply _|]
  | |- within _ (deref _) => apply within_deref; apply _
  | |- within _ (forM_ _ _) => apply within_forM_; [apply _|intros ? ?]
  | |- within _ (forM _ _) => apply within_forM; [apply _|intros ? ?]
  | |- within _ (foldM _ _ _) => apply within_foldM; [apply _|intros ? ? ?]
  | |- within _ (RetryOnConflict _) => apply within_retry; [apply _|]
  | |- within _ (match ?x with _ => _ end) => destruct x
  end.
Ltac within_solve := repeat (within_step || (progress (simpl; cbv zeta))); eauto with kube.

(** The key of an object that was changed in other fields *)
Ltac key_solve :=
  unfold objKey in *; simpl in *;
  repeat match goal with H : (_, _) = _ |- _ => progress (rewrite !H) end;
  first [done|congruence|by econstructor|by eauto with kube].

(** *** What the calls of a client change *)

(** Metadata in a store: a finalizer keeps what is marked for deletion, empty maps are nil. *)
Definition meta_ok (m : ObjectMeta) : Prop :=
  (om_Deleting m = true → om_Finalizers m ≠ []) ∧ onWire m = m.

(** Every object is stored under its own kind, namespace and name. *)
Definition object_ok (k : ObjectKey) (x : Object) : Prop := keyOf x = k ∧ meta_ok (metaOf x).
Definition well_formed (c : Cluster) : Prop := map_Forall object_ok (cl_objects c).

#[export] Instance object_ok_dec k x : Decision (object_ok k x).
Proof. unfold object_ok, meta_ok. apply _. Defined.
#[export] Instance well_formed_dec c : Decision (well_formed c).
Proof. unfold well_formed. apply _. Defined.

(** Only objects with a key in [K] change; kinds and names stay right; faults are used up. *)
Record changes (K : ObjectKey -> Prop) (c c' : Cluster) : Prop := {
  changes_frame k : ¬ K k → cl_objects c' !! k = cl_objects c !! k;
  changes_wf : well_formed c → well_formed c';
  changes_faults : cl_faults c' `suffix_of` cl_faults c;
}.

#[export] Instance changes_preorder K : PreOrder (changes K).
Proof.
  split.
  - intros c. by split.
  - intros c1 c2 c3 [F1 W1 S1] [F2 W2 S2]. split; [|auto|by etrans].
    intros k Hk. by rewrite F2, F1.
Qed.

Lemma changes_weaken (K K' : ObjectKey -> Prop) c c' : (∀ k, K k → K' k) → changes K c c' → changes K' c c'.
Proof. intros HK [F W S]. split; auto. Qed.

Lemma changes_no_faults K c c' : changes K c c' → cl_faults c = [] → cl_faults c' = [].
Proof. intros [_ _ Hs] Hf. rewrite Hf in Hs. by apply suffix_nil_inv in Hs. Qed.

Definition nothing : ObjectKey -> Prop := λ _, False.

Lemma within_apiCall K : within (changes K) apiCall.
Proof.
  intros c. unfold apiCall. destruct (cl_faults c) as [|[e|] fs] eqn:Hf; simpl.
  - reflexivity.
  - split; simpl; [done|done|]. rewrite Hf. by apply suffix_cons_r.
  - split; simpl; [done|done|]. rewrite Hf. by apply suffix_cons_r.
Qed.

Lemma wireMap_idem m : wireMap (wireMap m) = wireMap m.
Proof. destruct m as [a|]; [|done]. unfold wireMap. case_bool_decide as He; [done|]. by rewrite bool_decide_eq_false_2. Qed.

Lemma onWire_maps m : onWire m = m →
  wireMap (om_Labels m) = om_Labels m ∧ wireMap (om_Annotations m) = om_Annotations m.
Proof. intros Hw. by rewrite <- Hw at 2 4. Qed.

Section client_changes.
Context {O : Type} `{!Resource O} (K : ObjectKey -> Prop).
Implicit Types (o : O) (key : NamespacedName).

Lemma keyOf_inject o : keyOf (inject o) = storeKey O (objKey o).
Proof. unfold keyOf, storeKey, objKey. by rewrite kindOf_inject, metaOf_inject. Qed.

Lemma within_existing key : within (changes K) (existing (O:=O) key).
Proof. unfold existing. within_solve. apply within_apiCall. Qed.

Lemma changes_insert c key o : K (storeKey O key) → (well_formed c → object_ok (storeKey O key) (inject o)) →
  changes K c {| c with cl_objects := <[storeKey O key := inject o]> (cl_objects c) |}.
Proof.
  intros HK Hkey. split; simpl; [| |done].
  - intros k Hk. by rewrite lookup_insert_ne by (intros <-; done).
  - intros Hw. apply map_Forall_insert_2; [by apply Hkey|done].
Qed.

Lemma changes_delete c key : K (storeKey O key) →
  changes K c {| c with cl_objects := delete (storeKey O key) (cl_objects c) |}.
Proof.
  intros HK. split; simpl; [| |done].
  - intros k Hk. by rewrite lookup_delete_ne by (intros <-; done).
  - intros Hw. by apply map_Forall_delete.
Qed.

Lemma object_ok_inject key o : objKey o = key → meta_ok (objMeta o) → object_ok (storeKey O key) (inject o).
Proof. intros <- Hd. split; [apply keyOf_inject|by rewrite metaOf_inject]. Qed.

(** A stored object has the key it is stored under. *)
Lemma findObject_Some c key o : findObject O c key = Some o ↔ cl_objects c !! storeKey O key = Some (inject o) ∧ objKey o = key.
Proof.
  unfold findObject. split.
  - destruct (cl_objects c !! storeKey O key ≫= project) as [o'|] eqn:Hl; [|done].
    case_bool_decide as Hk; [|done]. intros [= <-]. split; [|done].
    apply bind_Some in Hl as (x & Hx & Hp). by apply inject_project in Hp as ->.
  - intros [-> Hk]. simpl. rewrite project_inject. by rewrite bool_decide_eq_true_2.
Qed.

Lemma findObject_key c key o : findObject O c key = Some o → objKey o = key.
Proof. by intros [_ ?]%findObject_Some. Qed.

Lemma findObject_meta c key o : well_formed c → findObject O c key = Some o → meta_ok (objMeta o).
Proof.
  intros Hw [Hx _]%findObject_Some. apply Hw in Hx as [_ Hd]. by rewrite metaOf_inject in Hd.
Qed.

Lemma existing_spec key c r c' : existing (O:=O) key c = (r, c') →
  changes nothing c c' ∧ cl_objects c' = cl_objects c ∧ ∀ o, r = Ret o → findObject O c key = Some o.
Proof.
  unfold existing, apiCall, mbind, M_bind, gets, mret, M_ret, raise. intros Hr.
  destruct (cl_faults c) as [|[e|] fs] eqn:Hf; simplify_eq/=.
  - destruct (findObject O c key) eqn:Hg; simplify_eq/=; (split_and!; [reflexivity|done|by intros ? [= ->]]).
  - split_and!; [|done|done]. split; simpl; [done|done|rewrite Hf; by apply suffix_cons_r].
  - assert (changes nothing c {| c with cl_faults := fs |}) as Hc.
    { split; simpl; [done|done|rewrite Hf; by apply suffix_cons_r]. }
    change (findObject O {| c with cl_faults := fs |} key) with (findObject O c key) in Hr.
    destruct (findObject O c key) eqn:Hg; simplify_eq/=; (split_and!; [done|done|by intros ? [= ->]]).
Qed.

Lemma within_existing_then {B} key (k : O -> M Cluster B) :
  (∀ c o, findObject O c key = Some o → changes K c (k o c).2) → within (changes K) (existing key ≫= k).
Proof.
  intros Hk c. unfold mbind, M_bind. destruct (existing key c) as [r c1] eqn:He.
  apply existing_spec in He as (Hc & Ho & Hr).
  assert (changes K c c1) as Hc1 by (eapply changes_weaken, Hc; by intros ? []).
  destruct r as [o|e| |]; try done. etrans; [done|]. apply Hk.
  rewrite <- (Hr o eq_refl). unfold findObject. by rewrite Ho.
Qed.

Lemma yields_Get key : yields (λ o, objKey o = key) (Get O key).
Proof.
  intros c o c' He. apply existing_spec in He as (_ & _ & Hr). by eapply findObject_key, Hr.
Qed.
Lemma yields_GetIfExists key : yields (λ r, match r with Some o => objKey o = key | None => True end) (GetIfExists O key).
Proof.
  intros c r c'. unfold GetIfExists, mbind, M_bind, try, mret, M_ret.
  destruct (Get O key c) as [[o|e| |] c1] eqn:Hg; try done.
  - intros [= <- <-]. by eapply yields_Get.
  - destruct (IsNotFound e); [|done]. by intros [= <- <-].
Qed.

Lemma within_Get key : within (changes K) (Get O key).
Proof. apply within_existing. Qed.

Lemma within_GetIfExists key : within (changes K) (GetIfExists O key).
Proof. unfold GetIfExists. within_solve. apply within_Get. Qed.

Lemma within_List ns sel : within (changes K) (List O ns sel).
Proof. unfold List. within_solve. apply within_apiCall. Qed.

Lemma objKey_created c o : objKey (created c o) = objKey o.
Proof. unfold objKey, created. by rewrite objMeta_setMeta. Qed.

Lemma objKey_updated old o : objKey (updated old o) = objKey o.
Proof. unfold objKey, updated. by rewrite objMeta_setMeta. Qed.

Lemma objKey_copyStatus old o : objKey (copyStatus old o) = objKey o.
Proof. unfold objKey. by rewrite objMeta_copyStatus. Qed.

Lemma within_Create o : K (storeKey O (objKey o)) → within (changes K) (Create o).
Proof.
  intros HK s. unfold Create. pose proof (within_apiCall K s) as Ha. unfold mbind, M_bind.
  destruct (apiCall s) as [[[]|e| |] s1]; try done. simpl.
  destruct (findObject O s1 (objKey o)) eqn:Hf; simpl; [done|].
  etrans; [done|]. rewrite objKey_created.
  destruct (changes_insert s1 (objKey o) (created s1 o) HK) as [F W Sf]; [|split; done].
  intros _. apply object_ok_inject; [apply objKey_created|]. unfold created. rewrite objMeta_setMeta.
  split; [done|]. unfold onWire. simpl. by rewrite !wireMap_idem.
Qed.

Lemma within_Update o : K (storeKey O (objKey o)) → within (changes K) (Update o).
Proof.
  intros HK. apply within_existing_then. intros c old Hf.
  destruct (bool_decide _); [reflexivity|]. unfold mbind, M_bind. simpl.
  rewrite <- (objKey_updated old o) in HK. destruct (_ && _) eqn:Hd; simpl.
  - by apply changes_delete.
  - apply changes_insert; [done|]. intros _. apply object_ok_inject; [done|]. split.
    + intros Hdel. rewrite Hdel in Hd. by apply bool_decide_eq_false_1 in Hd.
    + unfold updated, onWire. rewrite objMeta_setMeta. simpl. by rewrite !wireMap_idem.
Qed.

Lemma within_StatusUpdate o : K (storeKey O (objKey o)) → within (changes K) (StatusUpdate o).
Proof.
  intros HK. apply within_existing_then. intros c old Hf. apply changes_insert; [done|].
  intros Hw. pose proof (findObject_meta c _ _ Hw Hf) as Hd.
  apply object_ok_inject; [|by rewrite objMeta_copyStatus].
  rewrite objKey_copyStatus. by eapply findObject_key.
Qed.

Lemma within_Delete key : K (storeKey O key) → within (changes K) (Delete O key).
Proof.
  intros HK. apply within_existing_then. intros c old Hf. case_bool_decide.
  - by apply changes_delete.
  - apply changes_insert; [done|]. intros Hw. destruct (findObject_meta c _ _ Hw Hf) as [_ Hwire].
    apply object_ok_inject; rewrite ?objMeta_setMeta.
    + unfold objKey. rewrite objMeta_setMeta. by apply (findObject_key c).
    + split; [done|]. unfold onWire. simpl. by destruct (onWire_maps _ Hwire) as [-> ->].
Qed.

Lemma within_DeleteIgnoreNotFound key : K (storeKey O key) → within (changes K) (DeleteIgnoreNotFound O key).
Proof. intros HK. unfold DeleteIgnoreNotFound. within_solve. by apply within_Delete. Qed.
End client_changes.

#[export] Hint Extern 1 (yields _ (Get _ _)) => eapply yields_Get : yields.
#[export] Hint Extern 1 (yields _ (GetIfExists _ _)) => eapply yields_GetIfExists : yields.
#[export] Hint Resolve within_apiCall within_Get within_GetIfExists within_List : kube.
#[export] Hint Extern 2 (within _ (Create _)) => apply within_Create; key_solve : kube.
#[export] Hint Extern 2 (within _ (Update _)) => apply within_Update; key_solve : kube.
#[export] Hint Extern 2 (within _ (StatusUpdate _)) => apply within_StatusUpdate; key_solve : kube.
#[export] Hint Extern 2 (within _ (Delete _ _)) => apply within_Delete; key_solve : kube.
#[export] Hint Extern 2 (within _ (DeleteIgnoreNotFound _ _)) => apply within_DeleteIgnoreNotFound; key_solve : kube.

(** *** Results of runs *)

Section runs.
Context {S : Type}.

(** A sequence returns when its parts do. *)
Lemma bind_Ret {A B} (m : M S A) (k : A -> M S B) s b s2 :
  (m ≫= k) s = (Ret b, s2) → ∃ a s1, m s = (Ret a, s1) ∧ k a s1 = (Ret b, s2).
Proof.
  unfold mbind, M_bind. destruct (m s) as [[a|e| |] s1]; try discriminate. intros Hk. by exists a, s1.
Qed.

Lemma try_Ret {A} (m : M S A) s r s1 :
  try m s = (Ret r, s1) → match r with inl a => m s = (Ret a, s1) | inr e => m s = (Fail e, s1) end.
Proof. unfold try. destruct (m s) as [[a|e| |] s']; try discriminate; by intros [= <- <-]. Qed.

Lemma wrap_Ret {A} p (m : M S A) s a s1 : wrap p m s = (Ret a, s1) → m s = (Ret a, s1).
Proof.
  unfold wrap. intros ([a'|e] & s' & Ht & Hr)%bind_Ret; [|discriminate Hr].
  apply try_Ret in Ht. unfold mret, M_ret in Hr. by simplify_eq.
Qed.

Lemma mret_Ret {A} (a b : A) (s s1 : S) : mret (M:=M S) a s = (Ret b, s1) → a = b ∧ s = s1.
Proof. unfold mret, M_ret. intros. by simplify_eq. Qed.

Lemma zoom_Ret {T A} (L : Lens S T) (m : M T A) s a s1 :
  zoom L m s = (Ret a, s1) → ∃ t, m (view L s) = (Ret a, t) ∧ s1 = over L t s.
Proof. unfold zoom. destruct (m (view L s)) as [r t]. intros [= -> <-]. eauto. Qed.

Lemma bind_eval {A B} (m : M S A) (k : A -> M S B) s a s1 : m s = (Ret a, s1) → (m ≫= k) s = k a s1.
Proof. unfold mbind, M_bind. by intros ->. Qed.
Lemma bind_run {A B} (m : M S A) (k : A -> M S B) s r s1 : m s = (r, s1) →
  (m ≫= k) s = match r with Ret a => k a s1 | Fail e => (Fail e, s1) | Panic => (Panic, s1) | Diverge => (Diverge, s1) end.
Proof. unfold mbind, M_bind. intros ->. by destruct r. Qed.
Lemma try_eval {A} (m : M S A) s a s1 : m s = (Ret a, s1) → try m s = (Ret (inl a), s1).
Proof. unfold try. by intros ->. Qed.
Lemma try_Fail {A} (m : M S A) s e s1 : m s = (Fail e, s1) → try m s = (Ret (inr e), s1).
Proof. unfold try. by intros ->. Qed.
Lemma wrap_eval {A} p (m : M S A) s a s1 : m s = (Ret a, s1) → wrap p m s = (Ret a, s1).
Proof. intros Hm. unfold wrap. by rewrite (bind_eval _ _ _ _ _ (try_eval _ _ _ _ Hm)). Qed.
Lemma zoom_eval {T A} (L : Lens S T) (m : M T A) s r t : m (view L s) = (r, t) → zoom L m s = (r, over L t s).
Proof. unfold zoom. by intros ->. Qed.
Lemma mret_eval {A} (a : A) (s : S) : mret (M:=M S) a s = (Ret a, s).
Proof. done. Qed.
End runs.

(** Take a successful run apart. *)
Ltac minv :=
  repeat match goal with
  | H : (_ ≫= _) _ = (Ret _, _) |- _ =>
      let a := fresh "a" in let s := fresh "s" in let H1 := fresh "Hm" in
      apply bind_Ret in H as (a & s & H1 & H)
  | H : mret _ _ = (Ret _, _) |- _ => apply mret_Ret in H as [? ?]; try subst
  | H : wrap _ _ _ = (Ret _, _) |- _ => apply wrap_Ret in H
  | H : try _ _ = (Ret _, _) |- _ => apply try_Ret in H
  | H : raise _ _ = (Ret _, _) |- _ => discriminate H
  | H : panic _ = (Ret _, _) |- _ => discriminate H
  | H : zoom _ _ _ = (Ret _, _) |- _ =>
      let t := fresh "t" in let H1 := fresh "Hz" in apply zoom_Ret in H as (t & H1 & ?); try subst
  end.

(** *** Successful calls *)

Section calls.
Context {O : Type} `{!Resource O}.
Implicit Types (o old : O) (key : NamespacedName) (c : Cluster).

Lemma findObject_insert c key o : objKey o = key → cl_objects c !! storeKey O key = Some (inject o) →
  findObject O c key = Some o.
Proof. intros Hk Hl. by apply findObject_Some. Qed.

Lemma findObject_objects c c' key : cl_objects c' = cl_objects c → findObject O c' key = findObject O c key.
Proof. unfold findObject. by intros ->. Qed.

Lemma existing_Ret c key o c' : existing key c = (Ret o, c') →
  findObject O c key = Some o ∧ cl_objects c' = cl_objects c.
Proof. intros He. apply existing_spec in He as (_ & Ho & Hr). auto. Qed.

Lemma Get_Ret c key o c' : Get O key c = (Ret o, c') → findObject O c key = Some o ∧ cl_objects c' = cl_objects c.
Proof. apply existing_Ret. Qed.

Lemma Update_Ret c o o' c' : Update o c = (Ret o', c') →
  ∃ old, findObject O c (objKey o) = Some old ∧ o' = updated old o ∧
    cl_objects c' =
      if om_Deleting (objMeta old) && bool_decide (om_Finalizers (objMeta o) = [])
      then delete (storeKey O (objKey o)) (cl_objects c)
      else <[storeKey O (objKey o) := inject o']> (cl_objects c).
Proof.
  unfold Update. intros (old & s & He & H)%bind_Ret. apply existing_Ret in He as [Hf Hs].
  case_bool_decide; [done|]. rewrite objKey_updated in H.
  assert (om_Deleting (objMeta (updated old o)) = om_Deleting (objMeta old) ∧
          om_Finalizers (objMeta (updated old o)) = om_Finalizers (objMeta o)) as [Hd Hfin].
  { unfold updated. by rewrite !objMeta_setMeta. }
  rewrite Hd, Hfin in H. exists old. split; [done|].
  destruct (_ && _); unfold mbind, M_bind, mret, M_ret in H; simplify_eq/=; by rewrite Hs.
Qed.

Lemma StatusUpdate_Ret c o o' c' : StatusUpdate o c = (Ret o', c') →
  ∃ old, findObject O c (objKey o) = Some old ∧ o' = copyStatus o old ∧
    cl_objects c' = <[storeKey O (objKey o) := inject o']> (cl_objects c).
Proof.
  unfold StatusUpdate. intros (old & s & He & H)%bind_Ret. apply existing_Ret in He as [Hf Hs].
  unfold mbind, M_bind, mret, M_ret in H. simplify_eq/=. exists old. by rewrite Hs.
Qed.

Lemma apiCall_Ret c u c' : apiCall c = (Ret u, c') → cl_objects c' = cl_objects c ∧ cl_uid c' = cl_uid c.
Proof. unfold apiCall. destruct (cl_faults c) as [|[]]; intros; by simplify_eq/=. Qed.

Lemma yields_Update o : yields (λ o', objKey o' = objKey o) (Update o).
Proof. intros c o' c' (old & _ & -> & _)%Update_Ret. apply objKey_updated. Qed.

Lemma yields_StatusUpdate o : yields (λ o', objKey o' = objKey o) (StatusUpdate o).
Proof.
  intros c o' c' (old & Hf & -> & _)%StatusUpdate_Ret. rewrite objKey_copyStatus. by eapply findObject_key.
Qed.

Lemma Create_Ret c o o' c' : Create o c = (Ret o', c') →
  findObject O c (objKey o) = None ∧ o' = created c o ∧
    cl_objects c' = <[storeKey O (objKey o) := inject o']> (cl_objects c).
Proof.
  unfold Create. intros (u & s & Ha & H)%bind_Ret. apply apiCall_Ret in Ha as [Ho Hu].
  apply bind_Ret in H as (f & s' & [= <- <-] & H).
  assert (findObject O s (objKey o) = findObject O c (objKey o)) as Hf by (by apply findObject_objects).
  rewrite Hf in H. destruct (findObject O c (objKey o)); [done|].
  unfold mbind, M_bind, mret, M_ret in H. simplify_eq/=. rewrite objKey_created, Ho.
  assert (created s o = created c o) as -> by (unfold created; by rewrite Hu). done.
Qed.

Lemma Delete_Ret c key u c' : Delete O key c = (Ret u, c') →
  ∃ old, findObject O c key = Some old ∧
    cl_objects c' = if bool_decide (om_Finalizers (objMeta old) = [])
                    then delete (storeKey O key) (cl_objects c)
                    else <[storeKey O key := inject (setMeta {| (objMeta old) with om_Deleting := true |} old)]> (cl_objects c).
Proof.
  unfold Delete. intros (old & s & He & H)%bind_Ret. apply existing_Ret in He as [Hf Hs].
  exists old. split; [done|]. unfold dropObject, putObject, modify in H.
  case_bool_decide; simplify_eq/=; by rewrite Hs.
Qed.

Lemma List_Ret c ns sel l c' : List O ns sel c = (Ret l, c') → l = listObjects O c ns sel ∧ cl_objects c' = cl_objects c.
Proof.
  unfold List. intros (u & s & Ha & [= <- <-])%bind_Ret. apply apiCall_Ret in Ha as [Ho _].
  unfold listObjects. by rewrite Ho.
Qed.

Lemma elem_of_listObjects c ns sel o : well_formed c →
  o ∈ listObjects O c ns sel ↔
  findObject O c (objKey o) = Some o ∧ inNamespace ns o = true ∧ sel ⊆ entries (om_Labels (objMeta o)).
Proof.
  intros Hw. unfold listObjects. rewrite list_elem_of_filter, list_elem_of_omap, findObject_Some. split.
  - intros (Hns & x & ((k & x') & -> & Hx)%list_elem_of_fmap & Hp). apply elem_of_map_to_list in Hx.
    split; [|done]. pose proof (inject_project _ _ Hp) as Hi. simpl in Hi. subst x'.
    pose proof (Hw _ _ Hx) as [Hk _]. rewrite keyOf_inject in Hk. by rewrite Hk, Hx.
  - intros ((Hx & _) & Hns). split; [done|]. exists (inject o). split; [|apply project_inject].
    apply list_elem_of_fmap. exists (storeKey O (objKey o), inject o). split; [done|]. by apply elem_of_map_to_list.
Qed.
End calls.

#[export] Hint Extern 1 (yields _ (Update _)) => eapply yields_Update : yields.
#[export] Hint Extern 1 (yields _ (StatusUpdate _)) => eapply yields_StatusUpdate : yields.

(** *** Calls that go through *)

Section fault_free.
Context {O : Type} `{!Resource O} (c : Cluster) (Hno : cl_faults c = []).
Implicit Types (o old : O) (key : NamespacedName).

Lemma apiCall_eval : apiCall c = (Ret tt, c).
Proof. unfold apiCall. by rewrite Hno. Qed.

Lemma existing_eval key : existing key c = (match findObject O c key with Some o => Ret o | None => Fail (notFound (O:=O) key) end, c).
Proof. unfold existing. rewrite (bind_eval _ _ _ _ _ apiCall_eval). unfold gets, mbind, M_bind. by destruct (findObject O c key). Qed.

Lemma Get_eval key : Get O key c = (match findObject O c key with Some o => Ret o | None => Fail (notFound (O:=O) key) end, c).
Proof. apply existing_eval. Qed.

Lemma GetIfExists_eval key : GetIfExists O key c = (Ret (findObject O c key), c).
Proof.
  unfold GetIfExists, mbind, M_bind, try. rewrite Get_eval.
  by destruct (findObject O c key).
Qed.

Lemma List_eval ns sel : List O ns sel c = (Ret (listObjects O c ns sel), c).
Proof. unfold List. by rewrite (bind_eval _ _ _ _ _ apiCall_eval). Qed.

Lemma Create_eval o : findObject O c (objKey o) = None →
  Create o c = (Ret (created c o), {| cl_objects := <[storeKey O (objKey o) := inject (created c o)]> (cl_objects c);
                                      cl_faults := cl_faults c; cl_uid := S (cl_uid c) |}).
Proof.
  intros Hf. unfold Create. rewrite (bind_eval _ _ _ _ _ apiCall_eval). unfold gets, mbind, M_bind. rewrite Hf.
  unfold putObject, modify, mret, M_ret. simpl. by rewrite objKey_created.
Qed.

Lemma Update_eval o old : findObject O c (objKey o) = Some old →
  om_UID (objMeta o) = "" ∨ om_UID (objMeta o) = om_UID (objMeta old) →
  Update o c =
  (Ret (updated old o),
   {| c with cl_objects :=
        if om_Deleting (objMeta old) && bool_decide (om_Finalizers (objMeta o) = [])
        then delete (storeKey O (objKey o)) (cl_objects c)
        else <[storeKey O (objKey o) := inject (updated old o)]> (cl_objects c) |}).
Proof.
  intros Hf Hu. unfold Update. rewrite (bind_eval (existing (objKey o)) _ c old c) by (by rewrite existing_eval, Hf).
  rewrite bool_decide_eq_false_2 by naive_solver. rewrite objKey_updated.
  assert (om_Deleting (objMeta (updated old o)) = om_Deleting (objMeta old) ∧
          om_Finalizers (objMeta (updated old o)) = om_Finalizers (objMeta o)) as [-> ->].
  { unfold updated. by rewrite !objMeta_setMeta. }
  by destruct (_ && _).
Qed.

(** Removing the last finalizer of an object that is being deleted removes the object. *)
Lemma Update_removes o old : findObject O c (objKey o) = Some old →
  om_UID (objMeta o) = "" ∨ om_UID (objMeta o) = om_UID (objMeta old) →
  om_Deleting (objMeta old) = true → om_Finalizers (objMeta o) = [] →
  ∃ c', Update o c = (Ret (updated old o), c') ∧ cl_faults c' = [] ∧ findObject O c' (objKey o) = None.
Proof.
  intros Hf Hu Hd Hfin. rewrite (Update_eval _ _ Hf Hu), Hd, Hfin. simpl. eexists. split_and!; [done|done|].
  unfold findObject. simpl. by rewrite lookup_delete_eq.
Qed.

Lemma StatusUpdate_eval o old : findObject O c (objKey o) = Some old →
  StatusUpdate o c =
  (Ret (copyStatus o old), {| c with cl_objects := <[storeKey O (objKey o) := inject (copyStatus o old)]> (cl_objects c) |}).
Proof.
  intros Hf. unfold StatusUpdate. by rewrite (bind_eval (existing (objKey o)) _ c old c) by (by rewrite existing_eval, Hf).
Qed.

Lemma DeleteIgnoreNotFound_eval key :
  DeleteIgnoreNotFound O key c =
  (Ret tt, {| c with cl_objects :=
      match findObject O c key with
      | Some old => if bool_decide (om_Finalizers (objMeta old) = [])
                    then delete (storeKey O key) (cl_objects c)
                    else <[storeKey O key := inject (setMeta {| (objMeta old) with om_Deleting := true |} old)]> (cl_objects c)
      | None => cl_objects c
      end |}).
Proof.
  unfold DeleteIgnoreNotFound, Delete, mbind, M_bind, try. rewrite existing_eval.
  destruct (findObject O c key) as [old|] eqn:Hf.
  - by case_bool_decide.
  - simpl. by destruct c.
Qed.
End fault_free.

(** ** Triples

    [triple P m Q E]: started in a state with [P], a run of [m] that returns ends with [Q],
    any other run ends with [E]. *)

Definition triple {S A} (P : S -> Prop) (m : M S A) (Q : A -> S -> Prop) (E : S -> Prop) : Prop :=
  ∀ s, P s → match m s with (Ret a, s') => Q a s' | (_, s') => E s' end.

Section triples.
Context {S : Type}.
Implicit Types (P E : S -> Prop).

Lemma triple_ret {A} P (Q : A -> S -> Prop) E a : (∀ s, P s → Q a s) → triple P (mret a) Q E.
Proof. intros HQ s Hs. by apply HQ. Qed.

Lemma triple_bind {A B} P (Q : A -> S -> Prop) (Q' : B -> S -> Prop) E m k :
  triple P m Q E → (∀ a, triple (Q a) (k a) Q' E) → triple P (m ≫= k) Q' E.
Proof.
  intros Hm Hk s Hs. specialize (Hm s Hs). unfold mbind, M_bind.
  destruct (m s) as [[a|e| |] s1]; try done. by apply Hk.
Qed.

Lemma triple_try {A} P (Q : A -> S -> Prop) E m :
  triple P m Q E → triple P (try m) (λ r s, match r with inl a => Q a s | inr _ => E s end) E.
Proof. intros Hm s Hs. specialize (Hm s Hs). unfold try. by destruct (m s) as [[]]. Qed.

Lemma triple_wrap {A} P (Q : A -> S -> Prop) E p m : triple P m Q E → triple P (wrap p m) Q E.
Proof.
  intros Hm. eapply triple_bind; [by apply triple_try|]. intros [a|e]; [by apply triple_ret|]. by intros s Hs.
Qed.

Lemma triple_weaken {A} (P P' : S -> Prop) (Q Q' : A -> S -> Prop) (E E' : S -> Prop) m :
  triple P m Q E → (∀ s, P' s → P s) → (∀ a s, Q a s → Q' a s) → (∀ s, E s → E' s) → triple P' m Q' E'.
Proof.
  intros Hm HP HQ HE s Hs. specialize (Hm s (HP s Hs)). destruct (m s) as [[a|e| |] s1]; auto.
Qed.

(** What holds after a run, however it ends *)
Lemma triple_end {A} P (m : M S A) (Q : A -> S -> Prop) E (R : S -> Prop) s :
  triple P m Q E → P s → (∀ a s', Q a s' → R s') → (∀ s', E s' → R s') → R (m s).2.
Proof. intros Hm HP HQ HE. specialize (Hm s HP). destruct (m s) as [[a|e| |] s1]; simpl; eauto. Qed.

Lemma triple_pure {A} (φ : Prop) P (m : M S A) (Q : A -> S -> Prop) E :
  (φ → triple P m Q E) → triple (λ s, P s ∧ φ) m Q E.
Proof. intros Hm s [Hs Hφ]. by apply Hm. Qed.

(** A program within a relation that preserves [P] *)
Lemma triple_within {A} R P (m : M S A) : (∀ s s', R s s' → P s → P s') → within R m → triple P m (λ _, P) P.
Proof. intros HR Hm s Hs. specialize (Hm s). destruct (m s) as [[a|e| |] s1]; by eapply HR. Qed.

(** The frame rule: what the steps of the program leave alone *)
Lemma triple_frame {A} R (J : S -> Prop) P (m : M S A) (Q : A -> S -> Prop) E :
  triple P m Q E → (∀ s s', R s s' → J s → J s') → within R m → triple (λ s, P s ∧ J s) m (λ a s, Q a s ∧ J s) E.
Proof.
  intros Ht HJ Hm s [HP Hs]. specialize (Ht s HP). specialize (Hm s). destruct (m s) as [[a|e| |] s1]; try done.
  split; [done|by eapply HJ].
Qed.

Lemma triple_when P E b m : triple P m (λ _, P) E → triple P (when b m) (λ _, P) E.
Proof. destruct b; [done|]. intros _. by apply triple_ret. Qed.

Lemma triple_yields {A} P (Q : A -> S -> Prop) E (q : A -> Prop) m :
  triple P m Q E → yields q m → triple P m (λ a s, q a ∧ Q a s) E.
Proof.
  intros Hm Hy s Hs. specialize (Hm s Hs). destruct (m s) as [[a|e| |] s1] eqn:Hr; try done. split; [by eapply Hy|done].
Qed.

Lemma triple_retry {A} P n (m : M S A) Q : triple P m Q P → triple P (retryOnConflict n m) Q P.
Proof.
  intros Hm. induction n as [|n IH]; [done|]. eapply triple_bind; [by apply triple_try|].
  intros [a|e]; [by apply triple_ret|]. destruct (IsConflict e); [done|]. by intros s Hs.
Qed.

Lemma triple_zoom {T A} (L : Lens S T) (P' : T -> Prop) (Q : A -> T -> Prop) (E' : T -> Prop) (m : M T A) `{!LensLaws L} :
  triple P' m Q E' → triple (λ s, P' (view L s)) (zoom L m) (λ a s, Q a (view L s)) (λ s, E' (view L s)).
Proof.
  intros Hm s Hs. specialize (Hm _ Hs). unfold zoom. destruct (m (view L s)) as [[a|e| |] t]; by rewrite view_over.
Qed.
End triples.

(** *** Truthful answers and deletions *)

(** A call answers [NotFound] only when there is no such object. *)
Definition truthful (c : Cluster) : Prop :=
  Forall (λ f, match f with Some e => IsNotFound e = false | None => True end) (cl_faults c).

(** No object of that name is left, except one that waits for its finalizers. *)
Definition gone (O : Type) `{!Resource O} (key : NamespacedName) (c : Cluster) : Prop :=
  ∀ o, findObject O c key = Some o → om_Deleting (objMeta o) = true.

Lemma truthful_changes K c c' : changes K c c' → truthful c → truthful c'.
Proof. intros [_ _ [l Hl]] Ht. unfold truthful in *. rewrite Hl in Ht. by apply Forall_app in Ht as [_ ?]. Qed.

Section deletions.
Context {O : Type} `{!Resource O}.
Implicit Types (o : O) (key : NamespacedName) (c : Cluster).

Lemma findObject_frame K c c' key : changes K c c' → ¬ K (storeKey O key) → findObject O c' key = findObject O c key.
Proof. intros [Hf _ _] Hk. unfold findObject. by rewrite Hf. Qed.

Lemma gone_frame K c c' key : changes K c c' → ¬ K (storeKey O key) → gone O key c → gone O key c'.
Proof. intros Hc Hk Hg o. rewrite (findObject_frame K c); eauto. Qed.

Lemma existing_Fail c key e c' : existing (O:=O) key c = (Fail e, c') → truthful c → IsNotFound e = true → findObject O c key = None.
Proof.
  unfold existing, mbind, M_bind, apiCall, gets, raise, truthful. intros He Ht Hn.
  destruct (cl_faults c) as [|[e'|] fs] eqn:Hf; simplify_eq/=.
  - by destruct (findObject O c key); simplify_eq/=.
  - apply Forall_cons_1 in Ht as [Ht _]. congruence.
  - change (findObject O {| c with cl_faults := fs |} key) with (findObject O c key) in He.
    by destruct (findObject O c key); simplify_eq/=.
Qed.

Lemma existing_bind_Fail {B} key (k : O -> M Cluster B) c e c' :
  (existing key ≫= k) c = (Fail e, c') →
  (existing key c = (Fail e, c')) ∨ ∃ o c1, existing key c = (Ret o, c1) ∧ k o c1 = (Fail e, c').
Proof. unfold mbind, M_bind. destruct (existing key c) as [[o|e'| |] c1]; naive_solver. Qed.

(** A deletion that fails changes nothing; its error is [NotFound] or the answer to a call. *)
Lemma Delete_Fail key c e c' : Delete O key c = (Fail e, c') →
  changes nothing c c' ∧ (IsNotFound e = true ∨ Some e ∈ cl_faults c).
Proof.
  intros [He|(o & c1 & _ & Hk)]%existing_bind_Fail; [|by case_bool_decide].
  split; [by apply existing_spec in He as [? _]|]. revert He. unfold existing, mbind, M_bind, apiCall, gets, raise.
  destruct (cl_faults c) as [|[e'|] fs]; simpl; [|intros [= <- _]; right; by left|];
    (destruct (findObject O _ key); [by intros|intros [= <- _]; by left]).
Qed.

Lemma DeleteIgnoreNotFound_gone key c u c' :
  truthful c → DeleteIgnoreNotFound O key c = (Ret u, c') → gone O key c'.
Proof.
  unfold DeleteIgnoreNotFound. intros Ht H. minv. destruct a as [[]|e]; minv.
  - apply Delete_Ret in Hm as (old & Hf & Ho). intros o Hf'. apply findObject_Some in Hf' as [Hl _].
    rewrite Ho in Hl. case_bool_decide; simplify_map_eq.
    apply (f_equal project) in Hl. rewrite !project_inject in Hl. simplify_eq. by rewrite objMeta_setMeta.
  - destruct (IsNotFound e) eqn:Hn; minv. unfold Delete in Hm. apply existing_bind_Fail in Hm as [He|(o & c1 & _ & Hk)].
    + pose proof (existing_Fail _ _ _ _ He Ht Hn) as Hnone. apply existing_spec in He as (_ & Ho & _).
      intros o. rewrite (findObject_objects c) by done. by rewrite Hnone.
    + by case_bool_decide.
Qed.

Lemma Update_not_Ret o c r c' : Update o c = (r, c') → (∀ o', r ≠ Ret o') → cl_objects c' = cl_objects c.
Proof.
  unfold Update, mbind, M_bind. destruct (existing (objKey o) c) as [r1 c1] eqn:He.
  apply existing_spec in He as (_ & Ho & _). destruct r1 as [old|e| |]; try by intros [= <- <-].
  case_bool_decide; [by intros [= <- <-]|]. destruct (_ && _); intros [= <- <-] Hn; by destruct (Hn _ eq_refl).
Qed.
End deletions.

Section deletion_triples.
Context {O : Type} `{!Resource O}.

Lemma StatusUpdate_not_Ret (o : O) c r c' : StatusUpdate o c = (r, c') → (∀ o', r ≠ Ret o') → cl_objects c' = cl_objects c.
Proof.
  unfold StatusUpdate, mbind, M_bind. destruct (existing (objKey o) c) as [r1 c1] eqn:He.
  apply existing_spec in He as (_ & Ho & _). destruct r1 as [old|e| |]; try by intros [= <- <-].
  intros [= <- <-] Hn. by destruct (Hn _ eq_refl).
Qed.

(** Deleting, with an invariant that does not look at the deleted object *)
Lemma triple_delete_gone (I : Cluster -> Prop) (key : NamespacedName) :
  (∀ c c', changes (eq (storeKey O key)) c c' → I c → I c') → (∀ c, I c → truthful c) →
  triple I (DeleteIgnoreNotFound O key) (λ _ c, I c ∧ gone O key c) I.
Proof.
  intros HI Ht c Hc. pose proof (within_DeleteIgnoreNotFound (O:=O) (eq (storeKey O key)) key eq_refl c) as Hw.
  destruct (DeleteIgnoreNotFound O key c) as [[u|e| |] c'] eqn:Hr; simpl in Hw; try by eapply HI.
  split; [by eapply HI|]. by eapply DeleteIgnoreNotFound_gone; [apply Ht|].
Qed.
End deletion_triples.

(** A deletion whose call goes through *)
Lemma DeleteIgnoreNotFound_ok {O : Type} `{!Resource O} (key : NamespacedName) c : cl_faults c = [] →
  ∃ c', DeleteIgnoreNotFound O key c = (Ret tt, c') ∧ changes (eq (storeKey O key)) c c' ∧ cl_faults c' = [].
Proof.
  intros Hno. eexists. pose proof (within_DeleteIgnoreNotFound (O:=O) (eq (storeKey O key)) key eq_refl c) as Hw.
  rewrite DeleteIgnoreNotFound_eval in Hw |- * by done. by split_and!.
Qed.

Lemma changes_nothing c c' : changes nothing c c' → cl_objects c' = cl_objects c.
Proof. intros [Hf _ _]. apply map_eq. intros k. apply Hf. by intros []. Qed.

(** A successful run of a program that only reads *)
Lemma read_objects {A} (m : M Cluster A) c r c' : within (changes nothing) m → m c = (r, c') → cl_objects c' = cl_objects c.
Proof. intros Hm Hr. specialize (Hm c). rewrite Hr in Hm. by apply changes_nothing. Qed.

(** *** Writes that go through, by what they leave stored *)

Section stored.
Context {O : Type} `{!Resource O} (c : Cluster) (Hno : cl_faults c = []).
Implicit Types (o old : O).

Lemma Create_stored o : findObject O c (objKey o) = None →
  ∃ c', Create o c = (Ret (created c o), c') ∧ changes (eq (storeKey O (objKey o))) c c' ∧ cl_faults c' = [] ∧
    findObject O c' (objKey o) = Some (created c o).
Proof.
  intros Hf. pose proof (within_Create (O:=O) (eq (storeKey O (objKey o))) o eq_refl c) as Hw.
  rewrite (Create_eval c Hno _ Hf) in *. eexists. split_and!; [done|done|done|].
  apply findObject_insert; [apply objKey_created|]. simpl. by rewrite lookup_insert_eq.
Qed.

(** An update that leaves a finalizer, or is not about an object being deleted *)
Lemma Update_stored o old : findObject O c (objKey o) = Some old →
  om_UID (objMeta o) = "" ∨ om_UID (objMeta o) = om_UID (objMeta old) →
  (om_Deleting (objMeta old) = true → om_Finalizers (objMeta o) ≠ []) →
  ∃ c', Update o c = (Ret (updated old o), c') ∧ changes (eq (storeKey O (objKey o))) c c' ∧ cl_faults c' = [] ∧
    findObject O c' (objKey o) = Some (updated old o).
Proof.
  intros Hf Hu Hd. pose proof (within_Update (O:=O) (eq (storeKey O (objKey o))) o eq_refl c) as Hw.
  rewrite (Update_eval c Hno _ _ Hf Hu) in *. eexists. split_and!; [done|done|done|].
  apply findObject_insert; [apply objKey_updated|]. simpl.
  destruct (om_Deleting (objMeta old)); simpl; [|by rewrite lookup_insert_eq].
  rewrite bool_decide_eq_false_2 by auto. by rewrite lookup_insert_eq.
Qed.

Lemma StatusUpdate_stored o old : findObject O c (objKey o) = Some old →
  ∃ c', StatusUpdate o c = (Ret (copyStatus o old), c') ∧ changes (eq (storeKey O (objKey o))) c c' ∧ cl_faults c' = [] ∧
    findObject O c' (objKey o) = Some (copyStatus o old).
Proof.
  intros Hf. pose proof (within_StatusUpdate (O:=O) (eq (storeKey O (objKey o))) o eq_refl c) as Hw.
  rewrite (StatusUpdate_eval c Hno _ _ Hf) in *. eexists. split_and!; [done|done|done|].
  apply findObject_insert; [|simpl; by rewrite lookup_insert_eq]. rewrite objKey_copyStatus. by eapply findObject_key.
Qed.
End stored.

Lemma retry_eval {S A} (m : M S A) s a s1 : m s = (Ret a, s1) → RetryOnConflict m s = (Ret a, s1).
Proof. intros Hm. unfold RetryOnConflict. simpl. by rewrite (bind_eval _ _ _ _ _ (try_eval _ _ _ _ Hm)). Qed.

Lemma entries_wireMap m : entries (wireMap m) = entries m.
Proof. unfold wireMap. destruct m as [a|]; [|done]. by case_bool_decide as Ha; [rewrite Ha|]. Qed.

(** A listing has every object once. *)
Lemma NoDup_listObjects {O : Type} `{!Resource O} c ns sel : well_formed c → NoDup (objKey <$> listObjects O c ns sel).
Proof.
  intros Hw. unfold listObjects. apply NoDup_fmap_filter.
  assert (∀ k x, (k, x) ∈ map_to_list (cl_objects c) → keyOf x = k) as Hk.
  { intros k x Hx%elem_of_map_to_list. apply (Hw _ _ Hx). }
  pose proof (NoDup_fst_map_to_list (cl_objects c)) as Hnd. revert Hk Hnd.
  generalize (map_to_list (cl_objects c)). intros l. induction l as [|[k x] l IH]; intros Hk Hnd; simpl; [constructor|].
  apply NoDup_cons in Hnd as [Hn Hnd]. assert (∀ k x, (k, x) ∈ l → keyOf x = k) as Hk' by (intros; apply Hk; by right).
  destruct (project x) as [o|] eqn:Hp; [|by apply IH]. rewrite fmap_cons. apply NoDup_cons. split; [|by apply IH].
  intros (o' & Ho & Hin)%list_elem_of_fmap. apply list_elem_of_omap in Hin as (x' & ((k' & ?) & -> & Hx')%list_elem_of_fmap & Hp').
  simpl in *. destruct Hn. apply list_elem_of_fmap. exists (k', o0). split; [|done]. simpl.
  rewrite <-(Hk k x ltac:(by left)), <-(Hk' _ _ Hx'), (inject_project _ _ Hp), (inject_project _ _ Hp'), !keyOf_inject. by rewrite Ho.
Qed.

(** A program that goes through whenever its calls do, and changes objects in [K] only *)
Definition succeeds {A} (K : ObjectKey -> Prop) (m : M Cluster A) : Prop := ∀ c, cl_faults c = [] →
  ∃ a c', m c = (Ret a, c') ∧ changes K c c' ∧ cl_faults c' = [].

Lemma succeeds_ret {A} K (a : A) : succeeds K (mret a).
Proof. intros c Hno. by exists a, c. Qed.
Lemma succeeds_wrap {A} K p (m : M Cluster A) : succeeds K m → succeeds K (wrap p m).
Proof. intros Hm c Hno. destruct (Hm c Hno) as (a & c' & Hr & Hc). exists a, c'. split; [by apply wrap_eval|done]. Qed.
Lemma succeeds_bind {A B} K (m : M Cluster A) (k : A -> M Cluster B) :
  succeeds K m → (∀ a, succeeds K (k a)) → succeeds K (m ≫= k).
Proof.
  intros Hm Hk c Hno. destruct (Hm c Hno) as (a & c1 & Hr & Hc & Hno1). destruct (Hk a c1 Hno1) as (b & c2 & Hr2 & Hc2 & Hno2).
  exists b, c2. split_and!; [by rewrite (bind_eval _ _ _ _ _ Hr)|by etrans|done].
Qed.
Lemma succeeds_forM_ {X} K (l : list X) f : (∀ x, x ∈ l → succeeds K (f x)) → succeeds K (forM_ l f).
Proof.
  intros Hf. induction l as [|x l IH]; [apply succeeds_ret|].
  apply succeeds_bind; [apply Hf; by left|]. intros _. apply IH. intros y Hy. apply Hf. by right.
Qed.
Lemma succeeds_bind_yields {A B} K (Q : A -> Prop) (m : M Cluster A) (k : A -> M Cluster B) :
  succeeds K m → yields Q m → (∀ a, Q a → succeeds K (k a)) → succeeds K (m ≫= k).
Proof.
  intros Hm Hy Hk c Hno. destruct (Hm c Hno) as (a & c1 & Hr & Hc & Hno1). destruct (Hk a (Hy _ _ _ Hr) c1 Hno1) as (b & c2 & Hr2 & Hc2 & Hno2).
  exists b, c2. split_and!; [by rewrite (bind_eval _ _ _ _ _ Hr)|by etrans|done].
Qed.
Lemma succeeds_forM {X A} K (l : list X) (f : X -> M Cluster A) : (∀ x, x ∈ l → succeeds K (f x)) → succeeds K (forM l f).
Proof.
  intros Hf. induction l as [|x l IH]; [apply succeeds_ret|].
  apply succeeds_bind; [apply Hf; by left|]. intros a. apply succeeds_bind; [|intros; apply succeeds_ret].
  apply IH. intros y Hy. apply Hf. by right.
Qed.
Lemma succeeds_foldM {X A} K (l : list X) (f : A -> X -> M Cluster A) b : (∀ b x, x ∈ l → succeeds K (f b x)) → succeeds K (foldM f b l).
Proof.
  revert b. induction l as [|x l IH]; intros b Hf; [apply succeeds_ret|].
  apply succeeds_bind; [apply Hf; by left|]. intros b'. apply IH. intros b1 y Hy. apply Hf. by right.
Qed.
Lemma succeeds_GetIfExists (O : Type) `{!Resource O} K key : succeeds K (GetIfExists O key).
Proof. intros c Hno. eexists _, c. split; [by apply GetIfExists_eval|done]. Qed.
Lemma succeeds_delete (O : Type) `{!Resource O} (K : ObjectKey -> Prop) key :
  K (storeKey O key) → succeeds K (DeleteIgnoreNotFound O key).
Proof.
  intros HK c Hno. destruct (DeleteIgnoreNotFound_ok (O:=O) key c Hno) as (c' & Hr & Hc & Hno'). exists tt, c'.
  split_and!; [done| |done]. eapply changes_weaken; [|exact Hc]. by intros ? <-.
Qed.

(** Run the first step of a sequence with [tac]. *)
Ltac step_eval tac := erewrite bind_eval; [cbv beta iota|solve [tac]].

(** A read gives a value or an error. *)
Lemma try_Get_total (O : Type) `{!Resource O} key c : ∃ found c', try (Get O key) c = (Ret found, c') ∧ changes nothing c c'.
Proof.
  pose proof (within_Get (O:=O) nothing key c) as Hw. unfold try.
  destruct (Get O key c) as [[o|e| |] c'] eqn:Hg; [by eexists _, c'|by eexists _, c'|..]; exfalso;
    unfold Get, existing, apiCall, mbind, M_bind, gets, mret, M_ret, raise in Hg; repeat case_match; simplify_eq/=.
Qed.
