(* ===== verification/Finalizers.v ===== *)
(** * Finalizers

    A controller puts a finalizer on an object before it creates anything for it, and takes
    it off after everything is deleted. This file holds the reasoning the controllers share:
    what keeps an object with its finalizer, through successful and failing calls. *)

From S2P Require Import Prelude GoStrings Api GatewayApi Kube.
Local Open Scope go_scope.

Section finalizer.
Context (O : Type) `{!Resource O} (finalizer : string) (req : NamespacedName).
Implicit Types (o : O) (c : Cluster).

(** The object is there, with the finalizer. *)
Definition finalized (c : Cluster) : Prop :=
  ∃ o, findObject O c req = Some o ∧ finalizer ∈ om_Finalizers (objMeta o).

(** Before the finalizer is removed, with a server that reports [NotFound] truthfully *)
Definition waiting (c : Cluster) : Prop := truthful c ∧ finalized c.

(** The object in hand has the finalizer, and so has the stored one. *)
Definition holds (o : O) (c : Cluster) : Prop :=
  (objKey o = req ∧ finalizer ∈ om_Finalizers (objMeta o)) ∧ finalized c.

Lemma finalized_frame K c c' : changes K c c' → ¬ K (storeKey O req) → finalized c → finalized c'.
Proof. intros Hc HK (o & Hf & Hin). exists o. by rewrite (findObject_frame K c). Qed.

Lemma finalized_objects c c' : cl_objects c' = cl_objects c → finalized c → finalized c'.
Proof. intros Ho (o & Hf & Hin). exists o. by rewrite (findObject_objects c). Qed.

Lemma waiting_frame K c c' : changes K c c' → ¬ K (storeKey O req) → waiting c → waiting c'.
Proof. intros Hc HK [Ht Hf]. split; [by eapply truthful_changes|by eapply finalized_frame]. Qed.

Lemma triple_finalized_frame {A} K (m : M Cluster A) :
  ¬ K (storeKey O req) → within (changes K) m → triple finalized m (λ _, finalized) finalized.
Proof. intros HK. apply triple_within. intros c c' Hc. by eapply finalized_frame. Qed.

Lemma triple_finalized_Update o : objKey o = req → finalizer ∈ om_Finalizers (objMeta o) →
  triple finalized (Update o) (λ o' c, holds o' c) finalized.
Proof.
  intros Hk Hin c Hc. destruct (Update o c) as [r c'] eqn:Hu.
  destruct r as [o'|e| |]; [|(eapply finalized_objects; [exact (Update_not_Ret _ _ _ _ Hu ltac:(discriminate))|done])..].
  apply Update_Ret in Hu as (old & Hf & -> & Ho).
  assert (om_Finalizers (objMeta (updated old o)) = om_Finalizers (objMeta o)) as Hfin.
  { unfold updated. by rewrite objMeta_setMeta. }
  assert (bool_decide (om_Finalizers (objMeta o) = []) = false) as Hne.
  { apply bool_decide_eq_false. intros He. rewrite He in Hin. by apply elem_of_nil in Hin. }
  rewrite Hne, andb_false_r in Ho. repeat split; [by rewrite objKey_updated|by rewrite Hfin|].
  exists (updated old o). rewrite Hfin. split; [|done]. apply findObject_insert; [by rewrite objKey_updated|].
  by rewrite Ho, Hk, lookup_insert_eq.
Qed.

Lemma triple_finalized_StatusUpdate o : objKey o = req →
  triple finalized (StatusUpdate o) (λ o' c, holds o' c) finalized.
Proof.
  intros Hk c Hc. destruct (StatusUpdate o c) as [r c'] eqn:Hu.
  destruct r as [o'|e| |]; [|(eapply finalized_objects; [exact (StatusUpdate_not_Ret _ _ _ _ Hu ltac:(discriminate))|done])..].
  apply StatusUpdate_Ret in Hu as (old & Hf & -> & Ho). destruct Hc as (o0 & Hf0 & Hin).
  rewrite Hk in *. rewrite Hf in Hf0. injection Hf0 as <-.
  assert (objKey (copyStatus o old) = req) as Hk'. { rewrite objKey_copyStatus. by eapply findObject_key. }
  repeat split; [done|by rewrite objMeta_copyStatus|]. exists (copyStatus o old). rewrite objMeta_copyStatus. split; [|done].
  apply findObject_insert; [done|]. by rewrite Ho, lookup_insert_eq.
Qed.

Lemma triple_holds {A} o (m : M Cluster A) (Q : A -> Cluster -> Prop) :
  (objKey o = req → finalizer ∈ om_Finalizers (objMeta o) → triple finalized m Q finalized) →
  triple (holds o) m Q finalized.
Proof. intros Hm c [[Hk Hin] Hf]. by apply Hm. Qed.

(** A program that leaves the object alone *)
Lemma triple_holds_frame {A} o K (m : M Cluster A) :
  ¬ K (storeKey O req) → within (changes K) m → triple (holds o) m (λ _, holds o) finalized.
Proof.
  intros HK Hm. apply triple_holds. intros Hk Hin.
  apply (triple_weaken finalized finalized (λ _, finalized) _ finalized finalized); [|done|by intros ? c Hc|done].
  by eapply triple_finalized_frame.
Qed.

Lemma triple_waiting_frame {A} K (m : M Cluster A) :
  ¬ K (storeKey O req) → within (changes K) m → triple waiting m (λ _, waiting) finalized.
Proof.
  intros HK Hm. assert (triple waiting m (λ _, waiting) waiting) as Ht; [|by eapply triple_weaken; [done..|intros c [_ ?]]].
  eapply (triple_within (changes K) waiting), Hm. intros c c' Hc. by eapply waiting_frame.
Qed.

Lemma triple_waiting_read {A} (m : M Cluster A) :
  within (changes nothing) m → triple waiting m (λ _, waiting) finalized.
Proof. apply (triple_waiting_frame nothing). by intros []. Qed.

(** Reading the object itself *)
Lemma triple_read o :
  triple (λ c, waiting c ∧ findObject O c req = Some o) (try (Get O req))
    (λ r c, waiting c ∧ match r with inl o' => o' = o | inr _ => True end) finalized.
Proof.
  intros c [Hw Hf]. pose proof (within_Get (O:=O) nothing req c) as Hc.
  assert (waiting (Get O req c).2) as Hw'. { apply (waiting_frame nothing c); [done|by intros []|done]. }
  unfold try. destruct (Get O req c) as [[o'|e| |] c1] eqn:Hg; try by destruct Hw'.
  split; [done|]. apply Get_Ret in Hg as [Hg _]. congruence.
Qed.

(** Deleting something else, and remembering that it is gone *)
Lemma triple_waiting_delete (D : Type) `{!Resource D} (I : Cluster -> Prop) (key : NamespacedName) :
  storeKey D key ≠ storeKey O req →
  (∀ c c', changes (eq (storeKey D key)) c c' → I c → I c') →
  triple (λ c, waiting c ∧ I c) (DeleteIgnoreNotFound D key) (λ _ c, waiting c ∧ I c ∧ gone D key c) finalized.
Proof.
  intros Hne HI. eapply triple_weaken; [apply (triple_delete_gone (λ c, waiting c ∧ I c))|done| |by intros c [[_ ?] _]].
  - intros c c' Hc [Hw Hi]. split; [by eapply waiting_frame|by eapply HI].
  - by intros c [[? _] _].
  - intros _ c [[Hw Hi] Hg]. by split_and!.
Qed.

(** Deleting a list of objects *)
Lemma triple_waiting_deletes (D : Type) `{!Resource D} (I : Cluster -> Prop) {X} (f : X -> M Cluster unit) (key : X -> NamespacedName)
  (l : list X) :
  (∀ x, f x = DeleteIgnoreNotFound D (key x) ∨ ∃ p, f x = wrap p (DeleteIgnoreNotFound D (key x))) →
  (∀ k, storeKey D k ≠ storeKey O req) → (∀ k c c', changes (eq (storeKey D k)) c c' → I c → I c') →
  triple (λ c, waiting c ∧ I c) (forM_ l f) (λ _ c, waiting c ∧ I c ∧ ∀ x, x ∈ l → gone D (key x) c) finalized.
Proof.
  intros Hfx Hne HI. assert (∀ gs, triple (λ c, waiting c ∧ I c ∧ ∀ x, x ∈ gs → gone D (key x) c) (forM_ l f)
    (λ _ c, waiting c ∧ I c ∧ ∀ x, x ∈ gs ++ l → gone D (key x) c) finalized) as Hall.
  2: { eapply triple_weaken; [apply (Hall [])| |done|done]. intros c [? ?]. split_and!; [done..|]. intros x Hx. by apply elem_of_nil in Hx. }
  induction l as [|x l IH]; intros gs; simpl; [apply triple_ret; intros c; by rewrite app_nil_r|].
  eapply (triple_bind _ (λ _ c, (waiting c ∧ I c ∧ ∀ y, y ∈ gs → key y ≠ key x → gone D (key y) c) ∧ gone D (key x) c));
    [|intros u; eapply triple_weaken; [apply (IH (gs ++ [x]))| |intros v c; by rewrite <-app_assoc|done]].
  - assert (triple (λ c, waiting c ∧ I c ∧ ∀ y, y ∈ gs → gone D (key y) c) (DeleteIgnoreNotFound D (key x))
      (λ _ c, (waiting c ∧ I c ∧ ∀ y, y ∈ gs → key y ≠ key x → gone D (key y) c) ∧ gone D (key x) c) finalized) as Hx.
    { eapply triple_weaken; [apply (triple_delete_gone (λ c, waiting c ∧ I c ∧ ∀ y, y ∈ gs → key y ≠ key x → gone D (key y) c))| | |].
      - intros c c' Hc (Hw & Hi & Hg). split_and!; [by eapply waiting_frame|by eapply HI|]. intros y Hy Hn.
        eapply gone_frame; [exact Hc| |by apply Hg]. by intros [= ?].
      - by intros c [[? _] _].
      - intros c (? & ? & Hg). split_and!; auto.
      - done.
      - by intros c [[_ ?] _]. }
    destruct (Hfx x) as [-> |[p ->]]; [exact Hx|apply triple_wrap, Hx].
  - intros c ((Hw & Hi & Hg) & Hgx). split_and!; [done..|]. intros y [Hy|Hy%list_elem_of_singleton]%elem_of_app; [|by subst].
    destruct (decide (key y = key x)) as [->|Hn]; [done|by apply Hg].
Qed.

(** Reading the object if it exists *)
Lemma triple_read_if_exists o :
  triple (λ c, waiting c ∧ findObject O c req = Some o) (GetIfExists O req)
    (λ r c, waiting c ∧ match r with Some o' => o' = o | None => True end) finalized.
Proof.
  unfold GetIfExists. eapply triple_bind; [apply triple_read|]. intros [o'|e]; [by apply triple_ret|].
  destruct (IsNotFound e); [apply triple_ret; by intros c [? _]|]. by intros c [[_ ?] _].
Qed.

(** The update that takes the finalizer off: it fails and the finalizer stays, or what was
    known of other objects still holds. *)
Lemma triple_release (I : Cluster -> Prop) o : (∀ c c', changes (eq (storeKey O (objKey o))) c c' → I c → I c') →
  triple (λ c, waiting c ∧ I c) (Update o) (λ _ c, I c) finalized.
Proof.
  intros HI c ([_ Hf] & Hi).
  pose proof (within_Update (eq (storeKey O (objKey o))) o eq_refl c) as Hw.
  destruct (Update o c) as [r c'] eqn:Hu. simpl in Hw.
  destruct r as [o'|e| |]; [by eapply HI|(eapply finalized_objects; [exact (Update_not_Ret _ _ _ _ Hu ltac:(discriminate))|done])..].
Qed.
End finalizer.
