(* ===== verification/Services.v ===== *)
(** * Services

    [internal/resources/service/service.go]: the Services the CCM hands over with a route
    and the Services the manager generates for them in the management cluster. *)

From S2P Require Import Prelude GoStrings Api GatewayApi Names PortAllocator Annotations Kube.
Local Open Scope go_scope.

Definition ServiceTypeClusterIP : string := "ClusterIP".
Definition ServiceTypeNodePort : string := "NodePort".
Definition ServiceTypeLoadBalancer : string := "LoadBalancer".
Definition ClusterIPNone : string := "None".
Definition LabelAppKubernetesName : string := "app.kubernetes.io/name".
Definition LabelAppKubernetesInstance : string := "app.kubernetes.io/instance".
Definition LabelAppKubernetesManagedBy : string := "app.kubernetes.io/managed-by".
Definition LabelLoadBalancerName : string := "kubelb.k8c.io/lb-name".
Definition LabelLoadBalancerNamespace : string := "kubelb.k8c.io/lb-namespace".

(** [fmt.Sprintf("%s-nodeport", name)] *)
Definition NodePortServicePattern (name : string) : string := name ⊕ "-nodeport".

Definition GetServiceName (service : Service) : string :=
  match om_Labels (svc_Meta service) with
  | Some labels => default (om_Name (svc_Meta service)) (labels !! LabelOriginName)
  | None => om_Name (svc_Meta service)
  end.

Definition GetServiceNamespace (service : Service) : string :=
  match om_Labels (svc_Meta service) with
  | Some labels => default (om_Namespace (svc_Meta service)) (labels !! LabelOriginNamespace)
  | None => om_Namespace (svc_Meta service)
  end.

Definition cleanseService (svc : Service) (removeUID removeClusterSpecificFields : bool) : Service :=
  let m := svc_Meta svc in
  let obj :=
    {| svc with
         svc_Meta := objectMeta (om_Name m) (om_Namespace m) (om_UID m) (om_Labels m)
                       (delete LastAppliedConfigAnnotation <$> om_Annotations m);
         svc_Ingress := [] |} in
  let obj :=
    if bool_decide (svc_ClusterIP obj = ClusterIPNone) then obj
    else {| obj with svc_ClusterIP := ""; svc_ClusterIPs := [] |} in
  let obj := if removeUID then {| obj with svc_Meta := {| (svc_Meta obj) with om_UID := "" |} |} else obj in
  if removeClusterSpecificFields
  then {| obj with svc_IPFamilies := []; svc_IPFamilyPolicy := None; svc_SessionAffinity := "";
                   svc_ExternalTrafficPolicy := ""; svc_InternalTrafficPolicy := None |}
  else obj.

(** [equality.Semantic.DeepEqual] takes a nil map for an empty one. *)
Definition mapsEqual (a b : GoMap) : bool := bool_decide (entries a = entries b).

(** The spec of a Service; [svc_Ingress] and the metadata are blanked out. *)
Definition serviceSpec (s : Service) : Service :=
  {| s with svc_Meta := objectMeta "" "" "" None None; svc_Selector := Some (entries (svc_Selector s)); svc_Ingress := [] |}.
Definition serviceSpecEqual (a b : Service) : bool := bool_decide (serviceSpec a = serviceSpec b).

Definition keepClusterIP (obj existingObj : Service) : Service :=
  if bool_decide (svc_ClusterIP obj = "" ∧ svc_ClusterIP existingObj ≠ "")
  then {| obj with svc_ClusterIP := svc_ClusterIP existingObj; svc_ClusterIPs := svc_ClusterIPs existingObj |}
  else obj.

(** The object as the call leaves it: what the server answered, or the argument *)
Definition CreateOrUpdateService (obj : Service) : M Cluster Service :=
  found ← wrap "failed to get Service" (GetIfExists Service (objKey obj));
  match found with
  | None => wrap "failed to create Service" (Create obj)
  | Some existingObj =>
      let obj := keepClusterIP obj existingObj in
      if serviceSpecEqual existingObj obj
         && mapsEqual (om_Labels (svc_Meta existingObj)) (om_Labels (svc_Meta obj))
         && mapsEqual (om_Annotations (svc_Meta existingObj)) (om_Annotations (svc_Meta obj))
      then mret obj
      else
        wrap "failed to update Service"
          (Update {| obj with svc_Meta := {| (svc_Meta obj) with om_UID := om_UID (svc_Meta existingObj) |} |})
  end.

(** The NodePort copy of a ClusterIP Service. The cached client fills in the type of what
    it returns, so the owner reference names a Service of the core API. *)
Definition nodePortService (original : Service) : Service :=
  let service := cleanseService original true false in
  let m := svc_Meta service in
  let labels := <[LabelManagedBy := LabelControllerName]>
                (<[LabelOriginName := om_Name m]>
                (<[LabelOriginNamespace := om_Namespace m]> (entries (om_Labels m)))) in
  {| service with
       svc_Type := ServiceTypeNodePort;
       svc_Meta := {| m with
         om_Name := NodePortServicePattern (om_Name m); om_Labels := Some labels;
         om_OwnerReferences := [{| or_APIVersion := "v1"; or_Kind := "Service"; or_Name := om_Name m;
                                   or_UID := om_UID (svc_Meta original) |}] |} |}.

(** One turn of the first loop: Services that can be used as they are, and those to copy *)
Definition normalizeService (acc : list Service * list Service) (serviceRef : NamespacedName)
  : M Cluster (list Service * list Service) :=
  let '(services, servicesToCreateUpdate) := acc in
  found ← wrap ("failed to get service " ⊕ serviceRef.1 ⊕ "/" ⊕ serviceRef.2) (GetIfExists Service serviceRef);
  mret match found with
       | None => (services, servicesToCreateUpdate)
       | Some service =>
           if bool_decide (svc_Type service = ServiceTypeClusterIP)
           then (services, servicesToCreateUpdate ++ [nodePortService service])
           else (services ++ [cleanseService service false true], servicesToCreateUpdate)
       end.

(** One turn of the last loop *)
Definition fetchCreated (services : list Service) (svc : Service) : M Cluster (list Service) :=
  let key := objKey svc in
  found ← wrap ("failed to get service " ⊕ key.1 ⊕ "/" ⊕ key.2) (GetIfExists Service key);
  mret match found with
       | None => services
       | Some service => services ++ [cleanseService service false true]
       end.

Definition NormalizeAndReplicateServices (references : list NamespacedName) : M Cluster (list Service) :=
  '(services, servicesToCreateUpdate) ← foldM normalizeService ([], []) references;
  _ ← forM servicesToCreateUpdate (λ svc, wrap "failed to create or update Service" (CreateOrUpdateService svc));
  foldM fetchCreated services servicesToCreateUpdate.

(** What these programs change: a Service under the name of the copy of each reference *)

Lemma within_putService (K : ObjectKey -> Prop) obj : K (storeKey Service (objKey obj)) → within (changes K) (CreateOrUpdateService obj).
Proof.
  intros HK. assert (∀ s, objKey (O:=Service) s = objKey obj → K (storeKey Service (objKey s))) as Hs by (by intros s ->).
  unfold CreateOrUpdateService. within_step; [within_solve|]. destruct a as [old|].
  - destruct (_ && _); [within_step|]. within_step. apply within_Update, Hs. unfold keepClusterIP. by case_bool_decide.
  - within_step. by apply within_Create, Hs.
Qed.

Definition copyKey (serviceRef : NamespacedName) : NamespacedName := (serviceRef.1, NodePortServicePattern serviceRef.2).

Lemma objKey_nodePortService service : objKey (nodePortService service) = copyKey (objKey service).
Proof. unfold nodePortService, cleanseService. cbn zeta. by case_bool_decide. Qed.

Lemma yields_normalized (P : Service -> Prop) references : (∀ svc ref, ref ∈ references → objKey svc = copyKey ref → P svc) →
  yields (λ acc, Forall P acc.2) (foldM normalizeService ([], []) references).
Proof.
  intros HP. apply yields_foldM; [constructor|]. intros [services copies] ref Href Hacc. unfold normalizeService.
  eapply yields_bind_yields; [apply yields_wrap, yields_GetIfExists|]. intros found Hk. apply yields_ret.
  destruct found as [svc|]; [|done]. case_bool_decide; [|done]. simpl in *. apply Forall_app. split; [done|].
  constructor; [|constructor]. apply (HP _ ref Href). by rewrite objKey_nodePortService, Hk.
Qed.

Lemma within_NormalizeAndReplicateServices (K : ObjectKey -> Prop) references :
  (∀ ref, ref ∈ references → K (storeKey Service (copyKey ref))) → within (changes K) (NormalizeAndReplicateServices references).
Proof.
  intros HK. unfold NormalizeAndReplicateServices.
  apply (within_bind_yields _ (λ acc, Forall (λ svc, K (storeKey Service (objKey svc))) acc.2)).
  - apply yields_normalized. intros svc ref Hin ->. by apply HK.
  - unfold normalizeService. within_solve.
  - intros [services copies] Hc. simpl in Hc. rewrite Forall_forall in Hc. within_step.
    + within_step. within_step. by apply within_putService, Hc.
    + unfold fetchCreated. within_solve.
Qed.

Lemma succeeds_putService (K : ObjectKey -> Prop) obj : K (storeKey Service (objKey obj)) → succeeds K (CreateOrUpdateService obj).
Proof.
  intros HK c Hno. pose proof (within_putService K obj HK c) as Hw.
  assert (∃ svc c', CreateOrUpdateService obj c = (Ret svc, c') ∧ cl_faults c' = []) as (svc & c' & Hr & Hno').
  { unfold CreateOrUpdateService. erewrite bind_eval by (by eapply wrap_eval, GetIfExists_eval). cbv beta.
    destruct (findObject Service c (objKey obj)) as [old|] eqn:Hf.
    - destruct (_ && _); [by eexists _, c|]. eexists _, _. split.
      + apply wrap_eval, (Update_eval c Hno _ old); [|by right]. unfold keepClusterIP. by case_bool_decide.
      + done.
    - destruct (Create_stored c Hno obj Hf) as (c' & Hc & _ & Hno' & _). exists (created c obj), c'. split; [by apply wrap_eval|done]. }
  exists svc, c'. by rewrite Hr in *.
Qed.

Lemma succeeds_NormalizeAndReplicateServices (K : ObjectKey -> Prop) references :
  (∀ ref, ref ∈ references → K (storeKey Service (copyKey ref))) → succeeds K (NormalizeAndReplicateServices references).
Proof.
  intros HK. unfold NormalizeAndReplicateServices.
  apply (succeeds_bind_yields _ (λ acc, Forall (λ svc, K (storeKey Service (objKey svc))) acc.2)).
  - apply succeeds_foldM. intros [services copies] ref _. unfold normalizeService.
    apply succeeds_bind; [apply succeeds_wrap, succeeds_GetIfExists|]. intros. apply succeeds_ret.
  - apply yields_normalized. intros svc ref Hin ->. by apply HK.
  - intros [services copies] Hc. simpl in Hc. rewrite Forall_forall in Hc. apply succeeds_bind.
    + apply succeeds_forM. intros svc Hin. by apply succeeds_wrap, succeeds_putService, Hc.
    + intros _. apply succeeds_foldM. intros b svc _. unfold fetchCreated.
      apply succeeds_bind; [apply succeeds_wrap, succeeds_GetIfExists|]. intros. apply succeeds_ret.
Qed.

Section generate.
Context {T : Type} `{!PortLookup T} (portAllocator : T).

Definition retargetPort (endpointKey : string) (port : CoreServicePort) : CoreServicePort :=
  let portKey := EnvoyListenerKey (sp_Port port) (sp_Protocol port) in
  let '(value, exists_) := port_lookup portAllocator endpointKey portKey in
  let targetPort := if exists_ then to_int32 value else sp_NodePort port in
  {| port with sp_TargetPort := FromInt targetPort; sp_NodePort := 0 |}.

(** The generated Service. The ports of the argument are changed in place, and so are its
    labels unless they are nil; [sourceAfterGenerate] is what is left of the argument. *)
Definition generateEndpointKey (service : Service) (namespace routeName : string) : string :=
  EnvoyEndpointRoute namespace (om_Namespace (svc_Meta service)) (om_Name (svc_Meta service)) routeName.

Definition originLabels (service : Service) : StrMap :=
  <[LabelOriginNamespace := GetServiceNamespace service]>
  (<[LabelOriginName := GetServiceName service]> (entries (om_Labels (svc_Meta service)))).

Definition GenerateServiceForLBCluster (service : Service) (appName namespace routeName : string)
  (annotations : AnnotationSettings) : Service :=
  let m := svc_Meta service in
  let endpointKey := generateEndpointKey service namespace routeName in
  {| service with
       svc_Meta := {| m with
         om_Name := GenerateRouteServiceName routeName (GetServiceName service) (om_Namespace m);
         om_Namespace := namespace; om_UID := ""; om_Labels := Some (originLabels service);
         om_Annotations := Some (PropagateAnnotations (om_Annotations m) annotations AnnotatedResourceService) |};
       svc_Type := if bool_decide (svc_Type service = ServiceTypeNodePort) then ServiceTypeClusterIP else svc_Type service;
       svc_Ports := retargetPort endpointKey <$> svc_Ports service;
       svc_Selector := Some {[ LabelAppKubernetesName := appName ]} |}.

Definition sourceAfterGenerate (service : Service) (namespace routeName : string) : Service :=
  {| service with
       svc_Meta := {| (svc_Meta service) with om_Labels := (λ _, originLabels service) <$> om_Labels (svc_Meta service) |};
       svc_Ports := retargetPort (generateEndpointKey service namespace routeName) <$> svc_Ports service |}.
End generate.

(** ** Convergence of [CreateOrUpdateService] *)

(** The stored Service has the spec, the labels and the annotations that were asked for;
    only a cluster IP that was left open may be there already. *)
Record providesService (desired svc : Service) : Prop := {
  provides_spec : ∃ old, serviceSpec svc = serviceSpec (keepClusterIP desired old);
  provides_labels : entries (om_Labels (svc_Meta svc)) = entries (om_Labels (svc_Meta desired));
  provides_annotations : entries (om_Annotations (svc_Meta svc)) = entries (om_Annotations (svc_Meta desired));
}.

Lemma keepClusterIP_meta obj old : svc_Meta (keepClusterIP obj old) = svc_Meta obj.
Proof. unfold keepClusterIP. by case_bool_decide. Qed.
Lemma keepClusterIP_ports obj old : svc_Ports (keepClusterIP obj old) = svc_Ports obj.
Proof. unfold keepClusterIP. by case_bool_decide. Qed.
Lemma keepClusterIP_selector obj old : svc_Selector (keepClusterIP obj old) = svc_Selector obj.
Proof. unfold keepClusterIP. by case_bool_decide. Qed.

Lemma provides_ports desired svc : providesService desired svc → svc_Ports svc = svc_Ports desired.
Proof. intros [[old Hs] _ _]. apply (f_equal svc_Ports) in Hs. simpl in Hs. by rewrite Hs, keepClusterIP_ports. Qed.
Lemma provides_selector desired svc : providesService desired svc → entries (svc_Selector svc) = entries (svc_Selector desired).
Proof.
  intros [[old Hs] _ _]. apply (f_equal svc_Selector) in Hs. simpl in Hs. injection Hs as Hs. by rewrite Hs, keepClusterIP_selector.
Qed.

(** What the comparison of the next run sees *)
Definition unchanged (existingObj obj : Service) : bool :=
  serviceSpecEqual existingObj obj && mapsEqual (om_Labels (svc_Meta existingObj)) (om_Labels (svc_Meta obj))
  && mapsEqual (om_Annotations (svc_Meta existingObj)) (om_Annotations (svc_Meta obj)).

Lemma unchanged_spec a b : unchanged a b = true ↔ serviceSpec a = serviceSpec b ∧
  entries (om_Labels (svc_Meta a)) = entries (om_Labels (svc_Meta b)) ∧
  entries (om_Annotations (svc_Meta a)) = entries (om_Annotations (svc_Meta b)).
Proof. unfold unchanged, serviceSpecEqual, mapsEqual. rewrite !andb_true_iff, !bool_decide_eq_true. tauto. Qed.

(** A Service that provides what was asked for is left alone. *)
Lemma provides_unchanged desired svc : providesService desired svc → unchanged svc (keepClusterIP desired svc) = true.
Proof.
  intros [[old Hs] Hl Ha]. apply unchanged_spec. rewrite keepClusterIP_meta. split_and!; [|done|done].
  rewrite Hs. pose proof (f_equal svc_ClusterIP Hs) as Hip. pose proof (f_equal svc_ClusterIPs Hs) as Hips. simpl in Hip, Hips.
  unfold keepClusterIP in *. destruct (bool_decide (svc_ClusterIP desired = "" ∧ svc_ClusterIP old ≠ "")) eqn:Hb; simpl in *.
  - apply bool_decide_eq_true in Hb as [Hd Ho]. rewrite bool_decide_eq_true_2 by (by rewrite Hip). by rewrite Hip, Hips.
  - rewrite bool_decide_eq_false_2; [done|]. rewrite Hip. by intros [? ?].
Qed.

Section converge_service.
Context (c : Cluster) (Hno : cl_faults c = []).
Implicit Types (obj : Service).

Lemma CreateOrUpdateService_again obj svc : findObject Service c (objKey obj) = Some svc → providesService obj svc →
  CreateOrUpdateService obj c = (Ret (keepClusterIP obj svc), c).
Proof.
  intros Hf Hp. unfold CreateOrUpdateService. erewrite bind_eval by (apply wrap_eval, (GetIfExists_eval c Hno)). rewrite Hf. cbv zeta.
  pose proof (provides_unchanged _ _ Hp) as Hu. unfold unchanged in Hu. by rewrite Hu.
Qed.

(** The object as the call leaves it *)
Record leftAs obj (left : Service) : Prop := {
  left_key : objKey left = objKey obj;
  left_labels : entries (om_Labels (svc_Meta left)) = entries (om_Labels (svc_Meta obj));
  left_ports : svc_Ports left = svc_Ports obj;
}.

Lemma CreateOrUpdateService_ok obj :
  (∀ old, findObject Service c (objKey obj) = Some old → om_Deleting (svc_Meta old) = false) →
  ∃ left c' svc, CreateOrUpdateService obj c = (Ret left, c') ∧ changes (eq (storeKey Service (objKey obj))) c c' ∧
    cl_faults c' = [] ∧ findObject Service c' (objKey obj) = Some svc ∧ providesService obj svc ∧ leftAs obj left.
Proof.
  intros Hd. destruct (findObject Service c (objKey obj)) as [old|] eqn:Hf.
  - destruct (unchanged old (keepClusterIP obj old)) eqn:Hu.
    + assert (providesService obj old) as Hp.
      { apply unchanged_spec in Hu as (Hs & Hl & Ha). rewrite keepClusterIP_meta in *. split; [by exists old|done|done]. }
      exists (keepClusterIP obj old), c, old. split_and!; [by apply CreateOrUpdateService_again|done|done|done|done|].
      unfold objKey. split; simpl; [|by rewrite keepClusterIP_meta|apply keepClusterIP_ports]. unfold objKey. simpl. by rewrite keepClusterIP_meta.
    + set (o := {| (keepClusterIP obj old) with svc_Meta := {| (svc_Meta (keepClusterIP obj old)) with om_UID := om_UID (svc_Meta old) |} |}).
      assert (objKey o = objKey obj) as Hk. { unfold objKey, o. simpl. by rewrite keepClusterIP_meta. }
      destruct (Update_stored c Hno o old) as (c' & Hup & Hc & Hno' & Hf').
      { by rewrite Hk. } { by right. } { intros Hdel. change (om_Deleting (svc_Meta old) = true) in Hdel. by rewrite Hd in Hdel. }
      rewrite Hk in *. exists (updated old o), c', (updated old o). split_and!; [|done|done|done|split|split].
      * unfold CreateOrUpdateService. erewrite bind_eval by (apply wrap_eval, (GetIfExists_eval c Hno)). rewrite Hf. cbv zeta.
        unfold unchanged in Hu. rewrite Hu. by apply wrap_eval.
      * by exists old.
      * simpl. by rewrite entries_wireMap, keepClusterIP_meta.
      * simpl. by rewrite entries_wireMap, keepClusterIP_meta.
      * by rewrite objKey_updated.
      * simpl. by rewrite entries_wireMap, keepClusterIP_meta.
      * apply keepClusterIP_ports.
  - destruct (Create_stored c Hno obj Hf) as (c' & Hcr & Hc & Hno' & Hf').
    exists (created c obj), c', (created c obj). split_and!; [|done|done|done|split|split].
    + unfold CreateOrUpdateService. erewrite bind_eval by (apply wrap_eval, (GetIfExists_eval c Hno)). rewrite Hf. by apply wrap_eval.
    + exists obj. unfold keepClusterIP. rewrite bool_decide_eq_false_2; [done|]. by intros [? ?].
    + simpl. by rewrite entries_wireMap.
    + simpl. by rewrite entries_wireMap.
    + by rewrite objKey_created.
    + simpl. by rewrite entries_wireMap.
    + done.
Qed.
End converge_service.

(** When the calls go through and the Service is not being deleted, one call leaves a stored
    Service with the ports, the selector and the rest of the spec, the labels and the
    annotations that were asked for, and a second call changes nothing. *)
Theorem create_or_update_service_converges (c : Cluster) (obj : Service) :
  cl_faults c = [] →
  (∀ old, findObject Service c (objKey obj) = Some old → om_Deleting (svc_Meta old) = false) →
  ∃ left c' svc, CreateOrUpdateService obj c = (Ret left, c') ∧ findObject Service c' (objKey obj) = Some svc ∧
    providesService obj svc ∧ ∃ left', CreateOrUpdateService obj c' = (Ret left', c').
Proof.
  intros Hno Hd. destruct (CreateOrUpdateService_ok c Hno obj Hd) as (left & c' & svc & Hr & _ & Hno' & Hf & Hp & _).
  exists left, c', svc. split_and!; [done|done|done|]. eexists. by apply CreateOrUpdateService_again.
Qed.

Lemma GetServiceName_entries svc :
  GetServiceName svc = default (om_Name (svc_Meta svc)) (entries (om_Labels (svc_Meta svc)) !! LabelOriginName).
Proof. unfold GetServiceName. destruct (om_Labels (svc_Meta svc)); [done|]. simpl. by rewrite lookup_empty. Qed.
Lemma GetServiceNamespace_entries svc :
  GetServiceNamespace svc = default (om_Namespace (svc_Meta svc)) (entries (om_Labels (svc_Meta svc)) !! LabelOriginNamespace).
Proof. unfold GetServiceNamespace. destruct (om_Labels (svc_Meta svc)); [done|]. simpl. by rewrite lookup_empty. Qed.

(** ** The Services of the references

    A Service that is no ClusterIP Service is handed over as it is; of a ClusterIP Service it
    is the NodePort copy, which is in the cluster afterwards. *)
Inductive handedOver (before after : Cluster) (ref : NamespacedName) (svc : Service) : Prop :=
| handed_as_is original : findObject Service before ref = Some original → svc_Type original ≠ ServiceTypeClusterIP →
    objKey svc = ref → svc_Type svc = svc_Type original → svc_Ports svc = svc_Ports original →
    om_Labels (svc_Meta svc) = om_Labels (svc_Meta original) → handedOver before after ref svc
| handed_copy original copy : findObject Service before ref = Some original → svc_Type original = ServiceTypeClusterIP →
    findObject Service after (ref.1, ref.2 ⊕ "-nodeport") = Some copy →
    svc_Type copy = ServiceTypeNodePort → svc_Ports copy = svc_Ports original →
    entries (svc_Selector copy) = entries (svc_Selector original) →
    objKey svc = objKey copy → svc_Type svc = svc_Type copy → svc_Ports svc = svc_Ports copy →
    GetServiceName svc = ref.2 → GetServiceNamespace svc = ref.1 → handedOver before after ref svc.

(** Every Service that is referred to and exists is handed over, and nothing else is. *)
Record replicated (before after : Cluster) (references : list NamespacedName) (services : list Service) : Prop := {
  replicated_all ref : ref ∈ references → is_Some (findObject Service before ref) →
    ∃ svc, svc ∈ services ∧ handedOver before after ref svc;
  replicated_only svc : svc ∈ services → ∃ ref, ref ∈ references ∧ handedOver before after ref svc;
}.

Lemma replicated_frame before before' after after' references services :
  (∀ key, findObject Service before' key = findObject Service before key) →
  (∀ key, findObject Service after' key = findObject Service after key) →
  replicated before after references services → replicated before' after' references services.
Proof.
  intros Hb Ha [H1 H2].
  assert (∀ ref svc, handedOver before after ref svc → handedOver before' after' ref svc) as Hh.
  { intros ref svc [original Hf|original copy Hf Ht Hc].
    - apply (handed_as_is _ _ _ _ original); [by rewrite Hb|done..].
    - apply (handed_copy _ _ _ _ original copy); [by rewrite Hb|done|by rewrite Ha|done..]. }
  split.
  - intros ref Hin Hs. rewrite Hb in Hs. destruct (H1 ref Hin Hs) as (svc & ? & ?). exists svc. auto.
  - intros svc Hin. destruct (H2 svc Hin) as (ref & ? & ?). exists ref. auto.
Qed.

Section replicate.
Implicit Types (c : Cluster) (ref : NamespacedName).

Definition asItIs c ref : option Service :=
  service ← findObject Service c ref;
  if bool_decide (svc_Type service = ServiceTypeClusterIP) then None else Some (cleanseService service false true).
Definition copyOf c ref : option Service :=
  service ← findObject Service c ref;
  if bool_decide (svc_Type service = ServiceTypeClusterIP) then Some (nodePortService service) else None.
Definition fetched c (svc : Service) : option Service :=
  (λ service, cleanseService service false true) <$> findObject Service c (objKey svc).

Lemma normalizeServices_eval c references : cl_faults c = [] → ∀ services copies,
  foldM normalizeService (services, copies) references c =
  (Ret (services ++ omap (asItIs c) references, copies ++ omap (copyOf c) references), c).
Proof.
  intros Hno. induction references as [|ref references IH]; intros services copies; csimpl; [by rewrite !app_nil_r|].
  assert (normalizeService (services, copies) ref c =
    (Ret (services ++ option_list (asItIs c ref), copies ++ option_list (copyOf c ref)), c)) as H.
  { unfold normalizeService. erewrite bind_eval by (apply wrap_eval, (GetIfExists_eval c Hno)). unfold asItIs, copyOf.
    destruct (findObject Service c ref) as [service|]; simpl; [case_bool_decide|]; simpl; by rewrite ?app_nil_r. }
  rewrite (bind_eval _ _ _ _ _ H), IH. destruct (asItIs c ref), (copyOf c ref); simpl; by rewrite ?app_nil_r, <-?app_assoc.
Qed.

Lemma fetchCopies_eval c copies : cl_faults c = [] → ∀ services,
  foldM fetchCreated services copies c = (Ret (services ++ omap (fetched c) copies), c).
Proof.
  intros Hno. induction copies as [|svc copies IH]; intros services; csimpl; [by rewrite app_nil_r|].
  assert (fetchCreated services svc c = (Ret (services ++ option_list (fetched c svc)), c)) as H.
  { unfold fetchCreated. erewrite bind_eval by (apply wrap_eval, (GetIfExists_eval c Hno)). unfold fetched.
    destruct (findObject Service c (objKey svc)); simpl; by rewrite ?app_nil_r. }
  rewrite (bind_eval _ _ _ _ _ H), IH. destruct (fetched c svc); simpl; by rewrite ?app_nil_r, <-?app_assoc.
Qed.

Definition providedIn c (obj : Service) : Prop := ∃ svc, findObject Service c (objKey obj) = Some svc ∧ providesService obj svc.

(** The loop that makes the copies; two of one key are the same. *)
Lemma createCopies_ok p (copies : list Service) : ∀ c, cl_faults c = [] →
  (∀ a b, a ∈ copies → b ∈ copies → objKey a = objKey b → a = b) →
  (∀ obj, obj ∈ copies → providedIn c obj ∨ ∀ old, findObject Service c (objKey obj) = Some old → om_Deleting (svc_Meta old) = false) →
  ∃ us c', forM copies (λ svc, wrap p (CreateOrUpdateService svc)) c = (Ret us, c') ∧ cl_faults c' = [] ∧
    (∀ obj, providedIn c obj → (∀ a, a ∈ copies → objKey a = objKey obj → a = obj) → providedIn c' obj) ∧
    ∀ obj, obj ∈ copies → providedIn c' obj.
Proof.
  induction copies as [|obj copies IH]; intros c Hno Hu Hd.
  { exists [], c. split_and!; [done|done|done|]. by intros obj ?%elem_of_nil. }
  assert (∃ left c1, CreateOrUpdateService obj c = (Ret left, c1) ∧ changes (eq (storeKey Service (objKey obj))) c c1 ∧
    cl_faults c1 = [] ∧ providedIn c1 obj) as (left & c1 & Hr & Hc & Hno1 & Hp).
  { destruct (Hd obj) as [(svc & Hf & Hp)|Hd']; [by left| |].
    - exists (keepClusterIP obj svc), c. split_and!; [by apply CreateOrUpdateService_again|done|done|by exists svc].
    - destruct (CreateOrUpdateService_ok c Hno obj Hd') as (left & c1 & svc & ? & ? & ? & ? & ? & _). exists left, c1. by split_and!; [..|exists svc]. }
  assert (∀ b : Service, objKey b ≠ objKey obj → findObject Service c1 (objKey b) = findObject Service c (objKey b)) as Hframe.
  { intros b Hb. apply (findObject_frame _ _ _ _ Hc). intros Hk. apply (f_equal snd) in Hk. simpl in Hk. congruence. }
  destruct (IH c1 Hno1) as (us & c' & Hrun & Hno' & Hkeep & Hall).
  { intros a b Ha Hb. apply Hu; by right. }
  { intros b Hb. destruct (decide (objKey b = objKey obj)) as [Heq|Hne].
    - left. rewrite (Hu b obj) by (done || by left || by right). done.
    - unfold providedIn. rewrite (Hframe b Hne). apply Hd. by right. }
  exists (left :: us), c'. split_and!; [|done| |].
  - simpl. rewrite (bind_eval _ _ _ _ _ (wrap_eval p _ _ _ _ Hr)). by rewrite (bind_eval _ _ _ _ _ Hrun).
  - intros b Hb Hsame. apply Hkeep; [|intros a Ha; apply Hsame; by right].
    destruct (decide (objKey b = objKey obj)) as [Heq|Hne]; [by rewrite <-(Hsame obj) by (by left || done)|].
    unfold providedIn. by rewrite (Hframe b Hne).
  - intros b [-> |Hb]%elem_of_cons; [|by apply Hall]. apply Hkeep; [done|]. intros a Ha Hk. apply Hu; [by right|by left|done].
Qed.

Lemma provides_type desired svc : providesService desired svc → svc_Type svc = svc_Type desired.
Proof. intros [[old Hs] _ _]. apply (f_equal svc_Type) in Hs. simpl in Hs. rewrite Hs. unfold keepClusterIP. by case_bool_decide. Qed.

(** What is left of a Service in the Route, and what a copy is made of *)
Record kept (svc s : Service) : Prop := {
  kept_key : objKey s = objKey svc;
  kept_type : svc_Type s = svc_Type svc;
  kept_ports : svc_Ports s = svc_Ports svc;
  kept_selector : svc_Selector s = svc_Selector svc;
  kept_labels : om_Labels (svc_Meta s) = om_Labels (svc_Meta svc);
}.

Lemma kept_if (b : bool) svc s t : kept svc s → kept svc t → kept svc (if b then s else t).
Proof. by destruct b. Qed.

Lemma cleanse_kept svc a b : kept svc (cleanseService svc a b).
Proof.
  unfold cleanseService. cbv zeta.
  match goal with |- context [svc_ClusterIP ?x] => assert (kept svc x) as H1 by done; revert H1; generalize x; intros s1 H1 end.
  assert (kept svc (if bool_decide (svc_ClusterIP s1 = ClusterIPNone) then s1
    else {| s1 with svc_ClusterIP := ""; svc_ClusterIPs := [] |})) as H2 by (apply kept_if; [done|by destruct H1]).
  revert H2. generalize (if bool_decide (svc_ClusterIP s1 = ClusterIPNone) then s1 else {| s1 with svc_ClusterIP := ""; svc_ClusterIPs := [] |}).
  intros s2 H2. destruct a, b; destruct H2; by split.
Qed.

Lemma nodePort_made service (copy := nodePortService service) :
  objKey copy = copyKey (objKey service) ∧ svc_Type copy = ServiceTypeNodePort ∧ svc_Ports copy = svc_Ports service ∧
  svc_Selector copy = svc_Selector service ∧ entries (om_Labels (svc_Meta copy)) !! LabelOriginName = Some (om_Name (svc_Meta service)) ∧
  entries (om_Labels (svc_Meta copy)) !! LabelOriginNamespace = Some (om_Namespace (svc_Meta service)).
Proof.
  split; [apply objKey_nodePortService|]. destruct (cleanse_kept service true false) as [Hk _ Hp Hs _]. injection Hk as Hns Hn.
  unfold copy, nodePortService. cbn zeta. simpl. split_and!; [done..| |].
  - rewrite lookup_insert_ne, lookup_insert_eq by done. by rewrite Hn.
  - rewrite lookup_insert_ne, lookup_insert_ne, lookup_insert_eq by done. by rewrite Hns.
Qed.

(** The copy in the cluster stands for the Service it was made of. *)
Lemma handedOver_fetched before after ref original obj svc : findObject Service before ref = Some original →
  svc_Type original = ServiceTypeClusterIP → obj = nodePortService original → findObject Service after (objKey obj) = Some svc →
  providesService obj svc → handedOver before after ref (cleanseService svc false true).
Proof.
  intros Hf Ht -> Hs Hp. destruct ref as [ns n]. pose proof (findObject_key _ _ _ Hf) as Hk. destruct (nodePort_made original) as (Hko & Hto & Hpo & Hso & Hlo & Hlns).
  destruct (cleanse_kept svc false true) as [Hkc Htc Hpc _ Hlc]. injection Hk as Hns Hn.
  apply (handed_copy _ _ _ _ original svc); [done|done| | | | |done|done|done| |].
  - simpl. by rewrite <-Hn, <-Hns, <-Hs, Hko.
  - by rewrite (provides_type _ _ Hp).
  - by rewrite (provides_ports _ _ Hp).
  - by rewrite (provides_selector _ _ Hp), Hso.
  - by rewrite GetServiceName_entries, Hlc, (provides_labels _ _ Hp), Hlo; simpl; rewrite Hn.
  - by rewrite GetServiceNamespace_entries, Hlc, (provides_labels _ _ Hp), Hlns; simpl; rewrite Hns.
Qed.

(** When the calls go through and no copy is being deleted, the Services of all references
    are handed over. *)
Lemma NormalizeAndReplicateServices_ok c references : cl_faults c = [] →
  (∀ ref old, ref ∈ references → findObject Service c (copyKey ref) = Some old → om_Deleting (svc_Meta old) = false) →
  ∃ services c', NormalizeAndReplicateServices references c = (Ret services, c') ∧
    changes (λ k, k.1 = resKind Service) c c' ∧ cl_faults c' = [] ∧ replicated c c' references services.
Proof.
  enough (cl_faults c = [] →
    (∀ ref old, ref ∈ references → findObject Service c (copyKey ref) = Some old → om_Deleting (svc_Meta old) = false) →
    ∃ services c', NormalizeAndReplicateServices references c = (Ret services, c') ∧ cl_faults c' = [] ∧
      replicated c c' references services) as Hrun.
  { intros Hno Hd. destruct (Hrun Hno Hd) as (services & c' & Hr & Hno' & Hrep). exists services, c'. split_and!; try done.
    pose proof (within_NormalizeAndReplicateServices (λ k, k.1 = resKind Service) references (λ _ _, eq_refl) c) as Hw.
    by rewrite Hr in Hw. }
  intros Hno Hd. set (copies := omap (copyOf c) references).
  assert (∀ obj, obj ∈ copies ↔ ∃ ref original, ref ∈ references ∧ findObject Service c ref = Some original ∧
    svc_Type original = ServiceTypeClusterIP ∧ obj = nodePortService original) as Hcopies.
  { intros obj. unfold copies. rewrite list_elem_of_omap. unfold copyOf. split.
    - intros (ref & Hin & Ho). apply bind_Some in Ho as (original & Hf & Ho). case_bool_decide; [|done]. injection Ho as <-. by exists ref, original.
    - intros (ref & original & Hin & Hf & Ht & ->). exists ref. split; [done|]. rewrite Hf. simpl. by rewrite bool_decide_true. }
  destruct (createCopies_ok "failed to create or update Service" copies c Hno) as (us & c' & Hrun & Hno' & _ & Hall).
  { intros a b (ra & oa & _ & Hfa & _ & ->)%Hcopies (rb & ob & _ & Hfb & _ & ->)%Hcopies Hk. rewrite !objKey_nodePortService in Hk.
    rewrite (findObject_key _ _ _ Hfa), (findObject_key _ _ _ Hfb) in Hk. unfold copyKey, NodePortServicePattern in Hk.
    injection Hk as Hns Hn. apply str_app_inj_r in Hn as [Hn _]; [|done]. destruct ra, rb; simpl in *. congruence. }
  { intros obj (ref & original & Hin & Hf & _ & ->)%Hcopies. right. intros old. rewrite objKey_nodePortService, (findObject_key _ _ _ Hf). by apply Hd. }
  exists (omap (asItIs c) references ++ omap (fetched c') copies), c'. split_and!; [|done|split].
  - unfold NormalizeAndReplicateServices. rewrite (bind_eval _ _ _ _ _ (normalizeServices_eval c references Hno [] [])). cbv beta iota.
    simpl app. fold copies. rewrite (bind_eval _ _ _ _ _ Hrun). by rewrite (fetchCopies_eval c' copies Hno').
  - intros ref Hin [original Hf]. destruct (decide (svc_Type original = ServiceTypeClusterIP)) as [Ht|Ht].
    + destruct (Hall (nodePortService original)) as (svc & Hs & Hp); [apply Hcopies; by exists ref, original|].
      exists (cleanseService svc false true). split; [|by eapply handedOver_fetched].
      apply elem_of_app. right. apply list_elem_of_omap. exists (nodePortService original).
      split; [apply Hcopies; by exists ref, original|]. unfold fetched. by rewrite Hs.
    + exists (cleanseService original false true). destruct (cleanse_kept original false true) as [Hk Hty Hp _ Hl]. split.
      * apply elem_of_app. left. apply list_elem_of_omap. exists ref. split; [done|]. unfold asItIs. rewrite Hf. simpl. by rewrite bool_decide_false.
      * apply (handed_as_is _ _ _ _ original); try done. by rewrite Hk, (findObject_key _ _ _ Hf).
  - intros svc [(ref & Hin & Ha)%list_elem_of_omap|(obj & Hin & Hs)%list_elem_of_omap]%elem_of_app.
    + unfold asItIs in Ha. apply bind_Some in Ha as (original & Hf & Ha). case_bool_decide; [done|]. apply (inj Some) in Ha as <-.
      exists ref. split; [done|]. destruct (cleanse_kept original false true) as [Hk Hty Hp _ Hl].
      apply (handed_as_is _ _ _ _ original); try done. by rewrite Hk, (findObject_key _ _ _ Hf).
    + apply Hcopies in Hin as Hc. destruct Hc as (ref & original & Href & Hf & Ht & Hobj).
      destruct (Hall obj Hin) as (stored & Hst & Hp). unfold fetched in Hs. rewrite Hst in Hs. apply (inj Some) in Hs as <-.
      exists ref. split; [done|]. by eapply handedOver_fetched.
Qed.
End replicate.

Definition sampleClusterIPService : Service :=
  {| svc_Meta := objectMeta "web" "apps" "" (Some {[ "app" := "web" ]}) None;
     svc_Ports := [{| sp_Name := "http"; sp_Protocol := ProtocolTCP; sp_Port := 80; sp_TargetPort := FromInt 8080; sp_NodePort := 0 |}];
     svc_Type := ServiceTypeClusterIP; svc_ExternalTrafficPolicy := ""; svc_SessionAffinity := "";
     svc_Selector := Some {[ "app" := "web" ]}; svc_ClusterIP := "10.96.0.7"; svc_ClusterIPs := ["10.96.0.7"];
     svc_LoadBalancerClass := None; svc_AllocateLoadBalancerNodePorts := None; svc_LoadBalancerSourceRanges := [];
     svc_ExternalName := ""; svc_IPFamilies := []; svc_IPFamilyPolicy := None; svc_InternalTrafficPolicy := None;
     svc_Ingress := [] |}.

Lemma create_or_update_service_converges_witness :
  let c := {| cl_objects := {[ storeKey Service ("apps", "web") := OService sampleClusterIPService ]}; cl_faults := []; cl_uid := 0 |} in
  let obj := {| sampleClusterIPService with svc_ClusterIP := ""; svc_ClusterIPs := []; svc_Type := ServiceTypeNodePort |} in
  ∃ left c' svc, CreateOrUpdateService obj c = (Ret left, c') ∧ findObject Service c' ("apps", "web") = Some svc ∧
    providesService obj svc ∧ ∃ left', CreateOrUpdateService obj c' = (Ret left', c').
Proof.
  intros c obj. apply (create_or_update_service_converges c obj).
  - reflexivity.
  - intros old Hold. vm_compute in Hold. by injection Hold as <-.
Defined.

(** The copy of [web] takes over a Service of the user's that has the name of the copy. *)
Example nodeport_copy_overwrites_namesake :
  let mine := {| sampleClusterIPService with
                   svc_Meta := objectMeta "web-nodeport" "apps" "" None None; svc_Selector := Some {[ "app" := "other" ]} |} in
  let c := {| cl_objects := list_to_map [(storeKey Service ("apps", "web"), OService sampleClusterIPService);
                                         (storeKey Service ("apps", "web-nodeport"), OService mine)];
              cl_faults := []; cl_uid := 0 |} in
  match NormalizeAndReplicateServices [("apps", "web")] c with
  | (Ret _, c') => svc_Selector <$> findObject Service c' ("apps", "web-nodeport") = Some (Some {[ "app" := "web" ]})
  | _ => False
  end.
Proof. vm_compute. reflexivity. Qed.
