(* ===== verification/RouteResources.v ===== *)
(** * Ingresses, routes and gateways in the management cluster

    The builders of [internal/resources]: [gatewayapi/gatewayapi.go],
    [gatewayapi/httproute/httproute.go], [gatewayapi/grpcroute/grpcroute.go],
    [gatewayapi/gateway/gateway.go] and [helper.go], [ingress/ingress.go],
    [route/route.go] and [unstructured/unstructured.go], with
    [internal/util/kubernetes/secret.go]. *)

From Stdlib Require Import Ascii.
From S2P Require Import Prelude GoStrings Api GatewayApi Names PortAllocator Annotations Kube Services.
Local Open Scope go_scope.

Definition ServiceKind : string := "Service".

(** ** [gatewayapi.go] *)

Definition NormalizeParentRefs (parentRefs : list ParentReference) : list ParentReference :=
  (λ p, {| p with pr_Namespace := None |}) <$> parentRefs.

(** Does a reference mean this Service? *)
Definition refMatches (ref : BackendObjectReference) (service : ObjectMeta) : bool :=
  bool_decide (bor_Name ref = om_Name service) &&
  match bor_Namespace ref with None => true | Some ns => bool_decide (ns = om_Namespace service) end.

Definition RetargetBackendRefToGeneratedService (ref : BackendObjectReference) (referencedServices : list ObjectMeta)
  (routeName : string) : BackendObjectReference :=
  match List.find (refMatches ref) referencedServices with
  | Some service =>
      {| ref with bor_Name := GenerateRouteServiceName routeName (om_Name service) (om_Namespace service);
                  bor_Namespace := None |}
  | None => ref
  end.

(** ** The rules of HTTPRoutes and GRPCRoutes *)

(** [ref.Kind == nil || *ref.Kind == kubelb.ServiceKind] *)
Definition isServiceRef (ref : BackendObjectReference) : bool :=
  match bor_Kind ref with None => true | Some k => bool_decide (k = ServiceKind) end.

Section retarget.
Context (referencedServices : list ObjectMeta) (routeName : string).

Definition retargetRef (ref : BackendObjectReference) : BackendObjectReference :=
  if isServiceRef ref then RetargetBackendRefToGeneratedService ref referencedServices routeName else ref.

Definition retargetFilter (filter : HTTPRouteFilter) : HTTPRouteFilter :=
  {| filter with f_RequestMirror := retargetRef <$> f_RequestMirror filter |}.

Definition retargetBackendRef (ref : BackendRef) : BackendRef :=
  {| br_Ref := retargetRef (br_Ref ref); br_Filters := retargetFilter <$> br_Filters ref |}.

Definition retargetHTTPRule (rule : HTTPRouteRule) : HTTPRouteRule :=
  {| rule with hrr_Filters := retargetFilter <$> hrr_Filters rule;
               hrr_BackendRefs := retargetBackendRef <$> hrr_BackendRefs rule |}.

Definition retargetGRPCRule (rule : GRPCRouteRule) : GRPCRouteRule :=
  {| grr_Filters := retargetFilter <$> grr_Filters rule;
     grr_BackendRefs := retargetBackendRef <$> grr_BackendRefs rule |}.
End retarget.

(** The Services a reference and a filter name, in the namespace of the route by default *)
Definition refService (namespace : string) (ref : BackendObjectReference) : list NamespacedName :=
  if isServiceRef ref then [(default namespace (bor_Namespace ref), bor_Name ref)] else [].
Definition filterServices (namespace : string) (filter : HTTPRouteFilter) : list NamespacedName :=
  option_list (f_RequestMirror filter) ≫= refService namespace.
Definition ruleServices (namespace : string) (filters : list HTTPRouteFilter) (refs : list BackendRef)
  : list NamespacedName :=
  (filters ≫= filterServices namespace) ++
  (refs ≫= λ ref, refService namespace (br_Ref ref) ++ (br_Filters ref ≫= filterServices namespace)).

Definition GetServicesFromHTTPRoute (httpRoute : HTTPRoute) : list NamespacedName :=
  dedupe ∅ (gr_Rules httpRoute ≫= λ rule,
              ruleServices (om_Namespace (gr_Meta httpRoute)) (hrr_Filters rule) (hrr_BackendRefs rule)).

Definition GetServicesFromGRPCRoute (grpcroute : GRPCRoute) : list NamespacedName :=
  dedupe ∅ (gr_Rules grpcroute ≫= λ rule,
              ruleServices (om_Namespace (gr_Meta grpcroute)) (grr_Filters rule) (grr_BackendRefs rule)).

(** ** Creating or updating an object in the management cluster *)

Section create_or_update.
Context {O X : Type} `{!Resource O, !EqDecision X} (what : string) (spec : O -> X).

Definition withAnnotations (annotations : GoMap) (o : O) : O :=
  setMeta {| (objMeta o) with om_Annotations := annotations |} o.

(** The second half of every [CreateOrUpdate...]: create the object, or merge its
    annotations into the stored one and update that when they differ. The result is the
    object as the call leaves it: what the server answered, or the argument. *)
Definition createOrUpdate (object : O) : M Cluster O :=
  found ← wrap ("failed to get " ⊕ what) (GetIfExists O (objKey object));
  match found with
  | None => wrap ("failed to create " ⊕ what) (Create object)
  | Some existingObject =>
      let object := withAnnotations (MergeAnnotations (om_Annotations (objMeta existingObject))
                                                      (om_Annotations (objMeta object))) object in
      if bool_decide (spec existingObject = spec object)
         && mapsEqual (om_Labels (objMeta existingObject)) (om_Labels (objMeta object))
         && CompareAnnotations (om_Annotations (objMeta existingObject)) (om_Annotations (objMeta object))
      then mret object
      else
        wrap ("failed to update " ⊕ what)
          (Update (setMeta {| (objMeta object) with om_UID := om_UID (objMeta existingObject) |} object))
  end.
End create_or_update.

(** The specs that are compared *)
Definition routeSpec {Rule} (r : GatewayRoute Rule) : list ParentReference * list string * list Rule :=
  (gr_ParentRefs r, gr_Hostnames r, gr_Rules r).
Definition ingressSpec (i : Ingress) : option string * option IngressBackend * list IngressRule * list IngressTLS :=
  (ing_ClassName i, ing_DefaultBackend i, ing_Rules i, ing_TLS i).
Definition gatewaySpec (g : Gateway) : string * list Listener := (gw_GatewayClassName g, gw_Listeners g).

(** Name, namespace, labels and annotations of an object of the tenant in the management
    cluster; its UID is dropped. *)
Definition managedMeta (m : ObjectMeta) (name namespace : string) (annotations : AnnotationSettings)
  (resource : AnnotatedResource) : ObjectMeta :=
  {| m with
       om_Annotations := Some (PropagateAnnotations (om_Annotations m) annotations resource);
       om_Labels := Some (AddKubeLBLabels (om_Labels m) (om_Name m) (om_Namespace m) "");
       om_Name := name; om_Namespace := namespace; om_UID := "" |}.

Definition routeObject {Rule : Type} (rule : Rule -> Rule) (object : GatewayRoute Rule) (namespace : string)
  (annotations : AnnotationSettings) (resource : AnnotatedResource) : GatewayRoute Rule :=
  let m := gr_Meta object in
  {| object with
       gr_Rules := rule <$> gr_Rules object;
       gr_ParentRefs := NormalizeParentRefs (gr_ParentRefs object);
       gr_Meta := managedMeta m (GenerateName (om_Name m) (om_Namespace m)) namespace annotations resource |}.

Definition CreateOrUpdateHTTPRoute (object : HTTPRoute) (referencedServices : list ObjectMeta)
  (namespace routeName : string) (annotations : AnnotationSettings) : M Cluster HTTPRoute :=
  createOrUpdate "HTTPRoute" routeSpec
    (routeObject (retargetHTTPRule referencedServices routeName) object namespace annotations AnnotatedResourceHTTPRoute).

Definition CreateOrUpdateGRPCRoute (object : GRPCRoute) (referencedServices : list ObjectMeta)
  (namespace routeName : string) (annotations : AnnotationSettings) : M Cluster GRPCRoute :=
  createOrUpdate "GRPCRoute" routeSpec
    (routeObject (retargetGRPCRule referencedServices routeName) object namespace annotations AnnotatedResourceGRPCRoute).

(** ** [secret.go]: the name a tenant's secret has in the management cluster *)

Definition GetSecretNameIfExists (name namespace tenantNamespace : string) : M Cluster string :=
  r ← try (List Secret (Some tenantNamespace) {[ LabelOriginName := name; LabelOriginNamespace := namespace ]});
  mret match r with
       | inr _ => ""
       | inl [] => ""
       | inl (s :: _) => om_Name (sec_Meta s)
       end.

(** ** [ingress.go] *)

(** The loop over the referenced Services compares with the name as the loop left it: the
    backend is shared through a pointer. *)
Definition retargetName (referencedServices : list ObjectMeta) (routeName name : string) : string :=
  foldl (λ name service, if bool_decide (name = om_Name service)
                         then GenerateRouteServiceName routeName (om_Name service) (om_Namespace service) else name)
        name referencedServices.

Section ingress_rules.
Context (referencedServices : list ObjectMeta) (routeName : string).

(** A backend without a Service is only looked at when there are referenced Services. *)
Definition retargetBackend (backend : IngressBackend) : M Cluster IngressBackend :=
  match referencedServices with
  | [] => mret backend
  | _ =>
      svc ← deref (ib_Service backend);
      mret {| backend with ib_Service := Some {| svc with isb_Name := retargetName referencedServices routeName (isb_Name svc) |} |}
  end.

Definition retargetPath (path : HTTPIngressPath) : M Cluster HTTPIngressPath :=
  backend ← retargetBackend (ip_Backend path);
  mret {| path with ip_Backend := backend |}.

Definition retargetIngressRule (rule : IngressRule) : M Cluster IngressRule :=
  paths ← deref (ir_HTTP rule);
  paths ← forM paths retargetPath;
  mret {| rule with ir_HTTP := Some paths |}.

Definition retargetDefaultBackend (backend : IngressBackend) : IngressBackend :=
  {| backend with ib_Service :=
       (λ svc, {| svc with isb_Name := retargetName referencedServices routeName (isb_Name svc) |}) <$> ib_Service backend |}.
End ingress_rules.

(** [tenant.Spec.Ingress.Class], or else [config.Spec.Ingress.Class] *)
Definition ingressClass (tenant : Tenant) (config : Config) : option string :=
  match cls_Class (tn_Ingress tenant) with Some c => Some c | None => cls_Class (cf_Ingress config) end.

Definition retargetTLS (namespace tenantNamespace : string) (tls : IngressTLS) : M Cluster IngressTLS :=
  secretName ← GetSecretNameIfExists (it_SecretName tls) namespace tenantNamespace;
  mret (if bool_decide (secretName = "") then tls else {| tls with it_SecretName := secretName |}).

Definition CreateOrUpdateIngress (object : Ingress) (referencedServices : list ObjectMeta) (namespace routeName : string)
  (config : Config) (tenant : Tenant) (annotations : AnnotationSettings) : M Cluster Ingress :=
  let m := ing_Meta object in
  rules ← forM (ing_Rules object) (retargetIngressRule referencedServices routeName);
  tls ← forM (ing_TLS object) (retargetTLS (om_Namespace m) namespace);
  createOrUpdate "Ingress" ingressSpec
    {| object with
         ing_Rules := rules;
         ing_DefaultBackend := retargetDefaultBackend referencedServices routeName <$> ing_DefaultBackend object;
         ing_ClassName := match ingressClass tenant config with Some c => Some c | None => ing_ClassName object end;
         ing_TLS := tls;
         ing_Meta := managedMeta m (GenerateName (om_Name m) (om_Namespace m)) namespace annotations AnnotatedResourceIngress |}.

(** [None] is the panic on a rule without HTTP or a backend without a Service. *)
Definition pathService (namespace : string) (path : HTTPIngressPath) : option NamespacedName :=
  (λ svc, (namespace, isb_Name svc)) <$> ib_Service (ip_Backend path).

Definition GetServicesFromIngress (ingress : Ingress) : option (list NamespacedName) :=
  let namespace := om_Namespace (ing_Meta ingress) in
  refs ← mapM (λ rule, ir_HTTP rule ≫= mapM (pathService namespace)) (ing_Rules ingress);
  let defaultRef :=
    option_list (ing_DefaultBackend ingress ≫= λ b, (λ svc, (namespace, isb_Name svc)) <$> ib_Service b) in
  Some (dedupe ∅ (mjoin refs ++ defaultRef)).

(** ** Hostnames of load balancers: [CreateIngressForHostname], [CreateHTTPRouteForHostname] *)

Section hostname.
Context {O X : Type} `{!Resource O, !EqDecision X} (what : string) (spec : O -> X) (copySpec : O -> O -> O).

(** The second half of both: create the object, or bring spec, labels and annotations of
    the stored one up to date; the rest of its metadata stays. *)
Definition createOrAdopt (object : O) : M Cluster unit :=
  found ← wrap ("failed to get " ⊕ what) (GetIfExists O (objKey object));
  match found with
  | None => _ ← wrap ("failed to create " ⊕ what) (Create object); mret tt
  | Some existingObject =>
      let annotations := MergeAnnotations (om_Annotations (objMeta existingObject)) (om_Annotations (objMeta object)) in
      if negb (bool_decide (spec existingObject = spec object))
         || negb (mapsEqual (om_Labels (objMeta existingObject)) (om_Labels (objMeta object)))
         || negb (CompareAnnotations (om_Annotations (objMeta existingObject)) annotations)
      then
        _ ← wrap ("failed to update " ⊕ what)
              (Update (setMeta {| (objMeta existingObject) with om_Labels := om_Labels (objMeta object);
                                                                om_Annotations := annotations |}
                               (copySpec object existingObject)));
        mret tt
      else mret tt
  end.
End hostname.

Definition hostnameLabels (loadBalancer : LoadBalancer) : GoMap :=
  Some {[ LabelLoadBalancerName := om_Name (lb_Meta loadBalancer);
          LabelLoadBalancerNamespace := om_Namespace (lb_Meta loadBalancer) ]}.

(** Metadata of the object for a hostname: annotations of the load balancer, DNS and
    certificate annotations, owned by the load balancer *)
Definition hostnameMeta (loadBalancer : LoadBalancer) (name hostname : string) (tenant : Tenant) (config : Config)
  (annotations : AnnotationSettings) (resource : AnnotatedResource) (skipCertificates : bool) : ObjectMeta :=
  SetControllerReference "kubelb.k8c.io/v1alpha1" "LoadBalancer" (lb_Meta loadBalancer)
    (objectMeta name (om_Namespace (lb_Meta loadBalancer)) "" (hostnameLabels loadBalancer)
       (AddDNSAndCertificateAnnotations
          (Some (PropagateAnnotations (om_Annotations (lb_Meta loadBalancer)) annotations resource))
          tenant config hostname skipCertificates)).

Definition ingressNameFor (loadBalancer : LoadBalancer) : string := om_Name (lb_Meta loadBalancer) ⊕ "-ingress".
Definition httpRouteNameFor (loadBalancer : LoadBalancer) : string := om_Name (lb_Meta loadBalancer) ⊕ "-httproute".

Definition hostnameIngress (loadBalancer : LoadBalancer) (svcName hostname : string) (port : Z) (tenant : Tenant)
  (config : Config) (annotations : AnnotationSettings) : Ingress :=
  let ingressName := ingressNameFor loadBalancer in
  {| ing_Meta := hostnameMeta loadBalancer ingressName hostname tenant config annotations AnnotatedResourceIngress false;
     ing_ClassName := ingressClass tenant config;
     ing_DefaultBackend := None;
     ing_Rules := [{| ir_Host := hostname;
                      ir_HTTP := Some [{| ip_Path := "/"; ip_PathType := Some PathTypePrefix;
                                          ip_Backend := {| ib_Service := Some {| isb_Name := svcName; isb_PortNumber := port;
                                                                                 isb_PortName := "" |};
                                                           ib_Resource := None |} |}] |}];
     ing_TLS := [{| it_Hosts := [hostname]; it_SecretName := ingressName ⊕ "-tls" |}];
     ing_Ingress := [] |}.

(** [loadBalancer.Spec.Ports[0]] panics when there are no ports. *)
Definition firstPort (loadBalancer : LoadBalancer) : M Cluster Z :=
  deref (lbp_Port <$> head (lbs_Ports (lb_Spec loadBalancer))).

(** [existing.Spec = desired.Spec] *)
Definition copyIngressSpec (from o : Ingress) : Ingress :=
  {| o with ing_ClassName := ing_ClassName from; ing_DefaultBackend := ing_DefaultBackend from;
            ing_Rules := ing_Rules from; ing_TLS := ing_TLS from |}.
Definition copyRouteSpec (from o : HTTPRoute) : HTTPRoute :=
  {| o with gr_ParentRefs := gr_ParentRefs from; gr_Hostnames := gr_Hostnames from; gr_Rules := gr_Rules from |}.

Definition CreateIngressForHostname (loadBalancer : LoadBalancer) (svcName hostname : string) (tenant : Tenant)
  (config : Config) (annotations : AnnotationSettings) : M Cluster unit :=
  port ← firstPort loadBalancer;
  createOrAdopt "ingress" ingressSpec
    copyIngressSpec
    (hostnameIngress loadBalancer svcName hostname port tenant config annotations).

Definition gatewayParentRef (ref : ObjectReference) : ParentReference :=
  {| pr_Name := ref_Name ref;
     pr_Namespace := if bool_decide (ref_Namespace ref = "") then None else Some (ref_Namespace ref) |}.

(** The default gateway of the tenant, or else of the config *)
Definition defaultGateway (tenant : Tenant) (config : Config) : option ObjectReference :=
  match gas_DefaultGateway (tn_GatewayAPI tenant) with
  | Some g => Some g
  | None => gas_DefaultGateway (cf_GatewayAPI config)
  end.

Definition hostnameHTTPRoute (loadBalancer : LoadBalancer) (svcName hostname : string) (port : Z)
  (gateway : ObjectReference) (tenant : Tenant) (config : Config) (annotations : AnnotationSettings) : HTTPRoute :=
  {| gr_Meta := hostnameMeta loadBalancer (httpRouteNameFor loadBalancer) hostname tenant config annotations
                  AnnotatedResourceHTTPRoute true;
     gr_ParentRefs := [gatewayParentRef gateway];
     gr_Hostnames := [hostname];
     gr_Rules := [{| hrr_Matches := []; hrr_Filters := [];
                     hrr_BackendRefs := [{| br_Ref := {| bor_Kind := Some ServiceKind; bor_Name := svcName;
                                                         bor_Namespace := None; bor_Port := Some port |};
                                            br_Filters := [] |}] |}];
     gr_Status := [] |}.

Definition CreateHTTPRouteForHostname (loadBalancer : LoadBalancer) (svcName hostname : string) (tenant : Tenant)
  (config : Config) (annotations : AnnotationSettings) : M Cluster unit :=
  match defaultGateway tenant config with
  | None => raise (Errorf "no default gateway specified for tenant or config")
  | Some gateway =>
      port ← firstPort loadBalancer;
      createOrAdopt "httproute" routeSpec
        copyRouteSpec
        (hostnameHTTPRoute loadBalancer svcName hostname port gateway tenant config annotations)
  end.

(** ** [gateway.go] and [helper.go] *)

Definition MaxGatewaysPerTenant : nat := 1.
Definition ParentGatewayName : string := "kubelb".
Definition GatewayClassName : string := "kubelb".

Definition ShouldReconcileGatewayByName (gateway : Gateway) : bool :=
  bool_decide (om_Name (gw_Meta gateway) = ParentGatewayName).

Definition routeNamesParent {Rule} (route : GatewayRoute Rule) : bool :=
  match gr_ParentRefs route with
  | [parent] => bool_decide (pr_Name parent = ParentGatewayName)
  | _ => false
  end.

Definition ShouldReconcileResource (obj : Object) (useGatewayClass : bool) : bool :=
  match obj with
  | OGateway resource =>
      bool_decide (om_Name (gw_Meta resource) = ParentGatewayName) &&
      negb (useGatewayClass && negb (bool_decide (gw_GatewayClassName resource = GatewayClassName)))
  | OHTTPRoute resource => routeNamesParent resource
  | OGRPCRoute resource => routeNamesParent resource
  | _ => false
  end.

(** The class of the tenant, or else of the config *)
Definition gatewayClass (tenant : Tenant) (config : Config) : option string :=
  match gas_Class (tn_GatewayAPI tenant) with Some c => Some c | None => gas_Class (cf_GatewayAPI config) end.

(** The Gateway of this name, if it is claimed by another source object *)
Definition claimedBy (object existingGateway : Gateway) : option (string * string) :=
  let labels := entries (om_Labels (gw_Meta existingGateway)) in
  match labels !! LabelOriginName, labels !! LabelOriginNamespace with
  | Some originName, Some originNamespace =>
      if bool_decide (originName ≠ om_Name (gw_Meta object) ∨ originNamespace ≠ om_Namespace (gw_Meta object))
      then Some (originNamespace, originName) else None
  | _, _ => None
  end.

Definition retargetCertificate (namespace tenantNamespace : string) (reference : SecretObjectReference)
  : M Cluster SecretObjectReference :=
  secretName ← GetSecretNameIfExists (sor_Name reference) namespace tenantNamespace;
  mret {| sor_Name := if bool_decide (secretName = "") then sor_Name reference else secretName;
          sor_Namespace := None |}.

Definition retargetListener (namespace tenantNamespace : string) (listener : Listener) : M Cluster Listener :=
  match ls_TLS listener with
  | None => mret listener
  | Some tls =>
      refs ← forM (ltc_CertificateRefs tls) (retargetCertificate namespace tenantNamespace);
      mret {| listener with ls_TLS := Some {| tls with ltc_CertificateRefs := refs |} |}
  end.

(** The checks before the object is touched: the first source object that claims the name
    of the Gateway keeps it, and a tenant has at most [MaxGatewaysPerTenant]. *)
Definition claimGateway (object : Gateway) (namespace : string) : M Cluster unit :=
  let m := gw_Meta object in
  gateways ← wrap "failed to list Gateways" (List Gateway (Some namespace) ∅);
  let found := List.find (λ g, bool_decide (om_Name (gw_Meta g) = om_Name m)) gateways in
  match found ≫= claimedBy object with
  | Some (originNamespace, originName) =>
      raise (Errorf ("gateway name " ⊕ Quote (om_Name m) ⊕ " is already claimed by " ⊕ originNamespace ⊕ "/" ⊕ originName ⊕
        " in the tenant cluster; a Gateway name can only be owned by one source object per tenant"))
  | None =>
      when (bool_decide (found = None ∧ MaxGatewaysPerTenant ≤ length gateways))
        (raise (Errorf ("maximum of " ⊕ Itoa (Z.of_nat MaxGatewaysPerTenant) ⊕ " Gateway object(s) per tenant is supported")))
  end.

Definition applyGateway (object : Gateway) (namespace : string) (config : Config) (tenant : Tenant)
  (annotations : AnnotationSettings) : M Cluster Gateway :=
  let m := gw_Meta object in
  listeners ← forM (gw_Listeners object) (retargetListener (om_Namespace m) namespace);
  createOrUpdate "Gateway" gatewaySpec
    {| object with
         gw_Listeners := listeners;
         gw_GatewayClassName := default (gw_GatewayClassName object) (gatewayClass tenant config);
         gw_Meta := managedMeta m (om_Name m) namespace annotations AnnotatedResourceGateway |}.

Definition CreateOrUpdateGateway (object : Gateway) (namespace : string) (config : Config) (tenant : Tenant)
  (annotations : AnnotationSettings) : M Cluster Gateway :=
  _ ← claimGateway object namespace;
  applyGateway object namespace config tenant annotations.

(** ** [unstructured.go] *)

Definition NormalizeUnstructured (obj : Unstructured) : Unstructured :=
  let m := u_Meta obj in
  {| obj with u_Meta := objectMeta (om_Name m) (om_Namespace m) (om_UID m) (om_Labels m)
                          (delete LastAppliedConfigAnnotation <$> om_Annotations m) |}.

(** [runtime.DefaultUnstructuredConverter]: what decoding an object of each kind gives *)
Record UnstructuredConverter := {
  fromIngress : Unstructured -> result Ingress;
  fromService : Unstructured -> result Service;
  fromGateway : Unstructured -> result Gateway;
  fromHTTPRoute : Unstructured -> result HTTPRoute;
  fromGRPCRoute : Unstructured -> result GRPCRoute;
}.

Definition decoded {A} (f : A -> Object) (r : result A) : result Object :=
  match r with
  | Ok a => Ok (f a)
  | Err msg => Err ("failed to convert unstructured to resource: " ⊕ msg)
  end.

Definition networkingV1 : string := "networking.k8s.io/v1".
Definition gatewayV1 : string := "gateway.networking.k8s.io/v1".

(** The switch on group, version and kind *)
Definition ConvertUnstructuredToObject (conv : UnstructuredConverter) (unstruct : Unstructured) : result Object :=
  let gvk apiVersion kind := bool_decide (u_APIVersion unstruct = apiVersion ∧ u_Kind unstruct = kind) in
  if gvk networkingV1 "Ingress" then decoded OIngress (fromIngress conv unstruct)
  else if gvk "v1" "Service" then decoded OService (fromService conv unstruct)
  else if gvk gatewayV1 "Gateway" then decoded OGateway (fromGateway conv unstruct)
  else if gvk gatewayV1 "HTTPRoute" then decoded OHTTPRoute (fromHTTPRoute conv unstruct)
  else if gvk gatewayV1 "GRPCRoute" then decoded OGRPCRoute (fromGRPCRoute conv unstruct)
  else Err ("unsupported type: " ⊕ u_APIVersion unstruct ⊕ ", Kind=" ⊕ u_Kind unstruct).

(** ** [route.go] *)

(** [GroupVersionKind().GroupKind().String()] *)
Definition groupOf (apiVersion : string) : string :=
  match Split apiVersion "/" with [group; _] => group | _ => "" end.
Definition groupKindString (apiVersion kind : string) : string :=
  if bool_decide (groupOf apiVersion = "") then kind else kind ⊕ "." ⊕ groupOf apiVersion.

Definition GenerateRoute (resource : Unstructured) (services : list Service) (namespace : string) : Route :=
  {| rt_Meta :=
       objectMeta (om_UID (u_Meta resource)) namespace ""
         (Some (<[LabelManagedBy := LabelControllerName]>
               (<[LabelOriginResourceKind := groupKindString (u_APIVersion resource) (u_Kind resource)]>
               (<[LabelOriginName := u_Name resource]>
               (<[LabelOriginNamespace := u_Namespace resource]> ∅))))) None;
     rt_Endpoints := [{| lbe_Name := "default"; lbe_Addresses := []; lbe_AddressesReference := Some DefaultAddressName;
                         lbe_Ports := [] |}];
     rt_Source := Some {| ks_Route := resource; ks_Services := services |};
     rt_Status := emptyRouteStatus |}.

Definition routeNeedsUpdate (existingRoute route : Route) : bool :=
  negb (bool_decide (rt_Endpoints existingRoute = rt_Endpoints route ∧ rt_Source existingRoute = rt_Source route)) ||
  negb (bool_decide (om_Labels (rt_Meta existingRoute) = om_Labels (rt_Meta route))) ||
  negb (bool_decide (om_Annotations (rt_Meta existingRoute) = om_Annotations (rt_Meta route))).

(** The update that is retried on conflicts, from the latest version *)
Definition updateRoute (route : Route) : M Cluster unit :=
  existingRoute ← Get Route (objKey route);
  _ ← Update {| existingRoute with
                  rt_Endpoints := rt_Endpoints route; rt_Source := rt_Source route;
                  rt_Meta := {| (rt_Meta existingRoute) with om_Labels := om_Labels (rt_Meta route);
                                                             om_Annotations := om_Annotations (rt_Meta route) |} |};
  mret tt.

Definition updateRouteIfNeeded (existingRoute route : Route) : M Cluster unit :=
  if routeNeedsUpdate existingRoute route
  then wrap "failed to update Route" (RetryOnConflict (updateRoute route))
  else mret tt.

Definition CreateUpdateRoute (route : Route) : M Cluster unit :=
  found ← wrap "failed to get Route from LB cluster" (GetIfExists Route (objKey route));
  match found with
  | Some existingRoute => updateRouteIfNeeded existingRoute route
  | None =>
      r ← try (Create route);
      match r with
      | inl _ => mret tt
      | inr err =>
          if IsAlreadyExists err then
            existingRoute ← wrap "failed to get Route after conflict" (Get Route (objKey route));
            updateRouteIfNeeded existingRoute route
          else raise (Wrap "failed to create Route" err)
      end
  end.

Definition CreateRouteForResource (resource : Unstructured) (services : list Service) (namespace : string)
  : M Cluster unit :=
  CreateUpdateRoute (GenerateRoute resource services namespace).

(** ** What these programs change *)

Section within_resources.
Context (K : ObjectKey -> Prop).

Lemma within_createOrUpdate {O X} `{!Resource O, !EqDecision X} what (spec : O -> X) object :
  K (storeKey O (objKey object)) → within (changes K) (createOrUpdate what spec object).
Proof.
  intros HK. unfold createOrUpdate, withAnnotations. within_solve.
  apply within_Update. unfold objKey in *. by rewrite !objMeta_setMeta.
Qed.

Lemma yields_createOrUpdate {O X} `{!Resource O, !EqDecision X} what (spec : O -> X) object :
  yields (λ o, objKey o = objKey object) (createOrUpdate what spec object).
Proof.
  unfold createOrUpdate, withAnnotations. apply yields_bind. intros [existing|]; cbv zeta.
  - destruct (_ && _); [apply yields_ret; unfold objKey; by rewrite !objMeta_setMeta|].
    apply yields_wrap. intros c o c' Hu. rewrite (yields_Update _ _ _ _ Hu). unfold objKey. by rewrite !objMeta_setMeta.
  - apply yields_wrap. intros c o c' Hu. apply Create_Ret in Hu as (_ & -> & _). apply objKey_created.
Qed.

Lemma within_createOrAdopt {O X} `{!Resource O, !EqDecision X} what (spec : O -> X) copySpec object :
  K (storeKey O (objKey object)) → within (changes K) (createOrAdopt what spec copySpec object).
Proof.
  intros HK. unfold createOrAdopt. within_solve.
  all: apply within_Update; unfold objKey in *; rewrite !objMeta_setMeta; simpl in *; congruence.
Qed.

Lemma within_GetSecretNameIfExists name ns tns : within (changes K) (GetSecretNameIfExists name ns tns).
Proof. unfold GetSecretNameIfExists. within_solve. Qed.

Lemma within_CreateIngressForHostname lb svcName hostname tenant config ann :
  K (storeKey Ingress (om_Namespace (lb_Meta lb), ingressNameFor lb)) →
  within (changes K) (CreateIngressForHostname lb svcName hostname tenant config ann).
Proof.
  intros HK. unfold CreateIngressForHostname, firstPort. within_step; [within_step|].
  by apply within_createOrAdopt.
Qed.

Lemma within_CreateHTTPRouteForHostname lb svcName hostname tenant config ann :
  K (storeKey HTTPRoute (om_Namespace (lb_Meta lb), httpRouteNameFor lb)) →
  within (changes K) (CreateHTTPRouteForHostname lb svcName hostname tenant config ann).
Proof.
  intros HK. unfold CreateHTTPRouteForHostname, firstPort. within_step; [|within_step].
  within_step; [within_step|]. by apply within_createOrAdopt.
Qed.
End within_resources.
#[export] Hint Resolve within_GetSecretNameIfExists : kube.
#[export] Hint Extern 2 (within _ (createOrUpdate _ _ _)) => apply within_createOrUpdate; key_solve : kube.
#[export] Hint Extern 2 (within _ (createOrAdopt _ _ _ _)) => apply within_createOrAdopt; key_solve : kube.

(** ** Convergence *)

(** What is compared does not depend on metadata and status. *)
Class SpecLaws {O X} `{!Resource O} (spec : O -> X) : Prop := {
  spec_setMeta m o : spec (setMeta m o) = spec o;
  spec_copyStatus a o : spec (copyStatus a o) = spec o;
  spec_freshStatus o : spec (freshStatus o) = spec o;
}.
#[export] Instance http_spec_laws : SpecLaws (routeSpec (Rule:=HTTPRouteRule)).
Proof. by split. Qed.
#[export] Instance grpc_spec_laws : SpecLaws (routeSpec (Rule:=GRPCRouteRule)).
Proof. by split. Qed.
#[export] Instance ingress_spec_laws : SpecLaws ingressSpec.
Proof. by split. Qed.
#[export] Instance gateway_spec_laws : SpecLaws gatewaySpec.
Proof. by split. Qed.

Lemma wireMap_Some_union a : wireMap (Some a) = wireMap (Some (entries (wireMap (Some a)))).
Proof. by rewrite entries_wireMap. Qed.

(** Merging again the annotations that were merged and stored *)
Lemma wire_merge_again e d : wireMap e = e →
  wireMap (MergeAnnotations (wireMap (MergeAnnotations e d)) d) = wireMap (MergeAnnotations e d).
Proof.
  intros He. unfold MergeAnnotations at 2 3. destruct (CompareAnnotations e d) eqn:Hc.
  - rewrite He. unfold MergeAnnotations. by rewrite Hc.
  - unfold MergeAnnotations. destruct (CompareAnnotations (wireMap _) d); [apply wireMap_idem|].
    rewrite entries_wireMap. simpl. by rewrite (assoc_L (∪)), map_union_idemp.
Qed.

Lemma wire_merge_self d : wireMap (MergeAnnotations (wireMap d) d) = wireMap d.
Proof.
  unfold MergeAnnotations. destruct (CompareAnnotations (wireMap d) d) eqn:Hc; [apply wireMap_idem|].
  rewrite entries_wireMap, map_union_idemp. destruct d as [a|]; [done|discriminate Hc].
Qed.

Lemma compare_lookup a b k : CompareAnnotations a b = true → k ≠ LastAppliedConfigAnnotation → entries a !! k = entries b !! k.
Proof.
  intros Hc Hk. destruct a as [a|], b as [b|]; try done. simpl in *. apply orb_true_iff in Hc as [Hc|Hc].
  - apply bool_decide_eq_true_1 in Hc. by subst.
  - apply bool_decide_eq_true_1, (f_equal (lookup k)) in Hc. by rewrite !lookup_delete_ne in Hc by done.
Qed.

Lemma merge_lookup e d k : k ≠ LastAppliedConfigAnnotation →
  entries (MergeAnnotations e d) !! k = (entries d ∪ entries e) !! k.
Proof.
  intros Hk. unfold MergeAnnotations. destruct (CompareAnnotations e d) eqn:Hc; [|done].
  pose proof (compare_lookup _ _ _ Hc Hk) as Hl. rewrite lookup_union, <- Hl. by destruct (entries e !! k).
Qed.

Section upsert.
Context {O X : Type} `{!Resource O, !EqDecision X} (what : string) (spec : O -> X) `{!SpecLaws spec}.
Implicit Types (object stored old : O).

(** The object that [createOrUpdate] sends when [stored] exists *)
Definition mergedObject (stored object : O) : O :=
  setMeta {| (objMeta object) with
               om_Annotations := MergeAnnotations (om_Annotations (objMeta stored)) (om_Annotations (objMeta object));
               om_UID := om_UID (objMeta stored) |} object.

Definition upToDate (stored object : O) : bool :=
  bool_decide (spec stored = spec object) && mapsEqual (om_Labels (objMeta stored)) (om_Labels (objMeta object))
  && CompareAnnotations (om_Annotations (objMeta stored)) (om_Annotations (objMeta (mergedObject stored object))).

(** Running again changes nothing: nothing is sent, or what is stored already. *)
Definition settled (stored object : O) : Prop :=
  upToDate stored object = true ∨ updated stored (mergedObject stored object) = stored.

Lemma settled_created c object : settled (created c object) object.
Proof.
  right. unfold updated, mergedObject, created. rewrite !objMeta_setMeta. simpl.
  rewrite copyStatus_setMeta_l, copyStatus_setMeta_r, copyStatus_freshStatus, !setMeta_setMeta. simpl.
  unfold onWire. simpl. by rewrite wire_merge_self.
Qed.

Lemma settled_updated old object : onWire (objMeta old) = objMeta old →
  settled (updated old (mergedObject old object)) object.
Proof.
  intros Hw. apply onWire_maps in Hw as [_ Ha]. right. unfold updated, mergedObject.
  rewrite !objMeta_setMeta. simpl.
  rewrite !copyStatus_setMeta_l, !copyStatus_setMeta_r, !copyStatus_setMeta_l, copyStatus_copyStatus, !setMeta_setMeta.
  unfold onWire. simpl. by rewrite wire_merge_again.
Qed.

(** What a run leaves behind: the spec and the labels of the object, its annotations over
    those of the stored object (kubectl's record aside, which is not compared). *)
Record upserted (c : Cluster) (object stored : O) : Prop := {
  ups_key : objKey stored = objKey object;
  ups_settled : settled stored object;
  ups_spec : spec stored = spec object;
  ups_live : om_Deleting (objMeta stored) = false;
  ups_labels : entries (om_Labels (objMeta stored)) = entries (om_Labels (objMeta object));
  ups_annotations k : k ≠ LastAppliedConfigAnnotation →
    entries (om_Annotations (objMeta stored)) !! k =
    (entries (om_Annotations (objMeta object)) ∪
     entries (findObject O c (objKey object) ≫= λ old, om_Annotations (objMeta old))) !! k;
}.

Lemma upserted_created c object : findObject O c (objKey object) = None → upserted c object (created c object).
Proof.
  intros Hf. split; rewrite ?Hf; unfold created; rewrite ?objMeta_setMeta; simpl.
  - apply objKey_created.
  - apply settled_created.
  - by rewrite spec_setMeta, spec_freshStatus.
  - done.
  - by rewrite entries_wireMap.
  - intros k _. by rewrite entries_wireMap, (right_id_L ∅ (∪)).
Qed.

Section existing_object.
Context (c : Cluster) (object old : O).
Hypothesis (Hwf : well_formed c) (Hf : findObject O c (objKey object) = Some old).
Hypothesis Hdel : om_Deleting (objMeta old) = false.

Lemma objKey_mergedObject : objKey (mergedObject old object) = objKey object.
Proof. unfold objKey, mergedObject. by rewrite objMeta_setMeta. Qed.

Lemma upserted_updated : upserted c object (updated old (mergedObject old object)).
Proof.
  destruct (findObject_meta _ _ _ Hwf Hf) as [_ Hw]. split.
  - by rewrite objKey_updated, objKey_mergedObject.
  - by apply settled_updated.
  - unfold updated, mergedObject. by rewrite spec_setMeta, spec_copyStatus, spec_setMeta.
  - unfold updated. by rewrite objMeta_setMeta.
  - unfold updated, mergedObject. rewrite !objMeta_setMeta. simpl. by rewrite entries_wireMap.
  - intros k Hk. rewrite Hf. unfold updated, mergedObject. rewrite !objMeta_setMeta. simpl.
    rewrite entries_wireMap. by apply merge_lookup.
Qed.

Lemma upserted_same : upToDate old object = true → upserted c object old.
Proof.
  intros Hup. pose proof Hup as Hs. unfold upToDate, mergedObject in Hs. rewrite objMeta_setMeta in Hs.
  apply andb_true_iff in Hs as [[Hs%bool_decide_eq_true_1 Hl%bool_decide_eq_true_1]%andb_true_iff Ha].
  split; [by eapply findObject_key|by left|done|done|done|].
  intros k Hk. rewrite Hf. simpl in *. rewrite (compare_lookup _ _ _ Ha Hk). by apply merge_lookup.
Qed.
End existing_object.

Lemma createOrUpdate_unfold c object : cl_faults c = [] →
  createOrUpdate what spec object c =
  match findObject O c (objKey object) with
  | None => wrap ("failed to create " ⊕ what) (Create object) c
  | Some old =>
      if upToDate old object
      then (Ret (withAnnotations (MergeAnnotations (om_Annotations (objMeta old)) (om_Annotations (objMeta object))) object), c)
      else wrap ("failed to update " ⊕ what) (Update (mergedObject old object)) c
  end.
Proof.
  intros Hno. unfold createOrUpdate.
  rewrite (bind_eval _ _ _ _ _ (wrap_eval _ _ _ _ _ (GetIfExists_eval c Hno (objKey object)))).
  destruct (findObject O c (objKey object)) as [old|]; [|done].
  unfold upToDate, mergedObject, withAnnotations. rewrite spec_setMeta, !objMeta_setMeta, setMeta_setMeta. simpl.
  by destruct (_ && _).
Qed.

(** One run on a cluster whose calls go through *)
Lemma createOrUpdate_run c object :
  cl_faults c = [] → well_formed c →
  (∀ old, findObject O c (objKey object) = Some old → om_Deleting (objMeta old) = false) →
  ∃ stored left c', createOrUpdate what spec object c = (Ret left, c') ∧ upserted c object stored ∧
    cl_objects c' = <[storeKey O (objKey object) := inject stored]> (cl_objects c).
Proof.
  intros Hno Hwf Hdel. rewrite createOrUpdate_unfold by done.
  destruct (findObject O c (objKey object)) as [old|] eqn:Hf; [destruct (upToDate old object) eqn:Hup|].
  - eexists old, _, c. split_and!; [done|by apply upserted_same, Hup; auto|].
    apply findObject_Some in Hf as [Hl _]. by rewrite insert_id.
  - eexists _, _, _. split_and!; [|by apply upserted_updated; auto|].
    + eapply wrap_eval, (Update_eval c Hno _ old).
      * by rewrite objKey_mergedObject.
      * right. unfold mergedObject. by rewrite objMeta_setMeta.
    + simpl. by rewrite Hdel, objKey_mergedObject.
  - eexists _, _, _. split_and!; [|by apply upserted_created|].
    + by eapply wrap_eval, Create_eval.
    + done.
Qed.

(** A second run leaves the cluster as the first one did. *)
Lemma createOrUpdate_again c object stored :
  cl_faults c = [] → findObject O c (objKey object) = Some stored → settled stored object →
  om_Deleting (objMeta stored) = false → ∃ left, createOrUpdate what spec object c = (Ret left, c).
Proof.
  intros Hno Hf Hset Hdel. rewrite createOrUpdate_unfold, Hf by done.
  destruct (upToDate stored object) eqn:Hup; [eauto|]. destruct Hset as [Hs|Hs]; [congruence|].
  exists (updated stored (mergedObject stored object)). erewrite wrap_eval; [|apply (Update_eval c Hno _ stored)].
  - rewrite Hdel, Hs, objKey_mergedObject. simpl. apply findObject_Some in Hf as [Hl _].
    rewrite insert_id by done. by destruct c.
  - by rewrite objKey_mergedObject.
  - right. unfold mergedObject. by rewrite objMeta_setMeta.
Qed.
End upsert.

(** ** What [CreateUpdateRoute] stores *)

Lemma within_updateRoute (K : ObjectKey -> Prop) route : K (storeKey Route (objKey route)) → within (changes K) (updateRoute route).
Proof.
  intros HK. unfold updateRoute. eapply within_bind_yields; [apply _|apply yields_Get|within_solve|].
  intros old Hk. within_step; [|within_step]. apply within_Update. rewrite <- Hk in HK. exact HK.
Qed.

Lemma within_CreateUpdateRoute (K : ObjectKey -> Prop) route : K (storeKey Route (objKey route)) → within (changes K) (CreateUpdateRoute route).
Proof.
  intros HK. unfold CreateUpdateRoute, updateRouteIfNeeded. within_solve. all: by apply within_updateRoute.
Qed.

(** The stored Route is the desired one, with the status it had. *)
Record storedRoute (route r : Route) : Prop := {
  stored_endpoints : rt_Endpoints r = rt_Endpoints route;
  stored_source : rt_Source r = rt_Source route;
  stored_labels : entries (om_Labels (rt_Meta r)) = entries (om_Labels (rt_Meta route));
  stored_annotations : entries (om_Annotations (rt_Meta r)) = entries (om_Annotations (rt_Meta route));
}.

Lemma routeNeedsUpdate_false old route : routeNeedsUpdate old route = false → storedRoute route old.
Proof.
  unfold routeNeedsUpdate. repeat case_bool_decide; try done. intros _. destruct_and!. split; congruence.
Qed.

Lemma updateRoute_ok route old c : cl_faults c = [] → well_formed c → findObject Route c (objKey route) = Some old →
  ∃ r c', updateRoute route c = (Ret tt, c') ∧ changes (eq (storeKey Route (objKey route))) c c' ∧ cl_faults c' = [] ∧
    findObject Route c' (objKey route) = Some r ∧ storedRoute route r ∧ rt_Status r = rt_Status old.
Proof.
  intros Hno Hw Hf. unfold updateRoute. erewrite bind_eval by (rewrite Get_eval, Hf by done; reflexivity). cbv beta.
  set (o := {| old with rt_Endpoints := _; rt_Source := _; rt_Meta := _ |}). pose proof (findObject_key _ _ _ Hf) as Hk.
  assert (objKey o = objKey route) as Hko by (rewrite <- Hk; done).
  destruct (Update_stored c Hno o old) as (c' & Hu & Hch & Hno' & Hf').
  - by rewrite Hko.
  - by right.
  - by pose proof (findObject_meta _ _ _ Hw Hf) as [Hd _].
  - exists (updated old o), c'. rewrite Hko in *. split_and!; try done; [by rewrite (bind_eval _ _ _ _ _ Hu)|].
    split; try done; simpl; by rewrite entries_wireMap.
Qed.

Lemma CreateUpdateRoute_ok route c : cl_faults c = [] → well_formed c →
  ∃ r c', CreateUpdateRoute route c = (Ret tt, c') ∧ changes (eq (storeKey Route (objKey route))) c c' ∧ cl_faults c' = [] ∧
    findObject Route c' (objKey route) = Some r ∧ storedRoute route r ∧
    (∀ old, findObject Route c (objKey route) = Some old → rt_Status r = rt_Status old).
Proof.
  intros Hno Hw. unfold CreateUpdateRoute. erewrite bind_eval by (by eapply wrap_eval, GetIfExists_eval). cbv beta.
  destruct (findObject Route c (objKey route)) as [old|] eqn:Hf.
  - unfold updateRouteIfNeeded. destruct (routeNeedsUpdate old route) eqn:Hn.
    + destruct (updateRoute_ok route old c Hno Hw Hf) as (r & c' & Hu & Hc & Hno' & Hf' & Hs & Hst).
      exists r, c'. split_and!; [by apply wrap_eval, retry_eval|done..|by intros ? [= <-]].
    + exists old, c. split_and!; [done..|by apply routeNeedsUpdate_false|by intros ? [= <-]].
  - destruct (Create_stored c Hno route Hf) as (c' & Hc & Hch & Hno' & Hf').
    exists (created c route), c'. split_and!; [by erewrite bind_eval by (by eapply try_eval)|done..| |done].
    split; try done; simpl; by rewrite entries_wireMap.
Qed.
