(* ===== verification/ConvAnnotations.v ===== *)
(** * NGINX annotations to Gateway API filters

    [pkg/conversion/annotations]: the annotation keys ([annotations.go]), one handler per
    annotation ([redirects.go], [rewrite.go], [headers.go], [complex.go], [policies.go])
    and the converter that runs them in the order of their keys and removes duplicate
    filters ([converter.go]).

    [url.Parse] is a parameter: the handlers of the two URL redirects use the scheme, the
    host, the port and the path of its result, and print its error. *)

From Stdlib Require Import Ascii.
From S2P Require Import Prelude GoStrings Api GatewayApi.

Local Open Scope go_scope.

(** ** Annotation keys *)

Definition nginx (name : string) : string := "nginx.ingress.kubernetes.io/" ⊕ name.

Definition SSLRedirect : string := nginx "ssl-redirect".
Definition ForceSSLRedirect : string := nginx "force-ssl-redirect".
Definition PermanentRedirect : string := nginx "permanent-redirect".
Definition PermanentRedirectCode : string := nginx "permanent-redirect-code".
Definition TemporalRedirect : string := nginx "temporal-redirect".
Definition RewriteTarget : string := nginx "rewrite-target".
Definition AppRoot : string := nginx "app-root".
Definition CustomHeaders : string := nginx "custom-headers".
Definition ProxySetHeaders : string := nginx "proxy-set-headers".
Definition ProxyConnectTimeout : string := nginx "proxy-connect-timeout".
Definition ProxySendTimeout : string := nginx "proxy-send-timeout".
Definition ProxyReadTimeout : string := nginx "proxy-read-timeout".
Definition EnableCORS : string := nginx "enable-cors".
Definition CORSAllowOrigin : string := nginx "cors-allow-origin".
Definition CORSAllowMethods : string := nginx "cors-allow-methods".
Definition CORSAllowHeaders : string := nginx "cors-allow-headers".
Definition CORSExposeHeaders : string := nginx "cors-expose-headers".
Definition CORSAllowCredentials : string := nginx "cors-allow-credentials".
Definition CORSMaxAge : string := nginx "cors-max-age".
Definition LimitRPS : string := nginx "limit-rps".
Definition LimitConnections : string := nginx "limit-connections".
Definition WhitelistSourceRange : string := nginx "whitelist-source-range".
Definition DenylistSourceRange : string := nginx "denylist-source-range".
Definition ProxyBodySize : string := nginx "proxy-body-size".
Definition Affinity : string := nginx "affinity".
Definition SessionCookieName : string := nginx "session-cookie-name".
Definition SessionCookiePath : string := nginx "session-cookie-path".
Definition SessionCookieExpires : string := nginx "session-cookie-expires".
Definition SessionCookieSameSite : string := nginx "session-cookie-samesite".
Definition AuthType : string := nginx "auth-type".
Definition AuthURL : string := nginx "auth-url".
Definition AuthSecret : string := nginx "auth-secret".
Definition AuthRealm : string := nginx "auth-realm".
Definition BackendProtocol : string := nginx "backend-protocol".
Definition Canary : string := nginx "canary".
Definition CanaryWeight : string := nginx "canary-weight".
Definition CanaryWeightTotal : string := nginx "canary-weight-total".
Definition CanaryByHeader : string := nginx "canary-by-header".
Definition CanaryByHeaderValue : string := nginx "canary-by-header-value".
Definition CanaryByCookie : string := nginx "canary-by-cookie".
Definition ServerSnippet : string := nginx "server-snippet".
Definition ConfigurationSnippet : string := nginx "configuration-snippet".
Definition StreamSnippet : string := nginx "stream-snippet".
Definition EnableModSecurity : string := nginx "enable-modsecurity".
Definition EnableOWASPCoreRules : string := nginx "enable-owasp-core-rules".
Definition UpstreamHashBy : string := nginx "upstream-hash-by".
Definition UpstreamVhost : string := nginx "upstream-vhost".
Definition XForwardedPrefix : string := nginx "x-forwarded-prefix".
Definition ProxyRedirectFrom : string := nginx "proxy-redirect-from".
Definition ProxyRedirectTo : string := nginx "proxy-redirect-to".
Definition PreserveHost : string := nginx "preserve-host".
Definition SSLPassthrough : string := nginx "ssl-passthrough".
Definition ProxySSLSecret : string := nginx "proxy-ssl-secret".
Definition ProxySSLVerify : string := nginx "proxy-ssl-verify".
Definition ProxySSLName : string := nginx "proxy-ssl-name".
Definition ProxySSLServerName : string := nginx "proxy-ssl-server-name".
Definition LimitRPM : string := nginx "limit-rpm".
Definition UseRegex : string := nginx "use-regex".
Definition HSTS : string := nginx "hsts".
Definition HSTSMaxAge : string := nginx "hsts-max-age".
Definition HSTSIncludeSubdomains : string := nginx "hsts-include-subdomains".
Definition HSTSPreload : string := nginx "hsts-preload".

Definition AuthTypeBasic : string := "basic".
Definition boolTrue : string := "true".
Definition boolFalse : string := "false".
Definition schemeHTTPS : string := "https".
Definition defaultConfigEnabled : string := "enabled".
Definition affinityCookie : string := "cookie".
Definition authTypeDigest : string := "digest".
Definition backendProtocolGRPC : string := "GRPC".
Definition backendProtocolGRPCS : string := "GRPCS".

(** ** Handlers *)

(** The filters and warnings of one annotation; a handler gets the key, the value and all
    annotations of the Ingress. *)
Abbreviation Outcome := (list HTTPRouteFilter * list string)%type.
Definition AnnotationHandler : Type := string -> string -> StrMap -> Outcome.

Definition lookup_or_empty (annotations : StrMap) (key : string) : string := default "" (annotations !! key).
Local Notation "m .[ k ]" := (lookup_or_empty m k) (at level 2, format "m .[ k ]").

(** [if v := annotations[k]; v != "" { config = append(config, f(v)) }] *)
Definition when_set (value : string) (f : string -> string) : list string :=
  if bool_decide (value = "") then [] else [f value].

Definition config_or_enabled (config : list string) : string :=
  match config with
  | [] => defaultConfigEnabled
  | _ => Join config ", "
  end.

(** A warning for a non-empty value, nothing otherwise. *)
Definition warn_if_set (f : string -> string) : AnnotationHandler :=
  λ _ value _, ([], when_set value f).

Definition silent : AnnotationHandler := λ _ _ _, ([], []).

(** *** [redirects.go] *)

(** The parts of [url.URL] the handlers use; [Hostname] and [Port] split [Host]. *)
Record URL := {
  url_Scheme : string;
  url_Host : string;
  url_Hostname : string;
  url_Port : string;
  url_Path : string;
}.

Definition statusCodeToGatewayAPI (code : Z) : Z :=
  if bool_decide (code = 301 ∨ code = 308)%Z then 301
  else if bool_decide (code = 302 ∨ code = 303 ∨ code = 307)%Z then 302
  else 302.

Definition isValidRedirectCode (code : Z) : bool := ((300 <=? code) && (code <? 400))%Z.

Definition redirect_filter (r : HTTPRequestRedirectFilter) : HTTPRouteFilter :=
  {| f_Type := HTTPRouteFilterRequestRedirect; f_RequestHeaderModifier := None;
     f_ResponseHeaderModifier := None; f_RequestRedirect := Some r; f_URLRewrite := None; f_RequestMirror := None |}.

Definition createHTTPSRedirectFilter (statusCode : Z) : list HTTPRouteFilter :=
  [redirect_filter {| rr_Scheme := Some schemeHTTPS; rr_Hostname := None; rr_Path := None; rr_Port := None;
                      rr_StatusCode := Some (statusCodeToGatewayAPI statusCode) |}].

Definition redirectPort (portStr : string) : option Z :=
  if bool_decide (portStr = "") then None
  else match Atoi portStr with
       | Some port => if ((0 <? port) && (port <=? 65535))%Z then Some port else None
       | None => None
       end.

Definition createURLRedirectFilter (targetURL : URL) (statusCode : Z) : list HTTPRouteFilter :=
  let hasHost := negb (bool_decide (url_Host targetURL = "")) in
  [redirect_filter
     {| rr_Scheme := if bool_decide (url_Scheme targetURL = "") then None else Some (url_Scheme targetURL);
        rr_Hostname := if hasHost then Some (url_Hostname targetURL) else None;
        rr_Path := if bool_decide (url_Path targetURL = "" ∨ url_Path targetURL = "/") then None
                   else Some (ReplaceFullPath (url_Path targetURL));
        rr_Port := if hasHost then redirectPort (url_Port targetURL) else None;
        rr_StatusCode := Some (statusCodeToGatewayAPI statusCode) |}].

Definition handleSSLRedirect : AnnotationHandler := λ _ value annotations,
  if negb (bool_decide (value = boolTrue)) then ([], [])
  else if bool_decide (annotations !! ForceSSLRedirect = Some boolTrue) then ([], [])
  else (createHTTPSRedirectFilter 301, []).

Definition handleForceSSLRedirect : AnnotationHandler := λ _ value _,
  if negb (bool_decide (value = boolTrue)) then ([], []) else (createHTTPSRedirectFilter 301, []).

Definition empty_value_warning (key : string) : string := "annotation " ⊕ Quote key ⊕ " has empty value".

Definition permanentRedirectStatus (annotations : StrMap) : Z :=
  match annotations !! PermanentRedirectCode with
  | Some codeStr =>
      match Atoi codeStr with
      | Some code => if isValidRedirectCode code then code else 301
      | None => 301
      end
  | None => 301
  end.

Section redirects.
Context (url_Parse : string -> result URL).

(** The two URL redirects differ in their status code. *)
Definition redirect_to_url (key value : string) (statusCode : Z) : Outcome :=
  if bool_decide (value = "") then ([], [empty_value_warning key])
  else match url_Parse value with
       | Err err => ([], ["annotation " ⊕ Quote key ⊕ " has invalid URL " ⊕ Quote value ⊕ ": " ⊕ err])
       | Ok parsedURL => (createURLRedirectFilter parsedURL statusCode, [])
       end.

Definition handlePermanentRedirect : AnnotationHandler := λ key value annotations,
  redirect_to_url key value (permanentRedirectStatus annotations).

Definition handleTemporalRedirect : AnnotationHandler := λ key value _, redirect_to_url key value 302.
End redirects.

Definition handlePermanentRedirectCode : AnnotationHandler := silent.

(** *** [rewrite.go] *)

(** [value[i] == '$'] followed by a digit *)
Definition group_at (s : string) : bool :=
  match s with
  | String "$" (String d _) => is_digit d
  | _ => false
  end.

Fixpoint containsCaptureGroup (value : string) : bool :=
  match value with
  | "" => false
  | String _ rest => group_at value || containsCaptureGroup rest
  end.

(** The loop of [stripCaptureGroups]; [digits] says that it is skipping the digits of a
    group it has just removed. *)
Fixpoint strip_loop (digits : bool) (value : string) : string :=
  match value with
  | "" => ""
  | String a rest =>
      if digits && is_digit a then strip_loop true rest
      else if group_at value then strip_loop true rest
      else String a (strip_loop false rest)
  end.

Definition stripCaptureGroups (value : string) : string :=
  let stripped := strip_loop false value in
  if bool_decide (stripped = "") then "/" else stripped.

Definition rewrite_filter (prefix : string) : HTTPRouteFilter :=
  {| f_Type := HTTPRouteFilterURLRewrite; f_RequestHeaderModifier := None;
     f_ResponseHeaderModifier := None; f_RequestRedirect := None;
     f_URLRewrite := Some {| ur_Path := Some (ReplacePrefixMatch prefix) |}; f_RequestMirror := None |}.

Definition handleRewriteTarget : AnnotationHandler := λ key value annotations,
  if bool_decide (value = "") then ([], [empty_value_warning key])
  else
    let '(value, warnings) :=
      if containsCaptureGroup value then
        (stripCaptureGroups value,
         ["annotation " ⊕ Quote key ⊕ " uses capture groups (" ⊕ value ⊕
          ") which require regex path matching; converted to simple prefix replacement"])
      else (value, []) in
    if bool_decide (annotations !! UseRegex = Some boolTrue) then
      ([], warnings ++
           ["rewrite-target=" ⊕ Quote value ⊕
            " with use-regex=true cannot be converted; Gateway API ReplacePrefixMatch requires PathPrefix path type, not RegularExpression"])
    else ([rewrite_filter value], warnings).

Definition handleAppRoot : AnnotationHandler := λ key value _,
  if bool_decide (value = "") then ([], [empty_value_warning key])
  else
    let value := if HasPrefix value "/" then value else "/" ⊕ value in
    ([], ["app-root=" ⊕ Quote value ⊕ " requires manual HTTPRoute: create separate rule with path=" ⊕
          dquote ⊕ "/" ⊕ dquote ⊕ " (Exact) and RequestRedirect filter to " ⊕ Quote value ⊕
          "; cannot auto-convert as filter would apply to all paths"]).

Definition handleUseRegex : AnnotationHandler := λ _ value _,
  if negb (bool_decide (value = boolTrue)) then ([], [])
  else ([], ["use-regex=true converted to pathType: RegularExpression (support is implementation-specific)"]).

(** *** [headers.go] *)

(** One pair of the list: nothing, a warning or a header. *)
Inductive HeaderPair :=
| HeaderBlank
| HeaderWarning (w : string)
| HeaderParsed (h : HTTPHeader).

Definition parseHeaderPair (p : string) : HeaderPair :=
  let p := TrimSpace p in
  if bool_decide (p = "") then HeaderBlank
  else match Cut p ":" with
       | None => HeaderWarning ("invalid header format " ⊕ Quote p ⊕ ", expected 'Name:Value'")
       | Some (name, headerValue) =>
           let name := TrimSpace name in
           if bool_decide (name = "") then HeaderWarning ("empty header name in " ⊕ Quote p)
           else HeaderParsed {| hd_Name := name; hd_Value := TrimSpace headerValue |}
       end.

Fixpoint parseHeaderPairs (pairs : list string) : list HTTPHeader * list string :=
  match pairs with
  | [] => ([], [])
  | p :: pairs =>
      let '(headers, warnings) := parseHeaderPairs pairs in
      match parseHeaderPair p with
      | HeaderBlank => (headers, warnings)
      | HeaderWarning w => (headers, w :: warnings)
      | HeaderParsed h => (h :: headers, warnings)
      end
  end.

Definition parseHeaderList (value : string) : list HTTPHeader * list string := parseHeaderPairs (Split value ",").

Definition request_header_filter (h : HTTPHeaderFilter) : HTTPRouteFilter :=
  {| f_Type := HTTPRouteFilterRequestHeaderModifier; f_RequestHeaderModifier := Some h;
     f_ResponseHeaderModifier := None; f_RequestRedirect := None; f_URLRewrite := None; f_RequestMirror := None |}.

Definition response_header_filter (h : HTTPHeaderFilter) : HTTPRouteFilter :=
  {| f_Type := HTTPRouteFilterResponseHeaderModifier; f_RequestHeaderModifier := None;
     f_ResponseHeaderModifier := Some h; f_RequestRedirect := None; f_URLRewrite := None; f_RequestMirror := None |}.

(** Both list annotations parse alike; they differ in the filter they make. *)
Definition header_list (name value : string) (make : list HTTPHeader -> HTTPRouteFilter) : Outcome :=
  if bool_decide (value = "") then ([], [])
  else if Contains value "/" && negb (Contains value ":") then
    ([], [name ⊕ " references ConfigMap " ⊕ Quote value ⊕ "; manual conversion required"])
  else
    let '(headers, parseWarnings) := parseHeaderList value in
    match headers with
    | [] => ([], parseWarnings)
    | _ => ([make headers], parseWarnings)
    end.

Definition handleProxySetHeaders : AnnotationHandler := λ _ value _,
  header_list "proxy-set-headers" value (λ headers, request_header_filter {| hf_Set := headers; hf_Add := [] |}).

Definition handleCustomHeaders : AnnotationHandler := λ _ value _,
  header_list "custom-headers" value (λ headers, response_header_filter {| hf_Set := []; hf_Add := headers |}).

Definition set_request_header (name value : string) : Outcome :=
  if bool_decide (value = "") then ([], [])
  else ([request_header_filter {| hf_Set := [{| hd_Name := name; hd_Value := value |}]; hf_Add := [] |}], []).

Definition handleUpstreamVhost : AnnotationHandler := λ _ value _, set_request_header "Host" value.
Definition handleXForwardedPrefix : AnnotationHandler := λ _ value _, set_request_header "X-Forwarded-Prefix" value.

Definition handlePreserveHost : AnnotationHandler := λ _ value _,
  if negb (bool_decide (value = boolFalse)) then ([], [])
  else ([], ["preserve-host=false requires URLRewrite filter with Hostname at backend level; " ⊕
             "add filter to BackendRef: filters: [{type: URLRewrite, urlRewrite: {hostname: <service-name>}}]"]).

Definition buildHSTSHeaderValue (annotations : StrMap) : string :=
  let maxAge := if bool_decide (annotations.[HSTSMaxAge] = "") then "31536000" else annotations.[HSTSMaxAge] in
  "max-age=" ⊕ maxAge ⊕
  (if bool_decide (annotations !! HSTSIncludeSubdomains = Some boolTrue) then "; includeSubDomains" else "") ⊕
  (if bool_decide (annotations !! HSTSPreload = Some boolTrue) then "; preload" else "").

Definition handleHSTS : AnnotationHandler := λ _ value annotations,
  if negb (bool_decide (value = boolTrue)) then ([], [])
  else ([response_header_filter
           {| hf_Set := [{| hd_Name := "Strict-Transport-Security"; hd_Value := buildHSTSHeaderValue annotations |}];
              hf_Add := [] |}], []).

Definition handleHSTSAnnotation : AnnotationHandler := silent.

(** *** [complex.go] *)

Definition handleAffinity : AnnotationHandler := λ _ value annotations,
  if bool_decide (value = "") then ([], [])
  else if negb (bool_decide (value = affinityCookie)) then
    ([], ["affinity=" ⊕ Quote value ⊕ " is not supported; only 'cookie' affinity can be converted"])
  else
    let config :=
      when_set annotations.[SessionCookieName] (λ v, "name=" ⊕ Quote v) ++
      when_set annotations.[SessionCookiePath] (λ v, "path=" ⊕ Quote v) ++
      when_set annotations.[SessionCookieExpires] (λ v, "ttl=" ⊕ v) ++
      when_set annotations.[SessionCookieSameSite] (λ v, "sameSite=" ⊕ v) in
    ([], ["affinity=cookie requires BackendTrafficPolicy: spec.sessionPersistence.type=Cookie, cookie={" ⊕
          config_or_enabled config ⊕ "}"]).

Definition handleSessionCookieAnnotation : AnnotationHandler := silent.

Definition digest_warning : string :=
  "auth-type=digest is not supported in Gateway API; consider using basic auth or external auth".

(** What both auth-type handlers say of a type that is not basic. *)
Definition unsupported_auth_type (value : string) : Outcome :=
  if bool_decide (value = authTypeDigest) then ([], [digest_warning])
  else ([], ["auth-type=" ⊕ Quote value ⊕ " is not supported"]).

Definition handleAuthType : AnnotationHandler := λ _ value annotations,
  if bool_decide (value = "") then ([], [])
  else if bool_decide (value = AuthTypeBasic) then
    let config :=
      when_set annotations.[AuthSecret] (λ v, "secretRef=" ⊕ Quote v) ++
      when_set annotations.[AuthRealm] (λ v, "realm=" ⊕ Quote v) in
    ([], ["auth-type=basic requires SecurityPolicy: spec.basicAuth={" ⊕ config_or_enabled config ⊕ "}"])
  else unsupported_auth_type value.

Definition handleAuthTypeSilent : AnnotationHandler := λ _ value _,
  if bool_decide (value = "") then ([], [])
  else if bool_decide (value = AuthTypeBasic) then ([], [])
  else unsupported_auth_type value.

Definition handleAuthURL : AnnotationHandler :=
  warn_if_set (λ v, "auth-url=" ⊕ Quote v ⊕ " requires SecurityPolicy: spec.extAuth.http.url=" ⊕ Quote v).

Definition handleAuthAnnotation : AnnotationHandler := silent.

Definition handleBackendProtocol : AnnotationHandler := λ _ value _,
  if bool_decide (value = "") then ([], [])
  else
    let value := ToUpper value in
    if bool_decide (value = backendProtocolGRPC ∨ value = backendProtocolGRPCS) then
      ([], ["backend-protocol=" ⊕ value ⊕
            " indicates this Ingress should be converted to GRPCRoute instead of HTTPRoute"])
    else if bool_decide (value = "HTTPS") then
      ([], ["backend-protocol=HTTPS requires BackendTLSPolicy to configure TLS to the backend"])
    else if bool_decide (value = "HTTP") then ([], [])
    else if bool_decide (value = "FCGI") then
      ([], ["backend-protocol=FCGI is not supported in Gateway API"])
    else ([], ["backend-protocol=" ⊕ Quote value ⊕ " is not recognized"]).

Definition canaryConfig (annotations : StrMap) : list string :=
  let weight := annotations.[CanaryWeight] in
  let header := annotations.[CanaryByHeader] in
  let headerVal := annotations.[CanaryByHeaderValue] in
  (if bool_decide (weight = "") then []
   else ("weight=" ⊕ weight) :: when_set annotations.[CanaryWeightTotal] (λ total, "total=" ⊕ total)) ++
  (if bool_decide (header = "") then []
   else if bool_decide (headerVal = "") then ["header=" ⊕ header]
   else ["header=" ⊕ header ⊕ ":" ⊕ headerVal]) ++
  when_set annotations.[CanaryByCookie] (λ cookie, "cookie=" ⊕ cookie).

Definition handleCanaryEnabled : AnnotationHandler := λ _ value annotations,
  if negb (bool_decide (value = boolTrue)) then ([], [])
  else match canaryConfig annotations with
       | [] => ([], ["canary ingresses should be converted to weighted HTTPRoute backends"])
       | config => ([], ["canary ingress with {" ⊕ Join config ", " ⊕
                         "} should be converted to HTTPRoute with weighted backends or header matches"])
       end.

Definition handleCanaryAnnotation : AnnotationHandler := silent.

Definition handleSSLPassthrough : AnnotationHandler := λ _ value _,
  if negb (bool_decide (value = boolTrue)) then ([], [])
  else ([], ["ssl-passthrough=true requires TLSRoute instead of HTTPRoute; " ⊕
             "create a TLSRoute with passthrough mode to forward encrypted traffic directly to backend"]).

(** *** [policies.go] *)

Definition has_unit (value : string) : bool := HasSuffix value "s" || HasSuffix value "m" || HasSuffix value "h".

Definition normalizeTimeout (value : string) : string :=
  let value := TrimSpace value in
  if has_unit value then value
  else match Atoi value with
       | Some _ => value ⊕ "s"
       | None => value
       end.

(** The non-blank items of a comma-separated list *)
Definition list_items (value : string) : list string :=
  filter (λ p, p ≠ "") (TrimSpace <$> Split value ",").

Definition formatStringList (value : string) : string := Join (Quote <$> list_items value) ", ".

Definition timeout_warning (name field : string) : AnnotationHandler :=
  warn_if_set (λ v, name ⊕ "=" ⊕ Quote v ⊕ " requires BackendTrafficPolicy: " ⊕ field ⊕ "=" ⊕ normalizeTimeout v).

Definition handleProxyConnectTimeout := timeout_warning "proxy-connect-timeout" "spec.timeout.tcp.connectTimeout".
Definition handleProxyReadTimeout := timeout_warning "proxy-read-timeout" "spec.timeout.http.requestTimeout".
Definition handleProxySendTimeout := timeout_warning "proxy-send-timeout" "spec.timeout.http.requestTimeout".

Definition handleEnableCORS : AnnotationHandler := λ _ value annotations,
  if negb (bool_decide (value = boolTrue)) then ([], [])
  else
    let corsConfig :=
      when_set annotations.[CORSAllowOrigin] (λ v, "allowOrigins: [" ⊕ formatStringList v ⊕ "]") ++
      when_set annotations.[CORSAllowMethods] (λ v, "allowMethods: [" ⊕ formatStringList v ⊕ "]") ++
      when_set annotations.[CORSAllowHeaders] (λ v, "allowHeaders: [" ⊕ formatStringList v ⊕ "]") ++
      when_set annotations.[CORSExposeHeaders] (λ v, "exposeHeaders: [" ⊕ formatStringList v ⊕ "]") ++
      when_set annotations.[CORSMaxAge] (λ v, "maxAge: " ⊕ v) ++
      (if bool_decide (annotations.[CORSAllowCredentials] = boolTrue) then ["allowCredentials: true"] else []) in
    ([], ["enable-cors=true requires SecurityPolicy: spec.cors={" ⊕ config_or_enabled corsConfig ⊕ "}"]).

Definition handleCORSAnnotation : AnnotationHandler := silent.

(** The limits: a number, or a warning that it is none. *)
Definition limit_warning (name field unit : string) : AnnotationHandler :=
  warn_if_set (λ v,
    match Atoi v with
    | None => name ⊕ "=" ⊕ Quote v ⊕ " is not a valid number"
    | Some n => name ⊕ "=" ⊕ Itoa n ⊕ " requires BackendTrafficPolicy: " ⊕ field ⊕ "=" ⊕ Itoa n ⊕ unit
    end).

Definition handleLimitRPS := limit_warning "limit-rps" "spec.rateLimit.local.requests" ", unit=Second".
Definition handleLimitRPM := limit_warning "limit-rpm" "spec.rateLimit.local.requests" ", unit=Minute".
Definition handleLimitConnections := limit_warning "limit-connections" "spec.circuitBreaker.maxConnections" "".

Definition source_range_warning (name action : string) : AnnotationHandler :=
  warn_if_set (λ v, name ⊕ "=" ⊕ Quote v ⊕ " requires SecurityPolicy: spec.authorization.rules[].action=" ⊕ action ⊕
                    ", from.source.cidr=[" ⊕ formatStringList v ⊕ "]").

Definition handleWhitelistSourceRange := source_range_warning "whitelist-source-range" "Allow".
Definition handleDenylistSourceRange := source_range_warning "denylist-source-range" "Deny".

Definition handleProxyBodySize : AnnotationHandler :=
  warn_if_set (λ v, "proxy-body-size=" ⊕ Quote v ⊕
                    " requires ClientTrafficPolicy: spec.clientConfig.requestBodySize=" ⊕ v).

Definition handleProxySSLSecret : AnnotationHandler :=
  warn_if_set (λ v, "proxy-ssl-secret=" ⊕ Quote v ⊕
                    " requires BackendTLSPolicy: spec.tls.clientCertificateRef.name=" ⊕ v).

Definition handleProxySSLVerify : AnnotationHandler :=
  warn_if_set (λ v, "proxy-ssl-verify=" ⊕ Quote v ⊕
                    " requires BackendTLSPolicy: configure spec.validation for server certificate verification").

Definition handleProxySSLName : AnnotationHandler :=
  warn_if_set (λ v, "proxy-ssl-name=" ⊕ Quote v ⊕ " requires BackendTLSPolicy: spec.validation.hostname=" ⊕ v).

Definition handleProxySSLServerName : AnnotationHandler := λ key value annotations,
  if bool_decide (value = "off") then ([], [])
  else warn_if_set (λ v, "proxy-ssl-server-name=" ⊕ Quote v ⊕
                         " requires BackendTLSPolicy: configure SNI through spec.validation.hostname")
         key value annotations.

(** *** [converter.go] *)

Definition handleNotSupported : AnnotationHandler := λ key _ _,
  ([], ["annotation " ⊕ Quote key ⊕ " is not supported in Gateway API conversion"]).

Definition handlePolicyAnnotationSilent : AnnotationHandler := silent.

(** ** The converter *)

Section converter.
Context (url_Parse : string -> result URL).

(** The registrations that do not depend on the option *)
Definition plainHandlers : list (string * AnnotationHandler) :=
  [(SSLRedirect, handleSSLRedirect); (ForceSSLRedirect, handleForceSSLRedirect);
   (PermanentRedirect, handlePermanentRedirect url_Parse); (PermanentRedirectCode, handlePermanentRedirectCode);
   (TemporalRedirect, handleTemporalRedirect url_Parse);
   (RewriteTarget, handleRewriteTarget); (AppRoot, handleAppRoot); (UseRegex, handleUseRegex);
   (CustomHeaders, handleCustomHeaders); (ProxySetHeaders, handleProxySetHeaders);
   (UpstreamVhost, handleUpstreamVhost); (XForwardedPrefix, handleXForwardedPrefix);
   (PreserveHost, handlePreserveHost);
   (HSTS, handleHSTS); (HSTSMaxAge, handleHSTSAnnotation); (HSTSIncludeSubdomains, handleHSTSAnnotation);
   (HSTSPreload, handleHSTSAnnotation);
   (ProxyBodySize, handleProxyBodySize);
   (Affinity, handleAffinity); (SessionCookieName, handleSessionCookieAnnotation);
   (SessionCookiePath, handleSessionCookieAnnotation); (SessionCookieExpires, handleSessionCookieAnnotation);
   (SessionCookieSameSite, handleSessionCookieAnnotation);
   (AuthURL, handleAuthURL); (BackendProtocol, handleBackendProtocol);
   (Canary, handleCanaryEnabled); (CanaryWeight, handleCanaryAnnotation);
   (CanaryWeightTotal, handleCanaryAnnotation); (CanaryByHeader, handleCanaryAnnotation);
   (CanaryByHeaderValue, handleCanaryAnnotation); (CanaryByCookie, handleCanaryAnnotation);
   (SSLPassthrough, handleSSLPassthrough); (ProxySSLSecret, handleProxySSLSecret);
   (ProxySSLVerify, handleProxySSLVerify); (ProxySSLName, handleProxySSLName);
   (ProxySSLServerName, handleProxySSLServerName);
   (ServerSnippet, handleNotSupported); (ConfigurationSnippet, handleNotSupported);
   (StreamSnippet, handleNotSupported); (EnableModSecurity, handleNotSupported);
   (EnableOWASPCoreRules, handleNotSupported); (UpstreamHashBy, handleNotSupported)].

(** The annotations that become Envoy Gateway policies, with the handler that warns
    about them and the one used when the policies are created. *)
Definition policyHandlers : list (string * (AnnotationHandler * AnnotationHandler)) :=
  [(ProxyConnectTimeout, (handleProxyConnectTimeout, handlePolicyAnnotationSilent));
   (ProxyReadTimeout, (handleProxyReadTimeout, handlePolicyAnnotationSilent));
   (ProxySendTimeout, (handleProxySendTimeout, handlePolicyAnnotationSilent));
   (EnableCORS, (handleEnableCORS, handlePolicyAnnotationSilent));
   (CORSAllowOrigin, (handleCORSAnnotation, handlePolicyAnnotationSilent));
   (CORSAllowMethods, (handleCORSAnnotation, handlePolicyAnnotationSilent));
   (CORSAllowHeaders, (handleCORSAnnotation, handlePolicyAnnotationSilent));
   (CORSExposeHeaders, (handleCORSAnnotation, handlePolicyAnnotationSilent));
   (CORSAllowCredentials, (handleCORSAnnotation, handlePolicyAnnotationSilent));
   (CORSMaxAge, (handleCORSAnnotation, handlePolicyAnnotationSilent));
   (LimitRPS, (handleLimitRPS, handlePolicyAnnotationSilent));
   (LimitRPM, (handleLimitRPM, handlePolicyAnnotationSilent));
   (LimitConnections, (handleLimitConnections, handlePolicyAnnotationSilent));
   (WhitelistSourceRange, (handleWhitelistSourceRange, handlePolicyAnnotationSilent));
   (DenylistSourceRange, (handleDenylistSourceRange, handlePolicyAnnotationSilent));
   (AuthType, (handleAuthType, handleAuthTypeSilent));
   (AuthSecret, (handleAuthAnnotation, handlePolicyAnnotationSilent));
   (AuthRealm, (handleAuthAnnotation, handlePolicyAnnotationSilent))].

(** [NewConverterWithOptions] and [registerHandlers]; the keys are distinct, so the order of
    the registrations does not matter ([registered_once]). *)
Definition registerHandlers (skipPolicyWarnings : bool) : gmap string AnnotationHandler :=
  list_to_map (plainHandlers ++
    ((λ '(k, (warn, quiet)), (k, if skipPolicyWarnings then quiet else warn)) <$> policyHandlers)).

Record AnnotationConversionResult := {
  Filters : list HTTPRouteFilter;
  Warnings : list string;
  Processed : list string;
}.

(** [deduplicateFilters]: the last filter of each type, in the order of the last ones. *)
Definition lastIndex (filters : list HTTPRouteFilter) : gmap HTTPRouteFilterType nat :=
  foldl (λ seen '(i, f), <[f_Type f := i]> seen) ∅ (imap pair filters).

Definition deduplicateFilters (filters : list HTTPRouteFilter) : list HTTPRouteFilter :=
  let seen := lastIndex filters in
  if bool_decide (size seen = length filters) then filters
  else snd <$> filter (λ '(i, f), seen !! f_Type f = Some i) (imap pair filters).

Definition run_handler (handlers : gmap string AnnotationHandler) (annotations : StrMap) (key : string) : Outcome :=
  match handlers !! key with
  | Some handler => handler key annotations.[key] annotations
  | None => ([], [])
  end.

Definition handled_keys (handlers : gmap string AnnotationHandler) (annotations : StrMap) : list string :=
  sort_strings (filter (λ k, is_Some (handlers !! k)) (map_to_list annotations).*1).

Definition Convert (skipPolicyWarnings : bool) (annotations : GoMap) : AnnotationConversionResult :=
  match annotations with
  | None => {| Filters := []; Warnings := []; Processed := [] |}
  | Some annotations =>
      let handlers := registerHandlers skipPolicyWarnings in
      let keys := handled_keys handlers annotations in
      let outcomes := run_handler handlers annotations <$> keys in
      {| Filters := deduplicateFilters (mjoin outcomes.*1);
         Warnings := mjoin outcomes.*2;
         Processed := keys |}
  end.
End converter.

(** ** Lemmas: removing duplicate filters *)

(** Reference definition: drop a filter when a later one has its type. *)
Fixpoint keep_last (filters : list HTTPRouteFilter) : list HTTPRouteFilter :=
  match filters with
  | [] => []
  | f :: filters =>
      if bool_decide (f_Type f ∈ f_Type <$> filters) then keep_last filters else f :: keep_last filters
  end.

Lemma keep_last_snoc fs x : keep_last (fs ++ [x]) = filter (λ f, f_Type f ≠ f_Type x) (keep_last fs) ++ [x].
Proof.
  induction fs as [|f fs IH]; [done|]. simpl. rewrite fmap_app. simpl.
  destruct (decide (f_Type f ∈ f_Type <$> fs)) as [Hin|Hin].
  - rewrite !bool_decide_eq_true_2 by (try apply elem_of_app; auto). done.
  - rewrite (bool_decide_eq_false_2 (f_Type f ∈ f_Type <$> fs)) by done.
    destruct (decide (f_Type f = f_Type x)) as [He|He].
    + rewrite bool_decide_eq_true_2 by (rewrite He; apply elem_of_snoc; auto).
      rewrite filter_cons_False by (by intros Hn; apply Hn). done.
    + rewrite bool_decide_eq_false_2 by (rewrite elem_of_snoc; naive_solver).
      rewrite filter_cons_True by done. simpl. by rewrite IH.
Qed.

Lemma elem_of_keep_last fs f : f ∈ keep_last fs → f ∈ fs.
Proof.
  induction fs as [|g fs IH]; [done|]. simpl. case_bool_decide; rewrite ?elem_of_cons; naive_solver.
Qed.

Lemma keep_last_types fs t : t ∈ f_Type <$> keep_last fs ↔ t ∈ f_Type <$> fs.
Proof.
  induction fs as [|g fs IH]; [done|]. simpl. case_bool_decide as Hin; simpl; rewrite !elem_of_cons.
  - rewrite IH. naive_solver.
  - by rewrite IH.
Qed.

Lemma keep_last_NoDup fs : NoDup (f_Type <$> keep_last fs).
Proof.
  induction fs as [|f fs IH]; [constructor|]. simpl. case_bool_decide as Hin; [done|].
  simpl. constructor; [|done]. by rewrite keep_last_types.
Qed.

Lemma keep_last_id fs : NoDup (f_Type <$> fs) → keep_last fs = fs.
Proof.
  induction fs as [|f fs IH]; [done|]. simpl. intros [Hin Hnd]%NoDup_cons.
  rewrite bool_decide_eq_false_2 by done. by rewrite IH.
Qed.

Lemma keep_last_last fs f : f ∈ keep_last fs →
  ∃ pre post, fs = pre ++ f :: post ∧ f_Type f ∉ f_Type <$> post.
Proof.
  induction fs as [|g fs IH]; simpl; [by intros ?%elem_of_nil|]. case_bool_decide as Hin.
  - intros (pre & post & -> & ?)%IH. by exists (g :: pre), post.
  - intros [->|(pre & post & -> & ?)%IH]%elem_of_cons; [by exists [], fs|by exists (g :: pre), post].
Qed.

Lemma lastIndex_snoc fs x : lastIndex (fs ++ [x]) = <[f_Type x := length fs]> (lastIndex fs).
Proof. unfold lastIndex. rewrite imap_app, foldl_app. simpl. by rewrite Nat.add_0_r. Qed.

Lemma lastIndex_None fs t : lastIndex fs !! t = None ↔ t ∉ f_Type <$> fs.
Proof.
  induction fs as [|x fs IH] using rev_ind; [split; [intros _; apply not_elem_of_nil|done]|].
  rewrite lastIndex_snoc, fmap_app, lookup_insert_None, IH, elem_of_app, fmap_cons, list_elem_of_singleton.
  naive_solver.
Qed.

Lemma lastIndex_size fs :
  size (lastIndex fs) ≤ length fs ∧ (size (lastIndex fs) = length fs → NoDup (f_Type <$> fs)).
Proof.
  induction fs as [|x fs [IHle IH]] using rev_ind; [split; [done|constructor]|].
  rewrite lastIndex_snoc, map_size_insert, fmap_app, length_app. simpl.
  destruct (lastIndex fs !! f_Type x) as [i|] eqn:Hl; simpl.
  - split; lia.
  - split; [lia|]. intros Hs. apply NoDup_app. split_and!; [apply IH; lia| |apply NoDup_singleton].
    intros t Ht ->%list_elem_of_singleton. by apply lastIndex_None in Hl.
Qed.

Lemma imap_pair_bound {A} (l : list A) i x : (i, x) ∈ imap pair l → i < length l.
Proof. intros (j & y & [= -> ->] & Hy%lookup_lt_Some)%elem_of_lookup_imap_1. done. Qed.

Lemma filter_lastIndex fs :
  snd <$> filter (λ '(i, f), lastIndex fs !! f_Type f = Some i) (imap pair fs) = keep_last fs.
Proof.
  induction fs as [|x fs IH] using rev_ind; [done|].
  rewrite keep_last_snoc, <-IH, imap_app, filter_app, fmap_app. simpl. f_equal.
  - rewrite filter_map. f_equal. rewrite list_filter_filter. apply filter_ext_in.
    intros [i f] Hin%imap_pair_bound. simpl. rewrite lastIndex_snoc.
    destruct (decide (f_Type f = f_Type x)) as [->|He].
    + rewrite lookup_insert_eq. split; [intros [= <-]; lia|naive_solver].
    + rewrite lookup_insert_ne by done. naive_solver.
  - rewrite filter_cons_True; [done|]. by rewrite lastIndex_snoc, lookup_insert_eq, Nat.add_0_r.
Qed.

Lemma deduplicateFilters_keep_last fs : deduplicateFilters fs = keep_last fs.
Proof.
  unfold deduplicateFilters. case_bool_decide as Hs; [|apply filter_lastIndex].
  symmetry. apply keep_last_id. by apply lastIndex_size.
Qed.

(** ** Lemmas: capture groups *)

(** No group can start at the head of what the loop leaves. *)
Lemma strip_loop_head d s : ∃ t, strip_loop d s = t ∧
  (d = true → match t with String a _ => is_digit a = false | "" => True end).
Proof.
  eexists. split; [done|]. intros ->. induction s as [|a s IH]; [done|]. cbn [strip_loop andb].
  destruct (is_digit a) eqn:Ha; [done|]. destruct (group_at (String a s)); done.
Qed.

Lemma strip_loop_second a s d :
  group_at (String a s) = false → d && is_digit a = false →
  group_at (String a (strip_loop false s)) = false.
Proof.
  intros Hg _. destruct s as [|b s]; [done|]. cbn [strip_loop andb].
  destruct (group_at (String b s)) eqn:Hb; [|by destruct a as [[] [] [] [] [] [] [] []]].
  destruct (strip_loop_head true s) as (t & -> & Ht). specialize (Ht eq_refl).
  destruct t as [|c t]; [by destruct a as [[] [] [] [] [] [] [] []]|].
  destruct a as [[] [] [] [] [] [] [] []]; done.
Qed.

Lemma strip_loop_no_group d s : containsCaptureGroup (strip_loop d s) = false.
Proof.
  revert d. induction s as [|a s IH]; intros d; [done|]. cbn [strip_loop].
  destruct (d && is_digit a) eqn:Hd; [apply IH|].
  destruct (group_at (String a s)) eqn:Hg; [apply IH|].
  cbn [containsCaptureGroup]. rewrite IH, orb_false_r. by eapply strip_loop_second.
Qed.

Lemma strip_loop_id s : containsCaptureGroup s = false → strip_loop false s = s.
Proof.
  induction s as [|a s IH]; [done|]. cbn [containsCaptureGroup strip_loop andb].
  intros [-> Hs]%orb_false_iff. by rewrite IH.
Qed.

(** ** Lemmas: the handlers *)

Lemma statusCode_valid c : statusCodeToGatewayAPI c = 301%Z ∨ statusCodeToGatewayAPI c = 302%Z.
Proof. unfold statusCodeToGatewayAPI. repeat case_bool_decide; auto. Qed.

Lemma redirectPort_range s p : redirectPort s = Some p → (1 ≤ p ≤ 65535)%Z.
Proof.
  unfold redirectPort. case_bool_decide; [done|]. destruct (Atoi s) as [q|]; [|done].
  destruct ((0 <? q) && (q <=? 65535))%Z eqn:Hq; [|done]. intros [= <-]. lia.
Qed.

Lemma parseHeaderPairs_valid pairs : Forall valid_header (parseHeaderPairs pairs).1.
Proof.
  induction pairs as [|p pairs IH]; [constructor|]. simpl.
  destruct (parseHeaderPairs pairs) as [hs ws]. simpl in IH.
  destruct (parseHeaderPair p) as [| |h] eqn:Hp; simpl; [done..|]. constructor; [|done].
  unfold parseHeaderPair in Hp. repeat (case_bool_decide || case_match); try done.
  by injection Hp as <-.
Qed.

(** A filter that may go into a rule of this Ingress: valid, and no prefix rewrite when
    the paths are regular expressions. *)
Definition filter_ok (annotations : StrMap) (f : HTTPRouteFilter) : Prop :=
  valid_filter f ∧
  (f_Type f = HTTPRouteFilterURLRewrite → annotations !! UseRegex ≠ Some boolTrue).

Definition handler_ok (h : AnnotationHandler) : Prop :=
  ∀ key value annotations, Forall (filter_ok annotations) (h key value annotations).1.

Lemma redirect_filter_ok a r : valid_redirect r → filter_ok a (redirect_filter r).
Proof. by split. Qed.

Lemma https_redirect_ok a c : Forall (filter_ok a) (createHTTPSRedirectFilter c).
Proof.
  apply Forall_singleton, redirect_filter_ok. split; simpl; [|done].
  destruct (statusCode_valid c) as [->| ->]; auto.
Qed.

Lemma url_redirect_ok a u c : Forall (filter_ok a) (createURLRedirectFilter u c).
Proof.
  apply Forall_singleton, redirect_filter_ok. split; simpl.
  - destruct (statusCode_valid c) as [->| ->]; auto.
  - intros p. case_match; [apply redirectPort_range|done].
Qed.

Lemma redirect_to_url_ok parse a key value c : Forall (filter_ok a) (redirect_to_url parse key value c).1.
Proof.
  unfold redirect_to_url. case_bool_decide; [constructor|].
  destruct (parse value); [apply url_redirect_ok|constructor].
Qed.

Lemma header_list_ok a name value make :
  (∀ hs, hs ≠ [] → Forall valid_header hs → filter_ok a (make hs)) →
  Forall (filter_ok a) (header_list name value make).1.
Proof.
  intros Hmake. unfold header_list. case_bool_decide; [constructor|]. case_match; [constructor|].
  pose proof (parseHeaderPairs_valid (Split value ",")) as Hv. fold (parseHeaderList value) in Hv.
  destruct (parseHeaderList value) as [[|h hs] ws]; [constructor|]. apply Forall_singleton. by apply Hmake.
Qed.

Lemma set_request_header_ok a name value : name ≠ "" → Forall (filter_ok a) (set_request_header name value).1.
Proof.
  intros Hn. unfold set_request_header. case_bool_decide; [constructor|]. apply Forall_singleton.
  split; simpl; [|done]. split; [done|]. by apply Forall_singleton.
Qed.

Lemma rewrite_target_ok : handler_ok handleRewriteTarget.
Proof.
  intros key value a. unfold handleRewriteTarget. case_bool_decide; [constructor|].
  destruct (containsCaptureGroup value); (case_bool_decide; [constructor|]; apply Forall_singleton; split; [by eexists|done]).
Qed.

Lemma warn_if_set_ok f : handler_ok (warn_if_set f).
Proof. intros key value a. constructor. Qed.

(** Close [handler_ok] for a handler without filters, or with one made by a lemma. *)
Ltac handler_tac :=
  let key := fresh "key" in let value := fresh "value" in let a := fresh "a" in
  intros key value a;
  match goal with |- Forall _ (?h _ _ _).1 => try unfold h end; cbv beta zeta;
  first
    [ apply redirect_to_url_ok
    | solve [by apply set_request_header_ok]
    | apply warn_if_set_ok
    | apply header_list_ok; intros hs ? ?; split; simpl; [by rewrite ?app_nil_r|done]
    | repeat (case_bool_decide || case_match); simpl; first [solve [constructor] | apply https_redirect_ok] ].

Lemma handleHSTS_ok : handler_ok handleHSTS.
Proof.
  intros key value a. unfold handleHSTS. case_match; [constructor|]. apply Forall_singleton.
  split; simpl; [|done]. split; [done|]. by apply Forall_singleton.
Qed.

Lemma plain_handlers_ok parse : Forall (λ kh, handler_ok kh.2) (plainHandlers parse).
Proof.
  repeat (apply Forall_cons; split; [simpl|]); [..|constructor].
  all: first [apply rewrite_target_ok | apply handleHSTS_ok | handler_tac].
Qed.

(** A handler and its silent variant: neither makes filters, and the variant says nothing
    the handler does not say. *)
Definition quieter (warn quiet : AnnotationHandler) : Prop :=
  ∀ key value annotations,
    (warn key value annotations).1 = [] ∧ (quiet key value annotations).1 = [] ∧
    (quiet key value annotations).2 `sublist_of` (warn key value annotations).2.

Lemma silent_quieter h : (∀ k v a, (h k v a).1 = []) → quieter h silent.
Proof. intros Hh k v a. split_and!; [apply Hh|done|apply sublist_nil_l]. Qed.

Lemma auth_type_quieter : quieter handleAuthType handleAuthTypeSilent.
Proof.
  intros k v a. unfold handleAuthType, handleAuthTypeSilent, unsupported_auth_type.
  repeat case_bool_decide; split_and!; try done; apply sublist_nil_l.
Qed.

Lemma policy_handlers_quieter : Forall (λ e, quieter e.2.1 e.2.2) policyHandlers.
Proof.
  repeat (apply Forall_cons; split; [simpl|]); [..|constructor].
  all: first [apply auth_type_quieter | apply silent_quieter; intros k v a].
  all: first [reflexivity | unfold handleEnableCORS; by case_match].
Qed.

Lemma registered_once parse skip :
  NoDup (plainHandlers parse ++
    ((λ '(k, (warn, quiet)), (k, if skip : bool then quiet else warn)) <$> policyHandlers)).*1.
Proof. rewrite fmap_app. vm_compute. apply (bool_decide_unpack _). by vm_compute. Qed.

Section registration.
Context (parse : string -> result URL).

Lemma policy_lookup (l : list (string * (AnnotationHandler * AnnotationHandler))) k :
  Forall (λ e, quieter e.2.1 e.2.2) l →
  (∃ w q, quieter w q ∧
     ∀ skip, list_to_map (M := gmap string AnnotationHandler)
               ((λ '(k, (warn, quiet)), (k, if skip : bool then quiet else warn)) <$> l) !! k
             = Some (if skip then q else w)) ∨
  (∀ skip, list_to_map (M := gmap string AnnotationHandler)
             ((λ '(k, (warn, quiet)), (k, if skip : bool then quiet else warn)) <$> l) !! k = None).
Proof.
  induction 1 as [|[k' [w q]] l Hq _ IH]; [right; intros; apply lookup_empty|]. simpl in *.
  destruct (decide (k' = k)) as [->|Hk].
  - left. exists w, q. split; [done|]. intros skip. apply lookup_insert_eq.
  - destruct IH as [(w' & q' & ? & IH)|IH]; [left; exists w', q'; split; [done|]|right];
      intros skip; rewrite lookup_insert_ne by done; apply IH.
Qed.

(** A key has one handler for both settings, a pair of them, or none. *)
Lemma register_cases k :
  (∃ h, handler_ok h ∧ ∀ skip, registerHandlers parse skip !! k = Some h) ∨
  (∃ w q, quieter w q ∧ ∀ skip, registerHandlers parse skip !! k = Some (if skip : bool then q else w)) ∨
  (∀ skip, registerHandlers parse skip !! k = None).
Proof.
  unfold registerHandlers.
  destruct (list_to_map (M := gmap string AnnotationHandler) (plainHandlers parse) !! k) as [h|] eqn:Hh.
  - left. exists h. split.
    + apply elem_of_list_to_map_2 in Hh. pose proof (plain_handlers_ok parse) as Hok.
      rewrite Forall_forall in Hok. exact (Hok _ Hh).
    + intros skip. rewrite list_to_map_app. by apply lookup_union_Some_l.
  - right. destruct (policy_lookup _ k policy_handlers_quieter) as [(w & q & Hq & Hl)|Hl].
    + left. exists w, q. split; [done|]. intros skip. by rewrite list_to_map_app, lookup_union_r.
    + right. intros skip. rewrite list_to_map_app, lookup_union_r by done. apply Hl.
Qed.

Lemma run_handler_quieter a k :
  (run_handler (registerHandlers parse true) a k).1 = (run_handler (registerHandlers parse false) a k).1 ∧
  (run_handler (registerHandlers parse true) a k).2 `sublist_of` (run_handler (registerHandlers parse false) a k).2.
Proof.
  unfold run_handler. destruct (register_cases k) as [(h & _ & H)|[(w & q & Hq & H)|H]]; rewrite !H; try done.
  destruct (Hq k (lookup_or_empty a k) a) as (-> & -> & ?). done.
Qed.

Lemma run_handler_ok skip a k : Forall (filter_ok a) (run_handler (registerHandlers parse skip) a k).1.
Proof.
  unfold run_handler. destruct (register_cases k) as [(h & Hok & H)|[(w & q & Hq & H)|H]]; rewrite !H.
  - apply Hok.
  - destruct (Hq k (lookup_or_empty a k) a) as (Hw & Hs & _). destruct skip; rewrite ?Hw, ?Hs; constructor.
  - constructor.
Qed.

Lemma handled_keys_skip a : handled_keys (registerHandlers parse true) a = handled_keys (registerHandlers parse false) a.
Proof.
  unfold handled_keys. f_equal. apply list_filter_iff. intros k.
  destruct (register_cases k) as [(h & _ & H)|[(w & q & _ & H)|H]]; rewrite !H; split; eauto; by intros [].
Qed.

Lemma elem_of_handled_keys hs a k : k ∈ handled_keys hs a ↔ is_Some (hs !! k) ∧ is_Some (a !! k).
Proof.
  unfold handled_keys. rewrite elem_of_sort_strings, list_elem_of_filter.
  apply and_iff_compat_l. rewrite list_elem_of_fmap. split.
  - intros ([k' v] & -> & Hv%elem_of_map_to_list). by exists v.
  - intros [v Hv]. exists (k, v). split; [done|]. by apply elem_of_map_to_list.
Qed.

Lemma mjoin_sublist {A} (f g : string -> list A) ks :
  (∀ k, f k `sublist_of` g k) → mjoin (f <$> ks) `sublist_of` mjoin (g <$> ks).
Proof. intros H. induction ks as [|k ks IH]; [constructor|]. simpl. by apply sublist_app. Qed.
End registration.

(** ** Properties *)

(** removing duplicates by recorded index computes the reference definition: every
    filter type that occurs is kept exactly once, by its last filter, in the order of
    the last occurrences. *)
Theorem deduplicate_filters_spec (filters : list HTTPRouteFilter) :
  deduplicateFilters filters = keep_last filters ∧
  NoDup (f_Type <$> deduplicateFilters filters) ∧
  (∀ t, t ∈ f_Type <$> deduplicateFilters filters ↔ t ∈ f_Type <$> filters) ∧
  (∀ f, f ∈ deduplicateFilters filters →
     ∃ pre post, filters = pre ++ f :: post ∧ f_Type f ∉ f_Type <$> post).
Proof.
  rewrite deduplicateFilters_keep_last. split_and!; [done|apply keep_last_NoDup|apply keep_last_types|].
  apply keep_last_last.
Qed.

(** C38: each filter the converter makes, for every URL parser, carries the member its type
    names; redirect codes are 301 or 302, redirect ports are in range, header names are
    present, no prefix rewrite is made when paths are regular expressions, and no type occurs
    twice. Schemes and values are not checked. *)
Theorem convert_filters_valid (url_Parse : string -> result URL) (skip : bool) (annotations : GoMap) :
  Forall (filter_ok (entries annotations)) (Filters (Convert url_Parse skip annotations)) ∧
  NoDup (f_Type <$> Filters (Convert url_Parse skip annotations)).
Proof.
  destruct annotations as [a|]; simpl; [|split; constructor].
  rewrite deduplicateFilters_keep_last. split; [|apply keep_last_NoDup].
  apply Forall_forall. intros f Hf%elem_of_keep_last. revert f Hf. apply Forall_forall.
  apply Forall_join, Forall_fmap, Forall_fmap, Forall_true. intros k. apply run_handler_ok.
Qed.

(** suppressing the warnings of annotations that become policies changes nothing
    else: the same annotations are processed, in sorted order, exactly those of the
    Ingress that have a handler; the filters are equal, and no new warning appears. *)
Theorem policy_warnings_suppressed (url_Parse : string -> result URL) (annotations : StrMap) :
  let quiet := Convert url_Parse true (Some annotations) in
  let loud := Convert url_Parse false (Some annotations) in
  Filters quiet = Filters loud ∧ Warnings quiet `sublist_of` Warnings loud ∧
  Processed quiet = Processed loud ∧ StronglySorted String.le (Processed quiet) ∧
  (∀ k, k ∈ Processed quiet ↔ is_Some (registerHandlers url_Parse true !! k) ∧ is_Some (annotations !! k)).
Proof.
  simpl. rewrite <-!list_fmap_compose, handled_keys_skip. split_and!; try done.
  - f_equal. f_equal. apply list_fmap_ext. intros i k _. apply run_handler_quieter.
  - apply mjoin_sublist. intros k. apply run_handler_quieter.
  - apply sort_strings_sorted.
  - intros k. rewrite <-(handled_keys_skip url_Parse annotations). apply elem_of_handled_keys.
Qed.

(** stripping capture groups leaves no capture group and a non-empty target, and
    leaves a non-empty target without groups as it is. *)
Theorem strip_capture_groups_spec (value : string) :
  containsCaptureGroup (stripCaptureGroups value) = false ∧ stripCaptureGroups value ≠ "" ∧
  (containsCaptureGroup value = true ∨ value = "" ∨ stripCaptureGroups value = value).
Proof.
  unfold stripCaptureGroups. split_and!.
  - case_bool_decide; [done|]. apply strip_loop_no_group.
  - by case_bool_decide.
  - destruct (containsCaptureGroup value) eqn:Hc; [by left|right].
    rewrite (strip_loop_id _ Hc). case_bool_decide; auto.
Qed.

(** ** What the model shows *)

Definition noURL : string -> result URL := λ _, Err "unused".

(** Filters of one type are not merged: with custom-headers and HSTS both set, only the
    HSTS header is left, and no warning says that the custom headers are gone. *)
Example custom_headers_lost_with_hsts :
  let r := Convert noURL true (Some {[ CustomHeaders := "X-Frame-Options:DENY"; HSTS := "true" ]}) in
  Filters r = [response_header_filter
                 {| hf_Set := [{| hd_Name := "Strict-Transport-Security"; hd_Value := "max-age=31536000" |}];
                    hf_Add := [] |}] ∧
  Warnings r = [].
Proof. by vm_compute. Qed.

(** ssl-redirect with rewrite-target: a redirect and a rewrite end up in the same rule,
    which the Gateway API forbids. *)
Example redirect_and_rewrite_together :
  f_Type <$> Filters (Convert noURL true (Some {[ SSLRedirect := "true"; RewriteTarget := "/" ]})) =
  [HTTPRouteFilterURLRewrite; HTTPRouteFilterRequestRedirect].
Proof. by vm_compute. Qed.
