(* ===== verification/ConvPolicies.v ===== *)
(** * Ingress annotations to Envoy Gateway policies

    [pkg/conversion/policies/builder.go], the builders of the policies, and
    [pkg/conversion/annotations/policy_converter.go], which fills them from the annotations
    of an Ingress. A builder is a record; a setter returns the builder it leaves behind. *)

From Stdlib Require Import Ascii.
From S2P Require Import Prelude GoStrings Api GatewayApi ConvAnnotations.

Local Open Scope go_scope.

(** ** [builder.go]: names and references *)

Definition LabelSourceIngress : string := "kubelb.k8c.io/source-ingress".
Definition SecurityPolicySuffix : string := "-security".
Definition BackendTrafficPolicySuffix : string := "-backend".

Record PolicyBuilder := {
  pb_IngressName : string;
  pb_IngressNamespace : string;
  pb_RouteName : string;
}.

Definition NewPolicyBuilder (ingressName ingressNamespace routeName : string) : PolicyBuilder :=
  {| pb_IngressName := ingressName; pb_IngressNamespace := ingressNamespace; pb_RouteName := routeName |}.

Definition policyTargetRef (b : PolicyBuilder) : PolicyTargetReference :=
  {| ptr_Group := "gateway.networking.k8s.io"; ptr_Kind := "HTTPRoute"; ptr_Name := pb_RouteName b |}.

Definition policyLabels (b : PolicyBuilder) : StrMap :=
  {[ LabelSourceIngress := pb_IngressName b ⊕ "." ⊕ pb_IngressNamespace b ]}.

Definition policyMeta (b : PolicyBuilder) (suffix : string) : ObjectMeta :=
  objectMeta (pb_IngressName b ⊕ suffix) (pb_IngressNamespace b) "" (Some (policyLabels b)) None.

(** ** [builder.go]: parsing *)

Definition parseDuration (value : string) : string :=
  let value := TrimSpace value in
  if bool_decide (value = "") then ""
  else if has_unit value then value
  else match Atoi value with
       | Some _ => value ⊕ "s"
       | None => value
       end.

Definition ParseCIDRList (value : string) : list string :=
  if bool_decide (value = "") then [] else list_items value.

Definition ParseStringList (value : string) : list string :=
  if bool_decide (value = "") then [] else list_items value.

Definition ParseInt (value : string) : Z :=
  if bool_decide (value = "") then 0 else default 0%Z (Atoi value).

Definition ParseInt64 (value : string) : option Z :=
  if bool_decide (value = "") then None else Atoi value.

Definition ParseBool (value : string) : option bool :=
  if bool_decide (value = "") then None else Some (bool_decide (value = "true")).

(** ** [SecurityPolicyBuilder] *)

Record SecurityPolicyBuilder := {
  spb_Base : PolicyBuilder;
  spb_cors : option CORS;
  spb_authorization : option Authorization;
  spb_basicAuth : option BasicAuth;
}.

Definition NewSecurityPolicyBuilder (base : PolicyBuilder) : SecurityPolicyBuilder :=
  {| spb_Base := base; spb_cors := None; spb_authorization := None; spb_basicAuth := None |}.

Definition SetCORS (b : SecurityPolicyBuilder) (allowOrigins allowMethods allowHeaders exposeHeaders : list string)
  (maxAgeSeconds : option Z) (allowCredentials : option bool) : SecurityPolicyBuilder :=
  {| spb_Base := spb_Base b;
     spb_cors := Some {| cors_AllowOrigins := allowOrigins; cors_AllowMethods := allowMethods;
                         cors_AllowHeaders := allowHeaders; cors_ExposeHeaders := exposeHeaders;
                         cors_MaxAge := (λ s, Itoa s ⊕ "s") <$> maxAgeSeconds;
                         cors_AllowCredentials := allowCredentials |};
     spb_authorization := spb_authorization b; spb_basicAuth := spb_basicAuth b |}.

(** Append a rule and set the default action: the body both list setters share. *)
Definition add_rule (b : SecurityPolicyBuilder) (name : string) (action : AuthorizationAction)
  (cidrs : list string) (defaultAction : AuthorizationAction) : SecurityPolicyBuilder :=
  match cidrs with
  | [] => b
  | _ =>
      {| spb_Base := spb_Base b;
         spb_cors := spb_cors b;
         spb_authorization :=
           Some {| az_Rules := (match spb_authorization b with Some a => az_Rules a | None => [] end) ++
                               [{| ar_Name := Some name; ar_Action := action;
                                   ar_ClientCIDRs := TrimSpace <$> cidrs |}];
                   az_DefaultAction := Some defaultAction |};
         spb_basicAuth := spb_basicAuth b |}
  end.

Definition SetIPAllowlist (b : SecurityPolicyBuilder) (cidrs : list string) : SecurityPolicyBuilder :=
  add_rule b "ip-allowlist" AuthorizationActionAllow cidrs AuthorizationActionDeny.

Definition SetIPDenylist (b : SecurityPolicyBuilder) (cidrs : list string) : SecurityPolicyBuilder :=
  add_rule b "ip-denylist" AuthorizationActionDeny cidrs AuthorizationActionAllow.

Definition SetBasicAuth (b : SecurityPolicyBuilder) (secretRef namespace : string) : SecurityPolicyBuilder :=
  if bool_decide (secretRef = "") then b
  else {| spb_Base := spb_Base b; spb_cors := spb_cors b; spb_authorization := spb_authorization b;
          spb_basicAuth := Some {| ba_Name := secretRef; ba_Namespace := Some namespace |} |}.

Definition is_none {A} (o : option A) : bool := match o with None => true | Some _ => false end.

Definition SecurityIsEmpty (b : SecurityPolicyBuilder) : bool :=
  is_none (spb_cors b) && is_none (spb_authorization b) && is_none (spb_basicAuth b).

Definition SecurityBuild (b : SecurityPolicyBuilder) : option SecurityPolicy :=
  if SecurityIsEmpty b then None
  else Some {| secp_Meta := policyMeta (spb_Base b) SecurityPolicySuffix;
               secp_TargetRef := policyTargetRef (spb_Base b);
               secp_CORS := spb_cors b;
               secp_Authorization := spb_authorization b;
               secp_BasicAuth := spb_basicAuth b |}.

(** ** [BackendTrafficPolicyBuilder] *)

Record BackendTrafficPolicyBuilder := {
  bpb_Base : PolicyBuilder;
  bpb_timeout : option Timeout;
  bpb_rateLimit : option RateLimitSpec;
  bpb_circuitBreaker : option CircuitBreaker;
}.

Definition NewBackendTrafficPolicyBuilder (base : PolicyBuilder) : BackendTrafficPolicyBuilder :=
  {| bpb_Base := base; bpb_timeout := None; bpb_rateLimit := None; bpb_circuitBreaker := None |}.

Definition with_timeout (b : BackendTrafficPolicyBuilder) (f : Timeout -> Timeout) : BackendTrafficPolicyBuilder :=
  {| bpb_Base := bpb_Base b;
     bpb_timeout := Some (f (default {| to_TCP := None; to_HTTP := None |} (bpb_timeout b)));
     bpb_rateLimit := bpb_rateLimit b; bpb_circuitBreaker := bpb_circuitBreaker b |}.

Definition SetConnectTimeout (b : BackendTrafficPolicyBuilder) (duration : string) : BackendTrafficPolicyBuilder :=
  let d := parseDuration duration in
  if bool_decide (d = "") then b
  else with_timeout b (λ t, {| to_TCP := Some (Some d); to_HTTP := to_HTTP t |}).

Definition SetRequestTimeout (b : BackendTrafficPolicyBuilder) (duration : string) : BackendTrafficPolicyBuilder :=
  let d := parseDuration duration in
  if bool_decide (d = "") then b
  else with_timeout b (λ t, {| to_TCP := to_TCP t; to_HTTP := Some (Some d) |}).

Definition set_rate_limit (b : BackendTrafficPolicyBuilder) (n : Z) (unit : RateLimitUnit) : BackendTrafficPolicyBuilder :=
  if (n <=? 0)%Z then b
  else {| bpb_Base := bpb_Base b; bpb_timeout := bpb_timeout b;
          bpb_rateLimit := Some {| rl_Rules := [(to_uint32 n, unit)] |};
          bpb_circuitBreaker := bpb_circuitBreaker b |}.

Definition SetRateLimitRPS (b : BackendTrafficPolicyBuilder) (rps : Z) := set_rate_limit b rps RateLimitUnitSecond.
Definition SetRateLimitRPM (b : BackendTrafficPolicyBuilder) (rpm : Z) := set_rate_limit b rpm RateLimitUnitMinute.

Definition SetMaxConnections (b : BackendTrafficPolicyBuilder) (maxConns : Z) : BackendTrafficPolicyBuilder :=
  if (maxConns <=? 0)%Z then b
  else {| bpb_Base := bpb_Base b; bpb_timeout := bpb_timeout b; bpb_rateLimit := bpb_rateLimit b;
          bpb_circuitBreaker := Some {| cb_MaxConnections := Some maxConns |} |}.

Definition BackendIsEmpty (b : BackendTrafficPolicyBuilder) : bool :=
  is_none (bpb_timeout b) && is_none (bpb_rateLimit b) && is_none (bpb_circuitBreaker b).

Definition BackendBuild (b : BackendTrafficPolicyBuilder) : option BackendTrafficPolicy :=
  if BackendIsEmpty b then None
  else Some {| btp_Meta := policyMeta (bpb_Base b) BackendTrafficPolicySuffix;
               btp_TargetRef := policyTargetRef (bpb_Base b);
               btp_Timeout := bpb_timeout b;
               btp_CircuitBreaker := bpb_circuitBreaker b;
               btp_RateLimit := bpb_rateLimit b |}.

(** ** [policy_converter.go] *)

Record PolicyConversionInput := {
  pci_IngressName : string;
  pci_IngressNamespace : string;
  pci_RouteName : string;
  pci_GatewayName : string;
  pci_Annotations : GoMap;
}.

Record PolicyConversionResult := {
  pcr_SecurityPolicies : list SecurityPolicy;
  pcr_BackendTrafficPolicies : list BackendTrafficPolicy;
  pcr_Warnings : list string;
}.

Definition policyBase (input : PolicyConversionInput) : PolicyBuilder :=
  NewPolicyBuilder (pci_IngressName input) (pci_IngressNamespace input) (pci_RouteName input).

Definition securityBuilder (input : PolicyConversionInput) : SecurityPolicyBuilder :=
  let a := get (pci_Annotations input) in
  let b0 := NewSecurityPolicyBuilder (policyBase input) in
  let b1 :=
    if bool_decide (a EnableCORS = boolTrue) then
      SetCORS b0 (ParseStringList (a CORSAllowOrigin)) (ParseStringList (a CORSAllowMethods))
        (ParseStringList (a CORSAllowHeaders)) (ParseStringList (a CORSExposeHeaders))
        (ParseInt64 (a CORSMaxAge)) (ParseBool (a CORSAllowCredentials))
    else b0 in
  let b2 :=
    if bool_decide (a WhitelistSourceRange = "") then b1
    else SetIPAllowlist b1 (ParseCIDRList (a WhitelistSourceRange)) in
  let b3 :=
    if bool_decide (a DenylistSourceRange = "") then b2
    else SetIPDenylist b2 (ParseCIDRList (a DenylistSourceRange)) in
  if bool_decide (a AuthType = AuthTypeBasic)
  then SetBasicAuth b3 (a AuthSecret) (pci_IngressNamespace input) else b3.

Definition buildSecurityPolicy (input : PolicyConversionInput) : option SecurityPolicy :=
  let builder := securityBuilder input in
  if SecurityIsEmpty builder then None else SecurityBuild builder.

(** The builder with the timeouts set *)
Definition timeoutBuilder (input : PolicyConversionInput) : BackendTrafficPolicyBuilder :=
  let a := get (pci_Annotations input) in
  let b0 := NewBackendTrafficPolicyBuilder (policyBase input) in
  let b1 := if bool_decide (a ProxyConnectTimeout = "") then b0 else SetConnectTimeout b0 (a ProxyConnectTimeout) in
  let b2 := if bool_decide (a ProxyReadTimeout = "") then b1 else SetRequestTimeout b1 (a ProxyReadTimeout) in
  if bool_decide (a ProxySendTimeout = "") then b2
  else if bool_decide (a ProxyReadTimeout = "") then SetRequestTimeout b2 (a ProxySendTimeout) else b2.

Definition backendBuilder (input : PolicyConversionInput) : BackendTrafficPolicyBuilder :=
  let a := get (pci_Annotations input) in
  let b3 := timeoutBuilder input in
  let rps := ParseInt (a LimitRPS) in
  let rpm := ParseInt (a LimitRPM) in
  let b4 :=
    if (0 <? rps)%Z then SetRateLimitRPS b3 rps
    else if (0 <? rpm)%Z then SetRateLimitRPM b3 rpm else b3 in
  let maxConns := ParseInt (a LimitConnections) in
  if (0 <? maxConns)%Z then SetMaxConnections b4 maxConns else b4.

Definition affinity_policy_warning : string :=
  "affinity=cookie requires manual BackendTrafficPolicy configuration for session persistence".

Definition buildBackendTrafficPolicy (input : PolicyConversionInput) : option BackendTrafficPolicy * list string :=
  let builder := backendBuilder input in
  let warnings :=
    if bool_decide (get (pci_Annotations input) Affinity = affinityCookie) then [affinity_policy_warning] else [] in
  (if BackendIsEmpty builder then None else BackendBuild builder, warnings).

Definition ConvertToPolicies (input : PolicyConversionInput) : PolicyConversionResult :=
  match pci_Annotations input with
  | None => {| pcr_SecurityPolicies := []; pcr_BackendTrafficPolicies := []; pcr_Warnings := [] |}
  | Some _ =>
      let '(backendPolicy, warnings) := buildBackendTrafficPolicy input in
      {| pcr_SecurityPolicies := option_list (buildSecurityPolicy input);
         pcr_BackendTrafficPolicies := option_list backendPolicy;
         pcr_Warnings :=
           warnings ++
           when_set (get (pci_Annotations input) AuthURL)
             (λ _, "auth-url cannot be automatically converted to SecurityPolicy ExtAuth; requires manual backend reference configuration") ++
           when_set (get (pci_Annotations input) ProxyBodySize)
             (λ _, "proxy-body-size cannot be directly converted to ClientTrafficPolicy; requires manual Envoy configuration") |}
  end.

(** ** Specification: what an authorization decides

    Envoy Gateway applies the first rule that matches the client's address, and the
    default action when none does. [inCIDR c] says that the client lies in the range [c]. *)

Section authorization_spec.
Context (inCIDR : string -> bool).

Definition rule_matches (r : AuthorizationRule) : bool := existsb inCIDR (ar_ClientCIDRs r).

Definition authorize (az : Authorization) : AuthorizationAction :=
  match List.find rule_matches (az_Rules az) with
  | Some r => ar_Action r
  | None => default AuthorizationActionAllow (az_DefaultAction az)
  end.

(** A route without a policy, or with one that has no authorization, admits everybody. *)
Definition decision (policy : option SecurityPolicy) : AuthorizationAction :=
  match policy ≫= secp_Authorization with
  | Some az => authorize az
  | None => AuthorizationActionAllow
  end.
End authorization_spec.

(** ** Lemmas: trimming and lists *)

Lemma trim_left_id f s : (∀ a t, s = String a t → f a = false) → trim_left f s = s.
Proof. destruct s as [|a s]; [done|]. intros H. simpl. by rewrite (H a s eq_refl). Qed.

Lemma trim_right_idem f s : trim_right f (trim_right f s) = trim_right f s.
Proof.
  induction s as [|a s IH]; [done|]. simpl. destruct (trim_right f s) as [|b t] eqn:Ht.
  - destruct (f a) eqn:Ha; [done|]. simpl. by rewrite Ha.
  - cbn [trim_right] in IH |- *. rewrite IH. done.
Qed.

Lemma TrimSpace_idem s : TrimSpace (TrimSpace s) = TrimSpace s.
Proof.
  unfold TrimSpace. rewrite (trim_left_id is_ws (trim_right _ _)); [apply trim_right_idem|].
  intros a t (u & Hu)%trim_right_head. by eapply trim_left_head.
Qed.

Lemma list_items_trimmed v : TrimSpace <$> list_items v = list_items v.
Proof.
  unfold list_items. rewrite filter_map, <-list_fmap_compose. apply list_fmap_ext.
  intros i s _. apply TrimSpace_idem.
Qed.

Lemma ParseCIDRList_items v : ParseCIDRList v = list_items v.
Proof. unfold ParseCIDRList. by case_bool_decide; subst. Qed.

(** ** Lemmas: the builders *)

(** The authorization of a Security builder after both lists have been set. *)
Definition list_authorization (W D : list string) : option Authorization :=
  match W, D with
  | [], [] => None
  | _, _ => Some
      {| az_Rules :=
           match W with [] => [] | _ => [{| ar_Name := Some "ip-allowlist"; ar_Action := AuthorizationActionAllow; ar_ClientCIDRs := W |}] end ++
           match D with [] => [] | _ => [{| ar_Name := Some "ip-denylist"; ar_Action := AuthorizationActionDeny; ar_ClientCIDRs := D |}] end;
         az_DefaultAction := Some match D with [] => AuthorizationActionDeny | _ => AuthorizationActionAllow end |}
  end.

Lemma SetCORS_authorization b o m h e x c : spb_authorization (SetCORS b o m h e x c) = spb_authorization b.
Proof. done. Qed.

Lemma SetBasicAuth_authorization b s n : spb_authorization (SetBasicAuth b s n) = spb_authorization b.
Proof. unfold SetBasicAuth. by case_bool_decide. Qed.

Lemma securityBuilder_authorization input :
  spb_authorization (securityBuilder input) =
  list_authorization (list_items (get (pci_Annotations input) WhitelistSourceRange))
                     (list_items (get (pci_Annotations input) DenylistSourceRange)).
Proof.
  unfold securityBuilder. set (a := get (pci_Annotations input)). set (b1 := if bool_decide (a EnableCORS = _) then _ else _).
  assert (spb_authorization b1 = None) as H1 by (unfold b1; by case_bool_decide).
  clearbody b1 a. unfold SetIPAllowlist, SetIPDenylist, add_rule. rewrite !ParseCIDRList_items, !list_items_trimmed.
  match goal with |- spb_authorization (if ?c then ?x else ?y) = _ =>
    assert (spb_authorization (if c then x else y) = spb_authorization y) as ->
      by (destruct c; [apply SetBasicAuth_authorization|done]) end.
  destruct (decide (a WhitelistSourceRange = "")) as [Hw|Hw], (decide (a DenylistSourceRange = "")) as [Hd|Hd].
  - by rewrite !bool_decide_eq_true_2, Hw, Hd.
  - rewrite bool_decide_eq_false_2, bool_decide_eq_true_2, Hw by done. simpl.
    destruct (list_items (a DenylistSourceRange)) as [|d ds]; [done|]. simpl. by rewrite H1.
  - rewrite bool_decide_eq_true_2, bool_decide_eq_false_2, Hd by done.
    destruct (list_items (a WhitelistSourceRange)) as [|w ws]; [done|]. simpl. by rewrite H1.
  - rewrite !bool_decide_eq_false_2 by done.
    destruct (list_items (a WhitelistSourceRange)) as [|w ws], (list_items (a DenylistSourceRange)) as [|d ds];
      simpl; by rewrite ?H1.
Qed.

Lemma buildSecurityPolicy_authorization input :
  buildSecurityPolicy input ≫= secp_Authorization = spb_authorization (securityBuilder input).
Proof.
  unfold buildSecurityPolicy, SecurityBuild. set (b := securityBuilder input). clearbody b.
  destruct b as [base [c|] [z|] [u|]]; done.
Qed.

(** The timeouts an Ingress asks for: connect, and read before send. *)
Definition wanted_connect (a : string -> string) : string := parseDuration (a ProxyConnectTimeout).
Definition wanted_request (a : string -> string) : string :=
  parseDuration (if bool_decide (a ProxyReadTimeout = "") then a ProxySendTimeout else a ProxyReadTimeout).

(** The limit an Ingress asks for: per second before per minute. *)
Definition wanted_limit (a : string -> string) : option (Z * RateLimitUnit) :=
  if (0 <? ParseInt (a LimitRPS))%Z then Some (ParseInt (a LimitRPS), RateLimitUnitSecond)
  else if (0 <? ParseInt (a LimitRPM))%Z then Some (ParseInt (a LimitRPM), RateLimitUnitMinute)
  else None.

Definition nonempty (s : string) : option string := if bool_decide (s = "") then None else Some s.

Lemma parseDuration_empty : parseDuration "" = "".
Proof. done. Qed.

Lemma add_rule_base b name action cidrs d : spb_Base (add_rule b name action cidrs d) = spb_Base b.
Proof. by destruct cidrs. Qed.
Lemma securityBuilder_base input : spb_Base (securityBuilder input) = policyBase input.
Proof.
  unfold securityBuilder, SetBasicAuth, SetIPDenylist, SetIPAllowlist. cbv zeta.
  repeat case_bool_decide; simpl; by rewrite ?add_rule_base.
Qed.

Section backend_builder.
Context (input : PolicyConversionInput).
Local Abbreviation a := (get (pci_Annotations input)).

Lemma timeoutBuilder_base :
  bpb_Base (timeoutBuilder input) = policyBase input ∧ bpb_rateLimit (timeoutBuilder input) = None ∧
  bpb_circuitBreaker (timeoutBuilder input) = None.
Proof.
  unfold timeoutBuilder, SetConnectTimeout, SetRequestTimeout, with_timeout.
  repeat case_bool_decide; done.
Qed.

(** What the limits add to the builder. *)
Lemma backendBuilder_fields :
  backendBuilder input =
  {| bpb_Base := policyBase input;
     bpb_timeout := bpb_timeout (timeoutBuilder input);
     bpb_rateLimit := (λ nu, {| rl_Rules := [(to_uint32 nu.1, nu.2)] |}) <$> wanted_limit a;
     bpb_circuitBreaker :=
       if (0 <? ParseInt (a LimitConnections))%Z
       then Some {| cb_MaxConnections := Some (ParseInt (a LimitConnections)) |} else None |}.
Proof.
  destruct timeoutBuilder_base as (<- & Hl & Hc).
  unfold backendBuilder, wanted_limit, SetMaxConnections, SetRateLimitRPS, SetRateLimitRPM, set_rate_limit.
  destruct (timeoutBuilder input) as [base t l c]. simpl in *. subst l c.
  destruct (Z.ltb_spec 0 (ParseInt (a LimitRPS))), (Z.ltb_spec 0 (ParseInt (a LimitRPM))),
    (Z.ltb_spec 0 (ParseInt (a LimitConnections)));
    rewrite ?(proj2 (Z.leb_gt _ _)) by lia; done.
Qed.

Lemma timeoutBuilder_timeout :
  bpb_timeout (timeoutBuilder input) =
  match nonempty (wanted_connect a), nonempty (wanted_request a) with
  | None, None => None
  | c, r => Some {| to_TCP := Some <$> c; to_HTTP := Some <$> r |}
  end.
Proof.
  unfold timeoutBuilder, SetConnectTimeout, SetRequestTimeout, with_timeout, wanted_connect, wanted_request, nonempty.
  destruct (decide (a ProxyConnectTimeout = "")) as [Hc|Hc], (decide (a ProxyReadTimeout = "")) as [Hr|Hr],
    (decide (a ProxySendTimeout = "")) as [Hs|Hs]; rewrite ?Hc, ?Hr, ?Hs;
    repeat first [rewrite bool_decide_eq_true_2 by done | rewrite (bool_decide_eq_false_2 (_ = "")) by done];
    rewrite ?parseDuration_empty; repeat case_bool_decide; done.
Qed.
End backend_builder.

Lemma trim_right_snoc f s a : f a = false → trim_right f (s ⊕ String a "") = s ⊕ String a "".
Proof.
  intros Ha. induction s as [|b s IH]; [simpl; by rewrite Ha|].
  rewrite str_app_cons. cbn [trim_right]. rewrite IH. by destruct s.
Qed.

Lemma TrimSpace_head s : TrimSpace s ≠ "" → trim_left is_ws (TrimSpace s) = TrimSpace s.
Proof.
  intros _. apply trim_left_id. intros a t (u & Hu)%trim_right_head. by eapply trim_left_head.
Qed.

Lemma TrimSpace_unit s : TrimSpace s ≠ "" → TrimSpace (TrimSpace s ⊕ "s") = TrimSpace s ⊕ "s".
Proof.
  intros Hs. pose proof (TrimSpace_head s Hs) as Hh. unfold TrimSpace at 1.
  destruct (TrimSpace s) as [|a t]; [done|]. rewrite str_app_cons. cbn [trim_left] in Hh |- *.
  destruct (is_ws a) eqn:Ha.
  - exfalso. pose proof (trim_left_length is_ws t) as Hl. rewrite Hh in Hl. simpl in Hl. lia.
  - rewrite <-str_app_cons. by apply trim_right_snoc.
Qed.

(** ** Properties *)

(** the address ranges decide as follows, for every client: in an allowed range it
    is admitted; else in a denied range it is refused; else it is admitted if a denylist
    is present or no list is, and refused if only an allowlist is. *)
Theorem source_range_decision (inCIDR : string -> bool) (input : PolicyConversionInput) :
  let allowed := list_items (get (pci_Annotations input) WhitelistSourceRange) in
  let denied := list_items (get (pci_Annotations input) DenylistSourceRange) in
  decision inCIDR (buildSecurityPolicy input) =
    if existsb inCIDR allowed then AuthorizationActionAllow
    else if existsb inCIDR denied then AuthorizationActionDeny
    else match denied, allowed with
         | [], _ :: _ => AuthorizationActionDeny
         | _, _ => AuthorizationActionAllow
         end.
Proof.
  cbv zeta. unfold decision. rewrite buildSecurityPolicy_authorization, securityBuilder_authorization.
  generalize (list_items (get (pci_Annotations input) WhitelistSourceRange)) as W.
  generalize (list_items (get (pci_Annotations input) DenylistSourceRange)) as D. intros D W.
  destruct W as [|w W], D as [|d D]; unfold authorize, list_authorization, rule_matches;
    cbn [app az_Rules List.find ar_ClientCIDRs]; try done;
    [destruct (existsb inCIDR (d :: D))|destruct (existsb inCIDR (w :: W))|
     destruct (existsb inCIDR (w :: W)), (existsb inCIDR (d :: D))]; done.
Qed.

(** a backend traffic policy is made exactly when a timeout is given that is not
    blank, or a limit that is a positive number; it carries the wanted timeouts, the
    wanted connection limit, and the wanted rate reduced to 32 bits. *)
Theorem backend_policy_spec (input : PolicyConversionInput) :
  let a := get (pci_Annotations input) in
  let '(policy, _) := buildBackendTrafficPolicy input in
  (policy = None ↔
     wanted_connect a = "" ∧ wanted_request a = "" ∧ wanted_limit a = None ∧ (ParseInt (a LimitConnections) ≤ 0)%Z) ∧
  (∀ p, policy = Some p →
     (btp_Timeout p ≫= to_TCP) = Some <$> nonempty (wanted_connect a) ∧
     (btp_Timeout p ≫= to_HTTP) = Some <$> nonempty (wanted_request a) ∧
     rl_Rules <$> btp_RateLimit p = (λ nu, [(to_uint32 nu.1, nu.2)]) <$> wanted_limit a ∧
     (btp_CircuitBreaker p ≫= cb_MaxConnections) =
       (if (0 <? ParseInt (a LimitConnections))%Z then Some (ParseInt (a LimitConnections)) else None) ∧
     ptr_Name (btp_TargetRef p) = pci_RouteName input).
Proof.
  cbv zeta. unfold buildBackendTrafficPolicy, BackendBuild, BackendIsEmpty.
  rewrite backendBuilder_fields, timeoutBuilder_timeout. cbn [bpb_Base bpb_timeout bpb_rateLimit bpb_circuitBreaker].
  unfold nonempty.
  repeat case_bool_decide; destruct (wanted_limit _) as [[n u]|];
    destruct (Z.ltb_spec 0 (ParseInt (get (pci_Annotations input) LimitConnections)));
    simpl; (split; [|intros p [= <-]; done]).
  all: split; [intros ?; first [done | split_and!; first [done | lia]] | intros (?&?&?&?); first [done | lia]].
Qed.

(** The duration a warning announces is the duration a policy carries, and reading
    a duration again changes nothing. *)
Theorem parse_duration_agrees (value : string) :
  parseDuration value = normalizeTimeout value ∧ parseDuration (parseDuration value) = parseDuration value.
Proof.
  split.
  - unfold parseDuration, normalizeTimeout. by case_bool_decide as H; rewrite ?H.
  - unfold parseDuration at 2 3. case_bool_decide as H; [done|].
    destruct (has_unit (TrimSpace value)) eqn:Hu;
      [|destruct (Atoi (TrimSpace value)) as [n|] eqn:Ha]; unfold parseDuration.
    + by rewrite TrimSpace_idem, bool_decide_eq_false_2, Hu.
    + rewrite TrimSpace_unit by done. unfold has_unit. rewrite HasSuffix_app.
      by rewrite bool_decide_eq_false_2 by (by destruct (TrimSpace value)).
    + by rewrite TrimSpace_idem, bool_decide_eq_false_2, Hu, Ha.
Qed.

(** a list written with commas is read back as it is, when its items are trimmed,
    not empty and free of commas. *)
Theorem cidr_list_roundtrip (items : list string) :
  Forall (λ s, no_byte ","%char s ∧ s ≠ "" ∧ TrimSpace s = s) items →
  ParseCIDRList (Join items ",") = items ∧ ParseStringList (Join items ",") = items.
Proof.
  intros H. change (ParseStringList (Join items ",")) with (ParseCIDRList (Join items ",")).
  rewrite ParseCIDRList_items. cut (list_items (Join items ",") = items); [done|].
  destruct items as [|s items]; [done|]. unfold list_items. rewrite (Split_Join ","%char (s :: items)); [|done|].
  - rewrite (list_fmap_ext _ id), list_fmap_id.
    + apply filter_all. eapply Forall_impl; [exact H|]. naive_solver.
    + intros i t Ht. rewrite Forall_lookup in H. apply (H _ _ Ht).
  - eapply Forall_impl; [exact H|]. naive_solver.
Qed.

Lemma cidr_list_roundtrip_witness :
  ParseCIDRList "10.0.0.0/8,192.168.0.0/16" = ["10.0.0.0/8"; "192.168.0.0/16"].
Proof.
  apply (cidr_list_roundtrip ["10.0.0.0/8"; "192.168.0.0/16"]).
  repeat constructor; vm_compute; done.
Defined.

(** ** What the model shows *)

Definition sampleInput (annotations : StrMap) : PolicyConversionInput :=
  {| pci_IngressName := "web"; pci_IngressNamespace := "apps"; pci_RouteName := "web";
     pci_GatewayName := "kubelb"; pci_Annotations := Some annotations |}.

(** With both lists set, a client outside the allowlist is admitted: the denylist replaces
    the default action of the allowlist. A client in both lists is admitted too. *)
Example denylist_opens_allowlist :
  let policy := buildSecurityPolicy (sampleInput
    {[ WhitelistSourceRange := "10.0.0.0/8"; DenylistSourceRange := "10.1.0.0/16" ]}) in
  decision (λ _, false) policy = AuthorizationActionAllow ∧
  decision (λ _, true) policy = AuthorizationActionAllow.
Proof. by vm_compute. Qed.

(** A rate of 2^32 requests becomes a limit of none. *)
Example rate_limit_wraps :
  (buildBackendTrafficPolicy (sampleInput {[ LimitRPS := "4294967296" ]})).1 ≫= btp_RateLimit =
  Some {| rl_Rules := [(0%Z, RateLimitUnitSecond)] |}.
Proof. by vm_compute. Qed.
