(* ===== verification/Converter.v ===== *)
(** * Ingress to Gateway API routes

    [pkg/conversion/converter.go]: an Ingress becomes HTTPRoutes, or GRPCRoutes when its
    backend protocol is gRPC. The rules of each host are collected, hosts with equal rules
    share a route, and the filters of the annotations go into every rule.

    Two parameters stand for code outside the repository: [url.Parse], and [json.Marshal]
    on lists of rules, whose output the signature of a list of rules hashes. *)

From Stdlib Require Import Ascii.
From S2P Require Import Prelude GoStrings GoCrypto Api GatewayApi ConvAnnotations.

Local Open Scope go_scope.

Definition BackendProtocolGRPC : string := "GRPC".
Definition BackendProtocolGRPCS : string := "GRPCS".
Definition NginxBackendProtocol : string := "nginx.ingress.kubernetes.io/backend-protocol".
Definition BoolTrue : string := "true".

(** The Services of the Ingress by namespace and name; the map may be nil. *)
Definition ServiceMap : Type := option (gmap (string * string) Service).

Record Input := {
  in_Ingress : Ingress;
  in_GatewayName : string;
  in_GatewayNamespace : string;
  in_Services : ServiceMap;
  in_DomainReplace : string;
  in_DomainSuffix : string;
  in_SkipPolicyWarnings : bool;
}.

Record TLSListener := {
  tl_Hostname : string;
  tl_SecretName : string;
  tl_SourceSecretNamespace : string;
  tl_SourceSecretName : string;
}.

Record Result := {
  res_HTTPRoutes : list HTTPRoute;
  res_GRPCRoutes : list GRPCRoute;
  res_TLSListeners : list TLSListener;
  res_Warnings : list string;
  res_ProcessedAnnotations : list string;
}.

(** ** Hostnames, references, labels *)

Definition transformHostname (host replace suffix : string) : string :=
  if bool_decide (replace = "" ∨ suffix = "") then host
  else
    let '(wildcardPrefix, checkHost) :=
      if HasPrefix host "*." then ("*.", str_drop 2 host) else ("", host) in
    if bool_decide (checkHost = replace) then wildcardPrefix ⊕ suffix
    else if HasSuffix checkHost ("." ⊕ replace) then
      wildcardPrefix ⊕ TrimSuffix checkHost ("." ⊕ replace) ⊕ "." ⊕ suffix
    else host.

Definition buildParentRef (gatewayName gatewayNamespace routeNamespace : string) : ParentReference :=
  {| pr_Name := gatewayName;
     pr_Namespace := if bool_decide (gatewayNamespace ≠ "" ∧ gatewayNamespace ≠ routeNamespace)
                     then Some gatewayNamespace else None |}.

Definition copyLabels (labels : GoMap) : GoMap :=
  (λ m, list_to_map (map_to_list m)) <$> labels.

Definition isGRPCIngress (ingress : Ingress) : bool :=
  match om_Annotations (ing_Meta ingress) with
  | None => false
  | Some a =>
      let protocol := ToUpper (lookup_or_empty a NginxBackendProtocol) in
      bool_decide (protocol = BackendProtocolGRPC ∨ protocol = BackendProtocolGRPCS)
  end.

Definition hasRedirectFilter (filters : list HTTPRouteFilter) : bool :=
  existsb (λ f, bool_decide (f_Type f = HTTPRouteFilterRequestRedirect)) filters.

(** ** Backends *)

Definition findPortByName (svc : Service) (portName : string) : option Z :=
  sp_Port <$> List.find (λ p, bool_decide (sp_Name p = portName)) (svc_Ports svc).

(** The port of a backend, and warnings. The HTTP and the gRPC conversion differ in how
    the two warnings about a missing Service map end. *)
Definition resolvePort (namedTail missingTail : string) (svc : IngressServiceBackend) (namespace : string)
  (services : ServiceMap) : option Z * list string :=
  let name := Quote (isb_Name svc) in
  if negb (bool_decide (isb_PortNumber svc = 0%Z)) then (Some (isb_PortNumber svc), [])
  else if negb (bool_decide (isb_PortName svc = "")) then
    match services with
    | None =>
        (None, ["service " ⊕ name ⊕ " uses named port " ⊕ Quote (isb_PortName svc) ⊕ " which cannot be resolved" ⊕ namedTail])
    | Some services =>
        match services !! (namespace, isb_Name svc) with
        | None => (None, ["service " ⊕ name ⊕ " not found for port resolution"])
        | Some service =>
            match findPortByName service (isb_PortName svc) with
            | Some port => (Some port, [])
            | None => (None, ["service " ⊕ name ⊕ " has no port named " ⊕ Quote (isb_PortName svc)])
            end
        end
    end
  else
    match services with
    | None => (None, ["service " ⊕ name ⊕ " has no port specified" ⊕ missingTail])
    | Some services =>
        match services !! (namespace, isb_Name svc) with
        | None => (None, ["service " ⊕ name ⊕ " not found for port resolution"])
        | Some service =>
            match svc_Ports service with
            | [p] => (Some (sp_Port p), [])
            | [] => (None, ["service " ⊕ name ⊕ " has no ports defined"])
            | _ => (None, ["service " ⊕ name ⊕ " has multiple ports; specify port explicitly"])
            end
        end
    end.

Definition convertServiceBackendWithLookup (svc : IngressServiceBackend) (namespace : string) (services : ServiceMap)
  : BackendRef * list string :=
  let '(port, warnings) :=
    resolvePort "; specify port number instead" "; Gateway API requires explicit port" svc namespace services in
  let n := isb_PortNumber svc in
  let rangeWarning :=
    if bool_decide (n ≠ 0 ∧ (n < 1 ∨ n > 65535))%Z
    then ["service " ⊕ Quote (isb_Name svc) ⊕ " has invalid port number " ⊕ Itoa n ⊕ " (must be 1-65535)"] else [] in
  (serviceRef (isb_Name svc) port, rangeWarning ++ warnings).

Definition convertServiceBackendToGRPC (svc : IngressServiceBackend) (namespace : string) (services : ServiceMap)
  : BackendRef * list string :=
  let '(port, warnings) := resolvePort "" "" svc namespace services in
  (serviceRef (isb_Name svc) port, warnings).

Definition resource_warning (name : string) : string :=
  "resource backend " ⊕ Quote name ⊕ " not supported; only Service backends are converted".

(** The backends of a path: its Service, or a warning about its resource. *)
Definition pathBackend (convert : IngressServiceBackend -> BackendRef * list string) (backend : IngressBackend)
  : list BackendRef * list string :=
  match ib_Service backend with
  | Some svc => let '(ref, warnings) := convert svc in ([ref], warnings)
  | None => ([], match ib_Resource backend with Some r => [resource_warning r] | None => [] end)
  end.

Definition no_default_service (backend : IngressBackend) : list string :=
  match ib_Resource backend with
  | Some r => ["default backend uses resource " ⊕ Quote r ⊕ " which is not supported"]
  | None => ["default backend has no service reference"]
  end.

(** ** Paths and default backends *)

Definition convertPathType (pathType : option PathType) : PathMatchType :=
  match pathType with
  | Some PathTypeExact => PathMatchExact
  | _ => PathMatchPathPrefix
  end.

Definition convertPathTypeWithRegex (pathType : option PathType) (useRegex : bool) : PathMatchType :=
  if useRegex then PathMatchRegularExpression else convertPathType pathType.

Definition convertPathWithServices (path : HTTPIngressPath) (namespace : string) (services : ServiceMap)
  (useRegex : bool) : HTTPRouteRule * list string :=
  let '(match_, pathWarnings) :=
    if bool_decide (ip_Path path = "") then ({| rm_Path := None |}, [])
    else
      ({| rm_Path := Some {| pm_Type := Some (convertPathTypeWithRegex (ip_PathType path) useRegex);
                             pm_Value := Some (ip_Path path) |} |},
       if bool_decide (ip_PathType path = Some PathTypeImplementationSpecific) && negb useRegex
       then ["path " ⊕ Quote (ip_Path path) ⊕ " uses ImplementationSpecific type, converted to PathPrefix"] else []) in
  let '(backendRefs, backendWarnings) :=
    pathBackend (λ svc, convertServiceBackendWithLookup svc namespace services) (ip_Backend path) in
  ({| hrr_Matches := [match_]; hrr_Filters := []; hrr_BackendRefs := backendRefs |},
   pathWarnings ++ backendWarnings).

Definition convertPathToGRPCRule (path : HTTPIngressPath) (namespace : string) (services : ServiceMap)
  : GRPCRouteRule * list string :=
  let pathWarnings :=
    if bool_decide (ip_Path path ≠ "" ∧ ip_Path path ≠ "/")
    then ["path " ⊕ Quote (ip_Path path) ⊕ " will be ignored for GRPCRoute; use service/method matching in GRPCRoute spec if needed"]
    else [] in
  let '(backendRefs, backendWarnings) :=
    pathBackend (λ svc, convertServiceBackendToGRPC svc namespace services) (ip_Backend path) in
  ({| grr_Filters := []; grr_BackendRefs := backendRefs |}, pathWarnings ++ backendWarnings).

Definition convertDefaultBackendWithServices (backend : IngressBackend) (namespace : string) (services : ServiceMap)
  : option HTTPRouteRule * list string :=
  match ib_Service backend with
  | None => (None, no_default_service backend)
  | Some svc =>
      let '(backendRef, warnings) := convertServiceBackendWithLookup svc namespace services in
      (Some {| hrr_Matches := [{| rm_Path := Some {| pm_Type := Some PathMatchPathPrefix; pm_Value := Some "/" |} |}];
               hrr_Filters := []; hrr_BackendRefs := [backendRef] |}, warnings)
  end.

Definition convertDefaultBackendToGRPCRule (backend : IngressBackend) (namespace : string) (services : ServiceMap)
  : option GRPCRouteRule * list string :=
  match ib_Service backend with
  | None => (None, no_default_service backend)
  | Some svc =>
      let '(backendRef, warnings) := convertServiceBackendToGRPC svc namespace services in
      (Some {| grr_Filters := []; grr_BackendRefs := [backendRef] |}, warnings)
  end.

(** Add the filters of the annotations; a rule with a redirect has no backends. *)
Definition applyFilters (filters : list HTTPRouteFilter) (rule : HTTPRouteRule) : HTTPRouteRule :=
  {| hrr_Matches := hrr_Matches rule;
     hrr_Filters := hrr_Filters rule ++ filters;
     hrr_BackendRefs := if hasRedirectFilter filters then [] else hrr_BackendRefs rule |}.

(** ** TLS *)

Definition convertTLS (namespace domainReplace domainSuffix : string) (tls : IngressTLS)
  : list TLSListener * list string :=
  let secret := it_SecretName tls in
  let listener hostname :=
    {| tl_Hostname := hostname; tl_SecretName := secret;
       tl_SourceSecretNamespace := namespace; tl_SourceSecretName := secret |} in
  match it_Hosts tls with
  | [] => (if bool_decide (secret = "") then [] else [listener "*"], [])
  | hosts =>
      ((λ host, listener (transformHostname host domainReplace domainSuffix)) <$> hosts,
       if bool_decide (secret = "")
       then ["TLS config has hosts [" ⊕ Join hosts " " ⊕
             "] but no secretName; Gateway will need manual certificate configuration or cert-manager"]
       else [])
  end.

Definition convertTLSConfig (tlsConfigs : list IngressTLS) (namespace domainReplace domainSuffix : string)
  : list TLSListener * list string :=
  let parts := convertTLS namespace domainReplace domainSuffix <$> tlsConfigs in
  (mjoin parts.*1, mjoin parts.*2).

(** ** Collecting and grouping the rules of the hosts *)

Abbreviation HostRules Rule := (gmap string (list Rule)).

Section grouping.
Context {Rule : Type}.

Record hostRuleGroup := {
  grp_hosts : list string;
  grp_rules : list Rule;
}.

Definition appendRule (hostRules : HostRules Rule) (host : string) (rule : Rule) : HostRules Rule :=
  <[host := default [] (hostRules !! host) ++ [rule]]> hostRules.

(** One rule of the Ingress: its paths in order, or only its host when it has none. *)
Definition collectRule (transform : string -> string) (convertPath : HTTPIngressPath -> Rule * list string)
  (st : HostRules Rule * list string) (rule : IngressRule) : HostRules Rule * list string :=
  let host := transform (ir_Host rule) in
  let '(hostRules, warnings) := st in
  match ir_HTTP rule with
  | None =>
      (if bool_decide (host = "") then hostRules
       else match hostRules !! host with
            | Some _ => hostRules
            | None => <[host := []]> hostRules
            end, warnings)
  | Some paths =>
      foldl (λ '(hr, ws) path,
               let '(r, ruleWarnings) := convertPath path in
               (appendRule hr host r, ws ++ ruleWarnings)) (hostRules, warnings) paths
  end.

Definition collectRules (transform : string -> string) (convertPath : HTTPIngressPath -> Rule * list string)
  (rules : list IngressRule) (warnings : list string) : HostRules Rule * list string :=
  foldl (collectRule transform convertPath) (∅, warnings) rules.

(** The maps from signatures to hosts and rules, filled in the order [order] in which the
    map of the hosts is ranged over. *)
Definition groupStep (signature : list Rule -> string) (defaultRule : option Rule)
  (st : gmap string (list string) * gmap string (list Rule)) (hr : string * list Rule) :=
  let '(toHosts, toRules) := st in
  let '(host, rules) := hr in
  let finalRules := rules ++ option_list defaultRule in
  let sig := signature finalRules in
  (<[sig := default [] (toHosts !! sig) ++ [host]]> toHosts, <[sig := finalRules]> toRules).

Definition groupsOf (hosts : list string) (rules : list Rule) : list hostRuleGroup :=
  let hosts := sort_strings hosts in
  let actualHosts := filter (λ h, h ≠ "") hosts in
  let hasNoHost := bool_decide ("" ∈ hosts) in
  if hasNoHost && negb (bool_decide (actualHosts = []))
  then [{| grp_hosts := [""]; grp_rules := rules |}; {| grp_hosts := actualHosts; grp_rules := rules |}]
  else [{| grp_hosts := hosts; grp_rules := rules |}].

Definition groupHostsByRules (signature : list Rule -> string) (order : list (string * list Rule))
  (defaultRule : option Rule) : list hostRuleGroup :=
  let '(toHosts, toRules) := foldl (groupStep signature defaultRule) (∅, ∅) order in
  let signatures := sort_strings (map_to_list toHosts).*1 in
  mjoin ((λ sig, groupsOf (default [] (toHosts !! sig)) (default [] (toRules !! sig))) <$> signatures).

Definition generateRouteName (ingressName : string) (index totalGroups : nat) : string :=
  if bool_decide (totalGroups = 1) then ingressName
  else ingressName ⊕ "-" ⊕ Itoa (Z.of_nat index + 1).

Definition groupRoute (ingress : Ingress) (parentRef : ParentReference) (total i : nat) (group : hostRuleGroup)
  : GatewayRoute Rule :=
  {| gr_Meta := objectMeta (generateRouteName (om_Name (ing_Meta ingress)) i total)
                  (om_Namespace (ing_Meta ingress)) "" (copyLabels (om_Labels (ing_Meta ingress))) None;
     gr_ParentRefs := [parentRef];
     gr_Hostnames := match grp_hosts group with
                     | [] => []
                     | h :: _ => if bool_decide (h = "") then [] else grp_hosts group
                     end;
     gr_Rules := grp_rules group; gr_Status := [] |}.

(** The routes of the groups, or of the default backend alone. *)
Definition groupRoutes (ingress : Ingress) (parentRef : ParentReference) (groups : list hostRuleGroup)
  (defaultRule : option Rule) : list (GatewayRoute Rule) :=
  match groups, defaultRule with
  | [], Some rule =>
      [{| gr_Meta := objectMeta (om_Name (ing_Meta ingress)) (om_Namespace (ing_Meta ingress)) ""
                       (copyLabels (om_Labels (ing_Meta ingress))) None;
          gr_ParentRefs := [parentRef]; gr_Hostnames := []; gr_Rules := [rule]; gr_Status := [] |}]
  | _, _ => imap (groupRoute ingress parentRef (length groups)) groups
  end.
End grouping.
Arguments hostRuleGroup : clear implicits.

(** ** The conversion *)

Section convert.
Context (url_Parse : string -> result URL).
Context (MarshalHTTP : list HTTPRouteRule -> option (list N)) (MarshalGRPC : list GRPCRouteRule -> option (list N)).

Definition rulesSignature (rules : list HTTPRouteRule) : string :=
  match MarshalHTTP rules with
  | None => "rules-" ⊕ Itoa (Z.of_nat (length rules))
  | Some data => EncodeToString (Sum256 data)
  end.

Definition grpcRulesSignature (rules : list GRPCRouteRule) : string :=
  match MarshalGRPC rules with
  | None => "grpc-rules-" ⊕ Itoa (Z.of_nat (length rules))
  | Some data => EncodeToString (Sum256 data)
  end.

Definition inputHost (input : Input) (host : string) : string :=
  transformHostname host (in_DomainReplace input) (in_DomainSuffix input).

Definition inputNamespace (input : Input) : string := om_Namespace (ing_Meta (in_Ingress input)).

Definition useRegex (ingress : Ingress) : bool :=
  bool_decide (get (om_Annotations (ing_Meta ingress)) UseRegex = BoolTrue).

(** A path as an HTTP rule, with the filters *)
Definition httpRule (input : Input) (filters : list HTTPRouteFilter) (path : HTTPIngressPath)
  : HTTPRouteRule * list string :=
  let '(rule, warnings) :=
    convertPathWithServices path (inputNamespace input) (in_Services input) (useRegex (in_Ingress input)) in
  (applyFilters filters rule, warnings).

(** The rule of the default backend, with the filters *)
Definition httpDefault (input : Input) (filters : list HTTPRouteFilter) : option HTTPRouteRule * list string :=
  match ing_DefaultBackend (in_Ingress input) with
  | None => (None, [])
  | Some backend =>
      let '(rule, warnings) := convertDefaultBackendWithServices backend (inputNamespace input) (in_Services input) in
      (applyFilters filters <$> rule, warnings)
  end.

Definition convertToHTTPRoutes (input : Input) (parentRef : ParentReference) (filters : list HTTPRouteFilter)
  (warnings : list string) : list HTTPRoute * list string :=
  let ingress := in_Ingress input in
  let '(hostRules, warnings) := collectRules (inputHost input) (httpRule input filters) (ing_Rules ingress) warnings in
  let '(defaultRule, defaultWarnings) := httpDefault input filters in
  let groups := groupHostsByRules rulesSignature (map_to_list hostRules) defaultRule in
  (groupRoutes ingress parentRef groups defaultRule, warnings ++ defaultWarnings).

(** The gRPC variant repeats the code of the HTTP one on rules of another type. *)
Definition groupGRPCHostsByRules (order : list (string * list GRPCRouteRule)) (defaultRule : option GRPCRouteRule)
  : list (hostRuleGroup GRPCRouteRule) := groupHostsByRules grpcRulesSignature order defaultRule.

Definition grpcDefault (input : Input) : option GRPCRouteRule * list string :=
  match ing_DefaultBackend (in_Ingress input) with
  | None => (None, [])
  | Some backend => convertDefaultBackendToGRPCRule backend (inputNamespace input) (in_Services input)
  end.

Definition convertToGRPCRoutes (input : Input) (parentRef : ParentReference) (warnings : list string)
  : list GRPCRoute * list string :=
  let ingress := in_Ingress input in
  let '(hostRules, warnings) :=
    collectRules (inputHost input)
      (λ path, convertPathToGRPCRule path (inputNamespace input) (in_Services input)) (ing_Rules ingress) warnings in
  let '(defaultRule, defaultWarnings) := grpcDefault input in
  let groups := groupGRPCHostsByRules (map_to_list hostRules) defaultRule in
  (groupRoutes ingress parentRef groups defaultRule, warnings ++ defaultWarnings).

Definition grpc_note : string :=
  "backend-protocol=GRPC detected, generating GRPCRoute (annotation filters not applicable to GRPCRoute)".

Definition ConvertIngressWithServices (input : Input) : Result :=
  let ingress := in_Ingress input in
  let isGRPC := isGRPCIngress ingress in
  let annotationResult := Convert url_Parse (in_SkipPolicyWarnings input) (om_Annotations (ing_Meta ingress)) in
  let warnings := if isGRPC then [grpc_note] else Warnings annotationResult in
  let '(tlsListeners, tlsWarnings) :=
    convertTLSConfig (ing_TLS ingress) (inputNamespace input) (in_DomainReplace input) (in_DomainSuffix input) in
  let warnings := warnings ++ tlsWarnings in
  let parentRef := buildParentRef (in_GatewayName input) (in_GatewayNamespace input) (inputNamespace input) in
  let '(httpRoutes, grpcRoutes, warnings) :=
    if isGRPC then
      let '(routes, warnings) := convertToGRPCRoutes input parentRef warnings in ([], routes, warnings)
    else
      let '(routes, warnings) := convertToHTTPRoutes input parentRef (Filters annotationResult) warnings in
      (routes, [], warnings) in
  {| res_HTTPRoutes := httpRoutes;
     res_GRPCRoutes := grpcRoutes;
     res_TLSListeners := tlsListeners;
     res_Warnings := warnings ++
       match httpRoutes, grpcRoutes with
       | [], [] => ["no routes generated, Ingress may be misconfigured"]
       | _, _ => []
       end;
     res_ProcessedAnnotations := if isGRPC then [] else Processed annotationResult |}.
End convert.

(** ** Lemmas: grouping hosts *)

Section grouping_lemmas.
Context {Rule : Type} (signature : list Rule -> string) (defaultRule : option Rule).

Definition finalRules (hr : string * list Rule) : list Rule := hr.2 ++ option_list defaultRule.
Definition sigOf (hr : string * list Rule) : string := signature (finalRules hr).

(** The entries with a given signature, in order. *)
Definition entriesWith (sig : string) (order : list (string * list Rule)) : list (string * list Rule) :=
  filter (λ hr, sigOf hr = sig) order.

(** No two lists of rules of this Ingress that differ have the same signature. *)
Definition no_collision (order : list (string * list Rule)) : Prop :=
  ∀ x y, x ∈ order → y ∈ order → sigOf x = sigOf y → finalRules x = finalRules y.

Abbreviation fold order := (foldl (groupStep signature defaultRule) (∅, ∅) order).

Lemma fold_snoc order h rs :
  fold (order ++ [(h, rs)]) =
  (<[sigOf (h, rs) := default [] ((fold order).1 !! sigOf (h, rs)) ++ [h]]> (fold order).1,
   <[sigOf (h, rs) := finalRules (h, rs)]> (fold order).2).
Proof. rewrite foldl_app. simpl. unfold groupStep at 1. by destruct (fold order). Qed.

Lemma entriesWith_snoc sig order hr :
  entriesWith sig (order ++ [hr]) = entriesWith sig order ++ (if decide (sigOf hr = sig) then [hr] else []).
Proof. unfold entriesWith. by rewrite filter_app. Qed.

Lemma fold_hosts order sig :
  (fold order).1 !! sig = match entriesWith sig order with [] => None | l => Some l.*1 end.
Proof.
  induction order as [|[h rs] order IH] using rev_ind; [done|].
  rewrite fold_snoc, entriesWith_snoc. simpl. destruct (decide (sigOf (h, rs) = sig)) as [->|Hs].
  - rewrite lookup_insert_eq, IH. destruct (entriesWith sig order) as [|x l]; [done|].
    simpl. by rewrite fmap_app.
  - by rewrite lookup_insert_ne, IH, app_nil_r.
Qed.

Lemma fold_rules order sig : (fold order).2 !! sig = finalRules <$> last (entriesWith sig order).
Proof.
  induction order as [|[h rs] order IH] using rev_ind; [done|].
  rewrite fold_snoc, entriesWith_snoc. simpl. destruct (decide (sigOf (h, rs) = sig)) as [->|Hs].
  - by rewrite lookup_insert_eq, last_snoc.
  - by rewrite lookup_insert_ne, IH, app_nil_r.
Qed.

(** The signatures in use, sorted *)
Definition signaturesOf (order : list (string * list Rule)) : list string :=
  sort_strings (map_to_list (fold order).1).*1.

Lemma signaturesOf_NoDup order : NoDup (signaturesOf order).
Proof. unfold signaturesOf. auto with kubelb. Qed.

Lemma elem_of_signaturesOf order sig : sig ∈ signaturesOf order ↔ ∃ hr, hr ∈ order ∧ sigOf hr = sig.
Proof.
  unfold signaturesOf. rewrite elem_of_sort_strings.
  trans (is_Some ((fold order).1 !! sig)).
  { rewrite list_elem_of_fmap. split.
    - intros ([k v] & -> & Hv%elem_of_map_to_list). by exists v.
    - intros [v Hv]. exists (sig, v). by rewrite elem_of_map_to_list. }
  rewrite fold_hosts. split.
  - destruct (entriesWith sig order) as [|x l] eqn:He; [by intros []|]. intros _. exists x.
    assert (x ∈ entriesWith sig order) as [? ?]%list_elem_of_filter by (rewrite He; left). done.
  - intros (hr & Hin & Hs).
    assert (hr ∈ entriesWith sig order) as He by (by apply list_elem_of_filter).
    destruct (entriesWith sig order); [by apply elem_of_nil in He|by eexists].
Qed.

Definition hostsWith (sig : string) (order : list (string * list Rule)) : list string := (entriesWith sig order).*1.
Definition rulesWith (sig : string) (order : list (string * list Rule)) : list Rule :=
  default [] (finalRules <$> last (entriesWith sig order)).

Lemma groupHostsByRules_alt order :
  groupHostsByRules signature order defaultRule =
  mjoin ((λ sig, groupsOf (hostsWith sig order) (rulesWith sig order)) <$> signaturesOf order).
Proof.
  unfold groupHostsByRules, signaturesOf, rulesWith, hostsWith.
  rewrite (surjective_pairing (fold order)). f_equal. apply list_fmap_ext. intros i sig _.
  rewrite fold_hosts, fold_rules. by destruct (entriesWith sig order).
Qed.

(** *** One signature *)

Lemma groupsOf_rules (hosts : list string) (rules : list Rule) g : g ∈ groupsOf hosts rules → grp_rules g = rules.
Proof.
  unfold groupsOf. case_match; intros Hg; repeat (apply elem_of_cons in Hg as [->|Hg]; [done|]);
    by apply elem_of_nil in Hg.
Qed.

Lemma no_host_split (hosts : list string) : NoDup hosts → "" ∈ hosts → hosts ≡ₚ "" :: filter (λ h, h ≠ "") hosts.
Proof.
  induction 1 as [|h hosts Hin Hnd IH]; [by intros ?%elem_of_nil|].
  intros [<-|He]%elem_of_cons.
  - rewrite filter_cons_False by (by intros H). rewrite filter_all; [done|].
    apply Forall_forall. by intros x Hx ->.
  - rewrite filter_cons_True by (by intros ->). rewrite (IH He) at 1. apply Permutation_swap.
Qed.

Lemma groupsOf_hosts (hosts : list string) (rules : list Rule) :
  NoDup hosts → mjoin (grp_hosts <$> groupsOf hosts rules) ≡ₚ hosts.
Proof.
  intros Hnd. unfold groupsOf. destruct (_ && _) eqn:Hc; simpl; rewrite ?app_nil_r.
  - apply andb_true_iff in Hc as [Hin%bool_decide_eq_true _].
    rewrite <-(no_host_split (sort_strings hosts)); [apply sort_strings_perm| |done].
    auto with kubelb.
  - auto with kubelb.
Qed.

(** The group of the rules without a host has no other host. *)
Lemma groupsOf_no_host (hosts : list string) (rules : list Rule) g :
  NoDup hosts → g ∈ groupsOf hosts rules → "" ∈ grp_hosts g → grp_hosts g = [""].
Proof.
  intros Hnd Hg He. unfold groupsOf in Hg. destruct (_ && _) eqn:Hc.
  - apply elem_of_cons in Hg as [->|Hg]; [done|]. apply list_elem_of_singleton in Hg as ->. simpl in He.
    by apply list_elem_of_filter in He as [? _].
  - apply list_elem_of_singleton in Hg as ->. simpl in *. rewrite bool_decide_eq_true_2 in Hc by done.
    simpl in Hc. apply negb_false_iff, bool_decide_eq_true in Hc.
    pose proof (no_host_split _ (NoDup_sort_strings _ Hnd) He) as Hp. rewrite Hc in Hp.
    by apply Permutation_singleton_r in Hp.
Qed.

Lemma groupsOf_proper (hosts1 hosts2 : list string) (rules : list Rule) :
  hosts1 ≡ₚ hosts2 → groupsOf hosts1 rules = groupsOf hosts2 rules.
Proof. intros Hp. unfold groupsOf. by rewrite (sort_strings_proper _ _ Hp). Qed.

(** *** All signatures *)

Lemma mjoin_insert {A} (f : string -> list A) s0 x sigs :
  NoDup sigs → s0 ∈ sigs →
  mjoin ((λ s, if decide (s0 = s) then x :: f s else f s) <$> sigs) ≡ₚ x :: mjoin (f <$> sigs).
Proof.
  induction 1 as [|s sigs Hs Hnd IH]; [by intros ?%elem_of_nil|]. intros Hin. simpl.
  destruct (decide (s0 = s)) as [->|Hne]; simpl.
  - apply Permutation_refl'. do 3 f_equal. apply list_fmap_ext. intros i s' Hs'.
    destruct (decide (s = s')) as [->|]; [|done]. by apply list_elem_of_lookup_2 in Hs'.
  - apply elem_of_cons in Hin as [|Hin]; [done|]. rewrite (IH Hin). by rewrite Permutation_middle.
Qed.

Lemma hostsWith_cover order sigs :
  NoDup sigs → (∀ hr, hr ∈ order → sigOf hr ∈ sigs) →
  mjoin ((λ s, hostsWith s order) <$> sigs) ≡ₚ order.*1.
Proof.
  intros Hnd. induction order as [|[h rs] order IH]; intros Hin.
  - clear Hnd Hin. by induction sigs.
  - simpl. rewrite <-IH by (intros; apply Hin; by right).
    rewrite <-(mjoin_insert _ (sigOf (h, rs)) h); [|done|apply Hin; left].
    apply Permutation_refl'. f_equal. apply list_fmap_ext. intros i s _. unfold hostsWith, entriesWith.
    destruct (decide (sigOf (h, rs) = s)).
    + by rewrite filter_cons_True.
    + by rewrite filter_cons_False.
Qed.

Lemma hostsWith_NoDup sig order : NoDup order.*1 → NoDup (hostsWith sig order).
Proof.
  intros Hnd. unfold hostsWith, entriesWith. eapply sublist_NoDup; [exact Hnd|]. apply fmap_sublist, sublist_filter.
Qed.

Lemma rulesWith_spec sig order hr :
  no_collision order → hr ∈ order → sigOf hr = sig → rulesWith sig order = finalRules hr.
Proof.
  intros Hnc Hin Hs. unfold rulesWith. destruct (last (entriesWith sig order)) as [x|] eqn:Hl; simpl.
  - apply last_Some_elem_of in Hl. apply list_elem_of_filter in Hl as [Hx Hxin]. apply Hnc; congruence.
  - apply last_None in Hl.
    assert (hr ∈ entriesWith sig order) as He by (by apply list_elem_of_filter). rewrite Hl in He.
    by apply elem_of_nil in He.
Qed.
End grouping_lemmas.

(** ** Lemmas: the groups as a whole *)

Section groups_lemmas.
Context {Rule : Type} (signature : list Rule -> string) (defaultRule : option Rule).
Abbreviation groups order := (groupHostsByRules signature order defaultRule).

Lemma elem_of_groups order g :
  g ∈ groups order ↔ ∃ sig, sig ∈ signaturesOf signature defaultRule order ∧
    g ∈ groupsOf (hostsWith signature defaultRule sig order) (rulesWith signature defaultRule sig order).
Proof.
  rewrite groupHostsByRules_alt, list_elem_of_join. setoid_rewrite list_elem_of_fmap. naive_solver.
Qed.

Lemma groups_hosts order : NoDup order.*1 → mjoin (grp_hosts <$> groups order) ≡ₚ order.*1.
Proof.
  intros Hnd. rewrite groupHostsByRules_alt.
  rewrite <-(hostsWith_cover signature defaultRule order (signaturesOf signature defaultRule order)).
  - induction (signaturesOf signature defaultRule order) as [|s sigs IH]; [done|].
    simpl. rewrite fmap_app, join_app, IH. f_equiv; [|done]. by apply groupsOf_hosts, hostsWith_NoDup.
  - apply signaturesOf_NoDup.
  - intros hr Hin. apply elem_of_signaturesOf. by exists hr.
Qed.

(** The rules of a group are those of an entry; of each of its hosts if no signatures clash. *)
Lemma groups_rules order g : g ∈ groups order → ∃ hr, hr ∈ order ∧ grp_rules g = finalRules defaultRule hr.
Proof.
  intros (sig & Hsig & Hg)%elem_of_groups. apply groupsOf_rules in Hg as ->.
  apply elem_of_signaturesOf in Hsig as (hr & Hin & Hs).
  unfold rulesWith. destruct (last (entriesWith signature defaultRule sig order)) as [x|] eqn:Hl; simpl.
  - exists x. split; [|done]. apply last_Some_elem_of, list_elem_of_filter in Hl. naive_solver.
  - apply last_None in Hl.
    assert (hr ∈ entriesWith signature defaultRule sig order) as He by (by apply list_elem_of_filter).
    rewrite Hl in He. by apply elem_of_nil in He.
Qed.

Lemma groups_host_rules order g h :
  NoDup order.*1 → no_collision signature defaultRule order → g ∈ groups order → h ∈ grp_hosts g →
  ∃ rs, (h, rs) ∈ order ∧ grp_rules g = rs ++ option_list defaultRule.
Proof.
  intros Hnd Hnc (sig & Hsig & Hg)%elem_of_groups Hh.
  pose proof (groupsOf_rules _ _ _ Hg) as ->.
  assert (h ∈ hostsWith signature defaultRule sig order) as Hin.
  { rewrite <-(groupsOf_hosts _ (rulesWith signature defaultRule sig order)) by (by apply hostsWith_NoDup).
    apply list_elem_of_join. exists (grp_hosts g). split; [done|]. by apply list_elem_of_fmap_2. }
  apply list_elem_of_fmap in Hin as ([h' rs] & -> & [Hs Hin]%list_elem_of_filter). exists rs.
  split; [done|]. by rewrite (rulesWith_spec _ _ _ _ (h', rs) Hnc Hin Hs).
Qed.

Lemma groups_no_host order g : NoDup order.*1 → g ∈ groups order → "" ∈ grp_hosts g → grp_hosts g = [""].
Proof.
  intros Hnd (sig & Hsig & Hg)%elem_of_groups. eapply groupsOf_no_host; [|done]. by apply hostsWith_NoDup.
Qed.

Lemma groups_nonempty order g : NoDup order.*1 → g ∈ groups order → grp_hosts g ≠ [].
Proof.
  intros Hnd (sig & Hsig & Hg)%elem_of_groups. apply elem_of_signaturesOf in Hsig as (hr & Hin & Hs).
  assert (hr.1 ∈ hostsWith signature defaultRule sig order) as Hh.
  { apply list_elem_of_fmap_2. by apply list_elem_of_filter. }
  unfold groupsOf in Hg. destruct (_ && _) eqn:Hc.
  - apply andb_true_iff in Hc as [_ Hc%negb_true_iff%bool_decide_eq_false].
    apply elem_of_cons in Hg as [->|Hg]; [done|]. by apply list_elem_of_singleton in Hg as ->.
  - apply list_elem_of_singleton in Hg as ->. simpl. intros He. rewrite <-elem_of_sort_strings, He in Hh.
    by apply elem_of_nil in Hh.
Qed.

(** Every host is in a group. *)
Lemma groups_cover order h : NoDup order.*1 → h ∈ order.*1 → ∃ g, g ∈ groups order ∧ h ∈ grp_hosts g.
Proof.
  intros Hnd Hh. rewrite <-(groups_hosts _ Hnd) in Hh.
  apply list_elem_of_join in Hh as (l & Hl & Hh).
  apply list_elem_of_fmap in Hh as (g & -> & Hg). by exists g.
Qed.

Lemma groups_nil order : groups order = [] ↔ order = [].
Proof.
  split; [|by intros ->]. destruct order as [|hr order]; [done|]. intros Hg. exfalso.
  assert (sigOf signature defaultRule hr ∈ signaturesOf signature defaultRule (hr :: order)) as Hs.
  { apply elem_of_signaturesOf. exists hr. split; [left|done]. }
  assert (∃ g, g ∈ groups (hr :: order)) as [g Hin].
  { set (sig := sigOf signature defaultRule hr) in *.
    assert (∃ g, g ∈ groupsOf (hostsWith signature defaultRule sig (hr :: order))
                       (rulesWith signature defaultRule sig (hr :: order))) as [g Hg'].
    { unfold groupsOf. case_match; eexists; left. }
    exists g. apply elem_of_groups. eauto. }
  rewrite Hg in Hin. by apply elem_of_nil in Hin.
Qed.
End groups_lemmas.

(** ** Lemmas: collecting the rules of a host *)

Section collect_lemmas.
Context {Rule : Type} (transform : string -> string) (convertPath : HTTPIngressPath -> Rule * list string).

(** What one rule of the Ingress adds to a host, and whether it mentions the host. *)
Definition contribution (h : string) (r : IngressRule) : list Rule :=
  if bool_decide (transform (ir_Host r) = h)
  then (λ p, (convertPath p).1) <$> default [] (ir_HTTP r) else [].

Definition mentions (h : string) (r : IngressRule) : Prop :=
  transform (ir_Host r) = h ∧
  match ir_HTTP r with
  | None => h ≠ ""
  | Some paths => paths ≠ []
  end.

Lemma paths_lookup paths host st h :
  (foldl (λ '(hr, ws) path,
           let '(r, ruleWarnings) := convertPath path in
           (appendRule hr host r, ws ++ ruleWarnings)) st paths).1 !! h =
  if decide (host = h ∧ paths ≠ []) then Some (default [] (st.1 !! h) ++ ((λ p, (convertPath p).1) <$> paths))
  else st.1 !! h.
Proof.
  revert st. induction paths as [|p paths IH]; intros [hr ws]; [rewrite decide_False; naive_solver|].
  simpl. rewrite IH. destruct (convertPath p) as [r w]. simpl. unfold appendRule.
  destruct (decide (host = h)) as [->|Hh].
  - rewrite lookup_insert_eq, (decide_True (P := h = h ∧ p :: paths ≠ [])) by done. simpl.
    destruct paths; [by rewrite decide_False by naive_solver|].
    rewrite decide_True by done. by rewrite <-app_assoc.
  - rewrite !decide_False by naive_solver. by rewrite lookup_insert_ne.
Qed.

Lemma collectRule_lookup st r h :
  default [] ((collectRule transform convertPath st r).1 !! h) = default [] (st.1 !! h) ++ contribution h r ∧
  (is_Some ((collectRule transform convertPath st r).1 !! h) ↔ is_Some (st.1 !! h) ∨ mentions h r).
Proof.
  unfold collectRule, contribution, mentions. destruct st as [hr ws], (ir_HTTP r) as [paths|]; simpl.
  - rewrite paths_lookup. simpl. destruct (decide (transform (ir_Host r) = h)) as [->|Hh].
    + rewrite bool_decide_eq_true_2 by done. destruct paths as [|p paths].
      * rewrite decide_False by naive_solver. rewrite app_nil_r. naive_solver.
      * rewrite decide_True by done. simpl. split; [done|]. naive_solver.
    + rewrite bool_decide_eq_false_2, decide_False by naive_solver. rewrite app_nil_r. naive_solver.
  - replace (if bool_decide (transform (ir_Host r) = h) then [] else []) with (@nil Rule) by (by case_match).
    rewrite app_nil_r. destruct (decide (transform (ir_Host r) = "")) as [He|He].
    { rewrite bool_decide_eq_true_2 by done. simpl. split; [done|]. naive_solver. }
    rewrite bool_decide_eq_false_2 by done. destruct (hr !! transform (ir_Host r)) eqn:Hl; simpl.
    + split; [done|]. naive_solver.
    + destruct (decide (transform (ir_Host r) = h)) as [<-|Hh].
      * rewrite lookup_insert_eq, Hl. naive_solver.
      * rewrite lookup_insert_ne by done. naive_solver.
Qed.

(** The rules of a host: those of the Ingress rules for it, in order. *)
Definition rulesForHost (rules : list IngressRule) (h : string) : list Rule := mjoin (contribution h <$> rules).

Lemma collectRules_lookup rules ws h :
  default [] ((collectRules transform convertPath rules ws).1 !! h) = rulesForHost rules h ∧
  (is_Some ((collectRules transform convertPath rules ws).1 !! h) ↔ ∃ r, r ∈ rules ∧ mentions h r).
Proof.
  unfold collectRules, rulesForHost. induction rules as [|r rules [IH1 IH2]] using rev_ind.
  - split; [done|]. split; [by intros [? ?]|]. by intros (r & Hr%elem_of_nil & _).
  - rewrite foldl_app, fmap_app, join_app. simpl. rewrite app_nil_r.
    destruct (collectRule_lookup (foldl (collectRule transform convertPath) (∅, ws) rules) r h) as [-> ->].
    rewrite IH1, IH2. split; [done|]. setoid_rewrite elem_of_snoc. naive_solver.
Qed.

Lemma collectRules_Some rules ws h rs :
  (collectRules transform convertPath rules ws).1 !! h = Some rs → rs = rulesForHost rules h.
Proof. intros H. destruct (collectRules_lookup rules ws h) as [Hd _]. by rewrite H in Hd. Qed.

Lemma rulesForHost_elem rules h x :
  x ∈ rulesForHost rules h → ∃ p, x = (convertPath p).1.
Proof.
  intros (l & Hl & Hin)%list_elem_of_join. apply list_elem_of_fmap in Hin as (r & -> & _).
  unfold contribution in Hl. case_bool_decide; [|by apply elem_of_nil in Hl].
  apply list_elem_of_fmap in Hl as (p & -> & _). by exists p.
Qed.
End collect_lemmas.

(** ** Lemmas: routes *)

(** A route serves a host: by name, or, without a host, as a catch-all. *)
Definition serves {Rule} (route : GatewayRoute Rule) (h : string) : Prop :=
  if decide (h = "") then gr_Hostnames route = [] else h ∈ gr_Hostnames route.

Lemma groupRoute_serves {Rule} ingress ref n i (g : hostRuleGroup Rule) h :
  ("" ∈ grp_hosts g → grp_hosts g = [""]) → h ∈ grp_hosts g → serves (groupRoute ingress ref n i g) h.
Proof.
  intros He Hh. unfold serves, groupRoute. simpl. destruct (decide (h = "")) as [->|Hne].
  - rewrite (He Hh). done.
  - destruct (grp_hosts g) as [|h0 hs] eqn:Hg; [done|]. case_bool_decide as H0; [|done].
    subst. rewrite He in Hh by left. by apply list_elem_of_singleton in Hh.
Qed.

Lemma groupRoute_serves_inv {Rule} ingress ref n i (g : hostRuleGroup Rule) h :
  grp_hosts g ≠ [] → serves (groupRoute ingress ref n i g) h → h ∈ grp_hosts g.
Proof.
  unfold serves, groupRoute. simpl. destruct (grp_hosts g) as [|h0 hs]; [done|]. intros _.
  case_bool_decide as H0; case_decide as H1; subst; try done.
  - intros _. left.
  - by intros ?%elem_of_nil.
Qed.

Lemma elem_of_groupRoutes {Rule} ingress ref (gs : list (hostRuleGroup Rule)) d g :
  g ∈ gs → ∃ i, groupRoute ingress ref (length gs) i g ∈ groupRoutes ingress ref gs d.
Proof.
  intros [i Hi]%list_elem_of_lookup. exists i.
  replace (groupRoutes ingress ref gs d) with (imap (groupRoute ingress ref (length gs)) gs) by (by destruct gs).
  apply elem_of_lookup_imap. eauto.
Qed.

Lemma groupRoutes_inv {Rule} ingress ref (gs : list (hostRuleGroup Rule)) d route :
  route ∈ groupRoutes ingress ref gs d →
  (∃ i g, g ∈ gs ∧ route = groupRoute ingress ref (length gs) i g) ∨ (∃ r, d = Some r ∧ gr_Rules route = [r] ∧ gs = []).
Proof.
  intros Hr. destruct gs as [|g0 gs].
  - destruct d as [r|]; [|by apply elem_of_nil in Hr]. apply list_elem_of_singleton in Hr as ->. right. by exists r.
  - left. apply elem_of_lookup_imap in Hr as (i & g & -> & Hg). exists i, g. split; [|done].
    by eapply list_elem_of_lookup_2.
Qed.

Lemma groupRoutes_namespace {Rule} ingress ref (gs : list (hostRuleGroup Rule)) d route :
  route ∈ groupRoutes ingress ref gs d → om_Namespace (gr_Meta route) = om_Namespace (ing_Meta ingress).
Proof.
  intros Hr. destruct gs as [|g0 gs].
  - destruct d as [r|]; [|by apply elem_of_nil in Hr]. by apply list_elem_of_singleton in Hr as ->.
  - by apply elem_of_lookup_imap in Hr as (i & g & -> & Hg).
Qed.

Lemma groupRoutes_nonempty {Rule} ingress ref signature d (hr : HostRules Rule) h : is_Some (hr !! h) →
  groupRoutes ingress ref (groupHostsByRules signature (map_to_list hr) d) d ≠ [].
Proof.
  intros [rs Hh]. destruct (groupHostsByRules signature (map_to_list hr) d) as [|g gs] eqn:Hgs; [|done].
  apply groups_nil in Hgs. apply elem_of_map_to_list in Hh. rewrite Hgs in Hh. by apply elem_of_nil in Hh.
Qed.

Lemma NoDup_map_keys {Rule} (hostRules : HostRules Rule) : NoDup (map_to_list hostRules).*1.
Proof. apply NoDup_fst_map_to_list. Qed.

(** ** Properties: grouping *)

(** hosts with equal rules share a group: the groups partition the hosts, each group
    carries the rules of every one of its hosts followed by the default rule, and the
    rules without a host are a group of their own. *)
Theorem group_hosts_partition {Rule : Type} (signature : list Rule -> string) (order : list (string * list Rule))
  (defaultRule : option Rule) :
  NoDup order.*1 → no_collision signature defaultRule order →
  let groups := groupHostsByRules signature order defaultRule in
  mjoin (grp_hosts <$> groups) ≡ₚ order.*1 ∧
  (∀ g h, g ∈ groups → h ∈ grp_hosts g →
     ∃ rs, (h, rs) ∈ order ∧ grp_rules g = rs ++ option_list defaultRule) ∧
  (∀ g, g ∈ groups → "" ∈ grp_hosts g → grp_hosts g = [""]).
Proof.
  intros Hnd Hnc. cbv zeta. split_and!; [by apply groups_hosts|intros; by eapply groups_host_rules|].
  intros g. by apply groups_no_host.
Qed.

(** the groups do not depend on the order in which the map of the hosts is ranged
    over. *)
Theorem group_hosts_deterministic {Rule : Type} (signature : list Rule -> string)
  (order1 order2 : list (string * list Rule)) (defaultRule : option Rule) :
  order1 ≡ₚ order2 → no_collision signature defaultRule order1 →
  groupHostsByRules signature order1 defaultRule = groupHostsByRules signature order2 defaultRule.
Proof.
  intros Hp Hnc. rewrite !groupHostsByRules_alt.
  assert (no_collision signature defaultRule order2) as Hnc2.
  { intros x y Hx Hy. apply Hnc; by rewrite Hp. }
  assert (signaturesOf signature defaultRule order1 = signaturesOf signature defaultRule order2) as <-.
  { unfold signaturesOf. apply sort_strings_proper. apply NoDup_Permutation; [apply NoDup_fst_map_to_list..|].
    intros sig. pose proof (elem_of_signaturesOf signature defaultRule order1 sig) as H1.
    pose proof (elem_of_signaturesOf signature defaultRule order2 sig) as H2.
    unfold signaturesOf in H1, H2. rewrite elem_of_sort_strings in H1, H2. rewrite H1, H2.
    by setoid_rewrite Hp. }
  f_equal. apply list_fmap_ext. intros i sig Hsig%list_elem_of_lookup_2.
  apply elem_of_signaturesOf in Hsig as (hr & Hin & Hs).
  rewrite (rulesWith_spec _ _ sig order1 hr), (rulesWith_spec _ _ sig order2 hr); try done; [|by rewrite <-Hp].
  apply groupsOf_proper. unfold hostsWith, entriesWith. by rewrite Hp.
Qed.

(** ** Properties: conversion *)

Section conversion_properties.
Context (url_Parse : string -> result URL).
Context (MarshalHTTP : list HTTPRouteRule -> option (list N)) (MarshalGRPC : list GRPCRouteRule -> option (list N)).

Abbreviation convert := (ConvertIngressWithServices url_Parse MarshalHTTP MarshalGRPC).

Definition annotationFilters (input : Input) : list HTTPRouteFilter :=
  Filters (Convert url_Parse (in_SkipPolicyWarnings input) (om_Annotations (ing_Meta (in_Ingress input)))).

(** The map of the hosts of an Ingress that is converted to HTTPRoutes. *)
Definition httpHostRules (input : Input) : HostRules HTTPRouteRule :=
  (collectRules (inputHost input) (httpRule input (annotationFilters input)) (ing_Rules (in_Ingress input)) []).1.

Lemma collectRules_warnings {Rule} t (cp : HTTPIngressPath -> Rule * list string) rules ws ws' :
  (collectRules t cp rules ws).1 = (collectRules t cp rules ws').1.
Proof.
  apply map_eq. intros h.
  destruct (collectRules_lookup t cp rules ws h) as [H1 H2], (collectRules_lookup t cp rules ws' h) as [H1' H2'].
  rewrite <-H2 in H2'. destruct ((collectRules t cp rules ws).1 !! h) eqn:E1, ((collectRules t cp rules ws').1 !! h) eqn:E2;
    simpl in *; [by rewrite H1, <-H1'| | |done].
  - destruct H2' as [_ H]. destruct (H ltac:(eauto)) as [? ?]. done.
  - destruct H2' as [H _]. destruct (H ltac:(eauto)) as [? ?]. done.
Qed.

Lemma convert_http_routes input :
  isGRPCIngress (in_Ingress input) = false →
  ∃ ref, res_HTTPRoutes (convert input) =
    groupRoutes (in_Ingress input) ref
      (groupHostsByRules (rulesSignature MarshalHTTP) (map_to_list (httpHostRules input))
         (httpDefault input (annotationFilters input)).1)
      (httpDefault input (annotationFilters input)).1.
Proof.
  intros Hg. unfold ConvertIngressWithServices. rewrite Hg.
  destruct (convertTLSConfig _ _ _ _) as [tls tw]. unfold convertToHTTPRoutes, httpHostRules.
  fold (annotationFilters input).
  set (ws := Warnings _ ++ tw). rewrite (collectRules_warnings _ _ _ [] ws).
  destruct (collectRules _ _ _ ws) as [hr ws1]. destruct (httpDefault _ _) as [d dw]. simpl. eauto.
Qed.

Definition grpcHostRules (input : Input) : HostRules GRPCRouteRule :=
  (collectRules (inputHost input) (λ path, convertPathToGRPCRule path (inputNamespace input) (in_Services input))
     (ing_Rules (in_Ingress input)) []).1.

Lemma convert_grpc_routes input :
  isGRPCIngress (in_Ingress input) = true →
  ∃ ref, res_GRPCRoutes (convert input) =
    groupRoutes (in_Ingress input) ref
      (groupHostsByRules (grpcRulesSignature MarshalGRPC) (map_to_list (grpcHostRules input)) (grpcDefault input).1) (grpcDefault input).1.
Proof.
  intros Hg. unfold ConvertIngressWithServices. rewrite Hg.
  destruct (convertTLSConfig _ _ _ _) as [tls tw]. unfold convertToGRPCRoutes, grpcHostRules, groupGRPCHostsByRules.
  set (ws := [grpc_note] ++ tw). rewrite (collectRules_warnings _ _ _ [] ws).
  destruct (collectRules _ _ _ ws) as [hr ws1]. destruct (grpcDefault _) as [d dw]. simpl. eauto.
Qed.

(** An Ingress of the one protocol has no routes of the other. *)
Lemma convert_one_protocol input :
  if isGRPCIngress (in_Ingress input) then res_HTTPRoutes (convert input) = [] else res_GRPCRoutes (convert input) = [].
Proof.
  unfold ConvertIngressWithServices. destruct (isGRPCIngress (in_Ingress input)); destruct (convertTLSConfig _ _ _ _).
  - by destruct (convertToGRPCRoutes _ _ _ _).
  - by destruct (convertToHTTPRoutes _ _ _ _ _).
Qed.

Lemma converted_namespace input :
  (∀ route, route ∈ res_HTTPRoutes (convert input) → om_Namespace (gr_Meta route) = inputNamespace input) ∧
  (∀ route, route ∈ res_GRPCRoutes (convert input) → om_Namespace (gr_Meta route) = inputNamespace input).
Proof.
  pose proof (convert_one_protocol input) as Ho. destruct (isGRPCIngress (in_Ingress input)) eqn:Hg.
  - destruct (convert_grpc_routes input Hg) as [ref ->]. rewrite Ho. split; [by intros ? ?%elem_of_nil|apply groupRoutes_namespace].
  - destruct (convert_http_routes input Hg) as [ref ->]. rewrite Ho. split; [apply groupRoutes_namespace|by intros ? ?%elem_of_nil].
Qed.

(** A rule with a path gives a route, whatever the annotations and the Services. *)
Lemma convert_produces input rule paths : rule ∈ ing_Rules (in_Ingress input) → ir_HTTP rule = Some paths → paths ≠ [] →
  res_HTTPRoutes (convert input) ≠ [] ∨ res_GRPCRoutes (convert input) ≠ [].
Proof.
  intros Hr Hh Hp. set (h := inputHost input (ir_Host rule)).
  assert (mentions (inputHost input) h rule) as Hm by (split; [done|by rewrite Hh]).
  destruct (isGRPCIngress (in_Ingress input)) eqn:Hg; [right|left].
  - destruct (convert_grpc_routes input Hg) as [ref ->].
    apply (groupRoutes_nonempty _ _ _ _ _ h), (collectRules_lookup _ _ _ [] h). eauto.
  - destruct (convert_http_routes input Hg) as [ref ->].
    apply (groupRoutes_nonempty _ _ _ _ _ h), (collectRules_lookup _ _ _ [] h). eauto.
Qed.

(** C37: no host and no path is lost: an HTTP Ingress has, for every host one of its
    rules mentions, a route that serves it, and the rules of such a route are exactly the
    converted paths of that host in the order of the Ingress, followed by the default
    backend; provided the SHA-256 signatures of different rules differ. *)
Theorem conversion_complete (input : Input) (h : string) (r : IngressRule) :
  isGRPCIngress (in_Ingress input) = false →
  no_collision (rulesSignature MarshalHTTP) (httpDefault input (annotationFilters input)).1
    (map_to_list (httpHostRules input)) →
  r ∈ ing_Rules (in_Ingress input) → mentions (inputHost input) h r →
  (∃ route, route ∈ res_HTTPRoutes (convert input) ∧ serves route h) ∧
  (∀ route, route ∈ res_HTTPRoutes (convert input) → serves route h →
     gr_Rules route =
       rulesForHost (inputHost input) (httpRule input (annotationFilters input)) (ing_Rules (in_Ingress input)) h ++
       option_list (httpDefault input (annotationFilters input)).1).
Proof.
  intros Hg Hnc Hr Hm. destruct (convert_http_routes input Hg) as [ref ->].
  pose proof (NoDup_map_keys (httpHostRules input)) as Hnd.
  destruct (collectRules_lookup (inputHost input) (httpRule input (annotationFilters input))
              (ing_Rules (in_Ingress input)) [] h) as [_ [_ His]].
  destruct (His ltac:(eauto)) as [rs Hrs]. fold (httpHostRules input) in Hrs.
  assert (h ∈ (map_to_list (httpHostRules input)).*1) as Hin.
  { apply list_elem_of_fmap. exists (h, rs). split; [done|]. by apply elem_of_map_to_list. }
  split.
  - destruct (groups_cover (rulesSignature MarshalHTTP) (httpDefault input (annotationFilters input)).1 _ h Hnd Hin) as (g & Hg' & Hh).
    destruct (elem_of_groupRoutes (in_Ingress input) ref _ (httpDefault input (annotationFilters input)).1 g Hg') as [i Hi].
    eexists. split; [exact Hi|]. apply groupRoute_serves; [|done]. intros He. by eapply groups_no_host.
  - intros route [(i & g & Hg' & ->)|(d & _ & _ & Hgs)]%groupRoutes_inv Hh.
    + apply groupRoute_serves_inv in Hh; [|by eapply groups_nonempty].
      destruct (groups_host_rules (rulesSignature MarshalHTTP) _ _ g h Hnd Hnc Hg' Hh) as (rs' & Hrs' & Heq).
      simpl. rewrite Heq. apply elem_of_map_to_list in Hrs'. f_equal. by eapply collectRules_Some.
    + apply groups_nil in Hgs. rewrite Hgs in Hin. by apply elem_of_nil in Hin.
Qed.
(** every rule of every HTTPRoute has one match and carries exactly the filters of
    the annotations, and a rule with a redirect has no backends. *)
Theorem redirect_excludes_backends (input : Input) :
  Forall (λ route : HTTPRoute, Forall (λ rule,
      length (hrr_Matches rule) = 1 ∧ hrr_Filters rule = annotationFilters input ∧
      (hasRedirectFilter (hrr_Filters rule) = true → hrr_BackendRefs rule = [])) (gr_Rules route))
    (res_HTTPRoutes (convert input)).
Proof.
  set (ok := λ rule, length (hrr_Matches rule) = 1 ∧ hrr_Filters rule = annotationFilters input ∧
                     (hasRedirectFilter (hrr_Filters rule) = true → hrr_BackendRefs rule = [])).
  assert (∀ rule, length (hrr_Matches rule) = 1 → hrr_Filters rule = [] → ok (applyFilters (annotationFilters input) rule)) as Hok.
  { intros rule Hm Hf. unfold ok, applyFilters. simpl. rewrite Hf. split_and!; [done..|]. simpl. by intros ->. }
  assert (∀ rule, (httpDefault input (annotationFilters input)).1 = Some rule → ok rule) as Hdef.
  { unfold httpDefault, convertDefaultBackendWithServices. intros rule.
    destruct (ing_DefaultBackend _) as [b|]; [|done]. destruct (ib_Service b) as [svc|]; [|done].
    destruct (convertServiceBackendWithLookup _ _ _). intros [= <-]. by apply Hok. }
  destruct (isGRPCIngress (in_Ingress input)) eqn:Hg.
  { unfold ConvertIngressWithServices. rewrite Hg. destruct (convertTLSConfig _ _ _ _), (convertToGRPCRoutes _ _ _ _). constructor. }
  destruct (convert_http_routes input Hg) as [ref ->]. apply Forall_forall.
  intros route [(i & g & Hin & ->)|(r & Hr & -> & _)]%groupRoutes_inv; [|by apply Forall_singleton, Hdef].
  simpl. apply groups_rules in Hin as ([h rs] & Hin & ->). unfold finalRules. simpl. apply Forall_app. split.
  - apply elem_of_map_to_list, collectRules_Some in Hin as ->. apply Forall_forall.
    intros rule (p & ->)%rulesForHost_elem. unfold httpRule, convertPathWithServices.
    destruct (if bool_decide (ip_Path p = "") then _ else _), (pathBackend _ _). by apply Hok.
  - apply Forall_forall. intros rule Hd. destruct (httpDefault input _).1 as [d|] eqn:He; [|by apply elem_of_nil in Hd].
    apply list_elem_of_singleton in Hd as ->. by apply Hdef.
Qed.
End conversion_properties.

(** ** Hostnames *)

Lemma longer_ne p r : p ⊕ "." ⊕ r ≠ r.
Proof. intros H%(f_equal String.length). str_lia. Qed.

Lemma drop_wildcard t : str_drop 2 ("*." ⊕ t) = t.
Proof. apply (str_drop_app "*."). Qed.

Section transform_hostname.
Context (replace suffix : string) (Hr : replace ≠ "") (Hs : suffix ≠ "").

Lemma transform_subdomain p : transformHostname (p ⊕ "." ⊕ replace) replace suffix = p ⊕ "." ⊕ suffix.
Proof.
  unfold transformHostname. rewrite bool_decide_eq_false_2 by naive_solver.
  destruct (HasPrefix (p ⊕ "." ⊕ replace) "*.") eqn:Hw.
  - apply HasPrefix_inv in Hw as [t Ht]. rewrite Ht, drop_wildcard.
    destruct p as [|a [|b p]]; [done| |].
    + change (String a (String "."%char replace) = String "*"%char (String "."%char t)) in Ht.
      injection Ht as -> <-. by rewrite bool_decide_eq_true_2.
    + change (String a (String b (p ⊕ "." ⊕ replace)) = String "*"%char (String "."%char t)) in Ht.
      injection Ht as -> -> <-. rewrite bool_decide_eq_false_2 by apply longer_ne.
      rewrite HasSuffix_app, TrimSuffix_app. done.
  - rewrite bool_decide_eq_false_2 by apply longer_ne. by rewrite HasSuffix_app, TrimSuffix_app.
Qed.

Lemma transform_domain : HasPrefix replace "*." = false → transformHostname replace replace suffix = suffix.
Proof.
  intros Hw. unfold transformHostname. rewrite bool_decide_eq_false_2 by naive_solver.
  rewrite Hw. by rewrite bool_decide_eq_true_2.
Qed.

Lemma transform_other h :
  h = replace ∨ (∃ p, h = p ⊕ "." ⊕ replace) ∨ transformHostname h replace suffix = h.
Proof.
  unfold transformHostname. rewrite bool_decide_eq_false_2 by naive_solver.
  destruct (HasPrefix h "*.") eqn:Hw.
  - apply HasPrefix_inv in Hw as [t ->]. rewrite drop_wildcard. case_bool_decide; [subst; right; left; by exists "*"|].
    destruct (HasSuffix t ("." ⊕ replace)) eqn:Hx; [|by right; right].
    apply HasSuffix_inv in Hx as [u ->]. right; left. by exists ("*." ⊕ u).
  - case_bool_decide; [by left|]. destruct (HasSuffix h ("." ⊕ replace)) eqn:Hx; [|by right; right].
    apply HasSuffix_inv in Hx as [u ->]. right; left. by exists u.
Qed.
End transform_hostname.

(** replacing the domain of a hostname and replacing it back is the identity on the
    hosts of the domain (the domain itself, its wildcard and its subdomains), and hosts
    outside the domain are left alone. *)
Theorem domain_replace_roundtrip (h replace suffix : string) :
  replace ≠ "" → suffix ≠ "" → HasPrefix replace "*." = false → HasPrefix suffix "*." = false →
  ((h = replace ∨ ∃ p, h = p ⊕ "." ⊕ replace) →
     transformHostname (transformHostname h replace suffix) suffix replace = h) ∧
  (h = replace ∨ (∃ p, h = p ⊕ "." ⊕ replace) ∨ transformHostname h replace suffix = h).
Proof.
  intros Hr Hs Hwr Hws. split; [|by apply transform_other]. intros [->|[p ->]].
  - by rewrite !transform_domain.
  - by rewrite !transform_subdomain.
Qed.

Lemma domain_replace_roundtrip_witness :
  transformHostname "*.example.com" "example.com" "new.io" = "*.new.io" ∧
  transformHostname (transformHostname "*.example.com" "example.com" "new.io") "new.io" "example.com" = "*.example.com".
Proof.
  split; [vm_compute; reflexivity|].
  apply (domain_replace_roundtrip "*.example.com" "example.com" "new.io");
    [done|done|reflexivity|reflexivity|right; exists "*"; reflexivity].
Defined.

(** a backend port is the number of the Ingress, or a port of the named Service, with
    the wanted name if one is given and the only one otherwise; when no port is found, a
    warning says so, for HTTP and for gRPC. *)
Theorem backend_port_resolved (namedTail missingTail : string) (svc : IngressServiceBackend) (namespace : string)
  (services : ServiceMap) :
  let '(port, warnings) := resolvePort namedTail missingTail svc namespace services in
  match port with
  | None => warnings ≠ []
  | Some n =>
      warnings = [] ∧
      ((n = isb_PortNumber svc ∧ n ≠ 0%Z) ∨
       ∃ m service p, isb_PortNumber svc = 0%Z ∧ services = Some m ∧ m !! (namespace, isb_Name svc) = Some service ∧
         p ∈ svc_Ports service ∧ sp_Port p = n ∧
         (sp_Name p = isb_PortName svc ∨ (isb_PortName svc = "" ∧ svc_Ports service = [p])))
  end.
Proof.
  unfold resolvePort. case_bool_decide as Hn; simpl; [|split; [done|]; by left].
  case_bool_decide as Hname; simpl.
  - destruct services as [m|]; [|done]. destruct (m !! _) as [service|] eqn:Hm; [|done].
    destruct (svc_Ports service) as [|p [|q ps]] eqn:Hp; [done| |done]. split; [done|]. right.
    exists m, service, p. rewrite Hp. split_and!; try done; [left|]. by right.
  - destruct services as [m|]; [|done]. destruct (m !! _) as [service|] eqn:Hm; [|done].
    unfold findPortByName. destruct (List.find _ _) as [p|] eqn:Hf; [|done]. simpl. split; [done|]. right.
    apply List.find_some in Hf as [Hin Hp%bool_decide_eq_true].
    exists m, service, p. split_and!; try done; [by apply list_elem_of_In|by left].
Qed.

(** ** Witnesses *)

Lemma group_hosts_partition_witness :
  let order := [("b.io", ["r1"]); ("", ["r1"]); ("a.io", ["r1"])] in
  groupHostsByRules (λ rules, Join rules "|") order (Some "default") =
    [{| grp_hosts := [""]; grp_rules := ["r1"; "default"] |};
     {| grp_hosts := ["a.io"; "b.io"]; grp_rules := ["r1"; "default"] |}] ∧
  mjoin (grp_hosts <$> groupHostsByRules (λ rules, Join rules "|") order (Some "default")) ≡ₚ order.*1.
Proof.
  split; [vm_compute; reflexivity|].
  apply (group_hosts_partition (λ rules, Join rules "|")
    [("b.io", ["r1"]); ("", ["r1"]); ("a.io", ["r1"])] (Some "default")).
  - apply (bool_decide_unpack _). by vm_compute.
  - intros x y Hx Hy _. repeat (apply elem_of_cons in Hx as [->|Hx]; [|]); try by apply elem_of_nil in Hx.
    all: repeat (apply elem_of_cons in Hy as [->|Hy]; [done|]); by apply elem_of_nil in Hy.
Defined.

Lemma group_hosts_deterministic_witness :
  groupHostsByRules (λ rules, Join rules "|") [("b.io", ["r1"]); ("a.io", ["r2"])] None =
  groupHostsByRules (λ rules, Join rules "|") [("a.io", ["r2"]); ("b.io", ["r1"])] None.
Proof.
  apply (group_hosts_deterministic (λ rules, Join rules "|") [("b.io", ["r1"]); ("a.io", ["r2"])]
           [("a.io", ["r2"]); ("b.io", ["r1"])] None).
  - apply Permutation_swap.
  - intros x y Hx Hy. repeat (apply elem_of_cons in Hx as [->|Hx]; [|]); try by apply elem_of_nil in Hx.
    all: repeat (apply elem_of_cons in Hy as [->|Hy]; [done|]); by apply elem_of_nil in Hy.
Defined.

Definition sampleBackend (name : string) (port : Z) : IngressBackend :=
  {| ib_Service := Some {| isb_Name := name; isb_PortNumber := port; isb_PortName := "" |}; ib_Resource := None |}.

Definition samplePath (path : string) (pathType : PathType) : HTTPIngressPath :=
  {| ip_Path := path; ip_PathType := Some pathType; ip_Backend := sampleBackend "svc" 80 |}.

Definition sampleRule : IngressRule :=
  {| ir_Host := "app.example.com"; ir_HTTP := Some [samplePath "/a" PathTypePrefix; samplePath "/b" PathTypeExact] |}.

Definition sampleIngressInput (annotations : StrMap) : Input :=
  {| in_Ingress :=
       {| ing_Meta := objectMeta "web" "apps" "" None (Some annotations);
          ing_ClassName := None; ing_DefaultBackend := Some (sampleBackend "fallback" 8080);
          ing_Rules := [sampleRule]; ing_TLS := []; ing_Ingress := [] |};
     in_GatewayName := "kubelb"; in_GatewayNamespace := "kubelb"; in_Services := None;
     in_DomainReplace := "example.com"; in_DomainSuffix := "new.io"; in_SkipPolicyWarnings := true |}.

(** A marshaller that is enough to run the conversion. *)
Definition sampleMarshal {Rule} (rules : list Rule) : option (list N) := Some [N.of_nat (length rules)].

Lemma conversion_complete_witness :
  ∃ route, route ∈ res_HTTPRoutes (ConvertIngressWithServices noURL sampleMarshal sampleMarshal (sampleIngressInput ∅)) ∧
    serves route "app.new.io" ∧ length (gr_Rules route) = 3.
Proof.
  destruct (conversion_complete noURL sampleMarshal sampleMarshal (sampleIngressInput ∅) "app.new.io" sampleRule)
    as [(route & Hin & Hs) Hrules].
  - reflexivity.
  - intros x y Hx Hy _. vm_compute in Hx, Hy.
    apply list_elem_of_singleton in Hx as ->. apply list_elem_of_singleton in Hy as ->. reflexivity.
  - left.
  - split; [vm_compute; reflexivity|]. vm_compute. discriminate.
  - exists route. split; [exact Hin|]. split; [exact Hs|]. rewrite (Hrules route Hin Hs). vm_compute. reflexivity.
Defined.

(** ** What the model shows *)

(** An Exact path with rewrite-target: the rule replaces a prefix but matches exactly,
    which the Gateway API rejects. *)
Example exact_path_with_prefix_rewrite :
  let r := ConvertIngressWithServices noURL sampleMarshal sampleMarshal
             (sampleIngressInput {[ RewriteTarget := "/" ]}) in
  ∃ route rule, route ∈ res_HTTPRoutes r ∧ rule ∈ gr_Rules route ∧
    hrr_Matches rule = [{| rm_Path := Some {| pm_Type := Some PathMatchExact; pm_Value := Some "/b" |} |}] ∧
    hrr_Filters rule = [rewrite_filter "/"] ∧ res_Warnings r = [].
Proof.
  cbv zeta. eexists _, _. split; [vm_compute; left|]. split; [simpl; right; left|]. by vm_compute.
Qed.
