(* ===== verification/ConvGateway.v ===== *)
(** * The Gateway of converted routes, and what is converted at all

    The rest of [pkg/conversion]: the Gateway and its listeners ([gateway.go]), which
    Ingresses are converted and with which Services ([filter.go]), the options
    ([options.go]) and the copies of TLS secrets ([secrets.go]).

    The Kubernetes client is a store of objects together with the calls that fail: a
    parameter says, for each call, whether it fails and with which message. *)

From Stdlib Require Import Ascii.
From S2P Require Import Prelude GoStrings Api GatewayApi Kube ConvAnnotations Converter.

Local Open Scope go_scope.

Definition ControllerName : string := "ingress-conversion-controller".
Definition ListenerNameHTTP : string := "http".
Definition LabelManagedBy : string := "kubelb.k8c.io/managed-by".
Definition AnnotationSkipConversion : string := "kubelb.k8c.io/skip-conversion".
Definition AnnotationIngressClass : string := "kubernetes.io/ingress.class".
Definition NginxCanary : string := "nginx.ingress.kubernetes.io/canary".
Definition AnnotationSourceNamespace : string := "kubelb.k8c.io/source-namespace".

(** ** [gateway.go] *)

Record GatewayConfig := {
  gc_Name : string;
  gc_Namespace : string;
  gc_ClassName : string;
  gc_TLSListeners : list TLSListener;
  gc_Annotations : GoMap;
  gc_ManagedBy : string;
}.

Definition ListenerNameFromHostname (hostname : string) : string :=
  if bool_decide (hostname = "*") then "https-wildcard"
  else "https-" ⊕ ReplaceAll (ReplaceAll hostname "." "-") "*" "wildcard".

Definition httpListener : Listener :=
  {| ls_Name := ListenerNameHTTP; ls_Hostname := None; ls_Port := 80; ls_Protocol := HTTPProtocolType;
     ls_AllowedRoutes := Some (Some (Some NamespacesFromAll)); ls_TLS := None |}.

Definition httpsListener (tls : TLSListener) : Listener :=
  {| ls_Name := ListenerNameFromHostname (tl_Hostname tls); ls_Hostname := Some (tl_Hostname tls);
     ls_Port := 443; ls_Protocol := HTTPSProtocolType; ls_AllowedRoutes := Some (Some (Some NamespacesFromAll));
     ls_TLS := Some {| ltc_Mode := Some TLSModeTerminate;
                       ltc_CertificateRefs := [{| sor_Name := tl_SecretName tls; sor_Namespace := None |}] |} |}.

(** The loop with the set of hostnames seen *)
Fixpoint httpsListeners (seen : gset string) (tlsListeners : list TLSListener) : list Listener :=
  match tlsListeners with
  | [] => []
  | tls :: rest =>
      if bool_decide (tl_Hostname tls ∈ seen) then httpsListeners seen rest
      else httpsListener tls :: httpsListeners ({[ tl_Hostname tls ]} ∪ seen) rest
  end.

Definition BuildListeners (tlsListeners : list TLSListener) : list Listener :=
  httpListener :: httpsListeners ∅ tlsListeners.

Definition BuildGateway (config : GatewayConfig) : Gateway :=
  {| gw_Meta := objectMeta (gc_Name config) (gc_Namespace config) ""
       (Some {[ LabelManagedBy := if bool_decide (gc_ManagedBy config = "") then ControllerName else gc_ManagedBy config ]})
       (gc_Annotations config);
     gw_GatewayClassName := gc_ClassName config;
     gw_Listeners := BuildListeners (gc_TLSListeners config);
     gw_Conditions := [] |}.

(** [MergeListeners]: the first loop updates the existing listeners and removes from the
    map what it used; the second adds what is left. *)
Fixpoint updateExisting (desiredByName : gmap string Listener) (existing : list Listener)
  : list Listener * gmap string Listener :=
  match existing with
  | [] => ([], desiredByName)
  | e :: existing =>
      match desiredByName !! ls_Name e with
      | Some d =>
          let '(result, remaining) := updateExisting (delete (ls_Name e) desiredByName) existing in (d :: result, remaining)
      | None =>
          let '(result, remaining) := updateExisting desiredByName existing in (e :: result, remaining)
      end
  end.

Definition MergeListeners (existing desired : list Listener) : list Listener :=
  let desiredByName := foldl (λ m l, <[ls_Name l := l]> m) (∅ : gmap string Listener) desired in
  let '(result, remaining) := updateExisting desiredByName existing in
  result ++ filter (λ l, is_Some (remaining !! ls_Name l)) desired.

(** ** [filter.go] *)

Definition ShouldSkip (ing : Ingress) : bool :=
  bool_decide (get (om_Labels (ing_Meta ing)) AnnotationSkipConversion = BoolTrue) ||
  bool_decide (get (om_Annotations (ing_Meta ing)) AnnotationSkipConversion = BoolTrue) ||
  bool_decide (get (om_Annotations (ing_Meta ing)) NginxCanary = BoolTrue).

Definition MatchesIngressClass (ing : Ingress) (class : string) : bool :=
  match ing_ClassName ing with
  | Some c => bool_decide (c = class)
  | None =>
      match entries (om_Annotations (ing_Meta ing)) !! AnnotationIngressClass with
      | Some v => bool_decide (v = class)
      | None => false
      end
  end.

Definition backendServiceName (backend : IngressBackend) : list string :=
  isb_Name <$> option_list (ib_Service backend).

Definition serviceNames (ing : Ingress) : gset string :=
  list_to_set ((option_list (ing_DefaultBackend ing) ≫= backendServiceName) ++
               (ing_Rules ing ≫= λ rule, default [] (ir_HTTP rule) ≫= λ path, backendServiceName (ip_Backend path))).

(** [getService] is the client's [Get]; a Service that cannot be read is left out. *)
Definition FetchServicesForIngress (getService : string * string -> option Service) (ing : Ingress)
  : gmap (string * string) Service :=
  foldr (λ name services,
           let key := (om_Namespace (ing_Meta ing), name) in
           match getService key with
           | Some svc => <[key := svc]> services
           | None => services
           end) ∅ (elements (serviceNames ing)).

(** ** [options.go] *)

Record Options := {
  opt_StandaloneMode : bool;
  opt_Enabled : bool;
  opt_GatewayName : string;
  opt_GatewayNamespace : string;
  opt_GatewayClassName : string;
  opt_IngressClass : string;
  opt_DomainReplace : string;
  opt_DomainSuffix : string;
  opt_PropagateExternalDNS : bool;
  opt_GatewayAnnotations : GoMap;
  opt_DisableEnvoyGatewayFeatures : bool;
  opt_CopyTLSSecrets : bool;
}.

(** [gatewayAnnotationsFlag.String]; [order] is the order in which the map is ranged over. *)
Definition annotationsFlagString (order : list (string * string)) : string :=
  Join ((λ kv, kv.1 ⊕ "=" ⊕ kv.2) <$> order) ",".

(** [gatewayAnnotationsFlag.Set] *)
Definition annotationsFlagSet (target : GoMap) (value : string) : StrMap :=
  if bool_decide (value = "") then entries target
  else foldl (λ m p,
                match Cut p "=" with
                | Some (k, v) => <[TrimSpace k := TrimSpace v]> m
                | None => m
                end) (entries target) (Split value ",").

Definition ValidateOptions (o : Options) : result unit :=
  if (opt_Enabled o || opt_StandaloneMode o) && bool_decide (opt_GatewayNamespace o = "")
  then Err "--conversion-gateway-namespace is required" else Ok tt.

(** ** [secrets.go] *)

Definition copiedSecret (sourceSecret : Secret) (sourceNS secretName targetNS managedBy : string) : Secret :=
  {| sec_Meta := objectMeta secretName targetNS "" (Some {[ LabelManagedBy := managedBy ]})
                   (Some {[ AnnotationSourceNamespace := sourceNS ]});
     sec_Immutable := None; sec_Type := sec_Type sourceSecret; sec_Data := sec_Data sourceSecret;
     sec_StringData := None |}.

Definition CopyTLSSecretWithManagedBy (sourceNS secretName targetNS managedBy : string) : M Cluster unit :=
  sourceSecret ← wrap "failed to get source secret" (Get Secret (sourceNS, secretName));
  r ← try (Get Secret (targetNS, secretName));
  match r with
  | inl targetSecret =>
      _ ← wrap "failed to update target secret"
            (Update {| targetSecret with sec_Data := sec_Data sourceSecret; sec_Type := sec_Type sourceSecret |});
      mret tt
  | inr err =>
      if IsNotFound err then
        _ ← wrap "failed to create target secret" (Create (copiedSecret sourceSecret sourceNS secretName targetNS managedBy));
        mret tt
      else raise (Wrap "failed to check target secret" err)
  end.

Definition CopyTLSSecret (sourceNS secretName targetNS : string) : M Cluster unit :=
  CopyTLSSecretWithManagedBy sourceNS secretName targetNS ControllerName.

(** ** Lemmas: building listeners *)

Lemma elem_of_httpsListeners seen tls l :
  l ∈ httpsListeners seen tls →
  ∃ t, t ∈ tls ∧ l = httpsListener t ∧ tl_Hostname t ∉ seen ∧
       List.find (λ t', bool_decide (tl_Hostname t' = tl_Hostname t)) tls = Some t.
Proof.
  revert seen. induction tls as [|t tls IH]; intros seen; simpl; [by intros ?%elem_of_nil|].
  case_bool_decide as Hs.
  - intros (t' & Hin & -> & Hn & Hf)%IH. exists t'. split_and!; [by right|done|done|].
    rewrite bool_decide_eq_false_2; [done|]. intros He. by rewrite He in Hs.
  - intros [->|(t' & Hin & -> & Hn & Hf)%IH]%elem_of_cons.
    + exists t. split_and!; [left|done|done|]. by rewrite bool_decide_eq_true_2.
    + exists t'. split_and!; [by right|done|set_solver|].
      rewrite bool_decide_eq_false_2; [done|]. intros He. set_solver.
Qed.

Lemma httpsListeners_hostnames seen tls : NoDup (ls_Hostname <$> httpsListeners seen tls).
Proof.
  revert seen. induction tls as [|t tls IH]; intros seen; simpl; [constructor|].
  case_bool_decide; [apply IH|]. simpl. constructor; [|apply IH].
  rewrite list_elem_of_fmap. intros (l & Hl & (t' & _ & -> & Hn & _)%elem_of_httpsListeners).
  simpl in Hl. injection Hl as Hl. set_solver.
Qed.

Lemma httpsListeners_complete seen tls t :
  t ∈ tls → tl_Hostname t ∉ seen → ∃ l, l ∈ httpsListeners seen tls ∧ ls_Hostname l = Some (tl_Hostname t).
Proof.
  revert seen. induction tls as [|t0 tls IH]; intros seen; [by intros ?%elem_of_nil|]. simpl.
  intros [->|Hin]%elem_of_cons Hn.
  - rewrite bool_decide_eq_false_2 by done. exists (httpsListener t0). split; [left|done].
  - case_bool_decide as Hs; [by apply IH|]. destruct (decide (tl_Hostname t = tl_Hostname t0)) as [He|He].
    + exists (httpsListener t0). split; [left|]. by rewrite He.
    + destruct (IH ({[ tl_Hostname t0 ]} ∪ seen) Hin ltac:(set_solver)) as (l & Hl & ?).
      exists l. split; [by right|done].
Qed.

(** *** Listener names *)

Definition plain_hostname (h : string) : bool := str_forall (λ a, negb (Ascii.eqb a "-") && negb (Ascii.eqb a "*")) h.

Lemma ReplaceAll_none c new s : str_forall (λ a, negb (Ascii.eqb a c)) s = true → ReplaceAll s c new = s.
Proof.
  induction s as [|a s IH]; [done|]. simpl. intros [Ha Hs]%andb_true_iff.
  apply negb_true_iff in Ha. by rewrite Ha, IH.
Qed.

Lemma dots_to_dashes_no_star s :
  plain_hostname s = true → str_forall (λ a, negb (Ascii.eqb a "*")) (ReplaceAll s "." "-") = true.
Proof.
  unfold plain_hostname. induction s as [|a s IH]; [done|]. simpl.
  intros [[_ Ha]%andb_true_iff Hs]%andb_true_iff. destruct (Ascii.eqb a "."); simpl.
  - by apply IH.
  - by rewrite Ha, IH.
Qed.

Lemma dots_to_dashes_inj s t :
  plain_hostname s = true → plain_hostname t = true → ReplaceAll s "." "-" = ReplaceAll t "." "-" → s = t.
Proof.
  unfold plain_hostname. revert t. induction s as [|a s IH]; intros [|b t]; simpl; try done.
  - intros _ _. by destruct (Ascii.eqb b ".").
  - intros _ _. by destruct (Ascii.eqb a ".").
  - intros [[Ha _]%andb_true_iff Hs]%andb_true_iff [[Hb _]%andb_true_iff Ht]%andb_true_iff.
    destruct (Ascii.eqb_spec a ".") as [->|], (Ascii.eqb_spec b ".") as [->|];
      rewrite ?str_app_cons, ?str_app_nil_l; intros H; simplify_eq; try done; f_equal; auto.
Qed.

Lemma plain_not_star h : plain_hostname h = true → h ≠ "*".
Proof. by intros H ->. Qed.

Lemma listener_name_inj h1 h2 :
  plain_hostname h1 = true → plain_hostname h2 = true →
  ListenerNameFromHostname h1 = ListenerNameFromHostname h2 → h1 = h2.
Proof.
  intros H1 H2. unfold ListenerNameFromHostname.
  rewrite !bool_decide_eq_false_2 by (by apply plain_not_star).
  rewrite !(ReplaceAll_none "*") by (by apply dots_to_dashes_no_star).
  intros [_ He]%str_app_inj_l; [|done]. by apply dots_to_dashes_inj.
Qed.

(** ** Lemmas: merging listeners *)

Definition find_name (k : string) (l : list Listener) : option Listener :=
  List.find (λ d, bool_decide (ls_Name d = k)) l.

Lemma find_name_None k l : k ∉ ls_Name <$> l → find_name k l = None.
Proof.
  intros Hk. destruct (find_name k l) as [d|] eqn:Hf; [|done].
  apply List.find_some in Hf as [Hin He%bool_decide_eq_true]. destruct Hk. subst k.
  apply list_elem_of_fmap_2. by apply list_elem_of_In.
Qed.

Lemma find_name_None_inv k l : find_name k l = None → k ∉ ls_Name <$> l.
Proof.
  intros Hf (d & -> & Hin)%list_elem_of_fmap. apply list_elem_of_In in Hin.
  apply (List.find_none _ _ Hf), bool_decide_eq_false in Hin. done.
Qed.

Lemma find_name_snoc k l x :
  find_name k (l ++ [x]) = match find_name k l with Some d => Some d | None => if bool_decide (ls_Name x = k) then Some x else None end.
Proof.
  unfold find_name. induction l as [|y l IH]; [done|]. simpl.
  destruct (bool_decide (ls_Name y = k)); [done|apply IH].
Qed.

(** Reference definition: every existing listener, replaced by the desired one of its
    name if there is one, then the desired listeners with new names. *)
Definition merged (existing desired : list Listener) : list Listener :=
  ((λ e, default e (find_name (ls_Name e) desired)) <$> existing) ++
  filter (λ d, ls_Name d ∉ ls_Name <$> existing) desired.

Lemma updateExisting_spec existing : ∀ m,
  NoDup (ls_Name <$> existing) →
  (updateExisting m existing).1 = (λ e, default e (m !! ls_Name e)) <$> existing ∧
  (∀ k, (updateExisting m existing).2 !! k = if decide (k ∈ ls_Name <$> existing) then None else m !! k).
Proof.
  induction existing as [|e existing IH]; intros m; [done|]. simpl. intros [Hn Hnd]%NoDup_cons.
  destruct (m !! ls_Name e) as [d|] eqn:Hm.
  - destruct (IH (delete (ls_Name e) m) Hnd) as [H1 H2].
    destruct (updateExisting _ existing) as [res rem]. simpl in *. subst res. split.
    + f_equal. apply list_fmap_ext. intros i x Hx. rewrite lookup_delete_ne; [done|].
      intros He. apply Hn. rewrite He. by eapply list_elem_of_fmap_2, list_elem_of_lookup_2.
    + intros k. rewrite H2. destruct (decide (k = ls_Name e)) as [->|Hk].
      * rewrite decide_False by done. rewrite lookup_delete_eq. by rewrite decide_True by left.
      * rewrite lookup_delete_ne by done. apply decide_ext. rewrite elem_of_cons. naive_solver.
  - destruct (IH m Hnd) as [H1 H2]. destruct (updateExisting m existing) as [res rem]. simpl in *. subst res.
    split; [done|]. intros k. rewrite H2. destruct (decide (k = ls_Name e)) as [->|Hk].
    + rewrite decide_False by done. rewrite decide_True by left. done.
    + apply decide_ext. rewrite elem_of_cons. naive_solver.
Qed.

Lemma desiredByName_lookup desired k : NoDup (ls_Name <$> desired) →
  foldl (λ m l, <[ls_Name l := l]> m) (∅ : gmap string Listener) desired !! k =
  find_name k desired.
Proof.
  induction desired as [|x desired IH] using rev_ind; [done|].
  rewrite fmap_app, foldl_app. simpl. intros (Hnd & Hx & _)%NoDup_app. rewrite find_name_snoc, <-IH by done.
  destruct (decide (ls_Name x = k)) as [<-|Hk].
  - rewrite lookup_insert_eq, bool_decide_eq_true_2, IH by done.
    rewrite find_name_None; [done|]. intros Hin. apply (Hx _ Hin). left.
  - rewrite lookup_insert_ne, bool_decide_eq_false_2 by done. by destruct (foldl _ _ _ !! k).
Qed.

Lemma MergeListeners_merged existing desired :
  NoDup (ls_Name <$> existing) → NoDup (ls_Name <$> desired) →
  MergeListeners existing desired = merged existing desired.
Proof.
  intros He Hd. unfold MergeListeners, merged.
  set (m := foldl _ _ desired). destruct (updateExisting_spec existing m He) as [H1 H2].
  destruct (updateExisting m existing) as [res rem]. simpl in *. subst res. f_equal.
  - apply list_fmap_ext. intros i e _. unfold m. by rewrite desiredByName_lookup.
  - apply filter_ext_in. intros d Hin. rewrite H2. unfold m. rewrite desiredByName_lookup by done.
    destruct (find_name (ls_Name d) desired) eqn:Hf.
    + case_decide; split; try done; by intros [? ?].
    + apply find_name_None_inv in Hf. destruct Hf. by apply list_elem_of_fmap_2.
Qed.

Lemma find_name_names desired e : ls_Name (default e (find_name (ls_Name e) desired)) = ls_Name e.
Proof.
  destruct (find_name (ls_Name e) desired) as [d|] eqn:Hf; [|done].
  by apply List.find_some in Hf as [_ ?%bool_decide_eq_true].
Qed.

Lemma find_name_elem desired d : NoDup (ls_Name <$> desired) → d ∈ desired → find_name (ls_Name d) desired = Some d.
Proof.
  induction desired as [|x desired IH]; [by intros _ ?%elem_of_nil|]. simpl. intros [Hn Hnd]%NoDup_cons [->|Hin]%elem_of_cons.
  - by rewrite bool_decide_eq_true_2.
  - rewrite bool_decide_eq_false_2; [by apply IH|]. intros He. apply Hn. rewrite He. by apply list_elem_of_fmap_2.
Qed.

Lemma merged_names existing desired :
  ls_Name <$> merged existing desired =
  (ls_Name <$> existing) ++ (ls_Name <$> filter (λ d, ls_Name d ∉ ls_Name <$> existing) desired).
Proof.
  unfold merged. rewrite fmap_app, <-list_fmap_compose. f_equal. apply list_fmap_ext.
  intros i e _. apply find_name_names.
Qed.

Lemma merged_names_NoDup existing desired :
  NoDup (ls_Name <$> existing) → NoDup (ls_Name <$> desired) → NoDup (ls_Name <$> merged existing desired).
Proof.
  intros He Hd. rewrite merged_names. apply NoDup_app. split_and!; [done| |].
  - intros n Hn (d & -> & [Hnd _]%list_elem_of_filter)%list_elem_of_fmap. done.
  - eapply sublist_NoDup; [exact Hd|]. apply fmap_sublist, sublist_filter.
Qed.

(** Every desired listener is in the merge, and every other existing one. *)
Lemma elem_of_merged_desired existing desired d : NoDup (ls_Name <$> desired) → d ∈ desired → d ∈ merged existing desired.
Proof.
  intros Hnd Hin. unfold merged. apply elem_of_app.
  destruct (decide (ls_Name d ∈ ls_Name <$> existing)) as [Hn|Hn].
  - left. apply list_elem_of_fmap in Hn as (e & He & Hine). apply list_elem_of_fmap. exists e. split; [|done].
    by rewrite <-He, find_name_elem.
  - right. by apply list_elem_of_filter.
Qed.

Lemma elem_of_merged_existing existing desired e :
  e ∈ existing → ls_Name e ∉ ls_Name <$> desired → e ∈ merged existing desired.
Proof.
  intros Hin Hn. unfold merged. apply elem_of_app. left. apply list_elem_of_fmap. exists e. split; [|done].
  by rewrite find_name_None.
Qed.

Lemma merged_idem existing desired : NoDup (ls_Name <$> desired) → merged (merged existing desired) desired = merged existing desired.
Proof.
  intros Hnd. unfold merged at 1. rewrite (filter_none (λ d, ls_Name d ∉ _) desired), app_nil_r.
  - rewrite <-(list_fmap_id (merged existing desired)) at 2. apply list_fmap_ext. intros i l Hl%list_elem_of_lookup_2.
    unfold merged in Hl. apply elem_of_app in Hl as [Hl|Hl].
    + apply list_elem_of_fmap in Hl as (e & -> & _). rewrite find_name_names. by destruct (find_name (ls_Name e) desired).
    + apply list_elem_of_filter in Hl as [_ Hl]. by rewrite find_name_elem.
  - apply Forall_forall. intros d Hd Hn. apply Hn. apply list_elem_of_fmap_2. by apply elem_of_merged_desired.
Qed.

(** ** Lemmas: fetching Services *)

Lemma FetchServices_fold (getService : string * string -> option Service) (ns : string) (names : list string) key svc :
  foldr (λ name (services : gmap (string * string) Service),
           let key := (ns, name) in
           match getService key with
           | Some svc => <[key := svc]> services
           | None => services
           end) ∅ names !! key = Some svc ↔
  key.1 = ns ∧ key.2 ∈ names ∧ getService key = Some svc.
Proof.
  destruct key as [kn kx]. induction names as [|n names IH]; simpl.
  - rewrite lookup_empty. split; [done|]. by intros (_ & ?%elem_of_nil & _).
  - rewrite elem_of_cons. destruct (getService (ns, n)) as [s|] eqn:Hg.
    + rewrite lookup_insert_Some, IH. simpl. split.
      * intros [[[= <- <-] <-]|(? & -> & ? & ?)]; auto.
      * intros (-> & [->|Hin] & Hs); [left; split; congruence|].
        destruct (decide (n = kx)) as [->|]; [left; split; congruence|right]. split_and!; congruence || done.
    + rewrite IH. simpl. split; [intros (-> & ? & ?); auto|]. intros (-> & [->|?] & ?); [congruence|done].
Qed.

Lemma elem_of_option_to_list {A} (o : option A) x : x ∈ option_list o ↔ o = Some x.
Proof. destruct o; simpl; [rewrite list_elem_of_singleton; naive_solver|split; [by intros ?%elem_of_nil|done]]. Qed.

(** ** Properties *)

(** the listeners of a Gateway: plain HTTP first, then one HTTPS listener per
    hostname, with the certificate of the first TLS entry for that hostname; hostnames
    are distinct, no TLS entry is lost, and the names are distinct too when no hostname
    has a dash or an asterisk. *)
Theorem build_listeners_spec (tls : list TLSListener) :
  (∃ https, BuildListeners tls = httpListener :: https ∧
     Forall (λ l, ∃ t, List.find (λ t', bool_decide (tl_Hostname t' = tl_Hostname t)) tls = Some t ∧ l = httpsListener t) https) ∧
  NoDup (ls_Hostname <$> BuildListeners tls) ∧
  (∀ t, t ∈ tls → ∃ l, l ∈ BuildListeners tls ∧ ls_Hostname l = Some (tl_Hostname t)) ∧
  (Forall (λ t, plain_hostname (tl_Hostname t) = true) tls → NoDup (ls_Name <$> BuildListeners tls)).
Proof.
  unfold BuildListeners. split_and!.
  - eexists. split; [done|]. apply Forall_forall. intros l (t & _ & -> & _ & Hf)%elem_of_httpsListeners. by exists t.
  - simpl. constructor; [|apply httpsListeners_hostnames].
    by intros (l & Hl & (t & _ & -> & _)%elem_of_httpsListeners)%list_elem_of_fmap.
  - intros t Ht. destruct (httpsListeners_complete ∅ tls t Ht ltac:(set_solver)) as (l & Hl & He).
    exists l. split; [by right|done].
  - intros Hp. simpl. constructor.
    + intros (l & Hl & (t & Ht & -> & _)%elem_of_httpsListeners)%list_elem_of_fmap. revert Hl. simpl.
      unfold ListenerNameFromHostname. by case_bool_decide.
    + apply (NoDup_fmap_fmap ls_Hostname); [|apply httpsListeners_hostnames].
      intros l1 l2 (t1 & H1 & -> & _)%elem_of_httpsListeners (t2 & H2 & -> & _)%elem_of_httpsListeners. simpl.
      rewrite Forall_forall in Hp. intros He. f_equal. apply listener_name_inj; auto.
Qed.

(** merging listeners into a Gateway keeps listener names distinct, contains every
    desired listener and every existing one with another name, adds new listeners after
    the existing ones, and doing it again changes nothing. *)
Theorem merge_listeners_spec (existing desired : list Listener) :
  NoDup (ls_Name <$> existing) → NoDup (ls_Name <$> desired) →
  let result := MergeListeners existing desired in
  result = merged existing desired ∧
  NoDup (ls_Name <$> result) ∧
  (∀ d, d ∈ desired → d ∈ result) ∧
  (∀ e, e ∈ existing → ls_Name e ∉ ls_Name <$> desired → e ∈ result) ∧
  MergeListeners result desired = result.
Proof.
  intros He Hd. cbv zeta. rewrite MergeListeners_merged by done.
  pose proof (merged_names_NoDup _ _ He Hd) as Hn. split_and!; [done|done| | |].
  - intros d. by apply elem_of_merged_desired.
  - apply elem_of_merged_existing.
  - rewrite MergeListeners_merged by done. by apply merged_idem.
Qed.

Lemma merge_listeners_spec_witness :
  let l1 := httpsListener {| tl_Hostname := "a.io"; tl_SecretName := "old"; tl_SourceSecretNamespace := "x"; tl_SourceSecretName := "old" |} in
  let l2 := httpsListener {| tl_Hostname := "a.io"; tl_SecretName := "new"; tl_SourceSecretNamespace := "x"; tl_SourceSecretName := "new" |} in
  MergeListeners [httpListener; l1] [l2] = [httpListener; l2] ∧ l2 ∈ MergeListeners [httpListener; l1] [l2].
Proof.
  cbv zeta. split; [vm_compute; reflexivity|].
  edestruct (merge_listeners_spec
    [httpListener; httpsListener {| tl_Hostname := "a.io"; tl_SecretName := "old"; tl_SourceSecretNamespace := "x"; tl_SourceSecretName := "old" |}]
    [httpsListener {| tl_Hostname := "a.io"; tl_SecretName := "new"; tl_SourceSecretNamespace := "x"; tl_SourceSecretName := "new" |}])
    as (_ & _ & Hin & _).
  - apply (bool_decide_unpack _). by vm_compute.
  - apply (bool_decide_unpack _). by vm_compute.
  - apply Hin. left.
Defined.

Lemma CopyTLSSecret_within sourceNS secretName targetNS managedBy :
  within (changes (λ k, k = storeKey Secret (targetNS, secretName)))
    (CopyTLSSecretWithManagedBy sourceNS secretName targetNS managedBy).
Proof.
  unfold CopyTLSSecretWithManagedBy. within_solve.
Qed.

(** a copy of a TLS secret that succeeds makes type and data of the target those of
    the source and touches nothing else; a target that existed keeps its labels and
    annotations, a new one names the source. Whatever its outcome, a copy changes no
    other object. *)
Theorem copy_tls_secret_spec (c : Cluster) (sourceNS secretName targetNS managedBy : string) :
  let '(r, c') := CopyTLSSecretWithManagedBy sourceNS secretName targetNS managedBy c in
  let target := (targetNS, secretName) in
  changes (λ k, k = storeKey Secret target) c c' ∧
  (r = Ret tt → well_formed c →
   ∃ src new, findObject Secret c (sourceNS, secretName) = Some src ∧
     cl_objects c' = <[storeKey Secret target := inject new]> (cl_objects c) ∧
     sec_Type new = sec_Type src ∧ sec_Data new = sec_Data src ∧
     match findObject Secret c target with
     | Some old => om_Labels (sec_Meta new) = om_Labels (sec_Meta old) ∧
                   om_Annotations (sec_Meta new) = om_Annotations (sec_Meta old)
     | None => om_Labels (sec_Meta new) = Some {[ LabelManagedBy := managedBy ]} ∧
               om_Annotations (sec_Meta new) = Some {[ AnnotationSourceNamespace := sourceNS ]}
     end).
Proof.
  destruct (CopyTLSSecretWithManagedBy _ _ _ _ c) as [r c'] eqn:Hrun. cbv zeta. split.
  - pose proof (CopyTLSSecret_within sourceNS secretName targetNS managedBy c) as Hw. by rewrite Hrun in Hw.
  - intros -> Hwf. unfold CopyTLSSecretWithManagedBy in Hrun. minv. apply Get_Ret in Hm as [Hsrc Ho1].
    destruct a0 as [old|err]; minv.
    + apply Get_Ret in Hm0 as [Hold Ho2]. rewrite (findObject_objects c) in Hold by done.
      apply Update_Ret in Hm as (old' & Hold' & -> & Hobj).
      match type of Hold' with findObject _ _ (objKey ?o) = _ => change (objKey o) with (objKey old) in Hold', Hobj end.
      rewrite (findObject_key _ _ _ Hold), (findObject_objects c) in Hold' by congruence.
      rewrite Hold in Hold'. injection Hold' as <-.
      rewrite (findObject_key _ _ _ Hold) in Hobj. destruct (findObject_meta _ _ _ Hwf Hold) as [Hd Hwire].
      assert (om_Deleting (objMeta old) && bool_decide (om_Finalizers (objMeta old) = []) = false) as Hnd.
      { destruct (om_Deleting (objMeta old)); [|done]. apply bool_decide_eq_false. by apply Hd. }
      simpl in Hobj, Hnd. rewrite Hnd in Hobj. rewrite Hold.
      eexists _, _. split_and!; [done|by rewrite Hobj, Ho2, Ho1|..]; try done; by destruct (onWire_maps _ Hwire).
    + destruct (IsNotFound err); minv. apply existing_spec in Hm0 as (_ & Ho2 & _).
      apply Create_Ret in Hm as (Hnone & -> & Hobj). rewrite (findObject_objects c) in Hnone by congruence.
      change (findObject Secret c (targetNS, secretName) = None) in Hnone. rewrite Hnone.
      eexists _, _. split_and!; [done|by rewrite Hobj, Ho2, Ho1|..]; done.
Qed.

(** the Services fetched for an Ingress are exactly those of its namespace that its
    backends name and the cluster returns. *)
Theorem fetched_services_exact (getService : string * string -> option Service) (ing : Ingress)
  (key : string * string) (svc : Service) :
  FetchServicesForIngress getService ing !! key = Some svc ↔
  key.1 = om_Namespace (ing_Meta ing) ∧ getService key = Some svc ∧
  ((∃ b, ing_DefaultBackend ing = Some b ∧ key.2 ∈ backendServiceName b) ∨
   (∃ rule paths path, rule ∈ ing_Rules ing ∧ ir_HTTP rule = Some paths ∧ path ∈ paths ∧
      key.2 ∈ backendServiceName (ip_Backend path))).
Proof.
  unfold FetchServicesForIngress. rewrite FetchServices_fold, elem_of_elements. unfold serviceNames.
  rewrite elem_of_list_to_set, elem_of_app, !list_elem_of_bind. setoid_rewrite list_elem_of_bind.
  setoid_rewrite elem_of_option_to_list. split.
  - intros (Hns & [(b & Hb & Hd)|(rule & (path & Hp & Hps) & Hr)] & Hs); split_and!; try done.
    + left. eauto.
    + right. destruct (ir_HTTP rule) as [paths|] eqn:Hh; [|by apply elem_of_nil in Hps]. eauto 10.
  - intros (Hns & Hs & [(b & Hd & Hb)|(rule & paths & path & Hr & Hh & Hp & Hn)]); split_and!; try done; [left; eauto|].
    right. exists rule. split; [|done]. exists path. by rewrite Hh.
Qed.

(** ** What the model shows *)

Definition sampleTLS (h s : string) : TLSListener :=
  {| tl_Hostname := h; tl_SecretName := s; tl_SourceSecretNamespace := "apps"; tl_SourceSecretName := s |}.

Lemma build_listeners_spec_witness :
  NoDup (ls_Name <$> BuildListeners [sampleTLS "a.io" "s1"; sampleTLS "b.io" "s2"; sampleTLS "a.io" "s3"]).
Proof.
  apply (build_listeners_spec [sampleTLS "a.io" "s1"; sampleTLS "b.io" "s2"; sampleTLS "a.io" "s3"]).
  repeat constructor.
Defined.

(** Two hostnames can get one listener name: the Gateway then has two listeners of that
    name, which the API rejects, and merging keeps only one of them. *)
Example listener_names_collide :
  ls_Name <$> BuildListeners [sampleTLS "a-b.io" "s1"; sampleTLS "a.b.io" "s2"] =
    ["http"; "https-a-b-io"; "https-a-b-io"] ∧
  ls_Hostname <$> MergeListeners (BuildListeners [sampleTLS "a-b.io" "s1"]) (BuildListeners [sampleTLS "a.b.io" "s2"]) =
    [None; Some "a.b.io"].
Proof. by vm_compute. Qed.

(** Secrets of one name in two namespaces share one copy: the second copy replaces the
    data of the first, whose source annotation stays. *)
Definition tlsSecret (ns data : string) : Secret :=
  {| sec_Meta := objectMeta "tls" ns "" None None; sec_Immutable := None; sec_Type := "kubernetes.io/tls";
     sec_Data := Some {[ "tls.crt" := data ]}; sec_StringData := None |}.

Definition twoSecrets : Cluster :=
  {| cl_objects := {[ ("Secret", ("team-a", "tls")) := OSecret (tlsSecret "team-a" "A");
                      ("Secret", ("team-b", "tls")) := OSecret (tlsSecret "team-b" "B") ]};
     cl_faults := []; cl_uid := 0 |}.

Example secret_copies_clash :
  let '(r, c) := (CopyTLSSecret "team-a" "tls" "kubelb" ≫= λ _, CopyTLSSecret "team-b" "tls" "kubelb") twoSecrets in
  r = Ret tt ∧
  match findObject Secret c ("kubelb", "tls") with
  | Some s => get (sec_Data s) "tls.crt" = "B" ∧
              get (om_Annotations (sec_Meta s)) AnnotationSourceNamespace = "team-a"
  | None => False
  end.
Proof. by vm_compute. Qed.
