(* ===== verification/EnvoyResource.v ===== *)
(** * The Envoy snapshot

    [internal/envoy/resource.go]: LoadBalancers and Routes become Envoy listeners,
    clusters and endpoints. An Envoy resource is a record of the fields the code sets;
    what is the same in every resource of a kind and has no number in it (the access log,
    the name of the filter, the DNS lookup family) is left out.

    The client's [Get] for Addresses is a parameter, and so are the marshaller and the
    hash that make the version of a snapshot. The port allocator is an instance of
    [PortLookup]; the controller never passes nil. Slices are updated in place: the
    addresses a reference resolves to are written into the load balancers and routes
    that were passed in, and the model returns these too. *)

From S2P Require Import Prelude GoStrings GoNet Api Names PortAllocator.

Local Open Scope go_scope.

(** ** Constants *)

Definition backendProtocolHTTPS : string := "HTTPS".
Definition backendProtocolGRPCS : string := "GRPCS".
Definition xdsClusterName : string := "xds_cluster".
Definition wildcardBindAddress : string := "0.0.0.0".

Definition defaultMaxRequestHeadersKb : Z := 8192.
Definition defaultMaxRequestHeadersCount : Z := 4096.
Definition defaultMaxResponseHeadersKb : Z := 8192.

Definition tcpKeepaliveIdleSeconds : Z := 180.
Definition tcpKeepaliveIntervalSeconds : Z := 30.
Definition tcpKeepaliveProbes : Z := 3.

Definition endpointAddressReference (ns name : string) : string := ns ⊕ "-address-" ⊕ name.

(** ** Envoy resources *)

Inductive SocketProtocol := SocketTCP | SocketUDP.

Record SocketAddress := {
  sa_Protocol : SocketProtocol;
  sa_Address : string;
  sa_Port : Z;
}.

Record HeaderLimits := {
  MaxRequestHeadersKb : Z;
  MaxRequestHeadersCount : Z;
  MaxResponseHeadersKb : Z;
}.

(** A socket option: level, name, value *)
Abbreviation SocketOption := (Z * Z * Z)%type.

(** The part of a listener that forwards traffic: the TCP proxy, the UDP proxy or the HTTP
    connection manager, each with its target cluster. Durations are in seconds. *)
Inductive Forwarder :=
| TcpProxy (statPrefix cluster : string) (hashSourceIP : bool)
| UdpProxy (statPrefix cluster : string) (hashSourceIP : bool)
| HttpManager (statPrefix routeConfigName cluster : string) (routeTimeout maxConcurrentStreams streamWindow
    connectionWindow idleTimeout maxHeadersCount maxRequestHeadersKb streamIdleTimeout : Z)
    (upgrades : list string) (useRemoteAddress : bool) (xffNumTrustedHops : Z) (generateRequestId : bool).

Record EnvoyListener := {
  el_Name : string;
  el_Address : SocketAddress;
  el_Forwarder : Forwarder;
  el_SocketOptions : list SocketOption;
  el_ReusePort : bool;
}.

Inductive DiscoveryType := Cluster_EDS | Cluster_STRICT_DNS.
Inductive LbPolicy := Cluster_ROUND_ROBIN | Cluster_MAGLEV.
Inductive HttpVersion := Http1 | Http2.

(** One endpoint: address and port *)
Record ClusterLoadAssignment := {
  cla_ClusterName : string;
  cla_Endpoints : list (string * Z);
}.

(** The connect-only TCP health check *)
Record HealthCheck := {
  hc_Timeout : Z;
  hc_Interval : Z;
  hc_UnhealthyThreshold : Z;
  hc_HealthyThreshold : Z;
  hc_NoTrafficInterval : Z;
}.

Record HttpProtocolOptions := {
  hpo_Version : HttpVersion;
  hpo_MaxHeadersCount : Z;
  hpo_MaxResponseHeadersKb : Z;
}.

Record EnvoyCluster := {
  ec_Name : string;
  ec_ConnectTimeout : Z;
  ec_DiscoveryType : DiscoveryType;
  ec_LbPolicy : LbPolicy;
  ec_HealthChecks : list HealthCheck;
  ec_HealthyPanicThreshold : Z;
  ec_TcpKeepalive : option (Z * Z * Z);
  ec_LoadAssignment : option ClusterLoadAssignment;
  ec_DnsRefreshRate : option Z;
  ec_RespectDnsTtl : bool;
  ec_EdsConfig : option (string * string);
  ec_HttpOptions : option HttpProtocolOptions;
  ec_ProxyProtocolV2 : bool;
}.

#[export] Instance SocketProtocol_eq_dec : EqDecision SocketProtocol.
Proof. solve_decision. Defined.
#[export] Instance SocketAddress_eq_dec : EqDecision SocketAddress.
Proof. solve_decision. Defined.
#[export] Instance DiscoveryType_eq_dec : EqDecision DiscoveryType.
Proof. solve_decision. Defined.

(** ** Keepalive and header limits *)

Definition upstreamTCPKeepalive : Z * Z * Z :=
  (tcpKeepaliveIdleSeconds, tcpKeepaliveIntervalSeconds, tcpKeepaliveProbes).

Definition downstreamTCPKeepalive : list SocketOption :=
  [(1, 9, 1); (6, 4, tcpKeepaliveIdleSeconds); (6, 5, tcpKeepaliveIntervalSeconds); (6, 6, tcpKeepaliveProbes)]%Z.

(** [config] is nil, or a Config whose header limits may be nil. *)
Definition ResolveHeaderLimits (config : option Config) : HeaderLimits :=
  let configured := config ≫= cf_HeaderLimits in
  {| MaxRequestHeadersKb := default defaultMaxRequestHeadersKb (configured ≫= hl_MaxRequestHeadersKb);
     MaxRequestHeadersCount := default defaultMaxRequestHeadersCount (configured ≫= hl_MaxRequestHeadersCount);
     MaxResponseHeadersKb := default defaultMaxResponseHeadersKb (configured ≫= hl_MaxResponseHeadersKb) |}.

(** ** Endpoints and clusters *)

Definition persistenceType (persistence : option LoadBalancerPersistence) : string :=
  match persistence with
  | None => ""
  | Some p => pers_Type p
  end.

Definition sourceIP (persistence : option LoadBalancerPersistence) : bool :=
  bool_decide (persistenceType persistence = LoadBalancerPersistenceTypeSourceIP).

Definition resolveEndpointLiteral (addr : EndpointAddress) : string * bool :=
  if negb (bool_decide (ea_IP addr = "")) then (ea_IP addr, ParseIP (ea_IP addr))
  else if negb (bool_decide (ea_Hostname addr = "")) then (ea_Hostname addr, ParseIP (ea_Hostname addr))
  else ("", false).

Fixpoint pickClusterDiscoveryType (addrs : list EndpointAddress) : DiscoveryType :=
  match addrs with
  | [] => Cluster_EDS
  | a :: addrs =>
      let '(_, isIP) := resolveEndpointLiteral a in
      if isIP then pickClusterDiscoveryType addrs else Cluster_STRICT_DNS
  end.

Definition makeEndpoint (addr : EndpointAddress) (port : Z) : string * Z :=
  let '(literal, _) := resolveEndpointLiteral addr in (literal, port).

Definition makeClusterLoadAssignment (clusterName : string) (lbEndpoints : list (string * Z)) : ClusterLoadAssignment :=
  {| cla_ClusterName := clusterName; cla_Endpoints := lbEndpoints |}.

Definition IsHTTPRoute (routeKind : string) : bool :=
  bool_decide (routeKind = "HTTPRoute" ∨ routeKind = "GRPCRoute" ∨ routeKind = "Ingress").

Definition defaultHealthCheck : HealthCheck :=
  {| hc_Timeout := 5; hc_Interval := 5; hc_UnhealthyThreshold := 3; hc_HealthyThreshold := 2; hc_NoTrafficInterval := 5 |}.

Definition makeCluster (clusterName protocol routeKind : string) (proxyProtocol : bool)
  (persistence : option LoadBalancerPersistence) (discoveryType : DiscoveryType)
  (loadAssignment : ClusterLoadAssignment) (headerLimits : HeaderLimits) : EnvoyCluster :=
  let isUDP := bool_decide (protocol = ProtocolUDP) in
  let isDNS := bool_decide (discoveryType = Cluster_STRICT_DNS) in
  {| ec_Name := clusterName;
     ec_ConnectTimeout := 5;
     ec_DiscoveryType := discoveryType;
     ec_LbPolicy := if sourceIP persistence && bool_decide (protocol = ProtocolTCP ∨ protocol = ProtocolUDP)
                    then Cluster_MAGLEV else Cluster_ROUND_ROBIN;
     ec_HealthChecks := if isUDP then [] else [defaultHealthCheck];
     ec_HealthyPanicThreshold := 0;
     ec_TcpKeepalive := if isUDP then None else Some upstreamTCPKeepalive;
     ec_LoadAssignment := if isDNS then Some loadAssignment else None;
     ec_DnsRefreshRate := if isDNS then Some 30%Z else None;
     ec_RespectDnsTtl := isDNS;
     ec_EdsConfig := if isDNS then None else Some (clusterName, xdsClusterName);
     ec_HttpOptions :=
       let options v := Some {| hpo_Version := v; hpo_MaxHeadersCount := MaxRequestHeadersCount headerLimits;
                                hpo_MaxResponseHeadersKb := MaxResponseHeadersKb headerLimits |} in
       if bool_decide (routeKind = "GRPCRoute") then options Http2
       else if IsHTTPRoute routeKind then options Http1 else None;
     ec_ProxyProtocolV2 := proxyProtocol |}.

(** ** Listeners *)

Definition makeTCPListener (clusterName listenerName : string) (listenerPort : Z)
  (persistence : option LoadBalancerPersistence) : EnvoyListener :=
  {| el_Name := listenerName;
     el_Address := {| sa_Protocol := SocketTCP; sa_Address := wildcardBindAddress; sa_Port := listenerPort |};
     el_Forwarder := TcpProxy listenerName clusterName (sourceIP persistence);
     el_SocketOptions := downstreamTCPKeepalive;
     el_ReusePort := false |}.

Definition makeUDPListener (clusterName listenerName : string) (listenerPort : Z)
  (persistence : option LoadBalancerPersistence) : EnvoyListener :=
  {| el_Name := listenerName;
     el_Address := {| sa_Protocol := SocketUDP; sa_Address := wildcardBindAddress; sa_Port := listenerPort |};
     el_Forwarder := UdpProxy listenerName clusterName (sourceIP persistence);
     el_SocketOptions := [];
     el_ReusePort := true |}.

Definition makeHTTPListener (listenerName clusterName : string) (listenerPort : Z) (headerLimits : HeaderLimits)
  : EnvoyListener :=
  {| el_Name := listenerName;
     el_Address := {| sa_Protocol := SocketTCP; sa_Address := wildcardBindAddress; sa_Port := listenerPort |};
     el_Forwarder := HttpManager listenerName (listenerName ⊕ "_route") clusterName
       0 (2 ^ 31 - 1) (2 ^ 31 - 1) (2 ^ 31 - 1) 3600 (MaxRequestHeadersCount headerLimits)
       (MaxRequestHeadersKb headerLimits) 3600 ["websocket"] true 1 true;
     el_SocketOptions := downstreamTCPKeepalive;
     el_ReusePort := false |}.

Definition makeRouteListener (key : string) (listenerPort : Z) (protocol : string) (useHTTPListener : bool)
  (headerLimits : HeaderLimits) : option EnvoyListener :=
  if bool_decide (protocol = ProtocolTCP) then
    Some (if useHTTPListener then makeHTTPListener key key listenerPort headerLimits
          else makeTCPListener key key listenerPort None)
  else if bool_decide (protocol = ProtocolUDP) then Some (makeUDPListener key key listenerPort None)
  else None.

(** ** The origin of a route *)

Definition getRouteKind (route : Route) : string :=
  match rt_Source route with
  | Some s => if bool_decide (u_Kind (ks_Route s) = "")
              then get (om_Labels (rt_Meta route)) LabelOriginResourceKind else u_Kind (ks_Route s)
  | None => get (om_Labels (rt_Meta route)) LabelOriginResourceKind
  end.

Definition getOriginalRouteName (route : Route) : string :=
  let fromLabels :=
    let name := get (om_Labels (rt_Meta route)) LabelOriginName in
    if bool_decide (name = "") then om_Name (rt_Meta route) else name in
  match rt_Source route with
  | Some s => if bool_decide (u_Name (ks_Route s) = "") then fromLabels else u_Name (ks_Route s)
  | None => fromLabels
  end.

Definition getOriginalRouteNamespace (route : Route) : string :=
  let fromLabels := get (om_Labels (rt_Meta route)) LabelOriginNamespace in
  match rt_Source route with
  | Some s => if bool_decide (u_Namespace (ks_Route s) = "") then fromLabels else u_Namespace (ks_Route s)
  | None => fromLabels
  end.

Definition isTLSBackend (route : Route) : bool :=
  match rt_Source route with
  | None => false
  | Some s =>
      if negb (bool_decide (getRouteKind route = "Ingress")) then false
      else
        let annotations := get (u_Annotations (ks_Route s)) in
        let protocol := ToUpper (annotations "nginx.ingress.kubernetes.io/backend-protocol") in
        bool_decide (protocol = backendProtocolHTTPS ∨ protocol = backendProtocolGRPCS) ||
        EqualFold (annotations "nginx.ingress.kubernetes.io/ssl-passthrough") "true"
  end.

(** ** The snapshot *)

(** The addresses read so far, by reference key *)
Abbreviation AddressCache := (gmap string (list EndpointAddress)).

Section snapshot.
Context {T : Type} `{!PortLookup T} (portAllocator : T) (headerLimits : HeaderLimits).
(** [client.Get] of Addresses by namespace and name *)
Context (getAddresses : string -> string -> result (list EndpointAddress)).

Definition withAddresses (e : LoadBalancerEndpoints) (addrs : list EndpointAddress) : LoadBalancerEndpoints :=
  {| lbe_Name := lbe_Name e; lbe_Addresses := addrs; lbe_AddressesReference := lbe_AddressesReference e;
     lbe_Ports := lbe_Ports e |}.

(** Resolve the reference of one endpoint, through the cache. *)
Definition resolveEndpoint (ns : string) (cache : AddressCache) (e : LoadBalancerEndpoints)
  : result (LoadBalancerEndpoints * AddressCache) :=
  match lbe_AddressesReference e with
  | None => Ok (e, cache)
  | Some name =>
      let cacheKey := endpointAddressReference ns name in
      match cache !! cacheKey with
      | Some val => Ok (withAddresses e val, cache)
      | None =>
          match getAddresses ns name with
          | Err msg => Err ("failed to get addresses: " ⊕ msg)
          | Ok addrs => Ok (withAddresses e addrs, <[cacheKey := addrs]> cache)
          end
      end
  end.

(** The endpoints of one object, in order *)
Fixpoint resolveEndpoints (ns : string) (cache : AddressCache) (es : list LoadBalancerEndpoints)
  : result (list LoadBalancerEndpoints * AddressCache) :=
  match es with
  | [] => Ok ([], cache)
  | e :: es =>
      let? (e', cache) := resolveEndpoint ns cache e in
      let? (es', cache) := resolveEndpoints ns cache es in
      Ok (e' :: es', cache)
  end.

(** What one port contributes: a listener (for TCP and UDP), a cluster and its endpoints;
    [pr_Lookup] records the endpoint key and port key its listener port was looked up by. *)
Record PortResources := {
  pr_Lookup : string * string;
  pr_Listener : option EnvoyListener;
  pr_Cluster : EnvoyCluster;
  pr_Assignment : ClusterLoadAssignment;
}.

Definition lookupPort (endpointKey portKey : string) (fallback : Z) : Z :=
  let '(value, exists_) := port_lookup portAllocator endpointKey portKey in
  if exists_ : bool then to_uint32 value else to_uint32 fallback.

Definition lbPortResources (lb : LoadBalancer) (i : nat) (e : LoadBalancerEndpoints) (p : EndpointPort) : PortResources :=
  let ns := om_Namespace (lb_Meta lb) in
  let name := om_Name (lb_Meta lb) in
  let persistence := lbs_Persistence (lb_Spec lb) in
  let key := EnvoyResourceIdentifier ns name (Z.of_nat i) (ep_Port p) (ep_Protocol p) in
  let lbEndpoints := (λ a, makeEndpoint a (to_uint32 (ep_Port p))) <$> lbe_Addresses e in
  let endpointKey := EnvoyEndpoint ns name (Z.of_nat i) in
  let portKey := EnvoyListenerKey (ep_Port p) (ep_Protocol p) in
  let port := lookupPort endpointKey portKey (ep_Port p) in
  let proxyProtocol :=
    bool_decide (ep_Protocol p = ProtocolTCP) &&
    bool_decide (get (om_Annotations (lb_Meta lb)) AnnotationProxyProtocol = "v2") in
  let cla := makeClusterLoadAssignment key lbEndpoints in
  let discoveryType := pickClusterDiscoveryType (lbe_Addresses e) in
  {| pr_Lookup := (endpointKey, portKey);
     pr_Listener :=
       if bool_decide (ep_Protocol p = ProtocolTCP) then Some (makeTCPListener key key port persistence)
       else if bool_decide (ep_Protocol p = ProtocolUDP) then Some (makeUDPListener key key port persistence)
       else None;
     pr_Cluster := makeCluster key (ep_Protocol p) "" proxyProtocol persistence discoveryType cla headerLimits;
     pr_Assignment := cla |}.

Definition lbResources (lb : LoadBalancer) (es : list LoadBalancerEndpoints) : list PortResources :=
  mjoin (imap (λ i e, lbPortResources lb i e <$> lbe_Ports e) es).

Definition withEndpoints (lb : LoadBalancer) (es : list LoadBalancerEndpoints) : LoadBalancer :=
  {| lb_Meta := lb_Meta lb;
     lb_Spec := {| lbs_Endpoints := es; lbs_Ports := lbs_Ports (lb_Spec lb); lbs_Hostname := lbs_Hostname (lb_Spec lb);
                   lbs_Type := lbs_Type (lb_Spec lb); lbs_ExternalTrafficPolicy := lbs_ExternalTrafficPolicy (lb_Spec lb);
                   lbs_Persistence := lbs_Persistence (lb_Spec lb) |};
     lb_Status := lb_Status lb |}.

Fixpoint mapLoadBalancers (cache : AddressCache) (lbs : list LoadBalancer)
  : result (list PortResources * list LoadBalancer * AddressCache) :=
  match lbs with
  | [] => Ok ([], [], cache)
  | lb :: lbs =>
      let? (es, cache) := resolveEndpoints (om_Namespace (lb_Meta lb)) cache (lbs_Endpoints (lb_Spec lb)) in
      let? (rs, lbs', cache) := mapLoadBalancers cache lbs in
      Ok (lbResources lb es ++ rs, withEndpoints lb es :: lbs', cache)
  end.

(** HTTP routes get an HTTP listener unless the backend speaks TLS. *)
Definition useHTTPListener (route : Route) : bool := IsHTTPRoute (getRouteKind route) && negb (isTLSBackend route).

Definition routePortResources (route : Route) (addrs : list EndpointAddress) (svc : Service) (p : CoreServicePort)
  : PortResources :=
  let ns := om_Namespace (rt_Meta route) in
  let svcNs := om_Namespace (svc_Meta svc) in
  let svcName := om_Name (svc_Meta svc) in
  let name := getOriginalRouteName route in
  let key := EnvoyRoutePortIdentifier ns svcNs svcName (getOriginalRouteNamespace route) name (sp_Port p) (sp_Protocol p) in
  let endpointKey := EnvoyEndpointRoute ns svcNs svcName name in
  let portKey := EnvoyListenerKey (sp_Port p) (sp_Protocol p) in
  let listenerPort := lookupPort endpointKey portKey (sp_Port p) in
  let lbEndpoints := (λ a, makeEndpoint a (to_uint32 (sp_NodePort p))) <$> addrs in
  let cla := makeClusterLoadAssignment key lbEndpoints in
  let clusterRouteKind := if useHTTPListener route then getRouteKind route else "" in
  {| pr_Lookup := (endpointKey, portKey);
     pr_Listener := makeRouteListener key listenerPort (sp_Protocol p) (useHTTPListener route) headerLimits;
     pr_Cluster := makeCluster key (sp_Protocol p) clusterRouteKind false None (pickClusterDiscoveryType addrs) cla headerLimits;
     pr_Assignment := cla |}.

(** [resolveRouteAddresses] *)
Definition resolveRouteAddresses (cache : AddressCache) (route : Route) : result (Route * AddressCache) :=
  let? (es, cache) := resolveEndpoints (om_Namespace (rt_Meta route)) cache (rt_Endpoints route) in
  Ok ({| rt_Meta := rt_Meta route; rt_Endpoints := es; rt_Source := rt_Source route;
         rt_Status := rt_Status route |}, cache).

Definition routeResources (route : Route) (source : KubernetesSource) : list PortResources :=
  let addrs := mjoin (lbe_Addresses <$> rt_Endpoints route) in
  mjoin ((λ svc, routePortResources route addrs svc <$> svc_Ports svc) <$> ks_Services source).

Fixpoint mapRoutes (cache : AddressCache) (routes : list Route) : result (list PortResources * list Route) :=
  match routes with
  | [] => Ok ([], [])
  | route :: routes =>
      match rt_Source route with
      | None => let? (rs, routes') := mapRoutes cache routes in Ok (rs, route :: routes')
      | Some source =>
          let? (route, cache) := resolveRouteAddresses cache route in
          let? (rs, routes') := mapRoutes cache routes in
          Ok (routeResources route source ++ rs, route :: routes')
      end
  end.

(** [sortResourcesByName]; the order of resources with one name is not specified by
    [sort.Slice], here they keep theirs. *)
Definition name_le {A} (name : A -> string) (x y : A) : Prop := String.le (name x) (name y).

#[local] Instance name_le_dec {A} (name : A -> string) : RelDecision (name_le name).
Proof. intros x y. unfold name_le. apply _. Defined.

Definition sortResourcesByName {A} (name : A -> string) (l : list A) : list A := merge_sort (name_le name) l.

(** [dedupListenersByAddress]; the map key prints the whole address, here it is the address. *)
Fixpoint dedup_loop (seen : list SocketAddress) (listeners : list EnvoyListener) : list EnvoyListener :=
  match listeners with
  | [] => []
  | l :: listeners =>
      if bool_decide (el_Address l ∈ seen) then dedup_loop seen listeners
      else l :: dedup_loop (el_Address l :: seen) listeners
  end.

Definition dedupListenersByAddress (listeners : list EnvoyListener) : list EnvoyListener :=
  if bool_decide (length listeners < 2) then listeners else dedup_loop [] listeners.

Record Snapshot := {
  snap_Clusters : list EnvoyCluster;
  snap_Listeners : list EnvoyListener;
  snap_Endpoints : list ClusterLoadAssignment;
}.

Definition buildSnapshot (rs : list PortResources) : Snapshot :=
  {| snap_Clusters := sortResourcesByName ec_Name (pr_Cluster <$> rs);
     snap_Listeners := dedupListenersByAddress (sortResourcesByName el_Name (omap pr_Listener rs));
     snap_Endpoints := sortResourcesByName cla_ClusterName
       (pr_Assignment <$> filter (λ r, ec_DiscoveryType (pr_Cluster r) = Cluster_EDS) rs) |}.

(** The resources of all load balancers and routes, and the objects with the addresses
    written into them. *)
Definition mapResources (loadBalancers : list LoadBalancer) (routes : list Route)
  : result (list PortResources * (list LoadBalancer * list Route)) :=
  let? (lbRs, lbs, cache) := mapLoadBalancers ∅ loadBalancers in
  let? (routeRs, routes) := mapRoutes cache routes in
  Ok (lbRs ++ routeRs, (lbs, routes)).

(** The version hashes the marshalled resources in the order clusters, listeners, endpoints. *)
Context (MarshalCluster : EnvoyCluster -> result (list N)) (MarshalListener : EnvoyListener -> result (list N))
  (MarshalEndpoints : ClusterLoadAssignment -> result (list N)) (HashResource : list N -> string).

Fixpoint marshal_all {A} (marshal : A -> result (list N)) (l : list A) : result (list N) :=
  match l with
  | [] => Ok []
  | x :: l =>
      match marshal x with
      | Err msg => Err ("failed to marshal resource: " ⊕ msg)
      | Ok mr => let? rest := marshal_all marshal l in Ok (mr ++ rest)
      end
  end.

Definition snapshotVersion (s : Snapshot) : result string :=
  let? c := marshal_all MarshalCluster (snap_Clusters s) in
  let? l := marshal_all MarshalListener (snap_Listeners s) in
  let? e := marshal_all MarshalEndpoints (snap_Endpoints s) in
  Ok (HashResource (c ++ l ++ e)).

Definition MapSnapshot (loadBalancers : list LoadBalancer) (routes : list Route) : result (string * Snapshot) :=
  let? (rs, _) := mapResources loadBalancers routes in
  let snapshot := buildSnapshot rs in
  let? version := snapshotVersion snapshot in
  Ok (version, snapshot).
End snapshot.

(** ** Lemmas: sorting and removing duplicates *)

Section resource_lists.
Context {A : Type} (name : A -> string).
#[local] Existing Instance name_le_dec.

#[local] Instance name_le_total : Total (name_le name).
Proof. intros x y. unfold name_le. apply (total String.le). Qed.

#[local] Instance name_le_trans : Transitive (name_le name).
Proof. intros x y z. unfold name_le. apply transitivity. Qed.

Lemma sortResources_perm l : sortResourcesByName name l ≡ₚ l.
Proof. apply merge_sort_Permutation. Qed.

Lemma elem_of_sortResources l x : x ∈ sortResourcesByName name l ↔ x ∈ l.
Proof. by rewrite sortResources_perm. Qed.

(** With distinct names, the sorted list does not depend on the order of the input. *)
Lemma sortResources_proper l1 l2 :
  l1 ≡ₚ l2 → NoDup (name <$> l1) → sortResourcesByName name l1 = sortResourcesByName name l2.
Proof.
  intros Hp Hnd. apply (StronglySorted_unique_strong (name_le name)).
  - intros x y Hx Hy H1 H2. rewrite elem_of_sortResources in Hx. rewrite elem_of_sortResources, <-Hp in Hy.
    apply list_elem_of_lookup in Hx as [i Hi]. apply list_elem_of_lookup in Hy as [j Hj].
    assert (name x = name y) as He by (by apply (anti_symm String.le)).
    assert (i = j) as ->; [|congruence].
    apply (NoDup_lookup (name <$> l1) i j (name x)); [done| |]; rewrite list_lookup_fmap;
      [by rewrite Hi|by rewrite Hj; simpl; rewrite He].
  - apply StronglySorted_merge_sort; apply _.
  - apply StronglySorted_merge_sort; apply _.
  - by rewrite !sortResources_perm.
Qed.
End resource_lists.

Lemma elem_of_dedup_loop seen l x : x ∈ dedup_loop seen l → x ∈ l.
Proof.
  revert seen. induction l as [|y l IH]; intros seen; simpl; [done|].
  case_bool_decide; rewrite ?elem_of_cons; naive_solver.
Qed.

Lemma dedup_loop_fresh seen l x : x ∈ dedup_loop seen l → el_Address x ∉ seen.
Proof.
  revert seen. induction l as [|y l IH]; intros seen; simpl; [by intros ?%elem_of_nil|].
  case_bool_decide; [apply IH|]. intros [->|Hin]%elem_of_cons; [done|].
  apply IH in Hin. by intros ?; apply Hin; right.
Qed.

Lemma dedup_loop_NoDup seen l : NoDup (el_Address <$> dedup_loop seen l).
Proof.
  revert seen. induction l as [|y l IH]; intros seen; simpl; [constructor|].
  case_bool_decide; [apply IH|]. simpl. constructor; [|apply IH].
  intros (x & Hx & Hin)%list_elem_of_fmap. apply dedup_loop_fresh in Hin. apply Hin. rewrite Hx. left.
Qed.

(** Every address that is bound stays bound. *)
Lemma dedup_loop_address seen l x : x ∈ l → el_Address x ∈ seen ∨ ∃ y, y ∈ dedup_loop seen l ∧ el_Address y = el_Address x.
Proof.
  revert seen. induction l as [|y l IH]; intros seen; simpl; [by intros ?%elem_of_nil|].
  intros [->|Hx]%elem_of_cons.
  - case_bool_decide as Hy; [by left|]. right. exists y. split; [by left|done].
  - case_bool_decide as Hy; [by apply IH|]. destruct (IH (el_Address y :: seen) Hx) as [[He|?]%elem_of_cons|(z & Hz & He)].
    + right. exists y. split; [by left|done].
    + by left.
    + right. exists z. split; [by right|done].
Qed.

Lemma dedup_loop_id seen l :
  NoDup (el_Address <$> l) → (∀ x, x ∈ l → el_Address x ∉ seen) → dedup_loop seen l = l.
Proof.
  revert seen. induction l as [|y l IH]; intros seen; simpl; [done|]. intros [Hn Hnd]%NoDup_cons Hs.
  rewrite bool_decide_eq_false_2 by (apply Hs; left). f_equal. apply IH; [done|].
  intros x Hx [He|He]%elem_of_cons.
  - apply Hn. rewrite <-He. by apply list_elem_of_fmap_2.
  - revert He. apply Hs. by right.
Qed.

Lemma dedupListeners_loop l : dedupListenersByAddress l = dedup_loop [] l.
Proof.
  unfold dedupListenersByAddress. case_bool_decide as Hl; [|done].
  destruct l as [|x [|y l]]; [done..|]. simpl in Hl. lia.
Qed.

(** ** Lemmas: the resources of one port *)

Definition forward_target (f : Forwarder) : string :=
  match f with
  | TcpProxy _ c _ | UdpProxy _ c _ => c
  | HttpManager _ _ c _ _ _ _ _ _ _ _ _ _ _ _ => c
  end.

(** What ties the listener, the cluster and the endpoints of one port together. *)
Definition port_ok (r : PortResources) : Prop :=
  (∀ l, pr_Listener r = Some l → el_Name l = ec_Name (pr_Cluster r) ∧ forward_target (el_Forwarder l) = ec_Name (pr_Cluster r)) ∧
  cla_ClusterName (pr_Assignment r) = ec_Name (pr_Cluster r) ∧
  match ec_DiscoveryType (pr_Cluster r) with
  | Cluster_EDS => ec_EdsConfig (pr_Cluster r) = Some (ec_Name (pr_Cluster r), xdsClusterName) ∧
                   ec_LoadAssignment (pr_Cluster r) = None ∧
                   Forall (λ a, ParseIP a.1 = true) (cla_Endpoints (pr_Assignment r))
  | Cluster_STRICT_DNS => ec_EdsConfig (pr_Cluster r) = None ∧
                          ec_LoadAssignment (pr_Cluster r) = Some (pr_Assignment r)
  end.

Lemma makeEndpoint_literal a p : (makeEndpoint a p).1 = (resolveEndpointLiteral a).1.
Proof. unfold makeEndpoint. by destruct (resolveEndpointLiteral a). Qed.

Lemma resolveEndpointLiteral_ip a : (resolveEndpointLiteral a).2 = true → ParseIP (resolveEndpointLiteral a).1 = true.
Proof. unfold resolveEndpointLiteral. by repeat case_match. Qed.

Lemma pick_EDS addrs p : pickClusterDiscoveryType addrs = Cluster_EDS →
  Forall (λ a, ParseIP a.1 = true) ((λ a, makeEndpoint a p) <$> addrs).
Proof.
  induction addrs as [|a addrs IH]; simpl; [constructor|].
  pose proof (resolveEndpointLiteral_ip a) as Hip. rewrite <-(makeEndpoint_literal a p) in Hip.
  destruct (resolveEndpointLiteral a) as [s isIP]. simpl in Hip. destruct isIP; [|done]. intros H. constructor; auto.
Qed.

Lemma makeCluster_ok k key proto kind pp pers addrs p limits l :
  (∀ x, l = Some x → el_Name x = key ∧ forward_target (el_Forwarder x) = key) →
  let cla := makeClusterLoadAssignment key ((λ a, makeEndpoint a p) <$> addrs) in
  port_ok {| pr_Lookup := k; pr_Listener := l;
             pr_Cluster := makeCluster key proto kind pp pers (pickClusterDiscoveryType addrs) cla limits;
             pr_Assignment := cla |}.
Proof.
  intros Hl. cbv zeta. split_and!; simpl; [done|done|].
  destruct (pickClusterDiscoveryType addrs) eqn:Hd; [|done]. split_and!; [done|done|]. by apply pick_EDS.
Qed.

Section resources_ok.
Context {T : Type} `{!PortLookup T} (pa : T) (limits : HeaderLimits).
Context (getAddresses : string -> string -> result (list EndpointAddress)).

Lemma lbPortResources_ok lb i e p : port_ok (lbPortResources pa limits lb i e p).
Proof. apply makeCluster_ok. intros x. repeat case_bool_decide; by intros [= <-]. Qed.

Lemma routePortResources_ok route addrs svc p : port_ok (routePortResources pa limits route addrs svc p).
Proof.
  apply makeCluster_ok. intros x. unfold makeRouteListener.
  repeat case_bool_decide; [|by intros [= <-]|done]. destruct (useHTTPListener route); by intros [= <-].
Qed.

Lemma lbResources_ok lb es : Forall port_ok (lbResources pa limits lb es).
Proof.
  apply Forall_join, Forall_forall. intros l (i & e & -> & _)%elem_of_lookup_imap_1.
  apply Forall_fmap, Forall_true. intros p. apply lbPortResources_ok.
Qed.

Lemma routeResources_ok route source : Forall port_ok (routeResources pa limits route source).
Proof.
  apply Forall_join, Forall_fmap, Forall_true. intros svc. apply Forall_fmap, Forall_true.
  intros p. apply routePortResources_ok.
Qed.

(** Every port of every load balancer has its resources. *)
Lemma resolveEndpoints_ports ns es : ∀ cache es' cache', resolveEndpoints getAddresses ns cache es = Ok (es', cache') →
  ∀ i e, es !! i = Some e → ∃ e', es' !! i = Some e' ∧ lbe_Ports e' = lbe_Ports e.
Proof.
  induction es as [|e es IH]; intros cache es' cache' Hr; simpl in Hr; [by injection Hr as <- <-|].
  destruct (resolveEndpoint _ _ _ _) as [[e1 c1]|] eqn:H1; [simpl in Hr|done].
  destruct (resolveEndpoints _ _ _ _) as [[es1 c2]|] eqn:H2; [|done]. injection Hr as <- <-.
  intros [|i] e0; simpl; [|by eapply IH]. intros [= <-]. exists e1. split; [done|].
  unfold resolveEndpoint in H1. repeat case_match; by simplify_eq.
Qed.

Lemma mapLoadBalancers_has lbs lb i e p : lb ∈ lbs → lbs_Endpoints (lb_Spec lb) !! i = Some e → p ∈ lbe_Ports e →
  ∀ cache rs lbs' cache', mapLoadBalancers pa limits getAddresses cache lbs = Ok (rs, lbs', cache') →
  ∃ e', lbPortResources pa limits lb i e' p ∈ rs.
Proof.
  intros Hin He Hp. induction lbs as [|lb0 lbs IH]; [by apply elem_of_nil in Hin|].
  intros cache rs lbs' cache'. simpl. destruct (resolveEndpoints _ _ _ _) as [[es c]|] eqn:Hes; [simpl|done].
  destruct (mapLoadBalancers _ _ _ c lbs) as [[[rs1 lbs1] c1]|] eqn:Hm; [|done]. intros [= <- _ _].
  apply elem_of_cons in Hin as [<-|Hin].
  - destruct (resolveEndpoints_ports _ _ _ _ _ Hes i e He) as (e' & He' & Hp'). exists e'. apply elem_of_app. left.
    apply list_elem_of_join. eexists. split; [|apply elem_of_lookup_imap; by exists i, e'].
    apply list_elem_of_fmap_2. by rewrite Hp'.
  - destruct (IH Hin _ _ _ _ Hm) as [e' He']. exists e'. apply elem_of_app. by right.
Qed.

Lemma mapResources_has lbs routes rs objs lb i e p :
  mapResources pa limits getAddresses lbs routes = Ok (rs, objs) →
  lb ∈ lbs → lbs_Endpoints (lb_Spec lb) !! i = Some e → p ∈ lbe_Ports e →
  ∃ e', lbPortResources pa limits lb i e' p ∈ rs.
Proof.
  unfold mapResources. destruct (mapLoadBalancers _ _ _ _ _) as [[[rs1 lbs1] c]|] eqn:Hl; [simpl|done].
  destruct (mapRoutes _ _ _ _ _) as [[rs2 routes1]|]; [|done]. intros [= <- _] Hin He Hp.
  destruct (mapLoadBalancers_has _ _ _ _ _ Hin He Hp _ _ _ _ Hl) as [e' He']. exists e'. apply elem_of_app. by left.
Qed.

(** What holds of the resources of every object holds of all resources. *)
Section forall_resources.
Context (P : PortResources -> Prop).
Hypothesis (HPlb : ∀ lb es, Forall P (lbResources pa limits lb es)).
Hypothesis (HProute : ∀ route source, Forall P (routeResources pa limits route source)).

Lemma mapLoadBalancers_Forall lbs : ∀ cache rs lbs' cache',
  mapLoadBalancers pa limits getAddresses cache lbs = Ok (rs, lbs', cache') → Forall P rs.
Proof.
  induction lbs as [|lb lbs IH]; intros cache rs lbs' cache'; simpl; [by intros [= <- _ _]|].
  destruct (resolveEndpoints _ _ _ _) as [[es c]|]; [simpl|done].
  destruct (mapLoadBalancers _ _ _ c lbs) as [[[rs1 lbs1] c1]|] eqn:Hm; [|done]. intros [= <- _ _].
  apply Forall_app. split; [apply HPlb|by eapply IH].
Qed.

Lemma mapRoutes_Forall routes : ∀ cache rs routes',
  mapRoutes pa limits getAddresses cache routes = Ok (rs, routes') → Forall P rs.
Proof.
  induction routes as [|route routes IH]; intros cache rs routes'; simpl; [by intros [= <- _]|].
  destruct (rt_Source route) as [source|].
  - destruct (resolveRouteAddresses _ _ _) as [[route1 c]|]; [simpl|done].
    destruct (mapRoutes _ _ _ c routes) as [[rs1 routes1]|] eqn:Hm; [|done]. intros [= <- _].
    apply Forall_app. split; [apply HProute|by eapply IH].
  - destruct (mapRoutes _ _ _ cache routes) as [[rs1 routes1]|] eqn:Hm; [|done]. intros [= <- _]. by eapply IH.
Qed.

Lemma mapResources_Forall lbs routes rs objs :
  mapResources pa limits getAddresses lbs routes = Ok (rs, objs) → Forall P rs.
Proof.
  unfold mapResources. destruct (mapLoadBalancers _ _ _ _ _) as [[[rs1 lbs1] c]|] eqn:Hl; [simpl|done].
  destruct (mapRoutes _ _ _ _ _) as [[rs2 routes1]|] eqn:Hr; [|done]. intros [= <- _].
  apply Forall_app. split; [by eapply mapLoadBalancers_Forall|by eapply mapRoutes_Forall].
Qed.
End forall_resources.

Lemma mapResources_ok lbs routes rs objs :
  mapResources pa limits getAddresses lbs routes = Ok (rs, objs) → Forall port_ok rs.
Proof. apply mapResources_Forall; [apply lbResources_ok|apply routeResources_ok]. Qed.
End resources_ok.

(** ** Lemmas: the address cache is transparent *)

Section address_cache.
Context {T : Type} `{!PortLookup T} (pa : T) (limits : HeaderLimits).
Context (getAddresses : string -> string -> result (list EndpointAddress)).

(** References that share a cache key resolve alike. *)
Definition coherent : Prop := ∀ ns1 n1 ns2 n2,
  endpointAddressReference ns1 n1 = endpointAddressReference ns2 n2 → getAddresses ns1 n1 = getAddresses ns2 n2.

(** The same functions without a cache *)
Definition pureEndpoint (ns : string) (e : LoadBalancerEndpoints) : result LoadBalancerEndpoints :=
  match lbe_AddressesReference e with
  | None => Ok e
  | Some name =>
      match getAddresses ns name with
      | Err msg => Err ("failed to get addresses: " ⊕ msg)
      | Ok addrs => Ok (withAddresses e addrs)
      end
  end.

Definition pureLoadBalancer (lb : LoadBalancer) : result (list PortResources) :=
  let? es := mapR (pureEndpoint (om_Namespace (lb_Meta lb))) (lbs_Endpoints (lb_Spec lb)) in
  Ok (lbResources pa limits lb es).

Definition pureRoute (route : Route) : result (list PortResources) :=
  match rt_Source route with
  | None => Ok []
  | Some source =>
      let? es := mapR (pureEndpoint (om_Namespace (rt_Meta route))) (rt_Endpoints route) in
      Ok (routeResources pa limits {| rt_Meta := rt_Meta route; rt_Endpoints := es; rt_Source := rt_Source route;
                                      rt_Status := rt_Status route |} source)
  end.

Definition pureResources (lbs : list LoadBalancer) (routes : list Route) : result (list PortResources) :=
  let? a := mapR pureLoadBalancer lbs in
  let? b := mapR pureRoute routes in
  Ok (mjoin a ++ mjoin b).

Definition cache_ok (cache : AddressCache) : Prop := ∀ ns n v,
  cache !! endpointAddressReference ns n = Some v → getAddresses ns n = Ok v.

(** A computation with the cache agrees with one without. *)
Definition agrees {A B} (pure : result A) (cached : result B) (R : A -> B -> Prop) : Prop :=
  match pure, cached with
  | Ok a, Ok b => R a b
  | Err m, Err m' => m = m'
  | _, _ => False
  end.

Hypothesis Hcoherent : coherent.

Lemma resolveEndpoint_pure ns cache e : cache_ok cache →
  agrees (pureEndpoint ns e) (resolveEndpoint getAddresses ns cache e) (λ e' b, b.1 = e' ∧ cache_ok b.2).
Proof.
  intros Hc. unfold pureEndpoint, resolveEndpoint, agrees. destruct (lbe_AddressesReference e) as [n|]; [|done].
  destruct (cache !! _) as [v|] eqn:Hv; [by rewrite (Hc _ _ _ Hv)|].
  destruct (getAddresses ns n) as [addrs|] eqn:Hg; [|done]. split; [done|]. simpl.
  intros ns' n' v'. rewrite lookup_insert_Some. intros [[Hk <-]|[_ Hl]]; [|by apply Hc].
  by rewrite <-(Hcoherent _ _ _ _ Hk).
Qed.

Lemma resolveEndpoints_pure ns es : ∀ cache, cache_ok cache →
  agrees (mapR (pureEndpoint ns) es) (resolveEndpoints getAddresses ns cache es) (λ es' b, b.1 = es' ∧ cache_ok b.2).
Proof.
  induction es as [|e es IH]; intros cache Hc; simpl; [done|].
  pose proof (resolveEndpoint_pure ns cache e Hc) as He. unfold agrees in He.
  destruct (pureEndpoint ns e) as [e'|m], (resolveEndpoint _ ns cache e) as [[e1 c1]|m1]; simpl in *; try done.
  destruct He as [-> Hc1]. specialize (IH c1 Hc1). unfold agrees in IH.
  destruct (mapR _ es), (resolveEndpoints _ ns c1 es) as [[es1 c2]|]; simpl in *; try done.
  by destruct IH as [-> ?].
Qed.

Lemma mapLoadBalancers_pure lbs : ∀ cache, cache_ok cache →
  agrees (mapR pureLoadBalancer lbs) (mapLoadBalancers pa limits getAddresses cache lbs)
    (λ a b, b.1.1 = mjoin a ∧ cache_ok b.2).
Proof.
  induction lbs as [|lb lbs IH]; intros cache Hc; simpl; [done|]. unfold pureLoadBalancer at 1.
  pose proof (resolveEndpoints_pure (om_Namespace (lb_Meta lb)) (lbs_Endpoints (lb_Spec lb)) cache Hc) as He.
  unfold agrees in He.
  destruct (mapR (pureEndpoint _) _) as [es|m], (resolveEndpoints _ _ cache _) as [[es1 c1]|m1]; simpl in *; try done.
  destruct He as [-> Hc1]. specialize (IH c1 Hc1). unfold agrees in IH.
  destruct (mapR pureLoadBalancer lbs), (mapLoadBalancers _ _ _ c1 lbs) as [[[rs lbs1] c2]|]; simpl in *; try done.
  by destruct IH as [-> ?].
Qed.

Lemma mapRoutes_pure routes : ∀ cache, cache_ok cache →
  agrees (mapR pureRoute routes) (mapRoutes pa limits getAddresses cache routes) (λ a b, b.1 = mjoin a).
Proof.
  induction routes as [|route routes IH]; intros cache Hc; simpl; [done|]. unfold pureRoute at 1, resolveRouteAddresses.
  destruct (rt_Source route) as [source|]; simpl.
  - pose proof (resolveEndpoints_pure (om_Namespace (rt_Meta route)) (rt_Endpoints route) cache Hc) as He.
    unfold agrees in He.
    destruct (mapR (pureEndpoint _) _) as [es|m], (resolveEndpoints _ _ cache _) as [[es1 c1]|m1]; simpl in *; try done.
    destruct He as [-> Hc1]. specialize (IH c1 Hc1). unfold agrees in IH.
    destruct (mapR pureRoute routes), (mapRoutes _ _ _ c1 routes) as [[rs routes1]|]; simpl in *; try done.
    by rewrite IH.
  - specialize (IH cache Hc). unfold agrees in IH.
    destruct (mapR pureRoute routes), (mapRoutes _ _ _ cache routes) as [[rs routes1]|]; simpl in *; done.
Qed.

Lemma mapResources_pure lbs routes :
  agrees (pureResources lbs routes) (mapResources pa limits getAddresses lbs routes) (λ rs b, b.1 = rs).
Proof.
  unfold pureResources, mapResources.
  assert (cache_ok ∅) as H0 by (intros ns n v; by rewrite lookup_empty).
  pose proof (mapLoadBalancers_pure lbs ∅ H0) as Hl. unfold agrees in Hl.
  destruct (mapR pureLoadBalancer lbs), (mapLoadBalancers _ _ _ ∅ lbs) as [[[rs lbs1] c]|]; simpl in *; try done.
  destruct Hl as [-> Hc]. pose proof (mapRoutes_pure routes c Hc) as Hr. unfold agrees in Hr.
  destruct (mapR pureRoute routes), (mapRoutes _ _ _ c routes) as [[rs2 routes1]|]; simpl in *; try done.
  by rewrite Hr.
Qed.

Lemma pureResources_perm lbs1 lbs2 routes1 routes2 rs1 :
  lbs1 ≡ₚ lbs2 → routes1 ≡ₚ routes2 → pureResources lbs1 routes1 = Ok rs1 →
  ∃ rs2, pureResources lbs2 routes2 = Ok rs2 ∧ rs1 ≡ₚ rs2.
Proof.
  intros Hl Hr. unfold pureResources.
  destruct (mapR pureLoadBalancer lbs1) as [a|] eqn:Ha; [simpl|done].
  destruct (mapR pureRoute routes1) as [b|] eqn:Hb; [simpl|done]. intros [= <-].
  destruct (mapR_perm _ _ _ _ Hl Ha) as (a2 & -> & Ha2). destruct (mapR_perm _ _ _ _ Hr Hb) as (b2 & -> & Hb2).
  simpl. eexists. split; [done|]. by rewrite Ha2, Hb2.
Qed.
End address_cache.

(** ** Lemmas: listener ports come from the allocator *)

Definition port_from {T : Type} `{!PortLookup T} (pa : T) (r : PortResources) : Prop :=
  ∀ l, pr_Listener r = Some l → ∃ fallback, sa_Port (el_Address l) = lookupPort pa (pr_Lookup r).1 (pr_Lookup r).2 fallback.

Section listener_ports.
Context {T : Type} `{!PortLookup T} (pa : T) (limits : HeaderLimits).
Context (getAddresses : string -> string -> result (list EndpointAddress)).

Lemma lbResources_from lb es : Forall (port_from pa) (lbResources pa limits lb es).
Proof.
  apply Forall_join, Forall_forall. intros l (i & e & -> & _)%elem_of_lookup_imap_1.
  apply Forall_fmap, Forall_true. intros p x Hx. exists (ep_Port p). revert Hx. simpl.
  repeat case_bool_decide; by intros [= <-].
Qed.

Lemma routeResources_from route source : Forall (port_from pa) (routeResources pa limits route source).
Proof.
  apply Forall_join, Forall_fmap, Forall_true. intros svc. apply Forall_fmap, Forall_true.
  intros p x Hx. exists (sp_Port p). revert Hx. simpl. unfold makeRouteListener.
  repeat case_bool_decide; [|by intros [= <-]|done]. destruct (useHTTPListener route); by intros [= <-].
Qed.

Lemma mapResources_from lbs routes rs objs :
  mapResources pa limits getAddresses lbs routes = Ok (rs, objs) → Forall (port_from pa) rs.
Proof. apply mapResources_Forall; [apply lbResources_from|apply routeResources_from]. Qed.
End listener_ports.

Section consistent_lookup.
Context {T : Type} `{!PortLookup T} (pa : T) `{!ConsistentLookup pa}.

Lemma lookupPort_true e k p fallback : port_lookup pa e k = (p, true) → lookupPort pa e k fallback = p.
Proof.
  intros He. unfold lookupPort. rewrite He. apply to_uint32_small.
  apply lookup_in_range in He. port_lia.
Qed.

(** Listeners that get allocated ports by distinct keys have distinct addresses. *)
Lemma listeners_distinct rs :
  Forall (port_from pa) rs →
  Forall (λ r, (port_lookup pa (pr_Lookup r).1 (pr_Lookup r).2).2 = true) rs →
  NoDup (pr_Lookup <$> rs) → NoDup (el_Address <$> omap pr_Listener rs).
Proof.
  intros Hfrom Hsome. induction rs as [|r rs IH]; simpl; [constructor|].
  apply Forall_cons in Hfrom as [Hf Hfrom]. apply Forall_cons in Hsome as [Hp Hsome].
  intros [Hn Hnd]%NoDup_cons. destruct (pr_Listener r) as [l|] eqn:Hl; [|by apply IH]. simpl.
  constructor; [|by apply IH]. intros (l' & Ha & Hin)%list_elem_of_fmap.
  apply list_elem_of_omap in Hin as (r' & Hin & Hl'). apply Hn.
  rewrite Forall_forall in Hfrom, Hsome. destruct (Hf _ Hl) as [fb Hfb], (Hfrom _ Hin _ Hl') as [fb' Hfb'].
  pose proof (Hsome _ Hin) as Hp'.
  destruct (port_lookup pa (pr_Lookup r).1 _) as [p ?] eqn:Hq, (port_lookup pa (pr_Lookup r').1 _) as [p' ?] eqn:Hq'.
  simpl in Hp, Hp'. subst. rewrite (lookupPort_true _ _ _ _ Hq) in Hfb. rewrite (lookupPort_true _ _ _ _ Hq') in Hfb'.
  assert (p = p') as <- by congruence. pose proof (lookup_injective _ _ _ _ _ Hq Hq') as He.
  rewrite (surjective_pairing (pr_Lookup r)), He, <-surjective_pairing. by apply list_elem_of_fmap_2.
Qed.
End consistent_lookup.

(** ** Lemmas: distinct names *)

Lemma NoDup_fmap_omap {A B C} (g : A -> C) (f : A -> option B) (h : B -> C) (l : list A) :
  (∀ x y, x ∈ l → f x = Some y → h y = g x) → NoDup (g <$> l) → NoDup (h <$> omap f l).
Proof.
  intros Hgh. induction l as [|x l IH]; [constructor|]. rewrite fmap_cons. intros [Hx Hnd]%NoDup_cons. simpl.
  assert (NoDup (h <$> omap f l)) as IH' by (apply IH; [intros; apply Hgh; [by right|done]|done]).
  destruct (f x) as [y|] eqn:Hf; [|done]. simpl. constructor; [|done].
  intros (y' & Hy & (x' & Hin & Hf')%list_elem_of_omap)%list_elem_of_fmap. apply Hx.
  rewrite <-(Hgh x y) by (done || left). rewrite Hy, (Hgh x' y') by (done || by right). by apply list_elem_of_fmap_2.
Qed.

Lemma buildSnapshot_proper rs1 rs2 :
  rs1 ≡ₚ rs2 → Forall port_ok rs1 → NoDup (ec_Name <$> (pr_Cluster <$> rs1)) → buildSnapshot rs1 = buildSnapshot rs2.
Proof.
  intros Hp Hok Hnd. rewrite Forall_forall in Hok. unfold buildSnapshot. f_equal.
  - apply sortResources_proper; [by rewrite Hp|done].
  - f_equal. apply sortResources_proper; [by rewrite Hp|].
    apply (NoDup_fmap_omap (λ r, ec_Name (pr_Cluster r))); [|by rewrite <-list_fmap_compose in Hnd].
    intros r l Hin Hl. by apply (Hok r Hin).
  - apply sortResources_proper; [by rewrite Hp|]. rewrite <-list_fmap_compose.
    apply (NoDup_fmap_fmap (λ r, ec_Name (pr_Cluster r))).
    + intros x y [_ Hx]%list_elem_of_filter [_ Hy]%list_elem_of_filter. simpl.
      destruct (Hok x Hx) as (_ & -> & _), (Hok y Hy) as (_ & -> & _). done.
    + rewrite <-list_fmap_compose in Hnd. eapply sublist_NoDup; [exact Hnd|]. apply fmap_sublist, sublist_filter.
Qed.

(** ** Properties *)

Section snapshot_properties.
Context {T : Type} `{!PortLookup T} (pa : T) (limits : HeaderLimits).
Context (getAddresses : string -> string -> result (list EndpointAddress)).
Context (MarshalCluster : EnvoyCluster -> result (list N)) (MarshalListener : EnvoyListener -> result (list N))
  (MarshalEndpoints : ClusterLoadAssignment -> result (list N)) (HashResource : list N -> string).

Abbreviation mapSnapshot :=
  (MapSnapshot pa limits getAddresses MarshalCluster MarshalListener MarshalEndpoints HashResource).

Lemma MapSnapshot_inv lbs routes v s :
  mapSnapshot lbs routes = Ok (v, s) →
  ∃ rs objs, mapResources pa limits getAddresses lbs routes = Ok (rs, objs) ∧ s = buildSnapshot rs ∧
    snapshotVersion MarshalCluster MarshalListener MarshalEndpoints HashResource s = Ok v.
Proof.
  unfold MapSnapshot. destruct (mapResources _ _ _ _ _) as [[rs objs]|]; [simpl|done].
  destruct (snapshotVersion _ _ _ _ _) as [v'|] eqn:Hv; [|done]. intros [= <- <-]. exists rs, objs. done.
Qed.

(** A snapshot Envoy accepts: no two listeners bind one address; every listener forwards to
    a cluster of the snapshot; every EDS cluster has its endpoints in the snapshot, all IP
    addresses, and every endpoints resource belongs to an EDS cluster; every DNS cluster
    carries its endpoints. *)
Record accepted (s : Snapshot) : Prop := {
  accepted_addresses : NoDup (el_Address <$> snap_Listeners s);
  accepted_listener l : l ∈ snap_Listeners s → ∃ c, c ∈ snap_Clusters s ∧ ec_Name c = forward_target (el_Forwarder l);
  accepted_eds c : c ∈ snap_Clusters s → ec_DiscoveryType c = Cluster_EDS →
    ∃ a, a ∈ snap_Endpoints s ∧ cla_ClusterName a = ec_Name c ∧ Forall (λ x, ParseIP x.1 = true) (cla_Endpoints a);
  accepted_endpoints a : a ∈ snap_Endpoints s →
    ∃ c, c ∈ snap_Clusters s ∧ ec_DiscoveryType c = Cluster_EDS ∧ ec_Name c = cla_ClusterName a;
  accepted_dns c : c ∈ snap_Clusters s → ec_DiscoveryType c = Cluster_STRICT_DNS → is_Some (ec_LoadAssignment c);
}.

Lemma buildSnapshot_accepted rs : Forall port_ok rs → accepted (buildSnapshot rs).
Proof.
  rewrite Forall_forall. intros Hm. split; simpl; rewrite ?dedupListeners_loop.
  - apply dedup_loop_NoDup.
  - intros l (r & Hr & Hl)%elem_of_dedup_loop%elem_of_sortResources%list_elem_of_omap. exists (pr_Cluster r). rewrite elem_of_sortResources. split; [by apply list_elem_of_fmap_2|].
    destruct (Hm r Hr) as (Hok & _). by destruct (Hok l Hl) as [_ ->].
  - intros c (r & -> & Hr)%elem_of_sortResources%list_elem_of_fmap Hd. exists (pr_Assignment r).
    rewrite elem_of_sortResources. destruct (Hm r Hr) as (_ & Hn & Hk). rewrite Hd in Hk.
    split_and!; [|done|apply Hk]. apply list_elem_of_fmap_2. by apply list_elem_of_filter.
  - intros a (r & -> & [Hd Hr]%list_elem_of_filter)%elem_of_sortResources%list_elem_of_fmap. exists (pr_Cluster r).
    rewrite elem_of_sortResources. destruct (Hm r Hr) as (_ & -> & _). split_and!; [by apply list_elem_of_fmap_2|done..].
  - intros c (r & -> & Hr)%elem_of_sortResources%list_elem_of_fmap Hd.
    destruct (Hm r Hr) as (_ & _ & Hk). rewrite Hd in Hk. destruct Hk as [_ ->]. eauto.
Qed.

Lemma MapSnapshot_accepted lbs routes v s : mapSnapshot lbs routes = Ok (v, s) → accepted s.
Proof. intros (rs & objs & Hm & -> & _)%MapSnapshot_inv. by eapply buildSnapshot_accepted, mapResources_ok. Qed.

(** Some listener of the snapshot binds the address of every port of every load balancer. *)
Lemma MapSnapshot_listens lbs routes v s lb i e p l : mapSnapshot lbs routes = Ok (v, s) →
  lb ∈ lbs → lbs_Endpoints (lb_Spec lb) !! i = Some e → p ∈ lbe_Ports e →
  (∀ e', pr_Listener (lbPortResources pa limits lb i e' p) = Some (l e')) →
  ∃ e' y, y ∈ snap_Listeners s ∧ el_Address y = el_Address (l e').
Proof.
  intros (rs & objs & Hm & -> & _)%MapSnapshot_inv Hlb He Hp Hl.
  destruct (mapResources_has _ _ _ _ _ _ _ _ _ _ _ Hm Hlb He Hp) as [e' Hr]. exists e'. simpl. rewrite dedupListeners_loop.
  destruct (dedup_loop_address [] (sortResourcesByName el_Name (omap pr_Listener rs)) (l e')) as [?%elem_of_nil|?]; [|done..].
  rewrite elem_of_sortResources. apply list_elem_of_omap. by exists (lbPortResources pa limits lb i e' p).
Qed.

(** C8: every snapshot the control plane builds is one Envoy accepts. *)
Theorem snapshot_consistent (lbs : list LoadBalancer) (routes : list Route) (v : string) (s : Snapshot) :
  mapSnapshot lbs routes = Ok (v, s) → accepted s.
Proof. apply MapSnapshot_accepted. Qed.

(** C34: the snapshot and its version do not depend on the order in which load balancers
    and routes are listed, as long as resource names are distinct. *)
Theorem snapshot_order_independent (lbs1 lbs2 : list LoadBalancer) (routes1 routes2 : list Route) (v : string)
  (s : Snapshot) :
  coherent getAddresses → lbs1 ≡ₚ lbs2 → routes1 ≡ₚ routes2 →
  mapSnapshot lbs1 routes1 = Ok (v, s) → NoDup (ec_Name <$> snap_Clusters s) →
  mapSnapshot lbs2 routes2 = Ok (v, s).
Proof.
  intros Hc Hl Hr (rs & objs & Hm & -> & Hv)%MapSnapshot_inv Hnd.
  pose proof (mapResources_pure pa limits getAddresses Hc lbs1 routes1) as H1. rewrite Hm in H1. unfold agrees in H1.
  destruct (pureResources _ _ _ lbs1 routes1) as [rs'|] eqn:Hp; [|done]. simpl in H1. subst rs'.
  destruct (pureResources_perm _ _ _ _ _ _ _ _ Hl Hr Hp) as (rs2 & Hp2 & Hperm).
  pose proof (mapResources_pure pa limits getAddresses Hc lbs2 routes2) as H2. rewrite Hp2 in H2. unfold agrees in H2.
  unfold MapSnapshot. destruct (mapResources _ _ _ lbs2 routes2) as [[rs2' objs2]|]; [|done]. simpl in H2 |- *. subst rs2'.
  rewrite <-(buildSnapshot_proper rs rs2 Hperm); [by rewrite Hv|by eapply mapResources_ok|].
  simpl in Hnd. by rewrite sortResources_perm in Hnd.
Qed.
End snapshot_properties.

(** no listener is dropped by a consistent port allocator: if every port of the
    snapshot is allocated and no two are looked up by one key, then the snapshot has all
    the listeners that were built. *)
Theorem no_listener_dropped {T : Type} `{!PortLookup T} (pa : T) (limits : HeaderLimits)
  (getAddresses : string -> string -> result (list EndpointAddress)) (lbs : list LoadBalancer) (routes : list Route)
  (rs : list PortResources) (objs : list LoadBalancer * list Route) :
  ConsistentLookup pa →
  mapResources pa limits getAddresses lbs routes = Ok (rs, objs) →
  Forall (λ r, (port_lookup pa (pr_Lookup r).1 (pr_Lookup r).2).2 = true) rs →
  NoDup (pr_Lookup <$> rs) →
  snap_Listeners (buildSnapshot rs) ≡ₚ omap pr_Listener rs.
Proof.
  intros Hc Hm Hs Hnd. simpl. rewrite dedupListeners_loop, dedup_loop_id.
  - apply sortResources_perm.
  - rewrite sortResources_perm. eapply (listeners_distinct pa); try done. by eapply mapResources_from.
  - intros x _ ?%elem_of_nil. done.
Qed.

(** ** Witnesses *)

Definition sampleAddresses (ns name : string) : result (list EndpointAddress) :=
  Ok [{| ea_IP := "10.0.0.1"; ea_Hostname := "" |}].

Definition sampleMarshal {A} (_ : A) : result (list N) := Ok [].

Abbreviation sampleSnapshot pa :=
  (MapSnapshot pa (ResolveHeaderLimits None) sampleAddresses sampleMarshal sampleMarshal sampleMarshal (λ _, "v1")).

Lemma snapshot_consistent_witness :
  ∃ s, sampleSnapshot NewPortAllocator [sampleLB] [sampleRoute "r1" "ns1"] = Ok ("v1", s) ∧
    length (snap_Listeners s) = 2 ∧ NoDup (el_Address <$> snap_Listeners s).
Proof.
  eexists. split; [vm_compute; reflexivity|]. split; [vm_compute; reflexivity|].
  apply (snapshot_consistent NewPortAllocator (ResolveHeaderLimits None) sampleAddresses sampleMarshal sampleMarshal
    sampleMarshal (λ _, "v1") [sampleLB] [sampleRoute "r1" "ns1"] "v1").
  vm_compute. reflexivity.
Defined.

Lemma snapshot_order_independent_witness :
  sampleSnapshot NewPortAllocator [sampleLB] [sampleRoute "r1" "ns1"; sampleRoute "r2" "ns2"] =
  sampleSnapshot NewPortAllocator [sampleLB] [sampleRoute "r2" "ns2"; sampleRoute "r1" "ns1"].
Proof.
  destruct (sampleSnapshot NewPortAllocator [sampleLB] [sampleRoute "r1" "ns1"; sampleRoute "r2" "ns2"])
    as [[v s]|] eqn:Hs; [|by vm_compute in Hs].
  symmetry.
  apply (snapshot_order_independent NewPortAllocator (ResolveHeaderLimits None) sampleAddresses sampleMarshal sampleMarshal
    sampleMarshal (λ _, "v1") [sampleLB] [sampleLB]
    [sampleRoute "r1" "ns1"; sampleRoute "r2" "ns2"] [sampleRoute "r2" "ns2"; sampleRoute "r1" "ns1"] v s).
  - intros ns1 n1 ns2 n2 _. reflexivity.
  - reflexivity.
  - apply Permutation_swap.
  - exact Hs.
  - vm_compute in Hs. injection Hs as <- <-. apply (bool_decide_unpack _). by vm_compute.
Defined.

Lemma no_listener_dropped_witness :
  ∃ rs objs, mapResources sampleAllocator (ResolveHeaderLimits None) sampleAddresses [sampleLB] [] = Ok (rs, objs) ∧
    (λ l, sa_Port (el_Address l)) <$> snap_Listeners (buildSnapshot rs) = [10042%Z] ∧
    snap_Listeners (buildSnapshot rs) ≡ₚ omap pr_Listener rs.
Proof.
  destruct (mapResources sampleAllocator (ResolveHeaderLimits None) sampleAddresses [sampleLB] []) as [[rs objs]|] eqn:Hm;
    [|by vm_compute in Hm].
  exists rs, objs. split; [reflexivity|]. split; [vm_compute in Hm; by injection Hm as <- _|].
  apply (no_listener_dropped sampleAllocator (ResolveHeaderLimits None) sampleAddresses [sampleLB] [] rs objs).
  - apply sampleAllocator_consistent.
  - exact Hm.
  - vm_compute in Hm. injection Hm as <- _. apply Forall_singleton. vm_compute. reflexivity.
  - vm_compute in Hm. injection Hm as <- _. apply (bool_decide_unpack _). by vm_compute.
Defined.

(** ** What the model shows *)

(** The cache of addresses is keyed by namespace and name joined with [-address-], so two
    references can share a key, and the second then gets the addresses of the first. *)
Example address_cache_key_ambiguous :
  endpointAddressReference "a" "b-address-c" = endpointAddressReference "a-address-b" "c" ∧
  ("a", "b-address-c") ≠ ("a-address-b", "c").
Proof. by vm_compute. Qed.

(** An HTTPS backend gets a TCP listener, so that TLS reaches it untouched. *)
Example tls_backend_passthrough :
  let ingress protocol :=
    {| rt_Meta := sampleMeta "tenant-a" "r1"; rt_Endpoints := [];
       rt_Source := Some {| ks_Route := {| u_APIVersion := "networking.k8s.io/v1"; u_Kind := "Ingress"; u_Spec := "";
                                           u_Meta := objectMeta "web" "apps" ""
                                             None (Some {[ "nginx.ingress.kubernetes.io/backend-protocol" := protocol ]}) |};
                            ks_Services := [] |};
       rt_Status := emptyRouteStatus |} in
  useHTTPListener (ingress "HTTP") = true ∧ useHTTPListener (ingress "https") = false.
Proof. by vm_compute. Qed.
