(* ===== verification/EnvoyBootstrap.v ===== *)
(** * The bootstrap configuration of the Envoy proxies

    [internal/envoy/bootstrap.go] and the [Server] of [server.go]: the static listeners and
    clusters a proxy starts with, before it hears from the control plane. Protobuf messages
    are records; wrapping one in an [Any] keeps it as it is. *)

From Stdlib Require Import Ascii.
From S2P Require Import Prelude GoStrings Api PortAllocator EnvoyResource.
Local Open Scope go_scope.

Definition controlPlaneAddress : string := "envoycp.kubelb.svc".
Definition adminClusterName : string := "admin_cluster".
Definition EnvoyAdminPort : Z := 9001.
Definition EnvoyStatsPort : Z := 19001.
Definition EnvoyReadinessPort : Z := 19003.
Definition EnvoyReadinessPath : string := "/ready".
Definition EnvoyHealthCheckPort : Z := 19004.
Definition EnvoyHealthCheckPath : string := "/healthz".
Definition ShutdownManagerPort : Z := 19002.
Definition ShutdownManagerHealthCheckPath : string := "/healthz".
Definition ShutdownManagerReadyPath : string := "/shutdown/ready".
Definition DefaultEnvoyDrainTimeout : Z := 60.
Definition DefaultEnvoyTerminationGracePeriod : Z := 300.
Definition DefaultShutdownManagerImage : string := "docker.io/envoyproxy/gateway:v1.3.0".

Definition fixedHeapMonitorName : string := "envoy.resource_monitors.fixed_heap".
Definition downstreamConnectionsMonitorName : string := "envoy.resource_monitors.global_downstream_max_connections".
Definition shrinkHeapAction : string := "envoy.overload_actions.shrink_heap".
Definition stopAcceptingRequestsAction : string := "envoy.overload_actions.stop_accepting_requests".
(** Thresholds in hundredths *)
Definition heapShrinkThreshold : Z := 95.
Definition heapStopRequestsThreshold : Z := 98.

(** The initial value of the variable [EnvoyAdminListenerAddress] *)
Definition EnvoyAdminListenerAddress : string := "127.0.0.1".

(** ** Messages *)

Inductive PathSpecifier := RouteMatch_Path (path : string) | RouteMatch_Prefix (prefix : string).
Inductive RouteAction := Route_Cluster (name : string) | Route_DirectResponse (status : Z).

(** A header that must have exactly a value: name and value *)
Record VirtualRoute := { vr_Path : PathSpecifier; vr_Headers : list (string * string); vr_Action : RouteAction }.

Inductive HttpFilter :=
| RouterFilter
| HealthCheckFilter (passThroughMode : bool) (headers : list (string * string)).

Record HttpConnectionManager := {
  hcm_StatPrefix : string;
  hcm_HttpFilters : list HttpFilter;
  hcm_RouteConfig : string;
  hcm_VirtualHost : string;
  hcm_Domains : list string;
  hcm_Routes : list VirtualRoute;
}.

Record StaticListener := {
  sl_Name : string;
  sl_Address : SocketAddress;
  sl_Manager : HttpConnectionManager;
}.

(** Intervals in seconds *)
Record CircuitBreaker := {
  cbk_Priority : string;
  cbk_MaxConnections : Z;
  cbk_MaxPendingRequests : Z;
  cbk_MaxRequests : Z;
  cbk_MaxRetries : Z;
  cbk_TrackRemaining : bool;
}.

Inductive StaticDiscoveryType := Static_STRICT_DNS | Static_STATIC.

(** [scl_Http2Keepalive]: interval and timeout of HTTP/2 pings; [scl_TcpKeepalive]: interval,
    probes and idle time *)
Record StaticCluster := {
  scl_Name : string;
  scl_ConnectTimeout : Z;
  scl_Type : StaticDiscoveryType;
  scl_LbPolicy : LbPolicy;
  scl_Endpoint : string * Z;
  scl_Http2Keepalive : option (Z * Z);
  scl_TcpKeepalive : option (Z * Z * Z);
  scl_CircuitBreakers : list CircuitBreaker;
}.

Inductive ResourceMonitor := FixedHeap (maxHeapSizeBytes : Z) | DownstreamConnections (maxActive : Z).
Definition monitorName (m : ResourceMonitor) : string :=
  match m with FixedHeap _ => fixedHeapMonitorName | DownstreamConnections _ => downstreamConnectionsMonitorName end.

Record Trigger := { tr_Name : string; tr_Threshold : Z }.
Record OverloadAction := { oa_Name : string; oa_Triggers : list Trigger }.
Record OverloadManager := {
  om_RefreshMilliseconds : Z;
  om_ResourceMonitors : list ResourceMonitor;
  om_Actions : list OverloadAction;
}.

(** LDS and CDS come from the gRPC service of a cluster. *)
Record Bootstrap := {
  bs_LdsCluster : string;
  bs_CdsCluster : string;
  bs_Listeners : list StaticListener;
  bs_Clusters : list StaticCluster;
  bs_Admin : SocketAddress;
  bs_OverloadManager : option OverloadManager;
}.

(** ** Construction *)

Definition tcpAddress (address : string) (port : Z) : SocketAddress :=
  {| sa_Protocol := SocketTCP; sa_Address := address; sa_Port := port |}.

(** A listener that forwards one path to the admin interface *)
Definition adminListener (name statPrefix virtualHost path : string) (port : Z) : StaticListener :=
  {| sl_Name := name; sl_Address := tcpAddress wildcardBindAddress port;
     sl_Manager :=
       {| hcm_StatPrefix := statPrefix; hcm_HttpFilters := [RouterFilter]; hcm_RouteConfig := "local_route";
          hcm_VirtualHost := virtualHost; hcm_Domains := ["*"];
          hcm_Routes := [{| vr_Path := RouteMatch_Path path; vr_Headers := [(":method", "GET")];
                            vr_Action := Route_Cluster adminClusterName |}] |} |}.

Definition getReadinessProbeListener : StaticListener :=
  adminListener "probe_listener" "stats_probe" "probe_service" "/ready" EnvoyReadinessPort.

Definition getStatsListener : StaticListener :=
  adminListener "stats_listener" "stats_http" "stats_service" "/stats/prometheus" EnvoyStatsPort.

Definition getHealthCheckListener : StaticListener :=
  {| sl_Name := "health_check_listener"; sl_Address := tcpAddress wildcardBindAddress EnvoyHealthCheckPort;
     sl_Manager :=
       {| hcm_StatPrefix := "health_check";
          hcm_HttpFilters := [HealthCheckFilter false [(":path", EnvoyHealthCheckPath)]; RouterFilter];
          hcm_RouteConfig := "local_health_check"; hcm_VirtualHost := "health_check_service"; hcm_Domains := ["*"];
          hcm_Routes := [{| vr_Path := RouteMatch_Prefix "/"; vr_Headers := [];
                            vr_Action := Route_DirectResponse 404 |}] |} |}.

Definition newThresholdTrigger (monitor : string) (threshold : Z) : Trigger :=
  {| tr_Name := monitor; tr_Threshold := threshold |}.

Definition buildOverloadManager (cfg : EnvoyProxyOverloadManager) : OverloadManager :=
  let heap := (0 <? ovm_MaxHeapSizeBytes cfg)%Z in
  {| om_RefreshMilliseconds := 250;
     om_ResourceMonitors :=
       (if heap then [FixedHeap (ovm_MaxHeapSizeBytes cfg)] else []) ++
       (if (0 <? ovm_MaxActiveDownstreamConnections cfg)%Z
        then [DownstreamConnections (ovm_MaxActiveDownstreamConnections cfg)] else []);
     om_Actions :=
       if heap then
         [{| oa_Name := shrinkHeapAction; oa_Triggers := [newThresholdTrigger fixedHeapMonitorName heapShrinkThreshold] |};
          {| oa_Name := stopAcceptingRequestsAction;
             oa_Triggers := [newThresholdTrigger fixedHeapMonitorName heapStopRequestsThreshold] |}]
       else [] |}.

Definition circuitBreaker (priority : string) : CircuitBreaker :=
  {| cbk_Priority := priority; cbk_MaxConnections := 100000; cbk_MaxPendingRequests := 100000;
     cbk_MaxRequests := 60000000; cbk_MaxRetries := 50; cbk_TrackRemaining := true |}.

(** The fields of [Server] that the bootstrap reads *)
Record Server := { srv_listenAddress : string; srv_listenPort : Z; srv_enableAdmin : bool }.

Definition xdsCluster (s : Server) : StaticCluster :=
  {| scl_Name := xdsClusterName; scl_ConnectTimeout := 5; scl_Type := Static_STRICT_DNS; scl_LbPolicy := Cluster_ROUND_ROBIN;
     scl_Endpoint := (controlPlaneAddress, srv_listenPort s); scl_Http2Keepalive := Some (30, 5)%Z;
     scl_TcpKeepalive := Some (5, 3, 30)%Z; scl_CircuitBreakers := [circuitBreaker "HIGH"; circuitBreaker "DEFAULT"] |}.

Definition adminCluster (address : string) : StaticCluster :=
  {| scl_Name := adminClusterName; scl_ConnectTimeout := 1; scl_Type := Static_STATIC; scl_LbPolicy := Cluster_ROUND_ROBIN;
     scl_Endpoint := (address, EnvoyAdminPort); scl_Http2Keepalive := None; scl_TcpKeepalive := None;
     scl_CircuitBreakers := [] |}.

Definition overloadManagerOf (config : Config) : option OverloadManager :=
  match ep_OverloadManager (cf_EnvoyProxy config) with
  | Some cfg => if ovm_Enabled cfg then Some (buildOverloadManager cfg) else None
  | None => None
  end.

(** The message, with the value the variable [EnvoyAdminListenerAddress] has *)
Definition bootstrap (s : Server) (adminAddress : string) (config : Config) : Bootstrap :=
  {| bs_LdsCluster := xdsClusterName; bs_CdsCluster := xdsClusterName;
     bs_Listeners := [getReadinessProbeListener; getHealthCheckListener; getStatsListener];
     bs_Clusters := [xdsCluster s; adminCluster adminAddress];
     bs_Admin := tcpAddress adminAddress EnvoyAdminPort;
     bs_OverloadManager := overloadManagerOf config |}.

(** [protojson.Marshal]; the program panics on an error. *)
Section generate.
Context (protojson : Bootstrap -> option string).

(** The text, and the variable [EnvoyAdminListenerAddress] after the call *)
Definition GenerateBootstrap (s : Server) (adminAddress : string) (config : Config) : option string * string :=
  let adminAddress := if srv_enableAdmin s then wildcardBindAddress else adminAddress in
  (protojson (bootstrap s adminAddress config), adminAddress).
End generate.

(** ** [NewServer] *)

(** [strconv.ParseUint(s, 10, 32)] *)
Definition ParseUint32 (s : string) : option Z :=
  if bool_decide (s = "") then None
  else match parse_digits s 0 with
       | Some n => if (n <=? 2 ^ 32 - 1)%Z then Some n else None
       | None => None
       end.

(** [None] is the panic of an address without a colon. *)
Definition NewServer (listenAddress : string) (enableAdmin : bool) : option (result Server) :=
  match Split listenAddress ":" !! 1 with
  | None => None
  | Some portString =>
      Some match ParseUint32 portString with
           | None => Err ("strconv.ParseUint: parsing " ⊕ Quote portString)
           | Some port => Ok {| srv_listenAddress := listenAddress; srv_listenPort := port; srv_enableAdmin := enableAdmin |}
           end
  end.

(** ** What a listener answers *)

Definition matchesPath (p : PathSpecifier) (path : string) : bool :=
  match p with RouteMatch_Path q => bool_decide (q = path) | RouteMatch_Prefix q => HasPrefix path q end.

(** A GET of [path] reaches the admin interface or is answered by the health check filter. *)
Definition answersGet (l : StaticListener) (path : string) : bool :=
  let h := sl_Manager l in
  existsb (λ f, match f with
                | HealthCheckFilter _ headers => bool_decide (headers = [(":path", path)])
                | RouterFilter => false
                end) (hcm_HttpFilters h) ||
  match List.find (λ r, matchesPath (vr_Path r) path) (hcm_Routes h) with
  | Some r => match vr_Action r with Route_Cluster c => bool_decide (c = adminClusterName) | Route_DirectResponse s => bool_decide (s = 200%Z) end
  | None => false
  end.

(** The admin interface leaves the pod only when the server was told to open it. *)
Lemma bootstrap_admin_local (protojson : Bootstrap -> option string) (s : Server) (config : Config) :
  (GenerateBootstrap protojson s EnvoyAdminListenerAddress config).2
  = if srv_enableAdmin s then wildcardBindAddress else EnvoyAdminListenerAddress.
Proof. done. Qed.

(** The variable has its final value after the first call. *)
Lemma GenerateBootstrap_again (protojson : Bootstrap -> option string) (s : Server) (a : string) (config : Config) :
  GenerateBootstrap protojson s (GenerateBootstrap protojson s a config).2 config = GenerateBootstrap protojson s a config.
Proof. unfold GenerateBootstrap. simpl. by destruct (srv_enableAdmin s). Qed.

(** The ports of the static listeners lie in the range of the port allocator: a load
    balancer can be given the port of the readiness listener, and its listener then binds
    the same address. *)
Example allocator_takes_readiness_port :
  match AllocatePorts [9003]%Z NewPortAllocator "tenant-a-uid-1-ep-0" ["30080-TCP"] with
  | Some (pa, _, _) =>
      Lookup pa "tenant-a-uid-1-ep-0" "30080-TCP" = (EnvoyReadinessPort, true) ∧
      el_Address (makeTCPListener "key" "key" EnvoyReadinessPort None) = sl_Address getReadinessProbeListener
  | None => False
  end.
Proof. vm_compute. split; reflexivity. Qed.

(** An IPv6 listen address is refused, one without a port panics. *)
Example new_server_ipv6 : NewServer "[::]:8001" false = Some (Err ("strconv.ParseUint: parsing " ⊕ Quote "")).
Proof. reflexivity. Qed.
Example new_server_no_port : NewServer "localhost" false = None.
Proof. reflexivity. Qed.
