(* ===== verification/Manager.v ===== *)
(** * The manager's state and what its controllers share

    [internal/controllers/kubelb/shared.go], [internal/config/config.go],
    [internal/controllers/utils.go], and the event predicates of
    [internal/util/predicate/predicate.go].

    The manager keeps a port allocator and a snapshot cache in memory and everything else
    in the management cluster. Its controllers are programs over [Manager]. *)

From S2P Require Import Prelude GoStrings Api GatewayApi Names PortAllocator Annotations Kube Services EnvoyResource.
Local Open Scope go_scope.

Definition CleanupFinalizer : string := "kubelb.k8c.io/cleanup".

(** [mg_draws] are the random numbers the allocator draws; [mg_cache] maps a node to the
    version and the contents of its snapshot. *)
Record Manager := {
  mg_cluster : Cluster;
  mg_alloc : PortAllocator;
  mg_draws : list Z;
  mg_cache : gmap string (string * Snapshot);
}.

Definition client : Lens Manager Cluster :=
  {| view := mg_cluster; over c s := {| s with mg_cluster := c |} |}.
#[export] Instance client_laws : LensLaws client.
Proof. split; intros; simpl; try done; by destruct s. Qed.

Definition kube {A} (m : M Cluster A) : M Manager A := zoom client m.

(** A call that allocates: it does not return when it runs out of draws. *)
Definition allocating (f : list Z -> PortAllocator -> option (PortAllocator * list Z)) : M Manager unit := λ s,
  match f (mg_draws s) (mg_alloc s) with
  | Some (pa, draws) => (Ret tt, {| s with mg_alloc := pa; mg_draws := draws |})
  | None => (Diverge, s)
  end.
Definition deallocating (f : PortAllocator -> PortAllocator) : M Manager unit :=
  modify (λ s, {| s with mg_alloc := f (mg_alloc s) |}).

(** [ctrl.Result] *)
Inductive Result := Done | Requeue | RequeueAfter (seconds : Z).

(** ** [config.go] and [shared.go] *)

Definition DefaultConfigResourceName : string := "default".

Definition zeroAnnotationSettings : AnnotationSettings :=
  {| as_PropagatedAnnotations := None; as_PropagateAllAnnotations := None; as_DeniedAnnotations := None;
     as_DefaultAnnotations := None |}.

Definition DefaultConfig : Config :=
  {| cf_Meta := objectMeta "" "" "" None None;
     cf_Annotations := zeroAnnotationSettings;
     cf_EnvoyProxy :=
       {| ep_Topology := EnvoyProxyTopologyShared; ep_UseDaemonset := false; ep_Replicas := 3;
          ep_SinglePodPerNode := false; ep_NodeSelector := None; ep_Tolerations := []; ep_Resources := None;
          ep_Affinity := None; ep_GracefulShutdown := None; ep_OverloadManager := None; ep_PodMonitor := None;
          ep_HeaderLimits := None |};
     cf_LoadBalancer := {| cls_Class := None; cls_Disable := false |};
     cf_Ingress := {| cls_Class := None; cls_Disable := false |};
     cf_GatewayAPI := {| gas_Class := None; gas_DefaultGateway := None; gas_Disable := false |};
     cf_DNS := {| cdns_WildcardDomain := ""; cdns_AllowExplicitHostnames := false; cdns_UseDNSAnnotations := false;
                  cdns_UseCertificateAnnotations := false |};
     cf_Certificates := {| cert_DefaultClusterIssuer := None |}; cf_Version := emptyVersion |}.

(** A Tenant is cluster-scoped. *)
Definition GetTenant (tenantName : string) : M Cluster Tenant := Get Tenant ("", tenantName).

Definition GetConfig (configNamespace : string) : M Cluster Config :=
  found ← GetIfExists Config (configNamespace, DefaultConfigResourceName);
  mret (default DefaultConfig found).

Definition GetTenantAndConfig (configNamespace tenantName : string) : M Cluster (Tenant * Config) :=
  tenant ← GetTenant tenantName;
  config ← GetConfig configNamespace;
  mret (tenant, config).

(** ** Tenant namespaces *)

Definition tenantNamespacePattern (name : string) : string := "tenant-" ⊕ name.
Definition RemoveTenantPrefix (namespace : string) : string :=
  if HasPrefix namespace "tenant-" then TrimPrefix namespace "tenant-" else namespace.

(** ** Events *)

Inductive Event :=
| CreateEvent (o : Object)
| UpdateEvent (oldObj newObj : Object)
| DeleteEvent (o : Object)
| GenericEvent (o : Object).

(** [workqueueFilter]: a generic event passes. *)
Definition workqueueFilter (filter : Object -> M Cluster bool) (e : Event) : M Cluster bool :=
  match e with
  | CreateEvent o | DeleteEvent o => filter o
  | UpdateEvent oldObj newObj => r ← filter oldObj; if (r : bool) then mret true else filter newObj
  | GenericEvent _ => mret true
  end.

Definition ByLabelExistsOnNamespace : Event -> M Cluster bool :=
  workqueueFilter (λ o,
    r ← try (Get Namespace ("", om_Namespace (metaOf o)));
    mret match r with
         | inr _ => false
         | inl ns => bool_decide (get (om_Labels (ns_Meta ns)) LabelManagedBy = LabelControllerName)
         end).

(** *** [predicate.go] *)

(** [Factory]: a filter on the object, on either side of an update; generic events pass. *)
Definition Factory (filter : Object -> bool) (e : Event) : bool :=
  match e with
  | CreateEvent o | DeleteEvent o => filter o
  | UpdateEvent oldObj newObj => filter oldObj || filter newObj
  | GenericEvent _ => true
  end.

Definition MultiFactory (createFilter updateFilter deleteFilter : Object -> bool) (e : Event) : bool :=
  match e with
  | CreateEvent o => createFilter o
  | UpdateEvent oldObj newObj => updateFilter oldObj || updateFilter newObj
  | DeleteEvent o => deleteFilter o
  | GenericEvent _ => true
  end.

Definition ByNamespace (namespace : string) : Event -> bool :=
  Factory (λ o, bool_decide (om_Namespace (metaOf o) = namespace)).

Definition ByName (names : list string) : Event -> bool := Factory (λ o, bool_decide (om_Name (metaOf o) ∈ names)).

Definition ByLabel (key value : string) : Event -> bool :=
  Factory (λ o, bool_decide (entries (om_Labels (metaOf o)) !! key = Some value)).

Definition ByLabelExists (key : string) : Event -> bool :=
  Factory (λ o, bool_decide (is_Some (entries (om_Labels (metaOf o)) !! key))).

Definition ByAnnotation (key value : string) (checkValue : bool) : Event -> bool :=
  Factory (λ o, match entries (om_Annotations (metaOf o)) !! key with
                | Some existingValue => negb checkValue || bool_decide (existingValue = value)
                | None => false
                end).

Definition TrueFilter (_ : Object) : bool := true.

(** ** Lemmas *)

(** The tenant of a tenant namespace *)
Lemma RemoveTenantPrefix_pattern name : RemoveTenantPrefix (tenantNamespacePattern name) = name.
Proof. unfold RemoveTenantPrefix, tenantNamespacePattern. by rewrite HasPrefix_app, TrimPrefix_app. Qed.

(** How a program of the manager may change its state: the cluster at the keys in [K], the
    allocator by its own operations, the cache not at all. *)
Record manages (K : ObjectKey -> Prop) (s s' : Manager) : Prop := {
  manages_cluster : changes K (mg_cluster s) (mg_cluster s');
  manages_alloc : valid_draws (mg_draws s) → rtc step (mg_alloc s) (mg_alloc s') ∧ valid_draws (mg_draws s');
  manages_cache : mg_cache s' = mg_cache s;
}.

#[export] Instance manages_preorder K : PreOrder (manages K).
Proof.
  split.
  - intros s. split; [reflexivity|by split|done].
  - intros s1 s2 s3 [C1 A1 E1] [C2 A2 E2]. split; [by etrans| |by etrans]. intros Hv.
    destruct (A1 Hv) as [R1 V1]. destruct (A2 V1) as [R2 V2]. split; [by etrans|done].
Qed.

Lemma within_kube {A} K (m : M Cluster A) : within (changes K) m → within (manages K) (kube m).
Proof. apply within_zoom. intros s c Hc. split; [done|by split|done]. Qed.

Lemma within_deallocating K f : (∀ pa, rtc step pa (f pa)) → within (manages K) (deallocating f).
Proof. intros Hf. apply within_modify. intros s. split; [reflexivity|by split|done]. Qed.

Lemma within_allocating K f :
  (∀ draws pa pa' draws', valid_draws draws → f draws pa = Some (pa', draws') → rtc step pa pa' ∧ valid_draws draws') →
  within (manages K) (allocating f).
Proof.
  intros Hf s. unfold allocating. destruct (f (mg_draws s) (mg_alloc s)) as [[pa draws]|] eqn:He; [|reflexivity].
  split; [reflexivity| |done]. intros Hv. by apply (Hf _ _ _ _ Hv He).
Qed.

Lemma within_allocateAll K calls : within (manages K) (allocating (λ draws pa, allocateAll draws pa (calls pa))).
Proof. apply within_allocating. intros. by eapply allocateAll_steps. Qed.

Lemma within_AllocateForLoadBalancers K lbs :
  within (manages K) (allocating (λ draws pa, AllocatePortsForLoadBalancers draws pa lbs)).
Proof. apply (within_allocateAll K (λ _, _)). Qed.

Lemma within_AllocateForRoutes K routes :
  within (manages K) (allocating (λ draws pa, AllocatePortsForRoutes draws pa routes)).
Proof. apply (within_allocateAll K (λ _, _)). Qed.

Lemma within_DeallocateForLoadBalancer K lb :
  within (manages K) (deallocating (λ pa, DeallocatePortsForLoadBalancer pa lb)).
Proof. apply within_deallocating. intros pa. apply rtc_once, step_DeallocateEndpoints. Qed.

Lemma within_DeallocateForRoute K route :
  within (manages K) (deallocating (λ pa, DeallocatePortsForRoute pa route)).
Proof.
  apply within_deallocating. intros pa. unfold DeallocatePortsForRoute. destruct (rt_Source route); [|done].
  apply rtc_once, step_DeallocateEndpoints.
Qed.

Lemma manages_weaken (K K' : ObjectKey -> Prop) s s' : (∀ k, K k → K' k) → manages K s s' → manages K' s s'.
Proof. intros HK [C A E]. split; [by eapply changes_weaken|done|done]. Qed.

#[export] Hint Resolve within_kube within_AllocateForLoadBalancers within_AllocateForRoutes
  within_DeallocateForLoadBalancer within_DeallocateForRoute : kube.

Lemma within_GetTenant K name : within (changes K) (GetTenant name).
Proof. unfold GetTenant. apply within_Get. Qed.
Lemma within_GetConfig K ns : within (changes K) (GetConfig ns).
Proof. unfold GetConfig. within_solve. Qed.
#[export] Hint Resolve within_GetTenant within_GetConfig : kube.
Lemma within_GetTenantAndConfig K ns name : within (changes K) (GetTenantAndConfig ns name).
Proof. unfold GetTenantAndConfig. within_solve. Qed.
#[export] Hint Resolve within_GetTenantAndConfig : kube.

(** Reading the tenant and the config when the calls go through *)
Lemma GetTenantAndConfig_eval c ns name tenant : cl_faults c = [] → findObject Tenant c ("", name) = Some tenant →
  GetTenantAndConfig ns name c =
    (Ret (tenant, default DefaultConfig (findObject Config c (ns, DefaultConfigResourceName))), c).
Proof.
  intros Hno Ht. unfold GetTenantAndConfig, GetTenant, GetConfig.
  erewrite bind_eval by (rewrite (Get_eval c Hno), Ht; reflexivity).
  erewrite bind_eval; [|erewrite bind_eval by apply (GetIfExists_eval c Hno); reflexivity]. done.
Qed.

Lemma kube_eval {A} (m : M Cluster A) s r c : m (mg_cluster s) = (r, c) → kube m s = (r, {| s with mg_cluster := c |}).
Proof. apply (zoom_eval client). Qed.

(** Triples of programs of the manager *)
Lemma triple_kube {A} P (m : M Cluster A) (Q : A -> Cluster -> Prop) E :
  triple P m Q E → triple (λ s, P (mg_cluster s)) (kube m) (λ a s, Q a (mg_cluster s)) (λ s, E (mg_cluster s)).
Proof. exact (triple_zoom client P Q E m). Qed.

Lemma triple_kube_alloc {A} (F : PortAllocator -> Prop) P (m : M Cluster A) (Q : A -> Cluster -> Prop) E :
  triple P m Q E →
  triple (λ s, F (mg_alloc s) ∧ P (mg_cluster s)) (kube m) (λ a s, F (mg_alloc s) ∧ Q a (mg_cluster s)) (λ s, E (mg_cluster s)).
Proof.
  intros Hm s [HF HP]. specialize (Hm _ HP). unfold kube, zoom. simpl. by destruct (m (mg_cluster s)) as [[a|e| |] c].
Qed.

Lemma triple_allocating (P : Cluster -> Prop) f :
  triple (λ s, P (mg_cluster s)) (allocating f) (λ _ s, P (mg_cluster s)) (λ s, P (mg_cluster s)).
Proof. intros s Hs. unfold allocating. by destruct (f (mg_draws s) (mg_alloc s)) as [[]|]. Qed.

(** A call that only reads *)
Lemma kube_read {A} (m : M Cluster A) s r : m (mg_cluster s) = (r, mg_cluster s) → kube m s = (r, s).
Proof. intros Hm. rewrite (kube_eval _ _ _ _ Hm). by destruct s. Qed.

#[export] Hint Extern 1 (yields _ (kube _)) => eapply yields_zoom : yields.

Ltac manages_solve :=
  repeat (within_step || apply within_kube || (progress (simpl; cbv zeta))); eauto with kube.

(** ** A sample manager *)

Definition sampleCluster (objects : list Object) : Cluster :=
  {| cl_objects := list_to_map ((λ x, (keyOf x, x)) <$> objects); cl_faults := []; cl_uid := 0 |}.
Definition sampleManager (objects : list Object) : Manager :=
  {| mg_cluster := sampleCluster objects; mg_alloc := NewPortAllocator; mg_draws := [42; 43]%Z; mg_cache := ∅ |}.

Definition sampleTenant : Tenant :=
  {| tn_Meta := sampleMeta "" "a"; tn_Annotations := zeroAnnotationSettings; tn_EnvoyProxy := None;
     tn_LoadBalancer := {| cls_Class := None; cls_Disable := false |};
     tn_Ingress := {| cls_Class := None; cls_Disable := false |};
     tn_GatewayAPI := {| gas_Class := None; gas_DefaultGateway := None; gas_Disable := false |};
     tn_DNS := {| dns_WildcardDomain := None; dns_AllowExplicitHostnames := None; dns_UseDNSAnnotations := None;
                  dns_UseCertificateAnnotations := None |};
     tn_Certificates := {| cert_DefaultClusterIssuer := None |}; tn_Status := emptyPhaseStatus |}.

(** An object the controllers are to delete *)
Definition sampleDeleted (m : ObjectMeta) : ObjectMeta :=
  {| m with om_Deleting := true; om_Finalizers := [CleanupFinalizer] |}.
