(* ===== verification/LBController.v ===== *)
(** * The LoadBalancer controller

    [internal/controllers/kubelb/loadbalancer_controller.go]: for every LoadBalancer of a
    tenant namespace it allocates ports, keeps a Service that leads to Envoy, optionally a
    hostname with an Ingress or HTTPRoute, writes the status and cleans all of it up. *)

From S2P Require Import Prelude GoStrings Api GatewayApi Names PortAllocator Annotations LoadBalancers.
From S2P Require Import Kube Finalizers Services RouteResources EnvoyResource Manager.
Local Open Scope go_scope.

Definition envoyProxyCleanupFinalizer : string := "kubelb.k8c.io/cleanup-envoy-proxy".
Definition hostnameCleanupFinalizer : string := "kubelb.k8c.io/cleanup-hostname".
(** [fmt.Sprintf("envoy-%s", name)] *)
Definition envoyResourcePattern (name : string) : string := "envoy-" ⊕ name.

(** ** Status *)

(** The endpoint port of the same name and protocol, 0 when there is none *)
Definition upstreamTarget (endpointPorts : list EndpointPort) (svcPort : CoreServicePort) : Z :=
  match List.find (λ p, bool_decide (ep_Name p = sp_Name svcPort) && bool_decide (ep_Protocol p = sp_Protocol svcPort))
          endpointPorts with
  | Some p => ep_Port p
  | None => 0
  end.

Definition buildServicePortStatus (svcPorts : list CoreServicePort) (endpointPorts : list EndpointPort) : list ServicePort :=
  (λ p, {| stp_Core := p; stp_UpstreamTargetPort := upstreamTarget endpointPorts p |}) <$> svcPorts.

Section controller.
(** The namespace of the manager, the checks of a hostname, the random bytes and the clock
    of [GenerateHostname] *)
Context (managerNamespace : string) (checkDNSResolution checkTLSHealth : string -> bool).
Context (random : option (list N)) (now : Z).

Definition desiredStatus (loadBalancer : LoadBalancer) (endpoints : LoadBalancerEndpoints) (service : Service)
  (hostname : string) : LoadBalancerStatus :=
  {| lst_LoadBalancer := svc_Ingress service;
     lst_Service := {| ss_Ports := buildServicePortStatus (svc_Ports service) (lbe_Ports endpoints) |};
     lst_Hostname :=
       if bool_decide (hostname = "") then None
       else
         let hostnameToUse :=
           match lst_Hostname (lb_Status loadBalancer) with
           | Some h => if bool_decide (hs_Hostname h = "") then hostname else hs_Hostname h
           | None => hostname
           end in
         Some {| hs_Hostname := hostnameToUse;
                 hs_TLSEnabled := checkTLSHealth ("https://" ⊕ hostnameToUse);
                 hs_DNSRecordCreated := checkDNSResolution hostnameToUse |} |}.

Definition statusNeedsUpdate (loadBalancer : LoadBalancer) (service : Service) (updated : LoadBalancerStatus) : bool :=
  negb (bool_decide (ss_Ports (lst_Service (lb_Status loadBalancer)) = ss_Ports (lst_Service updated))) ||
  (bool_decide (lbs_Type (lb_Spec loadBalancer) = ServiceTypeLoadBalancer) &&
   negb (bool_decide (lst_LoadBalancer (lb_Status loadBalancer) = svc_Ingress service))) ||
  negb (bool_decide (lst_Hostname (lb_Status loadBalancer) = lst_Hostname updated)).

(** The function that is retried on conflicts *)
Definition patchStatus (key : NamespacedName) (updated : LoadBalancerStatus) : M Cluster unit :=
  lb ← Get LoadBalancer key;
  if bool_decide (lb_Status lb = updated) then mret tt
  else _ ← StatusUpdate {| lb with lb_Status := updated |}; mret tt.

Definition updateLoadBalancerStatus (loadBalancer : LoadBalancer) (service : Service) (hostname : string)
  : M Cluster unit :=
  match lbs_Endpoints (lb_Spec loadBalancer) with
  | [] => mret tt
  | endpoints :: _ =>
      let updated := desiredStatus loadBalancer endpoints service hostname in
      if statusNeedsUpdate loadBalancer service updated
      then RetryOnConflict (patchStatus (objKey loadBalancer) updated)
      else mret tt
  end.

(** ** Service *)

Definition serviceLabels (loadBalancer : LoadBalancer) (appName : string) : StrMap :=
  let m := lb_Meta loadBalancer in
  <[LabelAppKubernetesName := appName]>
  (<[LabelManagedBy := LabelControllerName]>
  (<[LabelLoadBalancerName := om_Name m]>
  (<[LabelLoadBalancerNamespace := om_Namespace m]>
  (<[LabelOriginNamespace := get (om_Labels m) LabelOriginNamespace]>
  (<[LabelOriginName := get (om_Labels m) LabelOriginName]> ∅))))).

Definition zeroService : Service := service (objectMeta "" "" "" None None) [] "" "" "".

(** The Service with these ports and annotations *)
Definition desiredService (loadBalancer : LoadBalancer) (svcName appName namespace : string) (className : option string)
  (ports : list CoreServicePort) (annotations : GoMap) : Service :=
  {| (service (objectMeta svcName namespace "" (Some (serviceLabels loadBalancer appName)) annotations)
        ports (lbs_Type (lb_Spec loadBalancer)) (lbs_ExternalTrafficPolicy (lb_Spec loadBalancer)) "") with
       svc_Selector := Some {[ LabelAppKubernetesName := appName ]};
       svc_LoadBalancerClass := className |}.

Definition serviceDiffers (existingService desired : Service) : bool :=
  negb (bool_decide (svc_Ports existingService = svc_Ports desired)) ||
  negb (mapsEqual (svc_Selector existingService) (svc_Selector desired)) ||
  negb (bool_decide (svc_Type existingService = svc_Type desired)) ||
  negb (bool_decide (svc_ExternalTrafficPolicy existingService = svc_ExternalTrafficPolicy desired)) ||
  negb (bool_decide (svc_LoadBalancerClass existingService = svc_LoadBalancerClass desired)) ||
  negb (mapsEqual (om_Labels (svc_Meta existingService)) (om_Labels (svc_Meta desired))) ||
  negb (CompareAnnotations (om_Annotations (svc_Meta existingService)) (om_Annotations (svc_Meta desired))).

Definition reconcileService (loadBalancer : LoadBalancer) (svcName appName namespace : string) (portAllocator : PortAllocator)
  (className : option string) (annotations : AnnotationSettings) : M Cluster unit :=
  found ← GetIfExists Service (namespace, svcName);
  let existingService := default zeroService found in
  ports ← deref (CreateServicePorts portAllocator loadBalancer existingService);
  let propagated := PropagateAnnotations (om_Annotations (lb_Meta loadBalancer)) annotations AnnotatedResourceService in
  let desired :=
    desiredService loadBalancer svcName appName namespace className ports
      (Some (ReconcileAnnotations (om_Annotations (svc_Meta existingService)) (Some propagated))) in
  match found with
  | None => _ ← wrap "failed to create service" (Create desired); mret tt
  | Some existingService =>
      if serviceDiffers existingService desired then
        _ ← wrap "failed to update service"
              (Update {| desired with svc_Meta :=
                           {| (svc_Meta existingService) with om_Labels := om_Labels (svc_Meta desired);
                                                              om_Annotations := om_Annotations (svc_Meta desired) |};
                         svc_Ingress := svc_Ingress existingService |});
        mret tt
      else mret tt
  end.

(** ** Hostname *)

Definition useGatewayAPI (tenant : Tenant) (config : Config) : bool :=
  negb (gas_Disable (tn_GatewayAPI tenant)) && negb (gas_Disable (cf_GatewayAPI config)) &&
  bool_decide (is_Some (gatewayClass tenant config)).

(** The hostname of the status, of the spec, or a new one *)
Definition chooseHostname (loadBalancer : LoadBalancer) (tenant : Tenant) (config : Config) : string :=
  if bool_decide (lbs_Hostname (lb_Spec loadBalancer) = "")
  then GenerateHostname (tn_DNS tenant) (cf_DNS config) random now else lbs_Hostname (lb_Spec loadBalancer).

(** A new hostname is written to the status before it is used. *)
Definition persistHostname (loadBalancer : LoadBalancer) (tenant : Tenant) (config : Config)
  : M Cluster (string * LoadBalancer) :=
  let current := default "" (hs_Hostname <$> lst_Hostname (lb_Status loadBalancer)) in
  if bool_decide (current = "") then
    let hostname := chooseHostname loadBalancer tenant config in
    if bool_decide (hostname = "") then mret ("", loadBalancer)
    else
      lb ← wrap "failed to update LoadBalancer status"
             (StatusUpdate {| loadBalancer with lb_Status :=
                {| (lb_Status loadBalancer) with lst_Hostname :=
                     Some {| hs_Hostname := hostname; hs_TLSEnabled := false; hs_DNSRecordCreated := false |} |} |});
      mret (hostname, lb)
  else mret (current, loadBalancer).

Definition ensureHostnameFinalizer (loadBalancer : LoadBalancer) : M Cluster LoadBalancer :=
  if ContainsFinalizer (lb_Meta loadBalancer) hostnameCleanupFinalizer then mret loadBalancer
  else wrap "failed to add hostname finalizer"
         (Update {| loadBalancer with lb_Meta := AddFinalizer (lb_Meta loadBalancer) hostnameCleanupFinalizer |}).

(** The hostname, and the load balancer as it is then *)
Definition configureHostname (loadBalancer : LoadBalancer) (svcName : string) (tenant : Tenant) (config : Config)
  (annotations : AnnotationSettings) : M Cluster (string * LoadBalancer) :=
  '(hostname, loadBalancer) ← persistHostname loadBalancer tenant config;
  if bool_decide (hostname = "") then mret ("", loadBalancer)
  else
    loadBalancer ← ensureHostnameFinalizer loadBalancer;
    _ ← (if useGatewayAPI tenant config
         then CreateHTTPRouteForHostname loadBalancer svcName hostname tenant config annotations
         else CreateIngressForHostname loadBalancer svcName hostname tenant config annotations);
    mret (hostname, loadBalancer).

(** ** Cleanup *)

Definition cleanupHostnameResources (lb : LoadBalancer) (namespace : string) : M Cluster unit :=
  _ ← wrap ("failed to delete ingress " ⊕ ingressNameFor lb) (DeleteIgnoreNotFound Ingress (namespace, ingressNameFor lb));
  wrap ("failed to delete httproute " ⊕ httpRouteNameFor lb) (DeleteIgnoreNotFound HTTPRoute (namespace, httpRouteNameFor lb)).

Definition withoutFinalizers (m : ObjectMeta) : ObjectMeta :=
  RemoveFinalizer (RemoveFinalizer (RemoveFinalizer m CleanupFinalizer) envoyProxyCleanupFinalizer) hostnameCleanupFinalizer.

Definition cleanup (lb : LoadBalancer) (resourceNamespace : string) : M Manager unit :=
  _ ← deallocating (λ pa, DeallocatePortsForLoadBalancer pa lb);
  _ ← when (ContainsFinalizer (lb_Meta lb) hostnameCleanupFinalizer) (kube (cleanupHostnameResources lb resourceNamespace));
  let svcName := envoyResourcePattern (om_Name (lb_Meta lb)) in
  _ ← kube (wrap ("failed to delete service " ⊕ svcName ⊕ ": " ⊕ om_Name (lb_Meta lb) ⊕ "/" ⊕ om_Namespace (lb_Meta lb) ⊕
                  " against LoadBalancer")
              (DeleteIgnoreNotFound Service (resourceNamespace, svcName)));
  _ ← kube (wrap "failed to remove finalizer" (Update {| lb with lb_Meta := withoutFinalizers (lb_Meta lb) |}));
  mret tt.

(** ** Reconcile *)

(** Whether to reconcile, and whether load balancing is disabled *)
Definition shouldReconcile (tenant : Tenant) (config : Config) : bool * bool :=
  if cls_Disable (cf_LoadBalancer config) then (false, true)
  else if cls_Disable (tn_LoadBalancer tenant) then (false, true)
  else (true, false).

Definition hasCleanupFinalizer (m : ObjectMeta) : bool :=
  ContainsFinalizer m envoyProxyCleanupFinalizer || ContainsFinalizer m CleanupFinalizer ||
  ContainsFinalizer m hostnameCleanupFinalizer.

(** The class of the tenant, or else of the config *)
Definition loadBalancerClass (tenant : Tenant) (config : Config) : option string :=
  match cls_Class (tn_LoadBalancer tenant) with Some c => Some c | None => cls_Class (cf_LoadBalancer config) end.

Definition ensureFinalizer (loadBalancer : LoadBalancer) : M Cluster LoadBalancer :=
  if ContainsFinalizer (lb_Meta loadBalancer) CleanupFinalizer then mret loadBalancer
  else
    wrap "failed to add finalizer"
      (Update {| loadBalancer with lb_Meta :=
         RemoveFinalizer (AddFinalizer (lb_Meta loadBalancer) CleanupFinalizer) envoyProxyCleanupFinalizer |}).

(** From the allocation of ports to the status *)
Definition reconcileActive (loadBalancer : LoadBalancer) (loadBalancers : list LoadBalancer) (namespace : string)
  (tenant : Tenant) (config : Config) : M Manager unit :=
  let annotations := GetAnnotations (tn_Annotations tenant) (cf_Annotations config) in
  loadBalancer ← kube (ensureFinalizer loadBalancer);
  _ ← allocating (λ draws pa, AllocatePortsForLoadBalancers draws pa loadBalancers);
  let svcName := envoyResourcePattern (om_Name (lb_Meta loadBalancer)) in
  portAllocator ← gets mg_alloc;
  _ ← kube (reconcileService loadBalancer svcName namespace namespace portAllocator (loadBalancerClass tenant config) annotations);
  existingService ← kube (Get Service (namespace, svcName));
  '(hostname, loadBalancer) ←
    (if ShouldConfigureHostname (om_Annotations (lb_Meta loadBalancer)) (lbs_Hostname (lb_Spec loadBalancer))
          (tn_DNS tenant) (cf_DNS config)
     then kube (configureHostname loadBalancer svcName tenant config annotations)
     else mret ("", loadBalancer));
  kube (updateLoadBalancerStatus loadBalancer existingService hostname).

(** A load balancer that cannot be read is not retried, whatever the error. *)
Definition Reconcile (req : NamespacedName) : M Manager unit :=
  r ← kube (try (Get LoadBalancer req));
  match r with
  | inr _ => mret tt
  | inl loadBalancer =>
      if bool_decide (lbs_Endpoints (lb_Spec loadBalancer) = []) then mret tt
      else
        loadBalancers ← kube (List LoadBalancer (Some req.1) ∅);
        if om_Deleting (lb_Meta loadBalancer) then
          when (hasCleanupFinalizer (lb_Meta loadBalancer)) (cleanup loadBalancer req.1)
        else
          '(tenant, config) ← kube (GetTenantAndConfig managerNamespace (RemoveTenantPrefix (om_Namespace (lb_Meta loadBalancer))));
          let '(should, disabled) := shouldReconcile tenant config in
          if ContainsFinalizer (lb_Meta loadBalancer) CleanupFinalizer && disabled then cleanup loadBalancer req.1
          else when should (reconcileActive loadBalancer loadBalancers req.1 tenant config)
  end.
End controller.

(** ** Which load balancers an event concerns *)

Definition enqueueLoadBalancers (o : Object) : list NamespacedName :=
  match om_Labels (metaOf o) with
  | None => []
  | Some labels =>
      match labels !! LabelLoadBalancerName, labels !! LabelLoadBalancerNamespace with
      | Some name, Some namespace => [(namespace, name)]
      | _, _ => []
      end
  end.

Definition enqueueListed (ns : option string) : M Cluster (list NamespacedName) :=
  r ← try (List LoadBalancer ns ∅);
  mret match r with inl lbs => objKey <$> lbs | inr _ => [] end.

Definition enqueueLoadBalancersForConfig : M Cluster (list NamespacedName) := enqueueListed None.
Definition enqueueLoadBalancersForTenant (o : Object) : M Cluster (list NamespacedName) :=
  enqueueListed (Some (tenantNamespacePattern (om_Name (metaOf o)))).

(** A Service of KubeLB, and on updates a change of its status *)
Definition filterServicesPredicate (e : Event) : bool :=
  match e with
  | CreateEvent o | DeleteEvent o => negb (bool_decide (get (om_Labels (metaOf o)) LabelLoadBalancerName = ""))
  | UpdateEvent (OService oldSvc) (OService newSvc) =>
      negb (bool_decide (get (om_Labels (svc_Meta newSvc)) LabelLoadBalancerName = "")) &&
      negb (bool_decide (svc_Ingress newSvc = svc_Ingress oldSvc))
  | UpdateEvent _ _ | GenericEvent _ => false
  end.

(** ** What a reconcile changes *)

(** The load balancer and the objects generated for it *)
Inductive owned (req : NamespacedName) : ObjectKey -> Prop :=
| owned_lb : owned req (storeKey LoadBalancer req)
| owned_service : owned req (storeKey Service (req.1, envoyResourcePattern req.2))
| owned_ingress : owned req (storeKey Ingress (req.1, req.2 ⊕ "-ingress"))
| owned_httproute : owned req (storeKey HTTPRoute (req.1, req.2 ⊕ "-httproute")).
#[export] Hint Constructors owned : kube.

Section reconcile_within.
Context (managerNamespace : string) (checkDNSResolution checkTLSHealth : string -> bool).
Context (random : option (list N)) (now : Z) (req : NamespacedName).
Implicit Types lb : LoadBalancer.

Lemma within_cleanup lb : objKey lb = req → within (manages (owned req)) (cleanup lb req.1).
Proof. intros <-. unfold cleanup, cleanupHostnameResources. manages_solve. Qed.

Lemma within_ensureFinalizer lb : objKey lb = req → within (changes (owned req)) (ensureFinalizer lb).
Proof. intros <-. unfold ensureFinalizer. within_solve. Qed.

(** The load balancer in hand stays the one that was asked for. *)
Lemma yields_ensureFinalizer lb : yields (λ lb', objKey lb' = objKey lb) (ensureFinalizer lb).
Proof.
  unfold ensureFinalizer. destruct (ContainsFinalizer _ _); [by apply yields_ret|].
  apply yields_wrap. intros s lb' s' Hu. by apply yields_Update in Hu.
Qed.

Lemma yields_ensureHostnameFinalizer lb : yields (λ lb', objKey lb' = objKey lb) (ensureHostnameFinalizer lb).
Proof.
  unfold ensureHostnameFinalizer. destruct (ContainsFinalizer _ _); [by apply yields_ret|].
  apply yields_wrap. intros s lb' s' Hu. by apply yields_Update in Hu.
Qed.

Lemma yields_persistHostname lb tenant config :
  yields (λ p, objKey p.2 = objKey lb) (persistHostname random now lb tenant config).
Proof.
  unfold persistHostname. case_bool_decide; [|by apply yields_ret]. case_bool_decide; [by apply yields_ret|].
  eapply yields_bind_yields; [apply yields_wrap, yields_StatusUpdate|]. intros lb' Hk. by apply yields_ret.
Qed.

Lemma yields_configureHostname lb svcName tenant config ann :
  yields (λ p, objKey p.2 = objKey lb) (configureHostname random now lb svcName tenant config ann).
Proof.
  unfold configureHostname. eapply yields_bind_yields; [apply yields_persistHostname|]. intros [h lb1] Hk. simpl in Hk.
  case_bool_decide; [by apply yields_ret|].
  eapply yields_bind_yields; [apply yields_ensureHostnameFinalizer|]. intros lb2 Hk2.
  apply yields_bind. intros _. apply yields_ret. by rewrite <- Hk.
Qed.

Lemma within_reconcileService (K : ObjectKey -> Prop) lb svcName app ns pa cls ann :
  K (storeKey Service (ns, svcName)) → within (changes K) (reconcileService lb svcName app ns pa cls ann).
Proof. intros HK. unfold reconcileService. within_solve. Qed.

Lemma within_configureHostname lb svcName tenant config ann : objKey lb = req →
  within (changes (owned req)) (configureHostname random now lb svcName tenant config ann).
Proof.
  intros Hk. unfold configureHostname.
  eapply within_bind_yields; [apply _|apply yields_persistHostname| |].
  { subst req. unfold persistHostname. within_solve. }
  intros [h lb1] Hk1. simpl in Hk1. case_bool_decide; [apply within_ret, _|].
  eapply within_bind_yields; [apply _|apply yields_ensureHostnameFinalizer| |].
  { unfold ensureHostnameFinalizer. within_solve. }
  intros lb2 Hk2. assert (objKey lb2 = req) as <- by congruence.
  within_step; [|within_step]. destruct (useGatewayAPI tenant config).
  - apply within_CreateHTTPRouteForHostname. constructor.
  - apply within_CreateIngressForHostname. constructor.
Qed.

Lemma within_updateStatus lb service hostname : objKey lb = req →
  within (changes (owned req)) (updateLoadBalancerStatus checkDNSResolution checkTLSHealth lb service hostname).
Proof. intros <-. unfold updateLoadBalancerStatus, patchStatus. within_solve. Qed.
Lemma within_reconcileActive lb lbs tenant config : objKey lb = req →
  within (manages (owned req))
    (reconcileActive checkDNSResolution checkTLSHealth random now lb lbs req.1 tenant config).
Proof.
  intros Hk. unfold reconcileActive.
  eapply within_bind_yields; [apply _|apply yields_zoom, yields_ensureFinalizer|by apply within_kube, within_ensureFinalizer|].
  intros lb1 Hk1. assert (objKey lb1 = req) as Hk1' by congruence.
  within_step; [eauto with kube|]. within_step; [within_step|].
  within_step; [rewrite <- Hk1'; apply within_kube, within_reconcileService; constructor|].
  within_step; [eauto with kube|].
  eapply (within_bind_yields _ (λ p, objKey p.2 = req)).
  - destruct (ShouldConfigureHostname _ _ _ _); [|by apply yields_ret].
    rewrite <- Hk1'. apply yields_zoom, yields_configureHostname.
  - destruct (ShouldConfigureHostname _ _ _ _); [by apply within_kube, within_configureHostname|apply within_ret, _].
  - intros [h lb2] Hk2. by apply within_kube, within_updateStatus.
Qed.

Lemma within_Reconcile :
  within (manages (owned req)) (Reconcile managerNamespace checkDNSResolution checkTLSHealth random now req).
Proof.
  unfold Reconcile. eapply within_bind_yields; [apply _|apply yields_zoom, yields_try, yields_Get|manages_solve|].
  intros [lb|e] Hk; [|apply within_ret, _]. case_bool_decide; [apply within_ret, _|].
  within_step; [eauto with kube|]. destruct (om_Deleting _).
  - apply within_when; [apply _|]. by apply within_cleanup.
  - within_step; [eauto with kube|]. destruct a0 as [tenant config]. destruct (shouldReconcile tenant config) as [should disabled].
    destruct (_ && disabled); [by apply within_cleanup|]. apply within_when; [apply _|]. by apply within_reconcileActive.
Qed.
End reconcile_within.

(** ** The finalizer keeps a load balancer until its objects are gone *)

#[local] Abbreviation finalized := (finalized LoadBalancer CleanupFinalizer).
#[local] Abbreviation waiting := (waiting LoadBalancer CleanupFinalizer).

(** The ports of the load balancer are free, its Service and, if it had a hostname, its
    Ingress and HTTPRoute are deleted. *)
Record cleaned (lb : LoadBalancer) (namespace : string) (s : Manager) : Prop := {
  cleaned_ports i : i < length (lbs_Endpoints (lb_Spec lb)) → portLookup (mg_alloc s) !! lbEndpointKey lb i = None;
  cleaned_service : gone Service (namespace, envoyResourcePattern (om_Name (lb_Meta lb))) (mg_cluster s);
  cleaned_hostname : hostnameCleanupFinalizer ∈ om_Finalizers (lb_Meta lb) →
    gone Ingress (namespace, ingressNameFor lb) (mg_cluster s) ∧
    gone HTTPRoute (namespace, httpRouteNameFor lb) (mg_cluster s);
}.

Section finalizer.
Context (req : NamespacedName).
Implicit Types (lb : LoadBalancer) (c : Cluster).

#[local] Abbreviation holds := (holds LoadBalancer CleanupFinalizer req).

Lemma triple_ensureHostnameFinalizer lb : triple (holds lb) (ensureHostnameFinalizer lb) (λ lb', holds lb') (finalized req).
Proof.
  apply triple_holds. intros Hk Hin. unfold ensureHostnameFinalizer.
  destruct (ContainsFinalizer _ hostnameCleanupFinalizer); [by apply triple_ret|].
  apply triple_wrap, triple_finalized_Update; [done|]. simpl.
  destruct (ContainsFinalizer _ _); [done|]. apply elem_of_app. by left.
Qed.

Lemma triple_persistHostname random now lb tenant config :
  triple (holds lb) (persistHostname random now lb tenant config) (λ p, holds p.2) (finalized req).
Proof.
  apply triple_holds. intros Hk Hin. unfold persistHostname.
  case_bool_decide; [|by apply triple_ret]. case_bool_decide; [by apply triple_ret|].
  eapply triple_bind; [by apply triple_wrap, triple_finalized_StatusUpdate|]. intros lb'. by apply triple_ret.
Qed.

Lemma triple_configureHostname random now lb svcName tenant config ann :
  triple (holds lb) (configureHostname random now lb svcName tenant config ann) (λ p, holds p.2) (finalized req).
Proof.
  unfold configureHostname. eapply triple_bind; [apply triple_persistHostname|]. intros [h lb1]. simpl.
  case_bool_decide; [by apply triple_ret|].
  eapply triple_bind; [apply triple_ensureHostnameFinalizer|]. intros lb2.
  eapply (triple_bind _ (λ _ c, holds lb2 c)); [|intros _; by apply triple_ret].
  destruct (useGatewayAPI tenant config).
  - eapply (triple_holds_frame _ _ _ _ (λ k, k.1 = resKind HTTPRoute)); [done|]. by apply within_CreateHTTPRouteForHostname.
  - eapply (triple_holds_frame _ _ _ _ (λ k, k.1 = resKind Ingress)); [done|]. by apply within_CreateIngressForHostname.
Qed.

Lemma triple_updateStatus checkDNS checkTLS lb service hostname :
  triple (holds lb) (updateLoadBalancerStatus checkDNS checkTLS lb service hostname) (λ _, finalized req) (finalized req).
Proof.
  apply triple_holds. intros Hk _. unfold updateLoadBalancerStatus.
  destruct (lbs_Endpoints (lb_Spec lb)) as [|ep eps]; [by apply triple_ret|].
  destruct (statusNeedsUpdate _ _ _); [|by apply triple_ret]. apply triple_retry. unfold patchStatus.
  eapply triple_bind; [eapply triple_yields, yields_Get; by eapply (triple_finalized_frame _ _ _ nothing); [intros []|apply within_Get]|].
  intros lb'. apply (triple_weaken (λ c, finalized req c ∧ objKey lb' = objKey lb) _ (λ _, finalized req) _ (finalized req) _);
    [|by intros c [? ?]|done|done].
  apply triple_pure. intros Hk'. case_bool_decide; [by apply triple_ret|].
  eapply triple_bind; [apply triple_finalized_StatusUpdate; change (objKey lb' = req); congruence|].
  intros lb''. apply triple_ret. by intros c [_ ?].
Qed.

(** Programs of the manager: the cluster part, whatever happens to the allocator *)
Definition mfinalized (s : Manager) : Prop := finalized req (mg_cluster s).
Definition mholds (lb : LoadBalancer) (s : Manager) : Prop := holds lb (mg_cluster s).

Lemma triple_reconcileActive checkDNS checkTLS random now lb lbs ns tenant config :
  triple (mholds lb) (reconcileActive checkDNS checkTLS random now lb lbs ns tenant config)
    (λ _, mfinalized) mfinalized.
Proof.
  unfold reconcileActive.
  eapply (triple_bind _ (λ lb', mholds lb')).
  { apply (triple_kube (holds lb) _ (λ lb', holds lb') (finalized req)).
    apply triple_holds. intros Hk Hin. unfold ensureFinalizer.
    rewrite (bool_decide_eq_true_2 _ Hin : ContainsFinalizer (lb_Meta lb) _ = true). by apply triple_ret. }
  intros lb1. eapply (triple_bind _ (λ _, mholds lb1)).
  { eapply triple_weaken; [apply (triple_allocating (holds lb1))|done|done|by intros s [_ ?]]. }
  intros _. eapply (triple_bind _ (λ _, mholds lb1)); [by intros s Hs|]. intros pa.
  eapply (triple_bind _ (λ _, mholds lb1)).
  { apply (triple_kube (holds lb1) _ (λ _, holds lb1) (finalized req)), (triple_holds_frame _ _ _ _ (λ k, k.1 = resKind Service)); [done|].
    by apply within_reconcileService. }
  intros _. eapply (triple_bind _ (λ _, mholds lb1)).
  { apply (triple_kube (holds lb1) _ (λ _, holds lb1) (finalized req)), (triple_holds_frame _ _ _ _ nothing);
      [by intros []|apply within_Get]. }
  intros svc. eapply (triple_bind _ (λ p, mholds p.2)).
  { destruct (ShouldConfigureHostname _ _ _ _); [|by apply triple_ret].
    apply (triple_kube (holds lb1) _ (λ p, holds p.2) (finalized req)), triple_configureHostname. }
  intros [h lb2]. apply (triple_kube (holds lb2) _ (λ _, finalized req) (finalized req)), triple_updateStatus.
Qed.

Lemma DeallocateForLoadBalancer_free pa lb i :
  i < length (lbs_Endpoints (lb_Spec lb)) →
  portLookup (DeallocatePortsForLoadBalancer pa lb) !! lbEndpointKey lb i = None.
Proof.
  intros Hi. unfold DeallocatePortsForLoadBalancer, DeallocateEndpoints. simpl.
  rewrite lookup_foldl_delete, decide_True; [done|]. apply lookup_lt_is_Some in Hi as [e He].
  apply list_elem_of_lookup. exists i. by rewrite list_lookup_imap, He.
Qed.

Definition hostnameGone (lb : LoadBalancer) (ns : string) (c : Cluster) : Prop :=
  hostnameCleanupFinalizer ∈ om_Finalizers (lb_Meta lb) →
  gone Ingress (ns, ingressNameFor lb) c ∧ gone HTTPRoute (ns, httpRouteNameFor lb) c.

Lemma hostnameGone_frame K lb ns c c' : changes K c c' →
  (∀ key, ¬ K (storeKey Ingress key)) → (∀ key, ¬ K (storeKey HTTPRoute key)) → hostnameGone lb ns c → hostnameGone lb ns c'.
Proof. intros Hc H1 H2 Hg Hin. destruct (Hg Hin). split; by eapply gone_frame. Qed.

Lemma triple_cleanupHostname lb ns :
  triple (waiting req) (when (ContainsFinalizer (lb_Meta lb) hostnameCleanupFinalizer) (cleanupHostnameResources lb ns))
    (λ _ c, waiting req c ∧ hostnameGone lb ns c) (finalized req).
Proof.
  unfold hostnameGone. destruct (ContainsFinalizer (lb_Meta lb) hostnameCleanupFinalizer) eqn:Hh.
  2: { apply triple_ret. intros c Hw. split; [done|]. intros Hin. by apply bool_decide_eq_false_1 in Hh. }
  unfold cleanupHostnameResources. simpl.
  eapply (triple_bind _ (λ _ c, waiting req c ∧ True ∧ gone Ingress (ns, ingressNameFor lb) c)).
  { apply triple_wrap. eapply triple_weaken; [apply (triple_waiting_delete LoadBalancer CleanupFinalizer req Ingress (λ _, True)); done|done|done|done]. }
  intros _. apply triple_wrap. eapply triple_weaken;
    [apply (triple_waiting_delete LoadBalancer CleanupFinalizer req HTTPRoute (λ c, gone Ingress (ns, ingressNameFor lb) c))|by intros c (? & _ & ?)| |done].
  - done.
  - intros c c' Hc Hg. by eapply gone_frame.
  - intros _ c (Hw & Hg & Hg'). by split.
Qed.

Lemma triple_deleteService lb ns p key :
  triple (λ c, waiting req c ∧ hostnameGone lb ns c) (wrap p (DeleteIgnoreNotFound Service key))
    (λ _ c, waiting req c ∧ hostnameGone lb ns c ∧ gone Service key c) (finalized req).
Proof.
  apply triple_wrap, triple_waiting_delete; [done|]. intros c c' Hc. by eapply hostnameGone_frame.
Qed.

Lemma triple_removeFinalizers lb lb' ns p key :
  triple (λ c, waiting req c ∧ hostnameGone lb ns c ∧ gone Service key c) (wrap p (Update lb'))
    (λ _ c, hostnameGone lb ns c ∧ gone Service key c) (finalized req).
Proof.
  apply triple_wrap, (triple_release _ _ _ (λ c, hostnameGone lb ns c ∧ gone Service key c)). intros c c' Hc [Hh Hs].
  split; [by eapply hostnameGone_frame|by eapply gone_frame].
Qed.

(** Every deletion comes before the update that removes the finalizers. *)
Lemma triple_cleanup lb ns : triple (λ s, waiting req (mg_cluster s)) (cleanup lb ns) (λ _, cleaned lb ns) mfinalized.
Proof.
  pose (F pa := ∀ i, i < length (lbs_Endpoints (lb_Spec lb)) → portLookup pa !! lbEndpointKey lb i = None).
  unfold cleanup. eapply (triple_bind _ (λ _ s, F (mg_alloc s) ∧ waiting req (mg_cluster s))).
  { intros s Hs. simpl. split; [|done]. intros j. apply DeallocateForLoadBalancer_free. }
  intros _. eapply (triple_bind _ (λ _ s, F (mg_alloc s) ∧ (waiting req (mg_cluster s) ∧ hostnameGone lb ns (mg_cluster s)))).
  { pose proof (triple_cleanupHostname lb ns) as Hc. destruct (ContainsFinalizer (lb_Meta lb) hostnameCleanupFinalizer).
    - by apply (triple_kube_alloc F (waiting req) _ (λ _ c, waiting req c ∧ hostnameGone lb ns c) (finalized req)).
    - apply triple_ret. intros s [HF Hw]. split; [done|]. exact (Hc _ Hw). }
  intros _. eapply triple_bind; [exact (triple_kube_alloc F _ _ _ _ (triple_deleteService lb ns _ _))|]. intros []. simpl.
  eapply triple_bind; [exact (triple_kube_alloc F _ _ _ _ (triple_removeFinalizers lb _ ns _ _))|]. intros lb'. simpl.
  apply triple_ret. intros s (HF & Hh & Hs). by split.
Qed.
End finalizer.

(** A cleanup whose calls go through removes the load balancer. *)
Lemma cleanup_ok (req : NamespacedName) (lb : LoadBalancer) (s : Manager) :
  cl_faults (mg_cluster s) = [] → findObject LoadBalancer (mg_cluster s) req = Some lb →
  om_Deleting (lb_Meta lb) = true → om_Finalizers (withoutFinalizers (lb_Meta lb)) = [] →
  ∃ s', cleanup lb req.1 s = (Ret tt, s') ∧ findObject LoadBalancer (mg_cluster s') req = None.
Proof.
  intros Hno Hf Hd Hfin. pose proof (findObject_key _ _ _ Hf) as Hk. unfold cleanup.
  step_eval ltac:(reflexivity).
  set (s0 := {| s with mg_alloc := _ |}).
  assert (∃ c1, when (ContainsFinalizer (lb_Meta lb) hostnameCleanupFinalizer) (kube (cleanupHostnameResources lb req.1)) s0
            = (Ret tt, {| s0 with mg_cluster := c1 |}) ∧
          cl_faults c1 = [] ∧ findObject LoadBalancer c1 req = Some lb) as (c1 & H1 & Hno1 & Hf1).
  { destruct (ContainsFinalizer _ _); [|exists (mg_cluster s); split_and!; [by unfold s0; destruct s|done..]].
    simpl. unfold cleanupHostnameResources.
    destruct (DeleteIgnoreNotFound_ok (O:=Ingress) (req.1, ingressNameFor lb) (mg_cluster s) Hno) as (ca & Ha & Hca & Hna).
    destruct (DeleteIgnoreNotFound_ok (O:=HTTPRoute) (req.1, httpRouteNameFor lb) ca Hna) as (cb & Hb & Hcb & Hnb).
    exists cb. split_and!; [|done|].
    - apply (kube_eval _ s0). step_eval ltac:(by eapply wrap_eval). by eapply wrap_eval.
    - by rewrite (findObject_frame _ _ _ _ Hcb), (findObject_frame _ _ _ _ Hca). }
  step_eval ltac:(exact H1).
  destruct (DeleteIgnoreNotFound_ok (O:=Service) (req.1, envoyResourcePattern (om_Name (lb_Meta lb))) c1 Hno1) as (c2 & H2 & Hc2 & Hno2).
  step_eval ltac:(by eapply kube_eval, wrap_eval).
  assert (findObject LoadBalancer c2 req = Some lb) as Hf2 by (by rewrite (findObject_frame _ _ _ _ Hc2)).
  destruct (Update_removes c2 Hno2 {| lb with lb_Meta := withoutFinalizers (lb_Meta lb) |} lb) as (c3 & H3 & _ & Hf3).
  { by change (findObject LoadBalancer c2 (objKey lb) = Some lb); rewrite Hk. }
  { by right. }
  { done. }
  { done. }
  eexists. split; [erewrite bind_eval; [done|]; by eapply kube_eval, wrap_eval|].
  simpl. rewrite <- Hk. exact Hf3.
Qed.

Section theorems.
Context (managerNamespace : string) (checkDNSResolution checkTLSHealth : string -> bool).
Context (random : option (list N)) (now : Z).
#[local] Abbreviation reconcile := (Reconcile managerNamespace checkDNSResolution checkTLSHealth random now).

(** C35: Whatever the API server answers, a reconcile of a load balancer touches only that load
    balancer, its Service and the Ingress and HTTPRoute of its hostname, leaves every
    object under its own kind and name, changes the port allocator only by the allocator's
    own steps and leaves the snapshots alone. *)
Theorem lb_reconcile_frame (req : NamespacedName) (s : Manager) :
  let s' := (reconcile req s).2 in
  (∀ k, ¬ owned req k → cl_objects (mg_cluster s') !! k = cl_objects (mg_cluster s) !! k) ∧
  (well_formed (mg_cluster s) → well_formed (mg_cluster s')) ∧
  (valid_draws (mg_draws s) → rtc step (mg_alloc s) (mg_alloc s')) ∧
  mg_cache s' = mg_cache s.
Proof.
  destruct (within_Reconcile managerNamespace checkDNSResolution checkTLSHealth random now req s) as [[Hf Hw _] Ha Hc].
  split_and!; [done|done| |done]. intros Hv. by apply Ha.
Qed.

Lemma reconcile_keeps_finalizer (req : NamespacedName) (s : Manager) (lb : LoadBalancer) :
  truthful (mg_cluster s) →
  findObject LoadBalancer (mg_cluster s) req = Some lb →
  CleanupFinalizer ∈ om_Finalizers (lb_Meta lb) →
  let s' := (reconcile req s).2 in
  finalized req (mg_cluster s') ∨ cleaned lb req.1 s'.
Proof.
  intros Ht Hf Hin.
  assert (triple (λ s, waiting req (mg_cluster s) ∧ findObject LoadBalancer (mg_cluster s) req = Some lb) (reconcile req)
            (λ _ s, finalized req (mg_cluster s) ∨ cleaned lb req.1 s) (mfinalized req)) as Htr.
  { unfold Reconcile. eapply triple_bind; [exact (triple_kube _ _ _ _ (triple_read _ _ req lb))|]. intros [lb'|err].
    2: { apply triple_ret. intros s1 [[_ ?] _]. by left. }
    apply (triple_pure _ (λ s, waiting req (mg_cluster s))). intros ->. case_bool_decide; [apply triple_ret; intros s1 [_ ?]; by left|].
    eapply triple_bind; [exact (triple_kube _ _ _ _ (triple_waiting_read _ _ req _ (within_List nothing _ _)))|]. intros lbs. simpl.
    assert (triple (λ s, waiting req (mg_cluster s)) (cleanup lb req.1)
              (λ _ s, finalized req (mg_cluster s) ∨ cleaned lb req.1 s) (mfinalized req)) as Hclean.
    { apply (triple_weaken _ _ _ _ _ _ _ (triple_cleanup req lb req.1)); [done|by right|done]. }
    destruct (om_Deleting (lb_Meta lb)).
    { destruct (hasCleanupFinalizer _); [done|]. apply triple_ret. intros s1 [_ ?]. by left. }
    eapply triple_bind; [exact (triple_kube _ _ _ _ (triple_waiting_read _ _ req _ (within_GetTenantAndConfig nothing _ _)))|].
    intros [tenant config]. simpl. destruct (shouldReconcile tenant config) as [should disabled].
    destruct (_ && disabled); [done|]. destruct should; [|apply triple_ret; intros s1 [_ ?]; by left].
    eapply triple_weaken; [apply (triple_reconcileActive req)| |by left|done].
    intros s1 [_ ?]. repeat split; [by eapply findObject_key|done|done]. }
  specialize (Htr s). destruct (reconcile req s) as [[u|e| |] s']; simpl.
  2-4: left; apply Htr; repeat split; [done|by exists lb|done].
  apply Htr. repeat split; [done|by exists lb|done].
Qed.

(** C4: The finalizer is safe: as long as the server reports [NotFound] truthfully, a load
    balancer that has the cleanup finalizer keeps it through every reconcile, failing or
    not, unless its ports are free and its Service and hostname objects are deleted. *)
Theorem lb_finalizer_safe (req : NamespacedName) (s : Manager) (lb : LoadBalancer) :
  truthful (mg_cluster s) →
  findObject LoadBalancer (mg_cluster s) req = Some lb →
  CleanupFinalizer ∈ om_Finalizers (lb_Meta lb) →
  let s' := (reconcile req s).2 in
  finalized req (mg_cluster s') ∨ cleaned lb req.1 s'.
Proof. apply reconcile_keeps_finalizer. Qed.

(** C36: Deletion ends: when the calls go through, one reconcile of a load balancer that is
    marked for deletion and held by no other finalizer removes it, and everything made
    for it. *)
Theorem lb_deletion_completes (req : NamespacedName) (s : Manager) (lb : LoadBalancer) :
  cl_faults (mg_cluster s) = [] →
  findObject LoadBalancer (mg_cluster s) req = Some lb →
  om_Deleting (lb_Meta lb) = true → lbs_Endpoints (lb_Spec lb) ≠ [] →
  CleanupFinalizer ∈ om_Finalizers (lb_Meta lb) → om_Finalizers (withoutFinalizers (lb_Meta lb)) = [] →
  ∃ s', reconcile req s = (Ret tt, s') ∧ findObject LoadBalancer (mg_cluster s') req = None ∧ cleaned lb req.1 s'.
Proof.
  intros Hno Hf Hd He Hc Hfin.
  assert (∃ s', reconcile req s = (Ret tt, s') ∧ findObject LoadBalancer (mg_cluster s') req = None) as (s' & Hr & Hn).
  { unfold Reconcile.
    step_eval ltac:(eapply kube_read, try_eval; rewrite Get_eval, Hf by done; reflexivity).
    cbv beta iota. rewrite bool_decide_eq_false_2 by done. step_eval ltac:(by eapply kube_read, List_eval). cbv beta iota.
    rewrite Hd. assert (hasCleanupFinalizer (lb_Meta lb) = true) as ->.
    { unfold hasCleanupFinalizer. rewrite (bool_decide_eq_true_2 _ Hc : ContainsFinalizer _ CleanupFinalizer = true).
      by rewrite orb_true_r. }
    by apply cleanup_ok. }
  exists s'. split_and!; [done|done|].
  pose proof (reconcile_keeps_finalizer req s lb) as [(lb' & Hf' & _)|Hcl]; [|done|done|..].
  - unfold truthful. by rewrite Hno.
  - rewrite Hr in Hf'. simpl in Hf'. by rewrite Hn in Hf'.
  - by rewrite Hr in Hcl.
Qed.
End theorems.

(** A load balancer that is marked for deletion, and one that is served *)
Definition deletedLB : LoadBalancer := {| sampleLB with lb_Meta := sampleDeleted (lb_Meta sampleLB) |}.
Definition deletedLBManager : Manager := sampleManager [OLoadBalancer deletedLB; OTenant sampleTenant].
#[local] Abbreviation sampleReconcile := (Reconcile "kubelb" (λ _, true) (λ _, true) None 0%Z).

Lemma lb_finalizer_safe_witness :
  let s' := (sampleReconcile ("tenant-a", "uid-1") deletedLBManager).2 in
  finalized ("tenant-a", "uid-1") (mg_cluster s') ∨ cleaned deletedLB "tenant-a" s'.
Proof.
  apply (lb_finalizer_safe "kubelb" (λ _, true) (λ _, true) None 0%Z ("tenant-a", "uid-1") deletedLBManager deletedLB).
  - constructor.
  - vm_compute. reflexivity.
  - by left.
Defined.

Lemma lb_deletion_completes_witness :
  ∃ s', sampleReconcile ("tenant-a", "uid-1") deletedLBManager = (Ret tt, s') ∧
    findObject LoadBalancer (mg_cluster s') ("tenant-a", "uid-1") = None ∧ cleaned deletedLB "tenant-a" s'.
Proof.
  apply (lb_deletion_completes "kubelb" (λ _, true) (λ _, true) None 0%Z ("tenant-a", "uid-1") deletedLBManager deletedLB).
  - reflexivity.
  - vm_compute. reflexivity.
  - reflexivity.
  - discriminate.
  - by left.
  - reflexivity.
Defined.
