(* ===== verification/LBSteadyState.v ===== *)
(** * Load balancers at rest: restarts and convergence

    What holds when [loadbalancer_controller.go] has done its work: the ports it published in
    the status lead [LoadState] back to the same allocator, and a reconcile that meets no
    error brings the cluster to the state the load balancer asks for. *)

From S2P Require Import Prelude GoStrings Api GatewayApi Names PortAllocator Annotations LoadBalancers.
From S2P Require Import Kube Services RouteResources EnvoyResource Manager LBController.
Local Open Scope go_scope.

(** ** Published ports survive a restart *)

Definition listenerKey (p : EndpointPort) : string := EnvoyListenerKey (ep_Port p) (ep_Protocol p).

(** The shape [MapLoadBalancer] gives a load balancer: one endpoint whose ports are those of
    the load balancer, under names of their own *)
Record mapped (lb : LoadBalancer) (eps : LoadBalancerEndpoints) : Prop := {
  mapped_endpoints : lbs_Endpoints (lb_Spec lb) = [eps];
  mapped_ports : (λ p, (lbp_Name p, lbp_Protocol p)) <$> lbs_Ports (lb_Spec lb)
                 = (λ p, (ep_Name p, ep_Protocol p)) <$> lbe_Ports eps;
  mapped_names : NoDup (lbp_Name <$> lbs_Ports (lb_Spec lb));
}.

Lemma MapLoadBalancer_mapped svc addrs ref cluster : NoDup (mappedPortName <$> svc_Ports svc) →
  ∃ eps, mapped (MapLoadBalancer svc addrs ref cluster).1 eps.
Proof.
  intros Hnd. eexists. split; [reflexivity| |]; simpl.
  - by rewrite <-!list_fmap_compose.
  - by rewrite <-list_fmap_compose.
Qed.

(** The allocator has a port for every upstream of the load balancer, and the status holds
    the ports of the Service made from it. *)
Record published (pa : PortAllocator) (lb : LoadBalancer) (eps : LoadBalancerEndpoints) : Prop := {
  published_mapped : mapped lb eps;
  published_allocated p : p ∈ lbe_Ports eps → is_Some (entry (portLookup pa) (lbEndpointKey lb 0) (listenerKey p));
  published_status : ∃ svc ports, CreateServicePorts pa lb svc = Some ports ∧
    ss_Ports (lst_Service (lb_Status lb)) = buildServicePortStatus ports (lbe_Ports eps);
}.

Section restart.
Context (IntValue : IntOrString -> Z) (IntValue_FromInt : ∀ z, IntValue (FromInt z) = z).
Context (pa : PortAllocator) (Hpa : rtc step NewPortAllocator pa).
Implicit Types (lb : LoadBalancer) (eps : LoadBalancerEndpoints).

Lemma mapped_endpoint_names lb eps : mapped lb eps → NoDup (ep_Name <$> lbe_Ports eps).
Proof.
  intros [_ Hp Hn]. apply (f_equal (fmap fst)) in Hp. rewrite <-!list_fmap_compose in Hp.
  change (fst ∘ _) with lbp_Name in Hp at 1. by rewrite Hp in Hn.
Qed.

Lemma find_endpoint_port lb eps p (P : EndpointPort -> bool) : mapped lb eps → p ∈ lbe_Ports eps →
  P p = true → (∀ q, P q = true → ep_Name q = ep_Name p) → List.find P (lbe_Ports eps) = Some p.
Proof. intros Hm Hp HP Hu. eapply find_unique; [by eapply mapped_endpoint_names|done|done|]. auto. Qed.

(** The port of the Service that stands for an upstream *)
Lemma desired_port lb eps existing i lbPort p d : mapped lb eps →
  lbs_Ports (lb_Spec lb) !! i = Some lbPort → lbe_Ports eps !! i = Some p →
  desiredPort pa lb eps existing i lbPort = Some d →
  is_Some (entry (portLookup pa) (lbEndpointKey lb 0) (listenerKey p)) →
  sp_Name d = ep_Name p ∧ sp_Protocol d = ep_Protocol p ∧
  ∃ z, sp_TargetPort d = FromInt z ∧ entry (portLookup pa) (lbEndpointKey lb 0) (listenerKey p) = Some z.
Proof.
  intros Hm Hl Hp Hd [z Hz].
  assert (lbp_Name lbPort = ep_Name p ∧ lbp_Protocol lbPort = ep_Protocol p) as [Hn Hpr].
  { pose proof (f_equal (.!! i) (mapped_ports _ _ Hm)) as H. rewrite !list_lookup_fmap, Hl, Hp in H. by injection H. }
  unfold desiredPort, upstreamPort in Hd. rewrite Hp in Hd.
  rewrite (find_endpoint_port lb eps p) in Hd; [|done|by eapply list_elem_of_lookup_2|by apply bool_decide_eq_true|].
  2: { intros q Hq%bool_decide_eq_true. congruence. }
  assert (port_lookup pa (EnvoyEndpoint (om_Namespace (lb_Meta lb)) (om_Name (lb_Meta lb)) 0)
            (EnvoyListenerKey (ep_Port p) (lbp_Protocol lbPort)) = (z, true)) as Hlk.
  { apply port_lookup_true. by rewrite Hpr. }
  rewrite Hlk in Hd. injection Hd as <-. simpl. split_and!; [done|done|]. exists z. split; [|done].
  destruct (reachable_inv _ Hpa) as (_ & _ & Hr). rewrite to_int32_small; [done|]. specialize (Hr _ _ _ Hz). port_lia.
Qed.

(** Every port of the status is found back by its endpoint port. *)
Lemma published_found lb eps p : published pa lb eps → p ∈ lbe_Ports eps →
  ∃ sp z, List.find (statusMatch p) (ss_Ports (lst_Service (lb_Status lb))) = Some sp ∧
    sp_TargetPort (stp_Core sp) = FromInt z ∧ entry (portLookup pa) (lbEndpointKey lb 0) (listenerKey p) = Some z.
Proof.
  intros [Hm Ha (svc & ports & Hc & Hs)] Hp. rewrite Hs. unfold CreateServicePorts in Hc.
  rewrite (mapped_endpoints _ _ Hm) in Hc. apply fmap_Some in Hc as (out & Ho & ->).
  assert (∀ j d, out !! j = Some d → ∃ q, lbe_Ports eps !! j = Some q ∧ sp_Name d = ep_Name q ∧
            sp_Protocol d = ep_Protocol q ∧ ∃ z, sp_TargetPort d = FromInt z ∧
            entry (portLookup pa) (lbEndpointKey lb 0) (listenerKey q) = Some z) as Hout.
  { intros j d Hd. destruct (desiredPorts_lookup _ _ _ _ _ _ _ _ _ Ho Hd) as (lbPort & Hl & Hdp). simpl in Hdp.
    pose proof (f_equal (.!! j) (mapped_ports _ _ Hm)) as H. rewrite !list_lookup_fmap, Hl in H.
    destruct (lbe_Ports eps !! j) as [q|] eqn:Hq; [|done]. exists q. split; [done|].
    eapply desired_port; [done..|]. eapply Ha, list_elem_of_lookup_2, Hq. }
  apply list_elem_of_lookup in Hp as Hj. destruct Hj as [j Hj].
  assert (length out = length (lbe_Ports eps)) as Hlen.
  { rewrite (desiredPorts_length _ _ _ _ _ _ _ Ho). pose proof (f_equal length (mapped_ports _ _ Hm)) as H.
    by rewrite !length_fmap in H. }
  destruct (out !! j) as [d|] eqn:Hd; [|apply lookup_ge_None in Hd; apply lookup_lt_Some in Hj; lia].
  destruct (Hout _ _ Hd) as (q & Hq & Hn & Hpr & z & Hz & He). assert (q = p) as -> by congruence.
  exists {| stp_Core := d; stp_UpstreamTargetPort := upstreamTarget (lbe_Ports eps) d |}, z. split_and!; [|done|done].
  apply (find_unique (λ sp, sp_Name (stp_Core sp))).
  - unfold buildServicePortStatus. rewrite <-list_fmap_compose. change (NoDup (sp_Name <$> merge_sort port_name_le out)).
    rewrite merge_sort_Permutation.
    replace (sp_Name <$> out) with (ep_Name <$> lbe_Ports eps); [by eapply mapped_endpoint_names|].
    apply list_eq. intros k. rewrite !list_lookup_fmap. destruct (out !! k) as [d'|] eqn:Hk.
    + destruct (Hout _ _ Hk) as (q' & Hq' & Hnq & _). by rewrite Hq'; simpl; rewrite Hnq.
    + apply lookup_ge_None in Hk. rewrite (proj2 (lookup_ge_None _ _)); [done|lia].
  - apply list_elem_of_fmap. exists d. split; [done|]. rewrite merge_sort_Permutation. by eapply list_elem_of_lookup_2.
  - unfold statusMatch. simpl. rewrite Hpr, bool_decide_true by done. case_bool_decide; [|by rewrite Hn, bool_decide_true].
    unfold upstreamTarget. rewrite (find_endpoint_port lb eps p); [by apply bool_decide_true|done|done| |].
    + by rewrite Hn, Hpr, !bool_decide_true.
    + intros q [Hn' _]%andb_true_iff. apply bool_decide_eq_true in Hn'. congruence.
  - intros sp _. unfold statusMatch. destruct (bool_decide (sp_Protocol _ = _)); [|done]. case_bool_decide as Hb; simpl.
    + destruct Hb as [Hb1 Hb2]. rewrite Hb2. congruence.
    + intros Hn'%bool_decide_eq_true. congruence.
Qed.

(** *** The table the statuses describe *)

(** The keys under which the allocator has ports, for the calls the controllers make *)
Definition allocatedKeys (calls : list (string * list string)) : list (string * string) :=
  calls ≫= λ call, (call.1,.) <$> call.2.

Lemma elem_of_allocatedKeys calls e k : (e, k) ∈ allocatedKeys calls ↔ ∃ ks, (e, ks) ∈ calls ∧ k ∈ ks.
Proof.
  unfold allocatedKeys. rewrite list_elem_of_bind. split.
  - intros ([e' ks] & (k' & [= -> ->] & Hk)%list_elem_of_fmap & Hin). by exists ks.
  - intros (ks & Hin & Hk). exists (e, ks). split; [by apply list_elem_of_fmap_2|done].
Qed.

(** [t'] is [t] with what the allocator holds for the keys. *)
Definition adds (keys : list (string * string)) (t t' : LookupTable) : Prop :=
  ∀ e k, entry t' e k = if decide ((e, k) ∈ keys) then entry (portLookup pa) e k else entry t e k.

Lemma adds_nil t t' : (∀ e k, entry t' e k = entry t e k) → adds [] t t'.
Proof. intros H e k. rewrite decide_False; [done|]. by intros ?%elem_of_nil. Qed.
Lemma adds_one t e k z : entry (portLookup pa) e k = Some z → adds [(e, k)] t (tableSet t e k z).
Proof. intros He e' k'. rewrite entry_set. repeat case_decide; set_solver. Qed.
Lemma adds_app keys keys' t t' t'' : adds keys t t' → adds keys' t' t'' → adds (keys ++ keys') t t''.
Proof. intros H H' e k. rewrite H', H. repeat case_decide; set_solver. Qed.
Lemma adds_foldl {A} (f : LookupTable -> A -> LookupTable) (keys : A -> list (string * string)) l :
  (∀ x t, x ∈ l → adds (keys x) t (f t x)) → ∀ t, adds (l ≫= keys) t (foldl f t l).
Proof.
  induction l as [|x l IH]; intros Hf t; simpl; [by apply adds_nil|].
  eapply adds_app; [apply Hf; by left|]. apply IH. intros y t' Hy. apply Hf. by right.
Qed.

Lemma adds_loadLoadBalancer lb eps t : published pa lb eps →
  adds (allocatedKeys (lbAllocations lb)) t (loadLoadBalancer IntValue t lb).
Proof.
  intros Hpub. unfold loadLoadBalancer, lbAllocations. rewrite (mapped_endpoints _ _ (published_mapped _ _ _ Hpub)).
  change (adds ([] ++ allocatedKeys [(lbEndpointKey lb 0, listenerKey <$> lbe_Ports eps)]) t
            (loadEndpoint IntValue lb t (0, eps))).
  unfold loadEndpoint. eapply adds_app; [apply adds_nil, entry_ensure|].
  replace (allocatedKeys _) with (lbe_Ports eps ≫= λ p, [(lbEndpointKey lb 0, listenerKey p)]).
  2: { unfold allocatedKeys. simpl. rewrite app_nil_r, <-list_fmap_compose. by induction (lbe_Ports eps) as [|? ? IH]; csimpl; [|rewrite IH]. }
  apply adds_foldl. intros p t' Hp. destruct (published_found _ _ _ Hpub Hp) as (sp & z & Hf & Ht & He).
  rewrite Hf, Ht, IntValue_FromInt. by apply adds_one.
Qed.

(** The status of a Route holds, for every backend, the ports of the generated Service; the
    allocator has a port for each. *)
Record publishedRoute (route : Route) : Prop := {
  published_ports source svc : rt_Source route = Some source → svc ∈ ks_Services source → ∃ state,
    default ∅ (rrs_Services (rt_Status route)) !! RouteServiceMapKey (om_Namespace (svc_Meta svc)) (GetName (svc_Meta svc)) = Some state ∧
    rss_Ports state = retargetPort pa (routeEndpointKey route source svc) <$> svc_Ports svc;
  published_backends source svc p : rt_Source route = Some source → svc ∈ ks_Services source → p ∈ svc_Ports svc →
    is_Some (entry (portLookup pa) (routeEndpointKey route source svc) (EnvoyListenerKey (sp_Port p) (sp_Protocol p)));
}.

Lemma adds_loadRoute route t : publishedRoute route → adds (allocatedKeys (routeAllocations route)) t (loadRoute IntValue t route).
Proof.
  intros Hpub. unfold loadRoute, routeAllocations. destruct (rt_Source route) as [source|] eqn:Hs; [|by apply adds_nil].
  replace (allocatedKeys _) with (ks_Services source ≫= λ svc, svc_Ports svc ≫= λ p,
    [(routeEndpointKey route source svc, EnvoyListenerKey (sp_Port p) (sp_Protocol p))]).
  2: { unfold allocatedKeys. induction (ks_Services source) as [|svc svcs IH]; csimpl; [done|]. rewrite IH. f_equal.
       induction (svc_Ports svc) as [|p ps IHp]; csimpl; [done|]. by rewrite IHp. }
  apply adds_foldl. intros svc t' Hsvc. destruct (published_ports _ Hpub _ _ Hs Hsvc) as (state & Hst & Hports).
  unfold loadService. destruct (rrs_Services (rt_Status route)) as [services|] eqn:Hss.
  2: { simpl in Hst. by rewrite lookup_empty in Hst. }
  unfold rt_StatusServices. rewrite Hss. simpl in Hst. rewrite Hst, Hports.
  change (adds ([] ++ (svc_Ports svc ≫= λ p, [(routeEndpointKey route source svc, EnvoyListenerKey (sp_Port p) (sp_Protocol p))])) t'
    (foldl (λ t port, tableSet t (routeEndpointKey route source svc) (EnvoyListenerKey (sp_Port port) (sp_Protocol port)) (IntValue (sp_TargetPort port)))
       (ensureEndpoint t' (routeEndpointKey route source svc)) (retargetPort pa (routeEndpointKey route source svc) <$> svc_Ports svc))).
  eapply adds_app; [apply adds_nil, entry_ensure|]. rewrite foldl_fmap. apply adds_foldl. intros p t'' Hp.
  destruct (published_backends _ Hpub _ _ _ Hs Hsvc Hp) as [z Hz]. unfold retargetPort.
  rewrite (proj2 (port_lookup_true _ _ _ _) Hz). simpl. rewrite IntValue_FromInt.
  destruct (reachable_inv _ Hpa) as (_ & _ & Hr). rewrite to_int32_small by (specialize (Hr _ _ _ Hz); port_lia).
  by apply adds_one.
Qed.

(** Healing a part of a table without shared ports changes nothing. *)
Lemma heal_sub t e k : sub_table t (portLookup pa) → entry (healLoadStateCollisions t) e k = entry t e k.
Proof.
  intros Ht. destruct (reachable_inv _ Hpa) as (_ & Hu & _). apply option_eq. intros z. rewrite heal_spec. split; [by intros [? _]|].
  intros Hz. split; [done|]. intros e' k' Hz'. apply Ht in Hz, Hz'. specialize (Hu _ _ _ _ _ Hz Hz'). injection Hu as -> _. done.
Qed.

(** C6: A manager that restarts finds every published port where it was: from the statuses of
    the load balancers and Routes that were listed, which hold the ports the controllers
    published, [LoadState] rebuilds an allocator that answers [Lookup] for every upstream of
    a load balancer and every port of a backend of a Route as the allocator before the
    restart did, and that holds no port the old one did not. *)
Theorem restart_keeps_ports (pa0 : PortAllocator) (lbs : list LoadBalancer) (routes : list Route) :
  (∀ lb, lb ∈ lbs → ∃ eps, published pa lb eps) → (∀ route, route ∈ routes → publishedRoute route) →
  ∃ pa', LoadState IntValue pa0 (Ok lbs) (Ok routes) = Ok pa' ∧ sub_table (portLookup pa') (portLookup pa) ∧
    (∀ lb eps p, lb ∈ lbs → lbs_Endpoints (lb_Spec lb) = [eps] → p ∈ lbe_Ports eps →
      Lookup pa' (lbEndpointKey lb 0) (listenerKey p) = Lookup pa (lbEndpointKey lb 0) (listenerKey p)) ∧
    (∀ route source svc p, route ∈ routes → rt_Source route = Some source → svc ∈ ks_Services source → p ∈ svc_Ports svc →
      let e := routeEndpointKey route source svc in let k := EnvoyListenerKey (sp_Port p) (sp_Protocol p) in
      Lookup pa' e k = Lookup pa e k).
Proof.
  intros Hlbs Hroutes. unfold LoadState.
  assert (adds ((lbs ≫= λ lb, allocatedKeys (lbAllocations lb)) ++ (routes ≫= λ route, allocatedKeys (routeAllocations route))) ∅
    (foldl (loadRoute IntValue) (foldl (loadLoadBalancer IntValue) ∅ lbs) routes)) as Hadds.
  { eapply adds_app; apply adds_foldl; [|by intros; apply adds_loadRoute, Hroutes].
    intros lb t Hlb. destruct (Hlbs lb Hlb) as [eps Heps]. by eapply adds_loadLoadBalancer. }
  set (t := foldl (loadRoute _) _ _) in *.
  assert (sub_table t (portLookup pa)) as Hsub.
  { intros e k z. rewrite Hadds. case_decide; [done|]. by rewrite entry_empty. }
  eexists. split; [reflexivity|]. split_and!.
  - intros e k z. rewrite recompute_lookup. simpl. rewrite heal_sub by done. apply Hsub.
  - intros lb eps p Hlb He Hp. rewrite !Lookup_entry, recompute_lookup. simpl. rewrite heal_sub, Hadds by done.
    rewrite decide_True; [done|]. apply elem_of_app. left. apply list_elem_of_bind. exists lb. split; [|done].
    apply elem_of_allocatedKeys. unfold lbAllocations. rewrite He. eexists. split; [by left|]. by apply list_elem_of_fmap_2.
  - intros route source svc p Hr Hs Hsvc Hp. cbv zeta. rewrite !Lookup_entry, recompute_lookup. simpl. rewrite heal_sub, Hadds by done.
    rewrite decide_True; [done|]. apply elem_of_app. right. apply list_elem_of_bind. exists route. split; [|done].
    apply elem_of_allocatedKeys. unfold routeAllocations. rewrite Hs. eexists. split; [apply list_elem_of_fmap; by exists svc|].
    by apply (list_elem_of_fmap_2 (λ p, EnvoyListenerKey (sp_Port p) (sp_Protocol p))).
Qed.
End restart.

(** ** A reconcile that meets no error *)

(** The Service serves what was asked for; empty maps are nil on the server. *)
Record servesAs (desired svc : Service) : Prop := {
  serves_ports : svc_Ports svc = svc_Ports desired;
  serves_selector : entries (svc_Selector svc) = entries (svc_Selector desired);
  serves_type : svc_Type svc = svc_Type desired;
  serves_policy : svc_ExternalTrafficPolicy svc = svc_ExternalTrafficPolicy desired;
  serves_class : svc_LoadBalancerClass svc = svc_LoadBalancerClass desired;
  serves_labels : entries (om_Labels (svc_Meta svc)) = entries (om_Labels (svc_Meta desired));
  serves_annotations : delete LastAppliedConfigAnnotation (entries (om_Annotations (svc_Meta svc)))
                       = delete LastAppliedConfigAnnotation (entries (om_Annotations (svc_Meta desired)));
}.

Lemma serviceDiffers_serves existing desired : serviceDiffers existing desired = false → servesAs desired existing.
Proof.
  unfold serviceDiffers, mapsEqual. rewrite !orb_false_iff, !negb_false_iff, !bool_decide_eq_true.
  intros ((((((? & ?) & ?) & ?) & ?) & ?) & [_ ?]%CompareAnnotations_spec). by split.
Qed.

(** What the Service of a load balancer has to be *)
Definition askedService (lb : LoadBalancer) (ns : string) (cls : option string) (ann : AnnotationSettings)
  (ports : list CoreServicePort) (existing : option Service) : Service :=
  desiredService lb (envoyResourcePattern (om_Name (lb_Meta lb))) ns ns cls ports
    (Some (ReconcileAnnotations (om_Annotations (svc_Meta (default zeroService existing)))
       (Some (PropagateAnnotations (om_Annotations (lb_Meta lb)) ann AnnotatedResourceService)))).

Section converge.
Context (c : Cluster) (Hno : cl_faults c = []) (Hwf : well_formed c).

Lemma reconcileService_ok lb ns pa cls ann ports (key := (ns, envoyResourcePattern (om_Name (lb_Meta lb)))) :
  CreateServicePorts pa lb (default zeroService (findObject Service c key)) = Some ports →
  ∃ c' svc, reconcileService lb key.2 ns ns pa cls ann c = (Ret tt, c') ∧ changes (eq (storeKey Service key)) c c' ∧
    cl_faults c' = [] ∧ findObject Service c' key = Some svc ∧ 
    servesAs (askedService lb ns cls ann ports (findObject Service c key)) svc.
Proof.
  intros Hp. unfold reconcileService. step_eval ltac:(apply (GetIfExists_eval _ Hno)). cbv zeta. change (ns, key.2) with key.
  step_eval ltac:(unfold deref; rewrite Hp; reflexivity).
  set (desired := desiredService _ _ _ _ _ _ _). destruct (findObject Service c key) as [existing|] eqn:Hf; simpl default in *.
  - destruct (serviceDiffers existing desired) eqn:Hd.
    2: { exists c, existing. split_and!; [done|done|done|done|]. by apply serviceDiffers_serves. }
    pose proof (findObject_key _ _ _ Hf) as Hk. destruct (findObject_meta _ _ _ Hwf Hf) as [Hdel _].
    match goal with |- context [Update ?x] => set (o := x) end. destruct (Update_stored c Hno o existing) as (c' & Hu & Hc & Hno' & Hf').
    { by change (objKey o) with (objKey existing); rewrite Hk. }
    { by right. }
    { done. }
    change (objKey o) with (objKey existing) in *. rewrite Hk in *. exists c', (updated existing o). split_and!; [|done|done|done|].
    + by erewrite bind_eval by (by apply wrap_eval).
    + split; first [done|exact (entries_wireMap _)|exact (f_equal _ (entries_wireMap _))].
  - destruct (Create_stored c Hno desired) as (c' & Hu & Hc & Hno' & Hf'); [done|].
    exists c', (created c desired). split_and!; [|done|done|done|].
    + by erewrite bind_eval by (by apply wrap_eval).
    + split; first [done|exact (entries_wireMap _)|exact (f_equal _ (entries_wireMap _))].
Qed.

Lemma ensureFinalizer_ok lb req : findObject LoadBalancer c req = Some lb → om_Deleting (lb_Meta lb) = false →
  ∃ c' lb', ensureFinalizer lb c = (Ret lb', c') ∧ changes (eq (storeKey LoadBalancer req)) c c' ∧ cl_faults c' = [] ∧
    findObject LoadBalancer c' req = Some lb' ∧ lb_Spec lb' = lb_Spec lb ∧
    om_Annotations (lb_Meta lb') = om_Annotations (lb_Meta lb) ∧ CleanupFinalizer ∈ om_Finalizers (lb_Meta lb').
Proof.
  intros Hf Hd. pose proof (findObject_key _ _ _ Hf) as Hk. destruct (findObject_meta _ _ _ Hwf Hf) as [_ Hwire].
  unfold ensureFinalizer. destruct (ContainsFinalizer _ _) eqn:Hc.
  { exists c, lb. split_and!; try done. by apply bool_decide_eq_true in Hc. }
  match goal with |- context [Update ?x] => set (o := x) end.
  destruct (Update_stored c Hno o lb) as (c' & Hu & Hch & Hno' & Hf').
  { by change (objKey o) with (objKey lb); rewrite Hk. }
  { by right. }
  { change (om_Deleting (lb_Meta lb) = true → om_Finalizers (objMeta o) ≠ []). congruence. }
  change (objKey o) with (objKey lb) in *. rewrite Hk in *. exists c', (updated lb o).
  split_and!; [by apply wrap_eval|done|done|done|done|exact (f_equal om_Annotations Hwire)|].
  change (CleanupFinalizer ∈ filter (λ g, g ≠ envoyProxyCleanupFinalizer)
    (om_Finalizers (AddFinalizer (lb_Meta lb) CleanupFinalizer))).
  apply list_elem_of_filter. split; [done|]. unfold AddFinalizer. rewrite Hc. apply elem_of_app. right. by left.
Qed.

Lemma updateStatus_ok checkDNS checkTLS lb req eps rest service hostname :
  findObject LoadBalancer c req = Some lb → lbs_Endpoints (lb_Spec lb) = eps :: rest →
  ∃ c' lb', updateLoadBalancerStatus checkDNS checkTLS lb service hostname c = (Ret tt, c') ∧
    changes (eq (storeKey LoadBalancer req)) c c' ∧ findObject LoadBalancer c' req = Some lb' ∧
    lb_Meta lb' = lb_Meta lb ∧ lb_Spec lb' = lb_Spec lb ∧
    ss_Ports (lst_Service (lb_Status lb')) = buildServicePortStatus (svc_Ports service) (lbe_Ports eps).
Proof.
  intros Hf He. pose proof (findObject_key _ _ _ Hf) as Hk. unfold updateLoadBalancerStatus. rewrite He.
  set (updated := desiredStatus _ _ _ _ _ _). destruct (statusNeedsUpdate lb service updated) eqn:Hn.
  2: { exists c, lb. split_and!; try done. apply orb_false_iff in Hn as [[Hn _]%orb_false_iff _].
       by apply negb_false_iff, bool_decide_eq_true in Hn. }
  destruct (decide (lb_Status lb = updated)) as [Heq|Hne].
  { exists c, lb. split_and!; try done; [|by rewrite Heq]. apply retry_eval. unfold patchStatus.
    erewrite bind_eval by (rewrite (Get_eval c Hno), Hk, Hf; reflexivity). by rewrite bool_decide_eq_true_2. }
  destruct (StatusUpdate_stored c Hno {| lb with lb_Status := updated |} lb) as (c' & Hu & Hc & Hno' & Hf').
  { by change (findObject LoadBalancer c (objKey lb) = Some lb); rewrite Hk. }
  change (objKey {| lb with lb_Status := updated |}) with (objKey lb) in *. rewrite Hk in *.
  exists c', {| lb with lb_Status := updated |}. split_and!; try done. apply retry_eval. unfold patchStatus.
  erewrite bind_eval by (rewrite (Get_eval c Hno), Hf; reflexivity). rewrite bool_decide_eq_false_2 by done.
  by erewrite bind_eval by exact Hu.
Qed.
End converge.

(** The endpoint keys of the load balancers of a namespace are all different. *)
Lemma NoDup_allocations c ns : well_formed c →
  NoDup ((mjoin (lbAllocations <$> listObjects LoadBalancer c (Some ns) ∅)).*1).
Proof.
  intros Hwf. pose proof (NoDup_listObjects (O:=LoadBalancer) c (Some ns) ∅ Hwf) as Hnd.
  assert (Forall (λ lb, om_Namespace (lb_Meta lb) = ns) (listObjects LoadBalancer c (Some ns) ∅)) as Hns.
  { apply Forall_forall. intros lb (_ & Hn & _)%elem_of_listObjects; [|done]. by apply bool_decide_eq_true in Hn. }
  revert Hnd Hns. generalize (listObjects LoadBalancer c (Some ns) ∅). intros l.
  induction l as [|lb l IH]; intros Hnd Hns; simpl; [constructor|].
  rewrite fmap_cons in Hnd. apply NoDup_cons in Hnd as [Hn Hnd]. apply Forall_cons in Hns as [Hlb Hns].
  assert (∀ lb', (lbAllocations lb').*1 = imap (λ i _, lbEndpointKey lb' i) (lbs_Endpoints (lb_Spec lb'))) as Hkeys.
  { intros lb'. unfold lbAllocations. by rewrite fmap_imap. }
  rewrite fmap_app. apply NoDup_app. split_and!; [|intros e Hin Hin'|by apply IH].
  - rewrite Hkeys. apply NoDup_alt. intros i j e Hi Hj. rewrite list_lookup_imap in Hi, Hj.
    apply fmap_Some in Hi as (? & _ & ->), Hj as (? & _ & Hj).
    apply EnvoyEndpoint_inj in Hj as [_ ?]; lia.
  - rewrite Hkeys in Hin. apply elem_of_lookup_imap in Hin as (i & ep & -> & Hi).
    apply list_elem_of_fmap in Hin' as ([e ks] & He & Hin'). simpl in He. subst e.
    apply list_elem_of_join in Hin' as (ks' & Hks & (lb' & -> & Hlb')%list_elem_of_fmap).
    apply elem_of_lookup_imap in Hks as (j & ep' & [= He _] & Hj).
    assert (om_Namespace (lb_Meta lb') = ns) as Hns' by by eapply Forall_forall in Hns.
    unfold lbEndpointKey in He. rewrite Hlb, Hns' in He. apply EnvoyEndpoint_inj in He as [He _]; [|lia..].
    destruct Hn. apply list_elem_of_fmap. exists lb'. split; [|done]. unfold objKey. simpl. congruence.
Qed.

(** The ports allocated for a load balancer of the listing *)
Lemma allocated_for_lb draws pa lbs pa' draws' lb eps : reverse_exact pa →
  NoDup ((mjoin (lbAllocations <$> lbs)).*1) → AllocatePortsForLoadBalancers draws pa lbs = Some (pa', draws') →
  lb ∈ lbs → lbs_Endpoints (lb_Spec lb) = [eps] →
  ∀ p, p ∈ lbe_Ports eps → is_Some (entry (portLookup pa') (lbEndpointKey lb 0) (listenerKey p)).
Proof.
  intros Hex Hnd Ha Hlb He p Hp.
  apply (allocateAll_spec _ _ _ _ _ Hex Hnd Ha (lbEndpointKey lb 0) (listenerKey <$> lbe_Ports eps)); [|by apply list_elem_of_fmap_2].
  apply list_elem_of_join. exists (lbAllocations lb). split; [|by apply list_elem_of_fmap_2].
  unfold lbAllocations. rewrite He. by left.
Qed.

Lemma CreateServicePorts_mapped pa lb eps svc : mapped lb eps → is_Some (CreateServicePorts pa lb svc).
Proof.
  intros Hm. unfold CreateServicePorts. rewrite (mapped_endpoints _ _ Hm). apply fmap_is_Some.
  destruct (desiredPorts _ _ _ _ _ _) eqn:Hd; [done|]. apply desiredPorts_None in Hd; [|lia].
  pose proof (f_equal length (mapped_ports _ _ Hm)) as Hl. rewrite !length_fmap in Hl. simpl in Hd. lia.
Qed.

(** The ports do not depend on the status. *)
Lemma CreateServicePorts_status pa lb lb' svc : lb_Meta lb' = lb_Meta lb → lb_Spec lb' = lb_Spec lb →
  CreateServicePorts pa lb' svc = CreateServicePorts pa lb svc.
Proof.
  intros Hm Hs. unfold CreateServicePorts. rewrite Hs. destruct (lbs_Endpoints (lb_Spec lb)) as [|eps rest]; [done|]. f_equal.
  generalize 0. induction (lbs_Ports (lb_Spec lb)) as [|p ports IH]; intros i; simpl; [done|].
  rewrite IH. unfold desiredPort. by rewrite Hm.
Qed.

Lemma mapped_spec lb lb' eps : lb_Spec lb' = lb_Spec lb → mapped lb eps → mapped lb' eps.
Proof. intros Hs [? ? ?]. by split; rewrite Hs. Qed.

(** From the finalizer to the status; what the reconcile leaves *)
Record converged (req : NamespacedName) (lb : LoadBalancer) (eps : LoadBalancerEndpoints) (tenant : Tenant) (config : Config)
  (existing : option Service) (s' : Manager) (lb' : LoadBalancer) (svc : Service) : Prop := {
  converged_lb : findObject LoadBalancer (mg_cluster s') req = Some lb';
  converged_spec : lb_Spec lb' = lb_Spec lb;
  converged_finalizer : CleanupFinalizer ∈ om_Finalizers (lb_Meta lb');
  converged_service : findObject Service (mg_cluster s') (req.1, envoyResourcePattern req.2) = Some svc;
  converged_serves : ∃ ports, CreateServicePorts (mg_alloc s') lb' (default zeroService existing) = Some ports ∧
    servesAs (askedService lb' req.1 (loadBalancerClass tenant config)
                (GetAnnotations (tn_Annotations tenant) (cf_Annotations config)) ports existing) svc;
  converged_published : published (mg_alloc s') lb' eps;
}.

Section theorems.
Context (managerNamespace : string) (checkDNSResolution checkTLSHealth : string -> bool).
Context (random : option (list N)) (now : Z).
#[local] Abbreviation reconcile := (Reconcile managerNamespace checkDNSResolution checkTLSHealth random now).

Lemma reconcileActive_ok (req : NamespacedName) (s : Manager) lb lbs eps tenant config pa' draws' :
  cl_faults (mg_cluster s) = [] → well_formed (mg_cluster s) → reverse_exact (mg_alloc s) →
  findObject LoadBalancer (mg_cluster s) req = Some lb → mapped lb eps → om_Deleting (lb_Meta lb) = false →
  ShouldConfigureHostname (om_Annotations (lb_Meta lb)) (lbs_Hostname (lb_Spec lb)) (tn_DNS tenant) (cf_DNS config) = false →
  lb ∈ lbs → NoDup ((mjoin (lbAllocations <$> lbs)).*1) →
  AllocatePortsForLoadBalancers (mg_draws s) (mg_alloc s) lbs = Some (pa', draws') →
  let existing := findObject Service (mg_cluster s) (req.1, envoyResourcePattern req.2) in
  ∃ s' lb' svc, reconcileActive checkDNSResolution checkTLSHealth random now lb lbs req.1 tenant config s = (Ret tt, s') ∧
    mg_alloc s' = pa' ∧ converged req lb eps tenant config existing s' lb' svc.
Proof.
  intros Hno Hwf Hex Hf Hm Hd Hh Hlb Hnd Ha existing. pose proof (findObject_key _ _ _ Hf) as Hk.
  destruct (ensureFinalizer_ok _ Hno Hwf lb req Hf Hd) as (c1 & lb1 & H1 & Hc1 & Hno1 & Hf1 & Hs1 & Ha1 & Hin).
  pose proof (findObject_key _ _ _ Hf1) as Hk1.
  assert (om_Name (lb_Meta lb1) = req.2) as Hn1 by by rewrite <-Hk1.
  pose proof (mapped_spec _ _ _ Hs1 Hm) as Hm1.
  destruct (CreateServicePorts_mapped pa' lb1 eps (default zeroService existing) Hm1) as [ports Hports].
  pose proof (reconcileService_ok c1 Hno1 (changes_wf _ _ _ Hc1 Hwf) lb1 req.1 pa' (loadBalancerClass tenant config)
    (GetAnnotations (tn_Annotations tenant) (cf_Annotations config)) ports) as Hsvc.
  cbv zeta in Hsvc. rewrite Hn1, (findObject_frame _ _ _ _ Hc1) in Hsvc by done. simpl in Hsvc. destruct (Hsvc Hports) as (c2 & svc & H2 & Hc2 & Hno2 & Hsv & Hserves).
  assert (findObject LoadBalancer c2 req = Some lb1) as Hf2 by by rewrite (findObject_frame _ _ _ _ Hc2).
  destruct (updateStatus_ok c2 Hno2 checkDNSResolution checkTLSHealth lb1 req eps [] svc "" Hf2)
    as (c3 & lb3 & H3 & Hc3 & Hf3 & Hmeta3 & Hs3 & Hst3); [apply (mapped_endpoints _ _ Hm1)|].
  exists {| mg_cluster := c3; mg_alloc := pa'; mg_draws := draws'; mg_cache := mg_cache s |}, lb3, svc.
  split_and!; [|done|].
  - unfold reconcileActive. cbv zeta. step_eval ltac:(by eapply kube_eval).
    step_eval ltac:(unfold allocating; simpl; rewrite Ha; reflexivity). step_eval ltac:(reflexivity). simpl mg_alloc. rewrite Hn1.
    step_eval ltac:(by eapply kube_eval). step_eval ltac:(eapply kube_eval; rewrite (Get_eval c2 Hno2), Hsv; reflexivity).
    rewrite Ha1, Hs1, Hh. step_eval ltac:(reflexivity). cbv beta iota. exact (kube_eval _ {| s with mg_cluster := c2; mg_alloc := pa'; mg_draws := draws' |} _ _ H3).
  - assert (CreateServicePorts pa' lb3 (default zeroService existing) = Some ports) as Hports3.
    { by rewrite (CreateServicePorts_status _ lb1). }
    split; simpl; [done|congruence|by rewrite Hmeta3|by rewrite (findObject_frame _ _ _ _ Hc3)| |].
    + exists ports. split; [done|]. unfold askedService, desiredService, serviceLabels. rewrite Hmeta3, Hs3. exact Hserves.
    + assert (objKey lb3 = objKey lb) as Hk3. { rewrite Hk, <-Hk1. unfold objKey. simpl. by rewrite Hmeta3. }
      split; [by eapply mapped_spec|intros p Hp|].
      * assert (lbEndpointKey lb3 0 = lbEndpointKey lb 0) as ->. { injection Hk3 as Hk3a Hk3b. unfold lbEndpointKey. simpl in *. congruence. }
        eapply allocated_for_lb; [exact Hex|exact Hnd|exact Ha|exact Hlb|apply (mapped_endpoints _ _ Hm)|exact Hp].
      * exists (default zeroService existing), ports. split; [done|]. by rewrite Hst3, (serves_ports _ _ Hserves).
Qed.

(** The manager serves the load balancers of the tenant. *)
Record enabled (c : Cluster) (ns : string) (tenant : Tenant) (config : Config) : Prop := {
  enabled_tenant : findObject Tenant c ("", RemoveTenantPrefix ns) = Some tenant;
  enabled_config : default DefaultConfig (findObject Config c (managerNamespace, DefaultConfigResourceName)) = config;
  enabled_active : shouldReconcile tenant config = (true, false);
}.

(** C5: When the calls go through, one reconcile of a load balancer without a hostname, which has
    one endpoint whose ports match its own one to one, under distinct names, and whose tenant
    has load balancers enabled, leaves it with the finalizer, leaves a Service that serves
    what is asked for with the ports of the new allocator, and publishes those ports in the
    status. *)
Theorem lb_reconcile_converges (req : NamespacedName) (s : Manager) (lb : LoadBalancer) (eps : LoadBalancerEndpoints)
  (tenant : Tenant) (config : Config) (pa' : PortAllocator) (draws' : list Z) :
  cl_faults (mg_cluster s) = [] → well_formed (mg_cluster s) → rtc step NewPortAllocator (mg_alloc s) →
  enabled (mg_cluster s) req.1 tenant config →
  findObject LoadBalancer (mg_cluster s) req = Some lb → mapped lb eps → om_Deleting (lb_Meta lb) = false →
  ShouldConfigureHostname (om_Annotations (lb_Meta lb)) (lbs_Hostname (lb_Spec lb)) (tn_DNS tenant) (cf_DNS config) = false →
  AllocatePortsForLoadBalancers (mg_draws s) (mg_alloc s) (listObjects LoadBalancer (mg_cluster s) (Some req.1) ∅) = Some (pa', draws') →
  ∃ s' lb' svc, reconcile req s = (Ret tt, s') ∧ mg_alloc s' = pa' ∧
    converged req lb eps tenant config (findObject Service (mg_cluster s) (req.1, envoyResourcePattern req.2)) s' lb' svc.
Proof.
  intros Hno Hwf Hpa Hen Hf Hm Hd Hh Ha. pose proof (findObject_key _ _ _ Hf) as Hk.
  unfold Reconcile.
  step_eval ltac:(eapply kube_read, try_eval; rewrite (Get_eval _ Hno), Hf; reflexivity).
  cbv beta iota. rewrite (mapped_endpoints _ _ Hm), bool_decide_eq_false_2 by done.
  step_eval ltac:(apply kube_read, (List_eval _ Hno)). cbv beta iota. rewrite Hd.
  assert (om_Namespace (lb_Meta lb) = req.1) as -> by by rewrite <-Hk.
  step_eval ltac:(by eapply kube_read, GetTenantAndConfig_eval; [|apply (enabled_tenant _ _ _ _ Hen)]).
  rewrite (enabled_config _ _ _ _ Hen). cbv beta iota.
  rewrite (enabled_active _ _ _ _ Hen), andb_false_r. destruct (reachable_inv _ Hpa) as (Hex & _ & _).
  apply reconcileActive_ok with (pa' := pa') (draws' := draws'); try done; [|by apply NoDup_allocations].
  apply elem_of_listObjects; [done|]. split_and!; [by rewrite Hk|by apply bool_decide_eq_true; rewrite <-Hk|apply map_empty_subseteq].
Qed.
End theorems.

(** ** Samples *)

Definition sampleEndpoints : LoadBalancerEndpoints :=
  {| lbe_Name := ""; lbe_Addresses := []; lbe_AddressesReference := Some DefaultAddressName;
     lbe_Ports := [{| ep_Name := "http"; ep_Port := 30080; ep_Protocol := ProtocolTCP |}] |}.

Lemma sampleLB_mapped : mapped sampleLB sampleEndpoints.
Proof. split; [reflexivity|reflexivity|apply NoDup_singleton]. Qed.

Lemma sampleAllocator_reachable : rtc step NewPortAllocator sampleAllocator.
Proof.
  apply rtc_once, (step_AllocatePorts [42%Z] NewPortAllocator "tenant-a-uid-1-ep-0" ["30080-TCP"] sampleAllocator true []).
  - repeat constructor; port_lia.
  - vm_compute. reflexivity.
Qed.

Lemma sampleLB_published : published sampleAllocator sampleLB sampleEndpoints.
Proof.
  split; [apply sampleLB_mapped| |].
  - intros p ->%list_elem_of_singleton. by eexists.
  - exists {| zeroService with svc_Ports := [samplePort "http" 80 10042] |}. eexists. split; reflexivity.
Qed.

(** The allocator once a Route has a port too, and the status of that Route *)
Definition restartedAllocator : PortAllocator :=
  default NewPortAllocator (fst <$> AllocatePortsForRoutes [43]%Z sampleAllocator [sampleRoute "r1" "ns1"]).

Definition publishedSample : Route :=
  {| (sampleRoute "r1" "ns1") with rt_Status :=
       {| emptyRouteStatus with rrs_Services :=
            Some {[ RouteServiceMapKey "backend" "svc" :=
                      {| rss_State := emptyResourceState; rss_Ports := [{| (samplePort "http" 80 10043) with sp_NodePort := 0 |}] |} ]} |} |}.

Lemma restartedAllocator_reachable : rtc step NewPortAllocator restartedAllocator.
Proof.
  eapply rtc_r; [apply sampleAllocator_reachable|].
  apply (step_AllocatePorts [43%Z] sampleAllocator "tenant-tenant-a-route-backend-svc-web" ["80-TCP"] restartedAllocator true []).
  - repeat constructor; port_lia.
  - vm_compute. reflexivity.
Qed.

Lemma restarted_published : published restartedAllocator sampleLB sampleEndpoints ∧ publishedRoute restartedAllocator publishedSample.
Proof.
  split; split; [apply sampleLB_mapped| | | |].
  - intros p ->%list_elem_of_singleton. by eexists.
  - exists {| zeroService with svc_Ports := [samplePort "http" 80 10042] |}. eexists. split; vm_compute; reflexivity.
  - intros source svc [= <-] ->%list_elem_of_singleton. eexists. split; vm_compute; reflexivity.
  - intros source svc p [= <-] ->%list_elem_of_singleton ->%list_elem_of_singleton. vm_compute. by eexists.
Qed.

Lemma restart_keeps_ports_witness :
  ∃ pa', LoadState sampleIntValue NewPortAllocator (Ok [sampleLB]) (Ok [publishedSample]) = Ok pa' ∧
    sub_table (portLookup pa') (portLookup restartedAllocator) ∧
    ∀ route source svc p, route ∈ [publishedSample] → rt_Source route = Some source → svc ∈ ks_Services source →
      p ∈ svc_Ports svc →
      Lookup pa' (routeEndpointKey route source svc) (EnvoyListenerKey (sp_Port p) (sp_Protocol p)) =
      Lookup restartedAllocator (routeEndpointKey route source svc) (EnvoyListenerKey (sp_Port p) (sp_Protocol p)).
Proof.
  destruct (restart_keeps_ports sampleIntValue (λ _, eq_refl) restartedAllocator restartedAllocator_reachable
    NewPortAllocator [sampleLB] [publishedSample]) as (pa' & Hl & Hsub & _ & Hroute).
  - intros lb ->%list_elem_of_singleton. exists sampleEndpoints. apply restarted_published.
  - intros route ->%list_elem_of_singleton. apply restarted_published.
  - exists pa'. split; [exact Hl|]. split; [exact Hsub|exact Hroute].
Defined.

Example restarted_ports :
  Lookup restartedAllocator "tenant-a-uid-1-ep-0" "30080-TCP" = (10042%Z, true) ∧
  Lookup restartedAllocator "tenant-tenant-a-route-backend-svc-web" "80-TCP" = (10043%Z, true).
Proof. split; vm_compute; reflexivity. Qed.

Definition servedManager : Manager := sampleManager [OLoadBalancer sampleLB; OTenant sampleTenant].

Lemma lb_reconcile_converges_witness :
  ∃ s' lb' svc, Reconcile "kubelb" (λ _, true) (λ _, true) None 0%Z ("tenant-a", "uid-1") servedManager = (Ret tt, s') ∧
    mg_alloc s' = sampleAllocator ∧
    converged ("tenant-a", "uid-1") sampleLB sampleEndpoints sampleTenant DefaultConfig None s' lb' svc.
Proof.
  apply (lb_reconcile_converges "kubelb" (λ _, true) (λ _, true) None 0%Z ("tenant-a", "uid-1") servedManager sampleLB
    sampleEndpoints sampleTenant DefaultConfig sampleAllocator [43%Z]).
  - reflexivity.
  - apply (bool_decide_unpack (well_formed _)). vm_compute. exact I.
  - apply rtc_refl.
  - split; vm_compute; reflexivity.
  - vm_compute. reflexivity.
  - apply sampleLB_mapped.
  - reflexivity.
  - reflexivity.
  - vm_compute. reflexivity.
Defined.
