(* ===== verification/EnvoyController.v ===== *)
(** * The Envoy control plane controller

    [internal/controllers/kubelb/envoy_cp_controller.go]: for every tenant namespace it runs
    a Deployment or DaemonSet of Envoy and keeps, in the cache the xDS server reads, the
    snapshot of the load balancers and routes of that namespace. *)

From S2P Require Import Prelude GoStrings Api GatewayApi Names PortAllocator Annotations LoadBalancers.
From S2P Require Import Kube Services RouteResources EnvoyResource EnvoyBootstrap Manager LBController.
Local Open Scope go_scope.

Definition RequeueAllResources : string := "requeue-all-for-route".
Definition envoyProxyAppName : string := "kubelb-envoy-proxy".
Definition envoyProxyManagedByVal : string := "kubelb".
Definition envoyImage : string := "envoyproxy/envoy:distroless-v1.37.11".
Definition envoyProxyContainerName : string := "envoy-proxy".
Definition shutdownManagerContainerName : string := "shutdown-manager".
Definition AnnotationResourceNamingVersion : string := "kubelb.k8c.io/resource-naming-version".
Definition ResourceNamingVersion : string := "2".

Definition defaultEnvoyProxyResources : ResourceRequirements :=
  {| rq_Requests := <["cpu" := "200m"]> {["memory" := "256Mi"]}; rq_Limits := <["cpu" := "2"]> {["memory" := "1Gi"]} |}.

(** ** The pods of the proxy *)

Definition probe (path : string) (port timeout failures : Z) : Probe :=
  {| prb_Path := path; prb_Port := port; prb_TimeoutSeconds := timeout; prb_PeriodSeconds := 10;
     prb_SuccessThreshold := 1; prb_FailureThreshold := failures |}.
Definition containerPort (name : string) (port : Z) : ContainerPort :=
  {| cp_Name := name; cp_ContainerPort := port; cp_Protocol := ProtocolTCP |}.

Definition envoyProxyAnnotations (config : Config) : StrMap :=
  let annotations : StrMap := {[ AnnotationResourceNamingVersion := ResourceNamingVersion ]} in
  if default false (ep_PodMonitor (cf_EnvoyProxy config)) then annotations
  else <["prometheus.io/path" := "/stats/prometheus"]>
         (<["prometheus.io/port" := Itoa EnvoyStatsPort]> (<["prometheus.io/scrape" := "true"]> annotations)).

Definition gracefulShutdownEnabled (e : EnvoyProxy) : bool :=
  negb (default false (gs_Disabled <$> ep_GracefulShutdown e)).
Definition drainTimeout (e : EnvoyProxy) : Z :=
  default DefaultEnvoyDrainTimeout ((λ d, Z.quot d (10 ^ 9)) <$> (ep_GracefulShutdown e ≫= gs_DrainTimeout)).
Definition terminationGracePeriod (e : EnvoyProxy) : Z :=
  default DefaultEnvoyTerminationGracePeriod (ep_GracefulShutdown e ≫= gs_TerminationGracePeriodSeconds).

(** Of the tenant, or else of the config, or else the default *)
Definition envoyResources (e : EnvoyProxy) (tenant : Tenant) : ResourceRequirements :=
  match tn_EnvoyProxy tenant ≫= tep_Resources with
  | Some r => r
  | None => default defaultEnvoyProxyResources (ep_Resources e)
  end.

Definition envoyContainer (bootstrap : string) (namespace snapshotName : string) (e : EnvoyProxy) (tenant : Tenant) : Container :=
  {| ct_Name := envoyProxyContainerName; ct_Image := envoyImage; ct_Command := [];
     ct_Args := ["--config-yaml"; bootstrap; "--service-node"; snapshotName; "--service-cluster"; namespace];
     ct_Ports := [containerPort "readiness" EnvoyReadinessPort; containerPort "healthcheck" EnvoyHealthCheckPort;
                  containerPort "metrics" EnvoyStatsPort];
     ct_Resources := Some (envoyResources e tenant);
     ct_StartupProbe := Some (probe EnvoyReadinessPath EnvoyReadinessPort 5 30);
     ct_ReadinessProbe := Some (probe EnvoyHealthCheckPath EnvoyHealthCheckPort 5 2);
     ct_LivenessProbe := Some (probe EnvoyHealthCheckPath EnvoyHealthCheckPort 5 3);
     ct_PreStop := if gracefulShutdownEnabled e then Some (ShutdownManagerReadyPath, ShutdownManagerPort) else None |}.

Definition shutdownManagerContainer (e : EnvoyProxy) : Container :=
  let health := probe ShutdownManagerHealthCheckPath ShutdownManagerPort 1 in
  {| ct_Name := shutdownManagerContainerName; ct_Image := DefaultShutdownManagerImage; ct_Command := ["envoy-gateway"];
     ct_Args := ["envoy"; "shutdown-manager"; "--ready-timeout=" ⊕ Itoa (drainTimeout e + 10) ⊕ "s"];
     ct_Ports := [containerPort "shutdown" ShutdownManagerPort];
     ct_Resources := Some {| rq_Requests := <["cpu" := "10m"]> {["memory" := "32Mi"]}; rq_Limits := ∅ |};
     ct_StartupProbe := Some (health 30%Z); ct_ReadinessProbe := Some (health 3%Z); ct_LivenessProbe := Some (health 3%Z);
     ct_PreStop := None |}.

Definition envoySelector (appName : string) : StrMap := {[ LabelAppKubernetesName := appName ]}.

(** [envoyProxy.Tolerations] is used when it has elements, which is the same. *)
Definition podTemplate (bootstrap : string) (config : Config) (namespace appName snapshotName : string) (tenant : Tenant)
  : PodTemplateSpec :=
  let e := cf_EnvoyProxy config in
  {| pt_Name := appName; pt_Namespace := namespace;
     pt_Labels := Some (<[LabelAppKubernetesManagedBy := "kubelb"]> {[ LabelAppKubernetesName := appName ]});
     pt_Annotations := Some (envoyProxyAnnotations config);
     pt_TerminationGracePeriodSeconds := Some (terminationGracePeriod e);
     pt_Containers := envoyContainer bootstrap namespace snapshotName e tenant ::
                      (if gracefulShutdownEnabled e then [shutdownManagerContainer e] else []);
     pt_Affinity := ep_Affinity e; pt_Tolerations := ep_Tolerations e; pt_NodeSelector := ep_NodeSelector e;
     pt_TopologySpreadConstraints :=
       if ep_SinglePodPerNode e
       then [{| tsc_MaxSkew := 1; tsc_TopologyKey := "kubernetes.io/hostname"; tsc_WhenUnsatisfiable := "ScheduleAnyway";
                tsc_MatchLabels := envoySelector appName |}]
       else [] |}.

Definition podTemplateSpecNeedsUpdate (original desired : PodTemplateSpec) : bool :=
  negb (bool_decide (pt_Annotations original = pt_Annotations desired)) ||
  negb (bool_decide (pt_Labels original = pt_Labels desired)) ||
  negb (bool_decide (pt_TerminationGracePeriodSeconds original = pt_TerminationGracePeriodSeconds desired)) ||
  negb (bool_decide (pt_Containers original = pt_Containers desired)) ||
  negb (bool_decide (pt_Affinity original = pt_Affinity desired)) ||
  negb (bool_decide (pt_Tolerations original = pt_Tolerations desired)) ||
  negb (bool_decide (pt_NodeSelector original = pt_NodeSelector desired)) ||
  negb (bool_decide (pt_TopologySpreadConstraints original = pt_TopologySpreadConstraints desired)).

Definition replicasChanged (original desired : option Z) : bool := negb (bool_decide (original = desired)).

(** The replicas of the tenant, or else of the config *)
Definition desiredReplicas (config : Config) (tenant : Tenant) : Z :=
  default (ep_Replicas (cf_EnvoyProxy config)) (tn_EnvoyProxy tenant ≫= tep_Replicas).

Definition envoyProxyMeta (appName namespace : string) : ObjectMeta :=
  objectMeta (envoyResourcePattern appName) namespace ""
    (Some (<[LabelAppKubernetesName := envoyProxyAppName]>
          (<[LabelAppKubernetesInstance := appName]>
          (<[LabelAppKubernetesManagedBy := envoyProxyManagedByVal]> ∅)))) None.

Definition zeroTemplate : PodTemplateSpec :=
  {| pt_Name := ""; pt_Namespace := ""; pt_Labels := None; pt_Annotations := None; pt_TerminationGracePeriodSeconds := None;
     pt_Containers := []; pt_Affinity := None; pt_Tolerations := []; pt_NodeSelector := None;
     pt_TopologySpreadConstraints := [] |}.

Section controller.
(** The namespace of the manager, its xDS server and its JSON encoding; the encodings and the
    hash of the snapshot version; [Consistent] of the snapshot; what the reads of the address
    lists and the cache's notifications answer. Every list of addresses is read at most once
    in a reconcile. *)
Context (managerNamespace : string) (server : Server) (protojson : Bootstrap -> option string).
Context (MarshalCluster : EnvoyCluster -> result (list N)) (MarshalListener : EnvoyListener -> result (list N))
  (MarshalEndpoints : ClusterLoadAssignment -> result (list N)) (HashResource : list N -> string).
Context (Consistent : Snapshot -> bool).
Context (addressFault : string -> string -> option string) (notifyFault : string -> option string).

Definition getEnvoyProxyPodSpec (config : Config) (namespace appName snapshotName : string) (tenant : Tenant)
  : M Cluster PodTemplateSpec :=
  text ← deref (GenerateBootstrap protojson server EnvoyAdminListenerAddress config).1;
  mret (podTemplate text config namespace appName snapshotName tenant).

Definition ensureDeployment (config : Config) (namespace appName snapshotName : string) (tenant : Tenant) : M Cluster unit :=
  found ← GetIfExists Deployment (namespace, envoyResourcePattern appName);
  template ← getEnvoyProxyPodSpec config namespace appName snapshotName tenant;
  let replicas := desiredReplicas config tenant in
  let original := default {| dep_Meta := envoyProxyMeta appName namespace; dep_Replicas := None; dep_Selector := None;
                             dep_Template := zeroTemplate |} found in
  let desired := {| original with dep_Replicas := Some replicas; dep_Selector := Some (envoySelector appName);
                                  dep_Template := template |} in
  match found with
  | None => _ ← Create desired; mret tt
  | Some original =>
      if podTemplateSpecNeedsUpdate (dep_Template original) template || replicasChanged (dep_Replicas original) (Some replicas)
      then _ ← wrap "failed to update envoy proxy" (Update desired); mret tt
      else mret tt
  end.

(** A DaemonSet has no replicas to compare. *)
Definition ensureDaemonSet (config : Config) (namespace appName snapshotName : string) (tenant : Tenant) : M Cluster unit :=
  found ← GetIfExists DaemonSet (namespace, envoyResourcePattern appName);
  template ← getEnvoyProxyPodSpec config namespace appName snapshotName tenant;
  let original := default {| ds_Meta := envoyProxyMeta appName namespace; ds_Selector := None; ds_Template := zeroTemplate |} found in
  let desired := {| original with ds_Selector := Some (envoySelector appName); ds_Template := template |} in
  match found with
  | None => _ ← Create desired; mret tt
  | Some original =>
      if podTemplateSpecNeedsUpdate (ds_Template original) template
      then _ ← wrap "failed to update envoy proxy" (Update desired); mret tt
      else mret tt
  end.

Definition ensureEnvoyProxy (config : Config) (namespace appName snapshotName : string) (tenant : Tenant) : M Cluster unit :=
  if ep_UseDaemonset (cf_EnvoyProxy config) then ensureDaemonSet config namespace appName snapshotName tenant
  else ensureDeployment config namespace appName snapshotName tenant.

Definition cleanupEnvoyProxy (config : Config) (appName namespace : string) : M Cluster unit :=
  let name := envoyResourcePattern appName in
  wrap ("failed to delete envoy proxy " ⊕ name)
    (if ep_UseDaemonset (cf_EnvoyProxy config) then DeleteIgnoreNotFound DaemonSet (namespace, name)
     else DeleteIgnoreNotFound Deployment (namespace, name)).

(** ** The snapshot *)

Definition ListLoadBalancersAndRoutes (namespace : string) : M Cluster (list LoadBalancer * list Route) :=
  loadBalancers ← List LoadBalancer (Some namespace) ∅;
  routes ← List Route (Some namespace) ∅;
  mret (filter (λ lb, om_Deleting (lb_Meta lb) = false) loadBalancers,
        filter (λ route, om_Deleting (rt_Meta route) = false) routes).

(** [client.Get] of a list of addresses *)
Definition readAddresses (c : Cluster) (ns name : string) : result (list EndpointAddress) :=
  match addressFault ns name, findObject Addresses c (ns, name) with
  | Some e, _ => Err e
  | None, Some a => Ok (ad_Addresses a)
  | None, None => Err (ErrorString (notFound (O:=Addresses) (ns, name)))
  end.

Definition desiredSnapshot (config : Config) (lbs : list LoadBalancer) (routes : list Route) (s : Manager)
  : result (string * Snapshot) :=
  MapSnapshot (mg_alloc s) (ResolveHeaderLimits (Some config)) (readAddresses (mg_cluster s))
    MarshalCluster MarshalListener MarshalEndpoints HashResource lbs routes.

(** [SetSnapshot] stores the snapshot before it answers the open watches. *)
Definition setSnapshot (snapshotName : string) (snapshot : string * Snapshot) : M Manager unit :=
  _ ← modify (λ s, {| s with mg_cache := <[snapshotName := snapshot]> (mg_cache s) |});
  match notifyFault snapshotName with
  | Some e => raise (Wrap "failed to set a new Envoy cache snapshot" (Errorf e))
  | None => mret tt
  end.

Definition updateCache (config : Config) (snapshotName : string) (lbs : list LoadBalancer) (routes : list Route)
  : M Manager unit :=
  desired ← gets (desiredSnapshot config lbs routes);
  match desired with
  | Err e => raise (Errorf e)
  | Ok (desiredVersion, snapshot) =>
      current ← gets (λ s, mg_cache s !! snapshotName);
      if bool_decide (fst <$> current = Some desiredVersion) then mret tt
      else if Consistent snapshot then setSnapshot snapshotName (desiredVersion, snapshot)
      else raise (Wrap "new Envoy config snapshot is not consistent" (Errorf "inconsistent"))
  end.

(** [reconcile]: the app and the snapshot are named like the namespace. *)
Definition reconcile (namespace : string) (config : Config) : M Manager unit :=
  '(lbs, routes) ← kube (wrap "failed to list LoadBalancers and Routes" (ListLoadBalancersAndRoutes namespace));
  if bool_decide (lbs = []) && bool_decide (routes = []) then
    _ ← modify (λ s, {| s with mg_cache := delete namespace (mg_cache s) |});
    kube (cleanupEnvoyProxy config namespace namespace)
  else
    tenant ← kube (wrap "failed to retrieve tenant" (GetTenant (RemoveTenantPrefix namespace)));
    _ ← kube (wrap "failed to update Envoy proxy" (ensureEnvoyProxy config namespace namespace namespace tenant));
    _ ← allocating (λ draws pa, AllocatePortsForLoadBalancers draws pa lbs);
    _ ← allocating (λ draws pa, AllocatePortsForRoutes draws pa routes);
    updateCache config namespace lbs routes.

Definition Reconcile (req : NamespacedName) : M Manager unit :=
  config ← kube (wrap "failed to retrieve config" (GetConfig managerNamespace));
  reconcile req.1 config.
End controller.

(** ** Which namespaces an event concerns *)

Definition enqueueLoadBalancers (o : Object) : list NamespacedName := [(om_Namespace (metaOf o), RequeueAllResources)].

Definition enqueueTenantLoadBalancers (o : Object) : list NamespacedName :=
  [(tenantNamespacePattern (om_Name (metaOf o)), RequeueAllResources)].

Definition enqueueAllLoadBalancers : M Cluster (list NamespacedName) :=
  r ← try (List Tenant None ∅);
  mret match r with
       | inl tenants => (λ t, (tenantNamespacePattern (om_Name (tn_Meta t)), RequeueAllResources)) <$> tenants
       | inr _ => []
       end.

(** A change of what the proxies are built from. Other objects than a Config panic. *)
Definition configSpecChangedPredicate (e : Event) : option bool :=
  match e with
  | CreateEvent _ | DeleteEvent _ => Some true
  | UpdateEvent (OConfig oldConfig) (OConfig newConfig) =>
      Some (negb (bool_decide (cf_EnvoyProxy oldConfig = cf_EnvoyProxy newConfig)))
  | UpdateEvent _ _ => None
  | GenericEvent _ => Some false
  end.

Definition tenantSpecChangedPredicate (e : Event) : option bool :=
  match e with
  | CreateEvent _ => Some false
  | DeleteEvent _ => Some true
  | UpdateEvent (OTenant oldTenant) (OTenant newTenant) =>
      Some (negb (bool_decide (cls_Class (tn_Ingress oldTenant) = cls_Class (tn_Ingress newTenant))) ||
            negb (bool_decide (tn_EnvoyProxy oldTenant = tn_EnvoyProxy newTenant)))
  | UpdateEvent _ _ => None
  | GenericEvent _ => Some false
  end.

(** ** What a reconcile changes *)

Definition workload (ns : string) (k : ObjectKey) : Prop :=
  k = storeKey Deployment (ns, envoyResourcePattern ns) ∨ k = storeKey DaemonSet (ns, envoyResourcePattern ns).

Section cache.
Context (managerNamespace : string) (server : Server) (protojson : Bootstrap -> option string).
Context (MarshalCluster : EnvoyCluster -> result (list N)) (MarshalListener : EnvoyListener -> result (list N))
  (MarshalEndpoints : ClusterLoadAssignment -> result (list N)) (HashResource : list N -> string).
Context (Consistent : Snapshot -> bool).
Context (addressFault : string -> string -> option string) (notifyFault : string -> option string).
#[local] Abbreviation Version := (snapshotVersion MarshalCluster MarshalListener MarshalEndpoints HashResource).
#[local] Abbreviation desired := (desiredSnapshot MarshalCluster MarshalListener MarshalEndpoints HashResource addressFault).
#[local] Abbreviation reconcileEnvoy :=
  (Reconcile managerNamespace server protojson MarshalCluster MarshalListener MarshalEndpoints HashResource Consistent
     addressFault notifyFault).

(** Every cached snapshot is one Envoy accepts, passed the consistency check and carries the
    version of its contents. *)
Definition cacheSound (s : Manager) : Prop := ∀ node v snap, mg_cache s !! node = Some (v, snap) →
  accepted snap ∧ Consistent snap = true ∧ Version snap = Ok v.

Record serves (ns : string) (s s' : Manager) : Prop := {
  serves_cluster : changes (workload ns) (mg_cluster s) (mg_cluster s');
  serves_alloc : valid_draws (mg_draws s) → rtc step (mg_alloc s) (mg_alloc s') ∧ valid_draws (mg_draws s');
  serves_others node : node ≠ ns → mg_cache s' !! node = mg_cache s !! node;
  serves_sound : cacheSound s → cacheSound s';
}.

#[local] Instance serves_preorder ns : PreOrder (serves ns).
Proof.
  split.
  - intros s. split; [reflexivity|by split|done|done].
  - intros s1 s2 s3 [C1 A1 E1 I1] [C2 A2 E2 I2]. split; [by etrans| | |by auto].
    + intros Hv. destruct (A1 Hv) as [R1 V1]. destruct (A2 V1) as [R2 V2]. split; [by etrans|done].
    + intros node Hn. by rewrite E2, E1.
Qed.

Lemma within_manages {A} ns (m : M Manager A) : within (manages (workload ns)) m → within (serves ns) m.
Proof.
  apply within_weaken. intros s s' [C D E]. split; [done|done|by rewrite E|]. intros Hs node v snap. rewrite E. apply Hs.
Qed.

(** A step that only changes the entry of [ns] in the cache *)
Lemma serves_cache ns s cache : (∀ node, node ≠ ns → cache !! node = mg_cache s !! node) →
  (∀ v snap, cache !! ns = Some (v, snap) → accepted snap ∧ Consistent snap = true ∧ Version snap = Ok v) →
  serves ns s {| s with mg_cache := cache |}.
Proof.
  intros Ho Hn. split; simpl; [reflexivity|by split|done|]. intros Hs node v snap. simpl.
  destruct (decide (node = ns)) as [->|]; [apply Hn|]. rewrite Ho by done. apply Hs.
Qed.

Lemma desired_sound config lbs routes s v snap : desired config lbs routes s = Ok (v, snap) →
  accepted snap ∧ Version snap = Ok v.
Proof.
  unfold desiredSnapshot. intros Hd. split; [by eapply MapSnapshot_accepted|]. by apply MapSnapshot_inv in Hd as (? & ? & _ & _ & ?).
Qed.

Lemma within_updateCache config ns lbs routes :
  within (serves ns) (updateCache MarshalCluster MarshalListener MarshalEndpoints HashResource Consistent addressFault notifyFault
    config ns lbs routes).
Proof.
  intros s. unfold updateCache, mbind, M_bind, gets. destruct (desired config lbs routes s) as [[v snap]|e] eqn:Hd; simpl; [|reflexivity].
  apply desired_sound in Hd as [Ha Hv]. case_bool_decide; [reflexivity|]. destruct (Consistent snap) eqn:Hc; [|reflexivity].
  assert (serves ns s {| s with mg_cache := <[ns := (v, snap)]> (mg_cache s) |}) as Hs.
  { apply serves_cache.
    - intros node Hn. by rewrite lookup_insert_ne.
    - intros v' snap'. rewrite lookup_insert_eq. by intros [= <- <-]. }
  unfold setSnapshot, mbind, M_bind, modify. simpl. by destruct (notifyFault ns).
Qed.

Lemma within_ensureEnvoyProxy config ns tenant :
  within (changes (workload ns)) (ensureEnvoyProxy server protojson config ns ns ns tenant).
Proof.
  assert (workload ns (storeKey Deployment (ns, envoyResourcePattern ns))) as H1 by by left.
  assert (workload ns (storeKey DaemonSet (ns, envoyResourcePattern ns))) as H2 by by right.
  unfold ensureEnvoyProxy, ensureDaemonSet, ensureDeployment, getEnvoyProxyPodSpec. within_solve.
Qed.

Lemma within_cleanupEnvoyProxy config ns : within (changes (workload ns)) (cleanupEnvoyProxy config ns ns).
Proof.
  unfold cleanupEnvoyProxy. within_step. destruct (ep_UseDaemonset _); apply within_DeleteIgnoreNotFound; [by right|by left].
Qed.

Lemma within_reconcileEnvoy req : within (serves req.1) (reconcileEnvoy req).
Proof.
  unfold Reconcile, reconcile, ListLoadBalancersAndRoutes.
  apply within_bind; [apply _|by apply within_manages, within_kube; within_solve|]. intros config.
  apply within_bind; [apply _|by apply within_manages, within_kube; within_solve|]. intros [lbs routes].
  destruct (_ && _).
  - apply within_bind; [apply _| |intros _; apply within_manages, within_kube, within_cleanupEnvoyProxy].
    apply within_modify. intros s. apply serves_cache; [intros node Hn; by rewrite lookup_delete_ne|].
    intros v snap. by rewrite lookup_delete_eq.
  - apply within_bind; [apply _|by apply within_manages, within_kube; within_solve|]. intros tenant.
    apply within_bind; [apply _|apply within_manages, within_kube, within_wrap, within_ensureEnvoyProxy; apply _|]. intros _.
    apply within_bind; [apply _|apply within_manages, within_AllocateForLoadBalancers|]. intros _.
    apply within_bind; [apply _|apply within_manages, within_AllocateForRoutes|]. intros _.
    apply within_updateCache.
Qed.

(** C9: Whatever the API server and the cache's watches answer, a reconcile of a namespace touches
    only the workload and the snapshot of that namespace, and every snapshot a proxy can
    fetch stays one it accepts, under the version of its contents. *)
Theorem envoy_reconcile_invariant (req : NamespacedName) (s : Manager) :
  let s' := (reconcileEnvoy req s).2 in
  (cacheSound s → cacheSound s') ∧
  (∀ node, node ≠ req.1 → mg_cache s' !! node = mg_cache s !! node) ∧
  (∀ k, ¬ workload req.1 k → cl_objects (mg_cluster s') !! k = cl_objects (mg_cluster s) !! k) ∧
  (valid_draws (mg_draws s) → rtc step (mg_alloc s) (mg_alloc s')).
Proof.
  destruct (within_reconcileEnvoy req s) as [[Hf _ _] Ha Ho Hs]. split_and!; [done|done|done|]. intros Hv. by apply Ha.
Qed.

(** The load balancers and routes of a namespace that are not being deleted *)
Definition activeLBs (c : Cluster) (ns : string) : list LoadBalancer :=
  filter (λ lb, om_Deleting (lb_Meta lb) = false) (listObjects LoadBalancer c (Some ns) ∅).
Definition activeRoutes (c : Cluster) (ns : string) : list Route :=
  filter (λ route, om_Deleting (rt_Meta route) = false) (listObjects Route c (Some ns) ∅).

Lemma ListLoadBalancersAndRoutes_Ret ns c p c' : ListLoadBalancersAndRoutes ns c = (Ret p, c') →
  p = (activeLBs c ns, activeRoutes c ns) ∧ cl_objects c' = cl_objects c.
Proof.
  unfold ListLoadBalancersAndRoutes. intros H. minv. apply List_Ret in Hm as [-> Ho], Hm0 as [-> Ho']. split; [|congruence].
  unfold activeRoutes, listObjects. by rewrite Ho.
Qed.

Lemma updateCache_Ret config ns lbs routes s u s' :
  updateCache MarshalCluster MarshalListener MarshalEndpoints HashResource Consistent addressFault notifyFault config ns lbs routes s
    = (Ret u, s') →
  mg_alloc s' = mg_alloc s ∧ mg_cluster s' = mg_cluster s ∧
  ∃ v snap snap', desired config lbs routes s' = Ok (v, snap) ∧ mg_cache s' !! ns = Some (v, snap') ∧
    (snap' = snap ∨ mg_cache s !! ns = Some (v, snap')).
Proof.
  unfold updateCache, mbind, M_bind, gets. destruct (desired config lbs routes s) as [[v snap]|e] eqn:Hd; [|done]. simpl.
  case_bool_decide as Hv.
  - intros [= _ <-]. split_and!; [done..|]. destruct (mg_cache s !! ns) as [[v' snap']|] eqn:Hc; [|done]. injection Hv as ->.
    exists v, snap, snap'. split_and!; [done|done|by right].
  - destruct (Consistent snap); [|done]. unfold setSnapshot, mbind, M_bind, modify. destruct (notifyFault ns); [done|].
    intros [= _ <-]. split_and!; [done..|]. exists v, snap, snap. simpl. rewrite lookup_insert_eq. split_and!; [done|done|by left].
Qed.

(** C10: A reconcile that succeeds leaves the cache right: no snapshot when the namespace has no
    load balancers and routes in use, and otherwise the snapshot of exactly those, made with
    the ports of the allocator, or the one that was there under the same version. *)
Theorem envoy_cache_current (req : NamespacedName) (s s' : Manager) :
  reconcileEnvoy req s = (Ret tt, s') →
  let lbs := activeLBs (mg_cluster s) req.1 in
  let routes := activeRoutes (mg_cluster s) req.1 in
  if bool_decide (lbs = []) && bool_decide (routes = []) then mg_cache s' !! req.1 = None
  else ∃ config v snap snap', desired config lbs routes s' = Ok (v, snap) ∧ mg_cache s' !! req.1 = Some (v, snap') ∧
         (snap' = snap ∨ mg_cache s !! req.1 = Some (v, snap')).
Proof.
  intros H lbs routes. unfold Reconcile, kube in H. minv. simpl in H.
  pose proof (read_objects _ _ _ _ (within_GetConfig nothing _) Hz) as Ht. unfold reconcile, kube in H. minv. simpl in *.
  apply ListLoadBalancersAndRoutes_Ret in Hz0 as [-> Ho].
  assert (activeLBs t req.1 = lbs ∧ activeRoutes t req.1 = routes) as [Hl Hr].
  { unfold lbs, routes, activeLBs, activeRoutes, listObjects. by rewrite Ht. }
  rewrite Hl, Hr in H. destruct (_ && _).
  - minv. injection Hm as <- <-. simpl. by rewrite lookup_delete_eq.
  - minv. exists a.
    apply updateCache_Ret in H as (_ & _ & v & snap & snap' & Hd & Hc & Hor). exists v, snap, snap'. split_and!; [done|done|].
    destruct Hor as [?|Hor]; [by left|]. right. rewrite <-Hor. unfold allocating in *. repeat case_match; by simplify_eq/=.
Qed.
End cache.

(** ** The proxy's workload *)

Section workload.
Context (server : Server) (protojson : Bootstrap -> option string).
#[local] Abbreviation bootstrapText config := ((GenerateBootstrap protojson server EnvoyAdminListenerAddress config).1).

Lemma podTemplateSpecNeedsUpdate_refl t : podTemplateSpecNeedsUpdate t t = false.
Proof. unfold podTemplateSpecNeedsUpdate. by rewrite !bool_decide_eq_true_2. Qed.

(** What the tenant's proxy has to be *)
Definition proxyTemplate (text : string) (config : Config) (tenant : Tenant) (ns : string) : PodTemplateSpec :=
  podTemplate text config ns ns ns tenant.

Lemma getEnvoyProxyPodSpec_eval config ns tenant text c : bootstrapText config = Some text →
  getEnvoyProxyPodSpec server protojson config ns ns ns tenant c = (Ret (proxyTemplate text config tenant ns), c).
Proof. intros Ht. unfold getEnvoyProxyPodSpec. by rewrite Ht. Qed.

(** The template differs from the desired one only where the update does not look. *)
Definition templateMatches (text : string) (config : Config) (tenant : Tenant) (ns : string) (t : PodTemplateSpec) : Prop :=
  podTemplateSpecNeedsUpdate t (proxyTemplate text config tenant ns) = false.

Lemma ensureDeployment_ok config ns tenant text c : cl_faults c = [] → well_formed c → bootstrapText config = Some text →
  ∃ c' d, ensureDeployment server protojson config ns ns ns tenant c = (Ret tt, c') ∧ cl_faults c' = [] ∧
    findObject Deployment c' (ns, envoyResourcePattern ns) = Some d ∧
    templateMatches text config tenant ns (dep_Template d) ∧ dep_Replicas d = Some (desiredReplicas config tenant).
Proof.
  intros Hno Hwf Ht. unfold ensureDeployment, templateMatches. step_eval ltac:(apply (GetIfExists_eval _ Hno)).
  step_eval ltac:(by apply getEnvoyProxyPodSpec_eval). cbv zeta.
  destruct (findObject Deployment c (ns, envoyResourcePattern ns)) as [d|] eqn:Hf.
  - destruct (_ || _) eqn:Hu.
    2: { apply orb_false_iff in Hu as [H1 H2%negb_false_iff%bool_decide_eq_true]. by exists c, d. }
    pose proof (findObject_key _ _ _ Hf) as Hk. destruct (findObject_meta _ _ _ Hwf Hf) as [Hdel _]. simpl default.
    match goal with |- context [Update ?x] => set (o := x) end. change (objKey d) with (objKey o) in Hk.
    destruct (Update_stored c Hno o d) as (c' & Hup & _ & Hno' & Hf'); [by rewrite Hk|by right|done|].
    exists c', (updated d o). rewrite <-Hk. split_and!; [|done|done|apply podTemplateSpecNeedsUpdate_refl|done].
    by erewrite bind_eval by (by apply wrap_eval).
  - simpl default. match goal with |- context [Create ?x] => set (o := x) end.
    destruct (Create_stored c Hno o) as (c' & Hup & _ & Hno' & Hf'); [done|].
    exists c', (created c o). split_and!; [|done|exact Hf'|apply podTemplateSpecNeedsUpdate_refl|done].
    by erewrite bind_eval by exact Hup.
Qed.

Lemma ensureDeployment_stable config ns tenant text c d : cl_faults c = [] → bootstrapText config = Some text →
  findObject Deployment c (ns, envoyResourcePattern ns) = Some d →
  templateMatches text config tenant ns (dep_Template d) → dep_Replicas d = Some (desiredReplicas config tenant) →
  ensureDeployment server protojson config ns ns ns tenant c = (Ret tt, c).
Proof.
  intros Hno Ht Hf Hm Hr. unfold ensureDeployment. step_eval ltac:(apply (GetIfExists_eval _ Hno)).
  step_eval ltac:(by apply getEnvoyProxyPodSpec_eval). cbv zeta. rewrite Hf. rewrite Hm, Hr. unfold replicasChanged.
  by rewrite bool_decide_eq_true_2.
Qed.

(** When the calls go through, the Deployment of the proxy has the desired pods and replicas
    afterwards, and running again changes nothing. *)
Theorem envoy_deployment_converges (config : Config) (ns : string) (tenant : Tenant) (text : string) (c : Cluster) :
  cl_faults c = [] → well_formed c → bootstrapText config = Some text → ep_UseDaemonset (cf_EnvoyProxy config) = false →
  ∃ c' d, ensureEnvoyProxy server protojson config ns ns ns tenant c = (Ret tt, c') ∧
    findObject Deployment c' (ns, envoyResourcePattern ns) = Some d ∧
    templateMatches text config tenant ns (dep_Template d) ∧ dep_Replicas d = Some (desiredReplicas config tenant) ∧
    ensureEnvoyProxy server protojson config ns ns ns tenant c' = (Ret tt, c').
Proof.
  intros Hno Hwf Ht Hd. unfold ensureEnvoyProxy. rewrite Hd.
  destruct (ensureDeployment_ok config ns tenant text c Hno Hwf Ht) as (c' & d & H1 & Hno' & Hf & Hm & Hr).
  exists c', d. split_and!; [done..|]. by eapply ensureDeployment_stable.
Qed.

(** Every probe of the Envoy container is answered by a static listener of its bootstrap. *)
Theorem envoy_probes_answered (config : Config) (ns : string) (tenant : Tenant) (text : string) (pr : Probe) :
  let ct := envoyContainer text ns ns (cf_EnvoyProxy config) tenant in
  pr ∈ omap id [ct_StartupProbe ct; ct_ReadinessProbe ct; ct_LivenessProbe ct] →
  ∃ l, l ∈ bs_Listeners (bootstrap server EnvoyAdminListenerAddress config) ∧
    sa_Port (sl_Address l) = prb_Port pr ∧ answersGet l (prb_Path pr) = true ∧
    ∃ cp, cp ∈ ct_Ports ct ∧ cp_ContainerPort cp = prb_Port pr.
Proof.
  simpl. rewrite !elem_of_cons, elem_of_nil.
  intros [->|[->|[->|[]]]].
  - exists getReadinessProbeListener. split_and!; [by left|done|done|]. eexists. split; [by left|done].
  - exists getHealthCheckListener. split_and!; [by right; left|done|done|]. eexists. split; [by right; left|done].
  - exists getHealthCheckListener. split_and!; [by right; left|done|done|]. eexists. split; [by right; left|done].
Qed.
End workload.

(** Switching between Deployment and DaemonSet leaves the workload of the other kind. *)
Example switching_leaves_workload :
  let c := {| cl_objects := {[ storeKey Deployment ("tenant-a", "envoy-tenant-a") :=
                                 ODeployment {| dep_Meta := envoyProxyMeta "tenant-a" "tenant-a"; dep_Replicas := Some 3%Z;
                                                dep_Selector := None; dep_Template := zeroTemplate |} ]};
              cl_faults := []; cl_uid := 0 |} in
  let config := {| DefaultConfig with cf_EnvoyProxy := {| (cf_EnvoyProxy DefaultConfig) with ep_UseDaemonset := true |} |} in
  match cleanupEnvoyProxy config "tenant-a" "tenant-a" c with
  | (Ret _, c') => bool_decide (is_Some (findObject Deployment c' ("tenant-a", "envoy-tenant-a"))) = true
  | _ => False
  end.
Proof. vm_compute. reflexivity. Qed.

(** ** Samples *)

Definition sampleServer : Server := {| srv_listenAddress := "0.0.0.0:8001"; srv_listenPort := 8001; srv_enableAdmin := false |}.
Definition sampleProto (_ : Bootstrap) : option string := Some "{}".
Definition sampleEnvoyManager : Manager :=
  sampleManager [OLoadBalancer sampleLB; OTenant sampleTenant;
                 OAddresses {| ad_Meta := sampleMeta "tenant-a" DefaultAddressName;
                               ad_Addresses := [{| ea_IP := "10.0.0.1"; ea_Hostname := "" |}] |}].
#[local] Abbreviation sampleReconcile :=
  (Reconcile "kubelb" sampleServer sampleProto sampleMarshal sampleMarshal sampleMarshal (λ _, "v1") (λ _, true)
     (λ _ _, None) (λ _, None) ("tenant-a", RequeueAllResources)).

Lemma envoy_cache_current_witness :
  ∃ s' config v snap snap', sampleReconcile sampleEnvoyManager = (Ret tt, s') ∧
    desiredSnapshot sampleMarshal sampleMarshal sampleMarshal (λ _, "v1") (λ _ _, None) config [sampleLB] [] s' = Ok (v, snap) ∧
    mg_cache s' !! "tenant-a" = Some (v, snap') ∧
    (snap' = snap ∨ mg_cache sampleEnvoyManager !! "tenant-a" = Some (v, snap')).
Proof.
  assert ((sampleReconcile sampleEnvoyManager).1 = Ret tt) as Hok by (vm_compute; reflexivity).
  destruct (sampleReconcile sampleEnvoyManager) as [r s'] eqn:Hr. simpl in Hok. subst r.
  assert (activeLBs (mg_cluster sampleEnvoyManager) ("tenant-a", RequeueAllResources).1 = [sampleLB]) as Hl by (vm_compute; reflexivity).
  assert (activeRoutes (mg_cluster sampleEnvoyManager) ("tenant-a", RequeueAllResources).1 = []) as Hn by (vm_compute; reflexivity).
  pose proof (envoy_cache_current "kubelb" sampleServer sampleProto sampleMarshal sampleMarshal sampleMarshal (λ _, "v1") (λ _, true)
    (λ _ _, None) (λ _, None) ("tenant-a", RequeueAllResources) sampleEnvoyManager s' Hr) as H.
  cbv zeta in H. rewrite Hl, Hn in H. simpl andb in H. cbv iota in H.
  destruct H as (config & v & snap & snap' & H). exists s', config, v, snap, snap'. split; [reflexivity|exact H].
Defined.

Lemma envoy_deployment_converges_witness :
  ∃ c' d, ensureEnvoyProxy sampleServer sampleProto DefaultConfig "tenant-a" "tenant-a" "tenant-a" sampleTenant
            (mg_cluster sampleEnvoyManager) = (Ret tt, c') ∧
    findObject Deployment c' ("tenant-a", "envoy-tenant-a") = Some d ∧
    templateMatches "{}" DefaultConfig sampleTenant "tenant-a" (dep_Template d) ∧
    dep_Replicas d = Some (desiredReplicas DefaultConfig sampleTenant) ∧
    ensureEnvoyProxy sampleServer sampleProto DefaultConfig "tenant-a" "tenant-a" "tenant-a" sampleTenant c' = (Ret tt, c').
Proof.
  apply (envoy_deployment_converges sampleServer sampleProto DefaultConfig "tenant-a" sampleTenant "{}" (mg_cluster sampleEnvoyManager)).
  - reflexivity.
  - apply (bool_decide_unpack (well_formed _)). vm_compute. exact I.
  - reflexivity.
  - reflexivity.
Defined.

Lemma envoy_probes_answered_witness :
  ∃ l, l ∈ bs_Listeners (bootstrap sampleServer EnvoyAdminListenerAddress DefaultConfig) ∧
    sa_Port (sl_Address l) = EnvoyReadinessPort ∧ answersGet l EnvoyReadinessPath = true ∧
    ∃ cp, cp ∈ ct_Ports (envoyContainer "{}" "tenant-a" "tenant-a" (cf_EnvoyProxy DefaultConfig) sampleTenant) ∧
      cp_ContainerPort cp = EnvoyReadinessPort.
Proof.
  apply (envoy_probes_answered sampleServer DefaultConfig "tenant-a" sampleTenant "{}"
    (probe EnvoyReadinessPath EnvoyReadinessPort 5 30)).
  apply elem_of_cons. left. reflexivity.
Defined.
