(* ===== verification/DataPath.v ===== *)
(** * From the published port to the proxy

    The LoadBalancer controller publishes target ports, the Envoy controller builds
    listeners; both ask the same allocator. The theorem here puts the two together. *)

From S2P Require Import Prelude GoStrings Api GatewayApi Names PortAllocator Annotations LoadBalancers Kube.
From S2P Require Import Services RouteResources EnvoyResource EnvoyBootstrap Manager LBController LBSteadyState EnvoyController.
Local Open Scope go_scope.

Section data_path.
Context (MarshalCluster : EnvoyCluster -> result (list N)) (MarshalListener : EnvoyListener -> result (list N))
  (MarshalEndpoints : ClusterLoadAssignment -> result (list N)) (HashResource : list N -> string).
Context (addressFault : string -> string -> option string).
#[local] Abbreviation desired := (desiredSnapshot MarshalCluster MarshalListener MarshalEndpoints HashResource addressFault).

(** The socket the traffic of an upstream arrives at *)
Definition upstreamSocket (p : EndpointPort) (port : Z) : SocketAddress :=
  {| sa_Protocol := if bool_decide (ep_Protocol p = ProtocolUDP) then SocketUDP else SocketTCP;
     sa_Address := wildcardBindAddress; sa_Port := port |}.

Lemma lb_listener_address (pa : PortAllocator) limits lb i p z : rtc step NewPortAllocator pa →
  ep_Protocol p = ProtocolTCP ∨ ep_Protocol p = ProtocolUDP →
  entry (portLookup pa) (lbEndpointKey lb i) (listenerKey p) = Some z →
  ∃ l, (∀ e, pr_Listener (lbPortResources pa limits lb i e p) = Some l) ∧ el_Address l = upstreamSocket p z.
Proof.
  intros Hpa Hp Hz. assert (lookupPort pa (lbEndpointKey lb i) (listenerKey p) (ep_Port p) = z) as Hl.
  { unfold lookupPort. rewrite (proj2 (port_lookup_true pa _ _ z) Hz).
    destruct (reachable_inv _ Hpa) as (_ & _ & Hr). specialize (Hr _ _ _ Hz). unfold to_uint32. rewrite Z.mod_small; port_lia. }
  unfold lbPortResources, upstreamSocket. simpl. fold (lbEndpointKey lb i) (listenerKey p). rewrite Hl.
  destruct Hp as [-> | ->]; simpl; eexists; split; intros; reflexivity.
Qed.

(** C7: Published ports are served: when a load balancer is in use and its ports are published,
    then for every TCP or UDP port of its upstream the status names a target port, and the
    snapshot of the namespace has a listener on exactly that port that forwards to a cluster
    of the snapshot. *)
Theorem published_ports_served (config : Config) (s : Manager) (lbs : list LoadBalancer) (routes : list Route)
  (v : string) (snap : Snapshot) (lb : LoadBalancer) (eps : LoadBalancerEndpoints) (p : EndpointPort) :
  rtc step NewPortAllocator (mg_alloc s) → published (mg_alloc s) lb eps → lb ∈ lbs →
  desired config lbs routes s = Ok (v, snap) →
  p ∈ lbe_Ports eps → ep_Protocol p = ProtocolTCP ∨ ep_Protocol p = ProtocolUDP →
  ∃ sp l z c, sp ∈ ss_Ports (lst_Service (lb_Status lb)) ∧ statusMatch p sp = true ∧
    sp_TargetPort (stp_Core sp) = FromInt z ∧
    l ∈ snap_Listeners snap ∧ el_Address l = upstreamSocket p z ∧
    c ∈ snap_Clusters snap ∧ ec_Name c = forward_target (el_Forwarder l).
Proof.
  intros Hpa Hpub Hlb Hd Hp Hproto.
  destruct (published_found _ Hpa lb eps p Hpub Hp) as (sp & z & Hf & Ht & Hz). apply List.find_some in Hf as [Hin Hm].
  destruct (lb_listener_address (mg_alloc s) (ResolveHeaderLimits (Some config)) lb 0 p z Hpa Hproto Hz) as (l & Hl & Hla).
  pose proof (mapped_endpoints _ _ (published_mapped _ _ _ Hpub)) as He. unfold desiredSnapshot in Hd.
  destruct (MapSnapshot_listens _ _ _ _ _ _ _ _ _ _ _ lb 0 eps p (λ _, l) Hd Hlb) as (_ & y & Hy & Hya); [by rewrite He|done|done|].
  pose proof (MapSnapshot_accepted _ _ _ _ _ _ _ _ _ _ _ Hd) as Hacc. destruct (accepted_listener _ Hacc y Hy) as (c & Hc & Hn).
  exists sp, y, z, c. split_and!; try done; [by apply list_elem_of_In|congruence].
Qed.
End data_path.

Lemma published_ports_served_witness :
  ∃ sp l z c snap, sp ∈ ss_Ports (lst_Service (lb_Status sampleLB)) ∧ sp_TargetPort (stp_Core sp) = FromInt z ∧
    l ∈ snap_Listeners snap ∧ el_Address l = upstreamSocket {| ep_Name := "http"; ep_Port := 30080; ep_Protocol := ProtocolTCP |} z ∧
    c ∈ snap_Clusters snap ∧ ec_Name c = forward_target (el_Forwarder l).
Proof.
  set (s := {| sampleEnvoyManager with mg_alloc := sampleAllocator |}).
  destruct (desiredSnapshot sampleMarshal sampleMarshal sampleMarshal (λ _, "v1") (λ _ _, None) DefaultConfig [sampleLB] [] s)
    as [[v snap]|e] eqn:Hd; [|by vm_compute in Hd].
  destruct (published_ports_served sampleMarshal sampleMarshal sampleMarshal (λ _, "v1") (λ _ _, None) DefaultConfig s [sampleLB] []
    v snap sampleLB sampleEndpoints {| ep_Name := "http"; ep_Port := 30080; ep_Protocol := ProtocolTCP |})
    as (sp & l & z & c & Hsp & _ & Ht & Hl & Ha & Hc & Hn).
  - apply sampleAllocator_reachable.
  - apply sampleLB_published.
  - by left.
  - exact Hd.
  - by left.
  - by left.
  - by exists sp, l, z, c, snap.
Defined.
