(* ===== verification/RouteController.v ===== *)
(** * The Route controller

    [internal/controllers/kubelb/route_controller.go]: for every Route of a tenant namespace
    it keeps a Service per backend and the Ingress, Gateway, HTTPRoute or GRPCRoute the Route
    carries, records both in the status and cleans them up. Events that are recorded for
    users are left out. *)

From Stdlib Require Import Ascii.
From S2P Require Import Prelude GoStrings Api GatewayApi Names PortAllocator Annotations.
From S2P Require Import Kube Finalizers Services RouteResources EnvoyResource Manager.
Local Open Scope go_scope.

Definition conditionMessageSuccess : string := "Success".
Definition conditionReasonSuccessful : string := "InstallationSuccessful".
Definition conditionReasonFailed : string := "InstallationFailed".
Definition ConditionResourceAppliedSuccessfully : string := "ResourceAppliedSuccessfully".
Definition DefaultRouteStatus : string := "{}".

(** [errors.Join] *)
Definition joinErrors (errs : list Error) : Error := Errorf (Join (ErrorString <$> errs) (String "010" "")).

Section controller.
(** The namespace of the manager and its switch for the Gateway API; decoding of the embedded
    object; [meta.SetStatusCondition]; the JSON of a status, [None] when it cannot be encoded *)
Context (managerNamespace : string) (disableGatewayAPI : bool) (converter : UnstructuredConverter) (IsNoMatchError : Error -> bool).
Context (SetStatusCondition : list Condition -> Condition -> list Condition).
Context (jsonServiceStatus jsonIngressStatus : list LoadBalancerIngress -> option string).
Context (jsonGatewayStatus : list Condition -> option string) (jsonRouteStatus : list RouteParentStatus -> option string).

(** ** Status *)

Definition setCondition (conditions : list Condition) (err : option Error) : list Condition :=
  SetStatusCondition conditions
    {| cond_Type := ConditionResourceAppliedSuccessfully;
       cond_Status := match err with None => "True" | Some _ => "False" end;
       cond_Reason := match err with None => conditionReasonSuccessful | Some _ => conditionReasonFailed end;
       cond_Message := match err with None => conditionMessageSuccess | Some e => ErrorString e end |}.

Definition serviceStatusKey (svc : Service) : string := RouteServiceMapKey (GetServiceNamespace svc) (GetServiceName svc).

Definition updateServiceStatus (status : RouteResourcesStatus) (svc : Service) (err : option Error) : RouteResourcesStatus :=
  let key := serviceStatusKey svc in
  let services := default ∅ (rrs_Services status) in
  {| status with rrs_Services :=
       Some (<[key := {| rss_State :=
                {| rs_APIVersion := ""; rs_Kind := ""; rs_Name := GetServiceName svc; rs_Namespace := GetServiceNamespace svc;
                   rs_GeneratedName := om_Name (svc_Meta svc);
                   rs_Status := default DefaultRouteStatus (jsonServiceStatus (svc_Ingress svc));
                   rs_Conditions := setCondition (default [] (rs_Conditions ∘ rss_State <$> services !! key)) err |};
              rss_Ports := svc_Ports svc |}]> services) |}.

Definition resourceState (status : RouteResourcesStatus) (m : ObjectMeta) (apiVersion kind json : string) (err : option Error)
  : RouteResourcesStatus :=
  {| status with rrs_Route :=
       {| rs_APIVersion := apiVersion; rs_Kind := kind; rs_Name := GetName m; rs_Namespace := GetNamespace m;
          rs_GeneratedName := om_Name m; rs_Status := json;
          rs_Conditions := setCondition (rs_Conditions (rrs_Route status)) err |} |}.

(** Group, version and kind are those of the type: the client fills them in. *)
Definition updateResourceStatus (status : RouteResourcesStatus) (obj : Object) (err : option Error) : RouteResourcesStatus :=
  let json := default DefaultRouteStatus in
  match obj with
  | OIngress o => resourceState status (ing_Meta o) networkingV1 "Ingress" (json (jsonIngressStatus (ing_Ingress o))) err
  | OGateway o => resourceState status (gw_Meta o) gatewayV1 "Gateway" (json (jsonGatewayStatus (gw_Conditions o))) err
  | OHTTPRoute o => resourceState status (gr_Meta o) gatewayV1 "HTTPRoute" (json (jsonRouteStatus (gr_Status o))) err
  | OGRPCRoute o => resourceState status (gr_Meta o) gatewayV1 "GRPCRoute" (json (jsonRouteStatus (gr_Status o))) err
  | _ => status
  end.

(** The function that is retried *)
Definition patchRouteStatus (key : NamespacedName) (status : RouteResourcesStatus) : M Cluster Route :=
  route ← Get Route key;
  if bool_decide (rt_Status route = status) then mret route
  else StatusUpdate {| route with rt_Status := status |}.

(** [UpdateRouteStatus] reads into the caller's Route, which is the result. *)
Definition UpdateRouteStatus (route : Route) (status : RouteResourcesStatus) : M Cluster Route :=
  RetryOnConflict (patchRouteStatus (objKey route) status).

(** ** Services *)

Definition desiredServices (source : KubernetesSource) : gset string :=
  list_to_set ((λ svc, RouteServiceMapKey (om_Namespace (svc_Meta svc)) (GetServiceName svc)) <$> ks_Services source).

Definition statusServices (route : Route) : list (string * RouteServiceStatus) :=
  map_to_list (default ∅ (rrs_Services (rt_Status route))).

Definition deleteServiceState (errPrefix : string) (route : Route) (state : ResourceState) : M Cluster unit :=
  wrap errPrefix (DeleteIgnoreNotFound Service (om_Namespace (rt_Meta route), rs_GeneratedName state)).

(** The key of the ports to free is built with the generated name of the Service. *)
Definition orphanKey (route : Route) (source : KubernetesSource) (state : ResourceState) : string :=
  EnvoyEndpointRoute (om_Namespace (rt_Meta route)) (rs_Namespace state) (rs_GeneratedName state)
    (originalRouteName route source).

Definition removeServiceState (route : Route) (key : string) : Route :=
  {| route with rt_Status := {| (rt_Status route) with rrs_Services := delete key <$> rrs_Services (rt_Status route) |} |}.

(** The Route without the services that are not desired any more *)
Definition cleanupOrphanedServices (route : Route) (source : KubernetesSource) : M Manager Route :=
  foldM (λ route '(key, value),
           if bool_decide (key ∈ desiredServices source) then mret route
           else
             _ ← kube (deleteServiceState "failed to delete orphaned service" route (rss_State value));
             _ ← deallocating (λ pa, DeallocateEndpoints pa [orphanKey route source (rss_State value)]);
             mret (removeServiceState route key))
        route (statusServices route).

(** Services of an older naming scheme; errors are only logged. *)
Definition cleanupRenamedServices (route : Route) (source : KubernetesSource) (routeName : string) : M Cluster unit :=
  forM_ (ks_Services source) (λ svc,
    let name := GetServiceName svc in
    match default ∅ (rrs_Services (rt_Status route)) !! RouteServiceMapKey (om_Namespace (svc_Meta svc)) name with
    | None => mret tt
    | Some statusSvc =>
        let expectedName := GenerateRouteServiceName routeName name (om_Namespace (svc_Meta svc)) in
        if bool_decide (rs_GeneratedName (rss_State statusSvc) = expectedName) then mret tt
        else _ ← try (DeleteIgnoreNotFound Service (om_Namespace (rt_Meta route), rs_GeneratedName (rss_State statusSvc)));
             mret tt
    end).

(** One turn of the loop: the status and the errors so far *)
Definition applyService (acc : RouteResourcesStatus * list Error) (svc : Service)
  : M Cluster (RouteResourcesStatus * list Error) :=
  let '(status, errs) := acc in
  r ← try (CreateOrUpdateService svc);
  mret match r with
       | inl svc => (updateServiceStatus status svc None, errs)
       | inr err => (updateServiceStatus status svc (Some err), errs ++ [Wrap "failed to create or update Service" err])
       end.

Definition manageServices (route : Route) (annotations : AnnotationSettings) : M Manager Route :=
  match rt_Source route with
  | None => mret route
  | Some source =>
      route ← wrap "failed to cleanup orphaned services" (cleanupOrphanedServices route source);
      _ ← allocating (λ draws pa, AllocatePortsForRoutes draws pa [route]);
      portAllocator ← gets mg_alloc;
      let routeName := originalRouteName route source in
      let namespace := om_Namespace (rt_Meta route) in
      let services :=
        (λ svc, GenerateServiceForLBCluster portAllocator svc namespace namespace routeName annotations) <$> ks_Services source in
      kube
        ('(status, errs) ← foldM applyService (rt_Status route, []) services;
         _ ← cleanupRenamedServices route source routeName;
         route ← UpdateRouteStatus route status;
         match errs with [] => mret route | _ => raise (joinErrors errs) end)
  end.

(** ** The generated resource *)

(** [recordAppliedResource]: the live object, or what was applied when it cannot be read yet *)
Definition recordApplied (O : Type) `{!Resource O} (desired : O) (status : RouteResourcesStatus) : M Cluster RouteResourcesStatus :=
  live ← wrap ("failed to get *v1." ⊕ resKind O) (GetIfExists O (objKey desired));
  mret (updateResourceStatus status (inject (default desired live)) None).

(** What follows the call that applies the object, with its result; [left] is the object
    the call leaves when it fails. *)
Definition settleApply (O : Type) `{!Resource O} (r : O + Error) (left : O) (status : RouteResourcesStatus)
  : M Cluster (RouteResourcesStatus * option Error) :=
  match r with
  | inl object => status ← recordApplied O object status; mret (status, None)
  | inr err =>
      let err := Wrap ("failed to create or update " ⊕ resKind O) err in
      mret (updateResourceStatus status (inject left) (Some err), Some err)
  end.

Definition referencedServices (source : KubernetesSource) : list ObjectMeta :=
  (λ svc, objectMeta (GetServiceName svc) (om_Namespace (svc_Meta svc)) (om_UID (svc_Meta svc)) None None) <$> ks_Services source.

Definition ownedBy (route : Route) (m : ObjectMeta) : ObjectMeta :=
  {| m with om_OwnerReferences := [{| or_APIVersion := "kubelb.k8c.io/v1alpha1"; or_Kind := "Route";
                                      or_Name := om_Name (rt_Meta route); or_UID := om_UID (rt_Meta route) |}] |}.

(** The switch on the type of the resource *)
Definition applyResource (route : Route) (source : KubernetesSource) (config : Config) (tenant : Tenant)
  (annotations : AnnotationSettings) (resource : Object) (status : RouteResourcesStatus)
  : M Cluster (RouteResourcesStatus * option Error) :=
  let namespace := om_Namespace (rt_Meta route) in
  let routeName := originalRouteName route source in
  let services := referencedServices source in
  let managed m := managedMeta m (GenerateName (om_Name m) (om_Namespace m)) namespace annotations in
  match resource with
  | OIngress v =>
      let v := {| v with ing_Meta := ownedBy route (ing_Meta v) |} in
      r ← try (CreateOrUpdateIngress v services namespace routeName config tenant annotations);
      settleApply Ingress r {| v with ing_Meta := managed (ing_Meta v) AnnotatedResourceIngress |} status
  | OGateway v =>
      let v := {| v with gw_Meta := ownedBy route (gw_Meta v) |} in
      claim ← try (claimGateway v namespace);
      match claim with
      | inr err => settleApply Gateway (inr err) v status
      | inl _ =>
          r ← try (applyGateway v namespace config tenant annotations);
          settleApply Gateway r
            {| v with gw_Meta := managedMeta (gw_Meta v) (om_Name (gw_Meta v)) namespace annotations AnnotatedResourceGateway |} status
      end
  | OHTTPRoute v =>
      let v := {| v with gr_Meta := ownedBy route (gr_Meta v) |} in
      r ← try (CreateOrUpdateHTTPRoute v services namespace routeName annotations);
      settleApply HTTPRoute r {| v with gr_Meta := managed (gr_Meta v) AnnotatedResourceHTTPRoute |} status
  | OGRPCRoute v =>
      let v := {| v with gr_Meta := ownedBy route (gr_Meta v) |} in
      r ← try (CreateOrUpdateGRPCRoute v services namespace routeName annotations);
      settleApply GRPCRoute r {| v with gr_Meta := managed (gr_Meta v) AnnotatedResourceGRPCRoute |} status
  | _ => mret (status, None)
  end.

Definition convertRoute {S} (source : KubernetesSource) : M S Object :=
  match ConvertUnstructuredToObject converter (ks_Route source) with
  | Ok resource => mret resource
  | Err msg => raise (Wrap "failed to convert route to object" (Errorf msg))
  end.

(** The status is written before the error is returned. *)
Definition manageRoutes (route : Route) (config : Config) (tenant : Tenant) (annotations : AnnotationSettings)
  : M Cluster unit :=
  match rt_Source route with
  | None => mret tt
  | Some source =>
      resource ← convertRoute source;
      '(status, applyErr) ← applyResource route source config tenant annotations resource (rt_Status route);
      _ ← UpdateRouteStatus route status;
      match applyErr with None => mret tt | Some err => raise err end
  end.

(** ** Cleanup *)

(** [if err := r.Delete(...); err != nil && !IsNotFound(err) && !IsNoMatchError(err)] *)
Definition deleteTolerant (O : Type) `{!Resource O} (key : NamespacedName) : M Cluster unit :=
  r ← try (Delete O key);
  match r with
  | inl _ => mret tt
  | inr err => if negb (IsNotFound err) && negb (IsNoMatchError err) then raise err else mret tt
  end.

(** The generated object has the kind of the embedded one and the name of the status. A
    kind that is none of the program's is not served by the model's cluster. *)
Definition deleteGenerated (apiVersion kind : string) (key : NamespacedName) : M Cluster unit :=
  let gvk v k := bool_decide (apiVersion = v ∧ kind = k) in
  if gvk networkingV1 "Ingress" then deleteTolerant Ingress key
  else if gvk gatewayV1 "Gateway" then deleteTolerant Gateway key
  else if gvk gatewayV1 "HTTPRoute" then deleteTolerant HTTPRoute key
  else if gvk gatewayV1 "GRPCRoute" then deleteTolerant GRPCRoute key
  else if gvk "v1" "Service" then deleteTolerant Service key
  else mret tt.

Definition deleteGeneratedRoute (route : Route) : M Cluster unit :=
  let generatedName := rs_GeneratedName (rrs_Route (rt_Status route)) in
  match rt_Source route with
  | None => mret tt
  | Some source =>
      let embedded := ks_Route source in
      if bool_decide (generatedName = "") || bool_decide (u_APIVersion embedded = "" ∧ u_Kind embedded = "") then mret tt
      else wrap ("failed to delete generated " ⊕ u_Kind embedded)
             (deleteGenerated (u_APIVersion embedded) (u_Kind embedded) (om_Namespace (rt_Meta route), generatedName))
  end.

Definition resetStatus (status : RouteResourcesStatus) : RouteResourcesStatus :=
  {| rrs_Services := None; rrs_Route := {| emptyResourceState with rs_Conditions := rs_Conditions (rrs_Route status) |} |}.

Definition resetGeneratedResourcesStatus (route : Route) : M Cluster Route :=
  wrap "failed to reset route status" (UpdateRouteStatus route (resetStatus (rt_Status route))).

Definition cleanup (route : Route) (reset : bool) : M Manager unit :=
  _ ← kube (deleteGeneratedRoute route);
  _ ← kube (forM_ (statusServices route) (λ '(_, value), deleteServiceState "failed to delete service" route (rss_State value)));
  _ ← deallocating (λ pa, DeallocatePortsForRoute pa route);
  kube
    (route ← (if reset then resetGeneratedResourcesStatus route else mret route);
     _ ← wrap "failed to remove finalizer"
           (Update {| route with rt_Meta := RemoveFinalizer (rt_Meta route) CleanupFinalizer |});
     mret tt).

(** ** Reconcile *)

Definition isGatewayAPIDisabled (config : Config) (tenant : Tenant) : bool :=
  disableGatewayAPI || gas_Disable (cf_GatewayAPI config) || gas_Disable (tn_GatewayAPI tenant).

(** Whether to reconcile, and whether the kind of the resource is disabled *)
Definition resourceEnabled (config : Config) (tenant : Tenant) (resource : Object) : bool * bool :=
  match resource with
  | OIngress _ => if cls_Disable (cf_Ingress config) || cls_Disable (tn_Ingress tenant) then (false, true) else (true, false)
  | OGateway v =>
      if isGatewayAPIDisabled config tenant then (false, true) else (ShouldReconcileGatewayByName v, false)
  | OGRPCRoute _ | OHTTPRoute _ => if isGatewayAPIDisabled config tenant then (false, true) else (true, false)
  | _ => (false, false)
  end.

Definition shouldReconcile (route : Route) (tenant : Tenant) (config : Config) : M Cluster (bool * bool) :=
  match rt_Source route with
  | None => mret (false, false)
  | Some source => resource ← convertRoute source; mret (resourceEnabled config tenant resource)
  end.

Definition ensureRouteFinalizer (route : Route) : M Cluster Route :=
  if ContainsFinalizer (rt_Meta route) CleanupFinalizer then mret route
  else wrap "failed to add finalizer" (Update {| route with rt_Meta := AddFinalizer (rt_Meta route) CleanupFinalizer |}).

Definition reconcile (route : Route) (config : Config) (tenant : Tenant) : M Manager unit :=
  let annotations := GetAnnotations (tn_Annotations tenant) (cf_Annotations config) in
  route ← wrap "failed to create or update services" (manageServices route annotations);
  kube (wrap "failed to create or update route" (manageRoutes route config tenant annotations)).

(** The routes of the namespace are listed at the end to count them. *)
Definition Reconcile (req : NamespacedName) : M Manager unit :=
  found ← kube (GetIfExists Route req);
  match found with
  | None => mret tt
  | Some route =>
      '(tenant, config) ← kube (GetTenantAndConfig managerNamespace (RemoveTenantPrefix (om_Namespace (rt_Meta route))));
      if om_Deleting (rt_Meta route) then
        when (ContainsFinalizer (rt_Meta route) CleanupFinalizer) (cleanup route false)
      else
        '(should, disabled) ← kube (shouldReconcile route tenant config);
        if ContainsFinalizer (rt_Meta route) CleanupFinalizer && disabled then cleanup route true
        else if negb should then mret tt
        else
          route ← kube (ensureRouteFinalizer route);
          _ ← reconcile route config tenant;
          _ ← kube (try (List Route (Some req.1) ∅));
          mret tt
  end.
End controller.

(** ** Which routes an event concerns *)

Definition enqueueRoutes (ns : option string) : M Cluster (list NamespacedName) :=
  r ← try (List Route ns ∅);
  mret match r with inl routes => objKey <$> routes | inr _ => [] end.
Definition enqueueRoutesForConfig : M Cluster (list NamespacedName) := enqueueRoutes None.
Definition enqueueRoutesForTenant (o : Object) : M Cluster (list NamespacedName) :=
  enqueueRoutes (Some (tenantNamespacePattern (om_Name (metaOf o)))).

(** ** What a reconcile changes *)

(** Objects of a tenant namespace, of the kinds the controller deals with *)
Definition tenantKinds : list string :=
  [resKind Route; resKind Service; resKind Ingress; resKind Gateway; resKind HTTPRoute; resKind GRPCRoute].
Definition tenantOwned (ns : string) (k : ObjectKey) : Prop := k.2.1 = ns ∧ k.1 ∈ tenantKinds.

(** Everything of the tenant except the Route itself *)
Definition generatedFor (req : NamespacedName) (k : ObjectKey) : Prop :=
  k.2.1 = req.1 ∧ k.1 ∈ [resKind Service; resKind Ingress; resKind Gateway; resKind HTTPRoute; resKind GRPCRoute].

Lemma generated_owned req k : generatedFor req k → tenantOwned req.1 k.
Proof. intros [H1 H2]. split; [done|]. by right. Qed.
Lemma generated_not_route req : ¬ generatedFor req (storeKey Route req).
Proof. intros [_ H]. simpl in H. set_solver. Qed.

Section within_route.
Context (managerNamespace : string) (disableGatewayAPI : bool) (converter : UnstructuredConverter) (IsNoMatchError : Error -> bool).
Context (SetStatusCondition : list Condition -> Condition -> list Condition).
Context (jsonServiceStatus jsonIngressStatus : list LoadBalancerIngress -> option string).
Context (jsonGatewayStatus : list Condition -> option string) (jsonRouteStatus : list RouteParentStatus -> option string).
Context (req : NamespacedName).
#[local] Abbreviation G := (generatedFor req).
Implicit Types (route : Route).

Ltac gen_solve := by split; [|rewrite !elem_of_cons; naive_solver].

Lemma G_Service name : G (storeKey Service (req.1, name)). Proof. gen_solve. Qed.
Lemma G_Ingress name : G (storeKey Ingress (req.1, name)). Proof. gen_solve. Qed.
Lemma G_Gateway name : G (storeKey Gateway (req.1, name)). Proof. gen_solve. Qed.
Lemma G_HTTPRoute name : G (storeKey HTTPRoute (req.1, name)). Proof. gen_solve. Qed.
Lemma G_GRPCRoute name : G (storeKey GRPCRoute (req.1, name)). Proof. gen_solve. Qed.
#[local] Hint Resolve G_Service G_Ingress G_Gateway G_HTTPRoute G_GRPCRoute : kube.

Lemma within_deleteServiceState p route state : om_Namespace (rt_Meta route) = req.1 →
  within (changes G) (deleteServiceState p route state).
Proof. intros Hn. unfold deleteServiceState. rewrite Hn. within_step. apply within_DeleteIgnoreNotFound, G_Service. Qed.

Lemma within_deleteTolerant (O : Type) `{!Resource O} (K : ObjectKey -> Prop) key :
  K (storeKey O key) → within (changes K) (deleteTolerant IsNoMatchError O key).
Proof. intros HK. unfold deleteTolerant. within_solve. Qed.

Lemma within_deleteGeneratedRoute route : om_Namespace (rt_Meta route) = req.1 → within (changes G) (deleteGeneratedRoute IsNoMatchError route).
Proof.
  intros Hn. unfold deleteGeneratedRoute, deleteGenerated. rewrite Hn.
  destruct (rt_Source route) as [source|]; [|within_step]. destruct (_ || _); within_step.
  repeat case_bool_decide; try (apply within_deleteTolerant; auto with kube). within_step.
Qed.

Lemma within_CreateOrUpdateService svc : om_Namespace (svc_Meta svc) = req.1 → within (changes G) (CreateOrUpdateService svc).
Proof. intros Hn. apply within_putService. unfold objKey. simpl. rewrite Hn. apply G_Service. Qed.

Lemma within_applyServices status errs services : Forall (λ svc, om_Namespace (svc_Meta svc) = req.1) services →
  within (changes G) (foldM (applyService SetStatusCondition jsonServiceStatus) (status, errs) services).
Proof.
  rewrite Forall_forall. intros Hs. within_step. destruct b as [st es]. unfold applyService. within_step; [|within_step].
  within_step. by apply within_CreateOrUpdateService, Hs.
Qed.

Lemma within_cleanupRenamed route source name : om_Namespace (rt_Meta route) = req.1 →
  within (changes G) (cleanupRenamedServices route source name).
Proof.
  intros Hn. unfold cleanupRenamedServices. rewrite Hn. within_step. simpl. destruct (_ !! _); [|within_step].
  case_bool_decide; [within_step|]. within_step; [|within_step]. within_step. apply within_DeleteIgnoreNotFound, G_Service.
Qed.

Lemma within_settleApply (O : Type) `{!Resource O} (r : O + Error) left status :
  within (changes G) (settleApply SetStatusCondition jsonIngressStatus jsonGatewayStatus jsonRouteStatus O r left status).
Proof. unfold settleApply, recordApplied. within_solve. Qed.

Lemma within_applyGateway v config tenant ann : within (changes G) (applyGateway v req.1 config tenant ann).
Proof.
  unfold applyGateway, retargetListener, retargetCertificate. within_step; [within_solve|].
  apply within_createOrUpdate. apply G_Gateway.
Qed.

Lemma within_claimGateway v ns : within (changes G) (claimGateway v ns).
Proof.
  unfold claimGateway. within_step; [within_solve|]. cbv zeta.
  destruct (_ ≫= _) as [[]|]; [within_step|]. within_step. within_step.
Qed.

Lemma within_applyResource route source config tenant ann resource status : om_Namespace (rt_Meta route) = req.1 →
  within (changes G) (applyResource SetStatusCondition jsonIngressStatus jsonGatewayStatus jsonRouteStatus
    route source config tenant ann resource status).
Proof.
  intros Hn. unfold applyResource. rewrite Hn. destruct resource; try (within_step; fail); cbv zeta.
  - within_step; [|apply within_settleApply]. within_step. unfold CreateOrUpdateIngress, retargetIngressRule, retargetPath,
      retargetBackend, retargetTLS. within_step; [within_solve|]. within_step; [within_solve|]. apply within_createOrUpdate, G_Ingress.
  - within_step; [|apply within_settleApply]. within_step. apply within_createOrUpdate, G_HTTPRoute.
  - within_step; [|apply within_settleApply]. within_step. apply within_createOrUpdate, G_GRPCRoute.
  - within_step; [within_step; apply within_claimGateway|]. destruct a; [|apply within_settleApply].
    within_step; [|apply within_settleApply]. within_step. apply within_applyGateway.
Qed.

(** The Route itself, too *)
Definition handledFor (k : ObjectKey) : Prop := k = storeKey Route req ∨ G k.
Lemma handled_generated {A} (m : M Cluster A) : within (changes G) m → within (changes handledFor) m.
Proof. apply within_weaken. intros c c'. apply changes_weaken. by right. Qed.

Lemma objKey_namespace route : objKey route = req → om_Namespace (rt_Meta route) = req.1.
Proof. by intros <-. Qed.

Lemma yields_UpdateRouteStatus route status : yields (λ r, objKey r = objKey route) (UpdateRouteStatus route status).
Proof.
  apply yields_retry. unfold patchRouteStatus. eapply yields_bind_yields; [apply yields_Get|]. intros r Hr.
  case_bool_decide; [by apply yields_ret|]. intros c r' c' Hs. rewrite (yields_StatusUpdate _ _ _ _ Hs). exact Hr.
Qed.

Lemma within_UpdateRouteStatus route status : objKey route = req →
  within (changes (eq (storeKey Route req))) (UpdateRouteStatus route status).
Proof.
  intros <-. apply within_retry; [apply _|]. unfold patchRouteStatus.
  eapply within_bind_yields; [apply _|apply yields_Get|apply within_Get|]. intros r Hr. case_bool_decide; [within_step|].
  apply within_StatusUpdate. by rewrite <-Hr.
Qed.
Lemma handled_route {A} (m : M Cluster A) : within (changes (eq (storeKey Route req))) m → within (changes handledFor) m.
Proof. apply within_weaken. intros c c'. apply changes_weaken. intros k <-. by left. Qed.

Lemma yields_cleanupOrphaned route source : yields (λ r, objKey r = objKey route ∧ rt_Source r = rt_Source route) (cleanupOrphanedServices route source).
Proof.
  unfold cleanupOrphanedServices. apply yields_foldM; [done|]. intros r [key value] _ Hr.
  case_bool_decide; [by apply yields_ret|]. apply yields_bind. intros _. apply yields_bind. intros _. by apply yields_ret.
Qed.

Lemma within_deallocateEndpoints K keys : within (manages K) (deallocating (λ pa, DeallocateEndpoints pa keys)).
Proof. apply within_deallocating. intros pa. apply rtc_once, step_DeallocateEndpoints. Qed.

Lemma yields_manageServices route ann :
  yields (λ r, objKey r = objKey route) (manageServices SetStatusCondition jsonServiceStatus route ann).
Proof.
  unfold manageServices. destruct (rt_Source route) as [source|]; [|by apply yields_ret].
  eapply yields_bind_yields; [apply yields_wrap, yields_cleanupOrphaned|]. intros r [Hr _].
  apply yields_bind. intros _. apply yields_bind. intros pa. apply yields_zoom.
  apply yields_bind. intros [status errs]. apply yields_bind. intros _.
  eapply yields_bind_yields; [apply yields_UpdateRouteStatus|]. intros r' Hr'.
  destruct errs; [|by intros ?]. apply yields_ret. congruence.
Qed.

(** The part of a reconcile that serves the Route, along any preorders of the cluster and the
    manager that allow its calls *)
Section serving.
Context (Rc : relation Cluster) (Rm : relation Manager) `{!PreOrder Rc, !PreOrder Rm}.
Hypothesis Rc_generated : ∀ A (m : M Cluster A), within (changes G) m → within Rc m.
Hypothesis Rc_status : ∀ route status, objKey route = req → within Rc (UpdateRouteStatus route status).
Hypothesis Rm_kube : ∀ A (m : M Cluster A), within Rc m → within Rm (kube m).
Hypothesis Rm_allocating : ∀ routes, within Rm (allocating (λ draws pa, AllocatePortsForRoutes draws pa routes)).
Hypothesis Rm_deallocating : ∀ keys, within Rm (deallocating (λ pa, DeallocateEndpoints pa keys)).

Lemma within_cleanupOrphaned route source : objKey route = req → within Rm (cleanupOrphanedServices route source).
Proof.
  intros Hk. unfold cleanupOrphanedServices. apply (within_foldM_inv _ (λ r, objKey r = req)); [done|].
  intros r [key value] _ Hr. case_bool_decide; [split; [within_step|by apply yields_ret]|]. split.
  - within_step; [by apply Rm_kube, Rc_generated, within_deleteServiceState, objKey_namespace|].
    within_step; [apply Rm_deallocating|within_step].
  - apply yields_bind. intros _. apply yields_bind. intros _. by apply yields_ret.
Qed.

Lemma within_manageServices route ann : objKey route = req →
  within Rm (manageServices SetStatusCondition jsonServiceStatus route ann).
Proof.
  intros Hk. unfold manageServices. destruct (rt_Source route) as [source|]; [|within_step].
  eapply within_bind_yields; [apply _|apply yields_wrap, yields_cleanupOrphaned| |].
  { apply within_wrap; [apply _|]. by apply within_cleanupOrphaned. }
  intros r [Hr _]. rewrite Hk in Hr. pose proof (objKey_namespace _ Hr) as Hn.
  within_step; [apply Rm_allocating|]. within_step; [within_step|]. cbv zeta. apply Rm_kube.
  within_step.
  { apply Rc_generated, within_applyServices, Forall_fmap, Forall_true. intros svc. exact Hn. }
  destruct a1 as [status errs]. within_step; [by apply Rc_generated, within_cleanupRenamed|].
  within_step; [by apply Rc_status|]. destruct errs; within_step.
Qed.

Lemma within_manageRoutes route config tenant ann : objKey route = req →
  within Rc (manageRoutes converter SetStatusCondition jsonIngressStatus jsonGatewayStatus jsonRouteStatus
    route config tenant ann).
Proof.
  intros Hk. unfold manageRoutes. destruct (rt_Source route) as [source|]; [|within_step].
  within_step; [unfold convertRoute; within_solve|].
  within_step; [by apply Rc_generated, within_applyResource, objKey_namespace|]. destruct a0 as [status err].
  within_step; [by apply Rc_status|]. destruct err; within_step.
Qed.

Lemma within_serve route config tenant : objKey route = req →
  within Rm (reconcile converter SetStatusCondition jsonServiceStatus jsonIngressStatus jsonGatewayStatus jsonRouteStatus
    route config tenant).
Proof.
  intros Hr. unfold reconcile. eapply (within_bind_yields _ (λ r', objKey r' = req)).
  - rewrite <-Hr. apply yields_wrap, yields_manageServices.
  - apply within_wrap; [apply _|]. by apply within_manageServices.
  - intros r' Hr'. apply Rm_kube, within_wrap; [apply _|]. by apply within_manageRoutes.
Qed.
End serving.

Lemma yields_ensureRouteFinalizer route : yields (λ r, objKey r = objKey route) (ensureRouteFinalizer route).
Proof.
  unfold ensureRouteFinalizer. destruct (ContainsFinalizer _ _); [by apply yields_ret|].
  apply yields_wrap. intros c r c' Hu. by rewrite (yields_Update _ _ _ _ Hu).
Qed.

Lemma within_cleanupRoute route reset : objKey route = req → within (manages handledFor) (cleanup IsNoMatchError route reset).
Proof.
  intros Hk. pose proof (objKey_namespace _ Hk) as Hn. unfold cleanup.
  within_step; [by apply within_kube, handled_generated, within_deleteGeneratedRoute|].
  within_step; [apply within_kube, handled_generated; within_step; destruct x; by apply within_deleteServiceState|].
  within_step; [apply within_DeallocateForRoute|]. apply within_kube.
  eapply (within_bind_yields _ (λ r, objKey r = req)).
  - destruct reset; [|by apply yields_ret]. rewrite <-Hk. apply yields_wrap, yields_UpdateRouteStatus.
  - destruct reset; [|within_step]. apply within_wrap; [apply _|]. by apply handled_route, within_UpdateRouteStatus.
  - intros r Hr. within_step; [|within_step]. within_step. apply within_Update. left. by rewrite <-Hr.
Qed.

Lemma within_ReconcileRoute :
  within (manages handledFor) (Reconcile managerNamespace disableGatewayAPI converter IsNoMatchError SetStatusCondition jsonServiceStatus
    jsonIngressStatus jsonGatewayStatus jsonRouteStatus req).
Proof.
  unfold Reconcile. eapply within_bind_yields; [apply _|apply yields_zoom, yields_GetIfExists|apply within_kube, within_GetIfExists|].
  intros [route|] Hk; [|within_step]. within_step; [eauto with kube|]. destruct a as [tenant config].
  destruct (om_Deleting _); [apply within_when; [apply _|]; by apply within_cleanupRoute|].
  within_step; [apply within_kube; unfold shouldReconcile, convertRoute; within_solve|]. destruct a as [should disabled].
  destruct (_ && disabled); [by apply within_cleanupRoute|]. destruct should; simpl; [|within_step].
  eapply (within_bind_yields _ (λ r, objKey r = req)).
  - rewrite <-Hk. apply yields_zoom, yields_ensureRouteFinalizer.
  - apply within_kube, handled_route. unfold ensureRouteFinalizer. destruct (ContainsFinalizer _ _); [within_step|].
    within_step. apply within_Update. by rewrite <-Hk.
  - intros r Hr. within_step; [|within_step; [apply within_kube; within_solve|within_step]].
    apply (within_serve (changes handledFor) (manages handledFor)); [intros ? ?; apply handled_generated| |intros; by apply within_kube| | |done].
    + intros. by apply handled_route, within_UpdateRouteStatus.
    + intros. apply within_AllocateForRoutes.
    + intros. apply within_deallocateEndpoints.
Qed.
End within_route.

(** ** The finalizer keeps a Route until its objects are gone *)

#[local] Abbreviation finalized := (finalized Route CleanupFinalizer).
#[local] Abbreviation waiting := (waiting Route CleanupFinalizer).
#[local] Abbreviation holds := (holds Route CleanupFinalizer).

(** The generated object of that kind is deleted. *)
Definition generatedGone (apiVersion kind : string) (key : NamespacedName) (c : Cluster) : Prop :=
  (apiVersion = networkingV1 → kind = "Ingress" → gone Ingress key c) ∧
  (apiVersion = gatewayV1 → kind = "Gateway" → gone Gateway key c) ∧
  (apiVersion = gatewayV1 → kind = "HTTPRoute" → gone HTTPRoute key c) ∧
  (apiVersion = gatewayV1 → kind = "GRPCRoute" → gone GRPCRoute key c).

(** The generated resource and the Services of the status are deleted and the ports of the
    backends are free. *)
Record cleanedRoute (route : Route) (s : Manager) : Prop := {
  cleaned_resource source : rt_Source route = Some source → rs_GeneratedName (rrs_Route (rt_Status route)) ≠ "" →
    generatedGone (u_APIVersion (ks_Route source)) (u_Kind (ks_Route source))
      (om_Namespace (rt_Meta route), rs_GeneratedName (rrs_Route (rt_Status route))) (mg_cluster s);
  cleaned_services x : x ∈ statusServices route →
    gone Service (om_Namespace (rt_Meta route), rs_GeneratedName (rss_State x.2)) (mg_cluster s);
  cleaned_backends source svc : rt_Source route = Some source → svc ∈ ks_Services source →
    portLookup (mg_alloc s) !! routeEndpointKey route source svc = None;
}.

Section route_finalizer.
Context (managerNamespace : string) (disableGatewayAPI : bool) (converter : UnstructuredConverter) (IsNoMatchError : Error -> bool).
Context (SetStatusCondition : list Condition -> Condition -> list Condition).
Context (jsonServiceStatus jsonIngressStatus : list LoadBalancerIngress -> option string).
Context (jsonGatewayStatus : list Condition -> option string) (jsonRouteStatus : list RouteParentStatus -> option string).
Context (req : NamespacedName).
Implicit Types (route : Route).

#[local] Abbreviation reconcileRoute :=
  (Reconcile managerNamespace disableGatewayAPI converter IsNoMatchError SetStatusCondition jsonServiceStatus
     jsonIngressStatus jsonGatewayStatus jsonRouteStatus req).

Definition resourceGone (route : Route) (c : Cluster) : Prop := ∀ source, rt_Source route = Some source →
  rs_GeneratedName (rrs_Route (rt_Status route)) ≠ "" →
  generatedGone (u_APIVersion (ks_Route source)) (u_Kind (ks_Route source))
    (om_Namespace (rt_Meta route), rs_GeneratedName (rrs_Route (rt_Status route))) c.

Lemma resourceGone_frame K route c c' : changes K c c' →
  (∀ k, K k → k.1 = resKind Service ∨ k.1 = resKind Route) → resourceGone route c → resourceGone route c'.
Proof.
  intros Hc HK Hg source Hs Hn. destruct (Hg source Hs Hn) as (H1 & H2 & H3 & H4).
  assert (∀ D (R : Resource D) key, resKind D ≠ resKind Service → resKind D ≠ resKind Route →
    gone D key c → gone D key c') as Hframe.
  { intros D R key Hd1 Hd2 Hgd. eapply gone_frame; [exact Hc| |done]. intros [H|H]%HK; [exact (Hd1 H)|exact (Hd2 H)]. }
  split_and!; intros Ha Hb; (apply Hframe; [done|done|auto]).
Qed.

Lemma triple_delete_kind (D : Type) `{!Resource D} (Q : Cluster -> Prop) key : storeKey D key ≠ storeKey Route req →
  (∀ c, gone D key c → Q c) →
  triple (waiting req) (DeleteIgnoreNotFound D key) (λ _ c, waiting req c ∧ Q c) (finalized req).
Proof.
  intros Hne HQ. eapply triple_weaken; [apply (triple_waiting_delete Route CleanupFinalizer req D (λ _, True)); done|done| |done].
  intros _ c (Hw & _ & Hg). split; [done|by apply HQ].
Qed.

(** A call answers that it does not know a kind only when there is no generated resource. *)
Definition truthfulKinds (route : Route) (c : Cluster) : Prop :=
  ∀ e, Some e ∈ cl_faults c → IsNoMatchError e = true → resourceGone route c.

Lemma truthfulKinds_read route c c' : changes nothing c c' → truthfulKinds route c → truthfulKinds route c'.
Proof.
  intros Hc Ht e Hin Hm. assert (Some e ∈ cl_faults c) as Hin'.
  { destruct Hc as [_ _ [l Hl]]. rewrite Hl. apply elem_of_app. by right. }
  eapply resourceGone_frame; [exact Hc|by intros k []|by eapply Ht].
Qed.

(** A tolerant deletion is one that ignores [NotFound], or the kind is not known. *)
Lemma deleteTolerant_cases (D : Type) `{!Resource D} key c :
  deleteTolerant IsNoMatchError D key c = DeleteIgnoreNotFound D key c ∨
  ∃ e c', Some e ∈ cl_faults c ∧ IsNoMatchError e = true ∧ deleteTolerant IsNoMatchError D key c = (Ret tt, c') ∧
    changes nothing c c'.
Proof.
  unfold deleteTolerant, DeleteIgnoreNotFound, mbind, M_bind, try.
  destruct (Delete D key c) as [[u|e| |] c'] eqn:Hd; [by left| |by left|by left].
  destruct (IsNotFound e) eqn:Hn; [by left|]. destruct (IsNoMatchError e) eqn:Hm; [|by left]. right.
  destruct (Delete_Fail _ _ _ _ Hd) as [Hc [?|Hin]]; [congruence|]. by exists e, c'.
Qed.

Lemma triple_deleteTolerant (D : Type) `{!Resource D} key : storeKey D key ≠ storeKey Route req →
  triple (λ c, waiting req c ∧ ∀ e, Some e ∈ cl_faults c → IsNoMatchError e = true → gone D key c)
    (deleteTolerant IsNoMatchError D key) (λ _ c, waiting req c ∧ gone D key c) (finalized req).
Proof.
  intros Hne c [Hw Ht]. destruct (deleteTolerant_cases D key c) as [->|(e & c' & Hin & Hm & -> & Hc)].
  - by apply (triple_delete_kind D (gone D key) key Hne).
  - split; [eapply waiting_frame; [exact Hc|by intros []|done]|]. eapply gone_frame; [exact Hc|by intros []|by eapply Ht].
Qed.

Lemma triple_deleteGeneratedRoute route :
  triple (λ c, waiting req c ∧ truthfulKinds route c) (deleteGeneratedRoute IsNoMatchError route)
    (λ _ c, waiting req c ∧ resourceGone route c) (finalized req).
Proof.
  unfold deleteGeneratedRoute, truthfulKinds, resourceGone. destruct (rt_Source route) as [source|]; [|apply triple_ret; by intros c [? _]].
  case_bool_decide as Hn; simpl.
  { apply triple_ret. intros c [Hw _]. split; [done|]. intros ? _ Hne. by destruct Hne. }
  case_bool_decide as He.
  { apply triple_ret. intros c [Hw _]. split; [done|]. intros s [= <-] _. destruct He as [-> ->]. by split_and!. }
  apply triple_wrap. unfold deleteGenerated, generatedGone.
  do 4 (let Hk := fresh "Hk" in case_bool_decide as Hk;
    [eapply triple_weaken; [by apply triple_deleteTolerant|intros c [Hw Ht]; split; [done|]; intros e Hin Hm;
       destruct Hk as [Hv Hkind]; by apply (Ht e Hin Hm source eq_refl Hn)
      |intros [] c [Hw Hg]; split; [done|]; intros s [= <-] _; destruct Hk as [-> ->]; split_and!; by intros|done]|]).
  eapply triple_weaken; [apply (triple_waiting_frame Route CleanupFinalizer req (λ k, k.1 = resKind Service)); [done|]
    |by intros c [? _]| |done].
  - case_bool_decide; [by apply within_deleteTolerant|within_step].
  - intros [] c Hw. split; [done|]. intros s [= <-] _. split_and!; intros Ha Hb; naive_solver.
Qed.

Lemma DeallocateForRoute_free pa route source svc : rt_Source route = Some source → svc ∈ ks_Services source →
  portLookup (DeallocatePortsForRoute pa route) !! routeEndpointKey route source svc = None.
Proof.
  intros Hs Hin. unfold DeallocatePortsForRoute, DeallocateEndpoints. rewrite Hs. simpl.
  rewrite lookup_foldl_delete, decide_True; [done|]. by apply list_elem_of_fmap_2.
Qed.

(** A step of the cluster that does not take the finalizer off *)
Definition keeps (c c' : Cluster) : Prop := finalized req c → finalized req c'.
Definition mkeeps (s s' : Manager) : Prop := keeps (mg_cluster s) (mg_cluster s').
#[local] Instance keeps_preorder : PreOrder keeps.
Proof. split; unfold keeps; intros ?; intros; auto. Qed.
#[local] Instance mkeeps_preorder : PreOrder mkeeps.
Proof. split; unfold mkeeps, keeps; intros ?; intros; auto. Qed.

Lemma within_keeps {A} (m : M Cluster A) Q : triple (finalized req) m Q (finalized req) →
  (∀ a c, Q a c → finalized req c) → within keeps m.
Proof. intros Ht HQ c Hc. specialize (Ht c Hc). destruct (m c) as [[a|e| |] c']; [by eapply HQ|done..]. Qed.

Lemma within_mkeeps {A} (m : M Manager A) : within mkeeps m →
  triple (λ s, finalized req (mg_cluster s)) m (λ _ s, finalized req (mg_cluster s)) (λ s, finalized req (mg_cluster s)).
Proof. apply (triple_within mkeeps). by intros s s' Hk. Qed.

Lemma keeps_generated {A} (m : M Cluster A) : within (changes (generatedFor req)) m → within keeps m.
Proof. apply within_weaken. intros c c' Hc Hf. eapply finalized_frame; [exact Hc|apply generated_not_route|done]. Qed.

Lemma triple_UpdateRouteStatus route status : objKey route = req →
  triple (finalized req) (UpdateRouteStatus route status) (λ _, finalized req) (finalized req).
Proof.
  intros Hk. unfold UpdateRouteStatus. rewrite Hk. apply triple_retry. unfold patchRouteStatus.
  eapply triple_bind.
  { eapply triple_yields, yields_Get. eapply (triple_finalized_frame _ _ _ nothing); [by intros []|apply within_Get]. }
  intros r. apply (triple_weaken (λ c, finalized req c ∧ objKey r = req) _ (λ _, finalized req) _ (finalized req) _);
    [|by intros c [? ?]|done|done].
  apply triple_pure. intros Hr. case_bool_decide; [by apply triple_ret|].
  eapply triple_weaken; [by apply triple_finalized_StatusUpdate|done| |done]. by intros r' c [_ ?].
Qed.

Lemma keeps_UpdateRouteStatus route status : objKey route = req → within keeps (UpdateRouteStatus route status).
Proof. intros Hk. eapply within_keeps; [by apply triple_UpdateRouteStatus|done]. Qed.

Lemma keeps_kube {A} (m : M Cluster A) : within keeps m → within mkeeps (kube m).
Proof. apply within_zoom. by intros s c Hc. Qed.

Lemma keeps_alloc K {A} (m : M Manager A) : ¬ K (storeKey Route req) → within (manages K) m → within mkeeps m.
Proof. intros HK. apply within_weaken. intros s s' [Hc _ _] Hf. by eapply finalized_frame. Qed.

Lemma keeps_serve route config tenant : objKey route = req →
  within mkeeps (reconcile converter SetStatusCondition jsonServiceStatus jsonIngressStatus jsonGatewayStatus jsonRouteStatus
    route config tenant).
Proof.
  apply (within_serve converter SetStatusCondition jsonServiceStatus jsonIngressStatus jsonGatewayStatus jsonRouteStatus req
    keeps mkeeps).
  - intros A m. apply keeps_generated.
  - intros r status. apply keeps_UpdateRouteStatus.
  - intros A m. apply keeps_kube.
  - intros routes. apply (keeps_alloc nothing); [by intros []|apply within_AllocateForRoutes].
  - intros keys. apply (keeps_alloc nothing); [by intros []|apply within_deallocateEndpoints].
Qed.

(** What is known of objects other than the Route survives writing its status. *)
Lemma triple_resetStatus (I : Cluster -> Prop) route status : objKey route = req →
  (∀ c c', changes (eq (storeKey Route req)) c c' → I c → I c') →
  triple (λ c, waiting req c ∧ I c) (UpdateRouteStatus route status) (λ r c, objKey r = req ∧ waiting req c ∧ I c) (finalized req).
Proof.
  intros Hk HI. apply triple_yields; [|rewrite <-Hk; apply yields_UpdateRouteStatus].
  eapply triple_weaken; [eapply (triple_within (λ c c', changes (eq (storeKey Route req)) c c' ∧ keeps c c')
    (λ c, waiting req c ∧ I c))|done|done|by intros c [[_ ?] _]].
  - intros c c' [Hc Hkeep] [[Ht Hf] Hi]. split; [|by eapply HI]. split; [by eapply truthful_changes|by apply Hkeep].
  - intros c. split; [by apply within_UpdateRouteStatus|by apply keeps_UpdateRouteStatus].
Qed.

Definition servicesGone (route : Route) (c : Cluster) : Prop := ∀ x, x ∈ statusServices route →
  gone Service (om_Namespace (rt_Meta route), rs_GeneratedName (rss_State x.2)) c.

Lemma gone_route_frame route c c' : changes (eq (storeKey Route req)) c c' →
  resourceGone route c ∧ servicesGone route c → resourceGone route c' ∧ servicesGone route c'.
Proof.
  intros Hc [Hr Hs]. split; [eapply resourceGone_frame; [exact Hc| |done]; intros k <-; by right|].
  intros x Hx. eapply gone_frame; [exact Hc|done|by apply Hs].
Qed.

Lemma triple_deleteServices route :
  triple (λ c, waiting req c ∧ resourceGone route c)
    (forM_ (statusServices route) (λ '(_, value), deleteServiceState "failed to delete service" route (rss_State value)))
    (λ _ c, waiting req c ∧ resourceGone route c ∧ servicesGone route c) (finalized req).
Proof.
  apply (triple_waiting_deletes Route CleanupFinalizer req Service (resourceGone route) _
    (λ x, (om_Namespace (rt_Meta route), rs_GeneratedName (rss_State x.2)))).
  - intros [k v]. right. eexists. reflexivity.
  - done.
  - intros k c c' Hc. eapply resourceGone_frame; [exact Hc|]. intros ? <-. by left.
Qed.

(** Every deletion comes before the update that removes the finalizer. *)
Lemma triple_cleanupRoute route reset : objKey route = req →
  triple (λ s, waiting req (mg_cluster s) ∧ truthfulKinds route (mg_cluster s)) (cleanup IsNoMatchError route reset) (λ _, cleanedRoute route) (λ s, finalized req (mg_cluster s)).
Proof.
  intros Hk. pose (F pa := ∀ source svc, rt_Source route = Some source → svc ∈ ks_Services source →
    portLookup pa !! routeEndpointKey route source svc = None).
  pose (I c := resourceGone route c ∧ servicesGone route c).
  unfold cleanup. eapply triple_bind; [exact (triple_kube _ _ _ _ (triple_deleteGeneratedRoute route))|]. intros []. simpl.
  eapply triple_bind; [exact (triple_kube _ _ _ _ (triple_deleteServices route))|]. intros []. simpl.
  eapply (triple_bind _ (λ _ s, F (mg_alloc s) ∧ (waiting req (mg_cluster s) ∧ I (mg_cluster s)))).
  { intros s Hs. split; [|done]. intros source svc. apply DeallocateForRoute_free. }
  intros []. eapply triple_weaken; [apply (triple_kube_alloc F (λ c, waiting req c ∧ I c) _ (λ _ c, I c) (finalized req))|done| |done].
  - eapply (triple_bind _ (λ r c, objKey r = req ∧ waiting req c ∧ I c)).
    { destruct reset; [apply triple_wrap, triple_resetStatus; [done|apply gone_route_frame]|by apply triple_ret]. }
    intros r. apply (triple_weaken (λ c, (waiting req c ∧ I c) ∧ objKey r = req) _ (λ _, I) _ (finalized req) _);
      [|intros c (Hr & Hw & HI); exact (conj (conj Hw HI) Hr)|done|done].
    apply triple_pure. intros Hr. eapply (triple_bind _ (λ _, I)); [|intros r'; by apply triple_ret].
    apply triple_wrap, (triple_release Route CleanupFinalizer req I). intros c c' Hc. apply gone_route_frame. rewrite <-Hr. exact Hc.
  - intros [] s [HF [Hr Hs]]. split; [exact Hr|exact Hs|exact HF].
Qed.

Lemma route_keeps_finalizer (s : Manager) (route : Route) :
  truthful (mg_cluster s) → truthfulKinds route (mg_cluster s) → findObject Route (mg_cluster s) req = Some route →
  CleanupFinalizer ∈ om_Finalizers (rt_Meta route) →
  let s' := (reconcileRoute s).2 in
  finalized req (mg_cluster s') ∨ cleanedRoute route s'.
Proof.
  intros Ht Hkinds Hf Hin. pose (J s := truthfulKinds route (mg_cluster s)).
  assert (∀ A (m : M Cluster A) (P : Cluster -> Prop) Q E, within (changes nothing) m → triple P m Q E →
    triple (λ s, P (mg_cluster s) ∧ J s) (kube m) (λ a s, Q a (mg_cluster s) ∧ J s) (λ s, E (mg_cluster s))) as Hread.
  { intros A m P Q E Hm Htr. refine (triple_kube _ _ _ _ (triple_frame _ _ _ _ _ _ Htr _ Hm)).
    intros c c'. apply truthfulKinds_read. }
  assert (triple (λ s, (waiting req (mg_cluster s) ∧ findObject Route (mg_cluster s) req = Some route) ∧ J s) reconcileRoute
            (λ _ s, finalized req (mg_cluster s) ∨ cleanedRoute route s) (λ s, finalized req (mg_cluster s))) as Htr.
  { pose proof (findObject_key _ _ _ Hf) as Hk.
    assert (∀ s, waiting req (mg_cluster s) ∧ J s → finalized req (mg_cluster s) ∨ cleanedRoute route s) as Hstay.
    { intros s1 [[_ ?] _]. by left. }
    assert (∀ reset, triple (λ s, waiting req (mg_cluster s) ∧ J s) (cleanup IsNoMatchError route reset)
              (λ _ s, finalized req (mg_cluster s) ∨ cleanedRoute route s) (λ s, finalized req (mg_cluster s))) as Hclean.
    { intros reset. apply (triple_weaken _ _ _ _ _ _ _ (triple_cleanupRoute route reset Hk)); [done|by right|done]. }
    unfold Reconcile. eapply triple_bind; [exact (Hread _ _ _ _ _ (within_GetIfExists nothing req) (triple_read_if_exists _ _ req route))|].
    intros [r|]; [|apply triple_ret; intros s1 [[? _] ?]; auto].
    apply (triple_weaken (λ s, (waiting req (mg_cluster s) ∧ J s) ∧ r = route) _
      (λ _ s, finalized req (mg_cluster s) ∨ cleanedRoute route s) _ (λ s, finalized req (mg_cluster s)) _);
      [|intros s1 [[Hw Hr] HJ]; exact (conj (conj Hw HJ) Hr)|done|done].
    apply (triple_pure _ (λ s, waiting req (mg_cluster s) ∧ J s)). intros ->.
    eapply triple_bind.
    { pose proof (within_GetTenantAndConfig nothing managerNamespace (RemoveTenantPrefix (om_Namespace (rt_Meta route)))) as Hw.
      exact (Hread _ _ _ _ _ Hw (triple_waiting_read _ _ req _ Hw)). }
    intros [tenant config]. simpl. destruct (om_Deleting (rt_Meta route)).
    { destruct (ContainsFinalizer _ _); [exact (Hclean false)|]. apply triple_ret, Hstay. }
    eapply triple_bind.
    { assert (within (changes nothing) (shouldReconcile disableGatewayAPI converter route tenant config)) as Hw
        by (unfold shouldReconcile, convertRoute; within_solve).
      exact (Hread _ _ _ _ _ Hw (triple_waiting_read _ _ req _ Hw)). }
    intros [should disabled]. simpl. destruct (_ && disabled); [exact (Hclean true)|]. destruct should; [|apply triple_ret, Hstay].
    apply (triple_weaken (λ s, finalized req (mg_cluster s)) _ (λ _ s, finalized req (mg_cluster s)) _ (λ s, finalized req (mg_cluster s)) _);
      [|by intros s1 [[_ ?] _]|by left|done].
    simpl. unfold ensureRouteFinalizer. rewrite (bool_decide_eq_true_2 _ Hin : ContainsFinalizer (rt_Meta route) _ = true).
    apply within_mkeeps. eapply (within_bind_yields _ (λ r, objKey r = req)).
    - apply yields_zoom. by apply yields_ret.
    - apply keeps_kube, within_ret, _.
    - intros r Hr. within_step; [by apply keeps_serve|]. within_step; [|within_step].
      apply keeps_kube, keeps_generated. within_solve. }
  specialize (Htr s (conj (conj (conj Ht (ex_intro _ route (conj Hf Hin))) Hf) Hkinds)).
  destruct (reconcileRoute s) as [[u|e| |] s']; simpl; [done|by left..].
Qed.

Lemma succeeds_deleteTolerant (D : Type) `{!Resource D} (K : ObjectKey -> Prop) key :
  K (storeKey D key) → succeeds K (deleteTolerant IsNoMatchError D key).
Proof.
  intros HK c Hno. destruct (deleteTolerant_cases D key c) as [->|(e & c' & Hin & _)]; [by apply succeeds_delete|].
  rewrite Hno in Hin. by apply elem_of_nil in Hin.
Qed.

Lemma succeeds_deleteGeneratedRoute route : om_Namespace (rt_Meta route) = req.1 →
  succeeds (generatedFor req) (deleteGeneratedRoute IsNoMatchError route).
Proof.
  intros Hn. unfold deleteGeneratedRoute, deleteGenerated. rewrite Hn.
  destruct (rt_Source route) as [source|]; [|apply succeeds_ret]. destruct (_ || _); [apply succeeds_ret|]. apply succeeds_wrap.
  repeat case_bool_decide; try apply succeeds_ret; apply succeeds_deleteTolerant;
    [apply G_Ingress|apply G_Gateway|apply G_HTTPRoute|apply G_GRPCRoute|apply G_Service].
Qed.

(** A cleanup whose calls go through removes the Route. *)
Lemma cleanupRoute_ok (s : Manager) route :
  cl_faults (mg_cluster s) = [] → findObject Route (mg_cluster s) req = Some route →
  om_Deleting (rt_Meta route) = true → om_Finalizers (RemoveFinalizer (rt_Meta route) CleanupFinalizer) = [] →
  ∃ s', cleanup IsNoMatchError route false s = (Ret tt, s') ∧ findObject Route (mg_cluster s') req = None.
Proof.
  intros Hno Hf Hd Hfin. pose proof (findObject_key _ _ _ Hf) as Hk. pose proof (objKey_namespace _ _ Hk) as Hn. unfold cleanup.
  destruct (succeeds_deleteGeneratedRoute route Hn _ Hno) as ([] & c1 & H1 & Hc1 & Hno1).
  step_eval ltac:(by eapply kube_eval). 
  assert (succeeds (generatedFor req) (forM_ (statusServices route)
    (λ '(_, value), deleteServiceState "failed to delete service" route (rss_State value)))) as Hdel.
  { apply succeeds_forM_. intros [k v] _. unfold deleteServiceState. rewrite Hn. apply succeeds_wrap, succeeds_delete, G_Service. }
  destruct (Hdel c1 Hno1) as ([] & c2 & H2 & Hc2 & Hno2).
  step_eval ltac:(by eapply kube_eval). step_eval ltac:(reflexivity).
  assert (findObject Route c2 req = Some route) as Hf2.
  { rewrite (findObject_frame _ _ _ _ Hc2), (findObject_frame _ _ _ _ Hc1) by apply generated_not_route. done. }
  destruct (Update_removes c2 Hno2 {| route with rt_Meta := RemoveFinalizer (rt_Meta route) CleanupFinalizer |} route) as (c3 & H3 & _ & Hf3).
  { by change (findObject Route c2 (objKey route) = Some route); rewrite Hk. }
  { by right. }
  { done. }
  { done. }
  eexists. split.
  - eapply kube_eval. simpl. step_eval ltac:(reflexivity). step_eval ltac:(by eapply wrap_eval). reflexivity.
  - simpl. rewrite <-Hk. exact Hf3.
Qed.

(** Whatever the API server answers, a reconcile of a Route touches only that Route and
    objects of its own tenant namespace, of the kinds it generates, leaves every object under
    its own kind and name, changes the port allocator only by the allocator's own steps and
    leaves the snapshots alone. *)
Theorem route_reconcile_frame (s : Manager) :
  let s' := (reconcileRoute s).2 in
  (∀ k, k ≠ storeKey Route req → ¬ generatedFor req k →
     cl_objects (mg_cluster s') !! k = cl_objects (mg_cluster s) !! k) ∧
  (well_formed (mg_cluster s) → well_formed (mg_cluster s')) ∧
  (valid_draws (mg_draws s) → rtc step (mg_alloc s) (mg_alloc s')) ∧
  mg_cache s' = mg_cache s.
Proof.
  destruct (within_ReconcileRoute managerNamespace disableGatewayAPI converter IsNoMatchError SetStatusCondition jsonServiceStatus
    jsonIngressStatus jsonGatewayStatus jsonRouteStatus req s) as [[Hf Hw _] Ha Hc].
  split_and!; [|done| |done].
  - intros k Hk Hg. apply Hf. by intros [?|?].
  - intros Hv. by apply Ha.
Qed.

(** C11: The finalizer is safe: as long as the server is truthful when it reports that an object
    is not found, or that it does not know its kind, a Route that has the cleanup finalizer
    keeps it through every reconcile, failing or not, unless the generated resource and the
    Services its status records are deleted and the ports of its backends are free. *)
Theorem route_finalizer_safe (s : Manager) (route : Route) :
  truthful (mg_cluster s) → truthfulKinds route (mg_cluster s) → findObject Route (mg_cluster s) req = Some route →
  CleanupFinalizer ∈ om_Finalizers (rt_Meta route) →
  let s' := (reconcileRoute s).2 in
  finalized req (mg_cluster s') ∨ cleanedRoute route s'.
Proof. apply route_keeps_finalizer. Qed.

(** Deletion ends: when the calls go through and the tenant still exists, one reconcile of a
    Route that is marked for deletion and held by no other finalizer removes it, and
    everything its status records. *)
Theorem route_deletion_completes (s : Manager) (route : Route) (tenant : Tenant) :
  cl_faults (mg_cluster s) = [] → findObject Route (mg_cluster s) req = Some route →
  findObject Tenant (mg_cluster s) ("", RemoveTenantPrefix req.1) = Some tenant →
  om_Deleting (rt_Meta route) = true → CleanupFinalizer ∈ om_Finalizers (rt_Meta route) →
  om_Finalizers (RemoveFinalizer (rt_Meta route) CleanupFinalizer) = [] →
  ∃ s', reconcileRoute s = (Ret tt, s') ∧ findObject Route (mg_cluster s') req = None ∧ cleanedRoute route s'.
Proof.
  intros Hno Hf Ht Hd Hc Hfin. pose proof (objKey_namespace _ _ (findObject_key _ _ _ Hf)) as Hn.
  assert (∃ s', reconcileRoute s = (Ret tt, s') ∧ findObject Route (mg_cluster s') req = None) as (s' & Hr & Hgone).
  { unfold Reconcile. step_eval ltac:(eapply kube_read; rewrite (GetIfExists_eval _ Hno), Hf; reflexivity).
    cbv beta iota. rewrite Hn. step_eval ltac:(by eapply kube_read, GetTenantAndConfig_eval). cbv beta iota.
    rewrite Hd, (bool_decide_eq_true_2 _ Hc : ContainsFinalizer _ CleanupFinalizer = true). by apply cleanupRoute_ok. }
  exists s'. split_and!; [done|done|].
  pose proof (route_keeps_finalizer s route) as [(r' & Hf' & _)|Hcl]; [| |done|done|..].
  - unfold truthful. by rewrite Hno.
  - intros e He. rewrite Hno in He. by apply elem_of_nil in He.
  - rewrite Hr in Hf'. simpl in Hf'. by rewrite Hgone in Hf'.
  - by rewrite Hr in Hcl.
Qed.
End route_finalizer.

(** ** Samples and what the model shows *)

Definition sampleConverter : UnstructuredConverter :=
  {| fromIngress _ := Err ""; fromService _ := Err ""; fromGRPCRoute _ := Err "";
     fromGateway u := Ok {| gw_Meta := u_Meta u; gw_GatewayClassName := "kubelb"; gw_Listeners := []; gw_Conditions := [] |};
     fromHTTPRoute u := Ok {| gr_Meta := u_Meta u; gr_ParentRefs := []; gr_Hostnames := []; gr_Rules := []; gr_Status := [] |} |}.

(** An API server that answers so for the kinds it does not know *)
Definition sampleNoMatch (e : Error) : bool := bool_decide (ReasonForError e = Some (OtherReason "NoMatch")).

#[local] Abbreviation sampleReconcile :=
  (Reconcile "kubelb" false sampleConverter sampleNoMatch (λ _ c, [c]) (λ _, None) (λ _, None) (λ _, None) (λ _, None)).

(** A Route whose status records a Service and the HTTPRoute *)
Definition recordedStatus : RouteResourcesStatus :=
  {| rrs_Services := Some {[ "backend/svc" :=
       {| rss_State := {| emptyResourceState with rs_Name := "svc"; rs_Namespace := "backend"; rs_GeneratedName := "web-svc" |};
          rss_Ports := [] |} ]};
     rrs_Route := {| emptyResourceState with rs_GeneratedName := "web-route" |} |}.
Definition deletedRoute : Route :=
  {| (sampleRoute "r1" "ns1") with rt_Meta := sampleDeleted (sampleMeta "tenant-a" "r1"); rt_Status := recordedStatus |}.
Definition deletedRouteManager : Manager := sampleManager [ORoute deletedRoute; OTenant sampleTenant].

(** The same Route without the kind of its resource on the server: the deletion is answered
    so, and the Route goes. *)
Definition unknownKindManager : Manager :=
  {| deletedRouteManager with mg_cluster := {| (mg_cluster deletedRouteManager) with
       cl_faults := [None; None; None; Some (StatusError (OtherReason "NoMatch") "no matches for kind HTTPRoute")] |} |}.

Lemma route_finalizer_safe_witness :
  let s' := (sampleReconcile ("tenant-a", "r1") unknownKindManager).2 in
  finalized ("tenant-a", "r1") (mg_cluster s') ∨ cleanedRoute deletedRoute s'.
Proof.
  apply (route_finalizer_safe "kubelb" false sampleConverter sampleNoMatch (λ _ c, [c]) (λ _, None) (λ _, None) (λ _, None) (λ _, None)
    ("tenant-a", "r1") unknownKindManager deletedRoute).
  - repeat constructor.
  - intros e _ _ source [= <-] _. split_and!; intros Ha Hb o Ho; vm_compute in Ho; discriminate Ho.
  - vm_compute. reflexivity.
  - by left.
Defined.

Example unknown_kind_is_cleaned :
  let '(r, s') := sampleReconcile ("tenant-a", "r1") unknownKindManager in
  r = Ret tt ∧ findObject Route (mg_cluster s') ("tenant-a", "r1") = None.
Proof. vm_compute. split; reflexivity. Qed.

Lemma route_deletion_completes_witness :
  ∃ s', sampleReconcile ("tenant-a", "r1") deletedRouteManager = (Ret tt, s') ∧
    findObject Route (mg_cluster s') ("tenant-a", "r1") = None ∧ cleanedRoute deletedRoute s'.
Proof.
  apply (route_deletion_completes "kubelb" false sampleConverter sampleNoMatch (λ _ c, [c]) (λ _, None) (λ _, None) (λ _, None) (λ _, None)
    ("tenant-a", "r1") deletedRouteManager deletedRoute sampleTenant).
  - reflexivity.
  - vm_compute. reflexivity.
  - vm_compute. reflexivity.
  - reflexivity.
  - by left.
  - reflexivity.
Defined.

(** The tenant is looked up before the deletion mark: a Route of a tenant that is gone
    cannot be deleted. *)
Example route_of_missing_tenant_stuck :
  let '(r, s') := sampleReconcile ("tenant-a", "r1") (sampleManager [ORoute deletedRoute]) in
  match r with Fail e => IsNotFound e = true | _ => False end ∧
  findObject Route (mg_cluster s') ("tenant-a", "r1") = Some deletedRoute.
Proof. vm_compute. split; reflexivity. Qed.

(** The ports of a backend that is dropped from a Route are not freed: the key to free is
    built with the generated name of the Service, the ports are held under its own. *)
Example orphaned_backend_keeps_ports :
  let key := "tenant-tenant-a-route-backend-svc-web" in
  let source := {| ks_Route := {| u_APIVersion := gatewayV1; u_Kind := "HTTPRoute"; u_Meta := sampleMeta "ns1" "web"; u_Spec := "" |};
                   ks_Services := [] |} in
  let route := {| (sampleRoute "r1" "ns1") with rt_Source := Some source; rt_Status := recordedStatus |} in
  match AllocatePortsForRoutes [1]%Z NewPortAllocator [sampleRoute "r1" "ns1"] with
  | Some (pa, _) =>
      Lookup pa key "80-TCP" = (10001, true)%Z ∧
      let '(r, s') := sampleReconcile ("tenant-a", "r1") {| (sampleManager [ORoute route; OTenant sampleTenant]) with mg_alloc := pa |} in
      r = Ret tt ∧ Lookup (mg_alloc s') key "80-TCP" = (10001, true)%Z
  | None => False
  end.
Proof. vm_compute. repeat split; reflexivity. Qed.

(** Two Gateways of a tenant, the second of which does not get the name: its status names
    the Gateway all the same, and deleting it deletes the Gateway of the first. *)
Definition gatewayRoute (uid origin : string) : Route :=
  {| (sampleRoute uid origin) with
       rt_Source := Some {| ks_Route := {| u_APIVersion := gatewayV1; u_Kind := "Gateway"; u_Meta := sampleMeta origin "kubelb"; u_Spec := "" |};
                            ks_Services := [] |} |}.

Definition markDeleted (key : NamespacedName) (s : Manager) : Manager :=
  {| s with mg_cluster := (Delete Route key (mg_cluster s)).2 |}.

Example losing_gateway_deletes_winner :
  let s0 := sampleManager [ORoute (gatewayRoute "r1" "ns1"); ORoute (gatewayRoute "r2" "ns2"); OTenant sampleTenant] in
  let '(r1, s1) := sampleReconcile ("tenant-a", "r1") s0 in
  let '(r2, s2) := sampleReconcile ("tenant-a", "r2") s1 in
  let '(r3, s3) := sampleReconcile ("tenant-a", "r2") (markDeleted ("tenant-a", "r2") s2) in
  let gateway s := bool_decide (is_Some (findObject Gateway (mg_cluster s) ("tenant-a", "kubelb"))) in
  r1 = Ret tt ∧ gateway s1 = true ∧
  match r2 with Fail _ => True | _ => False end ∧ gateway s2 = true ∧
  r3 = Ret tt ∧ gateway s3 = false.
Proof. vm_compute. repeat split; reflexivity. Qed.
