(* ===== verification/RouteSteadyState.v ===== *)
(** * The steady state of a Route

    What one reconcile of a Route leaves behind when the calls go through: the Service of
    every backend, with target ports of the allocator, the generated HTTPRoute and a status
    that names them. *)

From S2P Require Import Prelude GoStrings Api GatewayApi Names PortAllocator Annotations Kube.
From S2P Require Import Finalizers Services RouteResources EnvoyResource Manager LBController LBSteadyState RouteController.
Local Open Scope go_scope.





(** ** Lemmas *)



Section loops.
Context (SetStatusCondition : list Condition -> Condition -> list Condition).
Context (jsonServiceStatus : list LoadBalancerIngress -> option string).



End loops.











Section converge_route.
Context (managerNamespace : string) (disableGatewayAPI : bool) (converter : UnstructuredConverter) (IsNoMatchError : Error -> bool).
Context (SetStatusCondition : list Condition -> Condition -> list Condition).
Context (jsonServiceStatus jsonIngressStatus : list LoadBalancerIngress -> option string).
Context (jsonGatewayStatus : list Condition -> option string) (jsonRouteStatus : list RouteParentStatus -> option string).
#[local] Abbreviation manageServices := (manageServices SetStatusCondition jsonServiceStatus).
#[local] Abbreviation manageRoutes :=
  (manageRoutes converter SetStatusCondition jsonIngressStatus jsonGatewayStatus jsonRouteStatus).






(** *** The references of the generated HTTPRoute

    A reference means a Service when it is of that kind and names it, in the namespace of the
    route it is read in unless it gives another. *)
Definition meansService (namespace : string) (ref : BackendObjectReference) (svc : Service) : Prop :=
  (bor_Kind ref = None ∨ bor_Kind ref = Some "Service") ∧ bor_Name ref = GetServiceName svc ∧
  default namespace (bor_Namespace ref) = om_Namespace (svc_Meta svc).

Section references.
Context (source : KubernetesSource) (routeName namespace : string).
Implicit Types (ref : BackendObjectReference) (svc : Service).





End references.




End converge_route.

(** ** Samples *)

Definition servedSource : KubernetesSource :=
  {| ks_Route := {| u_APIVersion := gatewayV1; u_Kind := "HTTPRoute"; u_Meta := sampleMeta "ns1" "web"; u_Spec := "" |};
     ks_Services := [service (sampleMeta "backend" "svc") [samplePort "http" 80 8080] "NodePort" "" ""] |}.
Definition backendReference (namespace : option string) : BackendObjectReference :=
  {| bor_Kind := None; bor_Name := "svc"; bor_Namespace := namespace; bor_Port := Some 80%Z |}.



(** A reference that gives no namespace means its own, but the first backend of that name is
    taken: with a backend [svc] of another namespace listed first, the HTTPRoute of [ns1]
    that refers to its own [svc] is sent to the other one. *)
Definition twoBackends : KubernetesSource :=
  {| servedSource with ks_Services := (λ ns, service (sampleMeta ns "svc") [samplePort "http" 80 8080] "NodePort" "" "") <$> ["backend"; "ns1"] |}.

Example reference_taken_for_another :
  meansService "ns1" (backendReference None) (service (sampleMeta "ns1" "svc") [samplePort "http" 80 8080] "NodePort" "" "") ∧
  bor_Name (retargetRef (referencedServices twoBackends) "web" (backendReference None)) = GenerateRouteServiceName "web" "svc" "backend" ∧
  GenerateRouteServiceName "web" "svc" "backend" ≠ GenerateRouteServiceName "web" "svc" "ns1".
Proof. split; [by split; [left|]|]. split; vm_compute; [reflexivity|done]. Qed.
