(* ===== verification/CCM.v ===== *)
(** * The cloud controller manager's state and what its controllers share

    [internal/controllers/ccm/shared.go]. The CCM runs beside a tenant cluster and has a
    client of that cluster and one of the management cluster, where it may write to the
    namespace of its tenant. It keeps nothing in memory: its state is the two clusters. *)

From S2P Require Import Prelude GoStrings Api GatewayApi Names Kube Finalizers Services RouteResources Manager.
Local Open Scope go_scope.

Record CCM := { ccm_tenant : Cluster; ccm_lb : Cluster }.

Definition tenantClient : Lens CCM Cluster :=
  {| view := ccm_tenant; over c s := {| s with ccm_tenant := c |} |}.
Definition lbClient : Lens CCM Cluster :=
  {| view := ccm_lb; over c s := {| s with ccm_lb := c |} |}.
#[export] Instance tenantClient_laws : LensLaws tenantClient.
Proof. split; intros; simpl; try done; by destruct s. Qed.
#[export] Instance lbClient_laws : LensLaws lbClient.
Proof. split; intros; simpl; try done; by destruct s. Qed.

(** A call of the tenant's client, and one of the management cluster's *)
Definition inTenant {A} (m : M Cluster A) : M CCM A := zoom tenantClient m.
Definition inLB {A} (m : M Cluster A) : M CCM A := zoom lbClient m.

(** ** [shared.go] *)

(** [unstructured.ConvertObjectToUnstructured] gives the converted object. *)
Definition reconcileSourceForRoute (unstructuredResource : result Unstructured) (originalServices : list NamespacedName)
  (namespace : string) : M CCM unit :=
  match unstructuredResource with
  | Err msg => raise (Wrap "failed to convert Ingress to unstructured" (Errorf msg))
  | Ok unstructuredResource =>
      let unstructuredResource := NormalizeUnstructured unstructuredResource in
      services ← wrap "failed to normalize services" (inTenant (NormalizeAndReplicateServices originalServices));
      wrap "failed to create route for resource" (inLB (CreateRouteForResource unstructuredResource services namespace))
  end.

(** A Route that is gone between the two calls is an error. *)
Definition cleanupRoute (resourceUID namespace : string) : M Cluster unit :=
  found ← wrap "failed to get Route from LB cluster" (GetIfExists Route (namespace, resourceUID));
  match found with
  | None => mret tt
  | Some route => wrap "failed to delete Route" (Delete Route (objKey route))
  end.

(** The names of the objects with these labels, the live one apart *)
Definition staleMirrorNames (O : Type) `{!Resource O} (tenantNamespace liveUID : string) (selector : StrMap)
  : M Cluster (list string) :=
  items ← wrap ("failed to list mirrors in " ⊕ tenantNamespace) (List O (Some tenantNamespace) selector);
  mret (filter (λ name, name ≠ liveUID) ((λ o, om_Name (objMeta o)) <$> items)).

(** The check of the kind looks at the name a second time. *)
Definition enqueueRoutes (gvk clusterNamespace : string) (route : Route) : list NamespacedName :=
  let labels := entries (om_Labels (rt_Meta route)) in
  if bool_decide (om_Namespace (rt_Meta route) ≠ clusterNamespace) then []
  else
    match labels !! LabelOriginNamespace, labels !! LabelOriginName, labels !! LabelOriginResourceKind with
    | Some originalNamespace, Some originalName, Some resourceGVK =>
        if bool_decide (originalNamespace = "") || bool_decide (originalName = "") || negb (bool_decide (gvk = resourceGVK))
        then [] else [(originalNamespace, originalName)]
    | _, _, _ => []
    end.

(** ** What the programs of the CCM change *)

(** The tenant's cluster at the keys in [K], the management cluster at those in [K'] *)
Record acts (K K' : ObjectKey -> Prop) (s s' : CCM) : Prop := {
  acts_tenant : changes K (ccm_tenant s) (ccm_tenant s');
  acts_lb : changes K' (ccm_lb s) (ccm_lb s');
}.

#[export] Instance acts_preorder K K' : PreOrder (acts K K').
Proof.
  split; [intros s; by split|]. intros s1 s2 s3 [T1 L1] [T2 L2]. split; by etrans.
Qed.

Lemma within_inTenant {A} K K' (m : M Cluster A) : within (changes K) m → within (acts K K') (inTenant m).
Proof. apply within_zoom. intros s c Hc. by split. Qed.
Lemma within_inLB {A} K K' (m : M Cluster A) : within (changes K') m → within (acts K K') (inLB m).
Proof. apply within_zoom. intros s c Hc. by split. Qed.

Lemma acts_weaken (K1 K2 K1' K2' : ObjectKey -> Prop) s s' :
  (∀ k, K1 k → K2 k) → (∀ k, K1' k → K2' k) → acts K1 K1' s s' → acts K2 K2' s s'.
Proof. intros H1 H2 [? ?]. split; by eapply changes_weaken. Qed.

Lemma inTenant_eval {A} (m : M Cluster A) s r c : m (ccm_tenant s) = (r, c) → inTenant m s = (r, {| s with ccm_tenant := c |}).
Proof. apply (zoom_eval tenantClient). Qed.
Lemma inLB_eval {A} (m : M Cluster A) s r c : m (ccm_lb s) = (r, c) → inLB m s = (r, {| s with ccm_lb := c |}).
Proof. apply (zoom_eval lbClient). Qed.
Lemma inTenant_read {A} (m : M Cluster A) s r : m (ccm_tenant s) = (r, ccm_tenant s) → inTenant m s = (r, s).
Proof. intros Hm. rewrite (inTenant_eval _ _ _ _ Hm). by destruct s. Qed.
Lemma inLB_read {A} (m : M Cluster A) s r : m (ccm_lb s) = (r, ccm_lb s) → inLB m s = (r, s).
Proof. intros Hm. rewrite (inLB_eval _ _ _ _ Hm). by destruct s. Qed.

(** What is known of one cluster is kept by the calls of the other. *)
Lemma triple_inTenant {A} P (F : Cluster -> Prop) (m : M Cluster A) (Q : A -> Cluster -> Prop) E :
  triple P m Q E →
  triple (λ s, P (ccm_tenant s) ∧ F (ccm_lb s)) (inTenant m) (λ a s, Q a (ccm_tenant s) ∧ F (ccm_lb s)) (λ s, E (ccm_tenant s)).
Proof. intros Hm s [HP HF]. specialize (Hm _ HP). unfold inTenant, zoom. simpl. by destruct (m (ccm_tenant s)) as [[a|e| |] c]. Qed.
Lemma triple_inLB {A} P (F : Cluster -> Prop) (m : M Cluster A) (Q : A -> Cluster -> Prop) E :
  triple P m Q E →
  triple (λ s, P (ccm_lb s) ∧ F (ccm_tenant s)) (inLB m) (λ a s, Q a (ccm_lb s) ∧ F (ccm_tenant s)) (λ s, E (ccm_lb s)).
Proof. intros Hm s [HP HF]. specialize (Hm _ HP). unfold inLB, zoom. simpl. by destruct (m (ccm_lb s)) as [[a|e| |] c]. Qed.

Lemma triple_lb_frame {A} (P : Cluster -> Prop) (m : M Cluster A) :
  triple (λ s, P (ccm_tenant s)) (inLB m) (λ _ s, P (ccm_tenant s)) (λ s, P (ccm_tenant s)).
Proof. intros s Hs. unfold inLB, zoom. simpl. by destruct (m (ccm_lb s)) as [[a|e| |] c]. Qed.

Lemma triple_tenant {A} P (m : M Cluster A) (Q : A -> Cluster -> Prop) E :
  triple P m Q E → triple (λ s, P (ccm_tenant s)) (inTenant m) (λ a s, Q a (ccm_tenant s)) (λ s, E (ccm_tenant s)).
Proof. exact (triple_zoom tenantClient P Q E m). Qed.

(** The update that takes the finalizer off keeps it when it fails. *)
Lemma triple_drop (O : Type) `{!Resource O} finalizer req (o : O) :
  triple (finalized O finalizer req) (Update o) (λ _ _, True) (finalized O finalizer req).
Proof.
  intros c Hf. destruct (Update o c) as [[o'|e| |] c'] eqn:Hu; [done|..].
  all: eapply finalized_objects; [exact (Update_not_Ret _ _ _ _ Hu ltac:(discriminate))|exact Hf].
Qed.

Ltac acts_solve :=
  repeat (within_step || apply within_inTenant || apply within_inLB || (progress (simpl; cbv zeta))); eauto with kube.

#[export] Hint Resolve within_inTenant within_inLB : kube.
#[export] Hint Extern 1 (yields _ (inTenant _)) => eapply yields_zoom : yields.
#[export] Hint Extern 1 (yields _ (inLB _)) => eapply yields_zoom : yields.

(** ** Setting finalizers *)

Definition withFinalizers (fs : list string) (m : ObjectMeta) : ObjectMeta := {| m with om_Finalizers := fs |}.

Section set_finalizers.
Context {O : Type} `{!Resource O}.
Implicit Types (o : O) (c : Cluster).

(** An update of the finalizers of a stored object stores nothing else. *)
Lemma updated_finalizers o fs : onWire (objMeta o) = objMeta o →
  updated o (setMeta (withFinalizers fs (objMeta o)) o) = setMeta (withFinalizers fs (objMeta o)) o.
Proof.
  intros Hw. unfold updated. rewrite copyStatus_setMeta_r, copyStatus_self, setMeta_setMeta, objMeta_setMeta. f_equal.
  unfold onWire, withFinalizers in *. destruct (objMeta o); simpl in *. simplify_eq/=. congruence.
Qed.

Lemma Update_finalizers o fs c : cl_faults c = [] → well_formed c → findObject O c (objKey o) = Some o →
  om_Deleting (objMeta o) = false →
  ∃ c', Update (setMeta (withFinalizers fs (objMeta o)) o) c = (Ret (setMeta (withFinalizers fs (objMeta o)) o), c') ∧
    changes (eq (storeKey O (objKey o))) c c' ∧ cl_faults c' = [] ∧
    findObject O c' (objKey o) = Some (setMeta (withFinalizers fs (objMeta o)) o).
Proof.
  intros Hno Hw Hf Hd. pose proof (findObject_meta _ _ _ Hw Hf) as [_ Hwire].
  assert (objKey (setMeta (withFinalizers fs (objMeta o)) o) = objKey o) as Hk by (unfold objKey; by rewrite objMeta_setMeta).
  destruct (Update_stored c Hno (setMeta (withFinalizers fs (objMeta o)) o) o) as (c' & Hu & Hch & Hno' & Hf').
  - by rewrite Hk.
  - right. by rewrite objMeta_setMeta.
  - by rewrite Hd.
  - rewrite updated_finalizers, Hk in * by done. by exists c'.
Qed.
(** Most controllers start by adding the finalizer when it is not there, and end by taking
    it off. *)
Definition addCleanupFinalizer (resource : O) : M Cluster O :=
  if ContainsFinalizer (objMeta resource) CleanupFinalizer then mret resource
  else wrap "failed to add finalizer" (Update (setMeta (AddFinalizer (objMeta resource) CleanupFinalizer) resource)).

Definition removeCleanupFinalizer (object : O) : M Cluster unit :=
  _ ← wrap "failed to remove finalizer" (Update (setMeta (RemoveFinalizer (objMeta object) CleanupFinalizer) object));
  mret tt.

(** The finalizers are all that is changed. *)
Definition finalizedAs o (fs : list string) : O := setMeta (withFinalizers fs (objMeta o)) o.

Lemma finalizedAs_same o : finalizedAs o (om_Finalizers (objMeta o)) = o.
Proof.
  unfold finalizedAs. rewrite <- (setMeta_objMeta o) at 4. f_equal. by destruct (objMeta o).
Qed.

Lemma AddFinalizer_with m : AddFinalizer m CleanupFinalizer = withFinalizers (om_Finalizers (AddFinalizer m CleanupFinalizer)) m.
Proof. done. Qed.

Lemma within_addCleanupFinalizer (K : ObjectKey -> Prop) o : K (storeKey O (objKey o)) → within (changes K) (addCleanupFinalizer o).
Proof. intros HK. unfold addCleanupFinalizer. within_solve. apply within_Update. unfold objKey in *. rewrite objMeta_setMeta. exact HK. Qed.

Lemma within_removeCleanupFinalizer (K : ObjectKey -> Prop) o : K (storeKey O (objKey o)) → within (changes K) (removeCleanupFinalizer o).
Proof. intros HK. unfold removeCleanupFinalizer. within_solve. apply within_Update. unfold objKey in *. rewrite objMeta_setMeta. exact HK. Qed.

Lemma addCleanupFinalizer_spec o c o' c' : well_formed c → findObject O c (objKey o) = Some o →
  addCleanupFinalizer o c = (Ret o', c') → ∃ fs, o' = finalizedAs o fs.
Proof.
  intros Hw Hf H. unfold addCleanupFinalizer in H. destruct (ContainsFinalizer _ _) eqn:Hc; minv.
  - exists (om_Finalizers (objMeta o')). by rewrite finalizedAs_same.
  - pose proof (findObject_meta _ _ _ Hw Hf) as [_ Hwire]. rewrite AddFinalizer_with in H.
    apply Update_Ret in H as (old & Hold & -> & _).
    assert (old = o) as ->. { unfold objKey in Hold, Hf. rewrite objMeta_setMeta in Hold. simpl in Hold. congruence. }
    eexists. by apply updated_finalizers.
Qed.

Lemma addCleanupFinalizer_ok o c : cl_faults c = [] → well_formed c → findObject O c (objKey o) = Some o →
  om_Deleting (objMeta o) = false →
  ∃ fs c', addCleanupFinalizer o c = (Ret (finalizedAs o fs), c') ∧
    changes (eq (storeKey O (objKey o))) c c' ∧ cl_faults c' = [] ∧ CleanupFinalizer ∈ fs ∧
    findObject O c' (objKey o) = Some (finalizedAs o fs).
Proof.
  intros Hno Hw Hf Hd. unfold addCleanupFinalizer. destruct (ContainsFinalizer (objMeta o) CleanupFinalizer) eqn:Hc.
  { exists (om_Finalizers (objMeta o)), c. rewrite finalizedAs_same. by apply bool_decide_eq_true in Hc. }
  rewrite AddFinalizer_with. set (fs := om_Finalizers (AddFinalizer (objMeta o) CleanupFinalizer)).
  destruct (Update_finalizers o fs c Hno Hw Hf Hd) as (c' & Hu & Hch & Hno' & Hf').
  exists fs, c'. split_and!; [by apply wrap_eval|done|done| |done].
  subst fs. simpl. rewrite Hc. apply elem_of_app. right. by left.
Qed.

(** With the finalizer in hand nothing is written. *)
Lemma addCleanupFinalizer_there o : CleanupFinalizer ∈ om_Finalizers (objMeta o) → addCleanupFinalizer o = mret o.
Proof. intros Hin. unfold addCleanupFinalizer, ContainsFinalizer. by rewrite bool_decide_eq_true_2. Qed.
End set_finalizers.

(** ** Reaping: deleting the mirrors of origins that are no longer there *)

(** What the reaping loops promise of the deletion of one mirror *)
Class Deleter (O : Type) `{!Resource O} (ns : string) (del : string -> M Cluster unit) : Prop := {
  deleter_within n : within (changes (eq (storeKey O (ns, n)))) (del n);
  deleter_gone n c u c' : truthful c → del n c = (Ret u, c') → gone O (ns, n) c';
  deleter_succeeds n : succeeds (eq (storeKey O (ns, n))) (del n);
}.

#[export] Instance delete_deleter O `{!Resource O} ns p : Deleter O ns (λ n, wrap p (DeleteIgnoreNotFound O (ns, n))).
Proof.
  split.
  - intros n. within_solve.
  - intros n c u c' Ht Hr%wrap_Ret. by eapply DeleteIgnoreNotFound_gone.
  - intros n. by apply succeeds_wrap, succeeds_delete.
Qed.

Lemma within_ccm_cleanupRoute (K : ObjectKey -> Prop) uid ns : K (storeKey Route (ns, uid)) → within (changes K) (cleanupRoute uid ns).
Proof.
  intros HK. unfold cleanupRoute. eapply within_bind_yields; [apply _|apply yields_wrap, yields_GetIfExists|within_solve|].
  intros [route|] Hk; [|within_step]. within_step. apply within_Delete. by rewrite Hk.
Qed.

Lemma cleanupRoute_gone uid ns c u c' : truthful c → cleanupRoute uid ns c = (Ret u, c') → gone Route (ns, uid) c'.
Proof.
  intros Ht H. unfold cleanupRoute in H. minv. destruct a as [route|]; minv.
  - assert (objKey route = (ns, uid)) as Hk by (by eapply yields_GetIfExists in Hm).
    assert (DeleteIgnoreNotFound Route (ns, uid) s = (Ret tt, c')) as Hd.
    { unfold DeleteIgnoreNotFound. rewrite <- Hk. destruct u. by rewrite (bind_eval _ _ _ _ _ (try_eval _ _ _ _ H)). }
    eapply DeleteIgnoreNotFound_gone; [|exact Hd]. eapply (truthful_changes nothing); [|exact Ht].
    pose proof (within_GetIfExists (O:=Route) nothing (ns, uid) c) as Hw. by rewrite Hm in Hw.
  - unfold GetIfExists in Hm. minv. destruct a as [route|e]; [by minv|]. destruct (IsNotFound e) eqn:Hn; minv.
    pose proof (existing_Fail _ _ _ _ Hm0 Ht Hn) as Hnone. apply existing_spec in Hm0 as (_ & Ho & _).
    intros o. rewrite (findObject_objects c) by done. by rewrite Hnone.
Qed.

#[export] Instance cleanupRoute_deleter ns p : Deleter Route ns (λ n, wrap p (cleanupRoute n ns)).
Proof.
  split.
  - intros n. apply within_wrap; [apply _|]. by apply within_ccm_cleanupRoute.
  - intros n c u c' Ht Hr%wrap_Ret. by eapply cleanupRoute_gone.
  - intros n. apply succeeds_wrap. intros c Hno.
    pose proof (within_ccm_cleanupRoute (eq (storeKey Route (ns, n))) n ns eq_refl c) as Hw.
    assert (∃ c', cleanupRoute n ns c = (Ret tt, c')) as [c' Hr].
    { unfold cleanupRoute. erewrite bind_eval by (by eapply wrap_eval, GetIfExists_eval).
      destruct (findObject Route c (ns, n)) as [route|] eqn:Hf; [|by eexists]. pose proof (findObject_key _ _ _ Hf) as Hk.
      unfold Delete, wrap, try, mbind, M_bind. rewrite existing_eval, Hk, Hf by done.
      case_bool_decide; by eexists. }
    exists tt, c'. rewrite Hr in Hw. split_and!; [done|done|by eapply changes_no_faults].
Qed.

Section reaping.
Context {O : Type} `{!Resource O} (ns liveUID : string) (selector : StrMap) (del : string -> M Cluster unit).
Context `{!Deleter O ns del}.
Implicit Types (o : O) (c : Cluster) (names : list string).

(** The loop of [reapStaleLoadBalancers] and [reapStaleRoutes] *)
Definition reap : M Cluster unit := stale ← staleMirrorNames O ns liveUID selector; forM_ stale del.

Definition named names (k : ObjectKey) : Prop := ∃ n, n ∈ names ∧ k = storeKey O (ns, n).

Lemma within_dels names : within (changes (named names)) (forM_ names del).
Proof.
  apply within_forM_; [apply _|]. intros n Hn. eapply within_weaken, deleter_within.
  intros c c'. apply changes_weaken. intros k <-. by exists n.
Qed.

Lemma dels_gone names c u c' : truthful c → forM_ names del c = (Ret u, c') → ∀ n, n ∈ names → gone O (ns, n) c'.
Proof.
  revert c. induction names as [|x names IH]; intros c Ht H n Hn; [by apply elem_of_nil in Hn|]. simpl in H. minv.
  pose proof (deleter_within (O:=O) (ns:=ns) (del:=del) x c) as Hx. rewrite Hm in Hx. simpl in Hx.
  assert (truthful s) as Ht' by (by eapply truthful_changes).
  destruct (decide (n ∈ names)) as [Hin|Hnin]; [by eapply IH|]. apply elem_of_cons in Hn as [->|?]; [|done].
  pose proof (within_dels names s) as Hw. rewrite H in Hw. eapply gone_frame; [exact Hw| |exact (deleter_gone (O:=O) _ _ _ _ Ht Hm)].
  intros (m & Hm' & [= ->]). done.
Qed.

Lemma staleMirrorNames_Ret c names c' : staleMirrorNames O ns liveUID selector c = (Ret names, c') →
  cl_objects c' = cl_objects c ∧
  (well_formed c → ∀ n, n ∈ names ↔ n ≠ liveUID ∧ ∃ o, findObject O c (ns, n) = Some o ∧ selector ⊆ entries (om_Labels (objMeta o))).
Proof.
  unfold staleMirrorNames. intros H. minv. apply List_Ret in Hm as [-> Ho]. split; [done|]. intros Hw n.
  rewrite list_elem_of_filter, list_elem_of_fmap. apply and_iff_compat_l. split.
  - intros (o & -> & Hin). apply elem_of_listObjects in Hin as (Hf & Hns & Hsel); [|done]. exists o. split; [|done].
    simpl in Hns. apply bool_decide_eq_true in Hns. unfold objKey in Hf. by rewrite Hns in Hf.
  - intros (o & Hf & Hsel). pose proof (findObject_key _ _ _ Hf) as Hk. exists o.
    assert (om_Namespace (objMeta o) = ns ∧ om_Name (objMeta o) = n) as [Hns Hn] by (unfold objKey in Hk; by injection Hk).
    split; [done|]. apply elem_of_listObjects; [done|]. rewrite Hk. split_and!; [done| |done]. simpl. by rewrite Hns, bool_decide_eq_true_2.
Qed.

Lemma within_stale K : within (changes K) (staleMirrorNames O ns liveUID selector).
Proof. unfold staleMirrorNames. within_solve. Qed.

Definition inNs (k : ObjectKey) : Prop := k.1 = resKind O ∧ k.2.1 = ns.

Lemma within_reap : within (changes inNs) reap.
Proof.
  unfold reap. apply within_bind; [apply _|apply within_stale|]. intros names. eapply within_weaken, within_dels.
  intros c c'. apply changes_weaken. by intros k (n & _ & ->).
Qed.

(** Objects of other origins, and the live mirror, stay as they are. *)
Lemma reap_keeps c key o : well_formed c → findObject O c key = Some o →
  key.1 ≠ ns ∨ key.2 = liveUID ∨ ¬ selector ⊆ entries (om_Labels (objMeta o)) →
  findObject O (reap c).2 key = Some o.
Proof.
  intros Hw Hf Hk. unfold reap, mbind, M_bind. pose proof (within_stale nothing c) as Hs.
  destruct (staleMirrorNames O ns liveUID selector c) as [[names|e| |] c1] eqn:Hr; simpl in Hs |- *.
  2-4: by rewrite (findObject_frame _ _ _ _ Hs) by (by intros []).
  apply staleMirrorNames_Ret in Hr as [_ Hn]. specialize (Hn Hw). rewrite (findObject_frame _ _ _ _ (within_dels names c1)).
  - by rewrite (findObject_frame _ _ _ _ Hs) by (by intros []).
  - intros (n & Hin & [= ->]). apply Hn in Hin as (Hl & o' & Hf' & Hsel). rewrite Hf in Hf'. simplify_eq/=. naive_solver.
Qed.

(** When it returns, no mirror of the origin is left but the live one. *)
Lemma reap_complete c u c' : well_formed c → truthful c → reap c = (Ret u, c') →
  ∀ n o, findObject O c' (ns, n) = Some o → selector ⊆ entries (om_Labels (objMeta o)) → n ≠ liveUID →
  om_Deleting (objMeta o) = true.
Proof.
  intros Hw Ht H n o Hf Hsel Hn. unfold reap in H. minv.
  pose proof (within_stale nothing c) as Hs. rewrite Hm in Hs. simpl in Hs.
  apply staleMirrorNames_Ret in Hm as [_ Hst]. specialize (Hst Hw).
  destruct (decide (n ∈ a)) as [Hin|Hnin].
  { eapply dels_gone; [by eapply truthful_changes|exact H|exact Hin|exact Hf]. }
  pose proof (within_dels a s) as Hd. rewrite H in Hd. simpl in Hd.
  rewrite (findObject_frame _ _ _ _ Hd), (findObject_frame _ _ _ _ Hs) in Hf.
  - exfalso. apply Hnin, Hst. split; [done|]. by exists o.
  - by intros [].
  - intros (m & Hm & [= ->]). done.
Qed.

Lemma reap_succeeds : succeeds inNs reap.
Proof.
  intros c Hno. pose proof (within_reap c) as Hw.
  assert (∃ c', reap c = (Ret tt, c')) as [c' Hr].
  { unfold reap, staleMirrorNames.
    erewrite bind_eval; [|erewrite bind_eval by (by eapply wrap_eval, List_eval); reflexivity]. cbv beta.
    destruct (succeeds_forM_ (λ _, True) (filter (λ name, name ≠ liveUID) ((λ o, om_Name (objMeta o)) <$> listObjects O c (Some ns) selector)) del)
      with (c := c) as ([] & c' & Hr & _); [|done|by exists c'].
    intros n _ c1 Hno1. destruct (deleter_succeeds (O:=O) (ns:=ns) n c1 Hno1) as (a & c2 & ? & Hc & ?).
    exists a, c2. split_and!; [done| |done]. by eapply changes_weaken. }
  exists tt, c'. rewrite Hr in Hw. split_and!; [done|done|by eapply changes_no_faults].
Qed.
End reaping.

(** ** Routes of sources *)

Lemma within_reconcileSourceForRoute (K K' : ObjectKey -> Prop) u references ns :
  (∀ ref, ref ∈ references → K (storeKey Service (copyKey ref))) →
  (∀ resource, u = Ok resource → K' (storeKey Route (ns, om_UID (u_Meta resource)))) →
  within (acts K K') (reconcileSourceForRoute u references ns).
Proof.
  intros HK HK'. unfold reconcileSourceForRoute. destruct u as [resource|msg]; [|within_step].
  within_step; [within_step; by apply within_inTenant, within_NormalizeAndReplicateServices|].
  within_step. apply within_inLB. unfold CreateRouteForResource. apply within_CreateUpdateRoute. exact (HK' resource eq_refl).
Qed.

(** The Route is deleted before the finalizer is removed. *)
Lemma triple_releaseRoute (O : Type) `{!Resource O} finalizer req uid ns (o : O) p :
  triple (λ s, truthful (ccm_lb s) ∧ finalized O finalizer req (ccm_tenant s))
    (_ ← inLB (wrap p (cleanupRoute uid ns)); inTenant (removeCleanupFinalizer o))
    (λ _ s, gone Route (ns, uid) (ccm_lb s)) (λ s, finalized O finalizer req (ccm_tenant s)).
Proof.
  eapply (triple_bind _ (λ _ s, gone Route (ns, uid) (ccm_lb s) ∧ finalized O finalizer req (ccm_tenant s))).
  - intros s [Ht Hf]. unfold inLB, zoom. simpl.
    destruct (wrap p (cleanupRoute uid ns) (ccm_lb s)) as [[u|e| |] c] eqn:Hr; try done.
    apply wrap_Ret in Hr. split; [by eapply cleanupRoute_gone|done].
  - intros _. eapply triple_weaken; [apply (triple_inTenant (finalized O finalizer req) (gone Route (ns, uid)))|..].
    { unfold removeCleanupFinalizer. eapply triple_bind; [apply triple_wrap, triple_drop|]. intros o'. by apply (triple_ret _ (λ _ _, True)). }
    { by intros s [? ?]. }
    { by intros o' s [_ ?]. }
    { done. }
Qed.
