(* ===== verification/CCMService.v ===== *)
(** * The CCM's Service controller

    [internal/controllers/ccm/service_controller.go]: a Service of type LoadBalancer in the
    tenant's cluster is mirrored by a LoadBalancer in the management cluster, named by the
    UID of the Service; the addresses the manager publishes come back in the Service's
    status. Mirrors of Services that no longer exist, or that were made again under a new
    UID, are deleted. *)

From S2P Require Import Prelude GoStrings Api GatewayApi Names Annotations LoadBalancers.
From S2P Require Import Kube Finalizers Services RouteResources Manager CCM.
Local Open Scope go_scope.

Definition LBFinalizerName : string := "kubelb.k8c.io/lb-finalizer".
Definition LoadBalancerClassName : string := "kubelb".

Definition hasCleanupFinalizer (service : Service) : bool :=
  ContainsFinalizer (svc_Meta service) CleanupFinalizer || ContainsFinalizer (svc_Meta service) LBFinalizerName.

(** The Service as the server answers. [AddFinalizer] adds, since the finalizer is not there. *)
Definition ensureFinalizer (service : Service) : M Cluster Service :=
  if ContainsFinalizer (svc_Meta service) CleanupFinalizer then mret service
  else
    wrap "failed to add finalizer"
      (Update {| service with svc_Meta :=
         RemoveFinalizer (AddFinalizer (svc_Meta service) CleanupFinalizer) LBFinalizerName |}).

Section controller.
Context (ClusterName : string) (CloudController UseLoadbalancerClass : bool).

Definition shouldReconcile (svc : Service) : bool :=
  if bool_decide (svc_Type svc ≠ ServiceTypeLoadBalancer) then false
  else if UseLoadbalancerClass then bool_decide (svc_LoadBalancerClass svc = Some LoadBalancerClassName)
  else true.

Definition ingressEndpoint (lbIngress : LoadBalancerIngress) : EndpointAddress :=
  if bool_decide (lbi_IP lbIngress ≠ "")
  then {| ea_IP := lbi_IP lbIngress; ea_Hostname := "" |}
  else {| ea_IP := ""; ea_Hostname := lbi_Hostname lbIngress |}.

Definition getEndpoints (service : Service) : list EndpointAddress * bool :=
  if bool_decide (svc_Type service = ServiceTypeLoadBalancer) && negb CloudController
  then (ingressEndpoint <$> svc_Ingress service, false)
  else ([], true).

Definition originSelector (name namespace : string) : StrMap :=
  <[LabelOriginName := name]> (<[LabelOriginNamespace := namespace]> ∅).

Definition reapStaleLoadBalancers (name namespace liveUID : string) : M Cluster unit :=
  stale ← staleMirrorNames LoadBalancer ClusterName liveUID (originSelector name namespace);
  forM_ stale (λ lbName, wrap "deleting orphaned LoadBalancer" (DeleteIgnoreNotFound LoadBalancer (ClusterName, lbName))).

(** An error other than [NotFound] says nothing about the Service. *)
Definition handleMissingService (req : NamespacedName) (err : Error) : M CCM unit :=
  if IsNotFound err then inLB (reapStaleLoadBalancers req.2 req.1 "") else raise err.

Definition cleanupService (service : Service) : M CCM unit :=
  let m := svc_Meta service in
  _ ← inLB (wrap "deleting LoadBalancer" (DeleteIgnoreNotFound LoadBalancer (ClusterName, om_UID m)));
  _ ← inTenant (wrap "failed to remove finalizer"
        (Update {| service with svc_Meta := RemoveFinalizer (RemoveFinalizer m LBFinalizerName) CleanupFinalizer |}));
  mret tt.

(** The gauge is set to the number of these Services. *)
Definition updateManagedServicesGauge (namespace : string) : M Cluster unit :=
  _ ← try (List Service (Some namespace) ∅);
  mret tt.

(** The mirror that is there, [None] when it was created just now *)
Definition fetchOrCreate (desiredLB : LoadBalancer) : M Cluster (option LoadBalancer) :=
  found ← GetIfExists LoadBalancer (objKey desiredLB);
  match found with
  | Some actualLB => mret (Some actualLB)
  | None =>
      r ← try (Create desiredLB);
      match r with
      | inl _ => mret None
      | inr err =>
          if IsAlreadyExists err
          then Some <$> wrap "failed to get LoadBalancer after conflict" (Get LoadBalancer (objKey desiredLB))
          else raise err
      end
  end.

(** The functions that are retried on conflicts *)
Definition updateServiceStatus (key : NamespacedName) (actualLB : LoadBalancer) : M Cluster unit :=
  service ← Get Service key;
  _ ← StatusUpdate {| service with svc_Ingress := lst_LoadBalancer (lb_Status actualLB) |};
  mret tt.

Definition updateMirror (desiredLB : LoadBalancer) : M Cluster unit :=
  actualLB ← Get LoadBalancer (objKey desiredLB);
  _ ← Update {| actualLB with lb_Spec := lb_Spec desiredLB;
                  lb_Meta := {| (lb_Meta actualLB) with om_Annotations := om_Annotations (lb_Meta desiredLB) |} |};
  mret tt.

Definition reconcileMirror (service : Service) (desiredLB actualLB : LoadBalancer) : M CCM unit :=
  _ ← when (bool_decide (svc_Type service = ServiceTypeLoadBalancer) &&
            negb (bool_decide (lst_LoadBalancer (lb_Status actualLB) = svc_Ingress service)))
        (wrap ("failed to update status " ⊕ om_Name (svc_Meta service))
           (inTenant (RetryOnConflict (updateServiceStatus (objKey service) actualLB))));
  _ ← (if LoadBalancerIsDesiredState actualLB desiredLB then mret tt
       else inLB (RetryOnConflict (updateMirror desiredLB)));
  inTenant (updateManagedServicesGauge (om_Namespace (svc_Meta service))).

(** From the endpoints on, after reaping *)
Definition applyMirror (service : Service) : M CCM unit :=
  let '(clusterEndpoints, useAddressesReference) := getEndpoints service in
  let '(desiredLB, service) := MapLoadBalancer service clusterEndpoints useAddressesReference ClusterName in
  actual ← inLB (fetchOrCreate desiredLB);
  match actual with
  | None => inTenant (updateManagedServicesGauge (om_Namespace (svc_Meta service)))
  | Some actualLB => reconcileMirror service desiredLB actualLB
  end.

Definition reconcileActive (service : Service) : M CCM unit :=
  service ← inTenant (ensureFinalizer service);
  let m := svc_Meta service in
  _ ← inLB (reapStaleLoadBalancers (om_Name m) (om_Namespace m) (om_UID m));
  applyMirror service.

Definition Reconcile (req : NamespacedName) : M CCM unit :=
  r ← inTenant (try (Get Service req));
  match r with
  | inr err => handleMissingService req err
  | inl service =>
      if om_Deleting (svc_Meta service) then when (hasCleanupFinalizer service) (cleanupService service)
      else if negb (shouldReconcile service) then when (hasCleanupFinalizer service) (cleanupService service)
      else reconcileActive service
  end.

(** *** Which Service an event of a LoadBalancer concerns *)
Definition enqueueLoadBalancer (lb : LoadBalancer) : list NamespacedName :=
  let labels := entries (om_Labels (lb_Meta lb)) in
  if bool_decide (om_Namespace (lb_Meta lb) ≠ ClusterName) then []
  else if bool_decide (lbs_Type (lb_Spec lb) ≠ ServiceTypeLoadBalancer) then []
  else
    match labels !! LabelOriginNamespace with
    | None => []
    | Some originalNamespace =>
        if bool_decide (originalNamespace = "") then []
        else
          match labels !! LabelOriginName with
          | None => []
          | Some originalName =>
              if bool_decide (originalName = "") then [] else [(originalNamespace, originalName)]
          end
    end.
End controller.

(** ** What a reconcile changes *)

Lemma ensureFinalizer_key (service : Service) : yields (λ service', objKey service' = objKey service) (ensureFinalizer service).
Proof.
  unfold ensureFinalizer. destruct (ContainsFinalizer _ _); [by apply yields_ret|].
  apply yields_wrap. intros s o s' Hu. by apply yields_Update in Hu.
Qed.

Lemma objKey_mapped service eps ref ns : objKey (MapLoadBalancer service eps ref ns).1 = (ns, om_UID (svc_Meta service)).
Proof. done. Qed.

Section within_reconcile.
Context (ClusterName : string) (CloudController UseLoadbalancerClass : bool) (req : NamespacedName).
#[local] Abbreviation ofService := (eq (storeKey Service req)).
#[local] Abbreviation mirrors := (inNs (O:=LoadBalancer) ClusterName).

Lemma reapStale_reap name ns uid : reapStaleLoadBalancers ClusterName name ns uid =
  reap (O:=LoadBalancer) ClusterName uid (originSelector name ns)
    (λ n, wrap "deleting orphaned LoadBalancer" (DeleteIgnoreNotFound LoadBalancer (ClusterName, n))).
Proof. reflexivity. Qed.

Lemma within_reapStale name ns uid : within (changes mirrors) (reapStaleLoadBalancers ClusterName name ns uid).
Proof. rewrite reapStale_reap. apply within_reap, _. Qed.

(** The mirror of one UID is all that is written beside reaping. *)
Section one_mirror.
Context (K : ObjectKey -> Prop) (uid : string) (HK : K (storeKey LoadBalancer (ClusterName, uid))).
Implicit Types (service : Service) (desired : LoadBalancer).

Lemma within_cleanupService service : objKey service = req → om_UID (svc_Meta service) = uid →
  within (acts ofService K) (cleanupService ClusterName service).
Proof. intros <- <-. unfold cleanupService. acts_solve. Qed.

Lemma within_fetchOrCreate desired : objKey desired = (ClusterName, uid) → within (changes K) (fetchOrCreate desired).
Proof. intros Hk. unfold fetchOrCreate. within_solve. Qed.

Lemma within_updateMirror desired : objKey desired = (ClusterName, uid) → within (changes K) (updateMirror desired).
Proof.
  intros Hd. unfold updateMirror. eapply within_bind_yields; [apply _|apply yields_Get|within_solve|].
  intros lb Hk. within_step; [|within_step]. apply within_Update. rewrite Hd in Hk. by change (K (storeKey LoadBalancer (objKey lb))); rewrite Hk.
Qed.

Lemma within_reconcileMirror service desired actual : objKey service = req → objKey desired = (ClusterName, uid) →
  within (acts ofService K) (reconcileMirror service desired actual).
Proof.
  intros <- Hd. unfold reconcileMirror, updateServiceStatus, updateManagedServicesGauge. acts_solve.
  by apply within_updateMirror.
Qed.

Lemma within_applyMirror service : objKey service = req → om_UID (svc_Meta service) = uid →
  within (acts ofService K) (applyMirror ClusterName CloudController service).
Proof.
  intros Hk Hu. unfold applyMirror. destruct (getEndpoints CloudController service) as [eps ref].
  rewrite (surjective_pairing (MapLoadBalancer _ _ _ _)). assert (objKey (MapLoadBalancer service eps ref ClusterName).1 = (ClusterName, uid)) as Hd.
  { by rewrite objKey_mapped, Hu. }
  within_step; [by apply within_inLB, within_fetchOrCreate|]. destruct a as [actual|].
  - by apply within_reconcileMirror.
  - unfold updateManagedServicesGauge. acts_solve.
Qed.
End one_mirror.

Lemma within_svc_active service : objKey service = req →
  within (acts ofService mirrors) (reconcileActive ClusterName CloudController service).
Proof.
  intros Hk. unfold reconcileActive.
  eapply within_bind_yields; [apply _|apply yields_zoom, ensureFinalizer_key| |].
  { subst req. apply within_inTenant. unfold ensureFinalizer. within_solve. }
  intros service' Hk'. assert (objKey service' = req) as Hks by congruence.
  within_step; [apply within_inLB, within_reapStale|]. by eapply within_applyMirror.
Qed.

Lemma within_svc_reconcile : within (acts ofService mirrors) (Reconcile ClusterName CloudController UseLoadbalancerClass req).
Proof.
  unfold Reconcile. eapply within_bind_yields; [apply _|apply yields_zoom, yields_try, yields_Get|acts_solve|].
  intros [service|err] Hk.
  - destruct (om_Deleting _), (shouldReconcile UseLoadbalancerClass service); simpl; try (apply within_when; [apply _|]); try (by eapply within_cleanupService); by apply within_svc_active.
  - unfold handleMissingService. destruct (IsNotFound err); [|within_step]. apply within_inLB, within_reapStale.
Qed.
End within_reconcile.

(** ** The finalizer keeps a Service until its mirror is gone *)

#[local] Abbreviation finalized := (finalized Service CleanupFinalizer).
#[local] Abbreviation holds := (holds Service CleanupFinalizer).

Section finalizer.
Context (ClusterName : string) (CloudController UseLoadbalancerClass : bool) (req : NamespacedName).

Definition tfinalized (s : CCM) : Prop := finalized req (ccm_tenant s).

Lemma triple_updateServiceStatus key actual : key = req →
  triple (finalized req) (updateServiceStatus key actual) (λ _, finalized req) (finalized req).
Proof.
  intros ->. unfold updateServiceStatus.
  eapply triple_bind; [eapply triple_yields, yields_Get; by eapply (triple_finalized_frame _ _ _ nothing); [intros []|apply within_Get]|].
  intros svc. apply (triple_weaken (λ c, finalized req c ∧ objKey svc = req) _ (λ _, finalized req) _ (finalized req) _);
    [|by intros c [? ?]|done|done].
  apply triple_pure. intros Hk. eapply triple_bind; [by apply triple_finalized_StatusUpdate|].
  intros svc'. apply triple_ret. by intros c [_ ?].
Qed.

Lemma triple_reconcileMirror service desired actual : objKey service = req →
  triple tfinalized (reconcileMirror service desired actual) (λ _, tfinalized) tfinalized.
Proof.
  intros Hk. unfold reconcileMirror. eapply (triple_bind _ (λ _, tfinalized)).
  { apply triple_when, triple_wrap, (triple_tenant (finalized req) _ (λ _, finalized req)), triple_retry.
    by apply triple_updateServiceStatus. }
  intros _. eapply (triple_bind _ (λ _, tfinalized)).
  { destruct (LoadBalancerIsDesiredState _ _); [by apply triple_ret|]. apply (triple_lb_frame (finalized req)). }
  intros _. apply (triple_tenant (finalized req) _ (λ _, finalized req)).
  apply (triple_finalized_frame _ _ _ nothing); [by intros []|]. unfold updateManagedServicesGauge. within_solve.
Qed.

Lemma triple_svc_active service : objKey service = req → CleanupFinalizer ∈ om_Finalizers (svc_Meta service) →
  triple tfinalized (reconcileActive ClusterName CloudController service) (λ _, tfinalized) tfinalized.
Proof.
  intros Hk Hin. unfold reconcileActive, ensureFinalizer, applyMirror.
  rewrite (bool_decide_eq_true_2 _ Hin : ContainsFinalizer (svc_Meta service) _ = true).
  eapply (triple_bind _ (λ service' s, service' = service ∧ tfinalized s)); [by intros s Hs|]. intros service'.
  apply (triple_weaken (λ s, tfinalized s ∧ service' = service) _ (λ _, tfinalized) _ tfinalized _); [|by intros s []|done|done].
  apply triple_pure. intros ->. eapply (triple_bind _ (λ _, tfinalized)); [apply (triple_lb_frame (finalized req))|].
  intros _. destruct (getEndpoints CloudController service) as [eps ref].
  rewrite (surjective_pairing (MapLoadBalancer _ _ _ _)).
  eapply (triple_bind _ (λ _, tfinalized)); [apply (triple_lb_frame (finalized req))|]. intros [actual|].
  - by apply triple_reconcileMirror.
  - apply (triple_tenant (finalized req) _ (λ _, finalized req)), (triple_finalized_frame _ _ _ nothing); [by intros []|].
    unfold updateManagedServicesGauge. within_solve.
Qed.

(** The mirror is deleted before the finalizer is removed. *)
Lemma triple_cleanupService service :
  triple (λ s, truthful (ccm_lb s) ∧ tfinalized s) (cleanupService ClusterName service)
    (λ _ s, gone LoadBalancer (ClusterName, om_UID (svc_Meta service)) (ccm_lb s)) tfinalized.
Proof.
  unfold cleanupService. eapply (triple_bind _ (λ _ s, gone LoadBalancer (ClusterName, om_UID (svc_Meta service)) (ccm_lb s) ∧ tfinalized s)).
  - intros s [Ht Hf]. unfold inLB, zoom. simpl.
    destruct (wrap _ (DeleteIgnoreNotFound LoadBalancer (ClusterName, om_UID (svc_Meta service))) (ccm_lb s)) as [[u|e| |] c] eqn:Hr; try done.
    apply wrap_Ret in Hr. split; [by eapply DeleteIgnoreNotFound_gone|done].
  - intros _. eapply (triple_bind _ (λ _ s, gone LoadBalancer (ClusterName, om_UID (svc_Meta service)) (ccm_lb s)));
      [|intros; by apply triple_ret].
    eapply triple_weaken; [apply (triple_inTenant (finalized req) (gone LoadBalancer (ClusterName, om_UID (svc_Meta service))))|..].
    { apply triple_wrap, triple_drop. }
    { by intros s [? ?]. }
    { by intros o s [_ ?]. }
    { done. }
Qed.

Lemma svc_keeps_finalizer (s : CCM) (service : Service) :
  truthful (ccm_lb s) → findObject Service (ccm_tenant s) req = Some service →
  CleanupFinalizer ∈ om_Finalizers (svc_Meta service) →
  let s' := (Reconcile ClusterName CloudController UseLoadbalancerClass req s).2 in
  tfinalized s' ∨ gone LoadBalancer (ClusterName, om_UID (svc_Meta service)) (ccm_lb s').
Proof.
  intros Ht Hf Hin. pose proof (findObject_key _ _ _ Hf) as Hk. unfold Reconcile, mbind, M_bind, inTenant, zoom, try. simpl.
  assert (tfinalized s) as Hfin by (by exists service).
  destruct (Get Service req (ccm_tenant s)) as [[o|e| |] c] eqn:Hg; simpl.
  - apply Get_Ret in Hg as [Hg Ho]. rewrite Hf in Hg. injection Hg as <-.
    set (s1 := {| s with ccm_tenant := c |}). assert (tfinalized s1) as Hf1 by (by eapply finalized_objects).
    assert (∀ b, let s' := (when b (cleanupService ClusterName service) s1).2 in
      tfinalized s' ∨ gone LoadBalancer (ClusterName, om_UID (svc_Meta service)) (ccm_lb s')) as Hclean.
    { intros []; [|by left]. pose proof (triple_cleanupService service s1 (conj Ht Hf1)) as Hc. simpl.
      destruct (cleanupService ClusterName service s1) as [[]]; simpl in *; auto. }
    destruct (om_Deleting (svc_Meta service)); [apply Hclean|]. destruct (shouldReconcile _ _); [|apply Hclean].
    pose proof (triple_svc_active service Hk Hin s1 Hf1) as Ha. left. simpl.
    by destruct (reconcileActive ClusterName CloudController service s1) as [[]].
  - set (s1 := {| s with ccm_tenant := c |}). left.
    assert (tfinalized s1) as Hf1. { eapply finalized_objects, Hfin. by apply existing_spec in Hg as (_ & Ho & _). }
    unfold handleMissingService. destruct (IsNotFound e); [|done].
    pose proof (triple_lb_frame (finalized req) (reapStaleLoadBalancers ClusterName req.2 req.1 "") s1 Hf1) as Hr.
    by destruct (inLB _ s1) as [[]].
  - left. eapply finalized_objects, Hfin. by apply existing_spec in Hg as (_ & Ho & _).
  - left. eapply finalized_objects, Hfin. by apply existing_spec in Hg as (_ & Ho & _).
Qed.
End finalizer.

(** ** LoadBalancers of other origins *)

Section isolation.
Context (ClusterName : string) (CloudController UseLoadbalancerClass : bool) (req : NamespacedName).
Implicit Types (key : NamespacedName) (o : LoadBalancer) (service : Service).

(** Not a mirror of the Service: other labels or another namespace, and not named by its UID *)
Definition foreign (s : CCM) key o : Prop :=
  (key.1 ≠ ClusterName ∨ ¬ originSelector req.2 req.1 ⊆ entries (om_Labels (lb_Meta o))) ∧
  ∀ service, findObject Service (ccm_tenant s) req = Some service → key ≠ (ClusterName, om_UID (svc_Meta service)).

Lemma one_mirror_keeps K uid s s' key o : acts K (eq (storeKey LoadBalancer (ClusterName, uid))) s s' → key ≠ (ClusterName, uid) →
  findObject LoadBalancer (ccm_lb s) key = Some o → findObject LoadBalancer (ccm_lb s') key = Some o.
Proof. intros [_ Hc] Hn Hf. rewrite (findObject_frame _ _ _ _ Hc); [done|]. by intros [= ?]. Qed.

Lemma ensureFinalizer_uid service c service' c' : findObject Service c (objKey service) = Some service →
  ensureFinalizer service c = (Ret service', c') → om_UID (svc_Meta service') = om_UID (svc_Meta service).
Proof.
  intros Hf H. unfold ensureFinalizer in H. destruct (ContainsFinalizer _ _); minv; [done|].
  apply Update_Ret in H as (old & Hold & -> & _). assert (Some old = Some service) as [= ->]; [|done]. rewrite <- Hold, <- Hf. done.
Qed.

Lemma reapStale_keeps s key o uid : well_formed (ccm_lb s) →
  key.1 ≠ ClusterName ∨ ¬ originSelector req.2 req.1 ⊆ entries (om_Labels (lb_Meta o)) → findObject LoadBalancer (ccm_lb s) key = Some o →
  findObject LoadBalancer (ccm_lb (inLB (reapStaleLoadBalancers ClusterName req.2 req.1 uid) s).2) key = Some o.
Proof.
  intros Hw Hl Hf. unfold inLB, zoom. rewrite (surjective_pairing (reapStaleLoadBalancers _ _ _ _ _)). simpl.
  rewrite reapStale_reap. apply reap_keeps; [apply _|done|done|]. destruct Hl; auto.
Qed.

Lemma svc_active_keeps s key o service : well_formed (ccm_lb s) → findObject Service (ccm_tenant s) req = Some service →
  foreign s key o → findObject LoadBalancer (ccm_lb s) key = Some o →
  findObject LoadBalancer (ccm_lb (reconcileActive ClusterName CloudController service s).2) key = Some o.
Proof.
  intros Hw Hs Hfor Hf. pose proof (findObject_key _ _ _ Hs) as Hk. unfold reconcileActive, mbind, M_bind.
  destruct (inTenant (ensureFinalizer service) s) as [[service'|e| |] s1] eqn:He; unfold inTenant, zoom in He; simpl in He;
    destruct (ensureFinalizer service (ccm_tenant s)) as [r c1] eqn:He'; simplify_eq/=; [|done..].
  assert (om_UID (svc_Meta service') = om_UID (svc_Meta service)) as Hu by (eapply ensureFinalizer_uid, He'; by rewrite Hk).
  assert (objKey service' = req) as Hk' by (apply (ensureFinalizer_key service) in He'; congruence).
  assert (om_Name (svc_Meta service') = req.2 ∧ om_Namespace (svc_Meta service') = req.1) as [-> ->] by (by rewrite <- Hk').
  set (s1 := {| s with ccm_tenant := c1 |}).
  assert (findObject LoadBalancer (ccm_lb (inLB (reapStaleLoadBalancers ClusterName req.2 req.1 (om_UID (svc_Meta service'))) s1).2) key = Some o) as Hr.
  { apply reapStale_keeps; [done|apply Hfor|done]. }
  destruct (inLB _ s1) as [[u|e| |] s2]; simpl in Hr |- *; try done.
  refine (one_mirror_keeps _ _ _ _ _ _ (within_applyMirror ClusterName CloudController req _ _ eq_refl service' Hk' Hu s2) _ Hr).
  by apply Hfor.
Qed.

Lemma svc_keeps_foreign s key o : well_formed (ccm_lb s) → findObject LoadBalancer (ccm_lb s) key = Some o → foreign s key o →
  findObject LoadBalancer (ccm_lb (Reconcile ClusterName CloudController UseLoadbalancerClass req s).2) key = Some o.
Proof.
  intros Hw Hf Hfor. unfold Reconcile, mbind, M_bind, inTenant, zoom, try. simpl.
  destruct (Get Service req (ccm_tenant s)) as [r c] eqn:Hg. pose proof Hg as (_ & Ho & _)%existing_spec.
  set (s1 := {| s with ccm_tenant := c |}).
  assert (foreign s1 key o) as Hfor1.
  { destruct Hfor as [? Hu]. split; [done|]. intros service. simpl. rewrite (findObject_objects (ccm_tenant s)) by done. apply Hu. }
  destruct r as [service|e| |]; simpl; [|unfold handleMissingService; destruct (IsNotFound e); [|done]; apply reapStale_keeps; [done|apply Hfor|done]|done|done].
  apply Get_Ret in Hg as [Hg _]. pose proof (findObject_key _ _ _ Hg) as Hk.
  assert (findObject Service (ccm_tenant s1) req = Some service) as Hg1 by (by rewrite (findObject_objects (ccm_tenant s))).
  assert (∀ b, findObject LoadBalancer (ccm_lb (when b (cleanupService ClusterName service) s1).2) key = Some o) as Hclean.
  { intros []; [|done].
    refine (one_mirror_keeps _ _ _ _ _ _ (within_cleanupService ClusterName req _ _ eq_refl service Hk eq_refl s1) _ Hf).
    by apply Hfor1. }
  destruct (om_Deleting _); [apply Hclean|]. destruct (shouldReconcile _ _); [|apply Hclean]. by apply svc_active_keeps.
Qed.
End isolation.

(** ** Convergence *)

(** The mirror has what the desired load balancer says, up to what the comparison of the
    code looks at; an empty annotation map and none are the same. *)
Record mirrorOf (desired actual : LoadBalancer) : Prop := {
  mirror_type : lbs_Type (lb_Spec actual) = lbs_Type (lb_Spec desired);
  mirror_policy : lbs_ExternalTrafficPolicy (lb_Spec actual) = lbs_ExternalTrafficPolicy (lb_Spec desired);
  mirror_persistence : lbs_Persistence (lb_Spec actual) = lbs_Persistence (lb_Spec desired);
  mirror_ports : port_view <$> lbs_Ports (lb_Spec actual) = port_view <$> lbs_Ports (lb_Spec desired);
  mirror_endpoints : endpoints_view <$> lbs_Endpoints (lb_Spec actual) = endpoints_view <$> lbs_Endpoints (lb_Spec desired);
  mirror_annotations : delete LastAppliedConfigAnnotation (entries (om_Annotations (lb_Meta actual))) =
                       delete LastAppliedConfigAnnotation (entries (om_Annotations (lb_Meta desired)));
}.

Lemma desired_mirrorOf actual desired : LoadBalancerIsDesiredState actual desired = true → mirrorOf desired actual.
Proof.
  intros (? & ? & ? & ? & ? & Ha)%load_balancer_desired_state_spec. apply CompareAnnotations_spec in Ha as [_ ?]. by split.
Qed.

Lemma mirrorOf_same actual desired : lb_Spec actual = lb_Spec desired →
  entries (om_Annotations (lb_Meta actual)) = entries (om_Annotations (lb_Meta desired)) → mirrorOf desired actual.
Proof. intros Hs Ha. split; by rewrite ?Hs, ?Ha. Qed.

(** The finalizer is all that is changed of the Service. *)
Definition finalizedService (service : Service) (fs : list string) : Service :=
  {| service with svc_Meta := withFinalizers fs (svc_Meta service) |}.

Lemma svc_ensureFinalizer_ok (service : Service) c : cl_faults c = [] → well_formed c →
  findObject Service c (objKey service) = Some service → om_Deleting (svc_Meta service) = false →
  ∃ fs c', ensureFinalizer service c = (Ret (finalizedService service fs), c') ∧
    changes (eq (storeKey Service (objKey service))) c c' ∧ cl_faults c' = [] ∧ CleanupFinalizer ∈ fs ∧
    findObject Service c' (objKey service) = Some (finalizedService service fs).
Proof.
  intros Hno Hw Hf Hd. unfold ensureFinalizer. destruct (ContainsFinalizer (svc_Meta service) CleanupFinalizer) eqn:Hc.
  { exists (om_Finalizers (svc_Meta service)), c. apply bool_decide_eq_true in Hc. by destruct service as [[]]. }
  set (fs := om_Finalizers (RemoveFinalizer (AddFinalizer (svc_Meta service) CleanupFinalizer) LBFinalizerName)).
  destruct (Update_finalizers service fs c Hno Hw Hf Hd) as (c' & Hu & Hch & Hno' & Hf').
  exists fs, c'. split_and!; [by apply wrap_eval|done|done| |done].
  subst fs. simpl. apply list_elem_of_filter. split; [done|]. rewrite Hc. apply elem_of_app. right. by left.
Qed.

Lemma gauge_ok ns c : cl_faults c = [] → updateManagedServicesGauge ns c = (Ret tt, c).
Proof. intros Hno. unfold updateManagedServicesGauge. by erewrite bind_eval by (by eapply try_eval, List_eval). Qed.

Lemma updateMirror_ok desired lb c : cl_faults c = [] → well_formed c → findObject LoadBalancer c (objKey desired) = Some lb →
  ∃ lb' c', updateMirror desired c = (Ret tt, c') ∧ changes (eq (storeKey LoadBalancer (objKey desired))) c c' ∧ cl_faults c' = [] ∧
    findObject LoadBalancer c' (objKey desired) = Some lb' ∧ mirrorOf desired lb' ∧ lb_Status lb' = lb_Status lb.
Proof.
  intros Hno Hw Hf. unfold updateMirror. erewrite bind_eval by (rewrite Get_eval, Hf by done; reflexivity).
  set (o := {| lb with lb_Spec := _; lb_Meta := _ |}). pose proof (findObject_key _ _ _ Hf) as Hk.
  assert (objKey o = objKey desired) as Hko by (rewrite <- Hk; done).
  destruct (Update_stored c Hno o lb) as (c' & Hu & Hch & Hno' & Hf').
  - by rewrite Hko.
  - by right.
  - by pose proof (findObject_meta _ _ _ Hw Hf) as [Hd _].
  - exists (updated lb o), c'. rewrite Hko in *. split_and!; try done; [by rewrite (bind_eval _ _ _ _ _ Hu)|].
    apply mirrorOf_same; [done|]. simpl. by rewrite entries_wireMap.
Qed.

Lemma updateServiceStatus_ok key actual service c : cl_faults c = [] → findObject Service c key = Some service →
  ∃ c', updateServiceStatus key actual c = (Ret tt, c') ∧ cl_faults c' = [] ∧
    findObject Service c' key = Some {| service with svc_Ingress := lst_LoadBalancer (lb_Status actual) |}.
Proof.
  intros Hno Hf. pose proof (findObject_key _ _ _ Hf) as <-.
  unfold updateServiceStatus. erewrite bind_eval by (rewrite Get_eval, Hf by done; reflexivity).
  destruct (StatusUpdate_stored c Hno {| service with svc_Ingress := lst_LoadBalancer (lb_Status actual) |} service Hf)
    as (c' & Hu & _ & Hno' & Hf').
  exists c'. split_and!; [|done|exact Hf']. by rewrite (bind_eval _ _ _ _ _ Hu).
Qed.

(** The Service and its mirror after a pass that goes through; the addresses come back from
    a mirror that was there before. *)
Definition mirrored (ClusterName : string) (service : Service) (desired : LoadBalancer) (existed : Prop) (s : CCM) : Prop :=
  ∃ service' lb,
    findObject Service (ccm_tenant s) (objKey service) = Some service' ∧
    findObject LoadBalancer (ccm_lb s) (ClusterName, om_UID (svc_Meta service)) = Some lb ∧
    om_Finalizers (svc_Meta service') = om_Finalizers (svc_Meta service) ∧
    mirrorOf desired lb ∧
    (existed → svc_Ingress service' = lst_LoadBalancer (lb_Status lb)).

Section converge.
Context (ClusterName : string) (CloudController UseLoadbalancerClass : bool).
Implicit Types (service : Service) (desired : LoadBalancer).

Lemma reconcileMirror_ok service desired lb s :
  cl_faults (ccm_tenant s) = [] → cl_faults (ccm_lb s) = [] → well_formed (ccm_lb s) →
  svc_Type service = ServiceTypeLoadBalancer →
  (∃ service0, findObject Service (ccm_tenant s) (objKey service) = Some service0 ∧
     om_Finalizers (svc_Meta service0) = om_Finalizers (svc_Meta service) ∧ svc_Ingress service0 = svc_Ingress service) →
  objKey desired = (ClusterName, om_UID (svc_Meta service)) → findObject LoadBalancer (ccm_lb s) (objKey desired) = Some lb →
  ∃ s', reconcileMirror service desired lb s = (Ret tt, s') ∧ mirrored ClusterName service desired True s'.
Proof.
  intros Ht Hl Hw Hty (service0 & Hs0 & Hfin & Hing) Hd Hf. unfold reconcileMirror. rewrite bool_decide_eq_true_2 by done.
  assert (∃ service1 c, when (true && negb (bool_decide (lst_LoadBalancer (lb_Status lb) = svc_Ingress service)))
            (wrap ("failed to update status " ⊕ om_Name (svc_Meta service)) (inTenant (RetryOnConflict (updateServiceStatus (objKey service) lb)))) s
            = (Ret tt, {| s with ccm_tenant := c |}) ∧ cl_faults c = [] ∧ findObject Service c (objKey service) = Some service1 ∧
            om_Finalizers (svc_Meta service1) = om_Finalizers (svc_Meta service) ∧ svc_Ingress service1 = lst_LoadBalancer (lb_Status lb))
    as (service1 & c1 & H1 & Hno1 & Hf1 & Hfin1 & Hing1).
  { case_bool_decide as He; simpl; [exists service0, (ccm_tenant s); split_and!; [by destruct s|done..|congruence]|].
    destruct (updateServiceStatus_ok (objKey service) lb service0 (ccm_tenant s) Ht Hs0) as (c & Hu & Hno' & Hf').
    eexists _, c. split_and!; [|done|exact Hf'|done|done]. by apply wrap_eval, inTenant_eval, retry_eval. }
  rewrite (bind_eval _ _ _ _ _ H1). cbv beta.
  assert (∃ lb' c, (if LoadBalancerIsDesiredState lb desired then mret tt else inLB (RetryOnConflict (updateMirror desired)))
            {| s with ccm_tenant := c1 |} = (Ret tt, {| ccm_tenant := c1; ccm_lb := c |}) ∧
            findObject LoadBalancer c (objKey desired) = Some lb' ∧ mirrorOf desired lb' ∧ lb_Status lb' = lb_Status lb)
    as (lb' & c2 & H2 & Hf2 & Hm2 & Hs2).
  { destruct (LoadBalancerIsDesiredState lb desired) eqn:Hde; [exists lb, (ccm_lb s); by split_and!; [..|apply desired_mirrorOf|]|].
    destruct (updateMirror_ok desired lb (ccm_lb s) Hl Hw Hf) as (lb' & c & Hu & _ & _ & Hf' & Hm & Hs).
    exists lb', c. split_and!; try done. by apply (inLB_eval _ {| s with ccm_tenant := c1 |}), retry_eval. }
  rewrite (bind_eval _ _ _ _ _ H2). cbv beta. eexists. split; [by apply inTenant_eval, gauge_ok|].
  exists service1, lb'. rewrite Hd in Hf2. split_and!; [done|done|done|done|]. intros _. by rewrite Hs2.
Qed.

(** The load balancer a Service asks for *)
Definition desiredMirror (service : Service) : LoadBalancer :=
  let '(clusterEndpoints, useAddressesReference) := getEndpoints CloudController service in
  (MapLoadBalancer service clusterEndpoints useAddressesReference ClusterName).1.

Lemma applyMirror_ok service s :
  cl_faults (ccm_tenant s) = [] → cl_faults (ccm_lb s) = [] → well_formed (ccm_lb s) →
  svc_Type service = ServiceTypeLoadBalancer → findObject Service (ccm_tenant s) (objKey service) = Some service →
  ∃ s', applyMirror ClusterName CloudController service s = (Ret tt, s') ∧
    mirrored ClusterName service (desiredMirror service)
      (is_Some (findObject LoadBalancer (ccm_lb s) (ClusterName, om_UID (svc_Meta service)))) s'.
Proof.
  intros Ht Hl Hw Hty Hs. unfold applyMirror, desiredMirror. destruct (getEndpoints CloudController service) as [eps ref].
  set (desired := (MapLoadBalancer service eps ref ClusterName).1). set (service' := (MapLoadBalancer service eps ref ClusterName).2).
  rewrite (surjective_pairing (MapLoadBalancer _ _ _ _)). fold desired service'.
  change (ClusterName, om_UID (svc_Meta service)) with (objKey desired).
  destruct (findObject LoadBalancer (ccm_lb s) (objKey desired)) as [lb|] eqn:Hf.
  - erewrite bind_eval; [|apply inLB_read; unfold fetchOrCreate; erewrite bind_eval by (rewrite GetIfExists_eval, Hf by done; reflexivity);
      reflexivity]. cbv beta iota.
    destruct (reconcileMirror_ok service' desired lb s) as (s' & Hr & Hm); try done; [by exists service|].
    exists s'. split; [done|]. destruct Hm as (service1 & lb1 & ? & ? & ? & ? & Hi). exists service1, lb1. split_and!; auto.
  - destruct (Create_stored (ccm_lb s) Hl desired Hf) as (c & Hc & _ & _ & Hf').
    erewrite bind_eval; [|apply (inLB_eval _ _ _ c); unfold fetchOrCreate; erewrite bind_eval by (rewrite GetIfExists_eval, Hf by done; reflexivity);
      cbv beta iota; erewrite bind_eval by (by eapply try_eval); reflexivity]. cbv beta iota.
    eexists. split; [by apply inTenant_eval, gauge_ok|]. exists service, (created (ccm_lb s) desired).
    split_and!; [done|done|done|apply mirrorOf_same; [done|simpl; by rewrite entries_wireMap]|by intros []].
Qed.
End converge.

(** A mirror of the Service other than the one named [uid] waits for its finalizers. *)
Definition noOrphans (ClusterName : string) (req : NamespacedName) (uid : string) (c : Cluster) : Prop := ∀ n o,
  findObject LoadBalancer c (ClusterName, n) = Some o → originSelector req.2 req.1 ⊆ entries (om_Labels (lb_Meta o)) →
  n ≠ uid → om_Deleting (lb_Meta o) = true.

Lemma reapStale_noOrphans ClusterName req uid c u c' : well_formed c → truthful c →
  reapStaleLoadBalancers ClusterName req.2 req.1 uid c = (Ret u, c') → noOrphans ClusterName req uid c'.
Proof. intros Hw Ht H. exact (reap_complete (O:=LoadBalancer) ClusterName uid _ _ c u c' Hw Ht H). Qed.

Lemma reapStale_succeeds ClusterName name ns uid c : cl_faults c = [] →
  ∃ c', reapStaleLoadBalancers ClusterName name ns uid c = (Ret tt, c') ∧
    changes (inNs (O:=LoadBalancer) ClusterName) c c' ∧ cl_faults c' = [].
Proof.
  intros Hno. destruct (reap_succeeds (O:=LoadBalancer) ClusterName uid (originSelector name ns)
    (λ n, wrap "deleting orphaned LoadBalancer" (DeleteIgnoreNotFound LoadBalancer (ClusterName, n))) c Hno) as ([] & c' & H & Hc).
  by exists c'.
Qed.

(** ** Properties *)

Section theorems.
Context (ClusterName : string) (CloudController UseLoadbalancerClass : bool) (req : NamespacedName).
#[local] Abbreviation reconcile := (Reconcile ClusterName CloudController UseLoadbalancerClass req).

(** C15: Whatever the two API servers answer, a reconcile of a tenant's Service changes no other
    object of the tenant, nothing of the management cluster but LoadBalancers of the
    tenant's namespace, and of those none that stands for another Service. *)
Theorem ccm_service_isolated (s : CCM) :
  let s' := (reconcile s).2 in
  (∀ k, k ≠ storeKey Service req → cl_objects (ccm_tenant s') !! k = cl_objects (ccm_tenant s) !! k) ∧
  (∀ k, k.1 ≠ "LoadBalancer" ∨ k.2.1 ≠ ClusterName → cl_objects (ccm_lb s') !! k = cl_objects (ccm_lb s) !! k) ∧
  (well_formed (ccm_lb s) → ∀ key o, findObject LoadBalancer (ccm_lb s) key = Some o → foreign ClusterName req s key o →
     findObject LoadBalancer (ccm_lb s') key = Some o).
Proof.
  destruct (within_svc_reconcile ClusterName CloudController UseLoadbalancerClass req s) as [[Ht _ _] [Hl _ _]]. split_and!.
  - intros k Hk. apply Ht. by intros <-.
  - intros k Hk. apply Hl. intros [? ?]. naive_solver.
  - intros Hw key o. by apply svc_keeps_foreign.
Qed.

(** C14: The finalizer is safe: a Service with the cleanup finalizer keeps it through every
    reconcile, failing or not, unless its LoadBalancer in the management cluster is
    deleted. *)
Theorem ccm_service_finalizer_safe (s : CCM) (service : Service) :
  truthful (ccm_lb s) → findObject Service (ccm_tenant s) req = Some service →
  CleanupFinalizer ∈ om_Finalizers (svc_Meta service) →
  let s' := (Reconcile ClusterName CloudController UseLoadbalancerClass req s).2 in
  finalized req (ccm_tenant s') ∨ gone LoadBalancer (ClusterName, om_UID (svc_Meta service)) (ccm_lb s').
Proof. apply svc_keeps_finalizer. Qed.

(** C13: When the calls go through, a Service in scope ends with the finalizer, with a
    LoadBalancer in the management cluster that has its type, ports, endpoints, policy
    and annotations, with the addresses of a LoadBalancer that was there before, and with
    no other live LoadBalancer that claims the Service. *)
Theorem ccm_service_converges (s : CCM) (service : Service) :
  cl_faults (ccm_tenant s) = [] → cl_faults (ccm_lb s) = [] → well_formed (ccm_tenant s) → well_formed (ccm_lb s) →
  findObject Service (ccm_tenant s) req = Some service →
  om_Deleting (svc_Meta service) = false → shouldReconcile UseLoadbalancerClass service = true →
  let uid := om_UID (svc_Meta service) in
  ∃ s' service' lb, reconcile s = (Ret tt, s') ∧
    findObject Service (ccm_tenant s') req = Some service' ∧ CleanupFinalizer ∈ om_Finalizers (svc_Meta service') ∧
    findObject LoadBalancer (ccm_lb s') (ClusterName, uid) = Some lb ∧
    mirrorOf (desiredMirror ClusterName CloudController service) lb ∧
    (is_Some (findObject LoadBalancer (ccm_lb s) (ClusterName, uid)) → svc_Ingress service' = lst_LoadBalancer (lb_Status lb)) ∧
    noOrphans ClusterName req uid (ccm_lb s').
Proof.
  intros Ht Hl Hwt Hwl Hs Hd Hsh uid. pose proof (findObject_key _ _ _ Hs) as Hk.
  assert (svc_Type service = ServiceTypeLoadBalancer) as Hty.
  { unfold shouldReconcile in Hsh. by case_bool_decide. }
  destruct (svc_ensureFinalizer_ok service (ccm_tenant s)) as (fs & c1 & H1 & _ & Hno1 & Hin & Hf1); [done|done|by rewrite Hk|done|].
  set (service1 := finalizedService service fs).
  destruct (reapStale_succeeds ClusterName req.2 req.1 uid (ccm_lb s) Hl) as (c2 & H2 & Hc2 & Hno2).
  set (s2 := {| ccm_tenant := c1; ccm_lb := c2 |}).
  destruct (applyMirror_ok ClusterName CloudController service1 s2) as (s' & Hr & service' & lb & Hfs & Hfl & Hfin & Hm & Hst); try done.
  { by apply Hc2. }
  exists s', service', lb. split_and!; [|by rewrite <- Hk|by rewrite Hfin|done|done| |].
  - unfold Reconcile. erewrite bind_eval by (eapply inTenant_read, try_eval; rewrite Get_eval, Hs by done; reflexivity). cbv beta iota.
    rewrite Hd, Hsh. unfold reconcileActive. cbv beta iota delta [negb]. rewrite (bind_eval _ _ _ _ _ (inTenant_eval _ _ _ _ H1)). cbv beta zeta.
    erewrite bind_eval; [exact Hr|]. apply (inLB_eval _ {| s with ccm_tenant := c1 |}). rewrite <- Hk in H2. exact H2.
  - intros [lb0 Hlb0]. apply Hst. exists lb0.
    pose proof (reap_keeps (O:=LoadBalancer) ClusterName uid (originSelector req.2 req.1)
      (λ n, wrap "deleting orphaned LoadBalancer" (DeleteIgnoreNotFound LoadBalancer (ClusterName, n))) (ccm_lb s) _ lb0 Hwl Hlb0) as Hkeep.
    rewrite <- reapStale_reap, H2 in Hkeep. apply Hkeep. by right; left.
  - intros n o Hn Hsel Hne. eapply reapStale_noOrphans; [done|unfold truthful; by rewrite Hl|exact H2| |done|exact Hne].
    pose proof (within_applyMirror ClusterName CloudController req _ _ eq_refl service1 Hk eq_refl s2) as [_ Ha]. rewrite Hr in Ha. simpl in Ha.
    rewrite (findObject_frame _ _ _ _ Ha) in Hn; [done|]. by intros [= ?].
Qed.

(** C16: When a Service is gone, a reconcile that returns leaves none of its LoadBalancers alive
    in the management cluster, and it does return when the calls go through. *)
Theorem ccm_orphans_reaped (s : CCM) :
  truthful (ccm_lb s) → well_formed (ccm_lb s) → findObject Service (ccm_tenant s) req = None →
  (∀ u s', reconcile s = (Ret u, s') → noOrphans ClusterName req "" (ccm_lb s')) ∧
  (cl_faults (ccm_tenant s) = [] → cl_faults (ccm_lb s) = [] → ∃ s', reconcile s = (Ret tt, s')).
Proof.
  intros Htl Hw Hn. split.
  - intros u s' H. unfold Reconcile, inTenant in H. minv. destruct a as [service|err]; minv.
    { apply Get_Ret in Hz as [Hz _]. simpl in Hz. congruence. }
    unfold handleMissingService, inLB in H. destruct (IsNotFound err); minv. by eapply reapStale_noOrphans.
  - intros Ht Hl. destruct (reapStale_succeeds ClusterName req.2 req.1 "" (ccm_lb s) Hl) as (c2 & H2 & _).
    eexists. unfold Reconcile. erewrite bind_eval by (eapply inTenant_read, try_Fail; rewrite Get_eval, Hn by done; reflexivity).
    cbv beta iota. unfold handleMissingService. simpl. by apply inLB_eval.
Qed.
End theorems.

(** ** Concrete runs *)

Definition sampleCCM (tenant lb : list Object) : CCM := {| ccm_tenant := sampleCluster tenant; ccm_lb := sampleCluster lb |}.

Definition tenantService : Service :=
  {| sampleClusterIPService with
       svc_Meta := objectMeta "web" "apps" "uid-1" None (Some {[ "a" := "b" ]});
       svc_Type := ServiceTypeLoadBalancer;
       svc_Ingress := [{| lbi_IP := "10.0.0.5"; lbi_Hostname := ""; lbi_IPMode := None; lbi_Ports := [] |}] |}.
Definition finalizedTenantService : Service := finalizedService tenantService [CleanupFinalizer].

(** The mirror, with an address, and one of an earlier Service of the same name *)
Definition publishedMirror (uid : string) : LoadBalancer :=
  let lb := desiredMirror "tenant-a" false tenantService in
  {| lb with lb_Meta := {| (lb_Meta lb) with om_Name := uid |};
             lb_Status := {| emptyLoadBalancerStatus with
               lst_LoadBalancer := [{| lbi_IP := "203.0.113.9"; lbi_Hostname := ""; lbi_IPMode := None; lbi_Ports := [] |}] |} |}.
Definition sampleTenantState : CCM :=
  sampleCCM [OService finalizedTenantService] [OLoadBalancer (publishedMirror "uid-1"); OLoadBalancer (publishedMirror "uid-0")].

Lemma ccm_service_finalizer_safe_witness :
  let s' := (Reconcile "tenant-a" true false ("apps", "web") sampleTenantState).2 in
  finalized ("apps", "web") (ccm_tenant s') ∨ gone LoadBalancer ("tenant-a", "uid-1") (ccm_lb s').
Proof.
  apply (ccm_service_finalizer_safe "tenant-a" true false ("apps", "web") sampleTenantState finalizedTenantService).
  - constructor.
  - vm_compute. reflexivity.
  - by left.
Defined.

Lemma ccm_service_converges_witness :
  ∃ s' service' lb, Reconcile "tenant-a" true false ("apps", "web") sampleTenantState = (Ret tt, s') ∧
    findObject Service (ccm_tenant s') ("apps", "web") = Some service' ∧
    CleanupFinalizer ∈ om_Finalizers (svc_Meta service') ∧
    findObject LoadBalancer (ccm_lb s') ("tenant-a", "uid-1") = Some lb ∧
    mirrorOf (desiredMirror "tenant-a" true finalizedTenantService) lb ∧
    (is_Some (findObject LoadBalancer (ccm_lb sampleTenantState) ("tenant-a", "uid-1")) →
     svc_Ingress service' = lst_LoadBalancer (lb_Status lb)) ∧
    noOrphans "tenant-a" ("apps", "web") "uid-1" (ccm_lb s').
Proof.
  apply (ccm_service_converges "tenant-a" true false ("apps", "web") sampleTenantState finalizedTenantService).
  - reflexivity.
  - reflexivity.
  - apply (bool_decide_unpack (well_formed _)). vm_compute. exact I.
  - apply (bool_decide_unpack (well_formed _)). vm_compute. exact I.
  - vm_compute. reflexivity.
  - reflexivity.
  - reflexivity.
Defined.

Lemma ccm_orphans_reaped_witness :
  (∀ u s', Reconcile "tenant-a" true false ("apps", "gone") sampleTenantState = (Ret u, s') →
     noOrphans "tenant-a" ("apps", "gone") "" (ccm_lb s')) ∧
  (cl_faults (ccm_tenant sampleTenantState) = [] → cl_faults (ccm_lb sampleTenantState) = [] →
   ∃ s', Reconcile "tenant-a" true false ("apps", "gone") sampleTenantState = (Ret tt, s')).
Proof.
  apply (ccm_orphans_reaped "tenant-a" true false ("apps", "gone") sampleTenantState).
  - constructor.
  - apply (bool_decide_unpack (well_formed _)). vm_compute. exact I.
  - vm_compute. reflexivity.
Defined.

(** Without the cloud-provider mode the addresses of the Service are the endpoints of the
    mirror, but the status of the Service is overwritten all the same: after two passes
    the mirror forwards to the address it is published under. *)
Example disabled_cloud_provider_feeds_back :
  let pass := Reconcile "tenant-a" false false ("apps", "web") in
  let s2 := (pass (pass sampleTenantState).2).2 in
  (λ lb, lbe_Addresses <$> lbs_Endpoints (lb_Spec lb)) <$> (findObject LoadBalancer (ccm_lb s2) ("tenant-a", "uid-1")) =
    Some [[{| ea_IP := "203.0.113.9"; ea_Hostname := "" |}]] ∧
  (lst_LoadBalancer ∘ lb_Status <$> findObject LoadBalancer (ccm_lb s2) ("tenant-a", "uid-1")) =
    Some [{| lbi_IP := "203.0.113.9"; lbi_Hostname := ""; lbi_IPMode := None; lbi_Ports := [] |}].
Proof. vm_compute. by split. Qed.
