(* ===== verification/CCMNodes.v ===== *)
(** * The CCM's Node controller

    [internal/controllers/ccm/node_controller.go]: the addresses of the ready nodes of a
    tenant cluster, sorted, are kept in the object [Addresses] named ["default"] of the
    tenant's namespace in the management cluster, where Envoy's endpoints refer to it. *)

From Stdlib Require Import Ascii.
From S2P Require Import Prelude GoStrings GoNet Api GatewayApi Names Kube Finalizers Services RouteResources Manager CCM.
Local Open Scope go_scope.

(** ** Addresses *)

Definition NodeHostName : string := "Hostname".
Definition NodeReady : string := "Ready".
Definition ConditionTrue : string := "True".

(** The [less] of the sort *)
Definition addressLess (a b : EndpointAddress) : bool :=
  match ip_value (ea_IP a), ip_value (ea_IP b) with
  | Some i, Some j => (i <? j)%Z
  | _, _ =>
      if bool_decide (ea_IP a ≠ ea_IP b) then negb (bool_decide (String.le (ea_IP a) (ea_IP b)))
      else negb (bool_decide (String.le (ea_Hostname b) (ea_Hostname a)))
  end.
Definition address_le (a b : EndpointAddress) : Prop := addressLess b a = false.
#[export] Instance address_le_dec : RelDecision address_le.
Proof. intros a b. unfold address_le. apply _. Defined.

Section controller.
Context (ClusterName EndpointAddressType : string).

Definition isReady (node : Node) : bool := bool_decide ((NodeReady, ConditionTrue) ∈ nd_Conditions node).

Definition nodeEndpoints (node : Node) : list string :=
  if isReady node then snd <$> filter (λ a, a.1 = EndpointAddressType) (nd_Addresses node) else [].

Definition getEndpoints (nodes : list Node) : list string := dedupe ∅ (nodes ≫= nodeEndpoints).

Definition endpointAddress (endpoint : string) : option EndpointAddress :=
  if ParseIP endpoint then Some {| ea_IP := endpoint; ea_Hostname := "" |}
  else if bool_decide (EndpointAddressType = NodeHostName) then Some {| ea_IP := ""; ea_Hostname := endpoint |}
  else None.

(** [sort.Slice] leaves the order of equal addresses open; here they keep theirs. *)
Definition GenerateAddresses (nodes : list Node) : result Addresses :=
  let addresses := omap endpointAddress (getEndpoints nodes) in
  if bool_decide (addresses = []) then Err "no valid addresses found"
  else Ok {| ad_Meta := objectMeta DefaultAddressName ClusterName "" None None;
             ad_Addresses := merge_sort address_le addresses |}.

(** ** Reconcile *)

Definition addressesKey : NamespacedName := (ClusterName, DefaultAddressName).

(** The function that is retried on conflicts *)
Definition updateAddresses (currentAddresses : Addresses) : M Cluster unit :=
  addresses ← Get Addresses addressesKey;
  _ ← Update {| addresses with ad_Addresses := ad_Addresses currentAddresses |};
  mret tt.

Definition Reconcile : M CCM Result :=
  nodeList ← inTenant (List Node None ∅);
  match GenerateAddresses nodeList with
  | Err _ => mret (RequeueAfter 10)
  | Ok currentAddresses =>
      found ← inLB (GetIfExists Addresses addressesKey);
      match found with
      | None => _ ← inLB (Create currentAddresses); mret Done
      | Some addresses =>
          if bool_decide (ad_Addresses addresses = ad_Addresses currentAddresses) then mret Done
          else _ ← inLB (RetryOnConflict (updateAddresses currentAddresses)); mret Done
      end
  end.
End controller.

(** ** The order of the addresses *)

(** What [endpointAddress] makes: an IP address or a hostname *)
Definition address_ok (a : EndpointAddress) : Prop :=
  (ParseIP (ea_IP a) = true ∧ ea_Hostname a = "") ∨ ea_IP a = "".

(** IP addresses by their bytes, then hostnames by their text *)
Definition address_key_le (a b : EndpointAddress) : Prop :=
  match ip_value (ea_IP a), ip_value (ea_IP b) with
  | Some i, Some j => (i ≤ j)%Z
  | Some _, None => True
  | None, Some _ => False
  | None, None => String.le (ea_Hostname a) (ea_Hostname b)
  end.

#[local] Instance address_key_trans : Transitive address_key_le.
Proof.
  intros a b c. unfold address_key_le.
  destruct (ip_value (ea_IP a)), (ip_value (ea_IP b)), (ip_value (ea_IP c)); try done; [lia|apply transitivity].
Qed.

Lemma String_le_empty s : String.le "" s.
Proof. by destruct s. Qed.
Lemma String_le_empty_inv s : String.le s "" → s = "".
Proof. by destruct s. Qed.

Lemma ip_value_Some s i : ip_value s = Some i → s ≠ "".
Proof. by intros Hi ->. Qed.
Lemma address_ok_None a : address_ok a → ip_value (ea_IP a) = None → ea_IP a = "".
Proof. unfold ip_value. by intros [[-> _]|?]. Qed.

Lemma address_le_key a b : address_ok a → address_ok b → address_le a b ↔ address_key_le a b.
Proof.
  intros Ha Hb. unfold address_le, addressLess, address_key_le.
  destruct (ip_value (ea_IP a)) as [i|] eqn:Hi, (ip_value (ea_IP b)) as [j|] eqn:Hj.
  - rewrite Z.ltb_ge. done.
  - rewrite (address_ok_None b Hb Hj). rewrite bool_decide_eq_true_2 by (intros He; by eapply ip_value_Some).
    by rewrite bool_decide_eq_true_2 by apply String_le_empty.
  - rewrite (address_ok_None a Ha Hi). rewrite bool_decide_eq_true_2 by (by eapply ip_value_Some).
    rewrite bool_decide_eq_false_2; [done|]. intros Hl%String_le_empty_inv. by eapply ip_value_Some.
  - rewrite (address_ok_None a Ha Hi), (address_ok_None b Hb Hj). rewrite bool_decide_eq_false_2 by (by intros []).
    by rewrite negb_false_iff, bool_decide_eq_true.
Qed.

#[local] Instance address_le_total : Total address_le.
Proof.
  intros a b. unfold address_le, addressLess.
  assert (∀ x y, negb (bool_decide (String.le x y)) = false ∨ negb (bool_decide (String.le y x)) = false) as Ht.
  { intros x y. rewrite !negb_false_iff, !bool_decide_eq_true. apply (total String.le). }
  destruct (ip_value (ea_IP a)) as [i|], (ip_value (ea_IP b)) as [j|]; [rewrite !Z.ltb_ge; lia|..].
  all: destruct (decide (ea_IP a = ea_IP b)) as [->|Hne];
    [rewrite !bool_decide_eq_false_2 by (by intros []); apply Ht|rewrite (bool_decide_eq_true_2 (ea_IP a ≠ ea_IP b)), (bool_decide_eq_true_2 (ea_IP b ≠ ea_IP a)) by congruence; apply Ht].
Qed.

Section addresses.
Context (ClusterName EndpointAddressType : string).
#[local] Abbreviation addressOf := (endpointAddress EndpointAddressType).
#[local] Abbreviation endpointsOf := (getEndpoints EndpointAddressType).
Implicit Types (nodes : list Node) (e : string) (x : EndpointAddress).

Lemma endpointAddress_ok e x : addressOf e = Some x → address_ok x.
Proof.
  unfold endpointAddress. destruct (ParseIP e) eqn:Hp; [intros [= <-]; by left|].
  case_bool_decide; [intros [= <-]; by right|done].
Qed.

Lemma endpointAddress_inj e1 e2 x : addressOf e1 = Some x → addressOf e2 = Some x → e1 = e2.
Proof.
  unfold endpointAddress. destruct (ParseIP e1) eqn:H1, (ParseIP e2) eqn:H2; repeat case_bool_decide; try done.
  all: intros; simplify_eq/=; try done.
Qed.

(** The address type of the ready nodes *)
Definition readyAddress nodes e : Prop := ∃ node, node ∈ nodes ∧ isReady node = true ∧ (EndpointAddressType, e) ∈ nd_Addresses node.

Lemma elem_of_getEndpoints nodes e : e ∈ endpointsOf nodes ↔ readyAddress nodes e.
Proof.
  unfold getEndpoints, readyAddress. rewrite elem_of_dedupe, list_elem_of_bind. unfold nodeEndpoints. split.
  - intros [(node & He & Hn) _]. exists node. destruct (isReady node); [|by apply elem_of_nil in He].
    apply list_elem_of_fmap in He as ([t e'] & -> & [Ht Hin]%list_elem_of_filter). simpl in *. by subst t.
  - intros (node & Hn & Hr & Hin). split; [|set_solver]. exists node. rewrite Hr. split; [|done].
    apply list_elem_of_fmap. exists (EndpointAddressType, e). split; [done|]. by apply list_elem_of_filter.
Qed.

Lemma NoDup_addresses nodes : NoDup (omap addressOf (endpointsOf nodes)).
Proof.
  pose proof (NoDup_dedupe ∅ (nodes ≫= nodeEndpoints EndpointAddressType) : NoDup (endpointsOf nodes)) as Hnd.
  induction Hnd as [|e l He Hnd IH]; simpl; [constructor|]. destruct (addressOf e) as [x|] eqn:Hx; [|done].
  constructor; [|done]. intros (e' & He' & Hx')%list_elem_of_omap. by rewrite (endpointAddress_inj _ _ _ Hx Hx') in He.
Qed.

Lemma sorted_addresses nodes : StronglySorted address_key_le (merge_sort address_le (omap addressOf (endpointsOf nodes))).
Proof.
  apply Sorted_StronglySorted; [apply _|].
  pose proof (Sorted_merge_sort address_le (omap addressOf (endpointsOf nodes))) as Hs.
  assert (Forall address_ok (merge_sort address_le (omap addressOf (endpointsOf nodes)))) as Hok.
  { rewrite merge_sort_Permutation. apply Forall_forall. intros x (e & _ & He)%list_elem_of_omap. by eapply endpointAddress_ok. }
  induction Hs as [|x l Hs IH Hhd]; [constructor|]. apply Forall_cons in Hok as [Hx Hok]. constructor; [by apply IH|].
  destruct Hhd as [|y l Hy]; constructor. apply Forall_cons in Hok as [? _]. by apply address_le_key.
Qed.

(** No address of the nodes is written in two ways. *)
Definition one_spelling nodes : Prop := ∀ e1 e2 i,
  e1 ∈ endpointsOf nodes → e2 ∈ endpointsOf nodes → ip_value e1 = Some i → ip_value e2 = Some i → e1 = e2.

Lemma GenerateAddresses_permutation nodes1 nodes2 : nodes1 ≡ₚ nodes2 → one_spelling nodes1 →
  GenerateAddresses ClusterName EndpointAddressType nodes1 = GenerateAddresses ClusterName EndpointAddressType nodes2.
Proof.
  intros Hp Hone. assert (endpointsOf nodes1 ≡ₚ endpointsOf nodes2) as He.
  { apply NoDup_Permutation; [apply NoDup_dedupe..|]. intros e. rewrite !elem_of_getEndpoints. unfold readyAddress. by setoid_rewrite Hp. }
  assert (omap addressOf (endpointsOf nodes1) ≡ₚ omap addressOf (endpointsOf nodes2)) as Ha by (by rewrite He).
  unfold GenerateAddresses. rewrite (bool_decide_ext (_ = []) (omap addressOf (endpointsOf nodes2) = [])).
  2: { split; intros Hn; rewrite Hn in Ha; [by apply Permutation_nil_l in Ha|by apply Permutation_nil_r in Ha]. }
  case_bool_decide as Hnil; [done|]. clear Hnil. do 2 f_equal. apply (StronglySorted_unique_strong address_key_le); [|apply sorted_addresses..|by rewrite !merge_sort_Permutation].
  intros x y Hx Hy Hxy Hyx. rewrite merge_sort_Permutation in Hx. rewrite merge_sort_Permutation, <-Ha in Hy.
  apply list_elem_of_omap in Hx as (e1 & Hin1 & Hx). apply list_elem_of_omap in Hy as (e2 & Hin2 & Hy).
  cut (e1 = e2); [intros ->; congruence|].
  clear Ha. unfold address_key_le in *. unfold endpointAddress in Hx, Hy.
  destruct (ParseIP e1) eqn:H1, (ParseIP e2) eqn:H2; repeat case_bool_decide; simplify_eq/=.
  - destruct (ip_value e1) as [i|] eqn:Hi1, (ip_value e2) as [j|] eqn:Hi2; unfold ip_value in Hi1, Hi2; rewrite ?H1, ?H2 in *; try done.
    assert (i = j) as <- by lia. apply (Hone _ _ i); unfold ip_value; rewrite ?H1, ?H2; done.
  - exfalso. revert Hyx. change (ip_value "") with (@None Z). unfold ip_value. by rewrite H1.
  - exfalso. revert Hxy. change (ip_value "") with (@None Z). unfold ip_value. by rewrite H2.
  - by apply (anti_symm String.le).
Qed.
End addresses.

(** ** What a reconcile leaves *)

Section reconcile.
Context (ClusterName EndpointAddressType : string).
#[local] Abbreviation reconcile := (Reconcile ClusterName EndpointAddressType).
#[local] Abbreviation key := (addressesKey ClusterName).
#[local] Abbreviation generate := (GenerateAddresses ClusterName EndpointAddressType).

Lemma within_node_reconcile : within (acts nothing (eq (storeKey Addresses key))) reconcile.
Proof.
  unfold Reconcile. within_step; [acts_solve|]. destruct (generate a) as [current|msg] eqn:Hg; [|within_step].
  assert (objKey current = key) as Hk. { unfold GenerateAddresses in Hg. case_bool_decide; [done|]. by injection Hg as <-. }
  within_step; [acts_solve|]. destruct a0 as [addresses|].
  - case_bool_decide; [within_step|]. unfold updateAddresses. acts_solve.
  - within_step; [|within_step]. apply within_inLB, within_Create. by rewrite Hk.
Qed.

Lemma updateAddresses_ok current old c : cl_faults c = [] → well_formed c → findObject Addresses c key = Some old →
  ∃ c' new, updateAddresses ClusterName current c = (Ret tt, c') ∧ findObject Addresses c' key = Some new ∧
    ad_Addresses new = ad_Addresses current.
Proof.
  intros Hno Hw Hf. pose proof (findObject_key _ _ _ Hf) as Hk. unfold updateAddresses.
  erewrite bind_eval by (rewrite Get_eval, Hf by done; reflexivity).
  set (o := {| old with ad_Addresses := ad_Addresses current |}). assert (objKey o = key) as Hko by (rewrite <- Hk; done).
  destruct (Update_stored c Hno o old) as (c' & Hu & _ & _ & Hf').
  - by rewrite Hko.
  - by right.
  - by pose proof (findObject_meta _ _ _ Hw Hf) as [Hd _].
  - exists c', (updated old o). rewrite Hko in Hf'. split_and!; [by rewrite (bind_eval _ _ _ _ _ Hu)|done|done].
Qed.

Lemma node_reconcile_ok s : cl_faults (ccm_tenant s) = [] → cl_faults (ccm_lb s) = [] → well_formed (ccm_lb s) →
  match generate (listObjects Node (ccm_tenant s) None ∅) with
  | Err _ => reconcile s = (Ret (RequeueAfter 10), s)
  | Ok current => ∃ s' o, reconcile s = (Ret Done, s') ∧ findObject Addresses (ccm_lb s') key = Some o ∧
                    ad_Addresses o = ad_Addresses current
  end.
Proof.
  intros Ht Hl Hw. unfold Reconcile. erewrite bind_eval by (by eapply inTenant_read, List_eval).
  destruct (generate (listObjects Node (ccm_tenant s) None ∅)) as [current|msg] eqn:Hg; [|done].
  assert (objKey current = key) as Hk. { unfold GenerateAddresses in Hg. case_bool_decide; [done|]. by injection Hg as <-. }
  erewrite bind_eval by (by eapply inLB_read, GetIfExists_eval).
  destruct (findObject Addresses (ccm_lb s) key) as [old|] eqn:Hf.
  - case_bool_decide as He; [by exists s, old|].
    destruct (updateAddresses_ok current old (ccm_lb s) Hl Hw Hf) as (c' & new & Hu & Hf' & Hn).
    eexists _, new. split_and!; [by erewrite bind_eval by (by apply inLB_eval, retry_eval)|exact Hf'|done].
  - destruct (Create_stored (ccm_lb s) Hl current) as (c' & Hc & _ & _ & Hf'); [by rewrite Hk|].
    eexists _, (created (ccm_lb s) current). rewrite Hk in Hf'.
    split_and!; [by erewrite bind_eval by (by apply inLB_eval)|exact Hf'|done].
Qed.

(** A node of the tenant's cluster is ready and has this address, of the configured type. *)
Definition nodeAddress (s : CCM) (e : string) : Prop := ∃ name node, findObject Node (ccm_tenant s) name = Some node ∧
  isReady node = true ∧ (EndpointAddressType, e) ∈ nd_Addresses node.

Lemma readyAddress_stored s e : well_formed (ccm_tenant s) →
  readyAddress EndpointAddressType (listObjects Node (ccm_tenant s) None ∅) e ↔ nodeAddress s e.
Proof.
  intros Hw. unfold readyAddress, nodeAddress. split.
  - intros (node & [Hf _]%elem_of_listObjects & ?); [|done]. by exists (objKey node), node.
  - intros (name & node & Hf & ?). exists node. split; [|done]. apply elem_of_listObjects; [done|].
    rewrite (findObject_key _ _ _ Hf), Hf. split_and!; [done|done|apply map_empty_subseteq].
Qed.

(** C17: When the calls go through, the management cluster has exactly the addresses of the
    tenant's ready nodes, each once: those of the configured type that are IP addresses,
    or all of them when the type is a hostname. While there is none, nothing is written
    and the controller comes back after ten seconds. *)
Theorem ccm_node_addresses_published (s : CCM) :
  cl_faults (ccm_tenant s) = [] → cl_faults (ccm_lb s) = [] → well_formed (ccm_tenant s) → well_formed (ccm_lb s) →
  ((∃ e, nodeAddress s e ∧ is_Some (endpointAddress EndpointAddressType e)) ∧
   ∃ s' o, reconcile s = (Ret Done, s') ∧ findObject Addresses (ccm_lb s') key = Some o ∧ NoDup (ad_Addresses o) ∧
     ∀ x, x ∈ ad_Addresses o ↔ ∃ e, nodeAddress s e ∧ endpointAddress EndpointAddressType e = Some x) ∨
  ((∀ e, nodeAddress s e → endpointAddress EndpointAddressType e = None) ∧ reconcile s = (Ret (RequeueAfter 10), s)).
Proof.
  intros Ht Hl Hwt Hwl. pose proof (node_reconcile_ok s Ht Hl Hwl) as Hr. unfold GenerateAddresses in Hr.
  set (nodes := listObjects Node (ccm_tenant s) None ∅) in Hr.
  assert (∀ x, x ∈ omap (endpointAddress EndpointAddressType) (getEndpoints EndpointAddressType nodes) ↔
               ∃ e, nodeAddress s e ∧ endpointAddress EndpointAddressType e = Some x) as Hx.
  { intros x. rewrite list_elem_of_omap. apply exist_proper. intros e.
    rewrite elem_of_getEndpoints. by rewrite <- (readyAddress_stored s e Hwt). }
  case_bool_decide as Hn.
  - right. split; [|done]. intros e He. destruct (endpointAddress _ e) as [x|] eqn:Hex; [|done].
    assert (x ∈ @nil EndpointAddress) as []%elem_of_nil. rewrite <- Hn. apply Hx. by exists e.
  - left. destruct Hr as (s' & o & Hr & Hf & Ha). split.
    + destruct (omap _ _) as [|x l]; [done|]. destruct (proj1 (Hx x) ltac:(by left)) as (e & ? & ?). by exists e.
    + exists s', o. rewrite Ha. simpl. split_and!; [done|done|rewrite merge_sort_Permutation; apply NoDup_addresses|].
      intros x. by rewrite merge_sort_Permutation, Hx.
Qed.

(** The addresses do not depend on the order in which the nodes are listed, as long as no
    address is written in two ways. *)
Theorem ccm_addresses_order_independent (nodes1 nodes2 : list Node) :
  nodes1 ≡ₚ nodes2 → one_spelling EndpointAddressType nodes1 → generate nodes1 = generate nodes2.
Proof. apply GenerateAddresses_permutation. Qed.
End reconcile.

(** ** A concrete run *)

Definition sampleNode (name ip ready : string) : Node :=
  {| nd_Meta := objectMeta name "" name None None; nd_Addresses := [("InternalIP", ip); ("Hostname", name)];
     nd_Conditions := [("Ready", ready)] |}.
Definition sampleNodes : CCM :=
  {| ccm_tenant := sampleCluster [ONode (sampleNode "a" "10.0.0.10" "True"); ONode (sampleNode "b" "10.0.0.9" "True");
                                  ONode (sampleNode "c" "10.0.0.8" "Unknown")];
     ccm_lb := sampleCluster [] |}.

Example sample_addresses :
  ad_Addresses <$> findObject Addresses (ccm_lb (Reconcile "tenant-a" "InternalIP" sampleNodes).2) ("tenant-a", "default") =
  Some [{| ea_IP := "10.0.0.9"; ea_Hostname := "" |}; {| ea_IP := "10.0.0.10"; ea_Hostname := "" |}].
Proof. by vm_compute. Qed.

Lemma ccm_node_addresses_published_witness :
  ((∃ e, nodeAddress "InternalIP" sampleNodes e ∧ is_Some (endpointAddress "InternalIP" e)) ∧
   ∃ s' o, Reconcile "tenant-a" "InternalIP" sampleNodes = (Ret Done, s') ∧
     findObject Addresses (ccm_lb s') (addressesKey "tenant-a") = Some o ∧ NoDup (ad_Addresses o) ∧
     ∀ x, x ∈ ad_Addresses o ↔ ∃ e, nodeAddress "InternalIP" sampleNodes e ∧ endpointAddress "InternalIP" e = Some x) ∨
  ((∀ e, nodeAddress "InternalIP" sampleNodes e → endpointAddress "InternalIP" e = None) ∧
   Reconcile "tenant-a" "InternalIP" sampleNodes = (Ret (RequeueAfter 10), sampleNodes)).
Proof.
  apply (ccm_node_addresses_published "tenant-a" "InternalIP" sampleNodes).
  - reflexivity.
  - reflexivity.
  - apply (bool_decide_unpack (well_formed _)). vm_compute. exact I.
  - apply (bool_decide_unpack (well_formed _)). vm_compute. exact I.
Defined.

Lemma ccm_addresses_order_independent_witness :
  GenerateAddresses "tenant-a" "InternalIP" [sampleNode "a" "10.0.0.10" "True"; sampleNode "b" "10.0.0.9" "True"] =
  GenerateAddresses "tenant-a" "InternalIP" [sampleNode "b" "10.0.0.9" "True"; sampleNode "a" "10.0.0.10" "True"].
Proof.
  apply (ccm_addresses_order_independent "tenant-a" "InternalIP").
  - constructor.
  - assert (getEndpoints "InternalIP" [sampleNode "a" "10.0.0.10" "True"; sampleNode "b" "10.0.0.9" "True"] =
            ["10.0.0.10"; "10.0.0.9"]) as He by (vm_compute; reflexivity).
    assert (ip_value "10.0.0.10" = Some 281470849515530%Z) as H1 by (vm_compute; reflexivity).
    assert (ip_value "10.0.0.9" = Some 281470849515529%Z) as H2 by (vm_compute; reflexivity).
    intros e1 e2 i. rewrite He, !elem_of_cons, !elem_of_nil. intros [->|[->|[]]] [->|[->|[]]] ? ?; congruence.
Defined.
