(* ===== verification/CCMSources.v ===== *)
(** * The CCM's route sources

    [internal/controllers/ccm/source_reconciler.go], [ingress_controller.go],
    [gateway_httproute_controller.go] and [gateway_grpcroute_controller.go]: an Ingress,
    HTTPRoute or GRPCRoute of the tenant is copied into a Route of the management cluster
    that is named by its UID, with the Services it refers to; the status of what the
    manager makes of it comes back.

    The loop is written once, against the interface [SourceAdapter]; so are its theorems,
    and the three kinds are instances. *)

From S2P Require Import Prelude GoStrings GoBase64 Api GatewayApi Names Kube Finalizers Services RouteResources Manager CCM.
Local Open Scope go_scope.

Definition IngressClassName : string := "kubelb".
Definition IngressGVK : string := "Ingress.networking.k8s.io".
Definition HTTPRouteGVK : string := "HTTPRoute.gateway.networking.k8s.io".
Definition GRPCRouteGVK : string := "GRPCRoute.gateway.networking.k8s.io".
Definition DefaultRouteStatus : string := "{}".

(** [SourceAdapter]. [ExtractServices] is [None] when it panics. [ApplyRouteStatus] gives
    whether the status changed and the source with the new status. *)
Record SourceAdapter (O : Type) := {
  GVK : string;
  ShouldReconcile : O -> bool;
  ExtractServices : O -> option (list NamespacedName);
  ApplyRouteStatus : O -> string -> result (bool * O);
}.
Arguments GVK {O} _.
Arguments ShouldReconcile {O} _ _.
Arguments ExtractServices {O} _ _.
Arguments ApplyRouteStatus {O} _ _ _.

(** ** The loop *)

Section loop.
Context {O : Type} `{!Resource O} (Adapter : SourceAdapter O) (ClusterName : string).
(** [runtime.DefaultUnstructuredConverter.ToUnstructured] *)
Context (toUnstructured : O -> result Unstructured).
Implicit Types resource : O.

Definition uidOf resource : string := om_UID (objMeta resource).

(** The function that is retried on conflicts *)
Definition applyStatus (key : NamespacedName) (raw : string) : M Cluster unit :=
  resource ← Get O key;
  match ApplyRouteStatus Adapter resource raw with
  | Err msg => raise (Errorf msg)
  | Ok (changed, resource) => when changed (_ ← StatusUpdate resource; mret tt)
  end.

(** The status is compared in the encoding of [json.Marshal]. *)
Definition copyRouteStatus resource (route : Route) : M CCM unit :=
  let state := rrs_Route (rt_Status route) in
  if bool_decide (rs_GeneratedName state = "") then mret tt
  else if bool_decide (MarshalBytes (rs_Status state) = DefaultRouteStatus) then mret tt
  else inTenant (RetryOnConflict (applyStatus (objKey resource) (rs_Status state))).

Definition reconcile resource : M CCM unit :=
  originalServices ← deref (ExtractServices Adapter resource);
  _ ← wrap "failed to reconcile source for route"
        (reconcileSourceForRoute (toUnstructured resource) originalServices ClusterName);
  route ← inLB (wrap "failed to get Route from LB cluster" (Get Route (ClusterName, uidOf resource)));
  copyRouteStatus resource route.

Definition impacts (service : Service) (serviceRef : NamespacedName) : bool :=
  let m := svc_Meta service in
  let label := get (om_Labels m) LabelOriginName in
  let originalName := if bool_decide (label ≠ "") then label else om_Name m in
  bool_decide (serviceRef.2 = originalName) && bool_decide (serviceRef.1 = om_Namespace m).

(** A Service that several references name is deleted once for each: the second fails. *)
Definition deleteServices (services : list Service) (impactedServices : list NamespacedName) : M Cluster unit :=
  forM_ services (λ service,
    forM_ impactedServices (λ serviceRef,
      when (impacts service serviceRef) (wrap "failed to delete service" (Delete Service (objKey service))))).

Definition managedSelector : StrMap := {[ LabelManagedBy := LabelControllerName ]}.

Definition cleanup resource : M CCM unit :=
  impactedServices ← deref (ExtractServices Adapter resource);
  services ← inTenant (wrap "failed to list services" (List Service (Some (om_Namespace (objMeta resource))) managedSelector));
  _ ← inTenant (deleteServices services impactedServices);
  _ ← inLB (wrap "failed to cleanup route" (cleanupRoute (uidOf resource) ClusterName));
  inTenant (removeCleanupFinalizer resource).

Definition routeSelector (name namespace : string) : StrMap :=
  <[LabelOriginName := name]> (<[LabelOriginNamespace := namespace]> (<[LabelOriginResourceKind := GVK Adapter]> ∅)).

Definition reapStaleRoutes (name namespace liveUID : string) : M Cluster unit :=
  stale ← staleMirrorNames Route ClusterName liveUID (routeSelector name namespace);
  forM_ stale (λ routeName, wrap "failed to cleanup orphaned route" (cleanupRoute routeName ClusterName)).

(** The gauge is set to the number of these. *)
Definition countManaged (namespace : string) : M Cluster unit :=
  _ ← try (List O (Some namespace) ∅);
  mret tt.

Definition reconcileSource resource : M CCM unit :=
  resource ← inTenant (addCleanupFinalizer resource);
  let m := objMeta resource in
  _ ← inLB (reapStaleRoutes (om_Name m) (om_Namespace m) (om_UID m));
  _ ← reconcile resource;
  inTenant (countManaged (om_Namespace m)).

Definition Reconcile (req : NamespacedName) : M CCM unit :=
  r ← inTenant (try (Get O req));
  match r with
  | inr err => if IsNotFound err then inLB (reapStaleRoutes req.2 req.1 "") else raise err
  | inl resource =>
      if om_Deleting (objMeta resource)
      then when (ContainsFinalizer (objMeta resource) CleanupFinalizer) (cleanup resource)
      else if negb (ShouldReconcile Adapter resource) then mret tt
      else reconcileSource resource
  end.

(** *** Events *)

(** [predicate.NewPredicateFuncs]: an update is judged by the new object. *)
Definition Predicate (e : Event) : bool :=
  match e with
  | CreateEvent o | UpdateEvent _ o | DeleteEvent o | GenericEvent o =>
      match project o with Some obj => ShouldReconcile Adapter obj | None => false end
  end.

Definition refersTo (o : ObjectMeta) (serviceRef : NamespacedName) : bool :=
  bool_decide (serviceRef.1 = om_Namespace o) &&
  (bool_decide (serviceRef.2 = om_Name o) || bool_decide (NodePortServicePattern serviceRef.2 = om_Name o)).

Definition EnqueueForService (o : ObjectMeta) : M Cluster (list NamespacedName) :=
  r ← try (List O (Some (om_Namespace o)) ∅);
  match r with
  | inr _ => mret []
  | inl items =>
      foldM (λ result obj,
        if negb (ShouldReconcile Adapter obj) then mret result
        else
          refs ← deref (ExtractServices Adapter obj);
          mret (if existsb (refersTo o) refs then result ++ [objKey obj] else result)) [] items
  end.
End loop.

(** ** The adapters *)

(** [yaml.UnmarshalStrict] into the status of each kind; of the status of a route the
    parents with their conditions are kept, without observed generations. *)
Definition applied {O S : Type} `{!EqDecision S} (what : string) (decode : string -> result S) (status : O -> S)
  (set : S -> O -> O) (src : O) (raw : string) : result (bool * O) :=
  match decode raw with
  | Err msg => Err ("failed to unmarshal " ⊕ what ⊕ " status: " ⊕ msg)
  | Ok s => Ok (if bool_decide (status src = s) then (false, src) else (true, set s src))
  end.

Definition ingressAdapter (useClass : bool) (decode : string -> result (list LoadBalancerIngress)) : SourceAdapter Ingress :=
  {| GVK := IngressGVK;
     ShouldReconcile ingress := if useClass then bool_decide (ing_ClassName ingress = Some IngressClassName) else true;
     ExtractServices := GetServicesFromIngress;
     ApplyRouteStatus := applied "Ingress" decode ing_Ingress (λ s o, {| o with ing_Ingress := s |}) |}.

Definition httpRouteAdapter (decode : string -> result (list RouteParentStatus)) : SourceAdapter HTTPRoute :=
  {| GVK := HTTPRouteGVK;
     ShouldReconcile httpRoute := ShouldReconcileResource (OHTTPRoute httpRoute) false;
     ExtractServices httpRoute := Some (GetServicesFromHTTPRoute httpRoute);
     ApplyRouteStatus := applied "HTTPRoute" decode gr_Status (λ s o, {| o with gr_Status := s |}) |}.

Definition grpcRouteAdapter (decode : string -> result (list RouteParentStatus)) : SourceAdapter GRPCRoute :=
  {| GVK := GRPCRouteGVK;
     ShouldReconcile grpcRoute := ShouldReconcileResource (OGRPCRoute grpcRoute) false;
     ExtractServices grpcRoute := Some (GetServicesFromGRPCRoute grpcRoute);
     ApplyRouteStatus := applied "GRPCRoute" decode gr_Status (λ s o, {| o with gr_Status := s |}) |}.

(** What the loop relies on of an adapter *)
Class SourceLaws {O : Type} `{!Resource O} (Adapter : SourceAdapter O) : Prop := {
  apply_meta o raw changed o' : ApplyRouteStatus Adapter o raw = Ok (changed, o') → objMeta o' = objMeta o;
  apply_status o raw changed o' : ApplyRouteStatus Adapter o raw = Ok (changed, o') →
    copyStatus o' o = o' ∧ (changed = false → o' = o);
  extract_finalizers o fs : ExtractServices Adapter (setMeta (withFinalizers fs (objMeta o)) o) = ExtractServices Adapter o;
  source_kind : resKind O ≠ "Service";
}.

Ltac applied_solve :=
  intros o raw changed o'; simpl; unfold applied; destruct (_ raw); [|done];
  case_bool_decide; intros [= <- <-]; by destruct o.

#[export] Instance ingressAdapter_laws useClass decode : SourceLaws (ingressAdapter useClass decode).
Proof.
  split; [applied_solve|applied_solve|by intros [] fs|done].
Qed.
#[export] Instance httpRouteAdapter_laws decode : SourceLaws (httpRouteAdapter decode).
Proof.
  split; [applied_solve|applied_solve|by intros [] fs|done].
Qed.
#[export] Instance grpcRouteAdapter_laws decode : SourceLaws (grpcRouteAdapter decode).
Proof.
  split; [applied_solve|applied_solve|by intros [] fs|done].
Qed.

(** ** What a reconcile changes *)

Section source.
Context {O : Type} `{!Resource O} (Adapter : SourceAdapter O) `{!SourceLaws Adapter} (ClusterName : string).
Context (toUnstructured : O -> result Unstructured) (req : NamespacedName).
Implicit Types (resource : O) (s : CCM).

#[local] Abbreviation reconcileReq := (Reconcile Adapter ClusterName toUnstructured req).
#[local] Abbreviation finalized := (finalized O CleanupFinalizer req).

Lemma within_applyStatus raw : within (changes (eq (storeKey O req))) (applyStatus Adapter req raw).
Proof.
  unfold applyStatus. eapply within_bind_yields; [apply _|apply yields_Get|within_solve|]. intros o Hk.
  destruct (ApplyRouteStatus Adapter o raw) as [[changed o']|msg] eqn:Ha; [|within_step].
  apply apply_meta in Ha. within_step. within_step; [|within_step].
  apply within_StatusUpdate. unfold objKey in *. by rewrite Ha, Hk.
Qed.

Lemma triple_applyStatus raw : triple finalized (applyStatus Adapter req raw) (λ _, finalized) finalized.
Proof.
  unfold applyStatus.
  eapply triple_bind; [eapply triple_yields, yields_Get; by eapply (triple_finalized_frame _ _ _ nothing); [intros []|apply within_Get]|].
  intros o. apply (triple_weaken (λ c, finalized c ∧ objKey o = req) _ (λ _, finalized) _ finalized _); [|by intros c [? ?]|done|done].
  apply triple_pure. intros Hk. destruct (ApplyRouteStatus Adapter o raw) as [[changed o']|msg] eqn:Ha; [|by intros c Hc].
  apply apply_meta in Ha. apply triple_when. eapply triple_bind.
  - apply triple_finalized_StatusUpdate. unfold objKey in *. by rewrite Ha, Hk.
  - intros o1. apply triple_ret. by intros c [_ ?].
Qed.

(** *** The finalizer keeps a source until its Route is gone *)

Definition serviceKind (k : ObjectKey) : Prop := k.1 = "Service".

Lemma not_service : ¬ serviceKind (storeKey O req).
Proof. exact source_kind. Qed.

Definition sfinalized s : Prop := finalized (ccm_tenant s).

Lemma triple_services {A} (m : M CCM A) K' : within (acts serviceKind K') m → triple sfinalized m (λ _, sfinalized) sfinalized.
Proof.
  apply triple_within. intros s s' [Hc _] Hs. eapply finalized_frame; [exact Hc|exact not_service|exact Hs].
Qed.

Lemma triple_src_reconcile resource : objKey resource = req →
  triple sfinalized (reconcile Adapter ClusterName toUnstructured resource) (λ _, sfinalized) sfinalized.
Proof.
  intros Hk. unfold reconcile. eapply (triple_bind _ (λ _, sfinalized)).
  { apply (triple_services _ (λ _, True)). within_step. }
  intros refs. eapply (triple_bind _ (λ _, sfinalized)).
  { apply (triple_services _ (λ _, True)). within_step. by apply within_reconcileSourceForRoute. }
  intros _. eapply (triple_bind _ (λ _, sfinalized)); [apply (triple_lb_frame finalized)|]. intros route.
  unfold copyRouteStatus. repeat case_bool_decide; try (by apply triple_ret). rewrite Hk.
  apply (triple_tenant finalized _ (λ _, finalized)), triple_retry, triple_applyStatus.
Qed.

Lemma triple_src_active resource : objKey resource = req → CleanupFinalizer ∈ om_Finalizers (objMeta resource) →
  triple sfinalized (reconcileSource Adapter ClusterName toUnstructured resource) (λ _, sfinalized) sfinalized.
Proof.
  intros Hk Hin. unfold reconcileSource. rewrite addCleanupFinalizer_there by done.
  eapply (triple_bind _ (λ resource' s, sfinalized s ∧ resource' = resource)); [by intros s Hs|]. intros resource'.
  apply triple_pure. intros ->. eapply (triple_bind _ (λ _, sfinalized)); [apply (triple_lb_frame finalized)|].
  intros _. eapply (triple_bind _ (λ _, sfinalized)); [by apply triple_src_reconcile|]. intros _.
  apply (triple_services _ (λ _, True)), within_inTenant. unfold countManaged. within_solve.
Qed.

Lemma triple_src_cleanup resource :
  triple (λ s, truthful (ccm_lb s) ∧ sfinalized s) (cleanup Adapter ClusterName resource)
    (λ _ s, gone Route (ClusterName, uidOf resource) (ccm_lb s)) sfinalized.
Proof.
  unfold cleanup. set (P := λ s, truthful (ccm_lb s) ∧ sfinalized s).
  assert (∀ A (m : M Cluster A), within (changes serviceKind) m → triple P (inTenant m) (λ _, P) sfinalized) as Hm.
  { intros A m Hm. eapply triple_weaken; [eapply (triple_within (acts serviceKind nothing) P)| | |by intros s [_ ?]]; try done.
    - intros s s' [Hc Hl] [Ht Hf]. split; [by eapply truthful_changes|]. eapply finalized_frame; [exact Hc|exact not_service|exact Hf].
    - by apply within_inTenant. }
  eapply (triple_bind _ (λ _, P)); [by destruct (ExtractServices Adapter resource); intros s Hs; [|apply Hs]|]. intros refs.
  eapply (triple_bind _ (λ _, P)); [apply Hm; within_solve|]. intros services.
  eapply (triple_bind _ (λ _, P)); [apply Hm; unfold deleteServices; within_solve|].
  intros _. apply triple_releaseRoute.
Qed.

Lemma src_keeps_finalizer s resource : truthful (ccm_lb s) → findObject O (ccm_tenant s) req = Some resource →
  CleanupFinalizer ∈ om_Finalizers (objMeta resource) →
  let s' := (reconcileReq s).2 in sfinalized s' ∨ gone Route (ClusterName, uidOf resource) (ccm_lb s').
Proof.
  intros Ht Hf Hin. pose proof (findObject_key _ _ _ Hf) as Hk. unfold Reconcile, mbind, M_bind, inTenant, zoom, try. simpl.
  assert (sfinalized s) as Hfin by (by exists resource).
  destruct (Get O req (ccm_tenant s)) as [r c] eqn:Hg.
  set (s1 := {| s with ccm_tenant := c |}). assert (sfinalized s1) as Hf1.
  { eapply finalized_objects, Hfin. by apply existing_spec in Hg as (_ & Ho & _). }
  destruct r as [o|e| |]; simpl; [| |by left|by left].
  - apply Get_Ret in Hg as [Hg _]. rewrite Hf in Hg. injection Hg as <-.
    assert (∀ b, let s' := (when b (cleanup Adapter ClusterName resource) s1).2 in
      sfinalized s' ∨ gone Route (ClusterName, uidOf resource) (ccm_lb s')) as Hclean.
    { intros []; [|by left]. pose proof (triple_src_cleanup resource s1 (conj Ht Hf1)) as Hc. simpl.
      destruct (cleanup Adapter ClusterName resource s1) as [[]]; simpl in *; auto. }
    destruct (om_Deleting (objMeta resource)); [apply Hclean|]. destruct (ShouldReconcile Adapter resource); simpl; [|by left].
    left. pose proof (triple_src_active resource Hk Hin s1 Hf1) as Ha. subst s1.
    by destruct (reconcileSource _ _ _ _ _) as [[]].
  - left. destruct (IsNotFound e); [|done].
    pose proof (triple_lb_frame finalized (reapStaleRoutes Adapter ClusterName req.2 req.1 "") s1 Hf1) as Hr. subst s1.
    by destruct (inLB _ _) as [[]].
Qed.

(** *** The steps of a pass, and what each writes *)

Definition ofOrigin (resource : O) : ObjectKey -> Prop := eq (storeKey Route (ClusterName, uidOf resource)).

(** The source and the copies of the Services it names *)
Definition copies resource (k : ObjectKey) : Prop :=
  k = storeKey O req ∨
  ∃ references ref, ExtractServices Adapter resource = Some references ∧ ref ∈ references ∧ k = storeKey Service (copyKey ref).

Lemma reapStale_route_reap name ns uid : reapStaleRoutes Adapter ClusterName name ns uid =
  reap (O:=Route) ClusterName uid (routeSelector Adapter name ns) (λ n, wrap "failed to cleanup orphaned route" (cleanupRoute n ClusterName)).
Proof. reflexivity. Qed.

Lemma within_reapStaleRoutes name ns uid : within (changes (inNs (O:=Route) ClusterName)) (reapStaleRoutes Adapter ClusterName name ns uid).
Proof. rewrite reapStale_route_reap. apply within_reap, _. Qed.

Context (converted : ∀ o u, toUnstructured o = Ok u → om_UID (u_Meta u) = om_UID (objMeta o)).

Lemma within_src_rest resource : objKey resource = req →
  within (acts (copies resource) (ofOrigin resource))
    (_ ← reconcile Adapter ClusterName toUnstructured resource; inTenant (countManaged (O:=O) (om_Namespace (objMeta resource)))).
Proof.
  intros Hk. apply within_bind; [apply _| |intros _; apply within_inTenant; unfold countManaged; within_solve].
  unfold reconcile. apply (within_bind_yields _ (λ refs, ExtractServices Adapter resource = Some refs)).
  { destruct (ExtractServices Adapter resource); by intros s refs s' [= <-]. }
  { within_step. }
  intros refs He. within_step.
  { within_step. apply within_reconcileSourceForRoute; [intros ref Hr; right; by exists refs, ref|].
    intros u Hu. unfold ofOrigin. by rewrite (converted _ _ Hu). }
  within_step; [acts_solve|]. unfold copyRouteStatus. acts_solve.
  rewrite Hk. eapply within_weaken, within_applyStatus. intros c c'. apply changes_weaken. intros k <-. by left.
Qed.

(** After the finalizer is there and the stale Routes are reaped, only the Route of the
    source is written. *)
Lemma src_active_spec s resource : well_formed (ccm_tenant s) → findObject O (ccm_tenant s) req = Some resource →
  let s' := (reconcileSource Adapter ClusterName toUnstructured resource s).2 in
  ∃ c, changes (eq (storeKey O req)) (ccm_tenant s) c ∧
    (s' = {| s with ccm_tenant := c |} ∨
     acts (copies resource) (ofOrigin resource)
       {| ccm_tenant := c; ccm_lb := (reapStaleRoutes Adapter ClusterName req.2 req.1 (uidOf resource) (ccm_lb s)).2 |} s').
Proof.
  intros Hw Hf. pose proof (findObject_key _ _ _ Hf) as Hk.
  assert (within (changes (eq (storeKey O req))) (addCleanupFinalizer (O:=O) resource)) as He.
  { apply within_addCleanupFinalizer. by rewrite Hk. }
  specialize (He (ccm_tenant s)). destruct (addCleanupFinalizer resource (ccm_tenant s)) as [r c] eqn:Hr. simpl in He.
  unfold reconcileSource. rewrite (bind_run _ _ _ _ _ (inTenant_eval _ _ _ _ Hr)). exists c. split; [done|].
  destruct r as [resource'|e| |]; [right|by left..].
  destruct (addCleanupFinalizer_spec resource (ccm_tenant s) resource' c) as [fs ->]; [done|by rewrite Hk|done|]. cbv beta zeta. unfold finalizedAs.
  rewrite objMeta_setMeta. assert (om_Name (withFinalizers fs (objMeta resource)) = req.2 ∧ om_Namespace (withFinalizers fs (objMeta resource)) = req.1) as [-> ->]
    by (by rewrite <- Hk).
  change (om_UID (withFinalizers fs (objMeta resource))) with (uidOf resource).
  set (s1 := {| s with ccm_tenant := c |}).
  destruct (reapStaleRoutes Adapter ClusterName req.2 req.1 (uidOf resource) (ccm_lb s)) as [r c2] eqn:Hre.
  rewrite (bind_run _ _ s1 _ _ (inLB_eval _ s1 _ _ Hre)). destruct r as [u|e| |]; [|done..].
  pose proof (within_src_rest (setMeta (withFinalizers fs (objMeta resource)) resource)) as Hrest.
  unfold ofOrigin, copies, uidOf in *. rewrite objMeta_setMeta, extract_finalizers in Hrest.
  assert (om_Namespace (withFinalizers fs (objMeta resource)) = req.1) as Hns by (by rewrite <- Hk). rewrite Hns in Hrest. apply Hrest.
  unfold objKey in *. by rewrite objMeta_setMeta.
Qed.

(** *** What stays as it is *)

(** Not a Route of the source: of another origin, or outside the tenant's namespace *)
Definition foreignRoute s (key : NamespacedName) (o : Route) : Prop :=
  (key.1 ≠ ClusterName ∨ ¬ routeSelector Adapter req.2 req.1 ⊆ entries (om_Labels (rt_Meta o))) ∧
  ∀ resource, findObject O (ccm_tenant s) req = Some resource → key ≠ (ClusterName, uidOf resource).

(** Not a Service that the loop may write: neither a copy of one the source names, nor one
    of its namespace that carries the label of the CCM *)
Definition foreignService s (key : NamespacedName) (svc : Service) : Prop :=
  (key.1 ≠ req.1 ∨ ¬ managedSelector ⊆ entries (om_Labels (svc_Meta svc))) ∧
  ∀ resource references ref, findObject O (ccm_tenant s) req = Some resource →
    ExtractServices Adapter resource = Some references → ref ∈ references → key ≠ copyKey ref.

Lemma reapStale_keeps_route name ns uid key o c : well_formed c → findObject Route c key = Some o →
  key.1 ≠ ClusterName ∨ ¬ routeSelector Adapter name ns ⊆ entries (om_Labels (rt_Meta o)) →
  findObject Route (reapStaleRoutes Adapter ClusterName name ns uid c).2 key = Some o.
Proof. intros Hw Hf Hl. rewrite reapStale_route_reap. apply reap_keeps; [apply _|done|done|]. destruct Hl; auto. Qed.

Lemma src_active_keeps s resource : well_formed (ccm_tenant s) → findObject O (ccm_tenant s) req = Some resource →
  let s' := (reconcileSource Adapter ClusterName toUnstructured resource s).2 in
  (∀ k, ¬ copies resource k → cl_objects (ccm_tenant s') !! k = cl_objects (ccm_tenant s) !! k) ∧
  (∀ k, ¬ inNs (O:=Route) ClusterName k → cl_objects (ccm_lb s') !! k = cl_objects (ccm_lb s) !! k) ∧
  (well_formed (ccm_lb s) → ∀ key o, findObject Route (ccm_lb s) key = Some o → foreignRoute s key o →
     findObject Route (ccm_lb s') key = Some o).
Proof.
  intros Hw Hf s'. destruct (src_active_spec s resource Hw Hf) as (c & Hc & [Hs|[Ht Hl]]); fold s' in Hs || fold s' in Ht, Hl.
  - rewrite Hs. simpl. split_and!; [|done..]. intros k Hk. apply Hc. intros <-. apply Hk. by left.
  - simpl in Ht, Hl. split_and!.
    + intros k Hk. rewrite (changes_frame _ _ _ Ht k Hk). apply Hc. intros <-. apply Hk. by left.
    + intros k Hk. rewrite (changes_frame _ _ _ Hl k) by (intros <-; by apply Hk).
      by apply (within_reapStaleRoutes req.2 req.1 (uidOf resource) (ccm_lb s)).
    + intros Hwl key o Ho [Hfor Hu]. rewrite (findObject_frame _ _ _ _ Hl); [by apply reapStale_keeps_route|].
      unfold ofOrigin. intros [= Heq]. by apply (Hu resource Hf).
Qed.

Lemma deleteServices_keeps services references c key svc : findObject Service c key = Some svc → 
  (∀ service, service ∈ services → objKey service ≠ key) →
  findObject Service (deleteServices services references c).2 key = Some svc.
Proof.
  intros Hf Hn. assert (within (changes (λ k, ∃ service, service ∈ services ∧ k = storeKey Service (objKey service))) (deleteServices services references)) as Hw.
  { unfold deleteServices. within_step. within_step. within_step. within_step. apply within_Delete. eauto. }
  rewrite (findObject_frame _ _ _ _ (Hw c)); [done|]. intros (service & Hin & [= Hk]). by eapply Hn.
Qed.

Definition written (k : ObjectKey) : Prop := k = storeKey O req ∨ serviceKind k.

Lemma within_release resource : objKey resource = req →
  within (acts (eq (storeKey O req)) (ofOrigin resource))
    (_ ← inLB (wrap "failed to cleanup route" (cleanupRoute (uidOf resource) ClusterName)); inTenant (removeCleanupFinalizer resource)).
Proof.
  intros Hk. within_step; [apply within_inLB; within_step; by apply within_ccm_cleanupRoute|].
  apply within_inTenant, within_removeCleanupFinalizer. by rewrite Hk.
Qed.

Lemma within_src_cleanup resource : objKey resource = req →
  within (acts written (ofOrigin resource)) (cleanup Adapter ClusterName resource).
Proof.
  intros Hk. unfold cleanup. within_step; [within_step|]. within_step; [acts_solve|]. within_step.
  { apply within_inTenant. unfold deleteServices. within_step. within_step. within_step. within_step. apply within_Delete. by right. }
  eapply within_weaken, within_release, Hk. intros s s'. apply acts_weaken; [|done]. intros k <-. by left.
Qed.

Lemma src_cleanup_keeps s resource key svc : well_formed (ccm_tenant s) → findObject O (ccm_tenant s) req = Some resource →
  findObject Service (ccm_tenant s) key = Some svc → foreignService s key svc →
  findObject Service (ccm_tenant (cleanup Adapter ClusterName resource s).2) key = Some svc.
Proof.
  intros Hw Hf Hs [Hfor _]. pose proof (findObject_key _ _ _ Hf) as Hk. unfold cleanup.
  destruct (ExtractServices Adapter resource) as [refs|]; [|done]. simpl. rewrite (bind_run _ _ s (Ret refs) s) by done.
  set (l := wrap "failed to list services" (List Service (Some (om_Namespace (objMeta resource))) managedSelector)).
  assert (within (changes nothing) l) as Hn by (unfold l; within_solve).
  specialize (Hn (ccm_tenant s)). destruct (l (ccm_tenant s)) as [r c] eqn:Hl. simpl in Hn.
  assert (findObject Service c key = Some svc) as Hs1 by (by rewrite (findObject_frame _ _ _ _ Hn) by (by intros [])).
  rewrite (bind_run _ _ _ _ _ (inTenant_eval _ _ _ _ Hl)). destruct r as [services|e| |]; try done.
  unfold l in Hl. apply wrap_Ret, List_Ret in Hl as [-> _].
  assert (findObject Service (deleteServices (listObjects Service (ccm_tenant s) (Some (om_Namespace (objMeta resource))) managedSelector) refs c).2 key = Some svc) as Hs2.
  { apply deleteServices_keeps; [done|]. intros service (Hfs & Hns & Hsel)%elem_of_listObjects Heq; [|done].
    rewrite Heq, Hs in Hfs. injection Hfs as <-. simpl in Hns. apply bool_decide_eq_true in Hns.
    destruct Hfor as [Hkey|Hlabel]; [|done]. apply Hkey. rewrite <- Heq, <- Hk. done. }
  destruct (deleteServices _ refs c) as [r c2] eqn:Hd. simpl in Hs2. set (s1 := {| s with ccm_tenant := c |}).
  rewrite (bind_run _ _ _ _ _ (inTenant_eval _ s1 _ _ Hd)). destruct r as [u|e| |]; try done.
  destruct (within_release resource Hk {| s1 with ccm_tenant := c2 |}) as [Ht _]. rewrite (findObject_frame _ _ _ _ Ht); [done|].
  intros [= Heq _]. by apply source_kind.
Qed.

(** What a pass keeps: other objects of the tenant, Services that are not the loop's, other
    kinds and namespaces of the management cluster, and Routes that are not the source's *)
Record keeps s s' : Prop := {
  keeps_tenant k : ¬ written k → cl_objects (ccm_tenant s') !! k = cl_objects (ccm_tenant s) !! k;
  keeps_services key svc : findObject Service (ccm_tenant s) key = Some svc → foreignService s key svc →
    findObject Service (ccm_tenant s') key = Some svc;
  keeps_lb k : ¬ inNs (O:=Route) ClusterName k → cl_objects (ccm_lb s') !! k = cl_objects (ccm_lb s) !! k;
  keeps_routes key o : well_formed (ccm_lb s) → findObject Route (ccm_lb s) key = Some o → foreignRoute s key o →
    findObject Route (ccm_lb s') key = Some o;
}.

Lemma keeps_same s s' : cl_objects (ccm_tenant s') = cl_objects (ccm_tenant s) → cl_objects (ccm_lb s') = cl_objects (ccm_lb s) → keeps s s'.
Proof.
  intros Ht Hl. split.
  - intros k _. by rewrite Ht.
  - intros key svc Hf _. by rewrite (findObject_objects (ccm_tenant s)).
  - intros k _. by rewrite Hl.
  - intros key o _ Hf _. by rewrite (findObject_objects (ccm_lb s)).
Qed.

Lemma keeps_reap s uid : keeps s {| s with ccm_lb := (reapStaleRoutes Adapter ClusterName req.2 req.1 uid (ccm_lb s)).2 |}.
Proof.
  split; simpl; [done|done| |].
  - intros k Hk. by apply (within_reapStaleRoutes req.2 req.1 uid (ccm_lb s)).
  - intros key o Hw Hf [Hfor _]. by apply reapStale_keeps_route.
Qed.

Lemma keeps_cleanup s resource : well_formed (ccm_tenant s) → findObject O (ccm_tenant s) req = Some resource →
  keeps s (cleanup Adapter ClusterName resource s).2.
Proof.
  intros Hw Hf. pose proof (findObject_key _ _ _ Hf) as Hk. destruct (within_src_cleanup resource Hk s) as [Ht Hl]. split.
  - apply Ht.
  - intros key svc. by apply src_cleanup_keeps.
  - intros k Hn. apply Hl. intros <-. by apply Hn.
  - intros key o _ Ho [_ Hu]. rewrite (findObject_frame _ _ _ _ Hl); [done|]. intros [= Heq]. by apply (Hu resource Hf).
Qed.

Lemma keeps_active s resource : well_formed (ccm_tenant s) → findObject O (ccm_tenant s) req = Some resource →
  keeps s (reconcileSource Adapter ClusterName toUnstructured resource s).2.
Proof.
  intros Hw Hf. destruct (src_active_keeps s resource Hw Hf) as (Ht & Hl & Hr). split; [| |exact Hl|by intros; apply Hr].
  - intros k Hk. apply Ht. intros [->|(refs & ref & _ & _ & ->)]; apply Hk; [by left|by right].
  - intros key svc Hs [_ Hfor]. unfold findObject in *. rewrite Ht; [done|]. intros [[= Heq _]|(refs & ref & He & Hin & [= Heq])].
    + by apply source_kind.
    + by eapply Hfor.
Qed.

Lemma keeps_trans s s1 s' : cl_objects (ccm_tenant s1) = cl_objects (ccm_tenant s) → ccm_lb s1 = ccm_lb s → keeps s1 s' → keeps s s'.
Proof.
  intros Ht Hl [K1 K2 K3 K4]. rewrite Hl in *. split; [by intros; rewrite <- Ht; apply K1| |done|].
  - intros key svc Hs [Hf Hu]. apply K2; [by rewrite (findObject_objects (ccm_tenant s))|]. split; [done|].
    intros resource. rewrite (findObject_objects (ccm_tenant s)) by done. apply Hu.
  - intros key o Hw Ho [Hf Hu]. apply K4; [done..|]. split; [done|].
    intros resource. rewrite (findObject_objects (ccm_tenant s)) by done. apply Hu.
Qed.

Lemma src_keeps s : well_formed (ccm_tenant s) → keeps s (reconcileReq s).2.
Proof.
  intros Hw. unfold Reconcile. destruct (Get O req (ccm_tenant s)) as [r c] eqn:Hg. pose proof Hg as (Hc & Ho & _)%existing_spec.
  set (s1 := {| s with ccm_tenant := c |}). assert (well_formed (ccm_tenant s1)) as Hw1 by (by apply Hc).
  apply (keeps_trans s s1); [done|done|]. destruct r as [resource|e| |].
  - rewrite (bind_run _ _ _ _ _ (inTenant_eval _ s _ _ (try_eval _ _ _ _ Hg))). apply Get_Ret in Hg as [Hf _].
    assert (findObject O (ccm_tenant s1) req = Some resource) as Hf1 by (by rewrite (findObject_objects (ccm_tenant s))).
    destruct (om_Deleting _); [destruct (ContainsFinalizer _ _); [by apply keeps_cleanup|by apply keeps_same]|].
    destruct (ShouldReconcile Adapter resource); [by apply keeps_active|by apply keeps_same].
  - rewrite (bind_run _ _ _ _ _ (inTenant_eval _ s _ _ (try_Fail _ _ _ _ Hg))).
    destruct (IsNotFound e); [|by apply keeps_same]. unfold inLB, zoom. 
    rewrite (surjective_pairing (reapStaleRoutes Adapter ClusterName req.2 req.1 "" _)). apply keeps_reap.
  - unfold inTenant, zoom, try, mbind, M_bind. simpl. rewrite Hg. by apply keeps_same.
  - unfold inTenant, zoom, try, mbind, M_bind. simpl. rewrite Hg. by apply keeps_same.
Qed.

(** *** When the calls go through *)





End source.

(** A Route of the source other than the one named [uid] waits for its finalizers. *)
Definition noOrphanRoutes {O : Type} (Adapter : SourceAdapter O) (ClusterName : string) (req : NamespacedName) (uid : string) (c : Cluster) : Prop :=
  ∀ n o, findObject Route c (ClusterName, n) = Some o → routeSelector Adapter req.2 req.1 ⊆ entries (om_Labels (rt_Meta o)) →
    n ≠ uid → om_Deleting (rt_Meta o) = true.

Lemma reapStaleRoutes_noOrphans {O} (Adapter : SourceAdapter O) ClusterName req uid c u c' : well_formed c → truthful c →
  reapStaleRoutes Adapter ClusterName req.2 req.1 uid c = (Ret u, c') → noOrphanRoutes Adapter ClusterName req uid c'.
Proof. intros Hw Ht H. exact (reap_complete (O:=Route) ClusterName uid _ _ c u c' Hw Ht H). Qed.

Lemma reapStaleRoutes_succeeds {O} (Adapter : SourceAdapter O) ClusterName name ns uid c : cl_faults c = [] →
  ∃ c', reapStaleRoutes Adapter ClusterName name ns uid c = (Ret tt, c') ∧ changes (inNs (O:=Route) ClusterName) c c' ∧ cl_faults c' = [].
Proof.
  intros Hno. destruct (reap_succeeds (O:=Route) ClusterName uid (routeSelector Adapter name ns)
    (λ n, wrap "failed to cleanup orphaned route" (cleanupRoute n ClusterName)) c Hno) as ([] & c' & H & Hc).
  by exists c'.
Qed.


(** ** Properties *)

Section theorems.
Context {O : Type} `{!Resource O} (Adapter : SourceAdapter O) `{!SourceLaws Adapter} (ClusterName : string).
Context (toUnstructured : O -> result Unstructured) (req : NamespacedName).
#[local] Abbreviation reconcileReq := (Reconcile Adapter ClusterName toUnstructured req).

(** The finalizer of a source is safe: an Ingress, HTTPRoute or GRPCRoute with the cleanup
    finalizer keeps it through every reconcile, failing or not, unless the Route that
    stands for it in the management cluster is deleted. *)
Theorem source_finalizer_safe (s : CCM) (resource : O) :
  truthful (ccm_lb s) → findObject O (ccm_tenant s) req = Some resource →
  CleanupFinalizer ∈ om_Finalizers (objMeta resource) →
  let s' := (reconcileReq s).2 in
  finalized O CleanupFinalizer req (ccm_tenant s') ∨ gone Route (ClusterName, uidOf resource) (ccm_lb s').
Proof. intros Ht Hf Hin. by apply src_keeps_finalizer. Qed.

(** Whatever the two API servers answer, a reconcile of a source changes nothing of the tenant
    but the source itself, copies of the Services it names and Services of its namespace
    that carry the CCM's label, and nothing of the management cluster but Routes of the
    tenant's namespace, of those none that stands for another source or another kind. *)
Theorem source_isolated (s : CCM) :
  (∀ o u, toUnstructured o = Ok u → om_UID (u_Meta u) = om_UID (objMeta o)) → well_formed (ccm_tenant s) →
  keeps Adapter ClusterName req s (reconcileReq s).2.
Proof. intros Hu Hw. by apply src_keeps. Qed.

(** When a source is gone, a reconcile that returns leaves none of its Routes alive in the
    management cluster, and it does return when the calls go through. *)
Theorem source_orphans_reaped (s : CCM) :
  truthful (ccm_lb s) → well_formed (ccm_lb s) → findObject O (ccm_tenant s) req = None →
  (∀ u s', reconcileReq s = (Ret u, s') → noOrphanRoutes Adapter ClusterName req "" (ccm_lb s')) ∧
  (cl_faults (ccm_tenant s) = [] → cl_faults (ccm_lb s) = [] → ∃ s', reconcileReq s = (Ret tt, s')).
Proof.
  intros Htl Hw Hn. split.
  - intros u s' H. unfold Reconcile, inTenant in H. minv. destruct a as [resource|err]; minv.
    { apply Get_Ret in Hz as [Hz _]. simpl in Hz. congruence. }
    unfold inLB in H. destruct (IsNotFound err); minv. by eapply reapStaleRoutes_noOrphans.
  - intros Ht Hl. destruct (reapStaleRoutes_succeeds Adapter ClusterName req.2 req.1 "" (ccm_lb s) Hl) as (c2 & H2 & _).
    eexists. unfold Reconcile. erewrite bind_eval by (eapply inTenant_read, try_Fail; rewrite Get_eval, Hn by done; reflexivity).
    cbv beta iota. simpl. by apply inLB_eval.
Qed.

End theorems.

(** ** Concrete runs *)

Definition sampleStatus : list LoadBalancerIngress := [{| lbi_IP := "203.0.113.9"; lbi_Hostname := ""; lbi_IPMode := None; lbi_Ports := [] |}].

(** A decoder that knows one document *)
Definition sampleDecode (raw : string) : result (list LoadBalancerIngress) :=
  if bool_decide (raw = "published") then Ok sampleStatus else Err "unexpected document".
Definition sampleUnstructured (ingress : Ingress) : result Unstructured :=
  Ok {| u_APIVersion := "networking.k8s.io/v1"; u_Kind := "Ingress"; u_Meta := ing_Meta ingress; u_Spec := "" |}.

Definition sampleAdapter : SourceAdapter Ingress := ingressAdapter true sampleDecode.

Definition tenantIngress : Ingress :=
  {| ing_Meta := {| (objectMeta "site" "apps" "uid-7" None None) with om_Finalizers := [CleanupFinalizer] |};
     ing_ClassName := Some "kubelb";
     ing_DefaultBackend := Some {| ib_Service := Some {| isb_Name := "web"; isb_PortNumber := 80; isb_PortName := "" |}; ib_Resource := None |};
     ing_Rules := []; ing_TLS := []; ing_Ingress := [] |}.

(** What the manager left of the Ingress: its Route with a status, and one of an earlier
    Ingress of the same name *)
Definition publishedRoute (uid : string) : Route :=
  {| (GenerateRoute {| u_APIVersion := "networking.k8s.io/v1"; u_Kind := "Ingress";
                       u_Meta := objectMeta "site" "apps" uid None None; u_Spec := "" |} [] "tenant-a") with
       rt_Status := {| emptyRouteStatus with rrs_Route :=
         {| emptyResourceState with rs_GeneratedName := "site-1"; rs_Status := "published" |} |} |}.

Definition sampleSources : CCM :=
  {| ccm_tenant := sampleCluster [OIngress tenantIngress; OService sampleClusterIPService];
     ccm_lb := sampleCluster [ORoute (publishedRoute "uid-7"); ORoute (publishedRoute "uid-6")] |}.

#[local] Abbreviation pass := (Reconcile sampleAdapter "tenant-a" sampleUnstructured).

Lemma source_finalizer_safe_witness :
  let s' := (pass ("apps", "site") sampleSources).2 in
  finalized Ingress CleanupFinalizer ("apps", "site") (ccm_tenant s') ∨ gone Route ("tenant-a", uidOf tenantIngress) (ccm_lb s').
Proof.
  apply (source_finalizer_safe sampleAdapter "tenant-a" sampleUnstructured ("apps", "site") sampleSources tenantIngress).
  - constructor.
  - vm_compute. reflexivity.
  - by left.
Defined.

Lemma source_isolated_witness : keeps sampleAdapter "tenant-a" ("apps", "site") sampleSources (pass ("apps", "site") sampleSources).2.
Proof.
  apply (source_isolated sampleAdapter "tenant-a" sampleUnstructured ("apps", "site") sampleSources).
  - by intros o u [= <-].
  - apply (bool_decide_unpack (well_formed _)). vm_compute. exact I.
Defined.

Lemma source_orphans_reaped_witness :
  (∀ u s', pass ("apps", "gone") sampleSources = (Ret u, s') → noOrphanRoutes sampleAdapter "tenant-a" ("apps", "gone") "" (ccm_lb s')) ∧
  (cl_faults (ccm_tenant sampleSources) = [] → cl_faults (ccm_lb sampleSources) = [] →
   ∃ s', pass ("apps", "gone") sampleSources = (Ret tt, s')).
Proof.
  apply (source_orphans_reaped sampleAdapter "tenant-a" sampleUnstructured ("apps", "gone") sampleSources).
  - constructor.
  - apply (bool_decide_unpack (well_formed _)). vm_compute. exact I.
  - vm_compute. reflexivity.
Defined.


(** One pass publishes the addresses and deletes the Route of the earlier Ingress. *)
Example source_pass :
  let '(r, s') := pass ("apps", "site") sampleSources in
  r = Ret tt ∧ ing_Ingress <$> findObject Ingress (ccm_tenant s') ("apps", "site") = Some sampleStatus ∧
  findObject Route (ccm_lb s') ("tenant-a", "uid-6") = None ∧
  svc_Type <$> findObject Service (ccm_tenant s') ("apps", "web-nodeport") = Some ServiceTypeNodePort.
Proof. vm_compute. by split_and!. Qed.

(** An Ingress that was given another class keeps its Route, and when it is deleted the
    filter drops the event, although [Reconcile] would release it. *)
Definition movedIngress : Ingress :=
  {| tenantIngress with ing_ClassName := Some "nginx"; ing_Meta := {| (ing_Meta tenantIngress) with om_Deleting := true |} |}.
Definition movedSources : CCM := {| sampleSources with ccm_tenant := sampleCluster [OIngress movedIngress] |}.

Example moved_source_deletion_dropped :
  Predicate sampleAdapter (UpdateEvent (OIngress movedIngress) (OIngress movedIngress)) = false ∧
  Predicate sampleAdapter (CreateEvent (OIngress movedIngress)) = false ∧
  let '(r, s') := pass ("apps", "site") movedSources in
  r = Ret tt ∧ findObject Ingress (ccm_tenant s') ("apps", "site") = None ∧ findObject Route (ccm_lb s') ("tenant-a", "uid-7") = None.
Proof. vm_compute. by split_and!. Qed.

(** The copy of a Service of another namespace stays behind when its HTTPRoute is deleted:
    the Services to delete are listed in the namespace of the HTTPRoute. *)
Definition crossRoute : HTTPRoute :=
  {| gr_Meta := {| (objectMeta "site" "front" "uid-8" None None) with om_Finalizers := [CleanupFinalizer]; om_Deleting := true |};
     gr_ParentRefs := [{| pr_Name := ParentGatewayName; pr_Namespace := None |}]; gr_Hostnames := [];
     gr_Rules := [{| hrr_Matches := []; hrr_Filters := [];
                     hrr_BackendRefs := [{| br_Ref := {| bor_Kind := None; bor_Name := "web"; bor_Namespace := Some "apps"; bor_Port := None |};
                                            br_Filters := [] |}] |}];
     gr_Status := [] |}.

Example foreign_copy_left_behind :
  let adapter := httpRouteAdapter (λ _, Ok []) in
  let s := {| ccm_tenant := sampleCluster [OHTTPRoute crossRoute; OService (nodePortService sampleClusterIPService)]; ccm_lb := sampleCluster [] |} in
  let '(r, s') := Reconcile adapter "tenant-a" (λ _, Err "") ("front", "site") s in
  r = Ret tt ∧ findObject HTTPRoute (ccm_tenant s') ("front", "site") = None ∧
  ExtractServices adapter crossRoute = Some [("apps", "web")] ∧
  is_Some (findObject Service (ccm_tenant s') ("apps", "web-nodeport")).
Proof. vm_compute. split_and!; try done. by eexists. Qed.
