(* ===== verification/CCMGateway.v ===== *)
(** * The CCM's Gateway controller

    [internal/controllers/ccm/gateway_controller.go]: the one Gateway of the tenant that the
    edition serves is copied into a Route of the management cluster; its status comes back.
    A Gateway that names another class is answered with an Event, unless the class belongs
    to another controller of the tenant's cluster.

    The recorder and the log take what they are given: the Events of a pass are its
    result. *)

From S2P Require Import Prelude GoStrings GoBase64 Api GatewayApi Names Kube Finalizers Services RouteResources Manager CCM CCMSources.
Local Open Scope go_scope.

Definition GatewayGVK : string := "Gateway.gateway.networking.k8s.io".

Section controller.
Context (ClusterName : string) (UseGatewayClass : bool).
(** [runtime.DefaultUnstructuredConverter.ToUnstructured]; [yaml.UnmarshalStrict] into the
    status, of which the conditions are kept; is there a recorder? *)
Context (toUnstructured : Gateway -> result Unstructured) (decode : string -> result (list Condition)) (Recorder : bool).

Definition shouldReconcile (gateway : Gateway) : bool := ShouldReconcileResource (OGateway gateway) UseGatewayClass.

Definition droppedOnGatewayClass (gateway : Gateway) : bool :=
  UseGatewayClass && bool_decide (om_Name (gw_Meta gateway) = ParentGatewayName) &&
  negb (bool_decide (gw_GatewayClassName gateway = GatewayClassName)).

Definition shouldObserve (gateway : Gateway) : bool := shouldReconcile gateway || droppedOnGatewayClass gateway.

(** A lookup that fails counts as a class of another controller. *)
Definition gatewayClassClaimed (name : string) : M Cluster bool :=
  if bool_decide (name = "") then mret false
  else
    r ← try (Get GatewayClass ("", name));
    mret match r with inr err => negb (IsNotFound err) | inl _ => true end.

Definition ignoredNote (class : string) : string :=
  "GatewayClass " ⊕ Quote class ⊕ " is not served by KubeLB, this Gateway is ignored and no load balancer is provisioned for it. Served GatewayClass: " ⊕ GatewayClassName.
Definition removedNote (class : string) : string :=
  "GatewayClass " ⊕ Quote class ⊕ " is no longer served by KubeLB, the load balancer configuration for this Gateway is being removed. Served GatewayClass: " ⊕ GatewayClassName.

(** The notes of the Events *)
Definition warnGatewayClassNotAccepted (gateway : Gateway) : M Cluster (list string) :=
  if negb Recorder || negb (droppedOnGatewayClass gateway) then mret []
  else
    let class := gw_GatewayClassName gateway in
    let adopted := ContainsFinalizer (gw_Meta gateway) CleanupFinalizer in
    claimed ← (if negb adopted then gatewayClassClaimed class else mret false);
    mret (if negb adopted && claimed then [] else [if adopted then removedNote class else ignoredNote class]).

(** The function that is retried on conflicts *)
Definition applyGatewayStatus (key : NamespacedName) (status : list Condition) : M Cluster unit :=
  gateway ← Get Gateway key;
  if bool_decide (gw_Conditions gateway = status) then mret tt
  else _ ← StatusUpdate {| gateway with gw_Conditions := status |}; mret tt.

Definition copyGatewayStatus (gateway : Gateway) (route : Route) : M CCM unit :=
  let state := rrs_Route (rt_Status route) in
  if bool_decide (rs_GeneratedName state = "") then mret tt
  else if bool_decide (MarshalBytes (rs_Status state) = DefaultRouteStatus) then mret tt
  else
    match decode (rs_Status state) with
    | Err msg => raise (Wrap "failed to unmarshal Gateway status" (Errorf msg))
    | Ok status => inTenant (RetryOnConflict (applyGatewayStatus (objKey gateway) status))
    end.

Definition reconcileGateway (gateway : Gateway) : M CCM unit :=
  _ ← wrap "failed to reconcile source for route" (reconcileSourceForRoute (toUnstructured gateway) [] ClusterName);
  route ← inLB (wrap "failed to get Route from LB cluster" (Get Route (ClusterName, om_UID (gw_Meta gateway))));
  copyGatewayStatus gateway route.

Definition cleanupGateway (gateway : Gateway) : M CCM unit :=
  _ ← inLB (wrap "failed to cleanup route" (cleanupRoute (om_UID (gw_Meta gateway)) ClusterName));
  inTenant (removeCleanupFinalizer gateway).

Definition Reconcile (req : NamespacedName) : M CCM (list string) :=
  r ← inTenant (try (Get Gateway req));
  match r with
  | inr err => if IsNotFound err then mret [] else raise err
  | inl gateway =>
      if om_Deleting (gw_Meta gateway)
      then _ ← when (ContainsFinalizer (gw_Meta gateway) CleanupFinalizer) (cleanupGateway gateway); mret []
      else if negb (shouldReconcile gateway) then inTenant (warnGatewayClassNotAccepted gateway)
      else
        gateway ← inTenant (addCleanupFinalizer gateway);
        _ ← reconcileGateway gateway;
        _ ← inTenant (countManaged (O:=Gateway) req.1);
        mret []
  end.

(** [resourceFilter]; the server moves the generation of an object with its spec, and when
    its deletion begins. *)
Definition generationMoved (oldObj newObj : Gateway) : bool :=
  negb (bool_decide (gw_GatewayClassName oldObj = gw_GatewayClassName newObj ∧ gw_Listeners oldObj = gw_Listeners newObj ∧
                     om_Deleting (gw_Meta oldObj) = om_Deleting (gw_Meta newObj))).

Definition resourceFilter (e : Event) : bool :=
  match e with
  | CreateEvent o => match project o with Some obj => shouldObserve obj | None => false end
  | UpdateEvent oldObj newObj =>
      match project oldObj, project newObj with
      | Some oldObj, Some newObj =>
          if shouldReconcile newObj then true else shouldObserve newObj && generationMoved oldObj newObj
      | _, _ => false
      end
  | DeleteEvent o | GenericEvent o => match project o with Some obj => shouldReconcile obj | None => false end
  end.
End controller.

(** ** What a reconcile changes *)

Section gateway.
Context (ClusterName : string) (UseGatewayClass : bool).
Context (toUnstructured : Gateway -> result Unstructured) (decode : string -> result (list Condition)) (Recorder : bool).
Context (req : NamespacedName).
Implicit Types (gateway : Gateway) (s : CCM).

#[local] Abbreviation reconcileReq := (Reconcile ClusterName UseGatewayClass toUnstructured decode Recorder req).
#[local] Abbreviation finalized := (finalized Gateway CleanupFinalizer req).

Definition gfinalized s : Prop := finalized (ccm_tenant s).

Lemma within_warn K gateway : within (changes K) (warnGatewayClassNotAccepted UseGatewayClass Recorder gateway).
Proof. unfold warnGatewayClassNotAccepted, gatewayClassClaimed. within_solve. Qed.

Lemma within_applyGatewayStatus status : within (changes (eq (storeKey Gateway req))) (applyGatewayStatus req status).
Proof.
  unfold applyGatewayStatus. eapply within_bind_yields; [apply _|apply yields_Get|within_solve|]. intros gateway Hk.
  case_bool_decide; [within_step|]. within_step; [|within_step]. apply within_StatusUpdate. by rewrite <- Hk.
Qed.

Lemma triple_applyGatewayStatus status : triple finalized (applyGatewayStatus req status) (λ _, finalized) finalized.
Proof.
  unfold applyGatewayStatus.
  eapply triple_bind; [eapply triple_yields, yields_Get; by eapply (triple_finalized_frame _ _ _ nothing); [intros []|apply within_Get]|].
  intros gateway. apply (triple_weaken (λ c, finalized c ∧ objKey gateway = req) _ (λ _, finalized) _ finalized _); [|by intros c [? ?]|done|done].
  apply triple_pure. intros Hk. case_bool_decide; [by apply triple_ret|]. eapply triple_bind.
  - apply triple_finalized_StatusUpdate. by rewrite <- Hk.
  - intros o. apply triple_ret. by intros c [_ ?].
Qed.

(** *** The finalizer *)

Lemma triple_gateway_frame {A} (m : M CCM A) K' : within (acts nothing K') m → triple gfinalized m (λ _, gfinalized) gfinalized.
Proof.
  apply triple_within. intros s s' [Hc _] Hs. eapply finalized_frame; [exact Hc|intros []|exact Hs].
Qed.

Lemma triple_reconcileGateway gateway : objKey gateway = req →
  triple gfinalized (reconcileGateway ClusterName toUnstructured decode gateway) (λ _, gfinalized) gfinalized.
Proof.
  intros Hk. unfold reconcileGateway. eapply (triple_bind _ (λ _, gfinalized)).
  { apply (triple_gateway_frame _ (λ _, True)). within_step. apply within_reconcileSourceForRoute; [by intros ref ?%elem_of_nil|done]. }
  intros _. eapply (triple_bind _ (λ _, gfinalized)); [apply (triple_lb_frame finalized)|]. intros route.
  unfold copyGatewayStatus. repeat case_bool_decide; try (by apply triple_ret). destruct (decode _); [|by intros s Hs]. rewrite Hk.
  apply (triple_tenant finalized _ (λ _, finalized)), triple_retry, triple_applyGatewayStatus.
Qed.

Lemma triple_gateway_active gateway : objKey gateway = req → CleanupFinalizer ∈ om_Finalizers (gw_Meta gateway) →
  triple gfinalized
    (gateway ← inTenant (addCleanupFinalizer gateway); _ ← reconcileGateway ClusterName toUnstructured decode gateway;
     _ ← inTenant (countManaged (O:=Gateway) req.1); mret ([] : list string))
    (λ _, gfinalized) gfinalized.
Proof.
  intros Hk Hin. rewrite addCleanupFinalizer_there by done.
  eapply (triple_bind _ (λ gateway' s, gfinalized s ∧ gateway' = gateway)); [by intros s Hs|]. intros gateway'.
  apply triple_pure. intros ->. eapply (triple_bind _ (λ _, gfinalized)); [by apply triple_reconcileGateway|]. intros _.
  apply (triple_gateway_frame _ (λ _, True)). within_step; [|within_step]. apply within_inTenant. unfold countManaged. within_solve.
Qed.

Lemma triple_gateway_cleanup gateway :
  triple (λ s, truthful (ccm_lb s) ∧ gfinalized s) (cleanupGateway ClusterName gateway)
    (λ _ s, gone Route (ClusterName, om_UID (gw_Meta gateway)) (ccm_lb s)) gfinalized.
Proof. apply triple_releaseRoute. Qed.

Lemma gateway_keeps_finalizer s gateway : truthful (ccm_lb s) → findObject Gateway (ccm_tenant s) req = Some gateway →
  CleanupFinalizer ∈ om_Finalizers (gw_Meta gateway) →
  let s' := (reconcileReq s).2 in gfinalized s' ∨ gone Route (ClusterName, om_UID (gw_Meta gateway)) (ccm_lb s').
Proof.
  intros Ht Hf Hin. pose proof (findObject_key _ _ _ Hf) as Hk. assert (gfinalized s) as Hfin by (by exists gateway).
  unfold Reconcile. destruct (Get Gateway req (ccm_tenant s)) as [r c] eqn:Hg.
  set (s1 := {| s with ccm_tenant := c |}). assert (gfinalized s1) as Hf1.
  { eapply finalized_objects, Hfin. by apply existing_spec in Hg as (_ & Ho & _). }
  assert (∀ A (m : M CCM A), triple gfinalized m (λ _, gfinalized) gfinalized → gfinalized (m s1).2) as Hkeep.
  { intros A m Hm. specialize (Hm s1 Hf1). by destruct (m s1) as [[]]. }
  destruct r as [o|e| |].
  - rewrite (bind_run _ _ _ _ _ (inTenant_eval _ s _ _ (try_eval _ _ _ _ Hg))). fold s1. apply Get_Ret in Hg as [Hg _]. rewrite Hf in Hg. injection Hg as <-.
    destruct (om_Deleting (gw_Meta gateway)).
    + rewrite (bool_decide_eq_true_2 _ Hin : ContainsFinalizer (gw_Meta gateway) _ = true). simpl.
      pose proof (triple_gateway_cleanup gateway s1 (conj Ht Hf1)) as Hc.
      destruct (cleanupGateway ClusterName gateway s1) as [r s2] eqn:Hr. rewrite (bind_run _ _ _ _ _ Hr). destruct r; simpl; auto.
    + left. destruct (shouldReconcile UseGatewayClass gateway); simpl; apply Hkeep.
      * by apply triple_gateway_active.
      * apply (triple_gateway_frame _ nothing), within_inTenant, within_warn.
  - rewrite (bind_run _ _ _ _ _ (inTenant_eval _ s _ _ (try_Fail _ _ _ _ Hg))). left. by destruct (IsNotFound e).
  - left. unfold inTenant, zoom, try, mbind, M_bind. simpl. by rewrite Hg.
  - left. unfold inTenant, zoom, try, mbind, M_bind. simpl. by rewrite Hg.
Qed.

(** *** What is written *)

(** The Route named by the UID of the stored Gateway *)
Definition ofGateway s (k : ObjectKey) : Prop :=
  ∃ gateway, findObject Gateway (ccm_tenant s) req = Some gateway ∧ k = storeKey Route (ClusterName, om_UID (gw_Meta gateway)).

Context (converted : ∀ o u, toUnstructured o = Ok u → om_UID (u_Meta u) = om_UID (gw_Meta o)).

Lemma within_reconcileGateway K gateway : objKey gateway = req → K (storeKey Route (ClusterName, om_UID (gw_Meta gateway))) →
  within (acts (eq (storeKey Gateway req)) K) (reconcileGateway ClusterName toUnstructured decode gateway).
Proof.
  intros Hk HK. unfold reconcileGateway. within_step.
  { within_step. apply within_reconcileSourceForRoute; [by intros ref ?%elem_of_nil|]. intros u Hu. by rewrite (converted _ _ Hu). }
  within_step; [acts_solve|]. unfold copyGatewayStatus. acts_solve. rewrite Hk. apply within_applyGatewayStatus.
Qed.

Lemma ensureGateway_uid gateway c gateway' c' : findObject Gateway c (objKey gateway) = Some gateway →
  addCleanupFinalizer gateway c = (Ret gateway', c') → om_UID (gw_Meta gateway') = om_UID (gw_Meta gateway) ∧ objKey gateway' = objKey gateway.
Proof.
  intros Hf H. unfold addCleanupFinalizer in H. destruct (ContainsFinalizer _ _); minv; [done|].
  pose proof (yields_Update _ _ _ _ H) as Hk. apply Update_Ret in H as (old & Hold & -> & _).
  assert (Some old = Some gateway) as [= ->]; [|done]. rewrite <- Hold, <- Hf. done.
Qed.

Lemma within_cleanupGateway K gateway : objKey gateway = req → K (storeKey Route (ClusterName, om_UID (gw_Meta gateway))) →
  within (acts (eq (storeKey Gateway req)) K) (cleanupGateway ClusterName gateway).
Proof.
  intros Hk HK. unfold cleanupGateway. within_step; [apply within_inLB; within_step; by apply within_ccm_cleanupRoute|].
  apply within_inTenant, within_removeCleanupFinalizer. by rewrite Hk.
Qed.

Lemma acts_gateway_active s gateway K : findObject Gateway (ccm_tenant s) req = Some gateway →
  K (storeKey Route (ClusterName, om_UID (gw_Meta gateway))) →
  acts (eq (storeKey Gateway req)) K s
    ((gateway ← inTenant (addCleanupFinalizer gateway); _ ← reconcileGateway ClusterName toUnstructured decode gateway;
      _ ← inTenant (countManaged (O:=Gateway) req.1); mret ([] : list string)) s).2.
Proof.
  intros Hf HK. pose proof (findObject_key _ _ _ Hf) as Hk.
  assert (within (changes (eq (storeKey Gateway req))) (addCleanupFinalizer (O:=Gateway) gateway)) as He.
  { apply within_addCleanupFinalizer. by rewrite Hk. }
  specialize (He (ccm_tenant s)). destruct (addCleanupFinalizer gateway (ccm_tenant s)) as [r c] eqn:Hr. simpl in He.
  rewrite (bind_run _ _ _ _ _ (inTenant_eval _ _ _ _ Hr)). set (s1 := {| s with ccm_tenant := c |}).
  assert (acts (eq (storeKey Gateway req)) K s s1) as H1 by (by split).
  destruct r as [gateway'|e| |]; [|done..]. etrans; [exact H1|].
  apply ensureGateway_uid in Hr as [Hu Hk']; [|by rewrite Hk].
  refine (within_bind _ _ _ _ _ s1); [|intros _; unfold countManaged; acts_solve].
  apply within_reconcileGateway; [congruence|by rewrite Hu].
Qed.

Lemma acts_gateway s : acts (eq (storeKey Gateway req)) (ofGateway s) s (reconcileReq s).2.
Proof.
  unfold Reconcile. destruct (Get Gateway req (ccm_tenant s)) as [r c] eqn:Hg. pose proof Hg as (Hc & Ho & _)%existing_spec.
  set (s1 := {| s with ccm_tenant := c |}).
  assert (acts (eq (storeKey Gateway req)) (ofGateway s) s s1) as H1 by (split; [eapply changes_weaken, Hc; by intros k []|done]).
  destruct r as [gateway|e| |].
  - rewrite (bind_run _ _ _ _ _ (inTenant_eval _ s _ _ (try_eval _ _ _ _ Hg))). fold s1. etrans; [exact H1|].
    apply Get_Ret in Hg as [Hf _]. pose proof (findObject_key _ _ _ Hf) as Hk.
    assert (ofGateway s (storeKey Route (ClusterName, om_UID (gw_Meta gateway)))) as HK by (by exists gateway).
    destruct (om_Deleting _); [|destruct (shouldReconcile _ _); simpl].
    + revert s1 H1. intros s1 _. generalize s1. change (within (acts (eq (storeKey Gateway req)) (ofGateway s))
        (_ ← when (ContainsFinalizer (gw_Meta gateway) CleanupFinalizer) (cleanupGateway ClusterName gateway); mret ([] : list string))).
      within_step; [within_step; by apply within_cleanupGateway|within_step].
    + apply acts_gateway_active; [|done]. by rewrite (findObject_objects (ccm_tenant s)).
    + apply (within_inTenant (eq (storeKey Gateway req)) (ofGateway s)), within_warn.
  - rewrite (bind_run _ _ _ _ _ (inTenant_eval _ s _ _ (try_Fail _ _ _ _ Hg))). by destruct (IsNotFound e).
  - unfold inTenant, zoom, try, mbind, M_bind. simpl. by rewrite Hg.
  - unfold inTenant, zoom, try, mbind, M_bind. simpl. by rewrite Hg.
Qed.
End gateway.

(** ** Properties *)

Section theorems.
Context (ClusterName : string) (UseGatewayClass : bool).
Context (toUnstructured : Gateway -> result Unstructured) (decode : string -> result (list Condition)) (Recorder : bool).
Context (req : NamespacedName).

(** The finalizer is safe: a Gateway with the cleanup finalizer keeps it through every
    reconcile, failing or not, unless its Route in the management cluster is deleted. *)
Theorem gateway_finalizer_safe (s : CCM) (gateway : Gateway) :
  truthful (ccm_lb s) → findObject Gateway (ccm_tenant s) req = Some gateway →
  CleanupFinalizer ∈ om_Finalizers (gw_Meta gateway) →
  let s' := (Reconcile ClusterName UseGatewayClass toUnstructured decode Recorder req s).2 in
  finalized Gateway CleanupFinalizer req (ccm_tenant s') ∨ gone Route (ClusterName, om_UID (gw_Meta gateway)) (ccm_lb s').
Proof. apply gateway_keeps_finalizer. Qed.

(** Whatever the two API servers answer, a reconcile of a Gateway writes nothing of the tenant
    but the Gateway, and nothing of the management cluster but the Route named by its UID. *)
Theorem gateway_isolated (s : CCM) :
  (∀ o u, toUnstructured o = Ok u → om_UID (u_Meta u) = om_UID (gw_Meta o)) →
  acts (eq (storeKey Gateway req)) (ofGateway ClusterName req s) s
    (Reconcile ClusterName UseGatewayClass toUnstructured decode Recorder req s).2.
Proof. intros Hu. by apply acts_gateway. Qed.

(** The notes the owner of a Gateway out of scope gets *)
Definition expectedNotes (c : Cluster) (gateway : Gateway) : list string :=
  let class := gw_GatewayClassName gateway in
  if negb Recorder || negb (droppedOnGatewayClass UseGatewayClass gateway) then []
  else if bool_decide (CleanupFinalizer ∈ om_Finalizers (gw_Meta gateway)) then [removedNote class]
  else if bool_decide (class ≠ "" ∧ is_Some (findObject GatewayClass c ("", class))) then []
  else [ignoredNote class].

(** When the calls go through, the reconcile of a Gateway out of scope changes nothing and
    warns its owner once: when KubeLB had adopted the Gateway, or when no GatewayClass of
    that name says that another controller serves it. *)
Theorem gateway_class_warning (s : CCM) (gateway : Gateway) :
  cl_faults (ccm_tenant s) = [] → findObject Gateway (ccm_tenant s) req = Some gateway →
  om_Deleting (gw_Meta gateway) = false → shouldReconcile UseGatewayClass gateway = false →
  Reconcile ClusterName UseGatewayClass toUnstructured decode Recorder req s = (Ret (expectedNotes (ccm_tenant s) gateway), s).
Proof.
  intros Hno Hf Hd Hs. unfold Reconcile.
  erewrite bind_eval by (eapply inTenant_read, try_eval; rewrite Get_eval, Hf by done; reflexivity). cbv beta iota.
  rewrite Hd, Hs. simpl. apply inTenant_read. unfold warnGatewayClassNotAccepted, expectedNotes.
  destruct (negb Recorder || _); [done|]. unfold ContainsFinalizer. case_bool_decide as Ha; simpl; [done|].
  unfold gatewayClassClaimed. case_bool_decide as Hc; simpl.
  { rewrite bool_decide_eq_false_2; [done|]. by intros [? _]. }
  destruct (findObject GatewayClass (ccm_tenant s) ("", gw_GatewayClassName gateway)) as [class|] eqn:Hg.
  - erewrite bind_eval; [|erewrite bind_eval by (eapply try_eval; rewrite Get_eval, Hg by done; reflexivity); reflexivity].
    cbv beta. rewrite bool_decide_eq_true_2 by (by split; [|eexists]). done.
  - erewrite bind_eval; [|erewrite bind_eval by (eapply try_Fail; rewrite Get_eval, Hg by done; reflexivity); reflexivity].
    cbv beta. rewrite bool_decide_eq_false_2 by (by intros [_ [? ?]]). done.
Qed.

(** The event filter loses nothing: when it drops an update, the new Gateway is not served,
    and it is not KubeLB's to comment on, or its spec and its deletion did not move. *)
Theorem gateway_filter_complete (old new : Gateway) :
  resourceFilter UseGatewayClass (UpdateEvent (OGateway old) (OGateway new)) = false →
  shouldReconcile UseGatewayClass new = false ∧
  (droppedOnGatewayClass UseGatewayClass new = false ∨
   gw_GatewayClassName old = gw_GatewayClassName new ∧ gw_Listeners old = gw_Listeners new ∧
   om_Deleting (gw_Meta old) = om_Deleting (gw_Meta new)).
Proof.
  unfold resourceFilter, generationMoved, shouldObserve. simpl. destruct (shouldReconcile _ new); [done|]. intros H. split; [done|].
  simpl in H. destruct (droppedOnGatewayClass _ new); [right|by left]. simpl in H. by case_bool_decide.
Qed.
End theorems.

(** ** Concrete runs *)

Definition sampleConditions : list Condition :=
  [{| cond_Type := "Programmed"; cond_Status := "True"; cond_Reason := "Programmed"; cond_Message := "" |}].
Definition sampleGatewayDecode (raw : string) : result (list Condition) :=
  if bool_decide (raw = "published") then Ok sampleConditions else Err "unexpected document".
Definition sampleGatewayUnstructured (gateway : Gateway) : result Unstructured :=
  Ok {| u_APIVersion := "gateway.networking.k8s.io/v1"; u_Kind := "Gateway"; u_Meta := gw_Meta gateway; u_Spec := "" |}.

Definition tenantGateway (class : string) : Gateway :=
  {| gw_Meta := {| (objectMeta "kubelb" "apps" "uid-7" None None) with om_Finalizers := [CleanupFinalizer] |};
     gw_GatewayClassName := class; gw_Listeners := []; gw_Conditions := [] |}.
Definition sampleGateways (class : string) : CCM :=
  {| ccm_tenant := sampleCluster [OGateway (tenantGateway class)]; ccm_lb := sampleCluster [ORoute (publishedRoute "uid-7")] |}.

#[local] Abbreviation pass := (Reconcile "tenant-a" true sampleGatewayUnstructured sampleGatewayDecode true ("apps", "kubelb")).

Lemma gateway_finalizer_safe_witness :
  let s' := (pass (sampleGateways "kubelb")).2 in
  finalized Gateway CleanupFinalizer ("apps", "kubelb") (ccm_tenant s') ∨ gone Route ("tenant-a", "uid-7") (ccm_lb s').
Proof.
  apply (gateway_finalizer_safe "tenant-a" true sampleGatewayUnstructured sampleGatewayDecode true ("apps", "kubelb")
           (sampleGateways "kubelb") (tenantGateway "kubelb")).
  - constructor.
  - vm_compute. reflexivity.
  - by left.
Defined.

Lemma gateway_isolated_witness :
  acts (eq (storeKey Gateway ("apps", "kubelb"))) (ofGateway "tenant-a" ("apps", "kubelb") (sampleGateways "kubelb"))
    (sampleGateways "kubelb") (pass (sampleGateways "kubelb")).2.
Proof. apply gateway_isolated. by intros o u [= <-]. Defined.

Lemma gateway_class_warning_witness :
  pass (sampleGateways "other") = (Ret [removedNote "other"], sampleGateways "other").
Proof.
  apply (gateway_class_warning "tenant-a" true sampleGatewayUnstructured sampleGatewayDecode true ("apps", "kubelb")
           (sampleGateways "other") (tenantGateway "other")).
  - reflexivity.
  - vm_compute. reflexivity.
  - reflexivity.
  - reflexivity.
Defined.

Lemma gateway_filter_complete_witness :
  shouldReconcile true (tenantGateway "other") = false ∧
  (droppedOnGatewayClass true (tenantGateway "other") = false ∨
   "other" = "other" ∧ ([] : list Listener) = [] ∧ false = false).
Proof. by apply (gateway_filter_complete true (tenantGateway "other") (tenantGateway "other")). Defined.

Example gateway_pass :
  let '(r, s') := pass (sampleGateways "kubelb") in
  r = Ret [] ∧ gw_Conditions <$> findObject Gateway (ccm_tenant s') ("apps", "kubelb") = Some sampleConditions.
Proof. vm_compute. by split. Qed.

(** The owner of an adopted Gateway that names another class is told that its load balancer
    configuration is being removed; pass after pass the Route stays. *)
Example removed_gateway_keeps_its_route :
  let s' := (pass (pass (sampleGateways "other")).2).2 in
  (pass s').1 = Ret [removedNote "other"] ∧ is_Some (findObject Route (ccm_lb s') ("tenant-a", "uid-7")).
Proof. vm_compute. split; [done|by eexists]. Qed.
