(* ===== verification/SyncSecrets.v ===== *)
(** * SyncSecrets

    Three controllers hand a Secret of a tenant to the management cluster:
    [SecretConversion] copies a labelled Secret into a SyncSecret beside it,
    [TenantSyncSecret] copies a SyncSecret of the tenant into one of the management cluster
    that is named by its UID, and [ManagerSyncSecret] makes a Secret of that, named by the
    UID again. The labels of the origin lead the manager back to it.

    This file holds [CreateOrUpdateSyncSecret] of
    [internal/controllers/ccm/sync_secret_controller.go] and the reasoning the three
    share. *)

From S2P Require Import Prelude GoStrings Api GatewayApi Names Kube Finalizers Services RouteResources Manager CCM.
Local Open Scope go_scope.

(** The labels of an object with those that lead back to it *)
Definition withOrigin (m : ObjectMeta) : StrMap :=
  <[LabelOriginName := om_Name m]> (<[LabelOriginNamespace := om_Namespace m]> (entries (om_Labels m))).

(** [CreateOrUpdateSyncSecret] *)
Definition sameSyncSecret (existingObj obj : SyncSecret) : bool :=
  mapsEqual (syn_Data existingObj) (syn_Data obj) && mapsEqual (syn_StringData existingObj) (syn_StringData obj) &&
  bool_decide (syn_Type existingObj = syn_Type obj) &&
  mapsEqual (om_Labels (syn_Meta existingObj)) (om_Labels (syn_Meta obj)) &&
  mapsEqual (om_Annotations (syn_Meta existingObj)) (om_Annotations (syn_Meta obj)).

(** The function that is retried on conflicts, from the latest version *)
Definition updateSyncSecret (obj : SyncSecret) : M Cluster unit :=
  existingObj ← Get SyncSecret (objKey obj);
  _ ← Update {| existingObj with
         syn_Data := syn_Data obj; syn_StringData := syn_StringData obj; syn_Type := syn_Type obj;
         syn_Meta := {| (syn_Meta existingObj) with om_Labels := om_Labels (syn_Meta obj);
                                                    om_Annotations := om_Annotations (syn_Meta obj) |} |};
  mret tt.

Definition updateSyncSecretIfNeeded (existingObj obj : SyncSecret) : M Cluster unit :=
  if sameSyncSecret existingObj obj then mret tt
  else wrap "failed to update SyncSecret" (RetryOnConflict (updateSyncSecret obj)).

Definition CreateOrUpdateSyncSecret (obj : SyncSecret) : M Cluster unit :=
  found ← wrap "failed to get SyncSecret" (GetIfExists SyncSecret (objKey obj));
  match found with
  | Some existingObj => updateSyncSecretIfNeeded existingObj obj
  | None =>
      r ← try (Create obj);
      match r with
      | inl _ => mret tt
      | inr err =>
          if IsAlreadyExists err then
            existingObj ← wrap "failed to get SyncSecret after conflict" (Get SyncSecret (objKey obj));
            updateSyncSecretIfNeeded existingObj obj
          else raise (Wrap "failed to create SyncSecret" err)
      end
  end.

(** ** What the shared programs store *)

Lemma within_updateSyncSecret (K : ObjectKey -> Prop) obj : K (storeKey SyncSecret (objKey obj)) → within (changes K) (updateSyncSecret obj).
Proof.
  intros HK. unfold updateSyncSecret. eapply within_bind_yields; [apply _|apply yields_Get|within_solve|].
  intros old Hk. within_step; [|within_step]. apply within_Update. rewrite <- Hk in HK. exact HK.
Qed.

Lemma within_CreateOrUpdateSyncSecret (K : ObjectKey -> Prop) obj : K (storeKey SyncSecret (objKey obj)) → within (changes K) (CreateOrUpdateSyncSecret obj).
Proof.
  intros HK. unfold CreateOrUpdateSyncSecret, updateSyncSecretIfNeeded. within_solve. all: by apply within_updateSyncSecret.
Qed.

(** The stored SyncSecret holds what was asked for; an empty map and none are the same. *)
Record providesSyncSecret (obj stored : SyncSecret) : Prop := {
  syn_data : entries (syn_Data stored) = entries (syn_Data obj);
  syn_string_data : entries (syn_StringData stored) = entries (syn_StringData obj);
  syn_type : syn_Type stored = syn_Type obj;
  syn_labels : entries (om_Labels (syn_Meta stored)) = entries (om_Labels (syn_Meta obj));
  syn_annotations : entries (om_Annotations (syn_Meta stored)) = entries (om_Annotations (syn_Meta obj));
}.

Lemma sameSyncSecret_provides old obj : sameSyncSecret old obj = true → providesSyncSecret obj old.
Proof.
  unfold sameSyncSecret, mapsEqual. intros H. repeat (apply andb_prop in H as [H ?]).
  repeat match goal with Hb : bool_decide _ = true |- _ => apply bool_decide_eq_true in Hb end. by split.
Qed.

Lemma updateSyncSecret_ok obj old c : cl_faults c = [] → well_formed c → findObject SyncSecret c (objKey obj) = Some old →
  ∃ ss c', updateSyncSecret obj c = (Ret tt, c') ∧ changes (eq (storeKey SyncSecret (objKey obj))) c c' ∧ cl_faults c' = [] ∧
    findObject SyncSecret c' (objKey obj) = Some ss ∧ providesSyncSecret obj ss ∧ om_Deleting (syn_Meta ss) = om_Deleting (syn_Meta old).
Proof.
  intros Hno Hw Hf. unfold updateSyncSecret. erewrite bind_eval by (rewrite Get_eval, Hf by done; reflexivity). cbv beta.
  set (o := {| old with syn_Data := _; syn_StringData := _; syn_Type := _; syn_Meta := _ |}). pose proof (findObject_key _ _ _ Hf) as Hk.
  assert (objKey o = objKey obj) as Hko by (rewrite <- Hk; done).
  destruct (Update_stored c Hno o old) as (c' & Hu & Hch & Hno' & Hf').
  - by rewrite Hko.
  - by right.
  - by pose proof (findObject_meta _ _ _ Hw Hf) as [Hd _].
  - exists (updated old o), c'. rewrite Hko in *. split_and!; try done; [by rewrite (bind_eval _ _ _ _ _ Hu)|].
    split; try done; simpl; by rewrite entries_wireMap.
Qed.

Lemma CreateOrUpdateSyncSecret_ok obj c : cl_faults c = [] → well_formed c →
  (∀ old, findObject SyncSecret c (objKey obj) = Some old → om_Deleting (syn_Meta old) = false) →
  ∃ ss c', CreateOrUpdateSyncSecret obj c = (Ret tt, c') ∧ changes (eq (storeKey SyncSecret (objKey obj))) c c' ∧ cl_faults c' = [] ∧
    findObject SyncSecret c' (objKey obj) = Some ss ∧ providesSyncSecret obj ss ∧ om_Deleting (syn_Meta ss) = false.
Proof.
  intros Hno Hw Hd. unfold CreateOrUpdateSyncSecret. erewrite bind_eval by (by eapply wrap_eval, GetIfExists_eval). cbv beta.
  destruct (findObject SyncSecret c (objKey obj)) as [old|] eqn:Hf.
  - specialize (Hd old eq_refl). unfold updateSyncSecretIfNeeded. destruct (sameSyncSecret old obj) eqn:Hs.
    + exists old, c. split_and!; [done..|by apply sameSyncSecret_provides|done].
    + destruct (updateSyncSecret_ok obj old c Hno Hw Hf) as (ss & c' & Hu & Hc & Hno' & Hf' & Hp & Hd').
      exists ss, c'. split_and!; [by apply wrap_eval, retry_eval|done..|congruence].
  - destruct (Create_stored c Hno obj Hf) as (c' & Hc & Hch & Hno' & Hf').
    exists (created c obj), c'. split_and!; [by erewrite bind_eval by (by eapply try_eval)|done..| |done].
    split; try done; simpl; by rewrite entries_wireMap.
Qed.

Lemma triple_delete_then_release (O D : Type) `{!Resource O, !Resource D} req key p (o : O) : storeKey D key ≠ storeKey O req → objKey o = req →
  triple (waiting O CleanupFinalizer req) (_ ← wrap p (DeleteIgnoreNotFound D key); removeCleanupFinalizer o)
    (λ _, gone D key) (finalized O CleanupFinalizer req).
Proof.
  intros Hne Hk. eapply (triple_bind _ (λ _ c, waiting O CleanupFinalizer req c ∧ gone D key c)).
  - apply triple_wrap. eapply triple_weaken; [apply (triple_waiting_delete O CleanupFinalizer req D (λ _, True) key Hne)|..]; [done|by split|by intros _ c (? & _ & ?)|done].
  - intros _. unfold removeCleanupFinalizer. eapply triple_bind; [apply triple_wrap, (triple_release O CleanupFinalizer req (gone D key))|intros; by apply triple_ret].
    intros c c' Hc Hg. eapply gone_frame; [exact Hc| |exact Hg]. unfold objKey in *. rewrite objMeta_setMeta. simpl.
    intros Heq. apply Hne. by rewrite <- Heq, <- Hk.
Qed.
