(* ===== verification/SecretConversion.v ===== *)
(** * From Secrets to SyncSecrets

    [internal/controllers/ccm/secret_conversion_controller.go], in the tenant's cluster. *)

From S2P Require Import Prelude GoStrings Api GatewayApi Names Kube Finalizers Services RouteResources Manager CCM SyncSecrets.
Local Open Scope go_scope.

Definition reconcile (secret : Secret) : M Cluster unit :=
  let m := sec_Meta secret in
  CreateOrUpdateSyncSecret
    {| syn_Meta := objectMeta (om_Name m) (om_Namespace m) "" (Some (withOrigin m)) None;
       syn_Immutable := sec_Immutable secret; syn_Data := sec_Data secret; syn_StringData := sec_StringData secret;
       syn_Type := sec_Type secret; syn_Status := emptyPhaseStatus |}.

Definition cleanup (object : Secret) : M Cluster unit :=
  let m := sec_Meta object in
  _ ← wrap ("failed to delete Sync Secret " ⊕ om_Name m ⊕ " against " ⊕ om_Name m) (DeleteIgnoreNotFound SyncSecret (objKey object));
  removeCleanupFinalizer object.

Definition Reconcile (req : NamespacedName) : M Cluster unit :=
  r ← try (Get Secret req);
  match r with
  | inr err => if IsNotFound err then mret tt else raise err
  | inl resource =>
      if om_Deleting (sec_Meta resource)
      then when (ContainsFinalizer (sec_Meta resource) CleanupFinalizer) (cleanup resource)
      else resource ← addCleanupFinalizer resource; reconcile resource
  end.

(** The filter on the events of Secrets *)
Definition predicate : Event -> bool := ByLabel LabelManagedBy LabelControllerName.

(** ** What a reconcile keeps and leaves *)

Section secret.
Context (req : NamespacedName).
#[local] Abbreviation finalized := (finalized Secret CleanupFinalizer req).
#[local] Abbreviation waiting := (waiting Secret CleanupFinalizer req).

Lemma within_convert (K : ObjectKey -> Prop) secret : objKey secret = req → K (storeKey SyncSecret req) → within (changes K) (reconcile secret).
Proof. intros <- HK. unfold reconcile. by apply within_CreateOrUpdateSyncSecret. Qed.

Lemma keeps_finalizer c secret : truthful c → findObject Secret c req = Some secret → CleanupFinalizer ∈ om_Finalizers (sec_Meta secret) →
  let c' := (Reconcile req c).2 in finalized c' ∨ gone SyncSecret req c'.
Proof.
  intros Ht Hf Hin. pose proof (findObject_key _ _ _ Hf) as Hk. unfold Reconcile.
  apply (triple_end (λ c, waiting c ∧ findObject Secret c req = Some secret) _ (λ _ c, finalized c ∨ gone SyncSecret req c) finalized);
    [|split; [split; [done|by exists secret]|done]|done|by left].
  eapply triple_bind; [apply triple_read|]. intros [resource|err].
    - apply triple_pure. intros ->.
      destruct (om_Deleting (sec_Meta secret)).
      + unfold ContainsFinalizer. rewrite bool_decide_eq_true_2 by done. simpl. unfold cleanup. rewrite Hk.
        eapply triple_weaken; [by apply (triple_delete_then_release Secret SyncSecret req req)|done|by right|done].
      + rewrite addCleanupFinalizer_there by done. eapply (triple_bind _ (λ r c, finalized c ∧ r = secret)); [by apply triple_ret; intros c0 [_ ?]|].
        intros r. apply triple_pure. intros ->.
        eapply triple_weaken; [apply (triple_finalized_frame Secret CleanupFinalizer req (eq (storeKey SyncSecret req))); [done|by apply within_convert]|done|by left|done].
    - destruct (IsNotFound err); [apply triple_ret; intros c' [[_ ?] _]; by left|by intros c' [[_ ?] _]].
Qed.

Lemma convert_ok secret c : cl_faults c = [] → well_formed c → findObject Secret c req = Some secret → om_Deleting (sec_Meta secret) = false →
  (∀ old, findObject SyncSecret c req = Some old → om_Deleting (syn_Meta old) = false) →
  ∃ ss c', Reconcile req c = (Ret tt, c') ∧ cl_faults c' = [] ∧ well_formed c' ∧ findObject SyncSecret c' req = Some ss ∧ om_Deleting (syn_Meta ss) = false ∧
    entries (syn_Data ss) = entries (sec_Data secret) ∧ entries (syn_StringData ss) = entries (sec_StringData secret) ∧
    syn_Type ss = sec_Type secret ∧ entries (om_Labels (syn_Meta ss)) = withOrigin (sec_Meta secret).
Proof.
  intros Hno Hw Hf Hd Hold. pose proof (findObject_key _ _ _ Hf) as Hk. unfold Reconcile.
  erewrite bind_eval by (eapply try_eval; rewrite Get_eval, Hf by done; reflexivity). cbv beta iota. rewrite Hd.
  destruct (addCleanupFinalizer_ok secret c) as (fs & c1 & H1 & Hc1 & Hno1 & _ & Hf1); [done|done|by rewrite Hk|done|].
  rewrite (bind_eval _ _ _ _ _ H1). cbv beta. unfold reconcile. set (obj := {| syn_Meta := _; syn_Immutable := _ |}).
  assert (objKey obj = req) as Hko by (rewrite <- Hk; done).
  destruct (CreateOrUpdateSyncSecret_ok obj c1 Hno1) as (ss & c2 & H2 & Hc2 & Hno2 & Hf2 & [] & Hd2).
  - by apply Hc1.
  - rewrite Hko, (findObject_frame _ _ _ _ Hc1); [done|]. by rewrite Hk.
  - rewrite Hko in *. exists ss, c2. split_and!; try done. by apply Hc2, Hc1.
Qed.
End secret.
