(* ===== verification/TenantSyncSecret.v ===== *)
(** * From the tenant to the management cluster

    [internal/controllers/ccm/sync_secret_controller.go]. *)

From S2P Require Import Prelude GoStrings Api GatewayApi Names Kube Finalizers Services RouteResources Manager CCM SyncSecrets.
Local Open Scope go_scope.

Section controller.
Context (ClusterName : string).

(** What the tenant's SyncSecret becomes in the management cluster *)
Definition exported (object : SyncSecret) : SyncSecret :=
  let m := syn_Meta object in
  {| object with syn_Meta :=
       {| m with om_Labels := Some (withOrigin m); om_Namespace := ClusterName; om_Finalizers := []; om_Name := om_UID m; om_UID := "" |} |}.

Definition reconcile (object : SyncSecret) : M CCM unit := inLB (CreateOrUpdateSyncSecret (exported object)).

Definition cleanup (object : SyncSecret) : M CCM unit :=
  let m := syn_Meta object in
  _ ← inLB (wrap ("failed to delete object " ⊕ om_Name m ⊕ " from LB cluster") (DeleteIgnoreNotFound SyncSecret (ClusterName, om_UID m)));
  inTenant (removeCleanupFinalizer object).

Definition Reconcile (req : NamespacedName) : M CCM unit :=
  r ← inTenant (try (Get SyncSecret req));
  match r with
  | inr err => if IsNotFound err then mret tt else raise err
  | inl resource =>
      if om_Deleting (syn_Meta resource)
      then when (ContainsFinalizer (syn_Meta resource) CleanupFinalizer) (cleanup resource)
      else resource ← inTenant (addCleanupFinalizer resource); reconcile resource
  end.
End controller.

(** ** What a reconcile keeps and leaves *)

Section syncsecret.
Context (ClusterName : string) (req : NamespacedName).
#[local] Abbreviation finalized := (finalized SyncSecret CleanupFinalizer req).
Implicit Types (s : CCM) (object : SyncSecret).

Definition tfinalized s : Prop := finalized (ccm_tenant s).

Lemma objKey_exported object : objKey (exported ClusterName object) = (ClusterName, om_UID (syn_Meta object)).
Proof. done. Qed.

Lemma triple_export_cleanup object :
  triple (λ s, truthful (ccm_lb s) ∧ tfinalized s) (cleanup ClusterName object)
    (λ _ s, gone SyncSecret (ClusterName, om_UID (syn_Meta object)) (ccm_lb s)) tfinalized.
Proof.
  unfold cleanup. set (key := (ClusterName, om_UID (syn_Meta object))).
  eapply (triple_bind _ (λ _ s, gone SyncSecret key (ccm_lb s) ∧ tfinalized s)).
  - intros s [Ht Hf]. unfold inLB, zoom. simpl.
    destruct (wrap _ (DeleteIgnoreNotFound SyncSecret key) (ccm_lb s)) as [[u|e| |] c] eqn:Hr; try done.
    apply wrap_Ret in Hr. split; [by eapply DeleteIgnoreNotFound_gone|done].
  - intros _. eapply triple_weaken; [apply (triple_inTenant finalized (gone SyncSecret key))|..].
    { unfold removeCleanupFinalizer. eapply triple_bind; [apply triple_wrap, triple_drop|]. intros o'. by apply (triple_ret _ (λ _ _, True)). }
    { by intros s [? ?]. }
    { by intros o' s [_ ?]. }
    { done. }
Qed.

Lemma keeps_finalizer_exporting s object : truthful (ccm_lb s) → findObject SyncSecret (ccm_tenant s) req = Some object →
  CleanupFinalizer ∈ om_Finalizers (syn_Meta object) →
  let s' := (Reconcile ClusterName req s).2 in tfinalized s' ∨ gone SyncSecret (ClusterName, om_UID (syn_Meta object)) (ccm_lb s').
Proof.
  intros Ht Hf Hin. pose proof (findObject_key _ _ _ Hf) as Hk. unfold Reconcile.
  apply (triple_end (λ s, findObject SyncSecret (ccm_tenant s) req = Some object ∧ truthful (ccm_lb s)) _
    (λ _ s, tfinalized s ∨ gone SyncSecret (ClusterName, om_UID (syn_Meta object)) (ccm_lb s)) tfinalized); [|done|done|by left].
  eapply (triple_bind _ (λ r s, match r with inl o => (truthful (ccm_lb s) ∧ tfinalized s) ∧ o = object | inr _ => tfinalized s end)).
  - intros s1 [Hf1 Ht1]. unfold inTenant, zoom, try. simpl. destruct (Get SyncSecret req (ccm_tenant s1)) as [r c] eqn:Hg.
    assert (tfinalized {| s1 with ccm_tenant := c |}) as Hfin.
    { apply (finalized_objects SyncSecret CleanupFinalizer req (ccm_tenant s1)); [by apply existing_spec in Hg as (_ & ? & _)|by exists object]. }
    destruct r as [o|e| |]; try done. split; [done|]. apply Get_Ret in Hg as [Hg _]. congruence.
  - intros [o|err]; [|destruct (IsNotFound err); [apply triple_ret; by left|by intros s1 ?]].
    apply triple_pure. intros ->. destruct (om_Deleting (syn_Meta object)).
    + unfold ContainsFinalizer. rewrite bool_decide_eq_true_2 by done. simpl.
      eapply triple_weaken; [apply triple_export_cleanup|done|by right|done].
    + rewrite addCleanupFinalizer_there by done. eapply (triple_bind _ (λ r s, tfinalized s ∧ r = object)); [by intros s1 [_ ?]|].
      intros r. apply triple_pure. intros ->. unfold reconcile.
      eapply triple_weaken; [apply (triple_lb_frame finalized)|done|by left|done].
Qed.

Lemma export_ok object s : cl_faults (ccm_tenant s) = [] → cl_faults (ccm_lb s) = [] → well_formed (ccm_tenant s) → well_formed (ccm_lb s) →
  findObject SyncSecret (ccm_tenant s) req = Some object → om_Deleting (syn_Meta object) = false →
  let key := (ClusterName, om_UID (syn_Meta object)) in
  (∀ old, findObject SyncSecret (ccm_lb s) key = Some old → om_Deleting (syn_Meta old) = false) →
  ∃ ss s', Reconcile ClusterName req s = (Ret tt, s') ∧ cl_faults (ccm_lb s') = [] ∧ well_formed (ccm_lb s') ∧
    changes (eq (storeKey SyncSecret key)) (ccm_lb s) (ccm_lb s') ∧
    findObject SyncSecret (ccm_lb s') key = Some ss ∧ om_Deleting (syn_Meta ss) = false ∧
    entries (syn_Data ss) = entries (syn_Data object) ∧ entries (syn_StringData ss) = entries (syn_StringData object) ∧
    syn_Type ss = syn_Type object ∧ entries (om_Labels (syn_Meta ss)) = withOrigin (syn_Meta object).
Proof.
  intros Ht Hl Hwt Hwl Hf Hd key Hold. pose proof (findObject_key _ _ _ Hf) as Hk. unfold Reconcile.
  erewrite bind_eval by (eapply inTenant_read, try_eval; rewrite Get_eval, Hf by done; reflexivity). cbv beta iota. rewrite Hd.
  destruct (addCleanupFinalizer_ok object (ccm_tenant s)) as (fs & c1 & H1 & _); [done|done|by rewrite Hk|done|].
  rewrite (bind_eval _ _ _ _ _ (inTenant_eval _ _ _ _ H1)). cbv beta. unfold reconcile.
  destruct (CreateOrUpdateSyncSecret_ok (exported ClusterName (finalizedAs object fs)) (ccm_lb s) Hl Hwl) as (ss & c2 & H2 & Hc2 & Hno2 & Hf2 & [] & Hd2).
  { by rewrite objKey_exported. }
  rewrite objKey_exported in *. exists ss, {| ccm_tenant := c1; ccm_lb := c2 |}. split_and!; try done.
  - by apply (inLB_eval _ {| s with ccm_tenant := c1 |}).
  - by apply Hc2.
Qed.
End syncsecret.
