(* ===== verification/ManagerSyncSecret.v ===== *)
(** * From SyncSecrets to Secrets

    [internal/controllers/kubelb/sync_secret_controller.go], in the management cluster. *)

From S2P Require Import Prelude GoStrings Api GatewayApi Names Kube Finalizers Services RouteResources Manager CCM SyncSecrets.
Local Open Scope go_scope.

Definition SyncSecretPhaseTerminating : string := "Terminating".
Definition SyncSecretPhaseFailed : string := "Failed".
Definition SyncSecretPhaseSynced : string := "Synced".
Definition ConditionSynced : string := "Synced".

Section controller.
(** [meta.SetStatusCondition]; the kind and version of an object as the client left them *)
Context (SetStatusCondition : list Condition -> Condition -> list Condition) (typeOf : SyncSecret -> string * string).

(** The function that is retried on conflicts *)
Definition patchStatus (key : NamespacedName) (phase reason message : string) (reconcileErr : option Error) : M Cluster unit :=
  current ← Get SyncSecret key;
  let status :=
    {| ps_Phase := phase;
       ps_Conditions := SetStatusCondition (ps_Conditions (syn_Status current))
         {| cond_Type := ConditionSynced; cond_Status := match reconcileErr with None => "True" | Some _ => "False" end;
            cond_Reason := reason; cond_Message := message |} |} in
  if bool_decide (syn_Status current = status) then mret tt
  else _ ← StatusUpdate {| current with syn_Status := status |}; mret tt.

Definition updateSyncSecretStatus (ss : SyncSecret) (phase reason message : string) (reconcileErr : option Error) : M Cluster unit :=
  RetryOnConflict (patchStatus (objKey ss) phase reason message reconcileErr).

Definition sameSecret (existingObj obj : Secret) : bool :=
  mapsEqual (sec_Data existingObj) (sec_Data obj) && mapsEqual (sec_StringData existingObj) (sec_StringData obj) &&
  bool_decide (sec_Type existingObj = sec_Type obj) &&
  mapsEqual (om_Labels (sec_Meta existingObj)) (om_Labels (sec_Meta obj)) &&
  mapsEqual (om_Annotations (sec_Meta existingObj)) (om_Annotations (sec_Meta obj)).

Definition CreateOrUpdateSecret (obj : Secret) : M Cluster unit :=
  found ← wrap "failed to get Secret" (GetIfExists Secret (objKey obj));
  match found with
  | None => _ ← wrap "failed to create Secret" (Create obj); mret tt
  | Some existingObj =>
      if sameSecret existingObj obj then mret tt
      else
        _ ← wrap "failed to update Secret"
              (Update {| obj with sec_Meta := {| (sec_Meta obj) with om_UID := om_UID (sec_Meta existingObj) |} |});
        mret tt
  end.

(** The Secret of a SyncSecret; it is never made immutable. *)
Definition generated (object : SyncSecret) : Secret :=
  let m := syn_Meta object in
  {| sec_Meta := {| (objectMeta (om_UID m) (om_Namespace m) "" (om_Labels m) (om_Annotations m)) with
       om_OwnerReferences := [{| or_APIVersion := (typeOf object).1; or_Kind := (typeOf object).2; or_Name := om_Name m; or_UID := om_UID m |}] |};
     sec_Immutable := None; sec_Type := syn_Type object; sec_Data := syn_Data object; sec_StringData := syn_StringData object |}.

Definition reconcile (object : SyncSecret) : M Cluster unit := CreateOrUpdateSecret (generated object).

Definition cleanup (object : SyncSecret) : M Cluster unit :=
  let m := syn_Meta object in
  _ ← wrap ("failed to delete secret " ⊕ om_UID m ⊕ " from LB cluster") (DeleteIgnoreNotFound Secret (om_Namespace m, om_UID m));
  removeCleanupFinalizer object.

Definition Reconcile (req : NamespacedName) : M Cluster unit :=
  r ← try (Get SyncSecret req);
  match r with
  | inr err => if IsNotFound err then mret tt else raise err
  | inl resource =>
      if om_Deleting (syn_Meta resource)
      then
        when (ContainsFinalizer (syn_Meta resource) CleanupFinalizer)
          (_ ← try (updateSyncSecretStatus resource SyncSecretPhaseTerminating "Terminating" "SyncSecret is being deleted" None);
           cleanup resource)
      else
        resource ← addCleanupFinalizer resource;
        r ← try (reconcile resource);
        match r with
        | inr reconcileErr =>
            _ ← try (updateSyncSecretStatus resource SyncSecretPhaseFailed "SyncFailed" (ErrorString reconcileErr) (Some reconcileErr));
            raise reconcileErr
        | inl _ => updateSyncSecretStatus resource SyncSecretPhaseSynced "Synced" "Secret synced successfully" None
        end
  end.
End controller.

(** ** What a reconcile keeps and leaves *)

Section secret.
Context (SetStatusCondition : list Condition -> Condition -> list Condition) (typeOf : SyncSecret -> string * string) (req : NamespacedName).
#[local] Abbreviation finalized := (finalized SyncSecret CleanupFinalizer req).
#[local] Abbreviation waiting := (waiting SyncSecret CleanupFinalizer req).
Implicit Types (object : SyncSecret) (c : Cluster).

Lemma within_patchStatus phase reason message err :
  within (changes (eq (storeKey SyncSecret req))) (patchStatus SetStatusCondition req phase reason message err).
Proof.
  unfold patchStatus. eapply within_bind_yields; [apply _|apply yields_Get|within_solve|]. intros o Hk.
  case_bool_decide; [within_step|]. within_step; [|within_step]. apply within_StatusUpdate. by rewrite <- Hk.
Qed.

Lemma triple_patchStatus phase reason message err :
  triple finalized (patchStatus SetStatusCondition req phase reason message err) (λ _, finalized) finalized.
Proof.
  unfold patchStatus.
  eapply triple_bind; [eapply triple_yields, yields_Get; by eapply (triple_finalized_frame _ _ _ nothing); [intros []|apply within_Get]|].
  intros o. apply (triple_weaken (λ c, finalized c ∧ objKey o = req) _ (λ _, finalized) _ finalized _); [|by intros c [? ?]|done|done].
  apply triple_pure. intros Hk. case_bool_decide; [by apply triple_ret|]. eapply triple_bind.
  - apply triple_finalized_StatusUpdate. by rewrite <- Hk.
  - intros o'. apply triple_ret. by intros c [_ ?].
Qed.

Lemma triple_status object phase reason message err : objKey object = req →
  triple finalized (updateSyncSecretStatus SetStatusCondition object phase reason message err) (λ _, finalized) finalized.
Proof. intros Hk. unfold updateSyncSecretStatus. rewrite Hk. apply triple_retry, triple_patchStatus. Qed.

Lemma triple_status_waiting object phase reason message err : objKey object = req →
  triple waiting (try (updateSyncSecretStatus SetStatusCondition object phase reason message err)) (λ _, waiting) finalized.
Proof.
  intros Hk c [Ht Hf]. unfold try.
  assert (within (changes (eq (storeKey SyncSecret req))) (updateSyncSecretStatus SetStatusCondition object phase reason message err)) as Hw.
  { unfold updateSyncSecretStatus. rewrite Hk. within_step. apply within_patchStatus. }
  specialize (Hw c). pose proof (triple_status object phase reason message err Hk c Hf) as Hs.
  destruct (updateSyncSecretStatus _ _ _ _ _ _ c) as [[u|e| |] c1]; simpl in *; try done; split; try done; by eapply truthful_changes.
Qed.

Lemma within_generate (K : ObjectKey -> Prop) object : K (storeKey Secret (om_Namespace (syn_Meta object), om_UID (syn_Meta object))) →
  within (changes K) (reconcile typeOf object).
Proof. intros HK. unfold reconcile, CreateOrUpdateSecret. within_solve. Qed.

Lemma keeps_finalizer_generating c object : truthful c → findObject SyncSecret c req = Some object →
  CleanupFinalizer ∈ om_Finalizers (syn_Meta object) →
  let c' := (Reconcile SetStatusCondition typeOf req c).2 in
  finalized c' ∨ gone Secret (req.1, om_UID (syn_Meta object)) c'.
Proof.
  intros Ht Hf Hin. pose proof (findObject_key _ _ _ Hf) as Hk. unfold Reconcile.
  assert (om_Namespace (syn_Meta object) = req.1) as Hns by (by rewrite <- Hk).
  apply (triple_end (λ c, waiting c ∧ findObject SyncSecret c req = Some object) _
    (λ _ c, finalized c ∨ gone Secret (req.1, om_UID (syn_Meta object)) c) finalized); [|split; [split; [done|by exists object]|done]|done|by left].
  eapply triple_bind; [apply triple_read|]. intros [o|err].
  - apply triple_pure. intros ->. destruct (om_Deleting (syn_Meta object)).
    + unfold ContainsFinalizer. rewrite bool_decide_eq_true_2 by done. simpl.
      eapply (triple_bind _ (λ _, waiting)); [by apply triple_status_waiting|]. intros _. unfold cleanup. rewrite Hns.
      eapply triple_weaken; [by apply (triple_delete_then_release SyncSecret Secret req (req.1, om_UID (syn_Meta object)))|done|by right|done].
    + rewrite addCleanupFinalizer_there by done. eapply (triple_bind _ (λ r c, finalized c ∧ r = object)); [by apply triple_ret; intros c0 [_ ?]|].
      intros r. apply triple_pure. intros ->.
      eapply (triple_weaken _ _ (λ _, finalized)); [|done|by left|done]. eapply (triple_bind _ (λ _, finalized)).
      { apply (triple_finalized_frame SyncSecret CleanupFinalizer req (eq (storeKey Secret (om_Namespace (syn_Meta object), om_UID (syn_Meta object)))));
          [done|by apply within_try, within_generate]. }
      intros [u|err]; [by apply triple_status|].
      eapply (triple_bind _ (λ _, finalized)); [|by intros r c1 ?].
      intros c1 Hc1. unfold try. pose proof (triple_status object SyncSecretPhaseFailed "SyncFailed" (ErrorString err) (Some err) Hk c1 Hc1) as Hs.
      by destruct (updateSyncSecretStatus _ _ _ _ _ _ c1) as [[]].
  - destruct (IsNotFound err); [apply triple_ret; intros c' [[_ ?] _]; by left|by intros c' [[_ ?] _]].
Qed.

(** The generated Secret holds the data of the SyncSecret and its labels. *)
Record providesSecret (obj stored : Secret) : Prop := {
  sec_data : entries (sec_Data stored) = entries (sec_Data obj);
  sec_string_data : entries (sec_StringData stored) = entries (sec_StringData obj);
  sec_type : sec_Type stored = sec_Type obj;
  sec_labels : entries (om_Labels (sec_Meta stored)) = entries (om_Labels (sec_Meta obj));
}.

Lemma CreateOrUpdateSecret_ok obj c : cl_faults c = [] →
  (∀ old, findObject Secret c (objKey obj) = Some old → om_Deleting (sec_Meta old) = false) →
  ∃ sec c', CreateOrUpdateSecret obj c = (Ret tt, c') ∧ changes (eq (storeKey Secret (objKey obj))) c c' ∧ cl_faults c' = [] ∧
    findObject Secret c' (objKey obj) = Some sec ∧ providesSecret obj sec.
Proof.
  intros Hno Hd. unfold CreateOrUpdateSecret. erewrite bind_eval by (by eapply wrap_eval, GetIfExists_eval). cbv beta.
  destruct (findObject Secret c (objKey obj)) as [old|] eqn:Hf.
  - specialize (Hd old eq_refl). destruct (sameSecret old obj) eqn:Hs.
    + exists old, c. split_and!; [done..|]. unfold sameSecret, mapsEqual in Hs. repeat (apply andb_prop in Hs as [Hs ?]).
      repeat match goal with Hb : bool_decide _ = true |- _ => apply bool_decide_eq_true in Hb end. by split.
    + set (o := {| obj with sec_Meta := _ |}).
      destruct (Update_stored c Hno o old) as (c' & Hu & Hch & Hno' & Hf'); [done|by right|simpl; congruence|].
      change (objKey o) with (objKey obj) in *. exists (updated old o), c'.
      split_and!; [by erewrite bind_eval by (by apply wrap_eval)|done..|]. split; try done; simpl; by rewrite entries_wireMap.
  - destruct (Create_stored c Hno obj Hf) as (c' & Hc & Hch & Hno' & Hf'). exists (created c obj), c'.
    split_and!; [by erewrite bind_eval by (by apply wrap_eval)|done..|]. split; try done; simpl; by rewrite entries_wireMap.
Qed.

Lemma status_ok object phase reason message err c : cl_faults c = [] → findObject SyncSecret c req = Some object →
  ∃ c', updateSyncSecretStatus SetStatusCondition object phase reason message err c = (Ret tt, c') ∧
    changes (eq (storeKey SyncSecret req)) c c' ∧ cl_faults c' = [].
Proof.
  intros Hno Hf. pose proof (findObject_key _ _ _ Hf) as Hk. unfold updateSyncSecretStatus. rewrite Hk.
  assert (∃ c', patchStatus SetStatusCondition req phase reason message err c = (Ret tt, c') ∧
    changes (eq (storeKey SyncSecret req)) c c' ∧ cl_faults c' = []) as (c' & H & Hc & Hno').
  { unfold patchStatus. erewrite bind_eval by (rewrite Get_eval, Hf by done; reflexivity). cbv beta zeta. case_bool_decide; [by exists c|].
    set (o := {| object with syn_Status := _ |}).
    assert (objKey o = req) as Hko by (rewrite <- Hk; done).
    destruct (StatusUpdate_stored c Hno o object) as (c' & Hu & Hc & Hno' & _); [by rewrite Hko|].
    rewrite Hko in Hc. exists c'. by rewrite (bind_eval _ _ _ _ _ Hu). }
  exists c'. split_and!; [by apply retry_eval|done|done].
Qed.

Lemma generate_ok object c : cl_faults c = [] → well_formed c → findObject SyncSecret c req = Some object →
  om_Deleting (syn_Meta object) = false →
  let key := (req.1, om_UID (syn_Meta object)) in
  (∀ old, findObject Secret c key = Some old → om_Deleting (sec_Meta old) = false) →
  ∃ sec c', Reconcile SetStatusCondition typeOf req c = (Ret tt, c') ∧ cl_faults c' = [] ∧ well_formed c' ∧
    findObject Secret c' key = Some sec ∧
    entries (sec_Data sec) = entries (syn_Data object) ∧ entries (sec_StringData sec) = entries (syn_StringData object) ∧
    sec_Type sec = syn_Type object ∧ entries (om_Labels (sec_Meta sec)) = entries (om_Labels (syn_Meta object)).
Proof.
  intros Hno Hw Hf Hd key Hold. pose proof (findObject_key _ _ _ Hf) as Hk.
  assert (om_Namespace (syn_Meta object) = req.1) as Hns by (by rewrite <- Hk). unfold Reconcile.
  erewrite bind_eval by (eapply try_eval; rewrite Get_eval, Hf by done; reflexivity). cbv beta iota. rewrite Hd.
  destruct (addCleanupFinalizer_ok object c) as (fs & c1 & H1 & Hc1 & Hno1 & _ & Hf1); [done|done|by rewrite Hk|done|].
  rewrite (bind_eval _ _ _ _ _ H1). cbv beta. set (object1 := finalizedAs object fs) in *.
  assert (objKey (generated typeOf object1) = key) as Hkey by (unfold key; by rewrite <- Hns).
  destruct (CreateOrUpdateSecret_ok (generated typeOf object1) c1 Hno1) as (sec & c2 & H2 & Hc2 & Hno2 & Hf2 & []).
  { rewrite Hkey, (findObject_frame _ _ _ _ Hc1); done. }
  rewrite Hkey in *. unfold reconcile. rewrite (bind_eval _ _ _ _ _ (try_eval _ _ _ _ H2)). cbv beta iota.
  destruct (status_ok object1 SyncSecretPhaseSynced "Synced" "Secret synced successfully" None c2 Hno2) as (c3 & H3 & Hc3 & Hno3).
  { rewrite <- Hk, (findObject_frame _ _ _ _ Hc2); done. }
  exists sec, c3. split_and!; try done; [by apply Hc3, Hc2, Hc1|]. by rewrite (findObject_frame _ _ _ _ Hc3).
Qed.
End secret.
