(* ===== verification/SecretChain.v ===== *)
(** * The chain from a tenant's Secret to the manager's

    The three controllers of Secrets and SyncSecrets together. A Secret that was read has no
    [StringData]: the server folds it into [Data] when it is written. *)

From S2P Require Import Prelude GoStrings Api GatewayApi Names Kube Finalizers Services RouteResources Manager CCM SyncSecrets.
From S2P Require Import SecretConversion TenantSyncSecret ManagerSyncSecret.
Local Open Scope go_scope.

(** ** Properties *)

Section theorems.
Context (ClusterName : string) (SetStatusCondition : list Condition -> Condition -> list Condition) (typeOf : SyncSecret -> string * string).
Context (req : NamespacedName).

(** The finalizers of the chain are safe: a Secret, a SyncSecret of the tenant or one of the
    management cluster with the cleanup finalizer keeps it through every reconcile of its
    controller, failing or not, unless the copy made of it is deleted. *)
Theorem secret_finalizers_safe (s : CCM) :
  (∀ secret, truthful (ccm_tenant s) → findObject Secret (ccm_tenant s) req = Some secret →
     CleanupFinalizer ∈ om_Finalizers (sec_Meta secret) →
     let c' := (SecretConversion.Reconcile req (ccm_tenant s)).2 in finalized Secret CleanupFinalizer req c' ∨ gone SyncSecret req c') ∧
  (∀ object, truthful (ccm_lb s) → findObject SyncSecret (ccm_tenant s) req = Some object →
     CleanupFinalizer ∈ om_Finalizers (syn_Meta object) →
     let s' := (TenantSyncSecret.Reconcile ClusterName req s).2 in
     finalized SyncSecret CleanupFinalizer req (ccm_tenant s') ∨ gone SyncSecret (ClusterName, om_UID (syn_Meta object)) (ccm_lb s')) ∧
  (∀ object, truthful (ccm_lb s) → findObject SyncSecret (ccm_lb s) req = Some object →
     CleanupFinalizer ∈ om_Finalizers (syn_Meta object) →
     let c' := (ManagerSyncSecret.Reconcile SetStatusCondition typeOf req (ccm_lb s)).2 in
     finalized SyncSecret CleanupFinalizer req c' ∨ gone Secret (req.1, om_UID (syn_Meta object)) c').
Proof.
  split_and!.
  - intros secret. apply keeps_finalizer.
  - intros object. apply keeps_finalizer_exporting.
  - intros object. apply keeps_finalizer_generating.
Qed.

(** The labels under which the manager looks a tenant's Secret up *)
Definition originOf (secret : Secret) : StrMap :=
  {[ LabelOriginName := om_Name (sec_Meta secret); LabelOriginNamespace := om_Namespace (sec_Meta secret) ]}.

(** No Secret or SyncSecret is being deleted. *)
Definition settled (c : Cluster) : Prop :=
  (∀ key o, findObject SyncSecret c key = Some o → om_Deleting (syn_Meta o) = false) ∧
  (∀ key o, findObject Secret c key = Some o → om_Deleting (sec_Meta o) = false).

(** C22: A tenant's Secret reaches the manager: when the calls go through, one pass of each of the
    three controllers leaves a Secret in the tenant's namespace of the management cluster
    that has its type and data, and that the manager finds under the name and namespace of
    the original, provided no other Secret there claims that origin. *)
Theorem secret_reaches_manager (s : CCM) (secret : Secret) :
  cl_faults (ccm_tenant s) = [] → cl_faults (ccm_lb s) = [] → well_formed (ccm_tenant s) → well_formed (ccm_lb s) →
  settled (ccm_tenant s) → settled (ccm_lb s) →
  findObject Secret (ccm_tenant s) req = Some secret → entries (sec_StringData secret) = ∅ →
  ∃ c1 uid1 s2 uid2 c3 out,
    SecretConversion.Reconcile req (ccm_tenant s) = (Ret tt, c1) ∧
    (λ o, om_UID (syn_Meta o)) <$> findObject SyncSecret c1 req = Some uid1 ∧
    TenantSyncSecret.Reconcile ClusterName req {| s with ccm_tenant := c1 |} = (Ret tt, s2) ∧
    (λ o, om_UID (syn_Meta o)) <$> findObject SyncSecret (ccm_lb s2) (ClusterName, uid1) = Some uid2 ∧
    ManagerSyncSecret.Reconcile SetStatusCondition typeOf (ClusterName, uid1) (ccm_lb s2) = (Ret tt, c3) ∧
    findObject Secret c3 (ClusterName, uid2) = Some out ∧
    sec_Type out = sec_Type secret ∧ entries (sec_Data out) = entries (sec_Data secret) ∧
    ((∀ other, findObject Secret c3 (objKey other) = Some other → om_Namespace (sec_Meta other) = ClusterName →
        originOf secret ⊆ entries (om_Labels (sec_Meta other)) → other = out) →
     GetSecretNameIfExists (om_Name (sec_Meta secret)) (om_Namespace (sec_Meta secret)) ClusterName c3 = (Ret uid2, c3)).
Proof.
  intros Ht Hl Hwt Hwl [Hst1 Hst2] [Hsl1 Hsl2] Hf Hsd. pose proof (findObject_key _ _ _ Hf) as Hk.
  destruct (convert_ok req secret (ccm_tenant s)) as (ss & c1 & H1 & Hno1 & Hw1 & Hf1 & Hd1 & Hdata1 & Hsd1 & Hty1 & Hlab1);
    [done|done|done|by eapply Hst2|by apply Hst1|].
  destruct (export_ok ClusterName req ss {| s with ccm_tenant := c1 |}) as
    (es & s2 & H2 & Hno2 & Hw2 & Hc2 & Hf2 & Hd2 & Hdata2 & Hsd2 & Hty2 & Hlab2); [done|done|done|done|done|done|by apply Hsl1|].
  destruct (generate_ok SetStatusCondition typeOf (ClusterName, om_UID (syn_Meta ss)) es (ccm_lb s2)) as
    (out & c3 & H3 & Hno3 & Hw3 & Hf3 & Hdata3 & Hsd3 & Hty3 & Hlab3); [done|done|done|done| |].
  { intros old Ho. apply (Hsl2 (ClusterName, om_UID (syn_Meta es))). by rewrite (findObject_frame _ _ _ _ Hc2) in Ho. }
  exists c1, (om_UID (syn_Meta ss)), s2, (om_UID (syn_Meta es)), c3, out.
  split_and!; [done|by rewrite Hf1|done|by rewrite Hf2|done|done|congruence|congruence|].
  intros Honly. pose proof (findObject_key _ _ _ Hf3) as Hko.
  assert (om_Namespace (sec_Meta out) = ClusterName ∧ om_Name (sec_Meta out) = om_UID (syn_Meta es)) as [Hno Hn] by (by injection Hko).
  assert (originOf secret ⊆ entries (om_Labels (sec_Meta out))) as Hsel.
  { rewrite Hlab3, Hlab2. unfold withOrigin, originOf.
    pose proof (findObject_key _ _ _ Hf1) as Hk1. rewrite <- Hk1 in Hk. injection Hk as Hns Hnm. rewrite Hns, Hnm.
    apply map_subseteq_spec. intros i x. rewrite !lookup_insert_Some, lookup_singleton_Some. naive_solver. }
  unfold GetSecretNameIfExists. erewrite bind_eval by (by eapply try_eval, List_eval). cbv beta.
  assert (∀ o, o ∈ listObjects Secret c3 (Some ClusterName) (originOf secret) ↔ o = out) as Hall.
  { intros o. rewrite elem_of_listObjects by done. split.
    - intros (Ho & Hin & Hsub). apply Honly; [done| |done]. simpl in Hin. by apply bool_decide_eq_true in Hin.
    - intros ->. split_and!; [unfold objKey; simpl; by rewrite Hno, Hn|simpl; by apply bool_decide_eq_true|done]. }
  change {[ LabelOriginName := om_Name (sec_Meta secret); LabelOriginNamespace := om_Namespace (sec_Meta secret) ]} with (originOf secret).
  destruct (listObjects Secret c3 (Some ClusterName) (originOf secret)) as [|o l] eqn:Hlist.
  - exfalso. apply (not_elem_of_nil out), Hall. done.
  - assert (o = out) as -> by (apply Hall; by left). by rewrite Hn.
Qed.
End theorems.

(** ** Concrete runs *)

Definition sampleSetCondition (conditions : list Condition) (c : Condition) : list Condition := [c].
Definition sampleTypeOf (_ : SyncSecret) : string * string := ("kubelb.k8c.io/v1alpha1", "SyncSecret").

Definition tenantSecret : Secret :=
  {| sec_Meta := objectMeta "tls" "apps" "uid-1" (Some {[ LabelManagedBy := LabelControllerName ]}) None;
     sec_Immutable := Some true; sec_Type := "kubernetes.io/tls"; sec_Data := Some {[ "tls.crt" := "certificate" ]}; sec_StringData := None |}.
Definition sampleSecrets : CCM := {| ccm_tenant := sampleCluster [OSecret tenantSecret]; ccm_lb := sampleCluster [] |}.

(** A pass of each of the three controllers, in the order of the chain *)
Definition passes (s : CCM) : CCM :=
  let s1 := {| s with ccm_tenant := (SecretConversion.Reconcile ("apps", "tls") (ccm_tenant s)).2 |} in
  match findObject SyncSecret (ccm_tenant s1) ("apps", "tls") with
  | None => s1
  | Some ss =>
      let s2 := (TenantSyncSecret.Reconcile "tenant-a" ("apps", "tls") s1).2 in
      {| s2 with ccm_lb := (ManagerSyncSecret.Reconcile sampleSetCondition sampleTypeOf ("tenant-a", om_UID (syn_Meta ss)) (ccm_lb s2)).2 |}
  end.

Lemma settled_all c : map_Forall (λ _ x, om_Deleting (metaOf x) = false) (cl_objects c) → settled c.
Proof. intros Ha. split; intros key o [Ho _]%findObject_Some; by apply Ha in Ho. Qed.

Lemma secret_reaches_manager_witness :
  ∃ c1 uid1 s2 uid2 c3 out,
    SecretConversion.Reconcile ("apps", "tls") (ccm_tenant sampleSecrets) = (Ret tt, c1) ∧
    (λ o, om_UID (syn_Meta o)) <$> findObject SyncSecret c1 ("apps", "tls") = Some uid1 ∧
    TenantSyncSecret.Reconcile "tenant-a" ("apps", "tls") {| sampleSecrets with ccm_tenant := c1 |} = (Ret tt, s2) ∧
    (λ o, om_UID (syn_Meta o)) <$> findObject SyncSecret (ccm_lb s2) ("tenant-a", uid1) = Some uid2 ∧
    ManagerSyncSecret.Reconcile sampleSetCondition sampleTypeOf ("tenant-a", uid1) (ccm_lb s2) = (Ret tt, c3) ∧
    findObject Secret c3 ("tenant-a", uid2) = Some out ∧
    sec_Type out = sec_Type tenantSecret ∧ entries (sec_Data out) = entries (sec_Data tenantSecret) ∧
    ((∀ other, findObject Secret c3 (objKey other) = Some other → om_Namespace (sec_Meta other) = "tenant-a" →
        originOf tenantSecret ⊆ entries (om_Labels (sec_Meta other)) → other = out) →
     GetSecretNameIfExists "tls" "apps" "tenant-a" c3 = (Ret uid2, c3)).
Proof.
  apply (secret_reaches_manager "tenant-a" sampleSetCondition sampleTypeOf ("apps", "tls") sampleSecrets tenantSecret).
  - reflexivity.
  - reflexivity.
  - apply (bool_decide_unpack (well_formed _)). vm_compute. exact I.
  - apply (bool_decide_unpack (well_formed _)). vm_compute. exact I.
  - apply settled_all, (bool_decide_unpack (map_Forall _ _)). vm_compute. exact I.
  - apply settled_all, (bool_decide_unpack (map_Forall _ _)). vm_compute. exact I.
  - vm_compute. reflexivity.
  - reflexivity.
Defined.

(** The origin is found through its labels. *)
Example secret_is_found :
  let s := passes sampleSecrets in
  match GetSecretNameIfExists "tls" "apps" "tenant-a" (ccm_lb s) with
  | (Ret name, _) => sec_Data <$> findObject Secret (ccm_lb s) ("tenant-a", name) = Some (Some {[ "tls.crt" := "certificate" ]})
  | _ => False
  end.
Proof. vm_compute. reflexivity. Qed.

(** An immutable Secret has a mutable copy. *)
Example copy_is_mutable :
  let s := passes sampleSecrets in
  match GetSecretNameIfExists "tls" "apps" "tenant-a" (ccm_lb s) with
  | (Ret name, _) => sec_Immutable tenantSecret = Some true ∧ sec_Immutable <$> findObject Secret (ccm_lb s) ("tenant-a", name) = Some None
  | _ => False
  end.
Proof. vm_compute. by split. Qed.

(** A Secret that lost the label of the CCM keeps the finalizer, and the events of its
    deletion do not pass the filter. *)
Example unlabelled_secret_stuck :
  let deleted := {| tenantSecret with sec_Meta := {| (objectMeta "tls" "apps" "uid-1" None None) with
                                        om_Finalizers := [CleanupFinalizer]; om_Deleting := true |} |} in
  SecretConversion.predicate (UpdateEvent (OSecret deleted) (OSecret deleted)) = false ∧
  SecretConversion.predicate (CreateEvent (OSecret deleted)) = false ∧
  let c := sampleCluster [OSecret deleted] in
  findObject Secret (SecretConversion.Reconcile ("apps", "tls") c).2 ("apps", "tls") = None.
Proof. vm_compute. by split_and!. Qed.
