(* ===== verification/Upserts.v ===== *)
(** * Objects written through a library

    The libraries [k8c.io/reconciler] and [controllerutil] create or update an object with
    a function the caller gives: what they promise, as the class [UpsertLaws], a library
    that keeps it, and the logic of runs in which no call fails. *)

From S2P Require Import Prelude GoStrings Api GatewayApi Kube Finalizers CCM.
Local Open Scope go_scope.

(** ** Writing an object through a library *)

(** [upsert empty f]: get the object with the key of [empty], let [f] change it, or an
    empty one when it is not there, and store the result if it differs. *)
Record Upsert := { upsert : ∀ (O : Type) `{!Resource O}, O -> (O -> result O) -> M Cluster O }.
Arguments upsert _ {O _} _ _.

(** What [f] leaves alone *)
Definition gentle {O : Type} `{!Resource O} (f : O -> result O) : Prop := ∀ o o', f o = Ok o' →
  objKey o' = objKey o ∧ om_UID (objMeta o') = om_UID (objMeta o) ∧ om_Finalizers (objMeta o') = om_Finalizers (objMeta o).

(** An object is stored as wanted, but for what the server fills in. *)
Record storedAs {O : Type} `{!Resource O} (wanted stored : O) : Prop := {
  stored_spec : ∃ m, stored = setMeta m (copyStatus stored wanted);
  stored_labels : entries (om_Labels (objMeta stored)) = entries (om_Labels (objMeta wanted));
  stored_annotations : entries (om_Annotations (objMeta stored)) = entries (om_Annotations (objMeta wanted));
  stored_owners : om_OwnerReferences (objMeta stored) = om_OwnerReferences (objMeta wanted);
}.

Class UpsertLaws (lib : Upsert) : Prop := {
  upsert_within (O : Type) `{!Resource O} (empty : O) f : gentle f →
    within (changes (eq (storeKey O (objKey empty)))) (upsert lib empty f);
  upsert_yields (O : Type) `{!Resource O} (empty : O) f : gentle f → yields (λ o, objKey o = objKey empty) (upsert lib empty f);
  upsert_Ret (O : Type) `{!Resource O} (empty : O) f c o c' : gentle f → well_formed c → upsert lib empty f c = (Ret o, c') →
    findObject O c' (objKey empty) = Some o ∧
    ∃ wanted, f (default empty (findObject O c (objKey empty))) = Ok wanted ∧ storedAs wanted o;
  upsert_ok (O : Type) `{!Resource O} (empty : O) f c : gentle f → well_formed c → cl_faults c = [] → (∀ o, ∃ o', f o = Ok o') →
    ∃ o c', upsert lib empty f c = (Ret o, c') ∧ cl_faults c' = [];
}.

(** When the calls go through and the function accepts the object it is given, so does the
    library. *)
Class UpsertRuns (lib : Upsert) : Prop :=
  upsert_runs (O : Type) `{!Resource O} (empty : O) f c : gentle f → well_formed c → cl_faults c = [] →
    (∃ o', f (default empty (findObject O c (objKey empty))) = Ok o') →
    ∃ o c', upsert lib empty f c = (Ret o, c') ∧ cl_faults c' = [].

(** ** A library that keeps the laws *)

Definition directUpsert : Upsert := {| upsert O _ empty f :=
  found ← GetIfExists O (objKey empty);
  match f (default empty found) with
  | Err msg => raise (Errorf msg)
  | Ok wanted => match found with None => Create wanted | Some _ => Update wanted end
  end |}.

Section direct.
Context {O : Type} `{!Resource O}.
Implicit Types (o empty : O) (c : Cluster).

Lemma storedAs_created c o : storedAs o (created c o).
Proof.
  unfold created. split; rewrite ?objMeta_setMeta; simpl; rewrite ?entries_wireMap; [|done..].
  eexists. by rewrite copyStatus_setMeta_l, copyStatus_freshStatus.
Qed.
Lemma storedAs_updated old o : storedAs o (updated old o).
Proof.
  unfold updated. split; rewrite ?objMeta_setMeta; simpl; rewrite ?entries_wireMap; [|done..].
  eexists. by rewrite copyStatus_setMeta_l, copyStatus_copyStatus.
Qed.

Lemma direct_within empty f : gentle f → within (changes (eq (storeKey O (objKey empty)))) (upsert directUpsert empty f).
Proof.
  intros Hf. simpl. eapply within_bind_yields; [apply _|apply yields_GetIfExists|within_solve|]. intros found Hk.
  destruct (f (default empty found)) as [wanted|] eqn:Hw; [|within_step]. apply Hf in Hw as (Hk' & _).
  destruct found; simpl in *; [apply within_Update|apply within_Create]; f_equal; congruence.
Qed.

Lemma direct_Ret empty f c o c' : gentle f → well_formed c → upsert directUpsert empty f c = (Ret o, c') →
  objKey o = objKey empty ∧ findObject O c' (objKey empty) = Some o ∧
  ∃ wanted, f (default empty (findObject O c (objKey empty))) = Ok wanted ∧ storedAs wanted o.
Proof.
  intros Hf Hwf H. simpl in H. apply bind_Ret in H as (found & c1 & Hg & H).
  pose proof (read_objects _ _ _ _ (within_GetIfExists nothing _) Hg) as Ho.
  destruct found as [old|]; simpl in H; (destruct (f _) as [wanted|] eqn:Hw; [|done]); pose proof (Hf _ _ Hw) as (Hk & _ & Hfin).
  - assert (findObject O c (objKey empty) = Some old) as Hold.
    { unfold GetIfExists in Hg. apply bind_Ret in Hg as (r & c2 & Ht & Hg). destruct r as [o'|e]; [|by destruct (IsNotFound e)].
      apply try_Ret in Ht. apply Get_Ret in Ht as [Ht _]. apply mret_Ret in Hg as [[= ->] _]. done. }
    apply Update_Ret in H as (old' & Hf' & -> & Hc'). pose proof (findObject_key _ _ _ Hold) as Hk0.
    rewrite Hk, Hk0, (findObject_objects c c1), Hold in Hf' by done. injection Hf' as <-.
    rewrite Hfin in Hc'. pose proof (findObject_meta _ _ _ Hwf Hold) as [Hd _].
    assert (om_Deleting (objMeta old) && bool_decide (om_Finalizers (objMeta old) = []) = false) as Hb.
    { destruct (om_Deleting (objMeta old)); [|done]. apply bool_decide_false. by apply Hd. }
    rewrite Hb, Hk, Hk0 in Hc'. assert (objKey (updated old wanted) = objKey empty) as Hu by (by rewrite objKey_updated, Hk).
    split_and!; [done| |rewrite Hold; simpl; exists wanted; split; [done|apply storedAs_updated]].
    apply findObject_insert; [done|]. by rewrite Hc', lookup_insert_eq.
  - apply Create_Ret in H as (Hn & -> & Hc'). rewrite Hk, (findObject_objects c c1) in Hn by done. rewrite Hk in Hc'.
    assert (objKey (created c1 wanted) = objKey empty) as Hu by (by rewrite objKey_created, Hk).
    split_and!; [done| |rewrite Hn; simpl; exists wanted; split; [done|apply storedAs_created]].
    apply findObject_insert; [done|]. by rewrite Hc', lookup_insert_eq.
Qed.

Lemma direct_ok empty f c : gentle f → well_formed c → cl_faults c = [] →
  (∃ o', f (default empty (findObject O c (objKey empty))) = Ok o') →
  ∃ o c', upsert directUpsert empty f c = (Ret o, c') ∧ cl_faults c' = [].
Proof.
  intros Hf Hwf Hno [wanted Hw]. simpl. rewrite (bind_eval _ _ _ _ _ (GetIfExists_eval c Hno (objKey empty))). rewrite Hw. pose proof (Hf _ _ Hw) as (Hk & Hu & Hfin).
  destruct (findObject O c (objKey empty)) as [old|] eqn:Hold; simpl in *.
  - pose proof (findObject_key _ _ _ Hold) as Hk0. destruct (Update_stored c Hno wanted old) as (c' & Hr & _ & Hno' & _);
      [by rewrite Hk, Hk0|by right|rewrite Hfin; by apply (findObject_meta _ _ _ Hwf Hold)|by eexists _, c'].
  - destruct (Create_stored c Hno wanted) as (c' & Hr & _ & Hno' & _); [by rewrite Hk|by eexists _, c'].
Qed.
End direct.

#[export] Instance directUpsert_laws : UpsertLaws directUpsert.
Proof.
  split.
  - intros. by apply direct_within.
  - intros O HO empty f Hf. simpl. eapply yields_bind_yields; [apply yields_GetIfExists|]. intros found Hk.
    destruct (f (default empty found)) as [wanted|] eqn:Hw; [|by intros ???]. apply Hf in Hw as (Hk' & _).
    destruct found as [old|]; simpl in *; intros c o c' Hr; [apply yields_Update in Hr|apply Create_Ret in Hr as (_ & -> & _); rewrite objKey_created]; congruence.
  - intros O HO empty f c o c' Hf Hw H. by destruct (direct_Ret empty f c o c' Hf Hw H) as (_ & ? & ?).
  - intros O HO empty f c Hf Hw Hno Htot. by apply direct_ok.
Qed.
#[export] Instance directUpsert_runs : UpsertRuns directUpsert.
Proof. intros O HO empty f c. apply direct_ok. Qed.

(** ** Runs that succeed *)

Definition quiet (c : Cluster) : Prop := well_formed c ∧ cl_faults c = [].

(** Without failing calls [m] returns, changes only the keys [K] and leaves [Q]. *)
Definition delivers {A} (K : list ObjectKey) (P : Cluster -> Prop) (m : M Cluster A) (Q : Cluster -> Prop) : Prop :=
  ∀ c, quiet c → P c → ∃ a c', m c = (Ret a, c') ∧ quiet c' ∧ changes (λ k, k ∈ K) c c' ∧ Q c'.

(** An object with the key is stored, and it is as [F] says. *)
Definition holds (O : Type) `{!Resource O} (key : NamespacedName) (F : O -> Prop) (c : Cluster) : Prop := ∃ o, findObject O c key = Some o ∧ F o.

Lemma holds_frame (O : Type) `{!Resource O} K key F c c' : changes K c c' → ¬ K (storeKey O key) → holds O key F c → holds O key F c'.
Proof. intros Hc Hk (o & Hf & HF). exists o. by rewrite (findObject_frame K c). Qed.

Lemma quiet_changes K c c' : changes K c c' → cl_faults c' = [] → quiet c → quiet c'.
Proof. intros [_ Hw _] Hno [? _]. split; auto. Qed.

Lemma delivers_wrap {A} K P p (m : M Cluster A) Q : delivers K P m Q → delivers K P (wrap p m) Q.
Proof. intros Hm c Hq HP. destruct (Hm c Hq HP) as (a & c' & H & ?). exists a, c'. split; [by apply wrap_eval|done]. Qed.

(** One part after another: the second one leaves alone what the first one delivers. *)
Lemma delivers_then {A B} K1 K2 P (P' : Cluster -> Prop) (m : M Cluster A) (F : Cluster -> Prop) (k : A -> M Cluster B) G :
  delivers K1 P m F → (∀ c c', quiet c → quiet c' → changes (λ x, x ∈ K1) c c' → P c → F c' → P' c') →
  (∀ c c', changes (λ x, x ∈ K2) c c' → F c → F c') → (∀ a, delivers K2 P' (k a) G) →
  delivers (K1 ++ K2) P (m ≫= k) (λ c, F c ∧ G c).
Proof.
  intros Hm HP Hst Hk c Hq Hc. destruct (Hm c Hq Hc) as (a & c1 & H1 & Q1 & C1 & F1).
  destruct (Hk a c1 Q1 (HP _ _ Hq Q1 C1 Hc F1)) as (b & c2 & H2 & Q2 & C2 & G2). exists b, c2. rewrite (bind_eval _ _ _ _ _ H1).
  split_and!; [done|done| |by eapply Hst|done].
  transitivity c1; (eapply changes_weaken; [|done]); intros x Hx; apply elem_of_app; auto.
Qed.

(** A part that only reads *)
Lemma delivers_read {A B} K P (m : M Cluster A) a (k : A -> M Cluster B) G :
  (∀ c, quiet c → P c → m c = (Ret a, c)) → delivers K P (k a) G → delivers K P (m ≫= k) G.
Proof. intros Hm Hk c Hq HP. rewrite (bind_eval _ _ _ _ _ (Hm c Hq HP)). by apply Hk. Qed.

(** Keys of other kinds or names *)
Ltac other_key := rewrite ?not_elem_of_cons; split_and?; by try apply not_elem_of_nil.

Section upserts.
Context (lib : Upsert) `{!UpsertLaws lib}.

Lemma upsert_delivers (O : Type) `{!Resource O} (empty : O) f (P : Cluster -> Prop) (F : O -> Prop) :
  gentle f → (∀ o, ∃ o', f o = Ok o') →
  (∀ c wanted o, P c → f (default empty (findObject O c (objKey empty))) = Ok wanted → storedAs wanted o → F o) →
  ∀ c, quiet c → P c → ∃ o c', upsert lib empty f c = (Ret o, c') ∧ quiet c' ∧ changes (λ k, k ∈ [storeKey O (objKey empty)]) c c' ∧
    findObject O c' (objKey empty) = Some o ∧ F o.
Proof.
  intros Hf Htot HF c [Hw Hno] HP. destruct (upsert_ok O empty f c Hf Hw Hno Htot) as (o & c' & H & Hno').
  pose proof (upsert_within O empty f Hf c) as Hc. rewrite H in Hc. simpl in Hc.
  destruct (upsert_Ret O empty f c o c' Hf Hw H) as (Ho & wanted & Hwant & Hs). exists o, c'.
  split_and!; [done|by eapply quiet_changes|eapply changes_weaken; [|done]; intros k <-; by left|done|by eapply HF].
Qed.

End upserts.
