(* ===== verification/GatewayCRDs.v ===== *)
(** * The definitions of the Gateway API

    [internal/controllers/ccm/gateway_crd_controller.go] and the generated
    [internal/resources/reconciling]: the CCM installs the CustomResourceDefinitions that
    are embedded in it before its controllers start, and a controller restores them when
    they are changed or deleted.

    The embedded files and the YAML decoder are parameters. *)

From S2P Require Import Prelude GoStrings Api GatewayApi Names Kube Finalizers Manager CCM Upserts.
Local Open Scope go_scope.
#[local] Abbreviation CRD := CustomResourceDefinition.

(** ** Loading *)

Definition ChannelStandard : string := "standard".
Definition ChannelExperimental : string := "experimental".
Definition StandardGatewayAPICRDsDir : string := "gatewayapi/standard".
Definition ExperimentalGatewayAPICRDsDir : string := "gatewayapi/experimental".
Definition NoneConverter : string := "None".
(** [gwapiv1.GroupName] *)
Definition GroupName : string := "gateway.networking.k8s.io".

Definition IsValidGatewayAPICRDsChannel (channel : string) : bool :=
  bool_decide (channel = ChannelStandard) || bool_decide (channel = ChannelExperimental).

Definition getGatewayAPICRDsPath (channel : string) : result string :=
  if bool_decide (channel = ChannelStandard) then Ok StandardGatewayAPICRDsDir
  else if bool_decide (channel = ChannelExperimental) then Ok ExperimentalGatewayAPICRDsDir
  else Err ("unsupported Gateway API channel: " ⊕ channel).

Abbreviation CRDMap := (gmap string CRD).

(** The documents of a file with their kinds, up to the end or to the first error *)
Fixpoint decodeDocuments (docs : list (result (string * CRD))) : result (list CRD) :=
  match docs with
  | [] => Ok []
  | Err msg :: _ => Err msg
  | Ok (kind, crd) :: docs =>
      match decodeDocuments docs with
      | Ok crds => Ok (if bool_decide (kind = "CustomResourceDefinition") then crd :: crds else crds)
      | Err msg => Err msg
      end
  end.

Section controller.
(** [crds.FS]: the files of a directory, and what the decoder reads from one; the order in
    which a map is ranged over; the library *)
Context (ReadDir : string -> result (list string)) (Open : string -> result (list (result (string * CRD)))).
Context (range : CRDMap -> list (string * CRD)) (reconciling : Upsert).

Definition parseCRDFile (dir filename : string) : result (list CRD) :=
  match Open (dir ⊕ "/" ⊕ filename) with Err msg => Err msg | Ok docs => decodeDocuments docs end.

Definition addParsed (crds : CRDMap) (parsed : list CRD) : CRDMap := foldl (λ crds crd, <[om_Name (crd_Meta crd) := crd]> crds) crds parsed.

Fixpoint loadFiles (dir : string) (crdFiles : list string) (gatewayCRDs : CRDMap) : result CRDMap :=
  match crdFiles with
  | [] => Ok gatewayCRDs
  | filename :: crdFiles =>
      match parseCRDFile dir filename with
      | Err msg => Err ("failed to read CRD " ⊕ filename ⊕ ": " ⊕ msg)
      | Ok parsed => loadFiles dir crdFiles (addParsed gatewayCRDs parsed)
      end
  end.

Definition loadGatewayAPICRDs (channel : string) : result CRDMap :=
  match getGatewayAPICRDsPath channel with
  | Err msg => Err ("failed to get Gateway API CRDs directory: " ⊕ msg)
  | Ok crdDir =>
      match ReadDir crdDir with
      | Err msg => Err ("failed to read CRDs directory: " ⊕ msg)
      | Ok crdFiles => loadFiles crdDir crdFiles ∅
      end
  end.

(** ** Installing *)

Definition gatewayAPICRDLabels (sourceLabels : GoMap) : StrMap := <[LabelManagedBy := LabelControllerName]> (entries sourceLabels).

Definition crdReconcilerFactory (source crd : CRD) : result CRD :=
  Ok {| crd_Meta := {| (crd_Meta crd) with
          om_Labels := Some (gatewayAPICRDLabels (om_Labels (crd_Meta source)));
          om_Annotations := om_Annotations (crd_Meta source) |};
        crd_Group := crd_Group source; crd_Rest := crd_Rest source; crd_Conversion := Some NoneConverter |}.
(** The method has the body of the function. *)
Definition crdReconciler (source crd : CRD) : result CRD := crdReconcilerFactory source crd.

Definition emptyCRD (namespace name : string) : CRD :=
  {| crd_Meta := objectMeta name namespace "" None None; crd_Group := ""; crd_Rest := ""; crd_Conversion := None |}.

Fixpoint ReconcileCustomResourceDefinitions (namedFactories : list (string * (CRD -> result CRD))) (namespace : string) : M Cluster unit :=
  match namedFactories with
  | [] => mret tt
  | (name, reconciler) :: namedFactories =>
      _ ← wrap ("failed to ensure CustomResourceDefinition " ⊕ namespace ⊕ "/" ⊕ name) (upsert reconciling (emptyCRD namespace name) reconciler);
      ReconcileCustomResourceDefinitions namedFactories namespace
  end.

Definition InstallCRDs (channel : string) : M Cluster unit :=
  match loadGatewayAPICRDs channel with
  | Err msg => raise (Errorf ("failed to load Gateway API CRDs: " ⊕ msg))
  | Ok gatewayAPICRDs =>
      wrap "failed to install CRDs"
        (ReconcileCustomResourceDefinitions ((λ nc, (nc.1, crdReconcilerFactory nc.2)) <$> range gatewayAPICRDs) "")
  end.

(** ** The controller *)

Definition reconcileCRD (GatewayAPICRDs : CRDMap) (name : string) : M Cluster unit :=
  match GatewayAPICRDs !! name with
  | None => raise (Errorf ("CRD " ⊕ name ⊕ " not found in Gateway API or Envoy Gateway CRDs"))
  | Some crd => wrap ("failed to reconcile CRD " ⊕ name) (ReconcileCustomResourceDefinitions [(name, crdReconciler crd)] "")
  end.
Definition Reconcile (GatewayAPICRDs : CRDMap) (req : NamespacedName) : M Cluster unit := reconcileCRD GatewayAPICRDs req.2.

Definition isRelevantGroup (group : string) : bool := bool_decide (group = GroupName).
Definition resourceFilter (e : Event) : bool :=
  match e with
  | CreateEvent _ => false
  | UpdateEvent oldObj newObj =>
      match project (O:=CRD) oldObj, project (O:=CRD) newObj with
      | Some oldCRD, Some newCRD => isRelevantGroup (crd_Group oldCRD) && isRelevantGroup (crd_Group newCRD)
      | _, _ => false
      end
  | DeleteEvent o => match project (O:=CRD) o with Some crd => isRelevantGroup (crd_Group crd) | None => false end
  | GenericEvent _ => true
  end.

(** The requests the controller starts with *)
Definition bootstrapping (GatewayAPICRDs : CRDMap) : list NamespacedName := (λ nc, ("", nc.1)) <$> range GatewayAPICRDs.
End controller.

(** ** What is loaded *)

Lemma decodeDocuments_elem docs crds crd : decodeDocuments docs = Ok crds → crd ∈ crds ↔ Ok ("CustomResourceDefinition", crd) ∈ docs.
Proof.
  revert crds. induction docs as [|[[kind x]|msg] docs IH]; intros crds; simpl; [|destruct (decodeDocuments docs) as [l|] eqn:Hd; [|done]|done].
  - intros [= <-]. by rewrite !elem_of_nil.
  - intros [= <-]. case_bool_decide as Hk; rewrite ?elem_of_cons, (IH l eq_refl).
    + subst. split; intros [H|H]; [left; by subst|by right|by injection H as ->; left|by right].
    + split; [by right|]. intros [[= <- <-]|?]; done.
Qed.

Lemma addParsed_lookup crds parsed name crd : addParsed crds parsed !! name = Some crd → crds !! name = Some crd ∨ crd ∈ parsed ∧ om_Name (crd_Meta crd) = name.
Proof.
  unfold addParsed. revert crds. induction parsed as [|x parsed IH]; intros crds; simpl; [by left|]. intros [H|[? ?]]%IH.
  - destruct (decide (om_Name (crd_Meta x) = name)) as [<-|Hne].
    + rewrite lookup_insert_eq in H. injection H as ->. right. split; [by left|done].
    + rewrite lookup_insert_ne in H by done. by left.
  - right. split; [by right|done].
Qed.
Lemma addParsed_dom crds parsed name : is_Some (crds !! name) ∨ name ∈ om_Name ∘ crd_Meta <$> parsed → is_Some (addParsed crds parsed !! name).
Proof.
  unfold addParsed. revert crds. induction parsed as [|x parsed IH]; intros crds; simpl; [by intros [?|?%elem_of_nil]|]. intros H. apply IH.
  destruct (decide (om_Name (crd_Meta x) = name)) as [<-|Hne]; [left; by rewrite lookup_insert_eq|rewrite lookup_insert_ne by done].
  destruct H as [?|[?|?]%elem_of_cons]; [by left|by destruct Hne|by right].
Qed.

Section loaded.
Context (ReadDir : string -> result (list string)) (Open : string -> result (list (result (string * CRD)))) (channel : string).

(** A document of a file of the channel *)
Definition documented (crd : CRD) : Prop := ∃ dir files filename docs,
  getGatewayAPICRDsPath channel = Ok dir ∧ ReadDir dir = Ok files ∧ filename ∈ files ∧ Open (dir ⊕ "/" ⊕ filename) = Ok docs ∧
  Ok ("CustomResourceDefinition", crd) ∈ docs.

Lemma loadFiles_spec dir files start crds : loadFiles Open dir files start = Ok crds →
  (∀ name crd, crds !! name = Some crd → start !! name = Some crd ∨
     om_Name (crd_Meta crd) = name ∧ ∃ f docs, f ∈ files ∧ Open (dir ⊕ "/" ⊕ f) = Ok docs ∧ Ok ("CustomResourceDefinition", crd) ∈ docs) ∧
  (∀ name, is_Some (start !! name) → is_Some (crds !! name)) ∧
  (∀ crd f docs, f ∈ files → Open (dir ⊕ "/" ⊕ f) = Ok docs → Ok ("CustomResourceDefinition", crd) ∈ docs → is_Some (crds !! om_Name (crd_Meta crd))).
Proof.
  revert start. induction files as [|f files IH]; intros start; simpl; [intros [= <-]; split_and!; [by left|done|by intros ??? ?%elem_of_nil]|].
  unfold parseCRDFile. destruct (Open (dir ⊕ "/" ⊕ f)) as [docs|] eqn:Ho; [|done]. destruct (decodeDocuments docs) as [parsed|] eqn:Hd; [|done].
  intros (H1 & H2 & H3)%IH. split_and!.
  - intros name crd [[H|[Hin Hn]]%addParsed_lookup|(Hn & f' & docs' & ? & ?)]%H1; [by left|right; split; [done|]|right; split; [done|]].
    + exists f, docs. split_and!; [by left|done|by apply (decodeDocuments_elem docs parsed)].
    + exists f', docs'. split; [by right|done].
  - intros name Hs. by apply H2, addParsed_dom; left.
  - intros crd f' docs' [->|Hin]%elem_of_cons Ho' Hc; [|by eapply H3]. rewrite Ho in Ho'. injection Ho' as <-. apply H2, addParsed_dom. right.
    apply list_elem_of_fmap. exists crd. split; [done|]. by apply (decodeDocuments_elem docs parsed).
Qed.

(** The map holds a document under every name that has one, and documents only. *)
Lemma load_spec crds : loadGatewayAPICRDs ReadDir Open channel = Ok crds →
  (∀ name crd, crds !! name = Some crd → om_Name (crd_Meta crd) = name ∧ documented crd) ∧
  (∀ crd, documented crd → is_Some (crds !! om_Name (crd_Meta crd))).
Proof.
  unfold loadGatewayAPICRDs, documented. destruct (getGatewayAPICRDsPath channel) as [dir|]; [|done]. destruct (ReadDir dir) as [files|] eqn:Hr; [|done].
  intros (H1 & _ & H3)%loadFiles_spec. split.
  - intros name crd [H|(Hn & f & docs & ? & ? & ?)]%H1; [by rewrite lookup_empty in H|]. split; [done|]. by exists dir, files, f, docs.
  - intros crd (dir' & files' & f & docs & [= <-] & Hr' & ? & ? & ?). rewrite Hr in Hr'. injection Hr' as <-. by eapply H3.
Qed.
End loaded.

(** ** What is installed *)

(** A definition is as its document says, without conversion and marked as KubeLB's. *)
Definition installedAs (source crd : CRD) : Prop :=
  crd_Group crd = crd_Group source ∧ crd_Rest crd = crd_Rest source ∧ crd_Conversion crd = Some NoneConverter ∧
  entries (om_Labels (crd_Meta crd)) = gatewayAPICRDLabels (om_Labels (crd_Meta source)) ∧
  entries (om_Annotations (crd_Meta crd)) = entries (om_Annotations (crd_Meta source)).

Section installed.
Context (reconciling : Upsert) `{!UpsertLaws reconciling}.

Lemma crd_gentle source : gentle (crdReconcilerFactory source).
Proof. intros o o' [= <-]. by destruct o. Qed.

Lemma crd_delivers name source : delivers [storeKey CRD ("", name)] (λ _, True) (upsert reconciling (emptyCRD "" name) (crdReconcilerFactory source))
  (holds CRD ("", name) (installedAs source)).
Proof.
  intros c Hq _. destruct (upsert_delivers reconciling CRD (emptyCRD "" name) (crdReconcilerFactory source) (λ _, True) (installedAs source)) with (c:=c)
    as (o & c' & H & Q & C & F & Hi); [apply crd_gentle|by eexists| |done|done|by exists o, c'; split_and!; [..|exists o]].
  intros c0 wanted o _ [= <-] [[m ->] Hl Ha _]. by split_and!.
Qed.

Lemma reconcile_all (l : list (string * CRD)) : NoDup l.*1 → delivers ((λ nc, storeKey CRD ("", nc.1)) <$> l) (λ _, True)
  (ReconcileCustomResourceDefinitions reconciling ((λ nc, (nc.1, crdReconcilerFactory nc.2)) <$> l) "")
  (λ c, Forall (λ nc, holds CRD ("", nc.1) (installedAs nc.2) c) l).
Proof.
  induction l as [|[name source] l IH]; simpl; [intros _ c Hq _; by exists tt, c|]. intros [Hn Hnd]%NoDup_cons.
  cut (delivers ([storeKey CRD ("", name)] ++ ((λ nc, storeKey CRD ("", nc.1)) <$> l)) (λ _, True)
    (_ ← wrap ("failed to ensure CustomResourceDefinition " ⊕ "" ⊕ "/" ⊕ name) (upsert reconciling (emptyCRD "" name) (crdReconcilerFactory source));
     ReconcileCustomResourceDefinitions reconciling ((λ nc, (nc.1, crdReconcilerFactory nc.2)) <$> l) "")
    (λ c, holds CRD ("", name) (installedAs source) c ∧ Forall (λ nc, holds CRD ("", nc.1) (installedAs nc.2) c) l)).
  { intros H c Hq HP. destruct (H c Hq HP) as (u & c' & ? & ? & ? & ? & ?). exists u, c'. split_and!; try done. by apply Forall_cons. }
  apply (delivers_then _ _ _ (λ _, True)); [apply delivers_wrap, crd_delivers|done| |intros _; by apply IH].
  intros c c' Hc. eapply holds_frame; [exact Hc|]. simpl. intros ([name' s'] & [= ->] & Hin)%list_elem_of_fmap. apply Hn.
  apply list_elem_of_fmap. by exists (name', s').
Qed.
End installed.

(** ** Properties *)

Section theorems.
Context (ReadDir : string -> result (list string)) (Open : string -> result (list (result (string * CRD)))).
Context (range : CRDMap -> list (string * CRD)) (reconciling : Upsert) `{!UpsertLaws reconciling} (channel : string).

(** the definitions of a channel are installed: when the files can be read and no call
    fails, for every name that a document of kind CustomResourceDefinition in a file of
    the channel has, a definition of that name is stored as one of these documents says,
    with KubeLB's label and without conversion, in whatever order the map is ranged over;
    and nothing else is changed. *)
Theorem crds_installed (crds : CRDMap) (c : Cluster) :
  (∀ m, range m ≡ₚ map_to_list m) → loadGatewayAPICRDs ReadDir Open channel = Ok crds → quiet c →
  ∃ c', InstallCRDs ReadDir Open range reconciling channel c = (Ret tt, c') ∧
    (∀ crd, documented ReadDir Open channel crd → ∃ source, documented ReadDir Open channel source ∧
       om_Name (crd_Meta source) = om_Name (crd_Meta crd) ∧ holds CRD ("", om_Name (crd_Meta crd)) (installedAs source) c') ∧
    (∀ k, (∀ crd, documented ReadDir Open channel crd → k ≠ storeKey CRD ("", om_Name (crd_Meta crd))) → cl_objects c' !! k = cl_objects c !! k).
Proof.
  intros Hr Hl Hq. destruct (load_spec _ _ _ _ Hl) as [H1 H2]. unfold InstallCRDs. rewrite Hl.
  assert (NoDup (range crds).*1) as Hnd by (rewrite Hr; apply NoDup_fst_map_to_list).
  destruct (reconcile_all reconciling (range crds) Hnd c Hq I) as ([] & c' & H & _ & [Hc _ _] & Hall). exists c'. split_and!; [by apply wrap_eval| |].
  - intros crd Hd. destruct (H2 crd Hd) as [source Hs]. destruct (H1 _ _ Hs) as [Hn Hds]. exists source. split_and!; [done|done|].
    rewrite Forall_forall in Hall. apply (Hall (om_Name (crd_Meta crd), source)). rewrite Hr. by apply elem_of_map_to_list.
  - intros k Hk. apply Hc. intros ([name source] & -> & Hin)%list_elem_of_fmap. rewrite Hr in Hin. apply elem_of_map_to_list, H1 in Hin as [<- Hd]. by eapply Hk.
Qed.

(** drift is repaired: whatever is done to a definition of the Gateway API's group that
    stays in the group, or its deletion, passes the controller's filter; and a pass without
    failing calls restores the definition, from any state, and changes nothing else. *)
Theorem crd_drift_repaired (crds : CRDMap) (name : string) (source old new : CRD) (c : Cluster) :
  crds !! name = Some source → crd_Group source = GroupName → installedAs source old → crd_Group new = crd_Group old → quiet c →
  resourceFilter (UpdateEvent (inject old) (inject new)) = true ∧ resourceFilter (DeleteEvent (inject old)) = true ∧
  ∃ c', Reconcile reconciling crds ("", name) c = (Ret tt, c') ∧ holds CRD ("", name) (installedAs source) c' ∧
    ∀ k, k ≠ storeKey CRD ("", name) → cl_objects c' !! k = cl_objects c !! k.
Proof.
  intros Hs Hg (Ho & _) Hn Hq. unfold resourceFilter, isRelevantGroup. rewrite !project_inject, Hn, Ho, Hg. split_and!; [done..|].
  unfold Reconcile, reconcileCRD. simpl. rewrite Hs.
  destruct (reconcile_all reconciling [(name, source)] (NoDup_singleton _) c Hq I) as ([] & c' & H & _ & [Hc _ _] & Hall).
  exists c'. split_and!; [by apply wrap_eval|by apply Forall_cons_1 in Hall as [? _]|]. intros k Hk. apply Hc. by intros ?%list_elem_of_singleton.
Qed.
End theorems.

(** ** Examples *)

Definition sampleCRD (name group : string) : CRD := {| (emptyCRD "" name) with crd_Group := group; crd_Rest := "{}" |}.
Definition gatewaysCRD : CRD := sampleCRD "gateways.gateway.networking.k8s.io" GroupName.
Definition meshesCRD : CRD := sampleCRD "xmeshes.gateway.networking.x-k8s.io" "gateway.networking.x-k8s.io".

(** Two files with definitions, and one with an admission policy *)
Definition sampleReadDir (dir : string) : result (list string) :=
  if bool_decide (dir = ExperimentalGatewayAPICRDsDir) then Ok ["gateways.yaml"; "safeupgrades.yaml"; "xmeshes.yaml"] else Err "no such directory".
Definition sampleOpen (path : string) : result (list (result (string * CRD))) :=
  if bool_decide (path = "gatewayapi/experimental/gateways.yaml") then Ok [Ok ("CustomResourceDefinition", gatewaysCRD)]
  else if bool_decide (path = "gatewayapi/experimental/xmeshes.yaml") then Ok [Ok ("CustomResourceDefinition", meshesCRD)]
  else Ok [Ok ("ValidatingAdmissionPolicy", sampleCRD "safe-upgrades" "")].
Definition sampleCRDs : CRDMap := addParsed (addParsed (addParsed ∅ [gatewaysCRD]) []) [meshesCRD].

Example sampleCRDs_loaded : loadGatewayAPICRDs sampleReadDir sampleOpen ChannelExperimental = Ok sampleCRDs.
Proof. cbv -[addParsed gatewaysCRD meshesCRD sampleCRDs]. reflexivity. Qed.

Lemma crds_installed_witness : loadGatewayAPICRDs sampleReadDir sampleOpen ChannelExperimental = Ok sampleCRDs ∧
  ∃ c', InstallCRDs sampleReadDir sampleOpen map_to_list directUpsert ChannelExperimental (sampleCluster []) = (Ret tt, c') ∧
    (∀ crd, documented sampleReadDir sampleOpen ChannelExperimental crd → ∃ source, documented sampleReadDir sampleOpen ChannelExperimental source ∧
       om_Name (crd_Meta source) = om_Name (crd_Meta crd) ∧ holds CRD ("", om_Name (crd_Meta crd)) (installedAs source) c') ∧
    (∀ k, (∀ crd, documented sampleReadDir sampleOpen ChannelExperimental crd → k ≠ storeKey CRD ("", om_Name (crd_Meta crd))) →
       cl_objects c' !! k = cl_objects (sampleCluster []) !! k).
Proof.
  split; [apply sampleCRDs_loaded|].
  apply (crds_installed sampleReadDir sampleOpen map_to_list directUpsert ChannelExperimental sampleCRDs).
  - done.
  - apply sampleCRDs_loaded.
  - split; [|reflexivity]. apply (bool_decide_unpack (well_formed _)). vm_compute. exact I.
Defined.

(** Someone changed the versions of Gateways. *)
Definition driftedCRD : CRD := {| gatewaysCRD with crd_Rest := "{v0}"; crd_Conversion := Some NoneConverter |}.
Definition installedCRD : CRD := {| gatewaysCRD with crd_Conversion := Some NoneConverter;
  crd_Meta := objectMeta "gateways.gateway.networking.k8s.io" "" "uid-1" (Some (gatewayAPICRDLabels None)) None |}.

Lemma crd_drift_repaired_witness :
  resourceFilter (UpdateEvent (inject installedCRD) (inject driftedCRD)) = true ∧ resourceFilter (DeleteEvent (inject installedCRD)) = true ∧
  ∃ c', Reconcile directUpsert sampleCRDs ("", "gateways.gateway.networking.k8s.io") (sampleCluster [OCustomResourceDefinition driftedCRD]) = (Ret tt, c') ∧
    holds CRD ("", "gateways.gateway.networking.k8s.io") (installedAs gatewaysCRD) c' ∧
    ∀ k, k ≠ storeKey CRD ("", "gateways.gateway.networking.k8s.io") → cl_objects c' !! k = cl_objects (sampleCluster [OCustomResourceDefinition driftedCRD]) !! k.
Proof.
  apply (crd_drift_repaired directUpsert sampleCRDs "gateways.gateway.networking.k8s.io" gatewaysCRD installedCRD driftedCRD).
  - vm_compute. reflexivity.
  - reflexivity.
  - by split_and!.
  - reflexivity.
  - split; [|reflexivity]. apply (bool_decide_unpack (well_formed _)). vm_compute. exact I.
Defined.

(** The experimental channel has definitions of a second group: they are installed, but
    the controller does not see it when they are changed or deleted. *)
Example experimental_drift_unseen : sampleCRDs !! "xmeshes.gateway.networking.x-k8s.io" = Some meshesCRD ∧
  resourceFilter (DeleteEvent (inject meshesCRD)) = false ∧ resourceFilter (UpdateEvent (inject meshesCRD) (inject meshesCRD)) = false.
Proof. vm_compute. repeat split. Qed.

(** A definition of the group that another channel or release brought fails on every change. *)
Example foreign_definition_fails : let crd := sampleCRD "tcproutes.gateway.networking.k8s.io" GroupName in
  resourceFilter (UpdateEvent (inject crd) (inject crd)) = true ∧
  (Reconcile directUpsert sampleCRDs (objKey crd) (sampleCluster [OCustomResourceDefinition crd])).1 =
    Fail (Errorf "CRD tcproutes.gateway.networking.k8s.io not found in Gateway API or Envoy Gateway CRDs").
Proof. vm_compute. split; reflexivity. Qed.
