(* ===== verification/TenantController.v ===== *)
(** * The manager's Tenant controller

    [internal/controllers/kubelb/tenant_controller.go] and its [resources/tenant]: a Tenant
    has a namespace [tenant-<name>] with an account for its CCM, the rights that account
    needs, a kubeconfig and a state; a Tenant that is deleted takes its load balancers,
    routes and secrets with it.

    The objects are written through the libraries [k8c.io/reconciler] and [controllerutil],
    which are parameters with the laws of [UpsertLaws]. *)

From Stdlib Require Import Ascii.
From S2P Require Import Prelude GoStrings GoNet GoBase64 Api GatewayApi Names Kube Finalizers Services EnvoyBootstrap Manager EnvoyController CCM Upserts.
Local Open Scope go_scope.

(** ** [resources/tenant] *)

Definition serviceAccountName : string := "kubelb-ccm".
Definition roleName : string := "kubelb-ccm".
Definition roleBindingName : string := "kubelb-ccm".
Definition apiGroupKubeLB : string := "kubelb.k8c.io".
Definition verbGet : string := "get".
Definition ServiceAccountTokenSecretName : string := "kubelb-ccm".
Definition KubeLBCCMKubeconfigSecretName : string := "kubelb-ccm-kubeconfig".
Definition serviceAccountTokenType : string := "kubernetes.io/service-account-token".
Definition serviceAccountTokenAnnotation : string := "kubernetes.io/service-account.name".

Definition NamespaceReconciler (ownerReference : OwnerReference) (ns : Namespace) : result Namespace :=
  Ok {| ns_Meta := {| (ns_Meta ns) with
          om_Labels := Some (<[LabelManagedBy := LabelControllerName]> (entries (om_Labels (ns_Meta ns))));
          om_OwnerReferences := [ownerReference] |} |}.

Definition ServiceAccountReconciler (sa : ServiceAccount) : result ServiceAccount := Ok sa.

Definition ccmRules : list PolicyRule :=
  [{| prl_APIGroups := [apiGroupKubeLB]; prl_Resources := ["loadbalancers"; "routes"; "addresses"; "syncsecrets"];
      prl_Verbs := ["create"; "update"; verbGet; "list"; "delete"; "patch"; "watch"] |};
   {| prl_APIGroups := [apiGroupKubeLB]; prl_Resources := ["tenantstates"]; prl_Verbs := [verbGet; "list"; "watch"] |};
   {| prl_APIGroups := [apiGroupKubeLB]; prl_Resources := ["tenantstates/status"]; prl_Verbs := [verbGet] |};
   {| prl_APIGroups := [apiGroupKubeLB]; prl_Resources := ["loadbalancers/status"; "routes/status"; "addresses/status"; "syncsecrets/status"];
      prl_Verbs := ["update"; verbGet; "patch"] |}].
Definition RoleReconciler (r : Role) : result Role := Ok {| r with rol_Rules := ccmRules |}.

Definition RoleBindingReconciler (namespace : string) (rb : RoleBinding) : result RoleBinding :=
  Ok {| rb with
        rb_RoleRef := {| rr_Name := roleName; rr_Kind := "Role"; rr_APIGroup := "rbac.authorization.k8s.io" |};
        rb_Subjects := [{| sub_Kind := "ServiceAccount"; sub_Name := serviceAccountName; sub_Namespace := namespace |}] |}.

Definition SecretReconciler (s : Secret) : result Secret :=
  Ok {| s with
        sec_Meta := {| (sec_Meta s) with om_Annotations := Some {[ serviceAccountTokenAnnotation := serviceAccountName ]} |};
        sec_Type := serviceAccountTokenType |}.

Definition TenantKubeconfigSecretReconciler (data : string) (s : Secret) : result Secret :=
  Ok {| s with sec_Data := Some {[ "kubelb" := data ]} |}.

Definition emptyMeta (namespace name : string) : ObjectMeta := objectMeta name namespace "" None None.
Definition emptySecret (namespace name : string) : Secret :=
  {| sec_Meta := emptyMeta namespace name; sec_Immutable := None; sec_Type := ""; sec_Data := None; sec_StringData := None |}.
Definition emptyRole (namespace : string) : Role := {| rol_Meta := emptyMeta namespace roleName; rol_Rules := [] |}.
Definition emptyRoleBinding (namespace : string) : RoleBinding :=
  {| rb_Meta := emptyMeta namespace roleBindingName; rb_RoleRef := {| rr_Name := ""; rr_Kind := ""; rr_APIGroup := "" |}; rb_Subjects := [] |}.

(** ** The controller *)

Definition TenantPhaseReady : string := "Ready".
Definition TenantPhaseFailed : string := "Failed".
Definition TenantPhaseTerminating : string := "Terminating".
Definition ConditionReady : string := "Ready".
Definition configMapName : string := "cluster-info".
Definition kubernetesEndpointsName : string := "kubernetes".
Definition securePortName : string := "https".
Definition TenantStateName : string := "default".
Definition podMonitorName : string := "envoy-proxy".
Definition EnvoyStatsPath : string := "/stats/prometheus".
Definition ServiceAccountRootCAKey : string := "ca.crt".
Definition ServiceAccountTokenKey : string := "token".

(** [text/template] with the four values of the kubeconfig *)
Definition newline : string := String (ascii_of_nat 10) "".
Definition kubeconfig (CACertificate Token Namespace ServerURL : string) : string :=
  Join ["apiVersion: v1"; "kind: Config"; "clusters:"; "- name: kubelb-cluster"; "  cluster:";
        "    certificate-authority-data: " ⊕ CACertificate; "    server: " ⊕ ServerURL; "contexts:"; "- name: default-context"; "  context:";
        "    cluster: kubelb-cluster"; "    namespace: " ⊕ Namespace; "    user: default-user"; "current-context: default-context"; "users:";
        "- name: default-user"; "  user:"; "    token: " ⊕ Token; ""] newline.

Definition lift {A} (r : result A) : M Cluster A := match r with Ok a => mret a | Err msg => raise (Errorf msg) end.

Section controller.
(** The manager's namespace, the host of its REST configuration, and its version *)
Context (managerNamespace host : string) (currentVersion : Version).
(** The two libraries; [meta.SetStatusCondition], [meta.IsNoMatchError]; the kind and
    version of a Tenant as the client left them; [SetControllerReference] of a Tenant *)
Context (reconciling controllerutil : Upsert).
Context (SetStatusCondition : list Condition -> Condition -> list Condition) (IsNoMatchError : Error -> bool).
Context (typeOf : Tenant -> string * string) (controlledBy : Tenant -> TenantState -> result TenantState).
(** [clientcmd.Load]: the servers of the clusters, in the order the map is ranged over *)
Context (Load : string -> result (list string)).

Definition patchTenantStatus (key : NamespacedName) (phase reason message : string) (reconcileErr : option Error) : M Cluster unit :=
  current ← Get Tenant key;
  let status :=
    {| ps_Phase := phase;
       ps_Conditions := SetStatusCondition (ps_Conditions (tn_Status current))
         {| cond_Type := ConditionReady; cond_Status := match reconcileErr with None => "True" | Some _ => "False" end;
            cond_Reason := reason; cond_Message := message |} |} in
  if bool_decide (tn_Status current = status) then mret tt
  else _ ← StatusUpdate {| current with tn_Status := status |}; mret tt.

Definition updateTenantStatus (tenant : Tenant) (phase reason message : string) (reconcileErr : option Error) : M Cluster unit :=
  RetryOnConflict (patchTenantStatus (objKey tenant) phase reason message reconcileErr).

(** *** The kubeconfig *)

Definition getKubeconfigFromConfigMap : M Cluster (list string) :=
  cm ← Get ConfigMap ("kube-public", configMapName);
  match entries (cm_Data cm) !! "kubeconfig" with
  | None => raise (Errorf "no kubeconfig found in cluster-info configmap")
  | Some data => lift (Load data)
  end.

Definition getSecurePort (endpointSlice : EndpointSlice) : option Z :=
  match list_find (λ p, p.1 = Some securePortName) (es_Ports endpointSlice) with Some (_, (_, port)) => port | None => None end.

Definition buildKubeconfigFromEndpoint : M Cluster (list string) :=
  endpointSlice ← Get EndpointSlice ("default", kubernetesEndpointsName);
  match es_Endpoints endpointSlice with
  | [] => raise (Errorf "no endpoints in the kubernetes endpointslice resource")
  | [] :: _ => raise (Errorf "no addresses in the first endpoint of the kubernetes endpointslice resource")
  | (address :: _) :: _ =>
      match ip_value address, getSecurePort endpointSlice with
      | None, _ => raise (Errorf "could not parse ip from endpoint address")
      | Some _, None => raise (Errorf "no secure port in the endpointslice")
      | Some ip, Some port => mret ["https://" ⊕ JoinHostPort (IP_String ip) (Itoa port)]
      end
  end.

Definition GetKubeconfig : M Cluster (list string) :=
  r ← try getKubeconfigFromConfigMap;
  match r with inl servers => mret servers | inr _ => buildKubeconfigFromEndpoint end.

Definition generateKubeconfig (namespace : string) : M Cluster string :=
  secret ← wrap "failed to get ServiceAccount token Secret" (Get Secret (namespace, ServiceAccountTokenSecretName));
  servers ← wrap "failed to compute the server URL for kubeconfig" GetKubeconfig;
  let serverURL := default host (head (filter (λ server, server ≠ "") servers)) in
  let ca := get (sec_Data secret) ServiceAccountRootCAKey in
  let token := get (sec_Data secret) ServiceAccountTokenKey in
  if bool_decide (token = "") then raise (Errorf "failed to get ServiceAccount token")
  else if bool_decide (ca = "") then raise (Errorf "failed to get CA certificate")
  else mret (kubeconfig (Base64 ca) token namespace serverURL).

(** *** The state of a tenant *)

Definition buildTenantState (tenant : Tenant) (existingConditions : list Condition) : M Cluster TenantStateStatus :=
  r ← try (GetConfig managerNamespace);
  let config := match r with inl config => config | inr _ => DefaultConfig end in
  mret {| tss_Version := currentVersion; tss_Conditions := existingConditions;
          tss_Disable := cls_Disable (tn_LoadBalancer tenant) || cls_Disable (cf_LoadBalancer config) |}.

Definition shouldUpdateStatus (current newTenantStatus : TenantStateStatus) : bool :=
  negb (bool_decide (tss_Version current = tss_Version newTenantStatus)) || negb (Bool.eqb (tss_Disable current) (tss_Disable newTenantStatus)) ||
  negb (bool_decide (tss_Conditions current = tss_Conditions newTenantStatus)).

Definition reconcileTenantState (tenant : Tenant) (namespace : string) : M Cluster unit :=
  tenantState ← upsert controllerutil {| ts_Meta := emptyMeta namespace TenantStateName; ts_Status := emptyTenantStateStatus |} (controlledBy tenant);
  newStatus ← buildTenantState tenant (tss_Conditions (ts_Status tenantState));
  if shouldUpdateStatus (ts_Status tenantState) newStatus
  then _ ← wrap "failed to update TenantState status" (StatusUpdate {| tenantState with ts_Status := newStatus |}); mret tt
  else mret tt.

(** The default Config has no name. *)
Definition reconcileConfigStatus : M Cluster unit :=
  config ← GetConfig managerNamespace;
  if bool_decide (om_Name (cf_Meta config) = "") then mret tt
  else if bool_decide (cf_Version config = currentVersion) then mret tt
  else _ ← StatusUpdate {| config with cf_Version := currentVersion |}; mret tt.

(** *** The PodMonitor *)

Definition desiredPodMonitor (namespace : string) : PodMonitor :=
  {| pm_Meta := objectMeta podMonitorName namespace ""
       (Some (<[LabelAppKubernetesName := envoyProxyAppName]> {[ LabelAppKubernetesManagedBy := envoyProxyManagedByVal ]})) None;
     pm_MatchLabels := {[ LabelAppKubernetesName := envoyProxyAppName ]}; pm_Endpoints := [("metrics", EnvoyStatsPath)] |}.

Definition deletePodMonitor (namespace : string) : M Cluster unit :=
  r ← try (Delete PodMonitor (namespace, podMonitorName));
  match r with
  | inl _ => mret tt
  | inr err => if IsNotFound err || IsNoMatchError err then mret tt else raise err
  end.

Definition reconcilePodMonitor (namespace : string) : M Cluster unit :=
  config ← wrap "failed to retrieve config" (GetConfig managerNamespace);
  if negb (default false (ep_PodMonitor (cf_EnvoyProxy config))) then deletePodMonitor namespace
  else
    let desired := desiredPodMonitor namespace in
    r ← try (Get PodMonitor (namespace, podMonitorName));
    match r with
    | inr err =>
        if IsNoMatchError err then mret tt
        else if IsNotFound err then _ ← Create desired; mret tt
        else raise err
    | inl existing =>
        _ ← Update {|
              pm_MatchLabels := pm_MatchLabels desired; pm_Endpoints := pm_Endpoints desired;
              pm_Meta := {| (pm_Meta existing) with om_Labels := om_Labels (pm_Meta desired) |} |};
        mret tt
    end.

(** *** Everything of a tenant *)

Definition ownerReferenceOf (tenant : Tenant) : OwnerReference :=
  {| or_APIVersion := (typeOf tenant).1; or_Kind := (typeOf tenant).2; or_Name := om_Name (tn_Meta tenant); or_UID := om_UID (tn_Meta tenant) |}.

Definition ensure {O : Type} `{!Resource O} (what : string) (empty : O) (f : O -> result O) : M Cluster unit :=
  _ ← wrap ("failed to reconcile " ⊕ what) (upsert reconciling empty f); mret tt.

Definition reconcile (tenant : Tenant) : M Cluster unit :=
  let namespace := tenantNamespacePattern (om_Name (tn_Meta tenant)) in
  _ ← ensure "namespace" {| ns_Meta := emptyMeta "" namespace |} (NamespaceReconciler (ownerReferenceOf tenant));
  _ ← ensure "service account" {| sa_Meta := emptyMeta namespace serviceAccountName |} ServiceAccountReconciler;
  _ ← ensure "role" (emptyRole namespace) RoleReconciler;
  _ ← ensure "role binding" (emptyRoleBinding namespace) (RoleBindingReconciler namespace);
  _ ← ensure "secret" (emptySecret namespace ServiceAccountTokenSecretName) SecretReconciler;
  tenantKubeconfig ← wrap "failed to generate kubeconfig" (generateKubeconfig namespace);
  _ ← ensure "kubeLB tenant kubeconfig secret" (emptySecret namespace KubeLBCCMKubeconfigSecretName) (TenantKubeconfigSecretReconciler tenantKubeconfig);
  _ ← wrap "failed to reconcile TenantState" (reconcileTenantState tenant namespace);
  _ ← wrap "failed to reconcile Config status" reconcileConfigStatus;
  wrap "failed to reconcile PodMonitor" (reconcilePodMonitor namespace).

(** *** Deletion *)

(** [DeleteAllOf] with [InNamespace] *)
Definition deleteInNamespace (O : Type) `{!Resource O} (namespace : string) (k : ObjectKey) (x : Object) : option Object :=
  match project (O:=O) x with
  | Some o =>
      if bool_decide (k = (resKind O, objKey o) ∧ om_Namespace (objMeta o) = namespace) then
        if bool_decide (om_Finalizers (objMeta o) = []) then None
        else Some (inject (setMeta {| (objMeta o) with om_Deleting := true |} o))
      else Some x
  | None => Some x
  end.
Definition DeleteAllOf (O : Type) `{!Resource O} (namespace : string) : M Cluster unit :=
  _ ← apiCall; modify (λ c, {| c with cl_objects := map_imap (deleteInNamespace O namespace) (cl_objects c) |}).

Definition ensureNone (O : Type) `{!Resource O} (what left : string) (namespace : string) : M Cluster unit :=
  items ← wrap ("failed to list " ⊕ what) (List O (Some namespace) ∅);
  if bool_decide (items = []) then mret tt else raise (Errorf (left ⊕ " still exist")).

Definition cleanupResources (namespace : string) : M Cluster unit :=
  _ ← wrap "failed to delete Routes" (DeleteAllOf Route namespace);
  _ ← wrap "failed to delete LoadBalancers" (DeleteAllOf LoadBalancer namespace);
  _ ← wrap "failed to delete SyncSecrets" (DeleteAllOf SyncSecret namespace);
  _ ← ensureNone Route "HTTPRoutes" "routes" namespace;
  _ ← ensureNone LoadBalancer "LoadBalancers" "loadbalancers" namespace;
  ensureNone SyncSecret "SyncSecrets" "syncsecrets" namespace.

(** The loop over [Deletion] *)
Definition Deletion (namespace : string) : M Cluster unit :=
  let del {A} (m : M Cluster A) := wrap "failed to ensure kubeLB resources are removed/not present on management cluster" m in
  _ ← del (DeleteIgnoreNotFound ServiceAccount (namespace, serviceAccountName));
  _ ← del (DeleteIgnoreNotFound Role (namespace, roleName));
  _ ← del (DeleteIgnoreNotFound RoleBinding (namespace, roleBindingName));
  _ ← del (DeleteIgnoreNotFound Secret (namespace, ServiceAccountTokenSecretName));
  _ ← del (DeleteIgnoreNotFound Secret (namespace, KubeLBCCMKubeconfigSecretName));
  del (DeleteIgnoreNotFound Namespace ("", namespace)).

Definition cleanup (tenant : Tenant) : M Cluster unit :=
  let namespace := tenantNamespacePattern (om_Name (tn_Meta tenant)) in
  _ ← wrap "failed to delete PodMonitor" (deletePodMonitor namespace);
  _ ← wrap "failed to cleanup resources" (cleanupResources namespace);
  _ ← Deletion namespace;
  removeCleanupFinalizer tenant.

(** The list of Tenants feeds a gauge. *)
Definition Reconcile (req : NamespacedName) : M Cluster unit :=
  r ← try (Get Tenant req);
  match r with
  | inr err => if IsNotFound err then mret tt else raise err
  | inl resource =>
      if om_Deleting (tn_Meta resource)
      then
        when (ContainsFinalizer (tn_Meta resource) CleanupFinalizer)
          (_ ← try (updateTenantStatus resource TenantPhaseTerminating "Terminating" "Tenant is being deleted" None);
           cleanup resource)
      else
        resource ← addCleanupFinalizer resource;
        r ← try (reconcile resource);
        match r with
        | inr reconcileErr =>
            _ ← try (updateTenantStatus resource TenantPhaseFailed "ReconciliationFailed" (ErrorString reconcileErr) (Some reconcileErr));
            raise reconcileErr
        | inl _ =>
            _ ← updateTenantStatus resource TenantPhaseReady "Reconciled" "Tenant reconciled successfully" None;
            _ ← try (List Tenant None ∅);
            mret tt
        end
  end.
End controller.

(** ** What a pass changes *)

Lemma within_DeleteAllOf (O : Type) `{!Resource O} (K : ObjectKey -> Prop) namespace : (∀ name, K (resKind O, (namespace, name))) →
  within (changes K) (DeleteAllOf O namespace).
Proof.
  intros HK. unfold DeleteAllOf. within_step; [apply within_apiCall|]. apply within_modify. intros c.
  assert (∀ k, ¬ K k → map_imap (deleteInNamespace O namespace) (cl_objects c) !! k = cl_objects c !! k) as Hframe.
  { intros k Hk. rewrite map_lookup_imap. destruct (cl_objects c !! k) as [x|]; [|done]. simpl. unfold deleteInNamespace.
    destruct (project x) as [o|]; [|done]. rewrite bool_decide_false; [done|]. intros [-> Hns]. apply Hk. unfold objKey. rewrite Hns. apply HK. }
  split; simpl; [done| |done]. intros Hw k x Hx. simpl in Hx. rewrite map_lookup_imap in Hx. apply bind_Some in Hx as (y & Hy & Hx).
  specialize (Hw k y Hy). unfold deleteInNamespace in Hx. destruct (project y) as [o|] eqn:Hp; [|by simplify_eq].
  apply inject_project in Hp as ->. destruct Hw as [Hk Hm]. rewrite keyOf_inject in Hk. rewrite metaOf_inject in Hm.
  case_bool_decide; [|simplify_eq; split; [by rewrite keyOf_inject|by rewrite metaOf_inject]].
  case_bool_decide; simplify_eq. split; [rewrite keyOf_inject; unfold storeKey, objKey; by rewrite objMeta_setMeta|].
  rewrite metaOf_inject, objMeta_setMeta. destruct Hm as [_ Hm]. split; [by intros _|]. unfold onWire in *. simpl. destruct (objMeta o); simpl in *; congruence.
Qed.

Lemma yields_GetConfig ns : yields (λ config, objKey config = (ns, DefaultConfigResourceName) ∨ config = DefaultConfig) (GetConfig ns).
Proof.
  unfold GetConfig. eapply yields_bind_yields; [apply yields_GetIfExists|]. intros [config|] Hk; apply yields_ret; [by left|by right].
Qed.

Section frame.
Context (managerNamespace host : string) (currentVersion : Version) (reconciling controllerutil : Upsert) `{!UpsertLaws reconciling, !UpsertLaws controllerutil}.
Context (SetStatusCondition : list Condition -> Condition -> list Condition) (IsNoMatchError : Error -> bool).
Context (typeOf : Tenant -> string * string) (controlledBy : Tenant -> TenantState -> result TenantState) (Load : string -> result (list string)).
Context (Hcontrolled : ∀ tenant, gentle (controlledBy tenant)) (req : NamespacedName).
#[local] Abbreviation namespace := (tenantNamespacePattern req.2).

(** The namespace of the Tenant and what is in it, and the status of the Config *)
Definition provisions (k : ObjectKey) : Prop :=
  k = storeKey Namespace ("", namespace) ∨ k.2.1 = namespace ∨ k = storeKey Config (managerNamespace, DefaultConfigResourceName).

Lemma within_patchTenantStatus (K : ObjectKey -> Prop) phase reason message err : K (storeKey Tenant req) →
  within (changes K) (patchTenantStatus SetStatusCondition req phase reason message err).
Proof.
  intros HK. unfold patchTenantStatus. eapply within_bind_yields; [apply _|apply yields_Get|within_solve|]. intros o Hk.
  case_bool_decide; [within_step|]. within_step; [|within_step]. apply within_StatusUpdate. rewrite <- Hk in HK. exact HK.
Qed.

Lemma within_ensure (K : ObjectKey -> Prop) {O : Type} `{!Resource O} what (empty : O) f : gentle f → K (storeKey O (objKey empty)) →
  within (changes K) (ensure reconciling what empty f).
Proof.
  intros Hf HK. unfold ensure. within_step; [|within_step]. within_step. eapply within_weaken, upsert_within; [|done].
  intros c c'. apply changes_weaken. by intros k <-.
Qed.

Lemma gentle_tenant : (∀ ref, gentle (NamespaceReconciler ref)) ∧ gentle ServiceAccountReconciler ∧ gentle RoleReconciler ∧
  (∀ ns, gentle (RoleBindingReconciler ns)) ∧ gentle SecretReconciler ∧ (∀ data, gentle (TenantKubeconfigSecretReconciler data)).
Proof. split_and!; intros; intros o o' [= <-]; by destruct o. Qed.

Lemma within_reconcileTenant tenant : objKey tenant = req → within (changes provisions)
  (reconcile managerNamespace host currentVersion reconciling controllerutil IsNoMatchError typeOf controlledBy Load tenant).
Proof.
  intros Hk. assert (om_Name (tn_Meta tenant) = req.2) as Hn by (by rewrite <- Hk). unfold reconcile. rewrite Hn.
  destruct gentle_tenant as (? & ? & ? & ? & ? & ?).
  assert (∀ kind name, provisions (kind, (namespace, name))) as HK by (intros; by right; left).
  do 5 (within_step; [apply within_ensure; [done|first [by left|solve [right; left; done]]]|]).
  within_step; [within_step; unfold generateKubeconfig, GetKubeconfig, getKubeconfigFromConfigMap, buildKubeconfigFromEndpoint, lift; within_solve|].
  within_step; [apply within_ensure; [done|by right; left]|].
  within_step; [within_step; unfold reconcileTenantState, buildTenantState|within_step; [within_step; unfold reconcileConfigStatus|within_step; unfold reconcilePodMonitor, deletePodMonitor]].
  - eapply within_bind_yields; [apply _|by apply upsert_yields| |].
    + eapply within_weaken, upsert_within; [|done]. intros c c'. apply changes_weaken. intros k <-. apply HK.
    + intros state Hs. within_step; [within_solve|]. case_match; [|within_step]. within_step; [|within_step]. within_step. apply within_StatusUpdate.
      unfold objKey in *. simpl in *. rewrite Hs. apply HK.
  - eapply within_bind_yields; [apply _|apply yields_GetConfig|within_solve|]. intros config Hc.
    case_bool_decide as He; [within_step|]. case_bool_decide; [within_step|]. within_step; [|within_step]. apply within_StatusUpdate.
    destruct Hc as [Hc| ->]; [|done]. do 2 right. unfold objKey in *. simpl in *. by rewrite Hc.
  - within_solve.
    all: try apply HK. all: (apply within_Create || apply within_Update); unfold objKey in *; simpl in *; first [apply HK|match goal with H : _ = (namespace, _) |- _ => rewrite H; apply HK end].
Qed.
End frame.

(** ** What a run that returns leaves behind *)

Section leaves.
Context {A B : Type}.
Definition leaves {A} (F : Cluster -> Prop) (m : M Cluster A) : Prop := ∀ c a c', truthful c → m c = (Ret a, c') → F c'.

Lemma leaves_then (K K' : ObjectKey -> Prop) (F G : Cluster -> Prop) (m : M Cluster A) (k : A -> M Cluster B) :
  within (changes K') m → leaves F m → (∀ a, within (changes K) (k a)) → (∀ c c', changes K c c' → F c → F c') → (∀ a, leaves G (k a)) →
  leaves (λ c, F c ∧ G c) (m ≫= k).
Proof.
  intros Hm HF Hk Hst HG c b c' Ht H. apply bind_Ret in H as (a & c1 & H1 & H2).
  pose proof (Hm c) as Hc1. rewrite H1 in Hc1. pose proof (Hk a c1) as Hc2. rewrite H2 in Hc2. simpl in *.
  split; [by eapply Hst, HF|]. eapply HG; [|done]. by eapply truthful_changes.
Qed.
Lemma leaves_last (K' : ObjectKey -> Prop) (G : Cluster -> Prop) (m : M Cluster A) (k : A -> M Cluster B) :
  within (changes K') m → (∀ a, leaves G (k a)) → leaves G (m ≫= k).
Proof.
  intros Hm HG c b c' Ht H. apply bind_Ret in H as (a & c1 & H1 & H2). pose proof (Hm c) as Hc1. rewrite H1 in Hc1.
  eapply HG; [|done]. by eapply truthful_changes.
Qed.
Lemma leaves_wrap F p (m : M Cluster A) : leaves F m → leaves F (wrap p m).
Proof. intros Hm c a c' Ht H. apply wrap_Ret in H. by eapply Hm. Qed.
End leaves.

Lemma leaves_delete (O : Type) `{!Resource O} key : leaves (gone O key) (DeleteIgnoreNotFound O key).
Proof. intros c u c' Ht H. by eapply DeleteIgnoreNotFound_gone. Qed.

(** No object of the kind is in the namespace. *)
Definition none (O : Type) `{!Resource O} (namespace : string) (c : Cluster) : Prop := ∀ key o, findObject O c key = Some o → om_Namespace (objMeta o) ≠ namespace.

Lemma none_frame (O : Type) `{!Resource O} K namespace c c' : changes K c c' → (∀ key, ¬ K (storeKey O key)) → none O namespace c → none O namespace c'.
Proof. intros Hc HK Hn key o. rewrite (findObject_frame K c) by done. apply Hn. Qed.

Lemma leaves_ensureNone (O : Type) `{!Resource O} what left namespace : leaves (none O namespace) (ensureNone O what left namespace).
Proof.
  intros c u c' Ht H. unfold ensureNone in H. apply bind_Ret in H as (items & c1 & H1 & H2). apply wrap_Ret, List_Ret in H1 as [-> Ho].
  case_bool_decide as He; [|done]. apply mret_Ret in H2 as [_ <-]. intros key o Hf Hns. rewrite (findObject_objects c c1) in Hf by done.
  apply findObject_Some in Hf as [Hl Hk]. assert (o ∈ listObjects O c (Some namespace) ∅) as Hin; [|rewrite He in Hin; by apply elem_of_nil in Hin].
  unfold listObjects. apply list_elem_of_filter. split.
  - simpl. split; [by apply bool_decide_true|apply map_empty_subseteq].
  - apply list_elem_of_omap. exists (inject o). split; [|apply project_inject]. apply list_elem_of_fmap. exists (storeKey O key, inject o).
    split; [done|by apply elem_of_map_to_list].
Qed.

(** What is left of a tenant when its finalizer goes *)
Record vacated (namespace : string) (c : Cluster) : Prop := {
  vac_routes : none Route namespace c;
  vac_lbs : none LoadBalancer namespace c;
  vac_secrets : none SyncSecret namespace c;
  vac_account : gone ServiceAccount (namespace, serviceAccountName) c;
  vac_role : gone Role (namespace, roleName) c;
  vac_binding : gone RoleBinding (namespace, roleBindingName) c;
  vac_token : gone Secret (namespace, ServiceAccountTokenSecretName) c;
  vac_kubeconfig : gone Secret (namespace, KubeLBCCMKubeconfigSecretName) c;
  vac_namespace : gone Namespace ("", namespace) c;
}.

Lemma vacated_frame namespace K c c' : changes K c c' → (∀ k, K k → k.1 = "Tenant") → vacated namespace c → vacated namespace c'.
Proof.
  intros Hc HK [? ? ? ? ? ? ? ? ?].
  split; (eapply none_frame || eapply gone_frame); try done; intros; intros Hk%HK; done.
Qed.

Lemma within_del (O : Type) `{!Resource O} p key (keys : list ObjectKey) : storeKey O key ∈ keys →
  within (changes (λ k, k ∈ keys)) (wrap p (DeleteIgnoreNotFound O key)).
Proof. intros Hk. within_step. by apply within_DeleteIgnoreNotFound. Qed.

(** Deleting one object after another *)
Lemma leaves_del (O : Type) `{!Resource O} {B} p key (keys : list ObjectKey) (G : Cluster -> Prop) (k : unit -> M Cluster B) :
  storeKey O key ∉ keys → (∀ a, within (changes (λ x, x ∈ keys)) (k a)) → (∀ a, leaves G (k a)) →
  leaves (λ c, gone O key c ∧ G c) (wrap p (DeleteIgnoreNotFound O key) ≫= k).
Proof.
  intros Hk Hw HG. apply (leaves_then (λ x, x ∈ keys) (eq (storeKey O key))); [within_step; by apply within_DeleteIgnoreNotFound| |done| |done].
  - apply leaves_wrap, leaves_delete.
  - intros c c' Hc. by eapply gone_frame.
Qed.

Lemma leaves_Deletion namespace : leaves (λ c,
    gone ServiceAccount (namespace, serviceAccountName) c ∧ gone Role (namespace, roleName) c ∧ gone RoleBinding (namespace, roleBindingName) c ∧
    gone Secret (namespace, ServiceAccountTokenSecretName) c ∧ gone Secret (namespace, KubeLBCCMKubeconfigSecretName) c ∧ gone Namespace ("", namespace) c)
  (Deletion namespace).
Proof.
  unfold Deletion. cbv zeta.
  set (k6 := [storeKey Namespace ("", namespace)]). set (k5 := storeKey Secret (namespace, KubeLBCCMKubeconfigSecretName) :: k6).
  set (k4 := storeKey Secret (namespace, ServiceAccountTokenSecretName) :: k5). set (k3 := storeKey RoleBinding (namespace, roleBindingName) :: k4).
  set (k2 := storeKey Role (namespace, roleName) :: k3).
  apply (leaves_del ServiceAccount _ _ k2); [|intros _|intros _; apply (leaves_del Role _ _ k3); [|intros _|intros _; apply (leaves_del RoleBinding _ _ k4);
    [|intros _|intros _; apply (leaves_del Secret _ _ k5); [|intros _|intros _; apply (leaves_del Secret _ _ k6); [|intros _|intros _; apply leaves_wrap, leaves_delete]]]]].
  all: try (repeat (within_step; [apply within_del; unfold k2, k3, k4, k5, k6; set_solver|]); apply within_del; unfold k2, k3, k4, k5, k6; set_solver).
  all: unfold k2, k3, k4, k5, k6; rewrite !not_elem_of_cons; split_and!; by try apply not_elem_of_nil.
Qed.

Lemma leaves_cleanupResources namespace : leaves (λ c, none Route namespace c ∧ none LoadBalancer namespace c ∧ none SyncSecret namespace c) (cleanupResources namespace).
Proof.
  unfold cleanupResources.
  assert (∀ (O : Type) `{!Resource O} p, within (changes (λ _, True)) (wrap p (DeleteAllOf O namespace))) as Hd by (intros; within_step; by apply within_DeleteAllOf).
  assert (∀ (O : Type) `{!Resource O} what left, within (changes nothing) (ensureNone O what left namespace)) as Hn by (intros; unfold ensureNone; within_solve).
  do 3 (eapply leaves_last; [apply Hd|intros _]).
  apply (leaves_then nothing nothing); [apply Hn|apply leaves_ensureNone|intros _; within_step; apply Hn|intros c c' Hc; eapply none_frame; [done|by intros ? []]|].
  intros _. apply (leaves_then nothing nothing); [apply Hn|apply leaves_ensureNone|intros _; apply Hn|intros c c' Hc; eapply none_frame; [done|by intros ? []]|].
  intros _. apply leaves_ensureNone.
Qed.

Section finalizer.
Context (managerNamespace host : string) (currentVersion : Version) (reconciling controllerutil : Upsert) `{!UpsertLaws reconciling, !UpsertLaws controllerutil}.
Context (SetStatusCondition : list Condition -> Condition -> list Condition) (IsNoMatchError : Error -> bool).
Context (typeOf : Tenant -> string * string) (controlledBy : Tenant -> TenantState -> result TenantState) (Load : string -> result (list string)).
Context (Hcontrolled : ∀ tenant, gentle (controlledBy tenant)) (req : NamespacedName).
#[local] Abbreviation namespace := (tenantNamespacePattern req.2).
#[local] Abbreviation finalized := (finalized Tenant CleanupFinalizer req).
#[local] Abbreviation pass := (Reconcile managerNamespace host currentVersion reconciling controllerutil SetStatusCondition IsNoMatchError typeOf controlledBy Load req).
Implicit Types (tenant : Tenant) (c : Cluster).

Lemma triple_patchTenantStatus phase reason message err :
  triple finalized (patchTenantStatus SetStatusCondition req phase reason message err) (λ _, finalized) finalized.
Proof.
  unfold patchTenantStatus.
  eapply triple_bind; [eapply triple_yields, yields_Get; by eapply (triple_finalized_frame _ _ _ nothing); [intros []|apply within_Get]|].
  intros o. apply (triple_weaken (λ c, finalized c ∧ objKey o = req) _ (λ _, finalized) _ finalized _); [|by intros c [? ?]|done|done].
  apply triple_pure. intros Hk. case_bool_decide; [by apply triple_ret|]. eapply triple_bind.
  - apply triple_finalized_StatusUpdate. by rewrite <- Hk.
  - intros o'. apply triple_ret. by intros c [_ ?].
Qed.

Lemma status_finalized tenant phase reason message err c : objKey tenant = req → finalized c →
  finalized (updateTenantStatus SetStatusCondition tenant phase reason message err c).2.
Proof.
  intros Hk Hf. unfold updateTenantStatus. rewrite Hk.
  pose proof (triple_retry finalized 4 _ _ (triple_patchTenantStatus phase reason message err) c Hf) as Ht. unfold RetryOnConflict.
  by destruct (retryOnConflict _ _ c) as [[] ?].
Qed.

Lemma within_updateTenantStatus tenant phase reason message err (K : ObjectKey -> Prop) : objKey tenant = req → K (storeKey Tenant req) →
  within (changes K) (updateTenantStatus SetStatusCondition tenant phase reason message err).
Proof. intros Hk HK. unfold updateTenantStatus. rewrite Hk. within_step. by apply within_patchTenantStatus. Qed.

Lemma within_podMonitor (K : ObjectKey -> Prop) ns : K (storeKey PodMonitor (ns, podMonitorName)) → within (changes K) (deletePodMonitor IsNoMatchError ns).
Proof. intros HK. unfold deletePodMonitor. within_solve. Qed.

Lemma within_cleanupResources (K : ObjectKey -> Prop) ns : (∀ kind name, kind ∈ ["Route"; "LoadBalancer"; "SyncSecret"] → K (kind, (ns, name))) →
  within (changes K) (cleanupResources ns).
Proof.
  intros HK. unfold cleanupResources, ensureNone. do 3 (within_step; [within_step; apply within_DeleteAllOf; intros; apply HK; set_solver|]). within_solve.
Qed.

Lemma within_Deletion (K : ObjectKey -> Prop) ns : (∀ kind name, kind ∈ ["ServiceAccount"; "Role"; "RoleBinding"; "Secret"] → K (kind, (ns, name))) →
  K (storeKey Namespace ("", ns)) → within (changes K) (Deletion ns).
Proof.
  intros HK HN. unfold Deletion. cbv zeta. do 5 (within_step; [within_step; apply within_DeleteIgnoreNotFound, HK; set_solver|]).
  within_step. by apply within_DeleteIgnoreNotFound.
Qed.

(** Everything but Tenants *)
Definition noTenant (k : ObjectKey) : Prop := k.1 ≠ "Tenant".

Lemma finalized_within {A} (m : M Cluster A) c : within (changes noTenant) m → finalized c → finalized (m c).2.
Proof. intros Hw. eapply finalized_frame; [apply Hw|by intros []]. Qed.

(** A part that keeps the Tenant: it fails, or the rest runs. *)
Lemma keeps_stage {A B} (m : M Cluster A) (k : A -> M Cluster B) (Q : Cluster -> Prop) c : within (changes noTenant) m → truthful c → finalized c →
  (∀ a c1, m c = (Ret a, c1) → truthful c1 → finalized c1 → finalized (k a c1).2 ∨ Q (k a c1).2) →
  finalized ((m ≫= k) c).2 ∨ Q ((m ≫= k) c).2.
Proof.
  intros Hw Ht Hf Hk. pose proof (finalized_within m c Hw Hf) as F. pose proof (Hw c) as C. destruct (m c) as [r c1] eqn:Hm.
  rewrite (bind_run _ _ _ _ _ Hm). destruct r as [a| | |]; [|by left..]. apply Hk; [done|by eapply truthful_changes|done].
Qed.

Lemma cleanup_keeps tenant c : objKey tenant = req → truthful c → finalized c →
  let c' := (cleanup IsNoMatchError tenant c).2 in finalized c' ∨ vacated namespace c'.
Proof.
  intros Hk Ht Hf. assert (om_Name (tn_Meta tenant) = req.2) as Hn by (by rewrite <- Hk). unfold cleanup. cbv zeta. rewrite Hn.
  apply (keeps_stage _ _ (vacated namespace)); [within_step; by apply within_podMonitor|done|done|]. intros u1 c1 _ T1 F1.
  apply (keeps_stage _ _ (vacated namespace)); [|done|done|].
  { within_step. apply within_cleanupResources. intros kind name Hin [= ->]. by apply (bool_decide_pack _) in Hin. }
  intros u2 c2 H2 T2 F2. apply (keeps_stage _ _ (vacated namespace)); [|done|done|].
  { apply within_Deletion; [|done]. intros kind name Hin [= ->]. by apply (bool_decide_pack _) in Hin. }
  intros u3 c3 H3 T3 F3. right. destruct (leaves_wrap _ _ _ (leaves_cleanupResources namespace) _ _ _ T1 H2) as (N1 & N2 & N3).
  destruct (leaves_Deletion namespace _ _ _ T2 H3) as (G1 & G2 & G3 & G4 & G5 & G6).
  assert (within (changes (λ k, k.1 ∈ ["ServiceAccount"; "Role"; "RoleBinding"; "Secret"; "Namespace"])) (Deletion namespace)) as W4
    by (apply within_Deletion; [intros kind name; set_solver|simpl; set_solver]).
  pose proof (W4 c2) as C3. rewrite H3 in C3. simpl in C3.
  assert (vacated namespace c3) as Hv.
  { split; try done; (eapply none_frame; [exact C3|intros key Hin; by apply (bool_decide_pack _) in Hin|done]). }
  eapply (vacated_frame _ (eq (storeKey Tenant req))); [|by intros k <-|exact Hv].
  apply within_removeCleanupFinalizer. by rewrite Hk.
Qed.

Context (Hscope : req.1 = "").

Lemma provisions_not_tenant : ¬ provisions managerNamespace req (storeKey Tenant req).
Proof. intros [H|[H|H]]; [done| |done]. unfold storeKey in H. simpl in H. rewrite Hscope in H. done. Qed.

Lemma tenant_keeps tenant c : truthful c → findObject Tenant c req = Some tenant → CleanupFinalizer ∈ om_Finalizers (tn_Meta tenant) →
  let c' := (pass c).2 in finalized c' ∨ vacated namespace c'.
Proof.
  intros Ht Hf Hin. assert (finalized c) as Hfin by (by exists tenant). pose proof (findObject_key _ _ _ Hf) as Hk. unfold Reconcile. cbv zeta.
  destruct (try_Get_total Tenant req c) as (found & c1 & Hg & C1). rewrite (bind_eval _ _ _ _ _ Hg).
  pose proof (changes_nothing _ _ C1) as Ho. pose proof (truthful_changes _ _ _ C1 Ht) as T1. pose proof (finalized_objects _ _ _ _ _ Ho Hfin) as F1.
  destruct found as [o|err]; [|left; by destruct (IsNotFound err)].
  apply try_Ret in Hg. simpl in Hg. apply Get_Ret in Hg as [Hg _]. rewrite Hf in Hg. injection Hg as <-.
  destruct (om_Deleting (tn_Meta tenant)).
  - unfold when. destruct (ContainsFinalizer _ _); [|by left].
    set (status := updateTenantStatus _ _ _ _ _ _). pose proof (status_finalized tenant TenantPhaseTerminating "Terminating" "Tenant is being deleted" None c1 Hk F1) as F2.
    pose proof (within_updateTenantStatus tenant TenantPhaseTerminating "Terminating" "Tenant is being deleted" None (eq (storeKey Tenant req)) Hk eq_refl c1) as C2.
    fold status in F2, C2. pose proof (truthful_changes _ _ _ C2 T1) as T2. unfold mbind, M_bind, try. destruct (status c1) as [[u|e| |] c2]; simpl in *;
      [by apply cleanup_keeps|by apply cleanup_keeps|by left..].
  - rewrite addCleanupFinalizer_there by done. rewrite (bind_eval _ _ _ tenant c1) by done. left.
    set (run := reconcile _ _ _ _ _ _ _ _ _ _).
    pose proof (within_reconcileTenant managerNamespace host currentVersion reconciling controllerutil IsNoMatchError typeOf controlledBy Load Hcontrolled req tenant Hk c1) as C2.
    fold run in C2. pose proof (finalized_frame _ _ _ _ _ _ C2 provisions_not_tenant F1) as F2. unfold mbind at 1, M_bind, try at 1.
    destruct (run c1) as [[u|e| |] c2]; simpl in *; [| |done|done].
    + pose proof (status_finalized tenant TenantPhaseReady "Reconciled" "Tenant reconciled successfully" None c2 Hk F2) as F3.
      unfold mbind, M_bind. destruct (updateTenantStatus _ _ _ _ _ _ c2) as [[u3|e| |] c3]; simpl in *; try done.
      pose proof (within_List (O:=Tenant) nothing None ∅ c3) as C4. unfold try. 
      assert (finalized (List Tenant None ∅ c3).2) as F4 by (eapply finalized_objects; [by apply changes_nothing|done]).
      by destruct (List Tenant None ∅ c3) as [[] ?].
    + pose proof (status_finalized tenant TenantPhaseFailed "ReconciliationFailed" (ErrorString e) (Some e) c2 Hk F2) as F3.
      unfold mbind, M_bind, try. by destruct (updateTenantStatus _ _ _ _ _ _ c2) as [[u3|e3| |] c3].
Qed.

(** What a pass over a Tenant may write *)
Definition ofTenant (k : ObjectKey) : Prop := k = storeKey Tenant req ∨ provisions managerNamespace req k.

Lemma within_tenant : within (changes ofTenant) pass.
Proof.
  assert (ofTenant (storeKey Tenant req)) as HT by (by left). assert (∀ kind name, ofTenant (kind, (namespace, name))) as HN by (by right; right; left).
  unfold Reconcile. eapply within_bind_yields; [apply _|apply yields_try, yields_Get|within_solve|]. intros [tenant|err] Hk; [|within_solve].
  assert (om_Name (tn_Meta tenant) = req.2) as Hn by (by rewrite <- Hk). destruct (om_Deleting _).
  - within_step. within_step; [within_step; by apply within_updateTenantStatus|]. unfold cleanup. cbv zeta. rewrite Hn.
    within_step; [within_step; apply within_podMonitor, HN|]. within_step; [within_step; by apply within_cleanupResources|].
    within_step; [apply within_Deletion; [done|by right; left]|]. apply within_removeCleanupFinalizer. by rewrite Hk.
  - eapply within_bind_yields; [apply _| |apply within_addCleanupFinalizer; by rewrite Hk|].
    { unfold addCleanupFinalizer. destruct (ContainsFinalizer _ _); [by apply (yields_ret (λ o, objKey o = req))|].
      apply yields_wrap. intros c o c' Hu. apply yields_Update in Hu. rewrite Hu, <- Hk. unfold objKey. by rewrite objMeta_setMeta. }
    intros tenant' Hk'. within_step.
    { within_step. eapply within_weaken; [|by apply within_reconcileTenant]. intros c c'. apply changes_weaken. intros k Hp. right. by rewrite Hk' in Hp. }
    destruct a; [within_step; [by apply within_updateTenantStatus|within_solve]|]. within_step; [within_step; by apply within_updateTenantStatus|within_step].
Qed.
End finalizer.

(** ** Properties *)

Section theorems.
Context (managerNamespace host : string) (currentVersion : Version) (reconciling controllerutil : Upsert) `{!UpsertLaws reconciling, !UpsertLaws controllerutil}.
Context (SetStatusCondition : list Condition -> Condition -> list Condition) (IsNoMatchError : Error -> bool).
Context (typeOf : Tenant -> string * string) (controlledBy : Tenant -> TenantState -> result TenantState) (Load : string -> result (list string)).
Context (name : string).
#[local] Abbreviation pass := (Reconcile managerNamespace host currentVersion reconciling controllerutil SetStatusCondition IsNoMatchError typeOf controlledBy Load ("", name)).

(** C20: the finalizer of a Tenant is safe: a Tenant with the cleanup finalizer keeps it
    through every pass, failing or not, unless its namespace has no Route, LoadBalancer or
    SyncSecret left, and its account, rights, secrets and the namespace itself are
    deleted. *)
Theorem tenant_finalizer_safe (c : Cluster) (tenant : Tenant) :
  (∀ tenant, gentle (controlledBy tenant)) → truthful c → findObject Tenant c ("", name) = Some tenant → CleanupFinalizer ∈ om_Finalizers (tn_Meta tenant) →
  let c' := (pass c).2 in finalized Tenant CleanupFinalizer ("", name) c' ∨ vacated (tenantNamespacePattern name) c'.
Proof. intros Hc Ht Hf Hin. by apply (tenant_keeps _ _ _ _ _ _ _ _ _ _ Hc ("", name) eq_refl tenant). Qed.

(** C21: Tenants are isolated: whatever the API server answers, a pass over a Tenant keeps the
    store well-formed and changes nothing but the Tenant, its namespace, objects in that
    namespace and the Config; above all nothing of another Tenant. *)
Theorem tenant_isolated (c : Cluster) :
  (∀ tenant, gentle (controlledBy tenant)) → let c' := (pass c).2 in
  (well_formed c → well_formed c') ∧
  (∀ k, ¬ ofTenant managerNamespace ("", name) k → cl_objects c' !! k = cl_objects c !! k) ∧
  (∀ other k, other ≠ name → tenantNamespacePattern other ≠ managerNamespace →
     k = storeKey Tenant ("", other) ∨ k = storeKey Namespace ("", tenantNamespacePattern other) ∨ k.2.1 = tenantNamespacePattern other →
     cl_objects c' !! k = cl_objects c !! k).
Proof.
  intros Hc. destruct (within_tenant managerNamespace host currentVersion reconciling controllerutil SetStatusCondition IsNoMatchError typeOf controlledBy Load Hc ("", name) c) as [Hf Hw _].
  split_and!; [done|done|]. intros other k Hne Hm Hk. apply Hf.
  assert (tenantNamespacePattern other ≠ tenantNamespacePattern name) as Hns.
  { intros Heq. apply Hne. by rewrite <- (RemoveTenantPrefix_pattern other), Heq, RemoveTenantPrefix_pattern. }
  unfold ofTenant, provisions. destruct Hk as [-> | [-> | Hk]]; [naive_solver..|].
  intros [-> | [-> | [Hk' | ->]]]; simpl in *; [done|done|congruence|congruence].
Qed.
End theorems.
