(* ===== verification/TenantProvision.v ===== *)
(** * What a tenant is given

    A pass of the Tenant controller without failing calls, on any library that keeps the
    laws of [UpsertLaws]. *)

From S2P Require Import Prelude GoStrings GoNet GoBase64 Api GatewayApi Names PortAllocator Kube Finalizers Services EnvoyBootstrap Manager EnvoyController CCM Upserts TenantController.
Local Open Scope go_scope.

(** ** Writing one object *)

Section ensure.
Context (lib : Upsert) `{!UpsertLaws lib}.

Lemma ensure_delivers (O : Type) `{!Resource O} what (empty : O) f (P : Cluster -> Prop) (F : O -> Prop) :
  gentle f → (∀ o, ∃ o', f o = Ok o') →
  (∀ c wanted o, P c → f (default empty (findObject O c (objKey empty))) = Ok wanted → storedAs wanted o → F o) →
  delivers [storeKey O (objKey empty)] P (ensure lib what empty f) (holds O (objKey empty) F).
Proof.
  intros Hf Htot HF c Hq HP. destruct (upsert_delivers lib O empty f P F Hf Htot HF c Hq HP) as (o & c' & H & Q & C & Ho & HFo).
  exists tt, c'. unfold ensure. rewrite (bind_eval _ _ _ _ _ (wrap_eval _ _ _ _ _ H)). split_and!; [done|done|done|by exists o].
Qed.
End ensure.

(** ** Everything of a tenant *)

(** Every owner of the state is the Tenant of that name. *)
Definition ownedAtMostBy (name : string) (s : TenantState) : Prop := ∀ owner, owner ∈ om_OwnerReferences (ts_Meta s) →
  or_APIVersion owner = "kubelb.k8c.io/v1alpha1" ∧ or_Kind owner = "Tenant" ∧ or_Name owner = name.

Section provision.
Context (managerNamespace host : string) (currentVersion : Version) (reconciling controllerutil : Upsert).
Context `{!UpsertLaws reconciling, !UpsertLaws controllerutil, !UpsertRuns controllerutil}.
Context (SetStatusCondition : list Condition -> Condition -> list Condition) (IsNoMatchError : Error -> bool).
Context (typeOf : Tenant -> string * string) (controlledBy : Tenant -> TenantState -> result TenantState) (Load : string -> result (list string)).
(** [SetControllerReference] sets the owner of an object that no other object owns. *)
Context (Hcontrolled : ∀ tenant, gentle (controlledBy tenant))
  (Hcontrols : ∀ tenant s, ownedAtMostBy (om_Name (tn_Meta tenant)) s → ∃ s', controlledBy tenant s = Ok s')
  (Hmatch : ∀ e, IsNotFound e = true → IsNoMatchError e = false).
(** The name of the Tenant; the token, the certificate and the servers the kubeconfig is made of; the Config *)
Context (name token ca : string) (servers : list string) (config : Config).
#[local] Abbreviation namespace := (tenantNamespacePattern name).

(** What the kubeconfig and the state are made from *)
Record sources (c : Cluster) : Prop := {
  src_token : holds Secret (namespace, ServiceAccountTokenSecretName)
    (λ s, get (sec_Data s) ServiceAccountTokenKey = token ∧ get (sec_Data s) ServiceAccountRootCAKey = ca) c;
  src_servers : GetKubeconfig Load c = (Ret servers, c);
  src_config : default DefaultConfig (findObject Config c (managerNamespace, DefaultConfigResourceName)) = config;
}.

Lemma GetKubeconfig_frame c c' : cl_faults c = [] → cl_faults c' = [] →
  findObject ConfigMap c' ("kube-public", configMapName) = findObject ConfigMap c ("kube-public", configMapName) →
  findObject EndpointSlice c' ("default", kubernetesEndpointsName) = findObject EndpointSlice c ("default", kubernetesEndpointsName) →
  GetKubeconfig Load c = (Ret servers, c) → GetKubeconfig Load c' = (Ret servers, c').
Proof.
  intros Hno Hno' Hcm Hes. unfold GetKubeconfig, getKubeconfigFromConfigMap, buildKubeconfigFromEndpoint, mbind, M_bind, try, lift.
  rewrite !(Get_eval (O:=ConfigMap)), Hcm by done. destruct (findObject ConfigMap c _) as [cm|]; simpl;
    [destruct (entries (cm_Data cm) !! _) as [data|]; simpl; [destruct (Load data); simpl; [intros [= ->]; done|]|]|].
  all: rewrite !(Get_eval (O:=EndpointSlice)), Hes by done.
  all: destruct (findObject EndpointSlice c _) as [es|]; simpl; [|done].
  all: destruct (es_Endpoints es) as [|[|a l] ends]; [done..|]; destruct (ip_value a), (getSecurePort es); try done; by intros [= ->].
Qed.

Lemma sources_frame K c c' : changes K c c' → quiet c → cl_faults c' = [] →
  (∀ kind key, kind ∈ ["ConfigMap"; "EndpointSlice"; "Config"] → ¬ K (kind, key)) →
  holds Secret (namespace, ServiceAccountTokenSecretName)
    (λ s, get (sec_Data s) ServiceAccountTokenKey = token ∧ get (sec_Data s) ServiceAccountRootCAKey = ca) c' → sources c → sources c'.
Proof.
  intros Hc [_ Hno] Hno' HK Ht [_ Hs Hcfg]. split; [done|eapply GetKubeconfig_frame; [exact Hno|done|..|done]|rewrite <- Hcfg; f_equal].
  all: apply (findObject_frame K); [done|apply HK; set_solver].
Qed.

Lemma generateKubeconfig_eval c : quiet c → sources c → token ≠ "" → ca ≠ "" →
  generateKubeconfig host Load namespace c = (Ret (kubeconfig (Base64 ca) token namespace (default host (head (filter (λ server, server ≠ "") servers)))), c).
Proof.
  intros [_ Hno] [(s & Hf & Ht & Hca) Hs _] Hnt Hnc. unfold generateKubeconfig.
  rewrite (bind_eval _ _ _ s c) by (apply wrap_eval; by rewrite Get_eval, Hf).
  rewrite (bind_eval _ _ _ servers c) by (by apply wrap_eval). cbv zeta. rewrite Ht, Hca. by rewrite !bool_decide_false.
Qed.

Definition tenantStateOf (tenant : Tenant) (s : TenantState) : Prop :=
  tss_Version (ts_Status s) = currentVersion ∧ tss_Disable (ts_Status s) = cls_Disable (tn_LoadBalancer tenant) || cls_Disable (cf_LoadBalancer config).

Lemma GetConfig_eval c : quiet c → sources c → GetConfig managerNamespace c = (Ret config, c).
Proof. intros [_ Hno] [_ _ Hc]. unfold GetConfig. by rewrite (bind_eval _ _ _ _ _ (GetIfExists_eval c Hno _)), Hc. Qed.

(** No other object owns the TenantState that is there. *)
Definition unowned (c : Cluster) : Prop := ∀ s, findObject TenantState c (namespace, TenantStateName) = Some s → ownedAtMostBy name s.
Definition sourced (c : Cluster) : Prop := sources c ∧ unowned c.

Lemma unowned_frame K c c' : changes K c c' → ¬ K (storeKey TenantState (namespace, TenantStateName)) → unowned c → unowned c'.
Proof. intros Hc HK Hu s. rewrite (findObject_frame _ _ _ _ Hc HK). apply Hu. Qed.

Lemma state_delivers tenant : om_Name (tn_Meta tenant) = name → delivers [storeKey TenantState (namespace, TenantStateName)] sourced
  (reconcileTenantState managerNamespace currentVersion controllerutil controlledBy tenant namespace) (holds TenantState (namespace, TenantStateName) (tenantStateOf tenant)).
Proof.
  intros Hname c Hq [HP Hu]. unfold reconcileTenantState.
  set (empty := {| ts_Meta := emptyMeta namespace TenantStateName; ts_Status := emptyTenantStateStatus |}).
  assert (∃ s c1, upsert controllerutil empty (controlledBy tenant) c = (Ret s, c1) ∧ quiet c1 ∧
    changes (λ k, k ∈ [storeKey TenantState (namespace, TenantStateName)]) c c1 ∧
    findObject TenantState c1 (namespace, TenantStateName) = Some s) as (s & c1 & H1 & Q1 & C1 & F1).
  { destruct Hq as [Hw Hno]. destruct (upsert_runs TenantState empty (controlledBy tenant) c (Hcontrolled tenant) Hw Hno) as (s & c1 & H & Hno1).
    { apply Hcontrols. rewrite Hname. change (objKey empty) with (namespace, TenantStateName).
      destruct (findObject TenantState c _) as [s|] eqn:Hs; simpl; [by apply Hu|]. by intros owner ?%elem_of_nil. }
    pose proof (upsert_within TenantState empty _ (Hcontrolled tenant) c) as Hc. rewrite H in Hc. simpl in Hc.
    destruct (upsert_Ret TenantState empty _ c s c1 (Hcontrolled tenant) Hw H) as (Ho & _).
    exists s, c1. split_and!; [done|by eapply quiet_changes|eapply changes_weaken; [|exact Hc]; intros k <-; by left|done]. }
  assert (sources c1) as S1.
  { eapply sources_frame; [exact C1|done|apply Q1| | |done].
    - intros kind key Hin Hk%list_elem_of_singleton. injection Hk as -> _. by apply (bool_decide_pack _) in Hin.
    - eapply holds_frame; [exact C1| |apply HP]. by intros ?%list_elem_of_singleton. }
  rewrite (bind_eval _ _ _ _ _ H1). unfold buildTenantState at 1.
  set (status := {| tss_Version := currentVersion; tss_Conditions := tss_Conditions (ts_Status s);
    tss_Disable := cls_Disable (tn_LoadBalancer tenant) || cls_Disable (cf_LoadBalancer config) |}).
  rewrite (bind_eval _ _ _ status c1).
  2: { by rewrite (bind_eval _ _ _ _ _ (try_eval _ _ _ _ (GetConfig_eval c1 Q1 S1))). }
  destruct (shouldUpdateStatus (ts_Status s) status) eqn:Hs.
  - assert (objKey {| s with ts_Status := status |} = (namespace, TenantStateName)) as Hk by (by rewrite <- (findObject_key _ _ _ F1)).
    destruct (StatusUpdate_stored c1 (proj2 Q1) {| s with ts_Status := status |} s) as (c2 & H2 & C2 & N2 & F2); [by rewrite Hk|].
    rewrite (bind_eval _ _ _ _ _ (wrap_eval _ _ _ _ _ H2)). rewrite Hk in *. exists tt, c2.
    split_and!; [done|by eapply quiet_changes| |eexists; split; [done|by split]].
    transitivity c1; [done|]. eapply changes_weaken; [|done]. intros k <-. by left.
  - exists tt, c1. split_and!; [done|done|done|]. exists s. split; [done|]. unfold shouldUpdateStatus in Hs.
    apply orb_false_iff in Hs as [[Hv Hd]%orb_false_iff _]. apply negb_false_iff in Hv, Hd. apply bool_decide_eq_true in Hv. apply eqb_prop in Hd. done.
Qed.

(** The settings of the proxy are as in [config]. *)
Definition proxySettings (c : Cluster) : Prop :=
  cf_EnvoyProxy (default DefaultConfig (findObject Config c (managerNamespace, DefaultConfigResourceName))) = cf_EnvoyProxy config.

Lemma config_delivers : delivers [storeKey Config (managerNamespace, DefaultConfigResourceName)] sources
  (reconcileConfigStatus managerNamespace currentVersion) proxySettings.
Proof.
  intros c Hq HP. unfold reconcileConfigStatus. rewrite (bind_eval _ _ _ _ _ (GetConfig_eval c Hq HP)). pose proof (src_config _ HP) as Hc.
  assert (proxySettings c) by (unfold proxySettings; by rewrite Hc).
  case_bool_decide as Hn; [by exists tt, c|]. case_bool_decide as Hv; [by exists tt, c|].
  destruct (findObject Config c _) as [cfg|] eqn:Hf; simpl in Hc; [subst cfg|by rewrite <- Hc in Hn].
  assert (objKey {| config with cf_Version := currentVersion |} = (managerNamespace, DefaultConfigResourceName)) as Hk by (by rewrite <- (findObject_key _ _ _ Hf)).
  destruct (StatusUpdate_stored c (proj2 Hq) {| config with cf_Version := currentVersion |} config) as (c2 & H2 & C2 & N2 & F2); [by rewrite Hk|].
  rewrite (bind_eval _ _ _ _ _ H2). rewrite Hk in *. exists tt, c2. split_and!; [done|by eapply quiet_changes| |unfold proxySettings; by rewrite F2].
  eapply changes_weaken; [|done]. intros k <-. by left.
Qed.

(** The monitor is there exactly if the Config asks for it. *)
Definition monitored (c : Cluster) : Prop :=
  if default false (ep_PodMonitor (cf_EnvoyProxy config))
  then holds PodMonitor (namespace, podMonitorName)
         (λ m, pm_MatchLabels m = pm_MatchLabels (desiredPodMonitor namespace) ∧ pm_Endpoints m = pm_Endpoints (desiredPodMonitor namespace)) c
  else gone PodMonitor (namespace, podMonitorName) c.

Lemma deletePodMonitor_eval c : cl_faults c = [] → deletePodMonitor IsNoMatchError namespace c = DeleteIgnoreNotFound PodMonitor (namespace, podMonitorName) c.
Proof.
  intros Hno. unfold deletePodMonitor, DeleteIgnoreNotFound, Delete, mbind, M_bind, try. rewrite existing_eval by done.
  destruct (findObject PodMonitor c _) as [old|]; [|done]. by case_bool_decide.
Qed.

Lemma monitor_delivers : delivers [storeKey PodMonitor (namespace, podMonitorName)] proxySettings
  (reconcilePodMonitor managerNamespace IsNoMatchError namespace) monitored.
Proof.
  intros c [Hw Hno] HP. unfold reconcilePodMonitor, monitored. unfold GetConfig at 1.
  rewrite (bind_eval _ _ _ (default DefaultConfig (findObject Config c (managerNamespace, DefaultConfigResourceName))) c).
  2: { apply wrap_eval. by rewrite (bind_eval _ _ _ _ _ (GetIfExists_eval c Hno _)). }
  rewrite HP. destruct (default false _); cbn [negb].
  - cbv zeta. assert (∀ m, changes (eq (storeKey PodMonitor (namespace, podMonitorName))) c m → changes (λ k, k ∈ [storeKey PodMonitor (namespace, podMonitorName)]) c m) as HK.
    { intros m. apply changes_weaken. intros k <-. by left. }
    destruct (findObject PodMonitor c (namespace, podMonitorName)) as [m|] eqn:Hf.
    + rewrite (bind_eval _ _ _ (inl m) c) by (apply try_eval; by rewrite Get_eval, Hf). set (wanted := {| pm_MatchLabels := _ |}).
      pose proof (findObject_key _ _ _ Hf) as Hk. assert (objKey wanted = (namespace, podMonitorName)) as Hk' by (by rewrite <- Hk).
      destruct (Update_stored c Hno wanted m) as (c' & H & C & N & F); [by rewrite Hk'|by right|apply (findObject_meta _ _ _ Hw Hf)|].
      rewrite Hk' in *. rewrite (bind_eval _ _ _ _ _ H). exists tt, c'. split_and!; [done|by eapply quiet_changes|by apply HK|by eexists].
    + rewrite (bind_eval _ _ _ (inr (notFound (O:=PodMonitor) (namespace, podMonitorName))) c) by (apply try_Fail; by rewrite Get_eval, Hf).
      rewrite Hmatch by done. simpl. destruct (Create_stored c Hno (desiredPodMonitor namespace)) as (c' & H & C & N & F); [done|].
      rewrite (bind_eval _ _ _ _ _ H). exists tt, c'. split_and!; [done|by eapply quiet_changes|by apply HK|by eexists].
  - rewrite deletePodMonitor_eval by done.
    pose proof (within_DeleteIgnoreNotFound (O:=PodMonitor) (λ k, k ∈ [storeKey PodMonitor (namespace, podMonitorName)]) (namespace, podMonitorName)) as Hc.
    specialize (Hc ltac:(by left) c). destruct (DeleteIgnoreNotFound PodMonitor (namespace, podMonitorName) c) as [r c'] eqn:H.
    pose proof (DeleteIgnoreNotFound_eval c Hno (O:=PodMonitor) (namespace, podMonitorName)) as He. rewrite H in He. injection He as -> He.
    exists tt, c'. split_and!; [done|eapply quiet_changes; [exact Hc|by subst|done]|done|].
    eapply DeleteIgnoreNotFound_gone; [|exact H]. unfold truthful. rewrite Hno. constructor.
Qed.

Definition kubeconfigText : string := kubeconfig (Base64 ca) token namespace (default host (head (filter (λ server, server ≠ "") servers))).

(** What the tenant's CCM needs *)
Record provisioned (tenant : Tenant) (c : Cluster) : Prop := {
  pv_namespace : holds Namespace ("", namespace)
    (λ ns, entries (om_Labels (ns_Meta ns)) !! LabelManagedBy = Some LabelControllerName ∧
           ∃ owner, om_OwnerReferences (ns_Meta ns) = [owner] ∧ or_Name owner = name ∧ or_UID owner = om_UID (tn_Meta tenant)) c;
  pv_account : holds ServiceAccount (namespace, serviceAccountName) (λ _, True) c;
  pv_role : holds Role (namespace, roleName) (λ r, rol_Rules r = ccmRules) c;
  pv_binding : holds RoleBinding (namespace, roleBindingName)
    (λ b, rr_Name (rb_RoleRef b) = roleName ∧
          rb_Subjects b = [{| sub_Kind := "ServiceAccount"; sub_Name := serviceAccountName; sub_Namespace := namespace |}]) c;
  pv_token : holds Secret (namespace, ServiceAccountTokenSecretName)
    (λ s, sec_Type s = serviceAccountTokenType ∧ entries (om_Annotations (sec_Meta s)) !! serviceAccountTokenAnnotation = Some serviceAccountName) c;
  pv_kubeconfig : holds Secret (namespace, KubeLBCCMKubeconfigSecretName) (λ s, get (sec_Data s) "kubelb" = kubeconfigText) c;
  pv_state : holds TenantState (namespace, TenantStateName) (tenantStateOf tenant) c;
  pv_monitor : monitored c;
}.

Lemma sources_kept (O : Type) `{!Resource O} key c c' : quiet c → quiet c' → changes (λ x, x ∈ [storeKey O key]) c c' →
  resKind O ∉ ["ConfigMap"; "EndpointSlice"; "Config"] → storeKey O key ≠ storeKey Secret (namespace, ServiceAccountTokenSecretName) →
  sources c → sources c'.
Proof.
  intros Hq [_ Hno'] Hc Hkind Hne HP. eapply sources_frame; [exact Hc|done|done| |eapply holds_frame; [exact Hc| |apply HP]|done].
  - intros kind k Hin Hk%list_elem_of_singleton. injection Hk as -> _. done.
  - by intros ?%list_elem_of_singleton.
Qed.

(** What of an object is stored as wanted, kind by kind *)
Lemma stored_role wanted r : storedAs wanted r → rol_Rules r = rol_Rules wanted.
Proof. by intros [[m ->] _ _ _]. Qed.
Lemma stored_binding wanted b : storedAs wanted b → rb_RoleRef b = rb_RoleRef wanted ∧ rb_Subjects b = rb_Subjects wanted.
Proof. by intros [[m ->] _ _ _]. Qed.
Lemma stored_secret wanted s : storedAs wanted s → sec_Data s = sec_Data wanted ∧ sec_Type s = sec_Type wanted.
Proof. by intros [[m ->] _ _ _]. Qed.

(** Writing one object on the way *)
Lemma ensure_then (O : Type) `{!Resource O} {B} what key (empty : O) f (F : O -> Prop) keys (k : unit -> M Cluster B) G : objKey empty = key →
  gentle f → (∀ o, ∃ o', f o = Ok o') → (∀ old wanted o, f old = Ok wanted → storedAs wanted o → F o) →
  resKind O ∉ ["ConfigMap"; "EndpointSlice"; "Config"; "TenantState"] → storeKey O key ≠ storeKey Secret (namespace, ServiceAccountTokenSecretName) →
  storeKey O key ∉ keys → (∀ u, delivers keys sourced (k u) G) →
  delivers (storeKey O key :: keys) sourced (ensure reconciling what empty f ≫= k) (λ c, holds O key F c ∧ G c).
Proof.
  intros <- Hf Ht HF Hkind Hne Hk HG. apply (delivers_then [storeKey O (objKey empty)] keys sourced sourced); [|..|done].
  - eapply ensure_delivers; [done..|]. intros c wanted o _. apply HF.
  - intros c c' Hq Hq' Hc [HP Hu] _. split; [apply (sources_kept O (objKey empty) c); [done..|set_solver|done|done]|].
    eapply unowned_frame; [exact Hc| |done]. intros Hin%list_elem_of_singleton. apply (f_equal fst) in Hin. simpl in Hin. set_solver.
  - intros c c' Hc. by eapply holds_frame.
Qed.

Section reconcile.
Context (tenant : Tenant) (Hname : om_Name (tn_Meta tenant) = name) (Htoken : token ≠ "") (Hca : ca ≠ "").

(** The state, the Config and the monitor *)
Definition lastKeys : list ObjectKey :=
  [storeKey TenantState (namespace, TenantStateName); storeKey Config (managerNamespace, DefaultConfigResourceName); storeKey PodMonitor (namespace, podMonitorName)].
Lemma last_delivers : delivers lastKeys sourced
  (_ ← wrap "failed to reconcile TenantState" (reconcileTenantState managerNamespace currentVersion controllerutil controlledBy tenant namespace);
   _ ← wrap "failed to reconcile Config status" (reconcileConfigStatus managerNamespace currentVersion);
   wrap "failed to reconcile PodMonitor" (reconcilePodMonitor managerNamespace IsNoMatchError namespace))
  (λ c, holds TenantState (namespace, TenantStateName) (tenantStateOf tenant) c ∧ proxySettings c ∧ monitored c).
Proof.
  apply (delivers_then [_] [_; _] _ sources); [by apply delivers_wrap, state_delivers| | |intros _; apply (delivers_then [_] [_] _ proxySettings);
    [apply delivers_wrap, config_delivers| | |intros _; apply delivers_wrap, monitor_delivers]].
  - intros c c' Hq Hq' Hc [HP _] _. apply (sources_kept TenantState _ c c' Hq Hq' Hc); [simpl; other_key|done|done].
  - intros c c' Hc. eapply holds_frame; [exact Hc|]. simpl. other_key.
  - by intros.
  - intros c c' Hc. unfold proxySettings. rewrite (findObject_frame _ c c' _ Hc) by other_key. done.
Qed.

(** The token Secret keeps the token. *)
Definition tokenSecret (s : Secret) : Prop :=
  (get (sec_Data s) ServiceAccountTokenKey = token ∧ get (sec_Data s) ServiceAccountRootCAKey = ca) ∧
  sec_Type s = serviceAccountTokenType ∧ entries (om_Annotations (sec_Meta s)) !! serviceAccountTokenAnnotation = Some serviceAccountName.

Lemma token_then {B} keys (k : unit -> M Cluster B) G : storeKey Secret (namespace, ServiceAccountTokenSecretName) ∉ keys → (∀ u, delivers keys sourced (k u) G) →
  delivers (storeKey Secret (namespace, ServiceAccountTokenSecretName) :: keys) sourced
    (ensure reconciling "secret" (emptySecret namespace ServiceAccountTokenSecretName) SecretReconciler ≫= k)
    (λ c, holds Secret (namespace, ServiceAccountTokenSecretName) tokenSecret c ∧ G c).
Proof.
  intros Hk HG. apply (delivers_then [_] keys sourced sourced); [refine (ensure_delivers reconciling Secret "secret" (emptySecret namespace ServiceAccountTokenSecretName) SecretReconciler sourced tokenSecret _ _ _)| | |done].
  - apply gentle_tenant.
  - by eexists.
  - intros c wanted s [[(old & Hf & Ho) _ _] _] Hw Hs. change (objKey _) with (namespace, ServiceAccountTokenSecretName) in Hw. rewrite Hf in Hw. injection Hw as <-.
    pose proof (stored_annotations _ _ Hs) as Ha. apply stored_secret in Hs as [Hd Ht]. split; [by rewrite Hd|split; [done|]].
    simpl in Ha. rewrite Ha. apply lookup_singleton_eq.
  - intros c c' Hq [_ Hno'] Hc [HP Hu] (s & Hf & Ho & _).
    split; [|eapply unowned_frame; [exact Hc|by intros ?%list_elem_of_singleton|done]]. eapply sources_frame; [exact Hc|done|done| |by exists s|done].
    intros kind key Hin Hk'%list_elem_of_singleton. injection Hk' as -> _. by apply (bool_decide_pack _) in Hin.
  - intros c c' Hc. by eapply holds_frame.
Qed.

Definition allKeys : list ObjectKey :=
  storeKey Namespace ("", namespace) :: storeKey ServiceAccount (namespace, serviceAccountName) :: storeKey Role (namespace, roleName) ::
  storeKey RoleBinding (namespace, roleBindingName) :: storeKey Secret (namespace, ServiceAccountTokenSecretName) ::
  storeKey Secret (namespace, KubeLBCCMKubeconfigSecretName) :: lastKeys.

Lemma reconcile_delivers : delivers allKeys sourced
  (reconcile managerNamespace host currentVersion reconciling controllerutil IsNoMatchError typeOf controlledBy Load tenant) (provisioned tenant).
Proof.
  destruct gentle_tenant as (g1 & g2 & g3 & g4 & g5 & g6). intros c Hq HP.
  eassert (delivers allKeys sourced (reconcile managerNamespace host currentVersion reconciling controllerutil IsNoMatchError typeOf controlledBy Load tenant) _) as Hall.
  { unfold reconcile, allKeys. rewrite Hname.
    apply (ensure_then Namespace _ ("", namespace) {| ns_Meta := emptyMeta "" namespace |} _
      (λ ns, entries (om_Labels (ns_Meta ns)) !! LabelManagedBy = Some LabelControllerName ∧
             ∃ owner, om_OwnerReferences (ns_Meta ns) = [owner] ∧ or_Name owner = name ∧ or_UID owner = om_UID (tn_Meta tenant)));
      [done|apply g1|by eexists| |simpl; other_key|done|unfold lastKeys; simpl; other_key|intros _].
    { intros old wanted ns [= <-] [_ Hl _ Ho]. simpl in *. rewrite Hl, Ho. split; [apply lookup_insert_eq|]. by eexists. }
    apply (ensure_then ServiceAccount _ (namespace, serviceAccountName) {| sa_Meta := emptyMeta namespace serviceAccountName |} _ (λ _, True));
      [done|apply g2|by eexists|done|simpl; other_key|done|unfold lastKeys; simpl; other_key|intros _].
    apply (ensure_then Role _ (namespace, roleName) (emptyRole namespace) _ (λ r, rol_Rules r = ccmRules));
      [done|apply g3|by eexists|by intros old wanted r [= <-] ->%stored_role|simpl; other_key|done|unfold lastKeys; simpl; other_key|intros _].
    apply (ensure_then RoleBinding _ (namespace, roleBindingName) (emptyRoleBinding namespace) _ (λ b, rr_Name (rb_RoleRef b) = roleName ∧
        rb_Subjects b = [{| sub_Kind := "ServiceAccount"; sub_Name := serviceAccountName; sub_Namespace := namespace |}]));
      [done|apply g4|by eexists|by intros old wanted b [= <-] [-> ->]%stored_binding|simpl; other_key|done|unfold lastKeys; simpl; other_key|intros _].
    apply token_then; [unfold lastKeys; other_key|intros _].
    eapply delivers_read; [intros ? ? [? _]; by apply wrap_eval, generateKubeconfig_eval|]. fold kubeconfigText.
    apply (ensure_then Secret _ (namespace, KubeLBCCMKubeconfigSecretName) (emptySecret namespace KubeLBCCMKubeconfigSecretName) _ (λ s, get (sec_Data s) "kubelb" = kubeconfigText));
      [done|apply g6|by eexists| |simpl; other_key|done|unfold lastKeys; simpl; other_key|intros _; apply last_delivers].
    intros old wanted s [= <-] [-> _]%stored_secret. unfold get. simpl. by rewrite lookup_singleton_eq. }
  destruct (Hall c Hq HP) as (u & c' & H & Q & C & F1 & F2 & F3 & F4 & (t & Ht & _ & Ht') & F6 & F7 & _ & F8).
  exists u, c'. split_and!; [done|done|done|]. split; try done. by exists t.
Qed.
End reconcile.

Lemma provisioned_frame tenant c c' : changes (eq (storeKey Tenant ("", name))) c c' → provisioned tenant c → provisioned tenant c'.
Proof.
  intros Hc [? ? ? ? ? ? ? Hm]. split; try (by eapply holds_frame; [exact Hc|by intros ?|]).
  unfold monitored in *. destruct (default false _); [by eapply holds_frame; [exact Hc|by intros ?|]|by eapply gone_frame; [exact Hc|by intros ?|]].
Qed.

Lemma provisioned_finalized tenant fs c : provisioned (finalizedAs tenant fs) c → provisioned tenant c.
Proof. by intros []. Qed.

Lemma ready_delivers tenant c : quiet c → findObject Tenant c ("", name) = Some tenant →
  ∃ c' tenant', updateTenantStatus SetStatusCondition tenant TenantPhaseReady "Reconciled" "Tenant reconciled successfully" None c = (Ret tt, c') ∧
    quiet c' ∧ changes (eq (storeKey Tenant ("", name))) c c' ∧ findObject Tenant c' ("", name) = Some tenant' ∧
    ps_Phase (tn_Status tenant') = TenantPhaseReady ∧ tn_Meta tenant' = tn_Meta tenant.
Proof.
  intros Hq Hf. pose proof (findObject_key _ _ _ Hf) as Hk. unfold updateTenantStatus. rewrite Hk.
  cut (∃ c' tenant', patchTenantStatus SetStatusCondition ("", name) TenantPhaseReady "Reconciled" "Tenant reconciled successfully" None c = (Ret tt, c') ∧
    quiet c' ∧ changes (eq (storeKey Tenant ("", name))) c c' ∧ findObject Tenant c' ("", name) = Some tenant' ∧
    ps_Phase (tn_Status tenant') = TenantPhaseReady ∧ tn_Meta tenant' = tn_Meta tenant).
  { intros (c' & t' & H & ?). exists c', t'. split; [by apply retry_eval|done]. }
  unfold patchTenantStatus. rewrite (bind_eval _ _ _ tenant c) by (by rewrite Get_eval, Hf by apply Hq). cbv zeta.
  case_bool_decide as He; [exists c, tenant; split_and!; try done; by rewrite He|]. set (status := {| ps_Phase := _ |}).
  assert (objKey {| tenant with tn_Status := status |} = ("", name)) as Hk' by (by rewrite <- Hk).
  destruct (StatusUpdate_stored c (proj2 Hq) {| tenant with tn_Status := status |} tenant) as (c2 & H2 & C2 & N2 & F2); [by rewrite Hk'|].
  rewrite (bind_eval _ _ _ _ _ H2), Hk' in *. eexists c2, _. split_and!; [done|by eapply quiet_changes|done|done|done|done].
Qed.

(** C19: a tenant is provisioned: when no call fails, the token of the tenant's account has been
    issued, the address of the API server is known and no other object owns the TenantState,
    a pass over a Tenant that is not being deleted succeeds. It leaves the namespace
    [tenant-<name>], owned by the Tenant, with the account, exactly the rights of the CCM bound to that account, the token Secret, the
    kubeconfig made of that token, the certificate and the server, the TenantState with
    the version and the load balancer switch, and the PodMonitor exactly if the Config
    asks for it; the Tenant has the finalizer and is Ready. *)
Theorem tenant_provisioned (c : Cluster) (tenant : Tenant) :
  quiet c → sources c → unowned c → findObject Tenant c ("", name) = Some tenant → om_Deleting (tn_Meta tenant) = false → token ≠ "" → ca ≠ "" →
  ∃ c', Reconcile managerNamespace host currentVersion reconciling controllerutil SetStatusCondition IsNoMatchError typeOf controlledBy Load ("", name) c = (Ret tt, c') ∧
    provisioned tenant c' ∧
    holds Tenant ("", name) (λ t, CleanupFinalizer ∈ om_Finalizers (tn_Meta t) ∧ ps_Phase (tn_Status t) = TenantPhaseReady) c'.
Proof.
  intros Hq HP Hown Hf Hd Ht Hca. pose proof (findObject_key _ _ _ Hf) as Hk. unfold Reconcile.
  rewrite (bind_eval _ _ _ (inl tenant) c) by (apply try_eval; by rewrite Get_eval, Hf by apply Hq). rewrite Hd.
  assert (om_Name (tn_Meta tenant) = name) as Hn by (by injection Hk).
  destruct (addCleanupFinalizer_ok tenant c (proj2 Hq) (proj1 Hq)) as (fs & c1 & H1 & C1 & N1 & Hin & F1); [by rewrite Hk|done|].
  rewrite (bind_eval _ _ _ _ _ H1). rewrite Hk in *. assert (quiet c1) as Q1 by (by eapply quiet_changes).
  assert (sources c1) as S1.
  { eapply sources_frame; [exact C1|done|done| |eapply holds_frame; [exact C1|done|apply HP]|done]. intros kind key Hin' [= <- _]. by apply (bool_decide_pack _) in Hin'. }
  assert (om_Name (tn_Meta (finalizedAs tenant fs)) = name) as Hn' by (change (om_Name (objMeta (finalizedAs tenant fs)) = name); unfold finalizedAs; by rewrite objMeta_setMeta).
  destruct (reconcile_delivers (finalizedAs tenant fs) Hn' Ht Hca c1 Q1 (conj S1 (unowned_frame _ _ _ C1 ltac:(done) Hown))) as (u & c2 & H2 & Q2 & C2 & P2).
  rewrite (bind_eval _ _ _ _ _ (try_eval _ _ _ _ H2)).
  destruct (ready_delivers (finalizedAs tenant fs) c2 Q2) as (c3 & t3 & H3 & Q3 & C3 & F3 & Hr & Hm).
  { rewrite (findObject_frame _ _ _ _ C2); [done|]. unfold allKeys, lastKeys. other_key. }
  rewrite (bind_eval _ _ _ _ _ H3), (bind_eval _ _ _ _ _ (try_eval _ _ _ _ (List_eval c3 (proj2 Q3) None ∅))).
  exists c3. split_and!; [done|by eapply provisioned_finalized, provisioned_frame|]. exists t3. by rewrite Hm.
Qed.
End provision.

(** ** A tenant *)

(** An owner that refuses a state that another object owns *)
Definition sameOwner (a b : OwnerReference) : bool :=
  bool_decide (or_APIVersion a = or_APIVersion b ∧ or_Kind a = or_Kind b ∧ or_Name a = or_Name b).

Definition tenantOwner (tenant : Tenant) (s : TenantState) : result TenantState :=
  let owner := ownerReferenceOf (λ _, ("kubelb.k8c.io/v1alpha1", "Tenant")) tenant in
  if forallb (sameOwner owner) (om_OwnerReferences (ts_Meta s))
  then Ok {| s with ts_Meta := {| (ts_Meta s) with om_OwnerReferences := [owner] |} |}
  else Err "Object tenant-a/default is already owned by another controller".

Lemma tenantOwner_gentle tenant : gentle (tenantOwner tenant).
Proof. intros s s'. unfold tenantOwner. destruct (forallb _ _); [|done]. intros [= <-]. by destruct s. Qed.
Lemma tenantOwner_sets tenant s : ownedAtMostBy (om_Name (tn_Meta tenant)) s → ∃ s', tenantOwner tenant s = Ok s'.
Proof.
  intros Ho. unfold tenantOwner. replace (forallb _ _) with true; [by eexists|]. symmetry. apply forallb_forall.
  intros owner Hin%list_elem_of_In. apply bool_decide_eq_true. destruct (Ho owner Hin) as (-> & -> & ->). done.
Qed.

Definition issuedToken : Secret :=
  {| (emptySecret "tenant-a" ServiceAccountTokenSecretName) with
     sec_Meta := objectMeta ServiceAccountTokenSecretName "tenant-a" "uid-2" None None;
     sec_Data := Some (<["token" := "t0k3n"]> {["ca.crt" := "cert"]}) |}.
Definition apiServerEndpoints : EndpointSlice :=
  {| es_Meta := objectMeta "kubernetes" "default" "uid-3" None None; es_Endpoints := [["10.0.0.1"]]; es_Ports := [(Some "https", Some 6443%Z)] |}.
(** The state of an earlier pass *)
Definition earlierState : TenantState :=
  {| ts_Meta := {| (objectMeta TenantStateName "tenant-a" "uid-4" None None) with
       om_OwnerReferences := [ownerReferenceOf (λ _, ("kubelb.k8c.io/v1alpha1", "Tenant")) sampleTenant] |};
     ts_Status := emptyTenantStateStatus |}.
Definition newTenant : Cluster :=
  sampleCluster [OTenant sampleTenant; OSecret issuedToken; OEndpointSlice apiServerEndpoints; OTenantState earlierState].
#[local] Abbreviation samplePass := (Reconcile "kubelb" "https://manager:443" emptyVersion directUpsert directUpsert (λ conditions condition, condition :: conditions)
  (λ _, false) (λ _, ("kubelb.k8c.io/v1alpha1", "Tenant")) tenantOwner (λ _, Err "no kubeconfig") ("", "a")).

Lemma tenant_provisioned_witness : ∃ c', samplePass newTenant = (Ret tt, c') ∧
  provisioned "https://manager:443" emptyVersion "a" "t0k3n" "cert" ["https://10.0.0.1:6443"] DefaultConfig sampleTenant c' ∧
  holds Tenant ("", "a") (λ t, CleanupFinalizer ∈ om_Finalizers (tn_Meta t) ∧ ps_Phase (tn_Status t) = TenantPhaseReady) c'.
Proof.
  apply (tenant_provisioned "kubelb" "https://manager:443" emptyVersion directUpsert directUpsert (λ conditions condition, condition :: conditions)
    (λ _, false) (λ _, ("kubelb.k8c.io/v1alpha1", "Tenant")) tenantOwner (λ _, Err "no kubeconfig") tenantOwner_gentle tenantOwner_sets ltac:(done)
    "a" "t0k3n" "cert" ["https://10.0.0.1:6443"] DefaultConfig newTenant sampleTenant).
  - split; [|reflexivity]. apply (bool_decide_unpack (well_formed _)). vm_compute. exact I.
  - split; [|vm_compute; reflexivity|vm_compute; reflexivity]. exists issuedToken. split; vm_compute; [reflexivity|split; reflexivity].
  - intros s Hs. vm_compute in Hs. injection Hs as <-. intros owner ->%list_elem_of_singleton. by split_and!.
  - vm_compute. reflexivity.
  - reflexivity.
  - discriminate.
  - discriminate.
Defined.

(** The tenant is given its kubeconfig. *)
Example sampleKubeconfig :
  (λ s, get (sec_Data s) "kubelb") <$> findObject Secret (samplePass newTenant).2 ("tenant-a", KubeLBCCMKubeconfigSecretName) =
  Some (kubeconfig "Y2VydA==" "t0k3n" "tenant-a" "https://10.0.0.1:6443").
Proof. vm_compute. reflexivity. Qed.

(** A tenant that is being deleted *)
Definition deletedTenant : Tenant := {| sampleTenant with tn_Meta := sampleDeleted (sampleMeta "" "a") |}.
Definition leavingTenant : Cluster := sampleCluster [OTenant deletedTenant; OSecret issuedToken].

Lemma tenant_finalizer_safe_witness :
  let c' := (samplePass leavingTenant).2 in finalized Tenant CleanupFinalizer ("", "a") c' ∨ vacated "tenant-a" c'.
Proof.
  apply (tenant_finalizer_safe "kubelb" "https://manager:443" emptyVersion directUpsert directUpsert (λ conditions condition, condition :: conditions)
    (λ _, false) (λ _, ("kubelb.k8c.io/v1alpha1", "Tenant")) tenantOwner (λ _, Err "no kubeconfig") "a" leavingTenant deletedTenant tenantOwner_gentle).
  - constructor.
  - vm_compute. reflexivity.
  - by left.
Defined.

Lemma tenant_isolated_witness :
  let c' := (samplePass newTenant).2 in
  (well_formed newTenant → well_formed c') ∧
  (∀ k, ¬ ofTenant "kubelb" ("", "a") k → cl_objects c' !! k = cl_objects newTenant !! k) ∧
  (∀ other k, other ≠ "a" → tenantNamespacePattern other ≠ "kubelb" →
     k = storeKey Tenant ("", other) ∨ k = storeKey Namespace ("", tenantNamespacePattern other) ∨ k.2.1 = tenantNamespacePattern other →
     cl_objects c' !! k = cl_objects newTenant !! k).
Proof.
  apply (tenant_isolated "kubelb" "https://manager:443" emptyVersion directUpsert directUpsert (λ conditions condition, condition :: conditions)
    (λ _, false) (λ _, ("kubelb.k8c.io/v1alpha1", "Tenant")) tenantOwner (λ _, Err "no kubeconfig") "a" newTenant tenantOwner_gentle).
Defined.

(** A load balancer whose controller has not finished keeps the Tenant; without one the
    Tenant goes. *)
Example deletion_waits : let busy := {| sampleLB with lb_Meta := sampleDeleted (lb_Meta sampleLB) |} in
  let after c := findObject Tenant (samplePass c).2 ("", "a") in
  (om_Finalizers ∘ tn_Meta <$> after (sampleCluster [OTenant deletedTenant; OLoadBalancer busy])) = Some [CleanupFinalizer] ∧
  after leavingTenant = None.
Proof. vm_compute. split; reflexivity. Qed.

(** A state that another object owns makes the pass fail. *)
Example foreign_state_refused :
  let foreign := {| earlierState with ts_Meta := {| (ts_Meta earlierState) with
    om_OwnerReferences := [{| or_APIVersion := "apps/v1"; or_Kind := "Deployment"; or_Name := "other"; or_UID := "uid-9" |}] |} |} in
  match (samplePass (sampleCluster [OTenant sampleTenant; OSecret issuedToken; OEndpointSlice apiServerEndpoints; OTenantState foreign])).1 with
  | Fail _ => True
  | _ => False
  end.
Proof. vm_compute. exact I. Qed.
