(* ===== verification/IngressToGateway.v ===== *)
(** * The Ingress-to-Gateway controller

    [internal/ingress-to-gateway/controller.go] and [gateway.go]: an Ingress is converted to
    routes once. The controller copies TLS secrets to the namespace of the Gateway, keeps
    the Gateway's listeners, creates the routes and policies, waits for the Gateway to
    accept the routes, and records the outcome in annotations of the Ingress. Two passes
    that are five seconds apart must find the routes accepted before the Ingress counts as
    converted.

    Time is in seconds. The calls take no time; [time.Sleep] advances the clock, and what
    others do to the cluster meanwhile is a parameter. [ConvertToPolicies] makes no
    ClientTrafficPolicy, so the loop over them is left out, and so are events and logs. *)

From S2P Require Import Prelude GoStrings Api GatewayApi Kube Finalizers ConvAnnotations ConvPolicies Converter ConvGateway Manager.
Local Open Scope go_scope.

Definition AnnotationConversionStatus : string := "kubelb.k8c.io/conversion-status".
Definition AnnotationConvertedHTTPRoute : string := "kubelb.k8c.io/converted-httproute".
Definition AnnotationConvertedGRPCRoute : string := "kubelb.k8c.io/converted-grpcroute".
Definition AnnotationConversionWarnings : string := "kubelb.k8c.io/conversion-warnings".
Definition AnnotationVerificationTimestamp : string := "kubelb.k8c.io/verification-timestamp".
Definition AnnotationConversionSkipReason : string := "kubelb.k8c.io/conversion-skip-reason".
Definition ConversionStatusConverted : string := "converted".
Definition ConversionStatusPartial : string := "partial".
Definition ConversionStatusPending : string := "pending".
Definition ConversionStatusSkipped : string := "skipped".
Definition SkipReasonCanary : string := "canary annotations are not supported".
Definition ExternalDNSAnnotationPrefix : string := "external-dns.alpha.kubernetes.io/".
Definition ExternalDNSTarget : string := "external-dns.alpha.kubernetes.io/target".
Definition routeAcceptanceReasonTimeout : string := "Timeout".
Definition RouteConditionAccepted : string := "Accepted".

(** The cluster and the clock *)
Record Clocked := { ck_cluster : Cluster; ck_now : Z }.
Definition clusterClient : Lens Clocked Cluster :=
  {| view := ck_cluster; over c s := {| s with ck_cluster := c |} |}.
#[export] Instance clusterClient_laws : LensLaws clusterClient.
Proof. split; intros; simpl; try done; by destruct s. Qed.
Definition inCluster {A} (m : M Cluster A) : M Clocked A := zoom clusterClient m.

(** ** Which Ingresses are converted *)

Record conversionDecision := { cd_shouldConvert : bool; cd_skipReason : string; cd_annotate : bool }.

Definition noConversion : conversionDecision := {| cd_shouldConvert := false; cd_skipReason := ""; cd_annotate := false |}.

Definition annotation (ingress : Ingress) (key : string) : string := get (om_Annotations (ing_Meta ingress)) key.

Definition isAlreadyConverted (obj : Ingress) : bool :=
  let status := annotation obj AnnotationConversionStatus in
  bool_decide (status = ConversionStatusConverted) || bool_decide (status = ConversionStatusPartial).

(** ** Acceptance of routes *)

Record routeAcceptanceResult := { ra_accepted : bool; ra_reason : string }.

Definition conditionResult (cond : Condition) : option routeAcceptanceResult :=
  if bool_decide (cond_Type cond = RouteConditionAccepted) then
    if bool_decide (cond_Status cond = "True") then Some {| ra_accepted := true; ra_reason := "" |}
    else if bool_decide (cond_Status cond = "False") then Some {| ra_accepted := false; ra_reason := cond_Reason cond |}
    else None
  else None.

(** The first condition of a parent of this name that says yes or no *)
Definition acceptanceOf (gatewayName : string) (parents : list RouteParentStatus) : option routeAcceptanceResult :=
  head (parents ≫= λ parent, if bool_decide (rps_Name parent = gatewayName) then omap conditionResult (rps_Conditions parent) else []).

(** ** [gateway.go]: comparing listeners *)

Definition listenerConfigEqual (a b : Listener) : bool :=
  bool_decide (ls_Port a = ls_Port b) && bool_decide (ls_Protocol a = ls_Protocol b) &&
  bool_decide (ls_Hostname a = ls_Hostname b) && bool_decide (ls_AllowedRoutes a = ls_AllowedRoutes b) &&
  bool_decide (ls_TLS a = ls_TLS b).

Definition listenersEqual (a b : list Listener) : bool :=
  let aMap := foldl (λ m l, <[ls_Name l := l]> m) (∅ : gmap string Listener) a in
  bool_decide (length a = length b) &&
  forallb (λ lb, match aMap !! ls_Name lb with Some la => listenerConfigEqual la lb | None => false end) b.

(** ** Writing objects *)

(** [Get], then [Create] or [Update] of the stored object with the desired parts *)
Definition createOrReplace {O : Type} `{!Resource O} (what : string) (merge : O -> O -> O) (object : O) : M Cluster unit :=
  r ← try (Get O (objKey object));
  match r with
  | inr err =>
      if IsNotFound err then _ ← wrap ("failed to create " ⊕ what) (Create object); mret tt
      else raise (Wrap ("failed to get " ⊕ what) err)
  | inl existing => _ ← wrap ("failed to update " ⊕ what) (Update (merge existing object)); mret tt
  end.

Definition mergeRoute {Rule} (existing route : GatewayRoute Rule) : GatewayRoute Rule :=
  {| existing with
       gr_ParentRefs := gr_ParentRefs route; gr_Hostnames := gr_Hostnames route; gr_Rules := gr_Rules route;
       gr_Meta := {| (gr_Meta existing) with om_Labels := om_Labels (gr_Meta route); om_Annotations := om_Annotations (gr_Meta route) |} |}.

Definition mergePolicyMeta (existing policy : ObjectMeta) : ObjectMeta :=
  {| existing with om_Labels := om_Labels policy; om_OwnerReferences := om_OwnerReferences policy |}.
Definition mergeSecurityPolicy (existing policy : SecurityPolicy) : SecurityPolicy :=
  {| policy with secp_Meta := mergePolicyMeta (secp_Meta existing) (secp_Meta policy) |}.
Definition mergeBackendTrafficPolicy (existing policy : BackendTrafficPolicy) : BackendTrafficPolicy :=
  {| policy with btp_Meta := mergePolicyMeta (btp_Meta existing) (btp_Meta policy) |}.

Definition sourceIngress (ingress : Ingress) : string := om_Name (ing_Meta ingress) ⊕ "." ⊕ om_Namespace (ing_Meta ingress).

(** [ensureMetadata] and [applyRouteMetadata] *)
Definition applyRouteMetadata {Rule} (obj : GatewayRoute Rule) (ingress : Ingress) (annotations : StrMap) : GatewayRoute Rule :=
  {| obj with gr_Meta := {| (gr_Meta obj) with
       om_Labels := Some (<[LabelSourceIngress := sourceIngress ingress]> (entries (om_Labels (gr_Meta obj))));
       om_Annotations := Some (annotations ∪ entries (om_Annotations (gr_Meta obj))) |} |}.

(** The owner is the route, so that a policy outlives the Ingress. *)
Definition setPolicyOwnerRef (policy : ObjectMeta) (ingress : Ingress) (httpRoute : option HTTPRoute) : ObjectMeta :=
  let policy := {| policy with om_Labels := Some (<[LabelSourceIngress := sourceIngress ingress]> (entries (om_Labels policy))) |} in
  match httpRoute with
  | Some httpRoute => SetControllerReference "gateway.networking.k8s.io/v1" "HTTPRoute" (gr_Meta httpRoute) policy
  | None => policy
  end.

Definition secretDataEqual (a b : GoMap) : bool := bool_decide (entries a = entries b).

Definition syncedSecret (sourceSecret : Secret) (syncedName namespace sourceKey : string) : Secret :=
  {| sec_Meta := objectMeta syncedName namespace "" (Some {[ LabelManagedBy := ControllerName ]})
                   (Some {[ "kubelb.k8c.io/source-secret" := sourceKey ]});
     sec_Immutable := None; sec_Type := sec_Type sourceSecret; sec_Data := sec_Data sourceSecret; sec_StringData := None |}.

(** ** The reconciler *)

Record statusDecision := { sd_status : string; sd_requeue : bool; sd_clearVerifyTime : bool }.

Section controller.
Context (r : Options).
(** What the conversion needs of its environment *)
Context (url_Parse : string -> result URL).
Context (MarshalHTTP : list HTTPRouteRule -> option (list N)) (MarshalGRPC : list GRPCRouteRule -> option (list N)).
(** [Time.Format] and [time.Parse] of RFC 3339; what others do to the cluster in so many
    seconds *)
Context (FormatTime : Z -> string) (ParseTime : string -> option Z) (elapse : Z -> Cluster -> Cluster).

Definition shouldConvert (ingress : Ingress) : conversionDecision :=
  if bool_decide (annotation ingress AnnotationSkipConversion = BoolTrue) then noConversion
  else if isAlreadyConverted ingress then noConversion
  else if bool_decide (annotation ingress NginxCanary = BoolTrue)
  then {| cd_shouldConvert := false; cd_skipReason := SkipReasonCanary; cd_annotate := true |}
  else if bool_decide (opt_IngressClass r ≠ "") &&
          negb (bool_decide (default (annotation ingress AnnotationIngressClass) (ing_ClassName ingress) = opt_IngressClass r))
  then noConversion
  else {| cd_shouldConvert := true; cd_skipReason := ""; cd_annotate := false |}.

Definition annotateSkipped (ingress : Ingress) (reason : string) : M Cluster unit :=
  current ← Get Ingress (objKey ingress);
  if bool_decide (annotation current AnnotationConversionStatus = ConversionStatusSkipped) &&
     bool_decide (annotation current AnnotationConversionSkipReason = reason)
  then mret tt
  else
    let annotations := <[AnnotationConversionSkipReason := reason]>
                       (<[AnnotationConversionStatus := ConversionStatusSkipped]> (entries (om_Annotations (ing_Meta current)))) in
    _ ← Update {| current with ing_Meta := {| (ing_Meta current) with om_Annotations := Some annotations |} |};
    mret tt.

(** *** Services, for the resolution of port names *)

(** A Service that cannot be read is left out. *)
Definition fetchService (services : gmap (string * string) Service) (key : NamespacedName) : M Cluster (gmap (string * string) Service) :=
  if bool_decide (is_Some (services !! key)) then mret services
  else
    found ← try (Get Service key);
    mret match found with inl svc => <[key := svc]> services | inr _ => services end.

Definition serviceKeys (ingress : Ingress) : list NamespacedName :=
  let key svc := (om_Namespace (ing_Meta ingress), isb_Name svc) in
  (key <$> option_list (ing_DefaultBackend ingress ≫= ib_Service)) ++
  (ing_Rules ingress ≫= λ rule, default [] (ir_HTTP rule) ≫= λ path, key <$> option_list (ib_Service (ip_Backend path))).

Definition fetchServicesForIngress (ingress : Ingress) : M Cluster (gmap (string * string) Service) :=
  foldM fetchService ∅ (serviceKeys ingress).

(** *** TLS secrets *)

Definition syncedNameOf (tls : TLSListener) : string := "ingress-" ⊕ tl_SourceSecretNamespace tls ⊕ "-" ⊕ tl_SourceSecretName tls.
Definition sourceKeyOf (tls : TLSListener) : string := tl_SourceSecretNamespace tls ⊕ "/" ⊕ tl_SourceSecretName tls.

Definition putSyncedSecret (tls : TLSListener) (sourceSecret : Secret) : M Cluster unit :=
  let syncedName := syncedNameOf tls in
  found ← try (Get Secret (opt_GatewayNamespace r, syncedName));
  match found with
  | inr err =>
      if IsNotFound err then
        _ ← wrap ("failed to create synced TLS secret " ⊕ syncedName)
              (Create (syncedSecret sourceSecret syncedName (opt_GatewayNamespace r) (sourceKeyOf tls)));
        mret tt
      else raise (Wrap ("failed to get target TLS secret " ⊕ syncedName) err)
  | inl targetSecret =>
      if secretDataEqual (sec_Data sourceSecret) (sec_Data targetSecret) then mret tt
      else
        _ ← wrap ("failed to update synced TLS secret " ⊕ syncedName)
              (Update {| targetSecret with sec_Data := sec_Data sourceSecret; sec_Type := sec_Type sourceSecret |});
        mret tt
  end.

(** One turn of the loop, with the source secrets seen so far. A second listener of a
    secret that was not found is given the name all the same. *)
Definition syncListener (acc : list TLSListener * gset string) (tls : TLSListener) : M Cluster (list TLSListener * gset string) :=
  let '(result, seen) := acc in
  let renamed := {| tls with tl_SecretName := syncedNameOf tls |} in
  if bool_decide (tl_SourceSecretName tls = "") || bool_decide (tl_SourceSecretNamespace tls = opt_GatewayNamespace r)
  then mret (result ++ [tls], seen)
  else if bool_decide (sourceKeyOf tls ∈ seen) then mret (result ++ [renamed], seen)
  else
    let seen := {[ sourceKeyOf tls ]} ∪ seen in
    found ← try (Get Secret (tl_SourceSecretNamespace tls, tl_SourceSecretName tls));
    match found with
    | inr err =>
        if IsNotFound err then mret (result ++ [tls], seen)
        else raise (Wrap ("failed to get TLS secret " ⊕ sourceKeyOf tls) err)
    | inl sourceSecret => _ ← putSyncedSecret tls sourceSecret; mret (result ++ [renamed], seen)
    end.

Definition syncTLSSecrets (tlsListeners : list TLSListener) : M Cluster (list TLSListener) :=
  if negb (opt_CopyTLSSecrets r) then mret tlsListeners
  else '(result, _) ← foldM syncListener ([], ∅) tlsListeners; mret result.

(** *** The Gateway *)

Definition extractGatewayAnnotations (ingress : Ingress) : StrMap :=
  let result := entries (opt_GatewayAnnotations r) in
  match entries (om_Annotations (ing_Meta ingress)) !! ExternalDNSTarget with
  | Some target => if opt_PropagateExternalDNS r then <[ExternalDNSTarget := target]> result else result
  | None => result
  end.

Definition extractHTTPRouteAnnotations (ingress : Ingress) : StrMap :=
  if negb (opt_PropagateExternalDNS r) then ∅
  else filter (λ kv, HasPrefix kv.1 ExternalDNSAnnotationPrefix = true ∧ kv.1 ≠ ExternalDNSTarget) (entries (om_Annotations (ing_Meta ingress))).

(** A missing annotation reads as the empty string: an empty value is not added. *)
Definition changedAnnotations (existing : GoMap) (wanted : StrMap) : StrMap := filter (λ kv, get existing kv.1 ≠ kv.2) wanted.

Definition gatewayNamespaceFor (ingress : Ingress) : string :=
  if bool_decide (opt_GatewayNamespace r = "") then om_Namespace (ing_Meta ingress) else opt_GatewayNamespace r.

Definition reconcileGateway (ingress : Ingress) (tlsListeners : list TLSListener) : M Cluster unit :=
  let config := {| gc_Name := opt_GatewayName r; gc_Namespace := gatewayNamespaceFor ingress; gc_ClassName := opt_GatewayClassName r;
                   gc_TLSListeners := tlsListeners; gc_Annotations := Some (extractGatewayAnnotations ingress); gc_ManagedBy := "" |} in
  found ← wrap "failed to get Gateway" (GetIfExists Gateway (gc_Namespace config, gc_Name config));
  match found with
  | None => _ ← Create (BuildGateway config); mret tt
  | Some existing =>
      let newListeners := MergeListeners (gw_Listeners existing) (BuildListeners (gc_TLSListeners config)) in
      let sameListeners := listenersEqual (gw_Listeners existing) newListeners in
      let changed := changedAnnotations (om_Annotations (gw_Meta existing)) (entries (gc_Annotations config)) in
      when (negb sameListeners || negb (bool_decide (changed = ∅)))
        (_ ← Update {| existing with
               gw_Listeners := if sameListeners then gw_Listeners existing else newListeners;
               gw_Meta := {| (gw_Meta existing) with om_Annotations := Some (changed ∪ entries (om_Annotations (gw_Meta existing))) |} |};
         mret tt)
  end.

(** *** Policies *)

Definition policyResultFor (ingress : Ingress) (routeName : string) : PolicyConversionResult :=
  ConvertToPolicies {| pci_IngressName := om_Name (ing_Meta ingress); pci_IngressNamespace := om_Namespace (ing_Meta ingress);
                       pci_RouteName := routeName; pci_GatewayName := opt_GatewayName r;
                       pci_Annotations := om_Annotations (ing_Meta ingress) |}.

Definition reconcilePolicies (ingress : Ingress) (routeName : string) : M Cluster unit :=
  let policyResult := policyResultFor ingress routeName in
  found ← try (Get HTTPRoute (om_Namespace (ing_Meta ingress), routeName));
  let httpRoute := match found with inl route => Some route | inr _ => None end in
  _ ← forM_ (pcr_SecurityPolicies policyResult) (λ policy,
        createOrReplace "SecurityPolicy" mergeSecurityPolicy
          {| policy with secp_Meta := setPolicyOwnerRef (secp_Meta policy) ingress httpRoute |});
  forM_ (pcr_BackendTrafficPolicies policyResult) (λ policy,
    createOrReplace "BackendTrafficPolicy" mergeBackendTrafficPolicy
      {| policy with btp_Meta := setPolicyOwnerRef (btp_Meta policy) ingress httpRoute |}).

(** *** Waiting for the Gateway *)

Definition sleep (seconds : Z) : M Clocked unit :=
  modify (λ s, {| ck_cluster := elapse seconds (ck_cluster s); ck_now := ck_now s + seconds |}).

Definition pollTimeout : Z := 30.
Definition pollInterval : Z := 2.

(** [waitForRouteAcceptance] and [waitForGRPCRouteAcceptance] *)
Section wait.
Context (T : Type) `{!Resource T} (statusOf : T -> list RouteParentStatus) (key : NamespacedName) (deadline : Z).

Fixpoint poll (fuel : nat) : M Clocked routeAcceptanceResult :=
  match fuel with
  | O => diverge
  | S fuel =>
      now ← gets ck_now;
      if (now <? deadline)%Z then
        found ← inCluster (try (Get T key));
        match match found with inl route => acceptanceOf (opt_GatewayName r) (statusOf route) | inr _ => None end with
        | Some result => mret result
        | None => _ ← sleep pollInterval; poll fuel
        end
      else mret {| ra_accepted := false; ra_reason := routeAcceptanceReasonTimeout |}
  end.
End wait.

(** Sixteen turns are enough: each sleeps two of the thirty seconds. *)
Definition pollFuel : nat := 16.
Definition waitForRouteAcceptance (key : NamespacedName) : M Clocked routeAcceptanceResult :=
  now ← gets ck_now; poll HTTPRoute gr_Status key (now + pollTimeout) pollFuel.
Definition waitForGRPCRouteAcceptance (key : NamespacedName) : M Clocked routeAcceptanceResult :=
  now ← gets ck_now; poll GRPCRoute gr_Status key (now + pollTimeout) pollFuel.

(** The acceptance of each route by name, the warnings so far, and whether any timed out *)
Record verification := { vf_acceptance : gmap string bool; vf_warnings : list string; vf_hasTimeout : bool }.

Definition verifyRoute (what : string) (wait : NamespacedName -> M Clocked routeAcceptanceResult) (v : verification) (key : NamespacedName)
  : M Clocked verification :=
  acceptance ← wait key;
  let v := {| v with vf_acceptance := <[key.2 := ra_accepted acceptance]> (vf_acceptance v) |} in
  mret (if ra_accepted acceptance then v
        else if bool_decide (ra_reason acceptance = routeAcceptanceReasonTimeout) then {| v with vf_hasTimeout := true |}
        else {| v with vf_warnings := vf_warnings v ++ [what ⊕ " " ⊕ key.2 ⊕ " not accepted: " ⊕ ra_reason acceptance] |}).

(** *** Status *)

Definition verifyDelay : Z := 5.

Definition determineConversionStatus (verifyTime : string) (routeAcceptance : gmap string bool) (warnings : list string)
  (hasTimeout : bool) (now : Z) : statusDecision :=
  let allAccepted := bool_decide (map_Forall (λ _ accepted, accepted = true) routeAcceptance) in
  let pending clear := {| sd_status := ConversionStatusPending; sd_requeue := true; sd_clearVerifyTime := clear |} in
  if hasTimeout then pending true
  else if negb allAccepted then {| sd_status := ConversionStatusPartial; sd_requeue := false; sd_clearVerifyTime := true |}
  else if bool_decide (verifyTime = "") then pending false
  else
    match ParseTime verifyTime with
    | None => pending false
    | Some ts =>
        if (now - ts <? verifyDelay)%Z then pending false
        else {| sd_status := if bool_decide (warnings = []) then ConversionStatusConverted else ConversionStatusPartial;
                sd_requeue := false; sd_clearVerifyTime := true |}
    end.

Definition setOrDelete (key : string) (value : option string) (m : StrMap) : StrMap :=
  match value with Some v => <[key := v]> m | None => delete key m end.

Definition joinNames (names : list string) (sep : string) : option string :=
  if bool_decide (names = []) then None else Some (Join names sep).

Definition statusAnnotations (annotations : StrMap) (decision : statusDecision) (warnings httpRouteNames grpcRouteNames : list string) (now : Z) : StrMap :=
  let ts := default "" (annotations !! AnnotationVerificationTimestamp) in
  let annotations :=
    if sd_clearVerifyTime decision then delete AnnotationVerificationTimestamp annotations
    else if bool_decide (ts = "") then <[AnnotationVerificationTimestamp := FormatTime now]> annotations else annotations in
  let annotations := setOrDelete AnnotationConversionWarnings (joinNames warnings "; ") annotations in
  let annotations := <[AnnotationConversionStatus := sd_status decision]> annotations in
  let annotations := setOrDelete AnnotationConvertedHTTPRoute (joinNames httpRouteNames ",") annotations in
  setOrDelete AnnotationConvertedGRPCRoute (joinNames grpcRouteNames ",") annotations.

Definition updateIngressStatusStaged (ingress : Ingress) (v : verification) (httpRouteNames grpcRouteNames : list string) (now : Z) : M Cluster bool :=
  current ← Get Ingress (objKey ingress);
  let decision := determineConversionStatus (annotation current AnnotationVerificationTimestamp) (vf_acceptance v) (vf_warnings v) (vf_hasTimeout v) now in
  let annotations := statusAnnotations (entries (om_Annotations (ing_Meta current))) decision (vf_warnings v) httpRouteNames grpcRouteNames now in
  _ ← Update {| current with ing_Meta := {| (ing_Meta current) with om_Annotations := Some annotations |} |};
  mret (sd_requeue decision).

(** *** The pass *)

Definition routeNames {Rule} (routes : list (GatewayRoute Rule)) : list string :=
  (λ route, om_Namespace (gr_Meta route) ⊕ "/" ⊕ om_Name (gr_Meta route)) <$> routes.

(** Everything that is written before the routes are watched; the warnings of the policies *)
Definition applyConversion (ingress : Ingress) (result : Converter.Result) : M Cluster (list string) :=
  tlsListeners ← wrap "failed to sync TLS secrets" (syncTLSSecrets (res_TLSListeners result));
  _ ← wrap "failed to reconcile Gateway" (reconcileGateway ingress tlsListeners);
  let externalDNSAnnotations := extractHTTPRouteAnnotations ingress in
  _ ← forM_ (res_HTTPRoutes result) (λ route, createOrReplace "HTTPRoute" mergeRoute (applyRouteMetadata route ingress externalDNSAnnotations));
  _ ← forM_ (res_GRPCRoutes result) (λ route, createOrReplace "GRPCRoute" mergeRoute (applyRouteMetadata route ingress externalDNSAnnotations));
  match res_HTTPRoutes result with
  | route :: _ =>
      if opt_DisableEnvoyGatewayFeatures r then mret []
      else
        let routeName := om_Name (gr_Meta route) in
        outcome ← try (reconcilePolicies ingress routeName);
        mret (pcr_Warnings (policyResultFor ingress routeName) ++
              match outcome with inl _ => [] | inr err => ["failed to reconcile policies: " ⊕ ErrorString err] end)
  | [] => mret []
  end.

Definition conversionInput (ingress : Ingress) (services : gmap (string * string) Service) : Input :=
  {| in_Ingress := ingress; in_GatewayName := opt_GatewayName r; in_GatewayNamespace := opt_GatewayNamespace r;
     in_Services := Some services; in_DomainReplace := opt_DomainReplace r; in_DomainSuffix := opt_DomainSuffix r;
     in_SkipPolicyWarnings := negb (opt_DisableEnvoyGatewayFeatures r) |}.

Definition reconcile (ingress : Ingress) : M Clocked bool :=
  services ← inCluster (fetchServicesForIngress ingress);
  let result := ConvertIngressWithServices url_Parse MarshalHTTP MarshalGRPC (conversionInput ingress services) in
  if bool_decide (res_HTTPRoutes result = []) && bool_decide (res_GRPCRoutes result = []) then raise (Errorf "conversion produced no routes")
  else
    policyWarnings ← inCluster (applyConversion ingress result);
    let v := {| vf_acceptance := ∅; vf_warnings := res_Warnings result ++ policyWarnings; vf_hasTimeout := false |} in
    v ← foldM (verifyRoute "HTTPRoute" waitForRouteAcceptance) v (objKey <$> res_HTTPRoutes result);
    v ← foldM (verifyRoute "GRPCRoute" waitForGRPCRouteAcceptance) v (objKey <$> res_GRPCRoutes result);
    now ← gets ck_now;
    inCluster (wrap "failed to update Ingress status"
      (updateIngressStatusStaged ingress v (routeNames (res_HTTPRoutes result)) (routeNames (res_GRPCRoutes result)) now)).

(** Whether the Ingress is looked at again after five seconds *)
Definition Reconcile (req : NamespacedName) : M Clocked bool :=
  found ← inCluster (try (Get Ingress req));
  match found with
  | inr err => if IsNotFound err then mret false else raise err
  | inl ingress =>
      if om_Deleting (ing_Meta ingress) then mret false
      else
        let decision := shouldConvert ingress in
        if negb (cd_shouldConvert decision)
        then _ ← inCluster (when (cd_annotate decision) (annotateSkipped ingress (cd_skipReason decision))); mret false
        else reconcile ingress
  end.

(** *** Events *)

Definition admits (obj : Ingress) : bool :=
  if isAlreadyConverted obj then false
  else let decision := shouldConvert obj in cd_shouldConvert decision || cd_annotate decision.

Definition resourceFilter (e : Event) : bool :=
  match e with
  | CreateEvent o | UpdateEvent _ o | GenericEvent o => match project o with Some obj => admits obj | None => false end
  | DeleteEvent o => match project (O:=Ingress) o with Some _ => true | None => false end
  end.
End controller.

(** ** The calls, lifted *)

Lemma inCluster_eval {A} (m : M Cluster A) s a c : m (ck_cluster s) = (a, c) → inCluster m s = (a, {| s with ck_cluster := c |}).
Proof. apply (zoom_eval clusterClient). Qed.
Lemma inCluster_read {A} (m : M Cluster A) s a : m (ck_cluster s) = (a, ck_cluster s) → inCluster m s = (a, s).
Proof. intros Hm. rewrite (inCluster_eval _ _ _ _ Hm). by destruct s. Qed.

Section waiting.
Context (r : Options) (elapse : Z -> Cluster -> Cluster).
Context (T : Type) `{!Resource T} (statusOf : T -> list RouteParentStatus) (key : NamespacedName).
#[local] Abbreviation poll := (poll r elapse T statusOf key).

(** With [n] intervals to go, more turns than that are enough. *)
Lemma poll_returns deadline n fuel s : deadline = (ck_now s + pollInterval * Z.of_nat n)%Z → n < fuel →
  ∃ result s' k, poll deadline fuel s = (Ret result, s') ∧ k ≤ n ∧ ck_now s' = (ck_now s + pollInterval * Z.of_nat k)%Z.
Proof.
  revert fuel s. induction n as [|n IH]; intros fuel s Hd Hf; (destruct fuel as [|fuel]; [lia|]); simpl.
  all: rewrite (bind_eval _ _ _ (ck_now s) s) by done; cbv beta.
  - rewrite (proj2 (Z.ltb_ge _ _)) by (rewrite Hd; unfold pollInterval; lia).
    eexists _, s, 0. split_and!; [done|done|unfold pollInterval; lia].
  - rewrite (proj2 (Z.ltb_lt _ _)) by (rewrite Hd; unfold pollInterval; lia).
    destruct (try_Get_total T key (ck_cluster s)) as (found & c & Hg & _).
    rewrite (bind_eval _ _ _ _ _ (inCluster_eval _ _ _ _ Hg)). cbv beta.
    destruct (match found with inl _ => _ | inr _ => _ end) as [result|].
    { eexists _, _, 0. split_and!; [done|lia|unfold pollInterval; simpl; lia]. }
    set (s1 := {| ck_cluster := elapse pollInterval c; ck_now := (ck_now s + pollInterval)%Z |}).
    rewrite (bind_eval _ _ _ tt s1) by done.
    destruct (IH fuel s1) as (result & s' & k & Hr & Hk & Hnow); [rewrite Hd; unfold s1, pollInterval; simpl; lia|lia|].
    exists result, s', (S k). split_and!; [done|lia|rewrite Hnow; unfold s1, pollInterval; simpl; lia].
Qed.
End waiting.

(** ** What a pass changes *)

Record ticks (K : ObjectKey -> Prop) (s s' : Clocked) : Prop := {
  ticks_cluster : changes K (ck_cluster s) (ck_cluster s');
  ticks_now : (ck_now s <= ck_now s')%Z;
}.
#[export] Instance ticks_preorder K : PreOrder (ticks K).
Proof. split; [intros s; by split|]. intros s1 s2 s3 [H1 N1] [H2 N2]. split; [by etrans|lia]. Qed.

Lemma within_inCluster {A} K (m : M Cluster A) : within (changes K) m → within (ticks K) (inCluster m).
Proof. apply within_zoom. intros s c Hc. split; simpl; [done|lia]. Qed.

Section frame.
Context (r : Options) (url_Parse : string -> result URL).
Context (MarshalHTTP : list HTTPRouteRule -> option (list N)) (MarshalGRPC : list GRPCRouteRule -> option (list N)).
Context (FormatTime : Z -> string) (ParseTime : string -> option Z) (elapse : Z -> Cluster -> Cluster).
Context (req : NamespacedName).

(** The Ingress, routes and policies of its namespace, the Gateway, and the copied secrets
    in the Gateway's namespace *)
Definition owned (k : ObjectKey) : Prop :=
  k = storeKey Ingress req ∨
  k.2.1 = req.1 ∧ k.1 ∈ ["HTTPRoute"; "GRPCRoute"; "SecurityPolicy"; "BackendTrafficPolicy"] ∨
  k = storeKey Gateway (if bool_decide (opt_GatewayNamespace r = "") then req.1 else opt_GatewayNamespace r, opt_GatewayName r) ∨
  ∃ suffix, k = storeKey Secret (opt_GatewayNamespace r, "ingress-" ⊕ suffix).

Context (K : ObjectKey -> Prop) (HK : ∀ k, owned k → K k) (Helapse : ∀ d c, changes K c (elapse d c)).
Implicit Types (ingress : Ingress).

Lemma within_createOrReplace {O} `{!Resource O} what merge (object : O) :
  (∀ existing, objKey existing = objKey object → objKey (merge existing object) = objKey object) →
  K (storeKey O (objKey object)) → within (changes K) (createOrReplace what merge object).
Proof.
  intros Hm Hk. unfold createOrReplace. eapply within_bind_yields; [apply _|apply yields_try, yields_Get|within_solve|].
  intros [existing|err] He.
  - within_step; [|within_step]. within_step. apply within_Update. by rewrite Hm.
  - destruct (IsNotFound err); [|within_step]. within_step; [|within_step]. within_step. by apply within_Create.
Qed.

Lemma K_kind kind name : kind ∈ ["HTTPRoute"; "GRPCRoute"; "SecurityPolicy"; "BackendTrafficPolicy"] → K (kind, (req.1, name)).
Proof. intros Hk. apply HK. right; left. done. Qed.

Lemma within_syncTLSSecrets listeners : within (changes K) (syncTLSSecrets r listeners).
Proof.
  unfold syncTLSSecrets, syncListener, putSyncedSecret. within_solve.
  all: (apply within_Create || apply within_Update); apply HK; do 3 right; eexists.
  2: reflexivity.
  match goal with H : objKey ?s0 = (opt_GatewayNamespace r, _) |- _ => exact (f_equal (storeKey Secret) H) end.
Qed.

Lemma within_convertGateway ingress listeners : om_Namespace (ing_Meta ingress) = req.1 → within (changes K) (reconcileGateway r ingress listeners).
Proof.
  intros Hns. assert (K (storeKey Gateway (gatewayNamespaceFor r ingress, opt_GatewayName r))) as HG.
  { apply HK. do 2 right; left. unfold gatewayNamespaceFor. by rewrite Hns. }
  unfold reconcileGateway. eapply within_bind_yields; [apply _|apply yields_wrap, yields_GetIfExists|within_solve|].
  intros [existing|] Hk; cbv zeta.
  - within_step. within_step; [|within_step]. apply within_Update. simpl in Hk. rewrite <- Hk in HG. exact HG.
  - within_step; [|within_step]. by apply within_Create.
Qed.

Lemma policies_namespace ingress routeName :
  (∀ policy, policy ∈ pcr_SecurityPolicies (policyResultFor r ingress routeName) → om_Namespace (secp_Meta policy) = om_Namespace (ing_Meta ingress)) ∧
  (∀ policy, policy ∈ pcr_BackendTrafficPolicies (policyResultFor r ingress routeName) → om_Namespace (btp_Meta policy) = om_Namespace (ing_Meta ingress)).
Proof.
  unfold policyResultFor, ConvertToPolicies. simpl. destruct (om_Annotations (ing_Meta ingress)) as [a|]; [|by split; intros ? ?%elem_of_nil].
  set (input := {| pci_IngressName := _ |}). unfold buildBackendTrafficPolicy, buildSecurityPolicy. cbv zeta. split; cbn [pcr_SecurityPolicies pcr_BackendTrafficPolicies].
  - intros policy Hp. destruct (SecurityIsEmpty (securityBuilder input)) eqn:He; [by apply elem_of_nil in Hp|].
    unfold SecurityBuild in Hp. rewrite He in Hp. apply list_elem_of_singleton in Hp as ->. simpl.
    by rewrite securityBuilder_base.
  - intros policy Hp. destruct (BackendIsEmpty (backendBuilder input)) eqn:He; [by apply elem_of_nil in Hp|].
    unfold BackendBuild in Hp. rewrite He in Hp. apply list_elem_of_singleton in Hp as ->. simpl.
    by rewrite backendBuilder_fields.
Qed.

Lemma within_reconcilePolicies ingress routeName : om_Namespace (ing_Meta ingress) = req.1 → within (changes K) (reconcilePolicies r ingress routeName).
Proof.
  intros Hns. destruct (policies_namespace ingress routeName) as [Hs Hb]. unfold reconcilePolicies. within_step; [within_solve|].
  set (owner := match a with inl _ => _ | inr _ => _ end). within_step.
  - within_step. apply within_createOrReplace; [by intros|]. unfold objKey, setPolicyOwnerRef. destruct owner; simpl; rewrite Hs, Hns by done; by apply K_kind; set_solver.
  - within_step. apply within_createOrReplace; [by intros|]. unfold objKey, setPolicyOwnerRef. destruct owner; simpl; rewrite Hb, Hns by done; by apply K_kind; set_solver.
Qed.

Lemma within_applied ingress result :
  om_Namespace (ing_Meta ingress) = req.1 →
  (∀ route, route ∈ res_HTTPRoutes result → om_Namespace (gr_Meta route) = req.1) →
  (∀ route, route ∈ res_GRPCRoutes result → om_Namespace (gr_Meta route) = req.1) →
  within (changes K) (applyConversion r ingress result).
Proof.
  intros Hns Hh Hg. unfold applyConversion. within_step; [within_step; apply within_syncTLSSecrets|].
  within_step; [within_step; by apply within_convertGateway|]. cbv zeta. within_step.
  { within_step. apply within_createOrReplace; [by intros|]. unfold objKey. simpl. rewrite Hh by done. apply K_kind. set_solver. }
  within_step.
  { within_step. apply within_createOrReplace; [by intros|]. unfold objKey. simpl. rewrite Hg by done. apply K_kind. set_solver. }
  destruct (res_HTTPRoutes result) as [|route routes]; [within_step|].
  destruct (opt_DisableEnvoyGatewayFeatures r); [within_step|]. within_step; [|within_step]. within_step. by apply within_reconcilePolicies.
Qed.

Lemma within_poll (T : Type) `{!Resource T} statusOf key deadline fuel : within (ticks K) (poll r elapse T statusOf key deadline fuel).
Proof.
  induction fuel as [|fuel IH]; simpl; [within_step|]. within_step; [within_step|]. case_match; [|within_step].
  within_step; [apply within_inCluster; within_solve|]. destruct (match _ with inl _ => _ | inr _ => _ end); [within_step|].
  within_step; [|done]. apply within_modify. intros s. split; simpl; [done|unfold pollInterval; lia].
Qed.

Lemma within_verify what wait v keys : (∀ key, within (ticks K) (wait key)) → within (ticks K) (foldM (verifyRoute what wait) v keys).
Proof. intros Hw. within_step. unfold verifyRoute. within_step; [apply Hw|within_step]. Qed.

Lemma within_status ingress v h g now : objKey ingress = req →
  within (changes K) (updateIngressStatusStaged FormatTime ParseTime ingress v h g now).
Proof.
  intros Hk. unfold updateIngressStatusStaged. rewrite Hk. eapply within_bind_yields; [apply _|apply yields_Get|within_solve|].
  intros current Hc. within_step; [|within_step]. apply within_Update, HK. left. by rewrite <- Hc.
Qed.

Lemma within_annotateSkipped ingress reason : objKey ingress = req → within (changes K) (annotateSkipped ingress reason).
Proof.
  intros Hk. unfold annotateSkipped. rewrite Hk. eapply within_bind_yields; [apply _|apply yields_Get|within_solve|].
  intros current Hc. destruct (_ && _); [within_step|]. within_step; [|within_step]. apply within_Update, HK. left. by rewrite <- Hc.
Qed.

Lemma within_conversion : within (ticks K) (Reconcile r url_Parse MarshalHTTP MarshalGRPC FormatTime ParseTime elapse req).
Proof.
  unfold Reconcile. eapply within_bind_yields; [apply _|apply yields_zoom, yields_try, yields_Get|apply within_inCluster; within_solve|].
  intros [ingress|err] Hk; [|destruct (IsNotFound err); within_step].
  assert (om_Namespace (ing_Meta ingress) = req.1) as Hns by (by rewrite <- Hk).
  destruct (om_Deleting _); [within_step|]. cbv zeta. destruct (cd_shouldConvert _); simpl.
  - unfold reconcile. within_step; [apply within_inCluster; unfold fetchServicesForIngress, fetchService; within_solve|].
    destruct (_ && _); [within_step|]. set (result := ConvertIngressWithServices _ _ _ _).
    destruct (converted_namespace url_Parse MarshalHTTP MarshalGRPC (conversionInput r ingress a)) as [Hh Hg].
    within_step; [apply within_inCluster, within_applied; [done|intros; by rewrite Hh|intros; by rewrite Hg]|].
    within_step; [apply within_verify; intros; unfold waitForRouteAcceptance; within_step; [within_step|apply within_poll]|].
    within_step; [apply within_verify; intros; unfold waitForGRPCRouteAcceptance; within_step; [within_step|apply within_poll]|].
    within_step; [within_step|]. apply within_inCluster. within_step. by apply within_status.
  - within_step; [|within_step]. apply within_inCluster. within_step. by apply within_annotateSkipped.
Qed.
End frame.

(** ** What the controller promises *)

Section promises.
Context (r : Options) (url_Parse : string -> result URL).
Context (MarshalHTTP : list HTTPRouteRule -> option (list N)) (MarshalGRPC : list GRPCRouteRule -> option (list N)).
Context (FormatTime : Z -> string) (ParseTime : string -> option Z) (elapse : Z -> Cluster -> Cluster).
#[local] Abbreviation Reconcile := (Reconcile r url_Parse MarshalHTTP MarshalGRPC FormatTime ParseTime elapse).

(** C28: a pass over an Ingress, whether it succeeds or fails, writes nothing but that
    Ingress, routes and policies of its namespace, the one Gateway, and secrets whose name
    starts with [ingress-] in the namespace of the Gateway; what others write meanwhile
    comes on top. *)
Theorem conversion_isolated (req : NamespacedName) (K : ObjectKey -> Prop) s :
  (∀ k, owned r req k → K k) → (∀ d c, changes K c (elapse d c)) → ticks K s (Reconcile req s).2.
Proof. intros HK He. by apply within_conversion. Qed.

(** waiting for a route ends within thirty seconds, whatever the API server answers
    and whatever others do to the cluster. *)
Theorem acceptance_wait_bounded (key : NamespacedName) s :
  (∃ result s', waitForRouteAcceptance r elapse key s = (Ret result, s') ∧ (ck_now s <= ck_now s' <= ck_now s + pollTimeout)%Z) ∧
  (∃ result s', waitForGRPCRouteAcceptance r elapse key s = (Ret result, s') ∧ (ck_now s <= ck_now s' <= ck_now s + pollTimeout)%Z).
Proof.
  assert (∀ (T : Type) `{!Resource T} (statusOf : T -> list RouteParentStatus),
    ∃ result s', poll r elapse T statusOf key (ck_now s + pollTimeout) pollFuel s = (Ret result, s') ∧ (ck_now s <= ck_now s' <= ck_now s + pollTimeout)%Z) as Hw.
  { intros T ? statusOf. destruct (poll_returns r elapse T statusOf key (ck_now s + pollTimeout) 15 pollFuel s) as (res & s' & k & Hr & Hk & Hn);
      [done|unfold pollFuel; lia|]. exists res, s'. split; [done|]. rewrite Hn. unfold pollInterval, pollTimeout. lia. }
  split; [apply (Hw HTTPRoute _)|apply (Hw GRPCRoute _)].
Qed.

(** an Ingress is marked converted exactly when no wait timed out, every route was
    accepted, there are no warnings, and an earlier pass at least five seconds ago had found
    the same; it is looked at again exactly when it is marked pending; and the time of the
    earlier pass is kept exactly when every route was accepted and the five seconds are not
    over. *)
Theorem conversion_status_spec verifyTime acceptance warnings hasTimeout now :
  let decision := determineConversionStatus ParseTime verifyTime acceptance warnings hasTimeout now in
  let good := hasTimeout = false ∧ map_Forall (λ _ accepted, accepted = true) acceptance in
  let verified := verifyTime ≠ "" ∧ ∃ ts, ParseTime verifyTime = Some ts ∧ (verifyDelay <= now - ts)%Z in
  (sd_status decision = ConversionStatusConverted ↔ good ∧ verified ∧ warnings = []) ∧
  (sd_requeue decision = true ↔ sd_status decision = ConversionStatusPending) ∧
  (sd_clearVerifyTime decision = false ↔ good ∧ ¬ verified).
Proof.
  cbv zeta. unfold determineConversionStatus. destruct hasTimeout; simpl; [by split_and!; naive_solver|].
  case_bool_decide as Hall; simpl; [|by split_and!; naive_solver].
  case_bool_decide as Hts; simpl; [by split_and!; naive_solver|].
  destruct (ParseTime verifyTime) as [ts|] eqn:Hp; simpl; [|by split_and!; naive_solver].
  destruct (Z.ltb_spec (now - ts) verifyDelay); simpl; [split_and!; split; naive_solver lia|].
  case_bool_decide; simpl; split_and!; naive_solver.
Qed.

(** the events that the filter drops are of no account: when the Ingress of a dropped
    event is the stored one, a pass succeeds, changes nothing and asks for no other; and so
    does a pass after the Ingress is gone. *)
Theorem conversion_filter_complete (req : NamespacedName) s (e : Event) :
  cl_faults (ck_cluster s) = [] →
  match e with CreateEvent o | UpdateEvent _ o | GenericEvent o => cl_objects (ck_cluster s) !! storeKey Ingress req = Some o ∧ keyOf o = storeKey Ingress req ∧ resourceFilter r e = false
  | DeleteEvent _ => cl_objects (ck_cluster s) !! storeKey Ingress req = None end →
  Reconcile req s = (Ret false, s).
Proof.
  intros Hno He. unfold IngressToGateway.Reconcile. pose proof (Get_eval _ Hno (O:=Ingress) req) as Hg.
  assert (∀ o, cl_objects (ck_cluster s) !! storeKey Ingress req = Some o ∧ keyOf o = storeKey Ingress req ∧
    match project o with Some obj => admits r obj | None => false end = false →
    ∃ obj, findObject Ingress (ck_cluster s) req = Some obj ∧ admits r obj = false) as Hfind.
  { intros o (Ho & Hk & Ha). destruct o; try discriminate (f_equal fst Hk). exists o. split; [|done].
    apply findObject_Some. split; [done|]. exact (f_equal snd Hk). }
  assert (findObject Ingress (ck_cluster s) req = None ∨ ∃ obj, findObject Ingress (ck_cluster s) req = Some obj ∧ admits r obj = false) as [Hf|(obj & Hf & Ha)].
  { destruct e; try (right; by eapply Hfind). left. unfold findObject. by rewrite He. }
  - rewrite Hf in Hg. by rewrite (bind_eval _ _ _ _ _ (inCluster_read _ _ _ (try_Fail _ _ _ _ Hg))).
  - rewrite Hf in Hg. rewrite (bind_eval _ _ _ _ _ (inCluster_read _ _ _ (try_eval _ _ _ _ Hg))). cbv beta iota zeta.
    destruct (om_Deleting (ing_Meta obj)); [done|].
    assert (cd_shouldConvert (shouldConvert r obj) = false ∧ cd_annotate (shouldConvert r obj) = false) as [-> ->]; [|by destruct s].
    unfold admits in Ha. destruct (isAlreadyConverted obj) eqn:Hi; [|by apply orb_false_iff]. unfold shouldConvert. rewrite Hi. by destruct (bool_decide _).
Qed.

(** A timestamp that cannot be read is not replaced: the Ingress stays pending. *)
Lemma unreadable_timestamp_stays m warnings http grpc now ts :
  m !! AnnotationVerificationTimestamp = Some ts → ts ≠ "" → ParseTime ts = None →
  let decision := determineConversionStatus ParseTime ts ∅ warnings false now in
  decision = {| sd_status := ConversionStatusPending; sd_requeue := true; sd_clearVerifyTime := false |} ∧
  statusAnnotations FormatTime m decision warnings http grpc now !! AnnotationVerificationTimestamp = Some ts.
Proof.
  intros Hm Hts Hp. cbv zeta. unfold determineConversionStatus. rewrite bool_decide_true by apply map_Forall_empty.
  rewrite bool_decide_false, Hp by done. simpl. split; [done|]. unfold statusAnnotations. simpl. rewrite Hm. simpl. rewrite bool_decide_false by done.
  unfold setOrDelete. repeat case_match; by simplify_map_eq.
Qed.
End promises.
