(* ===== verification/ConversionPass.v ===== *)
(** * Two passes of the conversion

    When the calls go through and the Gateway accepts, an Ingress is pending after the
    first pass and settled after a second one at least five seconds later. *)

From Stdlib Require Import Ascii.
From S2P Require Import Prelude GoStrings Api GatewayApi Kube Finalizers ConvAnnotations ConvPolicies Converter ConvGateway Manager IngressToGateway.
Local Open Scope go_scope.

(** ** When the calls go through and the Gateway accepts *)

(** What others do while the controller sleeps: the Gateway accepts the routes that are
    there, and nothing but routes changes. *)
Record accepting (gatewayName : string) (elapse : Z -> Cluster -> Cluster) : Prop := {
  acc_others d c k : k.1 ≠ "HTTPRoute" → k.1 ≠ "GRPCRoute" → cl_objects (elapse d c) !! k = cl_objects c !! k;
  acc_faults d c : cl_faults (elapse d c) = cl_faults c;
  acc_wf d c : well_formed c → well_formed (elapse d c);
  acc_http d c key : is_Some (findObject HTTPRoute c key) → is_Some (findObject HTTPRoute (elapse d c) key);
  acc_http_ok d c key route : findObject HTTPRoute (elapse d c) key = Some route →
    acceptanceOf gatewayName (gr_Status route) = Some {| ra_accepted := true; ra_reason := "" |};
  acc_grpc d c key : is_Some (findObject GRPCRoute c key) → is_Some (findObject GRPCRoute (elapse d c) key);
  acc_grpc_ok d c key route : findObject GRPCRoute (elapse d c) key = Some route →
    acceptanceOf gatewayName (gr_Status route) = Some {| ra_accepted := true; ra_reason := "" |};
}.

Section pass.
Context (r : Options) (url_Parse : string -> result URL).
Context (MarshalHTTP : list HTTPRouteRule -> option (list N)) (MarshalGRPC : list GRPCRouteRule -> option (list N)).
Context (FormatTime : Z -> string) (ParseTime : string -> option Z) (elapse : Z -> Cluster -> Cluster).
Context (req : NamespacedName) (Hacc : accepting (opt_GatewayName r) elapse).
Implicit Types (c : Cluster) (s : Clocked) (ingress : Ingress).

(** No route is refused. *)
Definition unrefused (T : Type) `{!Resource T} (statusOf : T -> list RouteParentStatus) c : Prop := ∀ key route result,
  findObject T c key = Some route → acceptanceOf (opt_GatewayName r) (statusOf route) = Some result → ra_accepted result = true.

Record calm c : Prop := {
  calm_faults : cl_faults c = [];
  calm_wf : well_formed c;
  calm_http : unrefused HTTPRoute gr_Status c;
  calm_grpc : unrefused GRPCRoute gr_Status c;
}.

(** A step that goes through: routes stay, and so does the Ingress. *)
Record quiet c c' : Prop := {
  quiet_calm : calm c';
  quiet_http key : is_Some (findObject HTTPRoute c key) → is_Some (findObject HTTPRoute c' key);
  quiet_grpc key : is_Some (findObject GRPCRoute c key) → is_Some (findObject GRPCRoute c' key);
  quiet_ingress : findObject Ingress c' req = findObject Ingress c req;
}.

Definition settles {A} (Q : A -> Cluster -> Prop) (m : M Cluster A) : Prop := ∀ c, calm c →
  ∃ a c', m c = (Ret a, c') ∧ quiet c c' ∧ Q a c'.

Lemma quiet_refl c : calm c → quiet c c.
Proof. by split. Qed.
Lemma quiet_trans c1 c2 c3 : quiet c1 c2 → quiet c2 c3 → quiet c1 c3.
Proof. intros [? H1 G1 I1] [? H2 G2 I2]. split; [done|auto|auto|by rewrite I2]. Qed.

Lemma settles_ret {A} (Q : A -> Cluster -> Prop) a : (∀ c, calm c → Q a c) → settles Q (mret a).
Proof. intros HQ c Hc. exists a, c. split_and!; [done|by apply quiet_refl|by apply HQ]. Qed.
Lemma settles_bind {A B} (Q : A -> Prop) (Q' : B -> Cluster -> Prop) (m : M Cluster A) (k : A -> M Cluster B) :
  settles (λ a _, Q a) m → (∀ a, Q a → settles Q' (k a)) → settles Q' (m ≫= k).
Proof.
  intros Hm Hk c Hc. destruct (Hm c Hc) as (a & c1 & H1 & Hq1 & HQ). destruct (Hk a HQ c1 (quiet_calm _ _ Hq1)) as (b & c2 & H2 & Hq2 & HQ').
  exists b, c2. split_and!; [by rewrite (bind_eval _ _ _ _ _ H1)|by eapply quiet_trans|done].
Qed.
Lemma settles_mono {A} (Q Q' : A -> Cluster -> Prop) (m : M Cluster A) : (∀ a c, Q a c → Q' a c) → settles Q m → settles Q' m.
Proof. intros HQ Hm c Hc. destruct (Hm c Hc) as (a & c1 & H1 & Hq & Ha). exists a, c1. split_and!; [done|done|by apply HQ]. Qed.
Lemma settles_wrap {A} Q p (m : M Cluster A) : settles Q m → settles Q (wrap p m).
Proof. intros Hm c Hc. destruct (Hm c Hc) as (a & c1 & H1 & ?). exists a, c1. split; [by apply wrap_eval|done]. Qed.
Lemma settles_try {A} (Q : A -> Cluster -> Prop) (m : M Cluster A) : settles Q m → settles (λ a c, match a with inl a => Q a c | inr _ => True end) (try m).
Proof. intros Hm c Hc. destruct (Hm c Hc) as (a & c1 & H1 & ?). exists (inl a), c1. split; [by apply try_eval|done]. Qed.
Lemma settles_foldM {A B} (f : B -> A -> M Cluster B) b l : (∀ b x, x ∈ l → settles (λ _ _, True) (f b x)) → settles (λ _ _, True) (foldM f b l).
Proof.
  revert b. induction l as [|x l IH]; intros b Hf; [by apply settles_ret|].
  eapply (settles_bind (λ _, True)); [apply Hf; by left|]. intros b' _. apply IH. intros. apply Hf. by right.
Qed.

(** A loop, and what each turn leaves for good *)
Lemma settles_forM_ {A} (P : A -> Cluster -> Prop) (l : list A) (f : A -> M Cluster unit) :
  (∀ x c c', x ∈ l → quiet c c' → P x c → P x c') → (∀ x, x ∈ l → settles (λ _, P x) (f x)) →
  settles (λ _ c, ∀ x, x ∈ l → P x c) (forM_ l f).
Proof.
  intros HP Hf. induction l as [|x l IH]; [apply settles_ret; by intros c _ x ?%elem_of_nil|]. intros c Hc. simpl.
  destruct (Hf x ltac:(by left) c Hc) as (u & c1 & H1 & Hq1 & HP1).
  destruct (IH ltac:(intros; eapply HP; [by right|..]; done) ltac:(intros; apply Hf; by right) c1 (quiet_calm _ _ Hq1)) as (v & c2 & H2 & Hq2 & HP2).
  exists v, c2. split_and!; [by rewrite (bind_eval _ _ _ _ _ H1)|by eapply quiet_trans|].
  intros y [->|Hy]%elem_of_cons; [|by apply HP2]. eapply HP; [by left|done|done].
Qed.

Lemma settles_read (O : Type) `{!Resource O} key : settles (λ _ _, True) (try (Get O key)).
Proof.
  intros c Hc. pose proof (calm_faults _ Hc) as Hno. pose proof (Get_eval c Hno (O:=O) key) as Hg.
  destruct (findObject O c key) as [o|]; [exists (inl o)|eexists (inr _)]; exists c; (split_and!; [|by apply quiet_refl|done]);
    [by apply try_eval|by apply try_Fail].
Qed.

(** Writing an object of another kind *)
Lemma quiet_other (O : Type) `{!Resource O} key c c' : resKind O ∉ ["HTTPRoute"; "GRPCRoute"; "Ingress"] → calm c →
  changes (eq (storeKey O key)) c c' → cl_faults c' = [] → quiet c c'.
Proof.
  intros Hk [Hno Hw Hh Hg] Hc Hno'.
  assert (∀ (X : Type) (H : Resource X) k, resKind X ∈ ["HTTPRoute"; "GRPCRoute"; "Ingress"] → findObject X c' k = findObject X c k) as Hf.
  { intros X H k Hx. apply (findObject_frame _ _ _ _ Hc). intros [= Heq _]. apply Hk. by rewrite Heq. }
  split; [split; [done|by apply Hc|..]|..].
  - intros k route res. rewrite (Hf HTTPRoute _) by set_solver. apply Hh.
  - intros k route res. rewrite (Hf GRPCRoute _) by set_solver. apply Hg.
  - intros k. by rewrite (Hf HTTPRoute _) by set_solver.
  - intros k. by rewrite (Hf GRPCRoute _) by set_solver.
  - apply (Hf Ingress _). set_solver.
Qed.

Lemma createOrReplace_ok {O} `{!Resource O} what merge (object : O) c : calm c →
  (∀ existing, objKey existing = objKey object → objKey (merge existing object) = objKey object ∧
     om_UID (objMeta (merge existing object)) = om_UID (objMeta existing) ∧
     om_Finalizers (objMeta (merge existing object)) = om_Finalizers (objMeta existing)) →
  ∃ o c', createOrReplace what merge object c = (Ret tt, c') ∧ changes (eq (storeKey O (objKey object))) c c' ∧ cl_faults c' = [] ∧
    findObject O c' (objKey object) = Some o ∧
    (o = created c object ∨ ∃ old, findObject O c (objKey object) = Some old ∧ o = updated old (merge old object)).
Proof.
  intros [Hno Hw _ _] Hm. unfold createOrReplace. pose proof (Get_eval c Hno (O:=O) (objKey object)) as Hg.
  destruct (findObject O c (objKey object)) as [old|] eqn:Hf.
  - rewrite (bind_eval _ _ _ _ _ (try_eval _ _ _ _ Hg)). cbv beta iota. pose proof (findObject_key _ _ _ Hf) as Hk.
    destruct (Hm old Hk) as (Hk' & Hu & Hfin).
    destruct (Update_stored c Hno (merge old object) old) as (c' & Hup & Hch & Hno' & Hf').
    + by rewrite Hk'.
    + by right.
    + rewrite Hfin. by pose proof (findObject_meta _ _ _ Hw Hf) as [Hd _].
    + rewrite Hk' in *. exists (updated old (merge old object)), c'. split_and!; [|done|done|done|right; by exists old].
      by rewrite (bind_eval _ _ _ _ _ (wrap_eval _ _ _ _ _ Hup)).
  - rewrite (bind_eval _ _ _ _ _ (try_Fail _ _ _ _ Hg)). cbv beta iota. simpl.
    destruct (Create_stored c Hno object Hf) as (c' & Hc & Hch & Hno' & Hf').
    exists (created c object), c'. split_and!; [|done|done|done|by left]. by rewrite (bind_eval _ _ _ _ _ (wrap_eval _ _ _ _ _ Hc)).
Qed.

Lemma settles_other (O : Type) `{!Resource O} what merge (object : O) : resKind O ∉ ["HTTPRoute"; "GRPCRoute"; "Ingress"] →
  (∀ existing, objKey existing = objKey object → objKey (merge existing object) = objKey object ∧
     om_UID (objMeta (merge existing object)) = om_UID (objMeta existing) ∧
     om_Finalizers (objMeta (merge existing object)) = om_Finalizers (objMeta existing)) →
  settles (λ _ _, True) (createOrReplace what merge object).
Proof.
  intros Hk Hm c Hc. destruct (createOrReplace_ok what merge object c Hc Hm) as (o & c' & Hr & Hch & Hno & _).
  exists tt, c'. split_and!; [done|by eapply quiet_other|done].
Qed.

(** Writing a route: the status is kept, or empty. *)
Lemma quiet_http_route c c' key (o : HTTPRoute) : calm c → changes (eq (storeKey HTTPRoute key)) c c' → cl_faults c' = [] →
  findObject HTTPRoute c' key = Some o → (gr_Status o = [] ∨ ∃ old, findObject HTTPRoute c key = Some old ∧ gr_Status o = gr_Status old) → quiet c c'.
Proof.
  intros [Hno Hw Hh Hg] Hc Hno' Hf Ho.
  assert (∀ k, k ≠ key → findObject HTTPRoute c' k = findObject HTTPRoute c k) as Hk
    by (intros k Hne; apply (findObject_frame _ _ _ _ Hc); naive_solver).
  assert (∀ k, findObject GRPCRoute c' k = findObject GRPCRoute c k) as Hgk by (intros k; by apply (findObject_frame _ _ _ _ Hc)).
  split; [split; [done|by apply Hc|..]|..].
  - intros k route res. destruct (decide (k = key)) as [->|]; [|rewrite Hk by done; apply Hh]. rewrite Hf. intros [= <-].
    destruct Ho as [->|(old & Hold & ->)]; [done|by eapply Hh].
  - intros k route res. rewrite Hgk. apply Hg.
  - intros k. destruct (decide (k = key)) as [->|]; [by rewrite Hf|by rewrite Hk].
  - intros k. by rewrite Hgk.
  - by apply (findObject_frame _ _ _ _ Hc).
Qed.

Lemma quiet_grpc_route c c' key (o : GRPCRoute) : calm c → changes (eq (storeKey GRPCRoute key)) c c' → cl_faults c' = [] →
  findObject GRPCRoute c' key = Some o → (gr_Status o = [] ∨ ∃ old, findObject GRPCRoute c key = Some old ∧ gr_Status o = gr_Status old) → quiet c c'.
Proof.
  intros [Hno Hw Hh Hg] Hc Hno' Hf Ho.
  assert (∀ k, k ≠ key → findObject GRPCRoute c' k = findObject GRPCRoute c k) as Hk
    by (intros k Hne; apply (findObject_frame _ _ _ _ Hc); naive_solver).
  assert (∀ k, findObject HTTPRoute c' k = findObject HTTPRoute c k) as Hhk by (intros k; by apply (findObject_frame _ _ _ _ Hc)).
  split; [split; [done|by apply Hc|..]|..].
  - intros k route res. rewrite Hhk. apply Hh.
  - intros k route res. destruct (decide (k = key)) as [->|]; [|rewrite Hk by done; apply Hg]. rewrite Hf. intros [= <-].
    destruct Ho as [->|(old & Hold & ->)]; [done|by eapply Hg].
  - intros k. by rewrite Hhk.
  - intros k. destruct (decide (k = key)) as [->|]; [by rewrite Hf|by rewrite Hk].
  - by apply (findObject_frame _ _ _ _ Hc).
Qed.

Definition present (T : Type) `{!Resource T} c key : Prop := is_Some (findObject T c key).

Lemma settles_http_route (route : HTTPRoute) :
  settles (λ _ c, present HTTPRoute c (objKey route)) (createOrReplace "HTTPRoute" mergeRoute route).
Proof.
  intros c Hc. destruct (createOrReplace_ok "HTTPRoute" mergeRoute route c Hc) as (o & c' & Hr & Hch & Hno & Hf & Ho); [by intros|].
  exists tt, c'. split_and!; [done| |by exists o]. eapply quiet_http_route; [done..|]. destruct Ho as [->|(old & Hold & ->)]; [by left|right; by exists old].
Qed.
Lemma settles_grpc_route (route : GRPCRoute) :
  settles (λ _ c, present GRPCRoute c (objKey route)) (createOrReplace "GRPCRoute" mergeRoute route).
Proof.
  intros c Hc. destruct (createOrReplace_ok "GRPCRoute" mergeRoute route c Hc) as (o & c' & Hr & Hch & Hno & Hf & Ho); [by intros|].
  exists tt, c'. split_and!; [done| |by exists o]. eapply quiet_grpc_route; [done..|]. destruct Ho as [->|(old & Hold & ->)]; [by left|right; by exists old].
Qed.

Lemma settles_fetchServices ingress : settles (λ _ _, True) (fetchServicesForIngress ingress).
Proof.
  apply settles_foldM. intros services key _. unfold fetchService. case_match; [by apply settles_ret|].
  eapply (settles_bind (λ _, True)); [apply settles_read|]. intros. by apply settles_ret.
Qed.

Lemma settles_lookup (O : Type) `{!Resource O} key :
  settles (λ found _, match found with inl o => objKey o = key | inr err => IsNotFound err = true end) (try (Get O key)).
Proof.
  intros c Hc. pose proof (Get_eval c (calm_faults _ Hc) (O:=O) key) as Hg.
  destruct (findObject O c key) as [o|] eqn:Hf; [exists (inl o)|eexists (inr _)]; exists c; (split_and!; [|by apply quiet_refl|]);
    [by apply try_eval|by eapply findObject_key|by apply try_Fail|done].
Qed.

(** The stored object is replaced, or a new one is made. *)
Lemma settles_update (O : Type) `{!Resource O} (old new : O) c : resKind O ∉ ["HTTPRoute"; "GRPCRoute"; "Ingress"] → calm c →
  findObject O c (objKey new) = Some old → om_UID (objMeta new) = om_UID (objMeta old) → om_Finalizers (objMeta new) = om_Finalizers (objMeta old) →
  ∃ c', Update new c = (Ret (updated old new), c') ∧ quiet c c'.
Proof.
  intros Hk Hc Hf Hu Hfin. destruct (Update_stored c (calm_faults _ Hc) new old Hf) as (c' & Hup & Hch & Hno & _).
  - by right.
  - rewrite Hfin. by apply (findObject_meta _ _ _ (calm_wf _ Hc) Hf).
  - exists c'. split; [done|by eapply quiet_other].
Qed.
Lemma settles_create (O : Type) `{!Resource O} (new : O) c : resKind O ∉ ["HTTPRoute"; "GRPCRoute"; "Ingress"] → calm c →
  findObject O c (objKey new) = None → ∃ c', Create new c = (Ret (created c new), c') ∧ quiet c c'.
Proof.
  intros Hk Hc Hf. destruct (Create_stored c (calm_faults _ Hc) new Hf) as (c' & Hcr & Hch & Hno & _).
  exists c'. split; [done|by eapply quiet_other].
Qed.

Lemma settles_putSyncedSecret tls source : settles (λ _ _, True) (putSyncedSecret r tls source).
Proof.
  intros c Hc. unfold putSyncedSecret. set (key := (opt_GatewayNamespace r, syncedNameOf tls)).
  pose proof (Get_eval c (calm_faults _ Hc) (O:=Secret) key) as Hg. destruct (findObject Secret c key) as [target|] eqn:Hf.
  - rewrite (bind_eval _ _ _ _ _ (try_eval _ _ _ _ Hg)). cbv beta iota. case_match; [exists tt, c; by split_and!; [|apply quiet_refl|]|].
    destruct (settles_update Secret target {| target with sec_Data := sec_Data source; sec_Type := sec_Type source |} c) as (c' & Hup & Hq);
      [set_solver|done|by rewrite <- Hf; f_equal; apply (findObject_key _ _ _ Hf)|done|done|].
    exists tt, c'. split_and!; [by rewrite (bind_eval _ _ _ _ _ (wrap_eval _ _ _ _ _ Hup))|done|done].
  - rewrite (bind_eval _ _ _ _ _ (try_Fail _ _ _ _ Hg)). cbv beta iota. simpl.
    destruct (settles_create Secret (syncedSecret source (syncedNameOf tls) (opt_GatewayNamespace r) (sourceKeyOf tls)) c) as (c' & Hcr & Hq);
      [set_solver|done|done|]. exists tt, c'. split_and!; [by rewrite (bind_eval _ _ _ _ _ (wrap_eval _ _ _ _ _ Hcr))|done|done].
Qed.

Lemma settles_syncTLSSecrets listeners : settles (λ _ _, True) (syncTLSSecrets r listeners).
Proof.
  unfold syncTLSSecrets. case_match; [by apply settles_ret|]. eapply (settles_bind (λ _, True)); [|by intros [] _; apply settles_ret].
  apply settles_foldM. intros [result seen] tls _. unfold syncListener. case_match; [by apply settles_ret|]. case_match; [by apply settles_ret|].
  cbv zeta. eapply settles_bind; [apply settles_lookup|]. intros [source|err] Hf; simpl in Hf.
  - eapply (settles_bind (λ _, True)); [apply settles_putSyncedSecret|]. intros. by apply settles_ret.
  - rewrite Hf. by apply settles_ret.
Qed.

Lemma settles_reconcileGateway ingress listeners : settles (λ _ _, True) (reconcileGateway r ingress listeners).
Proof.
  intros c Hc. unfold reconcileGateway. cbv zeta. cbn [gc_Namespace gc_Name]. set (key := (_, _)).
  rewrite (bind_eval _ _ _ _ _ (wrap_eval _ _ _ _ _ (GetIfExists_eval c (calm_faults _ Hc) (O:=Gateway) key))). cbv beta.
  destruct (findObject Gateway c key) as [existing|] eqn:Hf.
  - unfold when. case_match; [|exists tt, c; by split_and!; [|apply quiet_refl|]].
    match goal with |- context [Update ?new] => destruct (settles_update Gateway existing new c) as (c' & Hup & Hq) end;
      [set_solver|done|by rewrite <- Hf; f_equal; apply (findObject_key _ _ _ Hf)|done|done|].
    exists tt, c'. split_and!; [by rewrite (bind_eval _ _ _ _ _ Hup)|done|done].
  - match goal with |- context [Create ?new] => destruct (settles_create Gateway new c) as (c' & Hcr & Hq) end;
      [set_solver|done|exact Hf|]. exists tt, c'. split_and!; [by rewrite (bind_eval _ _ _ _ _ Hcr)|done|done].
Qed.

Lemma settles_reconcilePolicies ingress routeName : settles (λ _ _, True) (reconcilePolicies r ingress routeName).
Proof.
  unfold reconcilePolicies. eapply (settles_bind (λ _, True)); [apply settles_read|]. intros found _. cbv zeta.
  set (owner := match found with inl _ => _ | inr _ => _ end).
  eapply (settles_bind (λ _, True)).
  - apply (settles_mono (λ _ _, ∀ policy, policy ∈ pcr_SecurityPolicies (policyResultFor r ingress routeName) → True)); [done|].
    apply (settles_forM_ (λ _ _, True)); [done|]. intros. apply settles_other; [set_solver|by intros].
  - intros _ _. apply (settles_mono (λ _ _, ∀ policy, policy ∈ pcr_BackendTrafficPolicies (policyResultFor r ingress routeName) → True)); [done|].
    apply (settles_forM_ (λ _ _, True)); [done|]. intros. apply settles_other; [set_solver|by intros].
Qed.

(** What the first part leaves stays. *)
Lemma settles_bind_keep {A B} (I : Cluster -> Prop) (Q' : B -> Cluster -> Prop) (m : M Cluster A) (k : A -> M Cluster B) :
  (∀ c c', quiet c c' → I c → I c') → settles (λ _, I) m → (∀ a, settles Q' (k a)) → settles (λ b c, I c ∧ Q' b c) (m ≫= k).
Proof.
  intros HI Hm Hk c Hc. destruct (Hm c Hc) as (a & c1 & H1 & Hq1 & Hi). destruct (Hk a c1 (quiet_calm _ _ Hq1)) as (b & c2 & H2 & Hq2 & HQ').
  exists b, c2. split_and!; [by rewrite (bind_eval _ _ _ _ _ H1)|by eapply quiet_trans|by eapply HI|done].
Qed.

Definition routesPresent (result : Converter.Result) c : Prop :=
  (∀ route, route ∈ res_HTTPRoutes result → present HTTPRoute c (objKey route)) ∧
  (∀ route, route ∈ res_GRPCRoutes result → present GRPCRoute c (objKey route)).

Lemma routesPresent_quiet result c c' : quiet c c' → routesPresent result c → routesPresent result c'.
Proof. intros Hq [Hh Hg]. split; intros route Hr; [by apply Hq, Hh|by apply Hq, Hg]. Qed.

Lemma settles_applyConversion ingress result : settles (λ _, routesPresent result) (applyConversion r ingress result).
Proof.
  unfold applyConversion. eapply (settles_bind (λ _, True)); [apply settles_wrap, settles_syncTLSSecrets|]. intros listeners _.
  eapply (settles_bind (λ _, True)); [apply settles_wrap, settles_reconcileGateway|]. intros _ _. cbv zeta.
  set (annotations := extractHTTPRouteAnnotations r ingress).
  apply (settles_mono (λ _ c, (∀ route, route ∈ res_HTTPRoutes result → present HTTPRoute c (objKey route)) ∧
    (∀ route, route ∈ res_GRPCRoutes result → present GRPCRoute c (objKey route)) ∧ True)); [by intros _ c (? & ? & _)|].
  apply (settles_bind_keep (λ c, ∀ route, route ∈ res_HTTPRoutes result → present HTTPRoute c (objKey route))).
  - intros c1 c2 Hq Hp route Hr. by apply Hq, Hp.
  - apply (settles_forM_ (λ (route : HTTPRoute) c, present HTTPRoute c (objKey route))); [intros route c1 c2 _ Hq; apply Hq|].
    intros route _. apply (settles_http_route (applyRouteMetadata route ingress annotations)).
  - intros _. apply (settles_bind_keep (λ c, ∀ route, route ∈ res_GRPCRoutes result → present GRPCRoute c (objKey route))).
    + intros c1 c2 Hq Hp route Hr. by apply Hq, Hp.
    + apply (settles_forM_ (λ (route : GRPCRoute) c, present GRPCRoute c (objKey route))); [intros route c1 c2 _ Hq; apply Hq|].
      intros route _. apply (settles_grpc_route (applyRouteMetadata route ingress annotations)).
    + intros _. destruct (res_HTTPRoutes result) as [|route routes]; [by apply settles_ret|]. case_match; [by apply settles_ret|].
      eapply (settles_bind (λ _, True)); [|intros; by apply settles_ret].
      by eapply settles_mono; [|apply settles_try, settles_reconcilePolicies].
Qed.

(** *** The wait *)

Lemma quiet_elapse d c : calm c → quiet c (elapse d c).
Proof.
  intros [Hno Hw _ _]. split; [split|..].
  - by rewrite (acc_faults _ _ Hacc).
  - by apply (acc_wf _ _ Hacc).
  - intros key route res Hf. by rewrite (acc_http_ok _ _ Hacc _ _ _ _ Hf); intros [= <-].
  - intros key route res Hf. by rewrite (acc_grpc_ok _ _ Hacc _ _ _ _ Hf); intros [= <-].
  - apply (acc_http _ _ Hacc).
  - apply (acc_grpc _ _ Hacc).
  - unfold findObject. by rewrite (acc_others _ _ Hacc).
Qed.

Record later s s' : Prop := {
  later_quiet : quiet (ck_cluster s) (ck_cluster s');
  later_now : (ck_now s <= ck_now s')%Z;
}.
Lemma later_trans s1 s2 s3 : later s1 s2 → later s2 s3 → later s1 s3.
Proof. intros [Q1 N1] [Q2 N2]. split; [by eapply quiet_trans|lia]. Qed.

Definition awaits (T : Type) `{!Resource T} (wait : NamespacedName -> M Clocked routeAcceptanceResult) : Prop := ∀ key s,
  calm (ck_cluster s) → present T (ck_cluster s) key →
  ∃ result s', wait key s = (Ret result, s') ∧ later s s' ∧ ra_accepted result = true.

(** One sleep is enough. *)
Lemma poll_accepts (T : Type) `{!Resource T} (statusOf : T -> list RouteParentStatus) key s :
  (∀ d c, present T c key → present T (elapse d c) key) →
  (∀ d c route, findObject T (elapse d c) key = Some route → acceptanceOf (opt_GatewayName r) (statusOf route) = Some {| ra_accepted := true; ra_reason := "" |}) →
  calm (ck_cluster s) → unrefused T statusOf (ck_cluster s) → present T (ck_cluster s) key →
  ∃ result s', poll r elapse T statusOf key (ck_now s + pollTimeout) pollFuel s = (Ret result, s') ∧ later s s' ∧ ra_accepted result = true.
Proof.
  intros Hpres Hok Hc Hu [route Hf]. unfold pollFuel. cbn [poll].
  rewrite (bind_eval _ _ _ (ck_now s) s) by done. cbv beta. rewrite (proj2 (Z.ltb_lt _ _)) by (unfold pollTimeout; lia).
  pose proof (Get_eval _ (calm_faults _ Hc) (O:=T) key) as Hg. rewrite Hf in Hg.
  rewrite (bind_eval _ _ _ _ _ (inCluster_read _ _ _ (try_eval _ _ _ _ Hg))). cbv beta iota.
  destruct (acceptanceOf _ _) as [res|] eqn:Ha.
  { exists res, s. split_and!; [done|split; [by apply quiet_refl|lia]|by eapply Hu]. }
  set (s1 := {| ck_cluster := elapse pollInterval (ck_cluster s); ck_now := (ck_now s + pollInterval)%Z |}).
  rewrite (bind_eval _ _ _ tt s1) by done. rewrite (bind_eval _ _ _ (ck_now s1) s1) by done. cbv beta.
  rewrite (proj2 (Z.ltb_lt _ _)) by (unfold s1, pollTimeout, pollInterval; simpl; lia).
  assert (quiet (ck_cluster s) (ck_cluster s1)) as Hq by (by apply quiet_elapse).
  destruct (Hpres pollInterval (ck_cluster s) ltac:(by exists route)) as [route' Hf'].
  pose proof (Get_eval _ (calm_faults _ (quiet_calm _ _ Hq)) (O:=T) key) as Hg'. cbn [ck_cluster s1] in Hg'. rewrite Hf' in Hg'.
  rewrite (bind_eval _ _ _ _ _ (inCluster_read _ s1 _ (try_eval _ _ _ _ Hg'))). cbv beta iota. rewrite (Hok _ _ _ Hf').
  eexists _, s1. split_and!; [done|split; [done|unfold s1, pollInterval; simpl; lia]|done].
Qed.

Lemma awaits_http : awaits HTTPRoute (waitForRouteAcceptance r elapse).
Proof.
  intros key s Hc Hp. apply poll_accepts; [intros d c; apply (acc_http _ _ Hacc)|intros d c; apply (acc_http_ok _ _ Hacc)|done|by apply calm_http|done].
Qed.
Lemma awaits_grpc : awaits GRPCRoute (waitForGRPCRouteAcceptance r elapse).
Proof.
  intros key s Hc Hp. apply poll_accepts; [intros d c; apply (acc_grpc _ _ Hacc)|intros d c; apply (acc_grpc_ok _ _ Hacc)|done|by apply calm_grpc|done].
Qed.

Definition allAccepted (v : verification) : Prop := map_Forall (λ _ accepted, accepted = true) (vf_acceptance v).

Lemma verify_accepts (T : Type) `{!Resource T} what wait keys v s : awaits T wait →
  (∀ c c' key, quiet c c' → present T c key → present T c' key) →
  calm (ck_cluster s) → (∀ key, key ∈ keys → present T (ck_cluster s) key) → allAccepted v →
  ∃ v' s', foldM (verifyRoute what wait) v keys s = (Ret v', s') ∧ later s s' ∧ allAccepted v' ∧
    vf_warnings v' = vf_warnings v ∧ vf_hasTimeout v' = vf_hasTimeout v.
Proof.
  intros Hw Hq. revert v s. induction keys as [|key keys IH]; intros v s Hc Hp Hv.
  { exists v, s. split_and!; [done|split; [by apply quiet_refl|lia]|done|done|done]. }
  destruct (Hw key s Hc ltac:(apply Hp; by left)) as (res & s1 & H1 & Hl1 & Ha).
  set (v1 := {| v with vf_acceptance := <[key.2 := true]> (vf_acceptance v) |}).
  assert (verifyRoute what wait v key s = (Ret v1, s1)) as Hstep.
  { unfold verifyRoute. rewrite (bind_eval _ _ _ _ _ H1). cbv beta zeta. by rewrite Ha. }
  destruct (IH v1 s1) as (v' & s' & H2 & Hl2 & Hv' & Hw' & Ht'); [by apply Hl1|intros; by eapply Hq, Hp; [apply Hl1|right]|by apply map_Forall_insert_2|].
  exists v', s'. split_and!; [|by eapply later_trans|done|done|done].
  simpl. by rewrite (bind_eval _ _ _ _ _ Hstep).
Qed.

(** *** One pass *)

Lemma calm_ingress c c' : calm c → changes (eq (storeKey Ingress req)) c c' → cl_faults c' = [] → calm c'.
Proof.
  intros [Hno Hw Hh Hg] Hc Hno'. split; [done|by apply Hc|intros k route res; rewrite (findObject_frame _ _ _ _ Hc) by done; apply Hh|].
  intros k route res. rewrite (findObject_frame _ _ _ _ Hc) by done. apply Hg.
Qed.

Lemma determine_accepted ts v warnings now : allAccepted v →
  determineConversionStatus ParseTime ts (vf_acceptance v) warnings false now = determineConversionStatus ParseTime ts ∅ warnings false now.
Proof. intros Hv. unfold determineConversionStatus. by rewrite !bool_decide_true by (done || apply map_Forall_empty). Qed.

(** The annotations of the Ingress after a pass with these warnings *)
Definition recordedAnnotations ingress (warnings http grpc : list string) (now : Z) : StrMap :=
  statusAnnotations FormatTime (entries (om_Annotations (ing_Meta ingress)))
    (determineConversionStatus ParseTime (annotation ingress AnnotationVerificationTimestamp) ∅ warnings false now) warnings http grpc now.

Lemma status_accepts c ingress v http grpc now : calm c → findObject Ingress c req = Some ingress → om_Deleting (ing_Meta ingress) = false →
  allAccepted v → vf_hasTimeout v = false →
  ∃ c' ingress', updateIngressStatusStaged FormatTime ParseTime ingress v http grpc now c =
      (Ret (sd_requeue (determineConversionStatus ParseTime (annotation ingress AnnotationVerificationTimestamp) ∅ (vf_warnings v) false now)), c') ∧
    calm c' ∧ findObject Ingress c' req = Some ingress' ∧ om_Deleting (ing_Meta ingress') = false ∧
    ing_Rules ingress' = ing_Rules ingress ∧ ing_ClassName ingress' = ing_ClassName ingress ∧
    entries (om_Annotations (ing_Meta ingress')) = recordedAnnotations ingress (vf_warnings v) http grpc now.
Proof.
  intros Hc Hf Hd Hv Ht. pose proof (findObject_key _ _ _ Hf) as Hk. unfold updateIngressStatusStaged. rewrite Hk.
  pose proof (Get_eval c (calm_faults _ Hc) (O:=Ingress) req) as Hg. rewrite Hf in Hg. rewrite (bind_eval _ _ _ _ _ Hg). cbv beta zeta.
  rewrite Ht, determine_accepted by done. fold (recordedAnnotations ingress (vf_warnings v) http grpc now).
  set (new := {| ingress with ing_Meta := _ |}).
  destruct (Update_stored c (calm_faults _ Hc) new ingress) as (c' & Hup & Hch & Hno & Hf').
  - by rewrite <- Hf, <- Hk.
  - by right.
  - intros Hdel. simpl in Hdel. congruence.
  - assert (objKey new = req) as Hn by (by rewrite <- Hk). rewrite Hn in *. exists c', (updated ingress new). split_and!; [|by eapply calm_ingress|done..|].
    + by rewrite (bind_eval _ _ _ _ _ Hup).
    + apply entries_wireMap.
Qed.

#[local] Abbreviation Reconcile := (Reconcile r url_Parse MarshalHTTP MarshalGRPC FormatTime ParseTime elapse req).

Lemma pass_accepts s ingress rule paths : calm (ck_cluster s) → findObject Ingress (ck_cluster s) req = Some ingress →
  om_Deleting (ing_Meta ingress) = false → cd_shouldConvert (shouldConvert r ingress) = true →
  rule ∈ ing_Rules ingress → ir_HTTP rule = Some paths → paths ≠ [] →
  ∃ s' ingress' warnings http grpc,
    Reconcile s = (Ret (sd_requeue (determineConversionStatus ParseTime (annotation ingress AnnotationVerificationTimestamp) ∅ warnings false (ck_now s'))), s') ∧
    (ck_now s <= ck_now s')%Z ∧ calm (ck_cluster s') ∧ findObject Ingress (ck_cluster s') req = Some ingress' ∧ om_Deleting (ing_Meta ingress') = false ∧
    ing_Rules ingress' = ing_Rules ingress ∧ ing_ClassName ingress' = ing_ClassName ingress ∧
    entries (om_Annotations (ing_Meta ingress')) = recordedAnnotations ingress warnings http grpc (ck_now s').
Proof.
  intros Hc Hf Hd Hs Hr Hh Hp. unfold IngressToGateway.Reconcile.
  pose proof (Get_eval _ (calm_faults _ Hc) (O:=Ingress) req) as Hg. rewrite Hf in Hg.
  rewrite (bind_eval _ _ _ _ _ (inCluster_read _ _ _ (try_eval _ _ _ _ Hg))). cbv beta iota. rewrite Hd. cbv zeta. rewrite Hs. cbn [negb].
  unfold reconcile. destruct (settles_fetchServices ingress _ Hc) as (services & c1 & H1 & Hq1 & _).
  rewrite (bind_eval _ _ _ _ _ (inCluster_eval _ _ _ _ H1)). cbv beta zeta.
  set (result := ConvertIngressWithServices _ _ _ _).
  assert (bool_decide (res_HTTPRoutes result = []) && bool_decide (res_GRPCRoutes result = []) = false) as ->.
  { apply andb_false_iff. destruct (convert_produces url_Parse MarshalHTTP MarshalGRPC (conversionInput r ingress services) rule paths) as [?|?]; [done..| |];
      [left|right]; by apply bool_decide_false. }
  destruct (settles_applyConversion ingress result c1 (quiet_calm _ _ Hq1)) as (policyWarnings & c2 & H2 & Hq2 & Hph & Hpg).
  rewrite (bind_eval _ _ _ _ _ (inCluster_eval _ {| s with ck_cluster := c1 |} _ _ H2)). cbv beta zeta.
  set (v0 := {| vf_acceptance := ∅ |}). set (s2 := {| ck_cluster := c2 |}).
  destruct (verify_accepts HTTPRoute "HTTPRoute" (waitForRouteAcceptance r elapse) (objKey <$> res_HTTPRoutes result) v0 s2)
    as (v3 & s3 & H3 & Hl3 & Hv3 & Hw3 & Ht3); [apply awaits_http|intros c c' key Hq; apply Hq|by apply Hq2| |apply map_Forall_empty|].
  { intros key (route & -> & Hr')%list_elem_of_fmap. by apply Hph. }
  rewrite (bind_eval _ _ _ _ _ H3). cbv beta.
  destruct (verify_accepts GRPCRoute "GRPCRoute" (waitForGRPCRouteAcceptance r elapse) (objKey <$> res_GRPCRoutes result) v3 s3)
    as (v4 & s4 & H4 & Hl4 & Hv4 & Hw4 & Ht4); [apply awaits_grpc|intros c c' key Hq; apply Hq|by apply Hl3| |done|].
  { intros key (route & -> & Hr')%list_elem_of_fmap. by apply Hl3, Hpg. }
  rewrite (bind_eval _ _ _ _ _ H4). rewrite (bind_eval _ _ _ (ck_now s4) s4) by done. cbv beta.
  pose proof (later_trans _ _ _ Hl3 Hl4) as [Hq4 Hn4].
  assert (findObject Ingress (ck_cluster s4) req = Some ingress) as Hf4.
  { rewrite <- Hf, (quiet_ingress _ _ Hq4). simpl. by rewrite (quiet_ingress _ _ Hq2), (quiet_ingress _ _ Hq1). }
  destruct (status_accepts (ck_cluster s4) ingress v4 (routeNames (res_HTTPRoutes result)) (routeNames (res_GRPCRoutes result)) (ck_now s4))
    as (c' & ingress' & Hst & Hrest); [by apply Hq4|done|done|done|by rewrite Ht4, Ht3|].
  rewrite (inCluster_eval _ _ _ _ (wrap_eval _ _ _ _ _ Hst)).
  eexists {| s4 with ck_cluster := c' |}, ingress', (vf_warnings v4), _, _. split; [done|]. split; [exact Hn4|]. exact Hrest.
Qed.

Lemma lookup_setOrDelete key value m k : setOrDelete key value m !! k = if decide (key = k) then value else m !! k.
Proof. unfold setOrDelete. destruct value, (decide (key = k)) as [->|]; by simplify_map_eq. Qed.

Section annotations.
Context (m : StrMap) (decision : statusDecision) (warnings http grpc : list string) (now : Z).
#[local] Abbreviation result := (statusAnnotations FormatTime m decision warnings http grpc now).

Lemma recorded_status : result !! AnnotationConversionStatus = Some (sd_status decision).
Proof. unfold statusAnnotations. rewrite !lookup_setOrDelete. simpl. by rewrite lookup_insert_eq. Qed.
Lemma recorded_warnings : result !! AnnotationConversionWarnings = joinNames warnings "; ".
Proof. unfold statusAnnotations. rewrite !lookup_setOrDelete. simpl. by rewrite lookup_insert_ne, lookup_setOrDelete. Qed.
Lemma recorded_timestamp : result !! AnnotationVerificationTimestamp =
  if sd_clearVerifyTime decision then None
  else if bool_decide (default "" (m !! AnnotationVerificationTimestamp) = "") then Some (FormatTime now) else m !! AnnotationVerificationTimestamp.
Proof.
  unfold statusAnnotations. rewrite !lookup_setOrDelete. simpl. rewrite lookup_insert_ne, lookup_setOrDelete by done. simpl.
  repeat case_match; by simplify_map_eq.
Qed.
Lemma recorded_other k : k ∉ [AnnotationConversionStatus; AnnotationConversionWarnings; AnnotationVerificationTimestamp; AnnotationConvertedHTTPRoute; AnnotationConvertedGRPCRoute] →
  result !! k = m !! k.
Proof.
  intros Hk. repeat (apply not_elem_of_cons in Hk as [? Hk]). unfold statusAnnotations.
  rewrite !lookup_setOrDelete, !decide_False by congruence. rewrite lookup_insert_ne, lookup_setOrDelete, decide_False by congruence.
  repeat case_match; by simplify_map_eq.
Qed.
End annotations.

(** An annotation of the stored Ingress *)
Definition recordedOn c key : option string := findObject Ingress c req ≫= λ ingress, entries (om_Annotations (ing_Meta ingress)) !! key.

Lemma still_convertible ingress ingress' warnings http grpc now : cd_shouldConvert (shouldConvert r ingress) = true →
  ing_ClassName ingress' = ing_ClassName ingress →
  entries (om_Annotations (ing_Meta ingress')) = recordedAnnotations ingress warnings http grpc now →
  recordedAnnotations ingress warnings http grpc now !! AnnotationConversionStatus = Some ConversionStatusPending →
  cd_shouldConvert (shouldConvert r ingress') = true.
Proof.
  intros Hs Hc Ha Hp. assert (∀ k, k ∈ [AnnotationSkipConversion; NginxCanary; AnnotationIngressClass] → annotation ingress' k = annotation ingress k) as Hk.
  { intros k Hk. unfold annotation, get. rewrite Ha. unfold recordedAnnotations. rewrite recorded_other; [done|].
    repeat (apply elem_of_cons in Hk as [->|Hk]; [apply (bool_decide_unpack _); by vm_compute|]). by apply elem_of_nil in Hk. }
  assert (isAlreadyConverted ingress' = false) as Hi by (unfold isAlreadyConverted, annotation, get; by rewrite Ha, Hp).
  revert Hs. unfold shouldConvert. rewrite !Hk, Hc, Hi by set_solver. repeat case_match; done.
Qed.

(** A settled Ingress is left alone. *)
Lemma settled_pass s ingress : calm (ck_cluster s) → findObject Ingress (ck_cluster s) req = Some ingress → isAlreadyConverted ingress = true →
  Reconcile s = (Ret false, s).
Proof.
  intros Hc Hf Hi. unfold IngressToGateway.Reconcile. pose proof (Get_eval _ (calm_faults _ Hc) (O:=Ingress) req) as Hg. rewrite Hf in Hg.
  rewrite (bind_eval _ _ _ _ _ (inCluster_read _ _ _ (try_eval _ _ _ _ Hg))). cbv beta iota zeta. destruct (om_Deleting _); [done|].
  assert (shouldConvert r ingress = noConversion) as -> by (unfold shouldConvert; rewrite Hi; by case_match). by destruct s.
Qed.

(** The first pass, and one that finds a timestamp five seconds old *)
Lemma first_decision warnings now :
  determineConversionStatus ParseTime "" ∅ warnings false now = {| sd_status := ConversionStatusPending; sd_requeue := true; sd_clearVerifyTime := false |}.
Proof. unfold determineConversionStatus. by rewrite bool_decide_true by apply map_Forall_empty. Qed.
Lemma second_decision ts t warnings now : ts ≠ "" → ParseTime ts = Some t → (verifyDelay <= now - t)%Z →
  determineConversionStatus ParseTime ts ∅ warnings false now =
    {| sd_status := if bool_decide (warnings = []) then ConversionStatusConverted else ConversionStatusPartial; sd_requeue := false; sd_clearVerifyTime := true |}.
Proof.
  intros Hts Hp Hd. unfold determineConversionStatus. rewrite bool_decide_true by apply map_Forall_empty. rewrite bool_decide_false by done. rewrite Hp. simpl.
  by rewrite (proj2 (Z.ltb_ge _ _)) by lia.
Qed.

(** C27: an Ingress that is to be converted and has a rule with a path, when the API calls
    go through and the Gateway accepts routes while the controller waits, is marked pending
    with the time of the first pass, and is looked at again; a pass at least five seconds
    later marks it converted, or partial when there are warnings, clears the time and does
    not ask for another pass; from then on passes change nothing. *)
Theorem conversion_converges s ingress rule paths :
  (∀ t, ParseTime (FormatTime t) = Some t) → (∀ t, FormatTime t ≠ "") →
  calm (ck_cluster s) → findObject Ingress (ck_cluster s) req = Some ingress → om_Deleting (ing_Meta ingress) = false →
  cd_shouldConvert (shouldConvert r ingress) = true → annotation ingress AnnotationVerificationTimestamp = "" →
  rule ∈ ing_Rules ingress → ir_HTTP rule = Some paths → paths ≠ [] →
  ∃ s1, Reconcile s = (Ret true, s1) ∧ recordedOn (ck_cluster s1) AnnotationConversionStatus = Some ConversionStatusPending ∧
    recordedOn (ck_cluster s1) AnnotationVerificationTimestamp = Some (FormatTime (ck_now s1)) ∧
    ∀ d, (verifyDelay <= d)%Z →
      ∃ s2, Reconcile {| ck_cluster := elapse d (ck_cluster s1); ck_now := ck_now s1 + d |} = (Ret false, s2) ∧
        recordedOn (ck_cluster s2) AnnotationConversionStatus =
          Some match recordedOn (ck_cluster s2) AnnotationConversionWarnings with None => ConversionStatusConverted | Some _ => ConversionStatusPartial end ∧
        recordedOn (ck_cluster s2) AnnotationVerificationTimestamp = None ∧
        Reconcile s2 = (Ret false, s2).
Proof.
  intros HPF HF Hc Hf Hd Hs Ht Hr Hh Hp.
  destruct (pass_accepts s ingress rule paths) as (s1 & ingress1 & w1 & h1 & g1 & Hr1 & _ & Hc1 & Hf1 & Hd1 & Hru1 & Hcl1 & Ha1); [done..|].
  rewrite Ht, first_decision in Hr1. unfold recordedAnnotations in Ha1. rewrite Ht, first_decision in Ha1.
  pose proof (f_equal (lookup AnnotationVerificationTimestamp) Ha1) as Hts. rewrite recorded_timestamp in Hts. simpl in Hts.
  fold (get (om_Annotations (ing_Meta ingress)) AnnotationVerificationTimestamp) in Hts.
  fold (annotation ingress AnnotationVerificationTimestamp) in Hts. rewrite Ht in Hts. simpl in Hts.
  exists s1. unfold recordedOn at 1 2. rewrite Hf1. simpl. split_and!; [done|by rewrite Ha1, recorded_status|done|]. intros d Hdelay.
  set (s1' := {| ck_cluster := elapse d (ck_cluster s1); ck_now := (ck_now s1 + d)%Z |}).
  pose proof (quiet_elapse d _ Hc1) as Hq.
  assert (cd_shouldConvert (shouldConvert r ingress1) = true) as Hs1.
  { eapply still_convertible; [done..| |]; unfold recordedAnnotations; rewrite Ht, first_decision; [done|]. by rewrite recorded_status. }
  destruct (pass_accepts s1' ingress1 rule paths) as (s2 & ingress2 & w2 & h2 & g2 & Hr2 & Hn2 & Hc2 & Hf2 & _ & _ & _ & Ha2);
    [by apply Hq|by rewrite <- Hf1; apply Hq|done|done|by rewrite Hru1|done|done|].
  assert (annotation ingress1 AnnotationVerificationTimestamp = FormatTime (ck_now s1)) as Ht1 by (unfold annotation, get; by rewrite Hts).
  simpl in Hn2. rewrite Ht1, (second_decision _ (ck_now s1)) in Hr2 by (try apply HF; try apply HPF; lia). simpl in Hr2.
  unfold recordedAnnotations in Ha2. rewrite Ht1, (second_decision _ (ck_now s1)) in Ha2 by (try apply HF; try apply HPF; lia).
  exists s2. unfold recordedOn. rewrite Hf2. simpl. rewrite Ha2, recorded_status, recorded_warnings, recorded_timestamp. unfold joinNames.
  split_and!; [done|by case_bool_decide|done|]. eapply settled_pass; [done..|]. unfold isAlreadyConverted, annotation, get. rewrite Ha2, recorded_status. simpl.
  by case_bool_decide.
Qed.
End pass.

(** ** A concrete conversion *)

(** Binary digits stand for RFC 3339. *)
Fixpoint writeBits (p : positive) : string :=
  match p with xH => "." | xO p => String "0"%char (writeBits p) | xI p => String "1"%char (writeBits p) end.
Fixpoint readBits (s : string) : option positive :=
  match s with
  | String "0"%char s => xO <$> readBits s
  | String "1"%char s => xI <$> readBits s
  | String _ EmptyString => Some xH
  | _ => None
  end.
Definition sampleFormat (t : Z) : string :=
  match t with Z0 => "Z" | Zpos p => String "+"%char (writeBits p) | Zneg p => String "-"%char (writeBits p) end.
Definition sampleParse (s : string) : option Z :=
  match s with
  | String "Z"%char _ => Some 0%Z
  | String "+"%char s => Zpos <$> readBits s
  | String "-"%char s => Zneg <$> readBits s
  | _ => None
  end.
Lemma readBits_writeBits p : readBits (writeBits p) = Some p.
Proof. by induction p as [p IH|p IH|]; simpl; rewrite ?IH. Qed.
Lemma sampleParse_format t : sampleParse (sampleFormat t) = Some t.
Proof. destruct t; simpl; [done|by rewrite readBits_writeBits..]. Qed.

(** A Gateway that accepts every route *)
Definition acceptedStatus (gatewayName : string) : list RouteParentStatus :=
  [{| rps_Name := gatewayName; rps_Conditions := [{| cond_Type := "Accepted"; cond_Status := "True"; cond_Reason := "Accepted"; cond_Message := "" |}] |}].
Definition acceptRoute (gatewayName : string) (k : ObjectKey) (x : Object) : Object :=
  match x with
  | OHTTPRoute o => if bool_decide (k.1 = "HTTPRoute") then OHTTPRoute {| o with gr_Status := acceptedStatus gatewayName |} else x
  | OGRPCRoute o => if bool_decide (k.1 = "GRPCRoute") then OGRPCRoute {| o with gr_Status := acceptedStatus gatewayName |} else x
  | _ => x
  end.
Definition acceptRoutes (gatewayName : string) (_ : Z) (c : Cluster) : Cluster :=
  {| c with cl_objects := map_imap (λ k x, Some (acceptRoute gatewayName k x)) (cl_objects c) |}.

Lemma acceptedStatus_accepted gatewayName : acceptanceOf gatewayName (acceptedStatus gatewayName) = Some {| ra_accepted := true; ra_reason := "" |}.
Proof. unfold acceptanceOf. simpl. by rewrite bool_decide_true. Qed.
Lemma lookup_acceptRoutes gatewayName d c k : cl_objects (acceptRoutes gatewayName d c) !! k = acceptRoute gatewayName k <$> (cl_objects c !! k).
Proof. simpl. rewrite map_lookup_imap. by destruct (cl_objects c !! k). Qed.
Lemma acceptRoute_same gatewayName k x : keyOf (acceptRoute gatewayName k x) = keyOf x ∧ metaOf (acceptRoute gatewayName k x) = metaOf x.
Proof. destruct x; simpl; try done; by case_bool_decide. Qed.

Lemma accepting_acceptRoutes gatewayName : accepting gatewayName (acceptRoutes gatewayName).
Proof.
  split.
  - intros d c k Hh Hg. rewrite lookup_acceptRoutes. destruct (cl_objects c !! k) as [x|]; [|done]. destruct x; simpl; try done; by rewrite bool_decide_false.
  - done.
  - intros d c Hw k x. rewrite lookup_acceptRoutes. intros (y & Hy & ->)%fmap_Some. destruct (acceptRoute_same gatewayName k y) as [Hk Hm].
    unfold object_ok. rewrite Hk, Hm. by apply Hw.
  - intros d c key [o Ho]. apply findObject_Some in Ho as [Hl Hk]. eexists. apply findObject_Some. rewrite lookup_acceptRoutes, Hl. by split.
  - intros d c key route Hr. apply findObject_Some in Hr as [Hl _]. rewrite lookup_acceptRoutes in Hl. apply fmap_Some in Hl as (y & _ & Hy).
    destruct y; simplify_eq/=; try (case_bool_decide; simplify_eq/=). apply acceptedStatus_accepted.
  - intros d c key [o Ho]. apply findObject_Some in Ho as [Hl Hk]. eexists. apply findObject_Some. rewrite lookup_acceptRoutes, Hl. by split.
  - intros d c key route Hr. apply findObject_Some in Hr as [Hl _]. rewrite lookup_acceptRoutes in Hl. apply fmap_Some in Hl as (y & _ & Hy).
    destruct y; simplify_eq/=; try (case_bool_decide; simplify_eq/=). apply acceptedStatus_accepted.
Qed.

Definition sampleReconciler : Options :=
  {| opt_StandaloneMode := false; opt_Enabled := true; opt_GatewayName := "kubelb"; opt_GatewayNamespace := "kubelb"; opt_GatewayClassName := "kubelb";
     opt_IngressClass := ""; opt_DomainReplace := ""; opt_DomainSuffix := ""; opt_PropagateExternalDNS := true; opt_GatewayAnnotations := None;
     opt_DisableEnvoyGatewayFeatures := false; opt_CopyTLSSecrets := true |}.

Definition convertedIngress (annotations : StrMap) : Ingress :=
  {| ing_Meta := objectMeta "web" "apps" "uid-3" None (if bool_decide (annotations = ∅) then None else Some annotations); ing_ClassName := None;
     ing_DefaultBackend := None; ing_Rules := [sampleRule]; ing_TLS := [{| it_Hosts := ["app.example.com"]; it_SecretName := "cert" |}]; ing_Ingress := [] |}.
Definition sampleConversion (annotations : StrMap) : Clocked := {| ck_cluster := sampleCluster [OIngress (convertedIngress annotations)]; ck_now := 1000 |}.
#[local] Abbreviation pass := (Reconcile sampleReconciler noURL sampleMarshal sampleMarshal sampleFormat sampleParse (acceptRoutes "kubelb") ("apps", "web")).

Lemma calm_sample annotations : calm sampleReconciler (ck_cluster (sampleConversion annotations)).
Proof.
  assert (∀ (T : Type) `{!Resource T} key, resKind T ≠ "Ingress" → findObject T (ck_cluster (sampleConversion annotations)) key = None) as Hf.
  { intros T HT key Hk. unfold findObject. simpl. rewrite lookup_insert_ne; [by rewrite lookup_empty|]. intros [= Heq _]. by apply Hk. }
  split; [done| |intros key route res; by rewrite Hf|intros key route res; by rewrite Hf].
  intros k x. simpl. intros [[<- <-]|[_ Hx]]%lookup_insert_Some; [|by rewrite lookup_empty in Hx]. split; [done|]. split; [done|].
  unfold convertedIngress, onWire, objectMeta. simpl. by case_bool_decide; simpl; rewrite ?bool_decide_false.
Qed.

Lemma conversion_converges_witness : ∃ s1, pass (sampleConversion ∅) = (Ret true, s1) ∧
  recordedOn ("apps", "web") (ck_cluster s1) AnnotationConversionStatus = Some "pending" ∧
  ∃ s2, pass {| ck_cluster := acceptRoutes "kubelb" 5 (ck_cluster s1); ck_now := ck_now s1 + 5 |} = (Ret false, s2) ∧ pass s2 = (Ret false, s2).
Proof.
  destruct (conversion_converges sampleReconciler noURL sampleMarshal sampleMarshal sampleFormat sampleParse (acceptRoutes "kubelb") ("apps", "web")
    (accepting_acceptRoutes "kubelb") (sampleConversion ∅) (convertedIngress ∅) sampleRule [samplePath "/a" PathTypePrefix; samplePath "/b" PathTypeExact])
    as (s1 & H1 & Hp & _ & H2).
  - apply sampleParse_format.
  - by intros [].
  - apply calm_sample.
  - vm_compute. reflexivity.
  - reflexivity.
  - vm_compute. reflexivity.
  - vm_compute. reflexivity.
  - left.
  - reflexivity.
  - discriminate.
  - exists s1. split; [exact H1|]. split; [exact Hp|]. destruct (H2 5%Z) as (s2 & Hr & _ & _ & Hs); [unfold verifyDelay; lia|].
    exists s2. split; [exact Hr|exact Hs].
Defined.

Lemma conversion_isolated_witness : ticks (owned sampleReconciler ("apps", "web")) (sampleConversion ∅)
  (Reconcile sampleReconciler noURL sampleMarshal sampleMarshal sampleFormat sampleParse (λ _ c, c) ("apps", "web") (sampleConversion ∅)).2.
Proof. by apply conversion_isolated. Defined.

Lemma conversion_filter_complete_witness :
  let done := sampleConversion {[ AnnotationConversionStatus := "converted" ]} in pass done = (Ret false, done).
Proof.
  cbv zeta. apply (conversion_filter_complete _ _ _ _ _ _ _ _ _ (CreateEvent (OIngress (convertedIngress {[ AnnotationConversionStatus := "converted" ]})))).
  - reflexivity.
  - split; [vm_compute; reflexivity|]. split; [reflexivity|vm_compute; reflexivity].
Defined.

(** Two passes: the routes are accepted after one sleep, and the Ingress is converted. *)
Example conversion_run :
  let s1 := (pass (sampleConversion ∅)).2 in
  let s2 := (pass {| ck_cluster := acceptRoutes "kubelb" 5 (ck_cluster s1); ck_now := ck_now s1 + 5 |}).2 in
  (recordedOn ("apps", "web") (ck_cluster s1) AnnotationConversionStatus, ck_now s1) = (Some "pending", 1002%Z) ∧
  recordedOn ("apps", "web") (ck_cluster s2) AnnotationConversionStatus = Some "converted" ∧
  recordedOn ("apps", "web") (ck_cluster s2) AnnotationConvertedHTTPRoute = Some "apps/web".
Proof. vm_compute. split_and!; reflexivity. Qed.

(** The routes of a deleted Ingress stay. *)
Example routes_outlive_ingress :
  let s1 := (pass (sampleConversion ∅)).2 in
  let gone := {| s1 with ck_cluster := {| (ck_cluster s1) with cl_objects := delete (storeKey Ingress ("apps", "web")) (cl_objects (ck_cluster s1)) |} |} in
  resourceFilter sampleReconciler (DeleteEvent (OIngress (convertedIngress ∅))) = true ∧
  om_Labels ∘ gr_Meta <$> findObject HTTPRoute (ck_cluster (pass gone).2) ("apps", "web") = Some (Some {[ LabelSourceIngress := "web.apps" ]}).
Proof. vm_compute. split; reflexivity. Qed.

(** Secrets of two namespaces are copied to one name. *)
Example synced_names_collide :
  let tls namespace name := {| tl_Hostname := "a.io"; tl_SecretName := name; tl_SourceSecretNamespace := namespace; tl_SourceSecretName := name |} in
  syncedNameOf (tls "team-a" "web") = syncedNameOf (tls "team" "a-web") ∧ sourceKeyOf (tls "team-a" "web") ≠ sourceKeyOf (tls "team" "a-web").
Proof. vm_compute. split; [reflexivity|discriminate]. Qed.

(** The second listener of a secret that does not exist points to a copy that was not made. *)
Example missing_secret_renamed :
  (syncTLSSecrets sampleReconciler [sampleTLS "a.io" "cert"; sampleTLS "b.io" "cert"] (sampleCluster [])).1 =
  Ret [sampleTLS "a.io" "cert"; {| (sampleTLS "b.io" "cert") with tl_SecretName := "ingress-apps-cert" |}].
Proof. vm_compute. reflexivity. Qed.
