(* ===== verification/CLIIngress.v ===== *)
(** * Converting Ingresses from the command line

    [cli/internal/ingress]: [kubelb ingress convert], [preview], [get] and [list]. The
    command converts the Ingresses that are named, or all of them: it applies one Gateway
    with the listeners of all, the routes and policies of each, waits for a Gateway to
    accept the routes, and records the outcome in annotations of the Ingress. With
    [--dry-run] or [--output-dir] it writes the same objects as YAML instead.

    Messages on the terminal are left out, the YAML documents are kept. The context is not
    cancelled while the command waits. YAML, the file system's refusals and the order in
    which Go ranges over a set of names are parameters. *)

From Stdlib Require Import Ascii.
From S2P Require Import Prelude GoStrings Api GatewayApi Kube Finalizers ConvAnnotations ConvPolicies Converter ConvGateway Manager IngressToGateway.
Local Open Scope go_scope.

Definition managedByValue : string := "kubelb-cli".
Definition routeAcceptanceTimeout : Z := 30.
Definition routeAcceptancePollInterval : Z := 2.

Record ConvertOptions := {
  co_OutputDir : string;
  co_DryRun : bool;
  co_Names : list string;
  co_Namespace : string;
  co_SkipAcceptancePolling : bool;
}.

Record ConvertResult := {
  cr_Converted : list string;
  cr_Skipped : list string;
  cr_Failed : gmap string Error;
  cr_GatewayCreated : bool;
}.
Definition emptyResult : ConvertResult := {| cr_Converted := []; cr_Skipped := []; cr_Failed := ∅; cr_GatewayCreated := false |}.
Definition fail (key : string) (err : Error) (result : ConvertResult) : ConvertResult :=
  {| result with cr_Failed := <[key := err]> (cr_Failed result) |}.
Definition skip (key : string) (result : ConvertResult) : ConvertResult := {| result with cr_Skipped := cr_Skipped result ++ [key] |}.

(** The key of a result: [ns/name] *)
Definition slashed (ref : NamespacedName) : string := ref.1 ⊕ "/" ⊕ ref.2.

(** ** Policies *)

Record policyConversionResult := {
  pc_securityPolicy : option SecurityPolicy;
  pc_backendTrafficPolicy : option BackendTrafficPolicy;
}.

(** The builders [secBuilder] and [btpBuilder] after the annotations were looked at *)
Definition secBuilder (ing : Ingress) (base : PolicyBuilder) : SecurityPolicyBuilder :=
  let a := annotation ing in
  let b := NewSecurityPolicyBuilder base in
  let b :=
    if bool_decide (a EnableCORS = "true") then
      SetCORS b (ParseStringList (a CORSAllowOrigin)) (ParseStringList (a CORSAllowMethods)) (ParseStringList (a CORSAllowHeaders))
        (ParseStringList (a CORSExposeHeaders)) (ParseInt64 (a CORSMaxAge)) (ParseBool (a CORSAllowCredentials))
    else b in
  let b := if bool_decide (a WhitelistSourceRange = "") then b else SetIPAllowlist b (ParseCIDRList (a WhitelistSourceRange)) in
  let b := if bool_decide (a DenylistSourceRange = "") then b else SetIPDenylist b (ParseCIDRList (a DenylistSourceRange)) in
  if bool_decide (a AuthSecret = "") then b else SetBasicAuth b (a AuthSecret) (om_Namespace (ing_Meta ing)).

Definition btpBuilder (ing : Ingress) (base : PolicyBuilder) : BackendTrafficPolicyBuilder :=
  let a := annotation ing in
  let b := NewBackendTrafficPolicyBuilder base in
  let b := if bool_decide (a ProxyConnectTimeout = "") then b else SetConnectTimeout b (a ProxyConnectTimeout) in
  let b := if bool_decide (a ProxyReadTimeout = "") then b else SetRequestTimeout b (a ProxyReadTimeout) in
  let rps := ParseInt (a LimitRPS) in
  let rpm := ParseInt (a LimitRPM) in
  let b := if (0 <? rps)%Z then SetRateLimitRPS b rps else if (0 <? rpm)%Z then SetRateLimitRPM b rpm else b in
  let maxConns := ParseInt (a LimitConnections) in
  if (0 <? maxConns)%Z then SetMaxConnections b maxConns else b.

Definition buildPoliciesFromAnnotations (ing : Ingress) (routeName : string) : option policyConversionResult :=
  match om_Annotations (ing_Meta ing) with
  | None => None
  | Some _ =>
      let base := NewPolicyBuilder (om_Name (ing_Meta ing)) (om_Namespace (ing_Meta ing)) routeName in
      let security := if SecurityIsEmpty (secBuilder ing base) then None else SecurityBuild (secBuilder ing base) in
      let backend := if BackendIsEmpty (btpBuilder ing base) then None else BackendBuild (btpBuilder ing base) in
      match security, backend with
      | None, None => None
      | _, _ => Some {| pc_securityPolicy := security; pc_backendTrafficPolicy := backend |}
      end
  end.

(** ** Writing objects *)

(** [Get], then [Create], or [Update] of what [merge] makes of the stored object *)
Definition applyObject {O : Type} `{!Resource O} (merge : O -> O -> O) (object : O) : M Cluster unit :=
  r ← try (Get O (objKey object));
  match r with
  | inr err => if IsNotFound err then _ ← Create object; mret tt else raise err
  | inl existing => _ ← Update (merge existing object); mret tt
  end.

Definition keepAnnotations {Rule} (existing route : GatewayRoute Rule) : GatewayRoute Rule :=
  {| existing with
       gr_ParentRefs := gr_ParentRefs route; gr_Hostnames := gr_Hostnames route; gr_Rules := gr_Rules route;
       gr_Meta := {| (gr_Meta existing) with om_Labels := om_Labels (gr_Meta route) |} |}.

Definition applyHTTPRoute (route : HTTPRoute) : M Cluster unit := applyObject keepAnnotations route.
Definition applyGRPCRoute (route : GRPCRoute) : M Cluster unit := applyObject keepAnnotations route.
Definition applyPolicy {O : Type} `{!Resource O} (policy : O) : M Cluster unit := applyObject (λ _ policy, policy) policy.

Definition ensureManagedByLabel (labels : GoMap) (managedBy : string) : GoMap := Some (<[LabelManagedBy := managedBy]> (entries labels)).
Definition managed {Rule} (route : GatewayRoute Rule) : GatewayRoute Rule :=
  {| route with gr_Meta := {| (gr_Meta route) with om_Labels := ensureManagedByLabel (om_Labels (gr_Meta route)) managedByValue |} |}.

Definition parseIngressName (name defaultNS : string) : NamespacedName :=
  match Cut name "/"%char with Some (ns, n) => (ns, n) | None => (defaultNS, name) end.

(** ** The conversion *)

Record ingressConversion := {
  ic_ingress : Ingress;
  ic_convResult : Converter.Result;
  ic_policyResult : option policyConversionResult;
}.

Record previewOutput := {
  po_Gateway : option Gateway;
  po_HTTPRoutes : list HTTPRoute;
  po_GRPCRoutes : list GRPCRoute;
  po_Policies : list Object;
  po_Warnings : list string;
  po_Converted : list string;
}.
Definition emptyPreview : previewOutput :=
  {| po_Gateway := None; po_HTTPRoutes := []; po_GRPCRoutes := []; po_Policies := []; po_Warnings := []; po_Converted := [] |}.

(** What the terminal and the disk got of a command *)
Record Console := { cn_clocked : Clocked; cn_files : gmap string string; cn_documents : list string }.
Definition consoleClock : Lens Console Clocked := {| view := cn_clocked; over t s := {| s with cn_clocked := t |} |}.
#[export] Instance consoleClock_laws : LensLaws consoleClock.
Proof. split; intros; simpl; try done; by destruct s. Qed.
Definition onClock {A} (m : M Clocked A) : M Console A := zoom consoleClock m.
Definition onCluster {A} (m : M Cluster A) : M Console A := onClock (inCluster m).

Definition isRouteAccepted (parents : list RouteParentStatus) : bool :=
  existsb (λ parent, existsb (λ cond, bool_decide (cond_Type cond = "Accepted") && bool_decide (cond_Status cond = "True")) (rps_Conditions parent)) parents.

Section command.
Context (opts : Options).
Context (url_Parse : string -> result URL) (MarshalHTTP : list HTTPRouteRule -> option (list N)) (MarshalGRPC : list GRPCRouteRule -> option (list N)).
(** What others do to the cluster in so many seconds; the order of a set of names;
    [yaml.Marshal]; the file system's answer to a directory or file *)
Context (elapse : Z -> Cluster -> Cluster) (rangeNames : gset string -> list string).
Context (Marshal : Object -> result string) (refuses : string -> option string).

(** [conversion.FetchServicesForIngress] never returns an error. *)
Definition fetchServices (ing : Ingress) : M Cluster (gmap (string * string) Service) :=
  foldM fetchService ∅ ((λ name, (om_Namespace (ing_Meta ing), name)) <$> rangeNames (serviceNames ing)).

Definition convertOne (ing : Ingress) (services : gmap (string * string) Service) : Converter.Result :=
  ConvertIngressWithServices url_Parse MarshalHTTP MarshalGRPC (conversionInput opts ing services).

Definition policiesOf (ing : Ingress) (convResult : Converter.Result) : option policyConversionResult :=
  match res_HTTPRoutes convResult with
  | route :: _ => if opt_DisableEnvoyGatewayFeatures opts then None else buildPoliciesFromAnnotations ing (om_Name (gr_Meta route))
  | [] => None
  end.

Definition classFiltered (ing : Ingress) : bool :=
  bool_decide (opt_IngressClass opts ≠ "") && negb (MatchesIngressClass ing (opt_IngressClass opts)).

(** One turn of the loop *)
Definition convertIngress (acc : list ingressConversion * list TLSListener * ConvertResult) (ref : NamespacedName)
  : M Cluster (list ingressConversion * list TLSListener * ConvertResult) :=
  let '(conversions, allTLSListeners, result) := acc in
  let key := slashed ref in
  r ← try (Get Ingress ref);
  match r with
  | inr err => mret (conversions, allTLSListeners, fail key (if IsNotFound err then Errorf "ingress not found" else err) result)
  | inl ing =>
      if ShouldSkip ing || classFiltered ing then mret (conversions, allTLSListeners, skip key result)
      else
        services ← fetchServices ing;
        let convResult := convertOne ing services in
        mret (conversions ++ [{| ic_ingress := ing; ic_convResult := convResult; ic_policyResult := policiesOf ing convResult |}],
              allTLSListeners ++ res_TLSListeners convResult, result)
  end.
Definition convertIngresses (ingressRefs : list NamespacedName) (result : ConvertResult)
  : M Cluster (list ingressConversion * list TLSListener * ConvertResult) := foldM convertIngress ([], [], result) ingressRefs.

(** *** The Gateway and the secrets *)

Definition gatewayConfig (tlsListeners : list TLSListener) : GatewayConfig :=
  {| gc_Name := opt_GatewayName opts; gc_Namespace := opt_GatewayNamespace opts; gc_ClassName := opt_GatewayClassName opts;
     gc_TLSListeners := tlsListeners; gc_Annotations := opt_GatewayAnnotations opts; gc_ManagedBy := managedByValue |}.

Definition gatewayKey : NamespacedName := (opt_GatewayNamespace opts, opt_GatewayName opts).

(** The wording of the errors is abridged; [kerrors.IsForbidden] only picks it. *)
Definition applyGateway (tlsListeners : list TLSListener) : M Cluster (Gateway * bool) :=
  ns ← try (Get Namespace ("", opt_GatewayNamespace opts));
  match ns with
  | inr err => if IsNotFound err then raise (Errorf "gateway namespace does not exist") else raise (Wrap "failed to check gateway namespace" err)
  | inl _ =>
      let desired := BuildGateway (gatewayConfig tlsListeners) in
      r ← try (Get Gateway gatewayKey);
      match r with
      | inr err =>
          if IsNotFound err then created ← wrap "failed to create Gateway" (Create desired); mret (created, true)
          else raise (Wrap "failed to get Gateway" err)
      | inl existing =>
          updated ← wrap "failed to update Gateway" (Update {| existing with
            gw_Listeners := MergeListeners (gw_Listeners existing) (gw_Listeners desired);
            gw_Meta := {| (gw_Meta existing) with
              om_Annotations := Some (entries (om_Annotations (gw_Meta desired)) ∪ entries (om_Annotations (gw_Meta existing))) |} |});
          mret (updated, false)
      end
  end.

Definition copyTLSSecrets (listeners : list TLSListener) (gatewayNS : string) : M Cluster unit :=
  forM_ listeners (λ tls,
    when (bool_decide (tl_SourceSecretNamespace tls ≠ gatewayNS) && bool_decide (tl_SourceSecretName tls ≠ ""))
      (_ ← try (CopyTLSSecretWithManagedBy (tl_SourceSecretNamespace tls) (tl_SourceSecretName tls) gatewayNS managedByValue); mret tt)).

Definition applyGatewayAndSecrets (allTLSListeners : list TLSListener) (result : ConvertResult) : M Cluster ConvertResult :=
  '(_, created) ← wrap "failed to apply Gateway" (applyGateway allTLSListeners);
  _ ← when (opt_CopyTLSSecrets opts) (copyTLSSecrets allTLSListeners (opt_GatewayNamespace opts));
  mret {| result with cr_GatewayCreated := created |}.

(** *** Routes and policies *)

(** A failure is recorded under the key of the Ingress, and the next route is tried. *)
Definition applyRoute {O : Type} `{!Resource O} (what : string) (apply : O -> M Cluster unit) (key : string) (result : ConvertResult) (route : O)
  : M Cluster ConvertResult :=
  r ← try (apply route);
  mret match r with inl _ => result | inr err => fail key (Wrap ("failed to apply " ⊕ what ⊕ " " ⊕ om_Name (objMeta route)) err) result end.

Definition applyRoutes (conv : ingressConversion) (key : string) (result : ConvertResult) : M Cluster ConvertResult :=
  result ← foldM (applyRoute "HTTPRoute" applyHTTPRoute key) result (managed <$> res_HTTPRoutes (ic_convResult conv));
  foldM (applyRoute "GRPCRoute" applyGRPCRoute key) result (managed <$> res_GRPCRoutes (ic_convResult conv)).

Definition applyPolicies (policyResult : option policyConversionResult) : M Cluster unit :=
  match policyResult with
  | None => mret tt
  | Some policyResult =>
      _ ← match pc_securityPolicy policyResult with Some policy => _ ← try (applyPolicy policy); mret tt | None => mret tt end;
      match pc_backendTrafficPolicy policyResult with Some policy => _ ← try (applyPolicy policy); mret tt | None => mret tt end
  end.

(** *** Waiting *)

Definition checkRoute {O : Type} `{!Resource O} (statusOf : O -> list RouteParentStatus) (allAccepted : bool) (key : NamespacedName) : M Cluster bool :=
  r ← try (Get O key);
  mret match r with inl current => allAccepted && isRouteAccepted (statusOf current) | inr _ => false end.

Definition checkRoutes (convResult : Converter.Result) : M Cluster bool :=
  allAccepted ← foldM (checkRoute (O:=HTTPRoute) gr_Status) true (objKey <$> res_HTTPRoutes convResult);
  foldM (checkRoute (O:=GRPCRoute) gr_Status) allAccepted (objKey <$> res_GRPCRoutes convResult).

(** One turn per tick; the sixteenth comes after the deadline. *)
Fixpoint pollRoutes (convResult : Converter.Result) (deadline : Z) (fuel : nat) : M Clocked bool :=
  match fuel with
  | O => diverge
  | S fuel =>
      _ ← sleep elapse routeAcceptancePollInterval;
      now ← gets ck_now;
      if (deadline <? now)%Z then mret false
      else
        allAccepted ← inCluster (checkRoutes convResult);
        if allAccepted : bool then mret true else pollRoutes convResult deadline fuel
  end.

Definition pollRouteAcceptance (convResult : Converter.Result) : M Clocked bool :=
  if bool_decide (res_HTTPRoutes convResult = []) && bool_decide (res_GRPCRoutes convResult = []) then mret true
  else now ← gets ck_now; pollRoutes convResult (now + routeAcceptanceTimeout) pollFuel.

(** *** The status of the Ingress *)

Definition names {Rule} (routes : list (GatewayRoute Rule)) : list string := (λ route, om_Name (gr_Meta route)) <$> routes.
Definition setJoined (key sep : string) (values : list string) (annotations : StrMap) : StrMap :=
  if bool_decide (values = []) then annotations else <[key := Join values sep]> annotations.

Definition convertedAnnotations (convResult : Converter.Result) (accepted : bool) (annotations : StrMap) : StrMap :=
  let status :=
    if negb accepted then ConversionStatusPending
    else if bool_decide (res_Warnings convResult = []) then ConversionStatusConverted else ConversionStatusPartial in
  let annotations := <[AnnotationConversionStatus := status]> annotations in
  let annotations := setJoined AnnotationConvertedHTTPRoute "," (names (res_HTTPRoutes convResult)) annotations in
  let annotations := setJoined AnnotationConvertedGRPCRoute "," (names (res_GRPCRoutes convResult)) annotations in
  setJoined AnnotationConversionWarnings ";" (res_Warnings convResult) annotations.

(** [updateIngressStatus] writes the Ingress as it was read at the start. *)
Definition withStatus (ing : Ingress) (convResult : Converter.Result) (accepted : bool) : Ingress :=
  {| ing with ing_Meta := {| (ing_Meta ing) with
       om_Annotations := Some (convertedAnnotations convResult accepted (entries (om_Annotations (ing_Meta ing)))) |} |}.
Definition updateIngressStatus (ing : Ingress) (convResult : Converter.Result) (accepted : bool) : M Cluster unit :=
  _ ← Update (withStatus ing convResult accepted); mret tt.

Definition applyConversionOf (skipPolling : bool) (result : ConvertResult) (conv : ingressConversion) : M Clocked ConvertResult :=
  let key := slashed (objKey (ic_ingress conv)) in
  result ← inCluster (applyRoutes conv key result);
  _ ← inCluster (applyPolicies (ic_policyResult conv));
  accepted ← if skipPolling then mret true else pollRouteAcceptance (ic_convResult conv);
  _ ← inCluster (try (updateIngressStatus (ic_ingress conv) (ic_convResult conv) accepted));
  mret (if bool_decide (is_Some (cr_Failed result !! key)) then result else {| result with cr_Converted := cr_Converted result ++ [key] |}).
Definition applyRoutesAndPolicies (conversions : list ingressConversion) (skipPolling : bool) (result : ConvertResult) : M Clocked ConvertResult :=
  foldM (applyConversionOf skipPolling) result conversions.

(** An error of the Gateway is returned with the result so far. *)
Definition applyConversions (ingressRefs : list NamespacedName) (skipPolling : bool) : M Clocked (ConvertResult * option Error) :=
  '(conversions, allTLSListeners, result) ← inCluster (convertIngresses ingressRefs emptyResult);
  applied ← if bool_decide (conversions = []) then mret (inl result) else inCluster (try (applyGatewayAndSecrets allTLSListeners result));
  match applied with
  | inr err => mret (result, Some err)
  | inl result => result ← applyRoutesAndPolicies conversions skipPolling result; mret (result, None)
  end.

(** ** Preview *)

Definition policyObjects (policyResult : option policyConversionResult) : list Object :=
  match policyResult with
  | None => []
  | Some policyResult => option_list (inject <$> pc_securityPolicy policyResult) ++ option_list (inject <$> pc_backendTrafficPolicy policyResult)
  end.

(** Errors of [Get] become warnings. *)
Definition previewIngress (acc : previewOutput * list TLSListener) (ref : NamespacedName) : M Cluster (previewOutput * list TLSListener) :=
  let '(output, allTLSListeners) := acc in
  let warn w := {| output with po_Warnings := po_Warnings output ++ [w] |} in
  r ← try (Get Ingress ref);
  match r with
  | inr err => mret (warn ("failed to get ingress " ⊕ slashed ref ⊕ ": " ⊕ ErrorString err), allTLSListeners)
  | inl ing =>
      if ShouldSkip ing then mret (warn ("skipping " ⊕ slashed ref ⊕ " (marked for skip)"), allTLSListeners)
      else if classFiltered ing then mret (output, allTLSListeners)
      else
        services ← fetchServices ing;
        let convResult := convertOne ing services in
        mret ({| po_Gateway := po_Gateway output;
                 po_Converted := po_Converted output ++ [slashed ref];
                 po_HTTPRoutes := po_HTTPRoutes output ++ res_HTTPRoutes convResult;
                 po_GRPCRoutes := po_GRPCRoutes output ++ res_GRPCRoutes convResult;
                 po_Warnings := po_Warnings output ++ res_Warnings convResult;
                 po_Policies := po_Policies output ++ policyObjects (policiesOf ing convResult) |},
              allTLSListeners ++ res_TLSListeners convResult)
  end.

Definition generatePreview (ingresses : list NamespacedName) : M Cluster previewOutput :=
  '(output, allTLSListeners) ← foldM previewIngress (emptyPreview, []) ingresses;
  mret (if bool_decide (allTLSListeners = []) && bool_decide (po_HTTPRoutes output = []) && bool_decide (po_GRPCRoutes output = []) then output
        else {| output with po_Gateway := Some (BuildGateway (gatewayConfig allTLSListeners)) |}).

(** The documents of a preview in their order, with the word the errors use and the ending
    of the file name *)
Definition documents (output : previewOutput) : list (string * string * Object) :=
  ((λ gw, ("Gateway", "gateway", inject gw)) <$> option_list (po_Gateway output)) ++
  ((λ route, ("HTTPRoute", "httproute", inject route)) <$> po_HTTPRoutes output) ++
  ((λ route, ("GRPCRoute", "grpcroute", inject route)) <$> po_GRPCRoutes output) ++
  ((λ policy, ("policy", "policy", policy)) <$> po_Policies output).

Definition marshalled (document : string * string * Object) : result string :=
  match Marshal document.2 with Ok data => Ok data | Err msg => Err ("failed to marshal " ⊕ document.1.1 ⊕ ": " ⊕ msg) end.

(** *** On the terminal *)

Definition printDocument (document : string * string * Object) : M Console unit :=
  match marshalled document with
  | Err msg => raise (Errorf msg)
  | Ok data => modify (λ s, {| s with cn_documents := cn_documents s ++ [data] |})
  end.

Definition previewed (output : previewOutput) : ConvertResult :=
  {| cr_Converted := po_Converted output; cr_Skipped := []; cr_Failed := ∅; cr_GatewayCreated := negb (bool_decide (po_Gateway output = None)) |}.

Definition printConversionsDryRun (ingresses : list NamespacedName) : M Console ConvertResult :=
  previewResult ← onCluster (generatePreview ingresses);
  _ ← forM_ (documents previewResult) printDocument;
  mret (previewed previewResult).

(** *** In files; the directory is as [filepath.Clean] leaves it. *)

Definition joinPath (dir name : string) : string := if bool_decide (name = "") then dir else dir ⊕ "/" ⊕ name.
Definition fileOf (outputDir : string) (document : string * string * Object) : string :=
  joinPath (joinPath outputDir (om_Namespace (metaOf document.2))) (om_Name (metaOf document.2) ⊕ "-" ⊕ document.1.2 ⊕ ".yaml").

Definition writeDocument (outputDir : string) (document : string * string * Object) : M Console unit :=
  let gateway := bool_decide (document.1.1 = "Gateway") in
  match refuses (joinPath outputDir (om_Namespace (metaOf document.2))) with
  | Some msg => raise (Errorf ("failed to create " ⊕ (if gateway then "gateway directory: " else "directory: ") ⊕ msg))
  | None =>
      match marshalled document with
      | Err msg => raise (Errorf msg)
      | Ok data =>
          match refuses (fileOf outputDir document) with
          | Some msg => raise (Errorf ("failed to write " ⊕ (if gateway then "Gateway file: " else "file: ") ⊕ msg))
          | None => modify (λ s, {| s with cn_files := <[fileOf outputDir document := data]> (cn_files s) |})
          end
      end
  end.

Definition writeConversionsToFiles (ingresses : list NamespacedName) (outputDir : string) : M Console ConvertResult :=
  previewResult ← onCluster (generatePreview ingresses);
  _ ← forM_ (documents previewResult) (writeDocument outputDir);
  mret (previewed previewResult).

(** *** As text *)

Definition newline : string := String (ascii_of_nat 10) "".
Fixpoint concatYAML (docs : list (string * string * Object)) : result string :=
  match docs with
  | [] => Ok ""
  | document :: docs =>
      match marshalled document with
      | Err msg => Err msg
      | Ok data => match concatYAML docs with Ok rest => Ok ("---" ⊕ newline ⊕ data ⊕ rest) | Err msg => Err msg end
      end
  end.

Record PreviewResult := { pr_OriginalYAML : string; pr_ConvertedYAML : string; pr_Warnings : list string }.

Definition lastApplied : string := "kubectl.kubernetes.io/last-applied-configuration".
(** Managed fields are not part of the model; the kind is that of the type. *)
Definition cleanIngress (ing : Ingress) : Ingress :=
  {| ing with ing_Meta := {| (ing_Meta ing) with om_Annotations := delete lastApplied <$> om_Annotations (ing_Meta ing) |} |}.

Definition yamlOf (what : string) (x : Object) : M Cluster string :=
  match Marshal x with Ok data => mret data | Err msg => raise (Errorf ("failed to marshal " ⊕ what ⊕ ": " ⊕ msg)) end.

Definition GetYAML (key : NamespacedName) : M Cluster string :=
  ing ← wrap ("failed to get ingress " ⊕ slashed key) (Get Ingress key);
  yamlOf "ingress" (inject (cleanIngress ing)).

Definition Preview (key : NamespacedName) : M Cluster PreviewResult :=
  ing ← wrap ("failed to get ingress " ⊕ slashed key) (Get Ingress key);
  if ShouldSkip ing then raise (Errorf ("ingress " ⊕ slashed key ⊕ " is marked to skip conversion"))
  else
    originalYAML ← yamlOf "original Ingress" (inject (cleanIngress ing));
    previewResult ← generatePreview [key];
    match concatYAML (documents previewResult) with
    | Err msg => raise (Errorf msg)
    | Ok convertedYAML => mret {| pr_OriginalYAML := originalYAML; pr_ConvertedYAML := convertedYAML; pr_Warnings := po_Warnings previewResult |}
    end.

Definition BatchPreview (ingresses : list NamespacedName) : M Cluster (string * list string) :=
  if bool_decide (ingresses = []) then raise (Errorf "no ingresses specified")
  else
    previewResult ← generatePreview ingresses;
    match concatYAML (documents previewResult) with
    | Err msg => raise (Errorf msg)
    | Ok convertedYAML => mret (convertedYAML, po_Warnings previewResult)
    end.

(** ** The command *)

Definition buildIngressList (convertOpts : ConvertOptions) : M Cluster (list NamespacedName) :=
  if bool_decide (co_Names convertOpts = []) then
    let namespace := if bool_decide (co_Namespace convertOpts = "") then None else Some (co_Namespace convertOpts) in
    ingresses ← wrap "failed to list ingresses" (List Ingress namespace ∅);
    mret (objKey <$> ingresses)
  else mret ((λ name, parseIngressName name (co_Namespace convertOpts)) <$> co_Names convertOpts).

Definition Convert (convertOpts : ConvertOptions) : M Console (ConvertResult * option Error) :=
  ingresses ← onCluster (buildIngressList convertOpts);
  if negb (bool_decide (co_OutputDir convertOpts = "")) then result ← writeConversionsToFiles ingresses (co_OutputDir convertOpts); mret (result, None)
  else if co_DryRun convertOpts then result ← printConversionsDryRun ingresses; mret (result, None)
  else onClock (applyConversions ingresses (co_SkipAcceptancePolling convertOpts)).

(** *** [list.go] *)

Definition StatusFailed : string := "failed".
Definition StatusNew : string := "new".

Record Info := {
  inf_Name : string;
  inf_Namespace : string;
  inf_Status : string;
  inf_Hosts : list string;
  inf_HTTPRoutes : list string;
  inf_GRPCRoutes : list string;
  inf_Warnings : list string;
  inf_SkipReason : string;
}.

Definition splitAnnotation (ing : Ingress) (key : string) (sep : ascii) : list string :=
  if bool_decide (annotation ing key = "") then [] else Split (annotation ing key) sep.

Definition extractInfo (ing : Ingress) : Info :=
  let info := {| inf_Name := om_Name (ing_Meta ing); inf_Namespace := om_Namespace (ing_Meta ing); inf_Status := StatusNew;
                 inf_Hosts := filter (λ host, host ≠ "") (ir_Host <$> ing_Rules ing);
                 inf_HTTPRoutes := []; inf_GRPCRoutes := []; inf_Warnings := []; inf_SkipReason := "" |} in
  let reason := annotation ing AnnotationConversionSkipReason in
  if ShouldSkip ing
  then {| info with inf_Status := ConversionStatusSkipped; inf_SkipReason := if bool_decide (reason = "") then "marked with skip-conversion" else reason |}
  else
    {| info with
         inf_Status := default StatusNew (entries (om_Annotations (ing_Meta ing)) !! AnnotationConversionStatus);
         inf_HTTPRoutes := splitAnnotation ing AnnotationConvertedHTTPRoute ","%char;
         inf_GRPCRoutes := splitAnnotation ing AnnotationConvertedGRPCRoute ","%char;
         inf_Warnings := splitAnnotation ing AnnotationConversionWarnings ";"%char;
         inf_SkipReason := reason |}.

Record Summary := {
  sm_Total : nat; sm_Converted : nat; sm_Partial : nat; sm_Pending : nat; sm_Failed : nat; sm_Skipped : nat; sm_New : nat;
}.

Definition countStatus (s : Summary) (info : Info) : Summary :=
  if bool_decide (inf_Status info = ConversionStatusConverted) then {| s with sm_Converted := S (sm_Converted s) |}
  else if bool_decide (inf_Status info = ConversionStatusPartial) then {| s with sm_Partial := S (sm_Partial s) |}
  else if bool_decide (inf_Status info = ConversionStatusPending) then {| s with sm_Pending := S (sm_Pending s) |}
  else if bool_decide (inf_Status info = StatusFailed) then {| s with sm_Failed := S (sm_Failed s) |}
  else if bool_decide (inf_Status info = ConversionStatusSkipped) then {| s with sm_Skipped := S (sm_Skipped s) |}
  else if bool_decide (inf_Status info = StatusNew) then {| s with sm_New := S (sm_New s) |}
  else s.
Definition calculateSummary (infos : list Info) : Summary :=
  foldl countStatus {| sm_Total := length infos; sm_Converted := 0; sm_Partial := 0; sm_Pending := 0; sm_Failed := 0; sm_Skipped := 0; sm_New := 0 |} infos.

Definition ListInfos (namespace : string) : M Cluster (Summary * list Info) :=
  ingresses ← wrap "failed to list ingresses" (List Ingress (if bool_decide (namespace = "") then None else Some namespace) ∅);
  let infos := extractInfo <$> filter (λ ing, classFiltered ing = false) ingresses in
  mret (calculateSummary infos, infos).

(** One row of the table: hosts, number of routes, number of warnings *)
Definition tableRow (info : Info) : list string :=
  let hosts := match inf_Hosts info with [] => "-" | [host] => host | host :: rest => host ⊕ " +" ⊕ Itoa (Z.of_nat (length rest)) end in
  let count n := if bool_decide (n = 0) then "-" else Itoa (Z.of_nat n) in
  [inf_Namespace info; inf_Name info; inf_Status info; hosts;
   count (length (inf_HTTPRoutes info) + length (inf_GRPCRoutes info)); count (length (inf_Warnings info))].
End command.

(** ** What a command changes *)

Section frame.
Context (opts : Options).
Context (url_Parse : string -> result URL) (MarshalHTTP : list HTTPRouteRule -> option (list N)) (MarshalGRPC : list GRPCRouteRule -> option (list N)).
Context (elapse : Z -> Cluster -> Cluster) (rangeNames : gset string -> list string) (Marshal : Object -> result string) (refuses : string -> option string).
#[local] Abbreviation generatePreview := (generatePreview opts url_Parse MarshalHTTP MarshalGRPC rangeNames).

Lemma within_fetchServices K ing : within (changes K) (fetchServices rangeNames ing).
Proof. unfold fetchServices, fetchService. within_solve. Qed.

Lemma within_generatePreview K refs : within (changes K) (generatePreview refs).
Proof. unfold generatePreview. within_step; [|within_solve]. apply within_foldM; [apply _|]. intros acc ref _. unfold previewIngress. pose proof within_fetchServices. within_solve. Qed.

Lemma within_buildIngressList K convertOpts : within (changes K) (buildIngressList convertOpts).
Proof. unfold buildIngressList. within_solve. Qed.

(** The cluster is only read. *)
Definition untouched (s s' : Console) : Prop := ticks nothing (cn_clocked s) (cn_clocked s') ∧ ck_now (cn_clocked s') = ck_now (cn_clocked s).
#[export] Instance untouched_preorder : PreOrder untouched.
Proof. split; [intros s; split; [done|done]|]. intros s1 s2 s3 [? E1] [? E2]. split; [by etrans|congruence]. Qed.

Lemma untouched_onCluster {A} (m : M Cluster A) : within (changes nothing) m → within untouched (onCluster m).
Proof.
  intros Hm. unfold onCluster, onClock. apply (within_zoom _ consoleClock (λ t t', ticks nothing t t' ∧ ck_now t' = ck_now t)); [done|].
  unfold inCluster. eapply (within_zoom _ clusterClient); [|exact Hm]. intros s c Hc. split; [split; simpl; [done|lia]|done].
Qed.

Lemma untouched_modify f : (∀ s, cn_clocked (f s) = cn_clocked s) → within untouched (modify f).
Proof. intros Hf s. simpl. unfold untouched. by rewrite Hf. Qed.

Lemma untouched_print document : within untouched (printDocument Marshal document).
Proof. unfold printDocument. case_match; [|by within_step]. by apply untouched_modify. Qed.
Lemma untouched_write dir document : within untouched (writeDocument Marshal refuses dir document).
Proof. unfold writeDocument. cbv zeta. repeat case_match; try by within_step. by apply untouched_modify. Qed.

Lemma untouched_printConversions refs :
  within untouched (printConversionsDryRun opts url_Parse MarshalHTTP MarshalGRPC rangeNames Marshal refs).
Proof.
  unfold printConversionsDryRun. within_step; [apply untouched_onCluster, within_generatePreview|]. within_step; [|within_step].
  within_step. apply untouched_print.
Qed.
Lemma untouched_writeConversions refs dir :
  within untouched (writeConversionsToFiles opts url_Parse MarshalHTTP MarshalGRPC rangeNames Marshal refuses refs dir).
Proof.
  unfold writeConversionsToFiles. within_step; [apply untouched_onCluster, within_generatePreview|]. within_step; [|within_step].
  within_step. apply untouched_write.
Qed.

(** *** Applying *)

(** What the command may write for an Ingress *)
Definition ofIngress (ref : NamespacedName) (k : ObjectKey) : Prop :=
  k = storeKey Ingress ref ∨ k.2.1 = ref.1 ∧ k.1 ∈ ["HTTPRoute"; "GRPCRoute"; "SecurityPolicy"; "BackendTrafficPolicy"].
(** The Gateway, and secrets in its namespace *)
Definition ofGateway (k : ObjectKey) : Prop :=
  k = storeKey Gateway (gatewayKey opts) ∨ ∃ name, k = storeKey Secret (opt_GatewayNamespace opts, name).

Context (K : ObjectKey -> Prop) (Helapse : ∀ d c, changes K c (elapse d c)).

Lemma within_applyObject {O} `{!Resource O} merge (object : O) :
  (∀ existing, objKey existing = objKey object → objKey (merge existing object) = objKey object) →
  K (storeKey O (objKey object)) → within (changes K) (applyObject merge object).
Proof.
  intros Hm Hk. unfold applyObject. eapply within_bind_yields; [apply _|apply yields_try, yields_Get|within_solve|].
  intros [existing|err] He.
  - within_step; [|within_step]. apply within_Update. by rewrite Hm.
  - destruct (IsNotFound err); [|within_step]. within_step; [|within_step]. by apply within_Create.
Qed.

Lemma within_copyTLSSecrets listeners : (∀ name, K (storeKey Secret (opt_GatewayNamespace opts, name))) → within (changes K) (copyTLSSecrets listeners (opt_GatewayNamespace opts)).
Proof.
  intros HK. unfold copyTLSSecrets, CopyTLSSecretWithManagedBy. within_solve.
Qed.

Lemma within_putGateway listeners : (∀ k, ofGateway k → K k) → within (changes K) (applyGateway opts listeners).
Proof.
  intros HK. unfold applyGateway. within_step; [within_solve|]. destruct a as [ns|err]; [|within_solve]. cbv zeta.
  eapply within_bind_yields; [apply _|apply yields_try, yields_Get|within_solve|]. intros [existing|err] Hk.
  - within_step; [|within_step]. within_step. apply within_Update. apply HK. left. rewrite <- Hk. done.
  - destruct (IsNotFound err); [|within_step]. within_step; [|within_step]. within_step. apply within_Create, HK. by left.
Qed.

Lemma within_applyGatewayAndSecrets listeners result : (∀ k, ofGateway k → K k) → within (changes K) (applyGatewayAndSecrets opts listeners result).
Proof.
  intros HK. unfold applyGatewayAndSecrets. within_step; [within_step; by apply within_putGateway|]. destruct a. within_step; [|within_step].
  unfold when. destruct (opt_CopyTLSSecrets opts); [|within_step]. apply within_copyTLSSecrets. intros name. apply HK. right. by exists name.
Qed.

(** What a conversion carries belongs to the namespace of its Ingress. *)
Record placed (ref : NamespacedName) (conv : ingressConversion) : Prop := {
  placed_key : objKey (ic_ingress conv) = ref;
  placed_http route : route ∈ res_HTTPRoutes (ic_convResult conv) → om_Namespace (gr_Meta route) = ref.1;
  placed_grpc route : route ∈ res_GRPCRoutes (ic_convResult conv) → om_Namespace (gr_Meta route) = ref.1;
  placed_policy x : x ∈ policyObjects (ic_policyResult conv) → om_Namespace (metaOf x) = ref.1 ∧ kindOf x ∈ ["SecurityPolicy"; "BackendTrafficPolicy"];
}.

Lemma secBuilder_base ing base : spb_Base (secBuilder ing base) = base.
Proof. unfold secBuilder, SetBasicAuth, SetIPDenylist, SetIPAllowlist. cbv zeta. repeat case_bool_decide; simpl; by rewrite ?add_rule_base. Qed.
Lemma btpBuilder_base ing base : bpb_Base (btpBuilder ing base) = base.
Proof.
  unfold btpBuilder, SetConnectTimeout, SetRequestTimeout, SetRateLimitRPS, SetRateLimitRPM, set_rate_limit, SetMaxConnections. cbv zeta.
  repeat case_match; done.
Qed.

Lemma policies_placed ing convResult x : x ∈ policyObjects (policiesOf opts ing convResult) →
  om_Namespace (metaOf x) = om_Namespace (ing_Meta ing) ∧ kindOf x ∈ ["SecurityPolicy"; "BackendTrafficPolicy"].
Proof.
  unfold policiesOf. destruct (res_HTTPRoutes convResult) as [|route routes]; [by intros ?%elem_of_nil|]. destruct (opt_DisableEnvoyGatewayFeatures opts); [by intros ?%elem_of_nil|].
  unfold buildPoliciesFromAnnotations. destruct (om_Annotations (ing_Meta ing)); [|by intros ?%elem_of_nil]. cbv zeta.
  set (base := NewPolicyBuilder _ _ _). unfold SecurityBuild, BackendBuild. rewrite secBuilder_base, btpBuilder_base.
  destruct (SecurityIsEmpty _), (BackendIsEmpty _); simpl; rewrite ?elem_of_cons; [by intros ?%elem_of_nil|..].
  - intros [-> | []%elem_of_nil]. split; [done|]. simpl. set_solver.
  - intros [-> | []%elem_of_nil]. split; [done|]. simpl. set_solver.
  - intros [-> | [-> | []%elem_of_nil]]; (split; [done|]; simpl; set_solver).
Qed.

#[local] Abbreviation convertIngresses := (convertIngresses opts url_Parse MarshalHTTP MarshalGRPC rangeNames).

Lemma yields_convertIngresses refs result :
  yields (λ acc, Forall (λ conv, ∃ ref, ref ∈ refs ∧ placed ref conv) acc.1.1) (convertIngresses refs result).
Proof.
  apply yields_foldM; [by constructor|]. intros [[conversions listeners] res] ref Hin HI. unfold convertIngress.
  eapply yields_bind_yields; [apply yields_try, yields_Get|]. intros [ing|err] Hk; [|by apply (yields_ret (λ acc, Forall _ acc.1.1))].
  destruct (_ || _); [by apply (yields_ret (λ acc, Forall _ acc.1.1))|]. apply yields_bind. intros services.
  apply (yields_ret (λ acc, Forall (λ conv, ∃ ref, ref ∈ refs ∧ placed ref conv) acc.1.1)). simpl. apply Forall_app. split; [done|].
  apply Forall_singleton. exists ref. split; [done|]. assert (om_Namespace (ing_Meta ing) = ref.1) as Hns by (by rewrite <- Hk).
  destruct (converted_namespace url_Parse MarshalHTTP MarshalGRPC (conversionInput opts ing services)) as [Hh Hg].
  split; simpl; [done|intros route Hr; by rewrite (Hh route Hr)|intros route Hr; by rewrite (Hg route Hr)|]. rewrite <- Hns. apply policies_placed.
Qed.

Lemma within_tryApply {O} `{!Resource O} merge (object : O) :
  (∀ existing, objKey existing = objKey object → objKey (merge existing object) = objKey object) →
  K (storeKey O (objKey object)) → within (changes K) (try (applyObject merge object)).
Proof. intros Hm Hk. within_step. by apply within_applyObject. Qed.

Lemma within_applyConversionOf skipPolling result ref conv : placed ref conv → (∀ k, ofIngress ref k → K k) →
  within (ticks K) (applyConversionOf elapse skipPolling result conv).
Proof.
  intros [Hk Hh Hg Hp] HK.
  assert (∀ kind name, kind ∈ ["HTTPRoute"; "GRPCRoute"; "SecurityPolicy"; "BackendTrafficPolicy"] → K (kind, (ref.1, name))) as HN
    by (intros; apply HK; by right).
  unfold applyConversionOf. cbv zeta. within_step; [apply within_inCluster; unfold applyRoutes; within_step|].
  - within_step. unfold applyRoute. within_step; [|within_step]. apply within_tryApply; [by intros|].
    match goal with H : _ ∈ managed <$> _ |- _ => apply list_elem_of_fmap in H as (route & -> & Hr) end.
    unfold objKey. simpl. rewrite (Hh route Hr). apply HN. set_solver.
  - within_step. unfold applyRoute. within_step; [|within_step]. apply within_tryApply; [by intros|].
    match goal with H : _ ∈ managed <$> _ |- _ => apply list_elem_of_fmap in H as (route & -> & Hr) end.
    unfold objKey. simpl. rewrite (Hg route Hr). apply HN. set_solver.
  - within_step; [apply within_inCluster; unfold applyPolicies|].
    { destruct (ic_policyResult conv) as [[security backend]|]; [|within_step]. simpl in *. within_step.
      - destruct security as [policy|]; [|within_step]. within_step; [|within_step]. apply within_tryApply; [by intros|].
        destruct (Hp (inject policy)) as [Hns _]; [by left|]. unfold objKey. simpl in *. rewrite Hns. apply HN. set_solver.
      - destruct backend as [policy|]; [|within_step]. within_step; [|within_step]. apply within_tryApply; [by intros|].
        destruct (Hp (inject policy)) as [Hns _]; [apply elem_of_app; right; by left|]. unfold objKey. simpl in *. rewrite Hns. apply HN. set_solver. }
    within_step.
    { destruct skipPolling; [within_step|]. unfold pollRouteAcceptance. destruct (_ && _); [within_step|]. within_step; [within_step|].
      generalize pollFuel. intros fuel. induction fuel as [|fuel IH]; simpl; [within_step|].
      within_step; [apply within_modify; intros s; split; simpl; [done|unfold routeAcceptancePollInterval; lia]|].
      within_step; [within_step|]. within_step; [within_step|]. within_step; [|within_step; [within_step|done]].
      apply within_inCluster. unfold checkRoutes, checkRoute. within_solve. }
    within_step; [|within_step]. apply within_inCluster. within_step. unfold updateIngressStatus. within_step; [|within_step].
    apply within_Update, HK. left. unfold objKey in *. by rewrite <- Hk.
Qed.

Lemma within_applyConversions refs skipPolling : (∀ ref, ref ∈ refs → ∀ k, ofIngress ref k → K k) → (∀ k, ofGateway k → K k) →
  within (ticks K) (applyConversions opts url_Parse MarshalHTTP MarshalGRPC elapse rangeNames refs skipPolling).
Proof.
  intros HK HG. unfold applyConversions. eapply within_bind_yields; [apply _|apply yields_zoom, yields_convertIngresses| |].
  { apply within_inCluster. unfold convertIngresses. apply within_foldM; [apply _|]. intros acc ref _. unfold convertIngress.
    pose proof within_fetchServices. within_solve. }
  intros [[conversions listeners] result] Hconv. simpl in Hconv. within_step.
  { destruct (bool_decide _); [within_step|]. apply within_inCluster. within_step. by apply within_applyGatewayAndSecrets. }
  destruct a as [result'|err]; [|within_step]. within_step; [|within_step]. unfold applyRoutesAndPolicies. apply within_foldM; [apply _|].
  intros res conv Hin. rewrite Forall_forall in Hconv. destruct (Hconv conv Hin) as (ref & Hr & Hp). eapply within_applyConversionOf; eauto.
Qed.
End frame.
