(* ===== verification/CLIPass.v ===== *)
(** * What converting Ingresses from the command line promises

    The theorems about [CLIIngress]: which objects the commands may change, that applying
    returns and accounts for every Ingress, that an Ingress the command has marked is read
    back by the list and left alone by the controller in the cluster, and how the policies
    of the command differ from those of the controller. *)

From Stdlib Require Import Ascii.
From S2P Require Import Prelude GoStrings Api GatewayApi Kube Finalizers ConvAnnotations ConvPolicies Converter ConvGateway Manager IngressToGateway CLIIngress.
Local Open Scope go_scope.

(** ** Programs that come to an end *)

(** A run returns, or fails with an error; in [returns] it does not even fail. *)
Definition answers {S A} (m : M S A) : Prop := ∀ s, match (m s).1 with Ret _ | Fail _ => True | _ => False end.
Definition returns {S A} (m : M S A) : Prop := ∀ s, ∃ a s', m s = (Ret a, s').

Section ends.
Context {S : Type}.

Lemma returns_answers {A} (m : M S A) : returns m → answers m.
Proof. intros Hm s. by destruct (Hm s) as (a & s' & ->). Qed.
Lemma returns_ret {A} (a : A) : returns (mret (M:=M S) a).
Proof. intros s. by eexists _, _. Qed.
Lemma answers_raise {A} e : answers (raise (S:=S) (A:=A) e).
Proof. by intros s. Qed.
Lemma returns_gets {A} (f : S -> A) : returns (gets f).
Proof. intros s. by eexists _, _. Qed.
Lemma returns_modify (f : S -> S) : returns (modify f).
Proof. intros s. by eexists _, _. Qed.
Lemma answers_bind {A B} (m : M S A) (k : A -> M S B) : answers m → (∀ a, answers (k a)) → answers (m ≫= k).
Proof. intros Hm Hk s. specialize (Hm s). unfold mbind, M_bind. destruct (m s) as [[a|e| |] s1]; try done. apply Hk. Qed.
Lemma returns_bind {A B} (m : M S A) (k : A -> M S B) : returns m → (∀ a, returns (k a)) → returns (m ≫= k).
Proof. intros Hm Hk s. destruct (Hm s) as (a & s1 & Hr). rewrite (bind_eval _ _ _ _ _ Hr). apply Hk. Qed.
Lemma returns_try {A} (m : M S A) : answers m → returns (try m).
Proof. intros Hm s. specialize (Hm s). unfold try. destruct (m s) as [[a|e| |] s1]; try done; by eexists _, _. Qed.
Lemma answers_wrap {A} p (m : M S A) : answers m → answers (wrap p m).
Proof. intros Hm. apply answers_bind; [by apply returns_answers, returns_try|]. intros [a|e]; [apply returns_answers, returns_ret|apply answers_raise]. Qed.
Lemma returns_foldM {A B} (f : B -> A -> M S B) b l : (∀ b x, returns (f b x)) → returns (foldM f b l).
Proof. intros Hf. revert b. induction l as [|x l IH]; intros b; [apply returns_ret|]. by apply returns_bind. Qed.
Lemma returns_forM_ {A} (f : A -> M S unit) l : (∀ x, returns (f x)) → returns (forM_ l f).
Proof. intros Hf. induction l as [|x l IH]; [apply returns_ret|]. by apply returns_bind. Qed.
Lemma returns_when b (m : M S unit) : returns m → returns (when b m).
Proof. intros Hm. destruct b; [done|apply returns_ret]. Qed.
Lemma answers_match {A} (b : bool) (m n : M S A) : answers m → answers n → answers (if b then m else n).
Proof. by destruct b. Qed.
Lemma returns_zoom {T A} (L : Lens S T) (m : M T A) : returns m → returns (zoom L m).
Proof. intros Hm s. destruct (Hm (view L s)) as (a & t & Hr). by rewrite (zoom_eval _ _ _ _ _ Hr); eexists _, _. Qed.
Lemma answers_zoom {T A} (L : Lens S T) (m : M T A) : answers m → answers (zoom L m).
Proof. intros Hm s. specialize (Hm (view L s)). unfold zoom. by destruct (m (view L s)) as [[]]. Qed.

(** A fold keeps an invariant that knows the part of the list it has been through. *)
Lemma foldM_prefix {A B} (I : list A -> B -> S -> Prop) (f : B -> A -> M S B) l b s :
  I [] b s →
  (∀ pre x b s, pre ++ [x] `prefix_of` l → I pre b s → ∃ b' s', f b x s = (Ret b', s') ∧ I (pre ++ [x]) b' s') →
  ∃ b' s', foldM f b l s = (Ret b', s') ∧ I l b' s'.
Proof.
  intros Hb Hf. enough (∀ pre l', pre ++ l' = l → ∀ b s, I pre b s → ∃ b' s', foldM f b l' s = (Ret b', s') ∧ I l b' s') as H by (by eapply (H [])).
  clear b s Hb. intros pre l'. revert pre. induction l' as [|x l' IH]; intros pre Hl b s HI.
  - rewrite app_nil_r in Hl. subst. by eexists _, _.
  - destruct (Hf pre x b s) as (b' & s' & Hr & HI'); [exists l'; by rewrite <- app_assoc|done|].
    simpl. rewrite (bind_eval _ _ _ _ _ Hr). apply (IH (pre ++ [x])); [by rewrite <- app_assoc|done].
Qed.
End ends.

Ltac ends_step :=
  lazymatch goal with
  | |- answers (mbind _ _) => apply answers_bind; [|intros ?]
  | |- answers (raise _) => apply answers_raise
  | |- answers (wrap _ _) => apply answers_wrap
  | |- answers (zoom _ _) => apply answers_zoom
  | |- answers (match ?x with _ => _ end) => destruct x
  | |- answers _ => apply returns_answers
  | |- returns (mbind _ _) => apply returns_bind; [|intros ?]
  | |- returns (mret _) => apply returns_ret
  | |- returns (gets _) => apply returns_gets
  | |- returns (modify _) => apply returns_modify
  | |- returns (try _) => apply returns_try
  | |- returns (foldM _ _ _) => apply returns_foldM; intros ? ?
  | |- returns (forM_ _ _) => apply returns_forM_; intros ?
  | |- returns (when _ _) => apply returns_when
  | |- returns (zoom _ _) => apply returns_zoom
  | |- returns (match ?x with _ => _ end) => destruct x
  end.

Section client_answers.
Context {O : Type} `{!Resource O}.
Lemma answers_apiCall : answers apiCall.
Proof. intros c. unfold apiCall. by destruct (cl_faults c) as [|[]]. Qed.
Lemma answers_existing key : answers (existing (O:=O) key).
Proof. unfold existing. ends_step; [apply answers_apiCall|]. ends_step; [repeat ends_step|]. destruct a0; repeat ends_step. Qed.
Lemma answers_Get key : answers (Get O key).
Proof. apply answers_existing. Qed.
Lemma answers_List ns sel : answers (List O ns sel).
Proof. unfold List. ends_step; [apply answers_apiCall|repeat ends_step]. Qed.
Lemma answers_Create o : answers (Create (O:=O) o).
Proof. unfold Create, putObject. ends_step; [apply answers_apiCall|]. ends_step; [repeat ends_step|]. destruct a0; repeat ends_step. Qed.
Lemma answers_Update o : answers (Update (O:=O) o).
Proof. unfold Update, putObject, dropObject. ends_step; [apply answers_existing|]. destruct (bool_decide _); repeat ends_step. Qed.
Lemma answers_Delete key : answers (Delete O key).
Proof. unfold Delete, putObject, dropObject. ends_step; [apply answers_existing|]. repeat ends_step. Qed.
End client_answers.
Ltac ends_solve :=
  repeat lazymatch goal with
  | |- answers (Get _ _) => apply answers_Get
  | |- answers (List _ _ _) => apply answers_List
  | |- answers (Create _) => apply answers_Create
  | |- answers (Update _) => apply answers_Update
  | |- answers (Delete _ _) => apply answers_Delete
  | |- _ => ends_step
  end.

(** ** Programs that end in time *)

Section ends_within.
Context (elapse : Z -> Cluster -> Cluster).

(** A run that ends, with its time *)
Definition endsWithin {A} (bound : Z) (m : M Clocked A) (s : Clocked) : Prop :=
  match (m s).1 with Ret _ | Fail _ => (ck_now (m s).2 <= ck_now s + bound)%Z | _ => False end.

(** A call takes no time. *)
Lemma endsWithin_call {A B} b (m : M Cluster A) (k : A -> M Clocked B) s : (0 <= b)%Z → answers m →
  (∀ a c, endsWithin b (k a) {| s with ck_cluster := c |}) → endsWithin b (inCluster m ≫= k) s.
Proof.
  unfold endsWithin, mbind, M_bind, inCluster, zoom. intros Hb Hm Hk. specialize (Hm (ck_cluster s)). simpl.
  destruct (m (ck_cluster s)) as [[a|e| |] c]; simpl in *; try lia. apply (Hk a c).
Qed.
Lemma endsWithin_wrap {A} b prefix (m : M Clocked A) s : endsWithin b m s → endsWithin b (wrap prefix m) s.
Proof. unfold endsWithin, wrap, try, mbind, M_bind. by destruct (m s) as [[] ?]. Qed.
Lemma endsWithin_weaken {A} b b' (m : M Clocked A) s : (b <= b')%Z → endsWithin b m s → endsWithin b' m s.
Proof. unfold endsWithin. destruct (m s) as [[] ?]; simpl; try done; lia. Qed.

Lemma endsWithin_sleep {A} b d (k : unit -> M Clocked A) s :
  endsWithin b (k tt) {| ck_cluster := elapse d (ck_cluster s); ck_now := ck_now s + d |} → endsWithin (d + b) (u ← sleep elapse d; k u) s.
Proof. unfold endsWithin, mbind, M_bind, sleep, modify. simpl. destruct (k tt _) as [[] s']; simpl; try done; lia. Qed.
Lemma endsWithin_gets {A B} b (f : Clocked -> A) (k : A -> M Clocked B) s : endsWithin b (k (f s)) s → endsWithin b (a ← gets f; k a) s.
Proof. done. Qed.

Lemma endsWithin_bind {A B} b (m : M Clocked A) (k : A -> M Clocked B) s : endsWithin b m s → (∀ a s', endsWithin 0 (k a) s') → endsWithin b (m ≫= k) s.
Proof.
  unfold endsWithin, mbind, M_bind. intros Hm Hk. destruct (m s) as [[a|e| |] s']; simpl in *; try done.
  specialize (Hk a s'). destruct (k a s') as [[] s'']; simpl in *; try done; lia.
Qed.
End ends_within.

(** ** Applying accounts for every Ingress *)

Section accounts.
Context (opts : Options).
Context (url_Parse : string -> result URL) (MarshalHTTP : list HTTPRouteRule -> option (list N)) (MarshalGRPC : list GRPCRouteRule -> option (list N)).
Context (elapse : Z -> Cluster -> Cluster) (rangeNames : gset string -> list string).
#[local] Abbreviation convertIngress := (convertIngress opts url_Parse MarshalHTTP MarshalGRPC rangeNames).
#[local] Abbreviation convertIngresses := (convertIngresses opts url_Parse MarshalHTTP MarshalGRPC rangeNames).
#[local] Abbreviation applyConversions := (applyConversions opts url_Parse MarshalHTTP MarshalGRPC elapse rangeNames).

Definition convKey (conv : ingressConversion) : string := slashed (objKey (ic_ingress conv)).
Definition failedKeys (result : ConvertResult) : list string := (map_to_list (cr_Failed result)).*1.

Lemma failedKeys_fresh key result : key ∉ failedKeys result → cr_Failed result !! key = None.
Proof.
  intros Hk. apply eq_None_not_Some. intros [e He]. apply Hk, list_elem_of_fmap. exists (key, e). split; [done|]. by apply elem_of_map_to_list.
Qed.
Lemma failedKeys_fail key err result : key ∉ failedKeys result → failedKeys (fail key err result) ≡ₚ key :: failedKeys result.
Proof. intros Hk%failedKeys_fresh. unfold failedKeys. simpl. by rewrite map_to_list_insert. Qed.

Lemma returns_fetchServices ing : returns (fetchServices rangeNames ing).
Proof. unfold fetchServices, fetchService. ends_solve. Qed.

Lemma convertIngresses_accounts refs c : NoDup (slashed <$> refs) →
  ∃ conversions listeners result c', convertIngresses refs emptyResult c = (Ret (conversions, listeners, result), c') ∧
    cr_Converted result = [] ∧ (convKey <$> conversions) ++ cr_Skipped result ++ failedKeys result ≡ₚ slashed <$> refs.
Proof.
  intros Hd.
  destruct (foldM_prefix (λ pre acc (_ : Cluster), cr_Converted acc.2 = [] ∧ (convKey <$> acc.1.1) ++ cr_Skipped acc.2 ++ failedKeys acc.2 ≡ₚ slashed <$> pre)
    convertIngress refs ([], [], emptyResult) c) as ([[conversions listeners] result] & c' & Hr & ? & ?); [done| |by eexists _, _, _, _].
  intros pre ref [[conversions listeners] result] s [post ->] [Hc HI]. simpl in Hc, HI.
  assert (slashed ref ∉ failedKeys result) as Hfresh.
  { intros Hf. rewrite !fmap_app in Hd. apply NoDup_app in Hd as (Hd & _). simpl in Hd. apply NoDup_app in Hd as (_ & Hd & _).
    apply (Hd (slashed ref)); [rewrite <- HI; rewrite !elem_of_app; by right; right|by left]. }
  unfold CLIIngress.convertIngress. destruct (returns_try (Get Ingress ref) (answers_Get ref) s) as (r & s1 & Hg).
  rewrite (bind_eval _ _ _ _ _ Hg). rewrite fmap_app. simpl.
  destruct r as [ing|err].
  - assert (objKey ing = ref) as Hk by (by eapply (yields_try (λ o, objKey o = ref)) in Hg; [|apply yields_Get]).
    destruct (_ || _).
    { eexists (_, _, _), _. split; [done|]. split; [done|]. simpl. rewrite <- HI. solve_Permutation. }
    destruct (returns_fetchServices ing s1) as (services & s2 & Hs). rewrite (bind_eval _ _ _ _ _ Hs).
    eexists (_, _, _), _. split; [done|]. split; [done|]. simpl. rewrite fmap_app, <- HI. simpl. unfold convKey at 2. simpl. rewrite Hk. solve_Permutation.
  - eexists (_, _, _), _. split; [done|]. split; [done|]. cbn [fst snd cr_Skipped fail]. rewrite failedKeys_fail by done. rewrite <- HI. solve_Permutation.
Qed.

(** What applying the routes does to the result *)
Definition failsOnly (key : string) (result result' : ConvertResult) : Prop :=
  result' = result ∨ ∃ err, result' = fail key err result.

Lemma failsOnly_fail key err result result' : failsOnly key result result' → failsOnly key result (fail key err result').
Proof. intros [-> | [err' ->]]; right; exists err; [done|]. unfold fail. simpl. by rewrite insert_insert_eq. Qed.

Lemma answers_applyObject {O} `{!Resource O} merge (object : O) : answers (applyObject merge object).
Proof. unfold applyObject. ends_solve. Qed.

Lemma applyRoute_ends {O} `{!Resource O} what apply key result0 result (route : O) c :
  (∀ route, answers (apply route)) → failsOnly key result0 result →
  ∃ result' c', applyRoute what apply key result route c = (Ret result', c') ∧ failsOnly key result0 result'.
Proof.
  intros Ha HI. unfold applyRoute. destruct (returns_try (apply route) (Ha route) c) as (r & c1 & Hr).
  rewrite (bind_eval _ _ _ _ _ Hr). eexists _, _. split; [done|]. destruct r; [done|]. by apply failsOnly_fail.
Qed.

Lemma applyRoutes_ends conv key result c : ∃ result' c', applyRoutes conv key result c = (Ret result', c') ∧ failsOnly key result result'.
Proof.
  unfold applyRoutes.
  destruct (foldM_prefix (λ _ res (_ : Cluster), failsOnly key result res) (applyRoute "HTTPRoute" applyHTTPRoute key)
    (managed <$> res_HTTPRoutes (ic_convResult conv)) result c) as (res1 & c1 & H1 & HI1); [by left| |].
  { intros. apply applyRoute_ends; [|done]. intros. apply answers_applyObject. }
  rewrite (bind_eval _ _ _ _ _ H1).
  destruct (foldM_prefix (λ _ res (_ : Cluster), failsOnly key result res) (applyRoute "GRPCRoute" applyGRPCRoute key)
    (managed <$> res_GRPCRoutes (ic_convResult conv)) res1 c1) as (res2 & c2 & H2 & HI2); [done| |by eexists _, _].
  intros. apply applyRoute_ends; [|done]. intros. apply answers_applyObject.
Qed.

Lemma returns_applyPolicies policyResult : returns (applyPolicies policyResult).
Proof. unfold applyPolicies, applyPolicy. repeat (apply answers_applyObject || ends_step). Qed.

Lemma returns_checkRoutes convResult : returns (checkRoutes convResult).
Proof. unfold checkRoutes, checkRoute. ends_solve. Qed.

(** With [n] ticks to the deadline, [n + 1] turns are enough. *)
Lemma pollRoutes_ends convResult deadline n fuel s :
  deadline = (ck_now s + routeAcceptancePollInterval * Z.of_nat n)%Z → n < fuel →
  ∃ accepted s', pollRoutes elapse convResult deadline fuel s = (Ret accepted, s') ∧ (ck_now s <= ck_now s' <= deadline + routeAcceptancePollInterval)%Z.
Proof.
  revert fuel s. induction n as [|n IH]; intros [|fuel] s Hd Hf; try lia; simpl.
  all: set (s1 := {| ck_cluster := elapse routeAcceptancePollInterval (ck_cluster s); ck_now := (ck_now s + routeAcceptancePollInterval)%Z |}).
  all: rewrite (bind_eval _ _ _ tt s1) by done; rewrite (bind_eval _ _ _ (ck_now s1) s1) by done; cbv beta.
  - rewrite (proj2 (Z.ltb_lt _ _)) by (rewrite Hd; unfold s1, routeAcceptancePollInterval; simpl; lia).
    eexists _, _. split; [done|]. rewrite Hd. unfold s1, routeAcceptancePollInterval. simpl. lia.
  - rewrite (proj2 (Z.ltb_ge _ _)) by (rewrite Hd; unfold s1, routeAcceptancePollInterval; simpl; lia).
    destruct (returns_checkRoutes convResult (ck_cluster s1)) as (all & c' & Hc).
    rewrite (bind_eval _ _ _ _ _ (inCluster_eval _ _ _ _ Hc)). destruct all.
    + eexists _, _. split; [done|]. rewrite Hd. unfold s1, routeAcceptancePollInterval. simpl. lia.
    + destruct (IH fuel {| s1 with ck_cluster := c' |}) as (accepted & s' & Hr & Hn); [rewrite Hd; unfold s1, routeAcceptancePollInterval; simpl; lia|lia|].
      exists accepted, s'. split; [done|]. revert Hn. unfold s1, routeAcceptancePollInterval. simpl. lia.
Qed.

(** Fifteen ticks reach the timeout, the sixteenth passes it. *)
Lemma pollRouteAcceptance_ends convResult s :
  ∃ accepted s', pollRouteAcceptance elapse convResult s = (Ret accepted, s') ∧ (ck_now s <= ck_now s' <= ck_now s + (routeAcceptanceTimeout + routeAcceptancePollInterval))%Z.
Proof.
  unfold pollRouteAcceptance. destruct (_ && _).
  { eexists _, _. split; [done|]. unfold routeAcceptanceTimeout, routeAcceptancePollInterval. lia. }
  rewrite (bind_eval _ _ _ (ck_now s) s) by done.
  destruct (pollRoutes_ends convResult (ck_now s + routeAcceptanceTimeout) 15 pollFuel s) as (accepted & s' & Hr & Hn);
    [done|unfold pollFuel; lia|]. exists accepted, s'. split; [done|]. lia.
Qed.

(** The longest an Ingress takes *)
Definition perIngress : Z := routeAcceptanceTimeout + routeAcceptancePollInterval.

Lemma applyConversionOf_ends skipPolling result conv s : convKey conv ∉ failedKeys result →
  ∃ result' s', applyConversionOf elapse skipPolling result conv s = (Ret result', s') ∧ (ck_now s <= ck_now s' <= ck_now s + perIngress)%Z ∧
    cr_Skipped result' = cr_Skipped result ∧
    cr_Converted result' ++ failedKeys result' ≡ₚ convKey conv :: cr_Converted result ++ failedKeys result.
Proof.
  intros Hk. unfold applyConversionOf. cbv zeta. fold (convKey conv).
  destruct (applyRoutes_ends conv (convKey conv) result (ck_cluster s)) as (res & c1 & H1 & HI). rewrite (bind_eval _ _ _ _ _ (inCluster_eval _ _ _ _ H1)).
  set (s1 := {| s with ck_cluster := c1 |}). destruct (returns_applyPolicies (ic_policyResult conv) (ck_cluster s1)) as ([] & c2 & H2).
  rewrite (bind_eval _ _ _ _ _ (inCluster_eval _ _ _ _ H2)). set (s2 := {| s1 with ck_cluster := c2 |}).
  assert (∃ accepted s3, (if skipPolling then mret true else pollRouteAcceptance elapse (ic_convResult conv)) s2 = (Ret accepted, s3) ∧
    (ck_now s <= ck_now s3 <= ck_now s + perIngress)%Z) as (accepted & s3 & H3 & Hn).
  { destruct skipPolling; [eexists _, _; split; [done|unfold perIngress, routeAcceptanceTimeout, routeAcceptancePollInterval; simpl; lia]|].
    apply (pollRouteAcceptance_ends (ic_convResult conv) s2). }
  rewrite (bind_eval _ _ _ _ _ H3).
  destruct (returns_try (updateIngressStatus (ic_ingress conv) (ic_convResult conv) accepted) ltac:(unfold updateIngressStatus; ends_solve) (ck_cluster s3)) as (u & c4 & H4).
  rewrite (bind_eval _ _ _ _ _ (inCluster_eval _ _ _ _ H4)). eexists _, _. split; [done|]. split; [done|].
  destruct HI as [-> | [err ->]].
  - rewrite bool_decide_false by (rewrite (failedKeys_fresh _ _ Hk); by intros []). split; [done|]. simpl. rewrite <- app_assoc. change (failedKeys {| result with cr_Converted := _ |}) with (failedKeys result). solve_Permutation.
  - rewrite bool_decide_true by (simpl; rewrite lookup_insert_eq; eauto). split; [done|]. rewrite failedKeys_fail by done. simpl. solve_Permutation.
Qed.

Lemma applyGatewayAndSecrets_answers listeners result : answers (applyGatewayAndSecrets opts listeners result).
Proof. unfold applyGatewayAndSecrets, applyGateway, copyTLSSecrets, CopyTLSSecretWithManagedBy. ends_solve. Qed.

Lemma applyGatewayAndSecrets_result listeners result : yields (λ r, cr_Converted r = cr_Converted result ∧ cr_Skipped r = cr_Skipped result ∧ cr_Failed r = cr_Failed result)
  (applyGatewayAndSecrets opts listeners result).
Proof. unfold applyGatewayAndSecrets. apply yields_bind. intros [gw created]. apply yields_bind. intros []. by apply yields_ret. Qed.

(** C24: applying returns, whatever the API server answers and whatever others do to the
    cluster meanwhile, after at most 32 seconds for each Ingress; and it accounts for every
    Ingress exactly once, as converted, skipped or failed. When the Gateway cannot be
    applied it converts none. *)
Theorem cli_apply_accounts refs skipPolling s : NoDup (slashed <$> refs) →
  ∃ result err s', applyConversions refs skipPolling s = (Ret (result, err), s') ∧
    (ck_now s <= ck_now s' <= ck_now s + perIngress * Z.of_nat (length refs))%Z ∧
    match err with
    | None => cr_Converted result ++ cr_Skipped result ++ failedKeys result ≡ₚ slashed <$> refs
    | Some _ => cr_Converted result = [] ∧ cr_Skipped result ++ failedKeys result ⊆+ slashed <$> refs
    end.
Proof.
  intros Hd. unfold CLIIngress.applyConversions.
  destruct (convertIngresses_accounts refs (ck_cluster s) Hd) as (conversions & listeners & result & c1 & H1 & Hc & HI).
  rewrite (bind_eval _ _ _ _ _ (inCluster_eval _ _ _ _ H1)). set (s1 := {| s with ck_cluster := c1 |}).
  assert (0 <= perIngress * Z.of_nat (length refs))%Z by (unfold perIngress, routeAcceptanceTimeout, routeAcceptancePollInterval; lia).
  assert (∃ applied s2, (if bool_decide (conversions = []) then mret (inl result) else inCluster (try (applyGatewayAndSecrets opts listeners result))) s1 = (Ret applied, s2) ∧
    ck_now s2 = ck_now s ∧ match applied with inl r => cr_Converted r = [] ∧ cr_Skipped r = cr_Skipped result ∧ cr_Failed r = cr_Failed result | inr _ => True end)
    as (applied & s2 & H2 & Hn & HA).
  { case_bool_decide; [by eexists _, _|]. destruct (returns_try _ (applyGatewayAndSecrets_answers listeners result) c1) as (r & c2 & Hr).
    eexists _, _. split; [by apply (inCluster_eval _ s1)|]. split; [done|]. apply (yields_try _ _ (applyGatewayAndSecrets_result listeners result)) in Hr.
    destruct r; [|done]. by rewrite Hc in Hr. }
  rewrite (bind_eval _ _ _ _ _ H2). destruct applied as [res|err].
  2: { eexists _, _, _. split; [done|]. split; [lia|]. split; [done|]. rewrite <- HI. by apply submseteq_inserts_l. }
  destruct HA as (HAc & HAs & HAf). rewrite <- HAs in HI. replace (failedKeys result) with (failedKeys res) in HI by (unfold failedKeys; by rewrite HAf).
  destruct (foldM_prefix (λ pre r t, (ck_now s <= ck_now t <= ck_now s + perIngress * Z.of_nat (length pre))%Z ∧ cr_Skipped r = cr_Skipped res ∧
    cr_Converted r ++ failedKeys r ≡ₚ (convKey <$> pre) ++ failedKeys res) (applyConversionOf elapse skipPolling) conversions res s2) as (r & s3 & H3 & Hn3 & Hs3 & HI3).
  { split; [rewrite Hn; simpl; lia|]. by rewrite HAc. }
  { intros pre conv r t [post Hpre] (Hnt & Hs & HI'). destruct (applyConversionOf_ends skipPolling r conv t) as (r' & t' & Hr & Hn' & Hs' & HI'').
    - intros Hf. rewrite Hpre, !fmap_app in HI. pose proof Hd as Hd'. rewrite <- HI in Hd'. simpl in Hd'. rewrite <- !app_assoc in Hd'.
      assert (convKey conv ∈ (convKey <$> pre) ++ failedKeys res) as [Hin|Hin]%elem_of_app by (rewrite <- HI'; apply elem_of_app; by right).
      + apply NoDup_app in Hd' as (_ & Hd' & _). apply (Hd' _ Hin). rewrite elem_of_app. left. by left.
      + apply NoDup_app in Hd' as (_ & _ & Hd'). apply NoDup_app in Hd' as (_ & Hd' & _). apply (Hd' (convKey conv)); [by left|]. rewrite !elem_of_app. by right; right.
    - exists r', t'. split; [done|]. split; [rewrite length_app; simpl; lia|]. split; [by rewrite Hs'|]. rewrite HI'', HI', fmap_app. simpl. solve_Permutation. }
  rewrite (bind_eval _ _ _ _ _ H3). eexists _, _, _. split; [done|]. split.
  { assert (length conversions ≤ length refs). { apply Permutation_length in HI. rewrite !length_app, !length_fmap in HI. lia. }
    unfold perIngress, routeAcceptanceTimeout, routeAcceptancePollInterval in *. nia. }
  rewrite Hs3, <- HI. rewrite (Permutation_app_comm (cr_Skipped res)), (app_assoc (cr_Converted r)), HI3. solve_Permutation.
Qed.
End accounts.

(** ** What the command changes *)

Section isolation.
Context (opts : Options).
Context (url_Parse : string -> result URL) (MarshalHTTP : list HTTPRouteRule -> option (list N)) (MarshalGRPC : list GRPCRouteRule -> option (list N)).
Context (elapse : Z -> Cluster -> Cluster) (rangeNames : gset string -> list string) (Marshal : Object -> result string) (refuses : string -> option string).
#[local] Abbreviation Convert := (Convert opts url_Parse MarshalHTTP MarshalGRPC elapse rangeNames Marshal refuses).

(** The Ingresses a command is about: those that are named, or all of the namespace, or all *)
Definition meant (convertOpts : ConvertOptions) (ref : NamespacedName) : Prop :=
  if bool_decide (co_Names convertOpts = []) then co_Namespace convertOpts = "" ∨ ref.1 = co_Namespace convertOpts
  else ref ∈ (λ name, parseIngressName name (co_Namespace convertOpts)) <$> co_Names convertOpts.

Lemma yields_buildIngressList convertOpts : yields (λ refs, ∀ ref, ref ∈ refs → meant convertOpts ref) (buildIngressList convertOpts).
Proof.
  unfold buildIngressList, meant. case_bool_decide; [|by apply yields_ret].
  eapply (yields_bind_yields (λ l, ∀ ing, ing ∈ l → co_Namespace convertOpts = "" ∨ om_Namespace (ing_Meta ing) = co_Namespace convertOpts)).
  - apply yields_wrap. intros c l c' [-> _]%List_Ret ing. unfold listObjects. rewrite list_elem_of_filter. intros [[Hns _] _].
    case_bool_decide; [by left|right]. by apply bool_decide_eq_true in Hns.
  - intros l Hl. apply yields_ret. intros ref (ing & -> & Hin)%list_elem_of_fmap. by apply Hl.
Qed.

(** What is written besides the Gateway and the secrets: the Ingresses that are meant, and
    routes and policies in their namespaces *)
Definition written (convertOpts : ConvertOptions) (k : ObjectKey) : Prop :=
  ofGateway opts k ∨ ∃ ref, meant convertOpts ref ∧ ofIngress ref k.

Lemma within_Convert convertOpts (K : ObjectKey -> Prop) : (∀ d c, changes K c (elapse d c)) → (∀ k, written convertOpts k → K k) →
  within (λ s s', ticks K (cn_clocked s) (cn_clocked s')) (Convert convertOpts).
Proof.
  intros He HK.
  assert (PreOrder (λ s s', ticks K (cn_clocked s) (cn_clocked s'))) by (split; [by intros ?|intros ???; apply transitivity]).
  assert (∀ s s', untouched s s' → ticks K (cn_clocked s) (cn_clocked s')) as Hu.
  { intros t t' [[Hc Hn] _]. split; [|done]. eapply changes_weaken, Hc. by intros k []. }
  unfold CLIIngress.Convert. eapply within_bind_yields; [done|apply yields_zoom, yields_zoom, yields_buildIngressList| |].
  { eapply within_weaken; [exact Hu|]. apply untouched_onCluster, within_buildIngressList. }
  intros refs Hrefs. destruct (negb _); [|destruct (co_DryRun convertOpts)].
  - within_step; [|by within_step]. eapply within_weaken; [exact Hu|]. by apply untouched_writeConversions.
  - within_step; [|by within_step]. eapply within_weaken; [exact Hu|]. by apply untouched_printConversions.
  - unfold onClock. apply (within_zoom _ consoleClock (ticks K)); [done|]. apply within_applyConversions; [done| |].
    + intros ref Hr k Hk. apply HK. right. exists ref. auto.
    + intros k Hk. apply HK. by left.
Qed.

(** whatever the API server answers, the command writes nothing in the cluster but the
    Ingresses it is about, routes and policies in their namespaces, the one Gateway, and
    secrets in the namespace of the Gateway; what others write meanwhile comes on top. *)
Theorem cli_convert_isolated convertOpts (others : ObjectKey -> Prop) s : (∀ d c, changes others c (elapse d c)) →
  ticks (λ k, others k ∨ written convertOpts k) (cn_clocked s) (cn_clocked (Convert convertOpts s).2).
Proof.
  intros He. apply (within_Convert convertOpts (λ k, others k ∨ written convertOpts k)); [|by right].
  intros d c. eapply changes_weaken, He. by left.
Qed.

(** with [--dry-run] or [--output-dir] the command only reads the cluster, and does not
    wait. *)
Theorem cli_preview_reads_only convertOpts s : co_OutputDir convertOpts ≠ "" ∨ co_DryRun convertOpts = true →
  untouched s (Convert convertOpts s).2.
Proof.
  intros Ho. enough (within untouched (Convert convertOpts)) as H by apply H. unfold CLIIngress.Convert.
  within_step; [apply untouched_onCluster, within_buildIngressList|]. case_bool_decide; simpl.
  - destruct Ho as [? | ->]; [done|]. within_step; [|within_step]. apply untouched_printConversions.
  - within_step; [|within_step]. apply untouched_writeConversions.
Qed.
End isolation.

(** ** The policies of the command and of the controller *)

Section policies.
Context (opts : Options).
Implicit Types (ing : Ingress).

Lemma SecurityBuild_inj b b' : spb_Base b = spb_Base b' →
  (if SecurityIsEmpty b then None else SecurityBuild b) = (if SecurityIsEmpty b' then None else SecurityBuild b') → b = b'.
Proof.
  unfold SecurityBuild, SecurityIsEmpty. destruct b as [base c z u], b' as [base' c' z' u']. simpl. intros <-.
  destruct c, z, u, c', z', u'; simpl; congruence.
Qed.
Lemma BackendBuild_inj b b' : bpb_Base b = bpb_Base b' →
  (if BackendIsEmpty b then None else BackendBuild b) = (if BackendIsEmpty b' then None else BackendBuild b') → b = b'.
Proof.
  unfold BackendBuild, BackendIsEmpty. destruct b as [base t l c], b' as [base' t' l' c']. simpl. intros <-.
  destruct t, l, c, t', l', c'; simpl; congruence.
Qed.

Lemma option_list_inj {A} (x y : option A) : option_list x = option_list y → x = y.
Proof. destruct x, y; simpl; congruence. Qed.

Lemma policyPair s b :
  let pair := match s, b with None, None => None | _, _ => Some {| pc_securityPolicy := s; pc_backendTrafficPolicy := b |} end in
  pair ≫= pc_securityPolicy = s ∧ pair ≫= pc_backendTrafficPolicy = b.
Proof. by destruct s, b. Qed.

(** What the controller makes its policies of *)
Definition policyInputOf ing (routeName : string) : PolicyConversionInput :=
  {| pci_IngressName := om_Name (ing_Meta ing); pci_IngressNamespace := om_Namespace (ing_Meta ing); pci_RouteName := routeName;
     pci_GatewayName := opt_GatewayName opts; pci_Annotations := om_Annotations (ing_Meta ing) |}.

Lemma secBuilder_agrees ing routeName :
  secBuilder ing (policyBase (policyInputOf ing routeName)) = securityBuilder (policyInputOf ing routeName) ↔
  annotation ing AuthSecret = "" ∨ annotation ing AuthType = AuthTypeBasic.
Proof.
  unfold secBuilder, securityBuilder. cbv zeta. change (get (pci_Annotations (policyInputOf ing routeName))) with (annotation ing).
  change boolTrue with "true". match goal with |- (if _ then ?b else SetBasicAuth ?b _ _) = _ ↔ _ =>
    assert (spb_basicAuth b = None) as Hb;
    [unfold SetIPAllowlist, SetIPDenylist, add_rule; repeat case_match; done|]; generalize b Hb end.
  clear. intros b Hb. unfold SetBasicAuth. change (pci_IngressNamespace (policyInputOf ing routeName)) with (om_Namespace (ing_Meta ing)).
  do 2 case_bool_decide; [by split; [left|]|by split; [left|]|by split; [right|]|].
  split; [|by intros []]. intros E. apply (f_equal spb_basicAuth) in E. rewrite Hb in E. discriminate E.
Qed.

Lemma btpBuilder_agrees ing routeName :
  btpBuilder ing (policyBase (policyInputOf ing routeName)) = backendBuilder (policyInputOf ing routeName) ↔
  annotation ing ProxyReadTimeout ≠ "" ∨ parseDuration (annotation ing ProxySendTimeout) = "".
Proof.
  set (input := policyInputOf ing routeName).
  assert (∀ i, btpBuilder i (policyBase input) =
    {| bpb_Base := policyBase input;
       bpb_timeout := match nonempty (wanted_connect (annotation i)), nonempty (parseDuration (annotation i ProxyReadTimeout)) with
         | None, None => None | c, r => Some {| to_TCP := Some <$> c; to_HTTP := Some <$> r |} end;
       bpb_rateLimit := (λ nu, {| rl_Rules := [(to_uint32 nu.1, nu.2)] |}) <$> wanted_limit (annotation i);
       bpb_circuitBreaker := if (0 <? ParseInt (annotation i LimitConnections))%Z then Some {| cb_MaxConnections := Some (ParseInt (annotation i LimitConnections)) |} else None |}) as Hours.
  { intros i. unfold btpBuilder, wanted_limit, SetMaxConnections, SetRateLimitRPS, SetRateLimitRPM, set_rate_limit. cbv zeta.
    match goal with |- context [SetRequestTimeout] => idtac end.
    set (b2 := if bool_decide (annotation i ProxyReadTimeout = "") then _ else _).
    assert (b2 = {| bpb_Base := policyBase input; bpb_timeout := match nonempty (wanted_connect (annotation i)), nonempty (parseDuration (annotation i ProxyReadTimeout)) with
         | None, None => None | c, r => Some {| to_TCP := Some <$> c; to_HTTP := Some <$> r |} end; bpb_rateLimit := None; bpb_circuitBreaker := None |}) as ->.
    { unfold b2, SetRequestTimeout, SetConnectTimeout, with_timeout, wanted_connect, nonempty. clear.
      destruct (decide (annotation i ProxyConnectTimeout = "")) as [Hc|Hc], (decide (annotation i ProxyReadTimeout = "")) as [Hr|Hr]; rewrite ?Hc, ?Hr;
        repeat first [rewrite bool_decide_eq_true_2 by done | rewrite (bool_decide_eq_false_2 (_ = "")) by done];
        rewrite ?parseDuration_empty; repeat case_bool_decide; done. }
    clear. simpl.
    destruct (Z.ltb_spec 0 (ParseInt (annotation i LimitRPS))), (Z.ltb_spec 0 (ParseInt (annotation i LimitRPM))), (Z.ltb_spec 0 (ParseInt (annotation i LimitConnections)));
      rewrite ?(proj2 (Z.leb_gt _ _)) by lia; done. }
  rewrite Hours, backendBuilder_fields, timeoutBuilder_timeout. change (get (pci_Annotations input)) with (annotation ing).
  unfold wanted_request. set (c := nonempty (wanted_connect _)). clearbody c.
  destruct (decide (annotation ing ProxyReadTimeout = "")) as [Hr|Hr].
  - rewrite Hr, bool_decide_true, parseDuration_empty by done. unfold nonempty. rewrite bool_decide_true by done.
    split; [|intros [?| ->]; [done|by rewrite bool_decide_true]].
    intros E. right. apply (f_equal bpb_timeout) in E. simpl in E. case_bool_decide as Hs; [done|]. by destruct c.
  - rewrite bool_decide_false by done. split; [by left|done].
Qed.

(** C26: the policies that the command makes of an Ingress are those of the controller in the
    cluster exactly when a secret for basic authentication comes with the type [basic], and
    no other timeout than that for reads would set the request timeout. *)
Theorem cli_policies_agree ing routeName :
  let ours := buildPoliciesFromAnnotations ing routeName in
  let theirs := policyResultFor opts ing routeName in
  om_Annotations (ing_Meta ing) ≠ None →
  (option_list (ours ≫= pc_securityPolicy) = pcr_SecurityPolicies theirs ∧ option_list (ours ≫= pc_backendTrafficPolicy) = pcr_BackendTrafficPolicies theirs) ↔
  (annotation ing AuthSecret = "" ∨ annotation ing AuthType = AuthTypeBasic) ∧
  (annotation ing ProxyReadTimeout ≠ "" ∨ parseDuration (annotation ing ProxySendTimeout) = "").
Proof.
  cbv zeta. intros Ha. rewrite <- (secBuilder_agrees ing routeName), <- (btpBuilder_agrees ing routeName).
  unfold policyResultFor, ConvertToPolicies. fold (policyInputOf ing routeName). change (pci_Annotations (policyInputOf ing routeName)) with (om_Annotations (ing_Meta ing)).
  unfold buildPoliciesFromAnnotations. destruct (om_Annotations (ing_Meta ing)); [|done]. cbv zeta.
  change (NewPolicyBuilder _ _ _) with (policyBase (policyInputOf ing routeName)).
  unfold buildBackendTrafficPolicy, buildSecurityPolicy. cbn [pcr_SecurityPolicies pcr_BackendTrafficPolicies].
  rewrite (proj1 (policyPair _ _)), (proj2 (policyPair _ _)).
  split; [|by intros [-> ->]].
  intros [Es Eb]. split.
  - apply SecurityBuild_inj; [by rewrite secBuilder_base, securityBuilder_base|by apply option_list_inj].
  - apply BackendBuild_inj; [|by apply option_list_inj]. rewrite btpBuilder_base, backendBuilder_fields. done.
Qed.
End policies.

(** ** What is written is read back *)

Section annotations.
Implicit Types (ing : Ingress).

(** Names that a list joined with the separator keeps apart *)
Definition separable (sep : ascii) (values : list string) : Prop := Forall (λ v, v ≠ "" ∧ no_byte sep v) values.

Lemma lookup_setJoined key sep values m k :
  setJoined key sep values m !! k = if decide (k = key ∧ values ≠ []) then Some (Join values sep) else m !! k.
Proof.
  unfold setJoined. case_bool_decide as Hv; destruct (decide _) as [[-> ?]|Hk]; try done; [by rewrite lookup_insert_eq|].
  rewrite lookup_insert_ne; [done|]. intros ->. by destruct Hk.
Qed.

Lemma Join_empty values c : separable c values → Join values (String c "") = "" → values = [].
Proof.
  destruct values as [|v [|w values]]; [done| |]; intros [[Hv _] _]%Forall_cons; simpl; [done|].
  intros E. by destruct v.
Qed.

(** The annotation under a key the conversion does not set *)
Lemma annotation_withStatus ing convResult accepted key :
  annotation (withStatus ing convResult accepted) key =
  default "" (convertedAnnotations convResult accepted (entries (om_Annotations (ing_Meta ing))) !! key).
Proof. done. Qed.

Section lookups.
Context (convResult : Converter.Result) (accepted : bool) (m : StrMap).
#[local] Ltac solve_lookup :=
  unfold convertedAnnotations; cbv zeta;
  repeat (rewrite lookup_setJoined; destruct (decide (_ ∧ _)) as [[? ?]|?]; try discriminate);
  try (rewrite lookup_insert_ne by discriminate); try (by rewrite decide_True); rewrite decide_False by naive_solver; done.

Lemma lookup_convertedWarnings :
  convertedAnnotations convResult accepted m !! AnnotationConversionWarnings =
  if decide (res_Warnings convResult ≠ []) then Some (Join (res_Warnings convResult) ";") else m !! AnnotationConversionWarnings.
Proof. solve_lookup. Qed.
Lemma lookup_convertedHTTP :
  convertedAnnotations convResult accepted m !! AnnotationConvertedHTTPRoute =
  if decide (names (res_HTTPRoutes convResult) ≠ []) then Some (Join (names (res_HTTPRoutes convResult)) ",") else m !! AnnotationConvertedHTTPRoute.
Proof. solve_lookup. Qed.
Lemma lookup_convertedGRPC :
  convertedAnnotations convResult accepted m !! AnnotationConvertedGRPCRoute =
  if decide (names (res_GRPCRoutes convResult) ≠ []) then Some (Join (names (res_GRPCRoutes convResult)) ",") else m !! AnnotationConvertedGRPCRoute.
Proof. solve_lookup. Qed.
Lemma lookup_convertedStatus :
  convertedAnnotations convResult accepted m !! AnnotationConversionStatus =
  Some (if negb accepted then ConversionStatusPending else if bool_decide (res_Warnings convResult = []) then ConversionStatusConverted else ConversionStatusPartial).
Proof.
  unfold convertedAnnotations; cbv zeta. rewrite !lookup_setJoined, !decide_False by (intros [? _]; discriminate). apply lookup_insert_eq.
Qed.
End lookups.

Lemma split_converted ing convResult accepted key c values :
  separable c values →
  convertedAnnotations convResult accepted (entries (om_Annotations (ing_Meta ing))) !! key =
    (if decide (values ≠ []) then Some (Join values (String c "")) else entries (om_Annotations (ing_Meta ing)) !! key) →
  (values = [] → annotation ing key = "") →
  splitAnnotation (withStatus ing convResult accepted) key c = values.
Proof.
  intros Hs Hm He. unfold splitAnnotation. rewrite annotation_withStatus, Hm.
  destruct (decide _) as [Hv|Hv]; simpl.
  - rewrite bool_decide_false by (intros E; by apply Hv, (Join_empty _ c)). apply Split_Join; [done|]. eapply Forall_impl; [exact Hs|]. by intros ? [].
  - assert (values = []) as -> by (destruct values; [done|by destruct Hv]). rewrite bool_decide_true; [done|]. by apply He.
Qed.

(** C25: the list shows an Ingress that was converted with its status, the routes that were
    generated and the warnings, provided route names and warnings do not contain the
    separators and earlier conversions left no names or warnings where there are none now. *)
Theorem list_reads_back ing convResult accepted :
  ShouldSkip ing = false →
  separable "," (names (res_HTTPRoutes convResult)) → separable "," (names (res_GRPCRoutes convResult)) → separable ";" (res_Warnings convResult) →
  (res_HTTPRoutes convResult = [] → annotation ing AnnotationConvertedHTTPRoute = "") →
  (res_GRPCRoutes convResult = [] → annotation ing AnnotationConvertedGRPCRoute = "") →
  (res_Warnings convResult = [] → annotation ing AnnotationConversionWarnings = "") →
  let info := extractInfo (withStatus ing convResult accepted) in
  (inf_Namespace info, inf_Name info) = objKey ing ∧
  inf_HTTPRoutes info = names (res_HTTPRoutes convResult) ∧ inf_GRPCRoutes info = names (res_GRPCRoutes convResult) ∧
  inf_Warnings info = res_Warnings convResult ∧
  (inf_Status info = ConversionStatusConverted ↔ accepted = true ∧ res_Warnings convResult = []) ∧
  (inf_Status info = ConversionStatusPartial ↔ accepted = true ∧ res_Warnings convResult ≠ []) ∧
  (inf_Status info = ConversionStatusPending ↔ accepted = false).
Proof.
  intros Hskip Hh Hg Hw Eh Eg Ew. cbv zeta.
  assert (∀ key, key = AnnotationSkipConversion ∨ key = NginxCanary → annotation (withStatus ing convResult accepted) key = annotation ing key) as Hkeep.
  { intros key Hk. rewrite annotation_withStatus. unfold convertedAnnotations. cbv zeta. rewrite !lookup_setJoined.
    rewrite !decide_False by (intros [-> _]; destruct Hk; discriminate). rewrite lookup_insert_ne; [done|]. intros <-. destruct Hk; discriminate. }
  assert (ShouldSkip (withStatus ing convResult accepted) = false) as Hs.
  { rewrite <- Hskip. unfold ShouldSkip. f_equal; [f_equal|].
    - change (get (om_Annotations (ing_Meta ?i))) with (annotation i). by rewrite Hkeep by (by left).
    - change (get (om_Annotations (ing_Meta ?i))) with (annotation i). by rewrite Hkeep by (by right). }
  unfold extractInfo. rewrite Hs. cbn [inf_Namespace inf_Name inf_HTTPRoutes inf_GRPCRoutes inf_Warnings inf_Status]. split; [done|].
  split; [apply split_converted; [done|by rewrite lookup_convertedHTTP|intros E; by apply fmap_nil_inv in E; auto]|].
  split; [apply split_converted; [done|by rewrite lookup_convertedGRPC|intros E; by apply fmap_nil_inv in E; auto]|].
  split; [apply split_converted; [done|by rewrite lookup_convertedWarnings|done]|].
  change (entries (om_Annotations (ing_Meta (withStatus ing convResult accepted)))) with (convertedAnnotations convResult accepted (entries (om_Annotations (ing_Meta ing)))).
  rewrite lookup_convertedStatus. simpl. destruct accepted; simpl; [case_bool_decide|]; split_and!; naive_solver.
Qed.
End annotations.

(** ** The command and the controller in the cluster *)

Section controller.
Context (r : Options) (url_Parse : string -> result URL).
Context (MarshalHTTP : list HTTPRouteRule -> option (list N)) (MarshalGRPC : list GRPCRouteRule -> option (list N)).
Context (FormatTime : Z -> string) (ParseTime : string -> option Z) (elapse : Z -> Cluster -> Cluster).
#[local] Abbreviation Reconcile := (Reconcile r url_Parse MarshalHTTP MarshalGRPC FormatTime ParseTime elapse).

Lemma withStatus_converted ing convResult : isAlreadyConverted (withStatus ing convResult true) = true.
Proof.
  unfold isAlreadyConverted. rewrite annotation_withStatus, lookup_convertedStatus. by destruct (bool_decide (res_Warnings convResult = [])).
Qed.

(** The annotations of a stored update are those that were sent. *)
Lemma annotation_updated (old ing : Ingress) key : annotation (updated old ing) key = annotation ing key.
Proof. unfold annotation, updated, get, onWire, wireMap. simpl. destruct (om_Annotations (ing_Meta ing)) as [a|]; [|done]. simpl. case_bool_decide as Ha; [by rewrite Ha|done]. Qed.

(** an Ingress whose routes were accepted, or not waited for, belongs to the command: the
    controller drops the event of its update, and a pass over it succeeds, changes nothing
    and asks for no other. *)
Theorem cli_marks_respected (ing : Ingress) convResult s :
  cl_faults (ck_cluster s) = [] → ∀ u c, updateIngressStatus ing convResult true (ck_cluster s) = (Ret u, c) →
  Reconcile (objKey ing) {| s with ck_cluster := c |} = (Ret false, {| s with ck_cluster := c |}) ∧
  ∀ old stored, findObject Ingress c (objKey ing) = Some stored → resourceFilter r (UpdateEvent old (OIngress stored)) = false.
Proof.
  intros Hno u c Hr. assert (cl_faults c = []) as Hno'.
  { eapply changes_no_faults; [|exact Hno]. assert (within (changes (λ _, True)) (updateIngressStatus ing convResult true)) as Hw.
    { unfold updateIngressStatus. within_step; [by apply within_Update|within_step]. }
    specialize (Hw (ck_cluster s)). by rewrite Hr in Hw. }
  unfold updateIngressStatus in Hr. apply bind_Ret in Hr as (o' & c1 & Hu & [= _ <-]).
  assert (∀ stored, findObject Ingress c1 (objKey ing) = Some stored → isAlreadyConverted stored = true) as Hs.
  { intros stored Hf. apply Update_Ret in Hu as (old & _ & -> & Hc). change (objKey (withStatus ing convResult true)) with (objKey ing) in Hc.
    apply findObject_Some in Hf as [Hf _]. rewrite Hc in Hf. destruct (_ && _); [by rewrite lookup_delete_eq in Hf|].
    rewrite lookup_insert_eq in Hf. apply (f_equal (mbind (project (O:=Ingress)))) in Hf. cbn [mbind option_bind] in Hf. rewrite !project_inject in Hf. apply (inj Some) in Hf as <-.
    unfold isAlreadyConverted. rewrite !annotation_updated. apply withStatus_converted. }
  split.
  - unfold IngressToGateway.Reconcile. pose proof (Get_eval _ Hno' (O:=Ingress) (objKey ing)) as Hg. destruct (findObject Ingress c1 (objKey ing)) as [stored|] eqn:Hf.
    + rewrite (bind_eval _ _ _ _ _ (inCluster_read _ {| s with ck_cluster := c1 |} _ (try_eval _ _ _ _ Hg))). destruct (om_Deleting (ing_Meta stored)); [done|].
      unfold shouldConvert. rewrite (Hs _ eq_refl). by destruct (bool_decide _).
    + by rewrite (bind_eval _ _ _ _ _ (inCluster_read _ {| s with ck_cluster := c1 |} _ (try_Fail _ _ _ _ Hg))).
  - intros old stored Hf. simpl. unfold admits. by rewrite (Hs _ Hf).
Qed.
End controller.
