(* ===== verification/CLIPreview.v ===== *)
(** * What the command shows is what it applies

    [CLIIngress] generates the same objects in two loops, one for [--dry-run], [--output-dir]
    and [preview], one for applying. Here both are shown to follow one plan, a function of
    the cluster; and when the calls go through, every document of the preview is stored. *)

From S2P Require Import Prelude GoStrings Api GatewayApi Kube Finalizers ConvAnnotations ConvPolicies Converter ConvGateway Manager Upserts IngressToGateway CLIIngress CLIPass.
Local Open Scope go_scope.

(** ** Programs with a footprint

    A goal is about one object of the store: what is needed of it and what is left there.
    A program attains goals when, without failing calls, it returns, writes nothing else,
    and leaves each as it should be. Programs with different objects compose. *)

(** What others do to the objects meanwhile: the status of a route or Gateway may change. *)
Inductive statusOnly : option Object -> option Object -> Prop :=
| so_same x : statusOnly x x
| so_http (r : HTTPRoute) status : statusOnly (Some (OHTTPRoute r)) (Some (OHTTPRoute {| r with gr_Status := status |}))
| so_grpc (r : GRPCRoute) status : statusOnly (Some (OGRPCRoute r)) (Some (OGRPCRoute {| r with gr_Status := status |}))
| so_gateway (g : Gateway) conditions : statusOnly (Some (OGateway g)) (Some (OGateway {| g with gw_Conditions := conditions |})).

#[export] Instance statusOnly_preorder : PreOrder statusOnly.
Proof.
  split; [constructor|]. intros x y z Hxy Hyz. destruct Hyz as [y|r st|r st|g cs]; [done|..]; inversion Hxy; subst.
  - apply so_http.
  - exact (so_http r0 st).
  - apply so_grpc.
  - exact (so_grpc r0 st).
  - apply so_gateway.
  - exact (so_gateway g0 cs).
Qed.

(** Outside of the keys, nothing but such a status is different. *)
Definition drifts (keys : list ObjectKey) (c c' : Cluster) : Prop := ∀ k, k ∉ keys → statusOnly (cl_objects c !! k) (cl_objects c' !! k).

Lemma changes_drifts keys c c' : changes (λ k, k ∈ keys) c c' → drifts keys c c'.
Proof. intros Hc k Hk. rewrite (changes_frame _ _ _ Hc) by done. constructor. Qed.
#[export] Instance drifts_preorder keys : PreOrder (drifts keys).
Proof. split; [intros c k _; constructor|]. intros a b c H1 H2 k Hk. etrans; [by apply H1|by apply H2]. Qed.
Lemma drifts_weaken keys keys' c c' : (∀ k, k ∈ keys → k ∈ keys') → drifts keys c c' → drifts keys' c c'.
Proof. intros Hk Hd k Hin. apply Hd. auto. Qed.

Record goal := Goal { g_key : ObjectKey; g_needs : option Object -> Prop; g_leaves : option Object -> Prop }.

(** A goal that does not look at the status *)
Definition steady (g : goal) : Prop := ∀ x y, statusOnly x y → (g_needs g x → g_needs g y) ∧ (g_leaves g x → g_leaves g y).

Section attains.
Context {S : Type} (store : S -> Cluster).

Definition attains {A} (goals : list goal) (m : M S A) (Q : A -> Prop) : Prop := ∀ s, quiet (store s) → (∀ g, g ∈ goals → steady g) →
  (∀ g, g ∈ goals → g_needs g (cl_objects (store s) !! g_key g)) →
  ∃ a s', m s = (Ret a, s') ∧ quiet (store s') ∧ drifts (g_key <$> goals) (store s) (store s') ∧
    (∀ g, g ∈ goals → g_leaves g (cl_objects (store s') !! g_key g)) ∧ Q a.

Lemma attains_ret {A} (a : A) (Q : A -> Prop) : Q a → attains [] (mret a) Q.
Proof. intros HQ s Hq _ _. exists a, s. split_and!; try done. by intros g ?%elem_of_nil. Qed.

Lemma attains_bind {A B} goals1 goals2 (m : M S A) (k : A -> M S B) (Q1 : A -> Prop) Q2 :
  NoDup (g_key <$> goals1 ++ goals2) → attains goals1 m Q1 → (∀ a, Q1 a → attains goals2 (k a) Q2) → attains (goals1 ++ goals2) (m ≫= k) Q2.
Proof.
  intros Hd Hm Hk s Hq Hsteady Hneeds. rewrite fmap_app in Hd. apply NoDup_app in Hd as (_ & Hd & _).
  destruct (Hm s Hq) as (a & s1 & Hr & Hq1 & Hc1 & Hl1 & Ha); [intros; apply Hsteady, elem_of_app; by left|intros; apply Hneeds, elem_of_app; by left|].
  destruct (Hk a Ha s1 Hq1) as (b & s2 & Hr2 & Hq2 & Hc2 & Hl2 & Hb); [intros; apply Hsteady, elem_of_app; by right|..].
  { intros g Hg. eapply (Hsteady g); [apply elem_of_app; by right|apply Hc1|by apply Hneeds, elem_of_app; right].
    intros Hk1. apply (Hd _ Hk1). by apply list_elem_of_fmap_2. }
  exists b, s2. split_and!; [by rewrite (bind_eval _ _ _ _ _ Hr)|done| | |done].
  - etrans; [eapply drifts_weaken, Hc1|eapply drifts_weaken, Hc2]; intros k' Hk'; rewrite fmap_app; apply elem_of_app; auto.
  - intros g [Hg|Hg]%elem_of_app; [|by apply Hl2]. eapply (Hsteady g); [apply elem_of_app; by left|apply Hc2|by apply Hl1].
    intros Hk2. apply (Hd (g_key g)); [by apply list_elem_of_fmap_2|done].
Qed.

(** The invariant knows the elements before. *)
Lemma attains_foldM_prefix {A B} (goalsOf : A → list goal) (I : list A -> B -> Prop) (f : B -> A -> M S B) l pre b :
  NoDup (g_key <$> (l ≫= goalsOf)) → I pre b → (∀ pre b x, x ∈ l → I pre b → attains (goalsOf x) (f b x) (I (pre ++ [x]))) →
  attains (l ≫= goalsOf) (foldM f b l) (I (pre ++ l)).
Proof.
  revert pre b. induction l as [|x l IH]; intros pre b Hd Hb Hf; [rewrite app_nil_r; by apply attains_ret|]. simpl in *.
  apply (attains_bind _ _ _ _ (I (pre ++ [x]))); [done|by apply Hf; [left|]|]. intros b' Hb'. replace (pre ++ x :: l) with ((pre ++ [x]) ++ l) by (by rewrite <- app_assoc).
  apply IH; [|done|intros; apply Hf; [by right|done]]. rewrite fmap_app in Hd. by apply NoDup_app in Hd as (_ & _ & ?).
Qed.

Lemma attains_foldM {A B} (goalsOf : A → list goal) (I : B -> Prop) (f : B -> A -> M S B) l b :
  NoDup (g_key <$> (l ≫= goalsOf)) → I b → (∀ b x, x ∈ l → I b → attains (goalsOf x) (f b x) I) →
  attains (l ≫= goalsOf) (foldM f b l) I.
Proof. intros Hd Hb Hf. apply (attains_foldM_prefix goalsOf (λ _, I) f l []); [done|done|auto]. Qed.

Lemma attains_try {A} goals (m : M S A) Q : attains goals m Q → attains goals (try m) (λ r, ∃ a, r = inl a ∧ Q a).
Proof. intros Hm s Hq Hs Hn. destruct (Hm s Hq Hs Hn) as (a & s' & Hr & ?). exists (inl a), s'. split; [by apply try_eval|]. naive_solver. Qed.

Lemma attains_then {A B} goals (m : M S A) (k : A -> M S B) (Q1 : A -> Prop) Q2 :
  attains goals m Q1 → (∀ a, Q1 a → attains [] (k a) Q2) → attains goals (m ≫= k) Q2.
Proof.
  intros Hm Hk s Hq Hs Hn. destruct (Hm s Hq Hs Hn) as (a & s1 & Hr & Hq1 & Hc1 & Hl1 & Ha).
  destruct (Hk a Ha s1 Hq1) as (b & s2 & Hr2 & Hq2 & Hc2 & _ & Hb); [by intros g ?%elem_of_nil..|].
  exists b, s2. split_and!; [by rewrite (bind_eval _ _ _ _ _ Hr)|done| | |done].
  - etrans; [done|]. eapply drifts_weaken, Hc2. intros k' Hk'. by apply elem_of_nil in Hk'.
  - intros g Hg. eapply (Hs g Hg); [apply Hc2, not_elem_of_nil|by apply Hl1].
Qed.
End attains.

Lemma attains_inCluster {A} goals (m : M Cluster A) Q : attains id goals m Q → attains ck_cluster goals (inCluster m) Q.
Proof.
  intros Hm s Hq Hs Hn. destruct (Hm (ck_cluster s) Hq Hs Hn) as (a & c & Hr & ?). eexists a, _.
  split; [by apply inCluster_eval|done].
Qed.

(** Creating an object or updating the one that is there *)
Lemma attains_applyObject {O} `{!Resource O} merge (object : O) needs (leaves : option Object -> Prop) :
  (∀ c, leaves (Some (inject (created c object)))) →
  (∀ old, objKey old = objKey object → meta_ok (objMeta old) → needs (Some (inject old)) →
    objKey (merge old object) = objKey object ∧ (om_UID (objMeta (merge old object)) = "" ∨ om_UID (objMeta (merge old object)) = om_UID (objMeta old)) ∧
    (om_Deleting (objMeta old) = true → om_Finalizers (objMeta (merge old object)) ≠ []) ∧ leaves (Some (inject (updated old (merge old object))))) →
  attains id [Goal (storeKey O (objKey object)) needs leaves] (applyObject merge object) (λ _, True).
Proof.
  intros Hcreate Hupdate c [Hw Hno] _ Hn. specialize (Hn _ (list_elem_of_here _ _)). simpl in Hn, Hw, Hno.
  assert (∀ c' o, changes (eq (storeKey O (objKey object))) c c' → cl_faults c' = [] → findObject O c' (objKey object) = Some o → leaves (Some (inject o)) →
    quiet c' ∧ drifts [storeKey O (objKey object)] c c' ∧ (∀ g, g ∈ [Goal (storeKey O (objKey object)) needs leaves] → g_leaves g (cl_objects c' !! g_key g)) ∧ True) as Hend.
  { intros c' o Hc Hno' Hf Hl. split_and!; [by eapply quiet_changes; [exact Hc|..]| | |done].
    - eapply changes_drifts, changes_weaken, Hc. intros k <-. by left.
    - intros g [->|[]%elem_of_nil]%elem_of_cons. simpl. apply findObject_Some in Hf as [-> _]. done. }
  unfold applyObject. pose proof (Get_eval c Hno (O:=O) (objKey object)) as Hg. destruct (findObject O c (objKey object)) as [old|] eqn:Hf.
  - rewrite (bind_eval _ _ _ _ _ (try_eval _ _ _ _ Hg)). pose proof (findObject_key _ _ _ Hf) as Hk. pose proof Hf as Hl. apply findObject_Some in Hl as [Hl _]. rewrite Hl in Hn.
    destruct (Hupdate old Hk (findObject_meta _ _ _ Hw Hf) Hn) as (Hk' & Hu & Hd & Hleaves).
    destruct (Update_stored c Hno (merge old object) old) as (c' & Hr & Hc & Hno' & Hf'); [by rewrite Hk'|done|done|].
    rewrite Hk' in Hc, Hf'. exists tt, c'. split; [by rewrite (bind_eval _ _ _ _ _ Hr)|]. by eapply Hend.
  - rewrite (bind_eval _ _ _ _ _ (try_Fail _ _ _ _ Hg)). cbn [IsNotFound].
    destruct (Create_stored c Hno object Hf) as (c' & Hr & Hc & Hno' & Hf'). exists tt, c'.
    split; [|by eapply Hend]. simpl. by rewrite (bind_eval _ _ _ _ _ Hr).
Qed.

(** ** The plan *)

Section plan.
Context (opts : Options).
Context (url_Parse : string -> result URL) (MarshalHTTP : list HTTPRouteRule -> option (list N)) (MarshalGRPC : list GRPCRouteRule -> option (list N)).
Context (rangeNames : gset string -> list string).
#[local] Abbreviation convertIngress := (convertIngress opts url_Parse MarshalHTTP MarshalGRPC rangeNames).
#[local] Abbreviation convertIngresses := (convertIngresses opts url_Parse MarshalHTTP MarshalGRPC rangeNames).
#[local] Abbreviation generatePreview := (generatePreview opts url_Parse MarshalHTTP MarshalGRPC rangeNames).
#[local] Abbreviation convertOne := (convertOne opts url_Parse MarshalHTTP MarshalGRPC).

(** The Services of an Ingress that are stored *)
Definition servicesStep (c : Cluster) (services : gmap (string * string) Service) (key : NamespacedName) : gmap (string * string) Service :=
  match services !! key, findObject Service c key with
  | None, Some svc => <[key := svc]> services
  | _, _ => services
  end.
Definition servicesAt (c : Cluster) (ing : Ingress) : gmap (string * string) Service :=
  foldl (servicesStep c) ∅ ((λ name, (om_Namespace (ing_Meta ing), name)) <$> rangeNames (serviceNames ing)).

Definition planned (c : Cluster) (ref : NamespacedName) : option ingressConversion :=
  match findObject Ingress c ref with
  | Some ing =>
      if ShouldSkip ing || classFiltered opts ing then None
      else let convResult := convertOne ing (servicesAt c ing) in
           Some {| ic_ingress := ing; ic_convResult := convResult; ic_policyResult := policiesOf opts ing convResult |}
  | None => None
  end.
Definition plan (c : Cluster) (refs : list NamespacedName) : list ingressConversion := omap (planned c) refs.

Definition listenersOf (conversions : list ingressConversion) : list TLSListener := conversions ≫= λ conv, res_TLSListeners (ic_convResult conv).
Definition httpOf (conversions : list ingressConversion) : list HTTPRoute := conversions ≫= λ conv, res_HTTPRoutes (ic_convResult conv).
Definition grpcOf (conversions : list ingressConversion) : list GRPCRoute := conversions ≫= λ conv, res_GRPCRoutes (ic_convResult conv).
Definition policiesIn (conversions : list ingressConversion) : list Object := conversions ≫= λ conv, policyObjects (ic_policyResult conv).

Section eval.
Context (c : Cluster) (Hno : cl_faults c = []).

Lemma fetchServices_eval ing : fetchServices rangeNames ing c = (Ret (servicesAt c ing), c).
Proof.
  unfold fetchServices, servicesAt. generalize (∅ : gmap (string * string) Service). induction (_ <$> rangeNames _) as [|key keys IH]; intros services; [done|].
  simpl. rewrite (bind_eval _ _ c (servicesStep c services key) c); [apply IH|].
  unfold fetchService, servicesStep. destruct (services !! key) as [svc|] eqn:Hs; [by rewrite bool_decide_true|].
  rewrite bool_decide_false by (by intros []). pose proof (Get_eval c Hno (O:=Service) key) as Hg.
  destruct (findObject Service c key); [by rewrite (bind_eval _ _ _ _ _ (try_eval _ _ _ _ Hg))|by rewrite (bind_eval _ _ _ _ _ (try_Fail _ _ _ _ Hg))].
Qed.

(** The loop of the command that applies *)
Lemma convertIngresses_eval refs result : ∃ result',
  convertIngresses refs result c = (Ret (plan c refs, listenersOf (plan c refs), result'), c).
Proof.
  enough (∀ conversions listeners result, ∃ result',
    foldM convertIngress (conversions, listeners, result) refs c = (Ret (conversions ++ plan c refs, listeners ++ listenersOf (plan c refs), result'), c)) as H by apply (H [] []).
  clear result. induction refs as [|ref refs IH]; intros conversions listeners result; [exists result; simpl; by rewrite !app_nil_r|].
  assert (∃ result', convertIngress (conversions, listeners, result) ref c =
    (Ret (conversions ++ option_list (planned c ref), listeners ++ listenersOf (option_list (planned c ref)), result'), c)) as [result' Hr].
  { unfold CLIIngress.convertIngress, planned. pose proof (Get_eval c Hno (O:=Ingress) ref) as Hg. destruct (findObject Ingress c ref) as [ing|].
    - rewrite (bind_eval _ _ _ _ _ (try_eval _ _ _ _ Hg)). destruct (_ || _); [eexists; simpl; by rewrite !app_nil_r|].
      rewrite (bind_eval _ _ _ _ _ (fetchServices_eval ing)). eexists. simpl. by rewrite app_nil_r.
    - rewrite (bind_eval _ _ _ _ _ (try_Fail _ _ _ _ Hg)). eexists. simpl. by rewrite !app_nil_r. }
  simpl. rewrite (bind_eval _ _ _ _ _ Hr). destruct (IH (conversions ++ option_list (planned c ref)) (listeners ++ listenersOf (option_list (planned c ref))) result') as [result'' ->].
  exists result''. unfold listenersOf. destruct (planned c ref) as [conv|]; simpl; by rewrite ?app_nil_r, <- ?app_assoc.
Qed.

(** The loop of the command that shows *)
Record shows (refs : list NamespacedName) (output : previewOutput) : Prop := {
  shows_http : po_HTTPRoutes output = httpOf (plan c refs);
  shows_grpc : po_GRPCRoutes output = grpcOf (plan c refs);
  shows_policies : po_Policies output = policiesIn (plan c refs);
  shows_converted : po_Converted output = convKey <$> plan c refs;
}.

Lemma generatePreview_eval refs : ∃ output, generatePreview refs c = (Ret output, c) ∧ shows refs output ∧
  po_Gateway output =
    if bool_decide (listenersOf (plan c refs) = []) && bool_decide (httpOf (plan c refs) = []) && bool_decide (grpcOf (plan c refs) = []) then None
    else Some (BuildGateway (gatewayConfig opts (listenersOf (plan c refs)))).
Proof.
  assert (∃ output, foldM (previewIngress opts url_Parse MarshalHTTP MarshalGRPC rangeNames) (emptyPreview, []) refs c = (Ret (output, listenersOf (plan c refs)), c) ∧
    shows refs output ∧ po_Gateway output = None) as (output & Hr & [Hh Hg Hp Hc] & Hgw).
  { enough (∀ output0 listeners, po_Gateway output0 = None → ∃ output,
      foldM (previewIngress opts url_Parse MarshalHTTP MarshalGRPC rangeNames) (output0, listeners) refs c = (Ret (output, listeners ++ listenersOf (plan c refs)), c) ∧
      po_HTTPRoutes output = po_HTTPRoutes output0 ++ httpOf (plan c refs) ∧ po_GRPCRoutes output = po_GRPCRoutes output0 ++ grpcOf (plan c refs) ∧
      po_Policies output = po_Policies output0 ++ policiesIn (plan c refs) ∧ po_Converted output = po_Converted output0 ++ (convKey <$> plan c refs) ∧ po_Gateway output = None) as H.
    { destruct (H emptyPreview [] eq_refl) as (output & Hr & ? & ? & ? & ? & ?). by exists output. }
    induction refs as [|ref refs IH]; intros output0 listeners Hn; [exists output0; simpl; by rewrite !app_nil_r|].
    assert (∃ output1, previewIngress opts url_Parse MarshalHTTP MarshalGRPC rangeNames (output0, listeners) ref c =
        (Ret (output1, listeners ++ listenersOf (option_list (planned c ref))), c) ∧
      po_HTTPRoutes output1 = po_HTTPRoutes output0 ++ httpOf (option_list (planned c ref)) ∧ po_GRPCRoutes output1 = po_GRPCRoutes output0 ++ grpcOf (option_list (planned c ref)) ∧
      po_Policies output1 = po_Policies output0 ++ policiesIn (option_list (planned c ref)) ∧
      po_Converted output1 = po_Converted output0 ++ (convKey <$> option_list (planned c ref)) ∧ po_Gateway output1 = None) as (output1 & Hr & Hh & Hg & Hp & Hc & Hn1).
    { unfold previewIngress, planned. pose proof (Get_eval c Hno (O:=Ingress) ref) as Hg. destruct (findObject Ingress c ref) as [ing|] eqn:Hf.
      - rewrite (bind_eval _ _ _ _ _ (try_eval _ _ _ _ Hg)). destruct (ShouldSkip ing); [eexists; simpl; by rewrite !app_nil_r|].
        destruct (classFiltered opts ing); [eexists; simpl; by rewrite !app_nil_r|].
        rewrite (bind_eval _ _ _ _ _ (fetchServices_eval ing)). eexists. simpl. rewrite !app_nil_r. unfold convKey. simpl. by rewrite (findObject_key _ _ _ Hf).
      - rewrite (bind_eval _ _ _ _ _ (try_Fail _ _ _ _ Hg)). eexists. simpl. by rewrite !app_nil_r. }
    simpl. rewrite (bind_eval _ _ _ _ _ Hr).
    destruct (IH output1 (listeners ++ listenersOf (option_list (planned c ref))) Hn1) as (output & -> & Hh2 & Hg2 & Hp2 & Hc2 & Hn2).
    exists output. rewrite Hh2, Hh, Hg2, Hg, Hp2, Hp, Hc2, Hc. unfold listenersOf, httpOf, grpcOf, policiesIn.
    destruct (planned c ref) as [conv|]; simpl; by rewrite ?app_nil_r, <- ?app_assoc. }
  unfold CLIIngress.generatePreview. rewrite (bind_eval _ _ _ _ _ Hr). cbv beta iota. rewrite Hh, Hg.
  destruct (_ && _) eqn:Hempty; eexists; (split; [done|]; split; [by split|done]).
Qed.
End eval.
End plan.

(** ** Applying a conversion *)

(** A route is stored with what was generated, marked as the command's. *)
Definition routeApplied {Rule} `{!Resource (GatewayRoute Rule)} (route : GatewayRoute Rule) (x : option Object) : Prop := ∃ o : GatewayRoute Rule,
  x = Some (inject o) ∧ gr_ParentRefs o = gr_ParentRefs route ∧ gr_Hostnames o = gr_Hostnames route ∧ gr_Rules o = gr_Rules route ∧
  entries (om_Labels (gr_Meta o)) = <[LabelManagedBy := managedByValue]> (entries (om_Labels (gr_Meta route))).

Definition storedLike {O} `{!Resource O} (wanted : O) (x : option Object) : Prop := ∃ o, x = Some (inject o) ∧ storedAs wanted o.

(** A document of the preview has been applied. *)
Definition applied (doc : Object) (x : option Object) : Prop :=
  match doc with
  | OHTTPRoute route => routeApplied route x
  | OGRPCRoute route => routeApplied route x
  | OSecurityPolicy policy => storedLike policy x
  | OBackendTrafficPolicy policy => storedLike policy x
  | OGateway gw => ∃ o : Gateway, x = Some (inject o) ∧ ∀ l, l ∈ gw_Listeners gw → l ∈ gw_Listeners o
  | _ => False
  end.

Definition notDeleting (x : option Object) : Prop := ∀ o, x = Some o → om_Deleting (metaOf o) = false.

#[export] Instance notDeleting_dec x : Decision (notDeleting x).
Proof.
  refine (match x with Some o => if decide (om_Deleting (metaOf o) = false) then left _ else right _ | None => left _ end); [by intros ? [= <-]|by intros H; specialize (H _ eq_refl)|done].
Defined.

Definition docGoal (doc : Object) : goal := Goal (keyOf doc) notDeleting (applied doc).
Definition docsOf (conv : ingressConversion) : list Object :=
  (inject <$> res_HTTPRoutes (ic_convResult conv)) ++ (inject <$> res_GRPCRoutes (ic_convResult conv)) ++ policyObjects (ic_policyResult conv).
(** The Ingress is marked as converted, or as pending when the command polled and did not see
    its routes accepted. *)
Definition marked (skipPolling : bool) (conv : ingressConversion) (x : option Object) : Prop := ∃ accepted,
  (skipPolling = true → accepted = true) ∧ storedLike (withStatus (ic_ingress conv) (ic_convResult conv) accepted) x.
Definition ingressGoal (skipPolling : bool) (conv : ingressConversion) : goal :=
  Goal (storeKey Ingress (objKey (ic_ingress conv))) (eq (Some (OIngress (ic_ingress conv)))) (marked skipPolling conv).
Definition goalsOf (skipPolling : bool) (conv : ingressConversion) : list goal := (docGoal <$> docsOf conv) ++ [ingressGoal skipPolling conv].

Lemma statusOnly_kept x y : statusOnly x y → (metaOf <$> x) = (metaOf <$> y) ∧
  (x = y ∨ (∃ o, x = Some o ∧ kindOf o ∈ ["HTTPRoute"; "GRPCRoute"; "Gateway"])).
Proof. intros [x'|r st|r st|g cs]; (split; [done|]); [by left|..]; right; eexists; (split; [done|]); by apply (bool_decide_unpack _). Qed.

Lemma storedLike_steady {O} `{!Resource O} (wanted : O) x y : resKind O ∉ ["HTTPRoute"; "GRPCRoute"; "Gateway"] →
  statusOnly x y → storedLike wanted x → storedLike wanted y.
Proof.
  intros Hkind [_ [->|(o' & -> & Ho)]]%statusOnly_kept; [done|]. intros (o & [= ->] & _). by rewrite kindOf_inject in Ho.
Qed.

Lemma routeApplied_http (route : HTTPRoute) x y : statusOnly x y → routeApplied route x → routeApplied route y.
Proof. intros Hxy (o & -> & Ho). inversion Hxy; subst; [by exists o|]. by exists {| o with gr_Status := status |}. Qed.
Lemma routeApplied_grpc (route : GRPCRoute) x y : statusOnly x y → routeApplied route x → routeApplied route y.
Proof. intros Hxy (o & -> & Ho). inversion Hxy; subst; [by exists o|]. by exists {| o with gr_Status := status |}. Qed.

Lemma applied_steady doc x y : statusOnly x y → applied doc x → applied doc y.
Proof.
  intros Hxy. destruct doc; simpl; try done; [by apply routeApplied_http|by apply routeApplied_grpc|..].
  - intros (gw & -> & Hl). inversion Hxy; subst; [by exists gw|]. by exists {| gw with gw_Conditions := conditions |}.
  - apply storedLike_steady; [|done]. by apply (bool_decide_unpack _).
  - apply storedLike_steady; [|done]. by apply (bool_decide_unpack _).
Qed.

Lemma goalsOf_steady skipPolling conv g : g ∈ goalsOf skipPolling conv → steady g.
Proof.
  intros [(doc & -> & Hdoc)%list_elem_of_fmap| ->%list_elem_of_singleton]%elem_of_app x y Hxy; split; simpl.
  - intros Hn o ->. apply statusOnly_kept in Hxy as [Hm _]. destruct x as [x|]; [|done]. injection Hm as <-. by apply Hn.
  - by apply applied_steady.
  - intros <-. by inversion Hxy.
  - intros (accepted & Ha & Hs). exists accepted. split; [done|]. eapply storedLike_steady; [|done|done]. by apply (bool_decide_unpack _).
Qed.

Lemma entries_managed {Rule} (route : GatewayRoute Rule) :
  entries (om_Labels (gr_Meta (managed route))) = <[LabelManagedBy := managedByValue]> (entries (om_Labels (gr_Meta route))).
Proof. done. Qed.

Lemma attains_http (route : HTTPRoute) : attains id [docGoal (OHTTPRoute route)] (applyHTTPRoute (managed route)) (λ _, True).
Proof.
  refine (attains_applyObject keepAnnotations (managed route) notDeleting (applied (OHTTPRoute route)) _ _).
  - intros c. eexists. split; [done|]. split_and!; try done. apply (entries_wireMap (om_Labels (gr_Meta (managed route)))).
  - intros old Hk [Hd _] _. split_and!; [done|by right|done|]. eexists. split; [done|]. split_and!; try done.
    apply (entries_wireMap (om_Labels (gr_Meta (managed route)))).
Qed.
Lemma attains_grpc (route : GRPCRoute) : attains id [docGoal (OGRPCRoute route)] (applyGRPCRoute (managed route)) (λ _, True).
Proof.
  refine (attains_applyObject keepAnnotations (managed route) notDeleting (applied (OGRPCRoute route)) _ _).
  - intros c. eexists. split; [done|]. split_and!; try done. apply (entries_wireMap (om_Labels (gr_Meta (managed route)))).
  - intros old Hk [Hd _] _. split_and!; [done|by right|done|]. eexists. split; [done|]. split_and!; try done.
    apply (entries_wireMap (om_Labels (gr_Meta (managed route)))).
Qed.

Lemma attains_policy {O} `{!Resource O} (policy : O) leaves : om_UID (objMeta policy) = "" → (∀ x, storedLike policy x → leaves x) →
  attains id [Goal (storeKey O (objKey policy)) notDeleting leaves] (applyPolicy policy) (λ _, True).
Proof.
  intros Hu Hl. apply (attains_applyObject (λ _ policy, policy) policy notDeleting leaves).
  - intros c. apply Hl. eexists. split; [done|apply storedAs_created].
  - intros old Hk _ Hn. split_and!; [done|by left| |].
    + specialize (Hn _ eq_refl). rewrite metaOf_inject in Hn. by rewrite Hn.
    + apply Hl. eexists. split; [done|apply storedAs_updated].
Qed.

Lemma attains_applyRoute {O} `{!Resource O} what (apply : O -> M Cluster unit) key result (route : O) g :
  attains id [g] (apply route) (λ _, True) → attains id [g] (applyRoute what apply key result route) (eq result).
Proof.
  intros Ha. unfold applyRoute. eapply attains_then; [by apply attains_try|]. intros r (u & -> & _). by apply attains_ret.
Qed.

Lemma foldM_fmap {S A B C} (f : B -> C -> M S B) (h : A -> C) b l s : foldM f b (h <$> l) s = foldM (λ b x, f b (h x)) b l s.
Proof.
  revert b s. induction l as [|x l IH]; intros b s; [done|]. simpl. unfold mbind, M_bind. destruct (f b (h x) s) as [[a|e| |] s1]; [apply IH|done..].
Qed.

(** The policies of an Ingress are new objects. *)
Definition freshPolicies (policyResult : option policyConversionResult) : Prop :=
  ∀ x, x ∈ policyObjects policyResult → om_UID (metaOf x) = "".

Lemma policiesOf_fresh opts ing convResult : freshPolicies (policiesOf opts ing convResult).
Proof.
  intros x. unfold policiesOf. destruct (res_HTTPRoutes convResult); [by intros ?%elem_of_nil|]. destruct (opt_DisableEnvoyGatewayFeatures opts); [by intros ?%elem_of_nil|].
  unfold buildPoliciesFromAnnotations. destruct (om_Annotations (ing_Meta ing)); [|by intros ?%elem_of_nil]. cbv zeta. unfold SecurityBuild, BackendBuild.
  destruct (SecurityIsEmpty _), (BackendIsEmpty _); simpl; rewrite ?elem_of_cons; [by intros ?%elem_of_nil|..].
  - by intros [-> | []%elem_of_nil].
  - by intros [-> | []%elem_of_nil].
  - by intros [-> | [-> | []%elem_of_nil]].
Qed.

Lemma attains_applyPolicies policyResult : NoDup (g_key <$> (docGoal <$> policyObjects policyResult)) → freshPolicies policyResult →
  attains id (docGoal <$> policyObjects policyResult) (applyPolicies policyResult) (λ _, True).
Proof.
  intros Hd Hf. unfold applyPolicies. destruct policyResult as [[security backend]|]; [|by apply attains_ret]. simpl in *. rewrite fmap_app.
  apply (attains_bind _ _ _ _ _ (λ _, True)); [by rewrite <- fmap_app| |intros _ _].
  - destruct security as [policy|]; [|by apply attains_ret]. eapply attains_then; [apply attains_try|intros; by apply attains_ret].
    refine (attains_policy policy (applied (OSecurityPolicy policy)) _ _); [|done]. apply (Hf (OSecurityPolicy policy)). by left.
  - destruct backend as [policy|]; [|by apply attains_ret]. eapply attains_then; [apply attains_try|intros; by apply attains_ret].
    refine (attains_policy policy (applied (OBackendTrafficPolicy policy)) _ _); [|done]. apply (Hf (OBackendTrafficPolicy policy)). apply elem_of_app. right. by left.
Qed.

(** While the command waits for its routes, others only change statuses. *)
Definition calmly (elapse : Z -> Cluster -> Cluster) : Prop := ∀ d c, quiet c → quiet (elapse d c) ∧ drifts [] c (elapse d c).

(** Applying a conversion leaves its routes and policies and marks the Ingress. *)
Section conversion.
Context (elapse : Z -> Cluster -> Cluster) (calm : calmly elapse) (skipPolling : bool).
#[local] Abbreviation goalsOf := (goalsOf skipPolling).
#[local] Abbreviation ingressGoal := (ingressGoal skipPolling).

Lemma fmap_as_bind {A B} (f : A -> B) (l : list A) : f <$> l = l ≫= λ x, [f x].
Proof. induction l as [|x l IH]; [done|]. change (f x :: (f <$> l) = f x :: (l ≫= λ x, [f x])). by rewrite IH. Qed.

Lemma attains_applyRoutes conv key result : NoDup (g_key <$> (docGoal <$> (inject <$> res_HTTPRoutes (ic_convResult conv)) ++ (inject <$> res_GRPCRoutes (ic_convResult conv)))) →
  attains id ((docGoal <$> (inject <$> res_HTTPRoutes (ic_convResult conv))) ++ (docGoal <$> (inject <$> res_GRPCRoutes (ic_convResult conv)))) (applyRoutes conv key result) (eq result).
Proof.
  rewrite fmap_app. intros Hd. unfold applyRoutes.
  pose proof @fmap_as_bind as Hb.
  apply (attains_bind _ _ _ _ _ (eq result)); [done| |intros _ <-].
  - intros s. rewrite foldM_fmap, <- list_fmap_compose, Hb. revert s. apply attains_foldM; [|done|].
    { rewrite <- Hb, list_fmap_compose. rewrite fmap_app in Hd. by apply NoDup_app in Hd as (? & _). }
    intros b route _ <-. apply attains_applyRoute, attains_http.
  - intros s. rewrite foldM_fmap, <- list_fmap_compose, Hb. revert s. apply attains_foldM; [|done|].
    { rewrite <- Hb, list_fmap_compose. rewrite fmap_app in Hd. by apply NoDup_app in Hd as (_ & _ & ?). }
    intros b route _ <-. apply attains_applyRoute, attains_grpc.
Qed.

(** Waiting for the routes ends, and leaves the objects of the command alone. *)
Definition waits (s s' : Clocked) : Prop := quiet (ck_cluster s) → quiet (ck_cluster s') ∧ drifts [] (ck_cluster s) (ck_cluster s').
#[local] Instance waits_preorder : PreOrder waits.
Proof.
  split; [by intros s Hq|]. intros a b c H1 H2 Hq. destruct (H1 Hq) as [Q1 D1]. destruct (H2 Q1) as [Q2 D2]. split; [done|by etrans].
Qed.

Lemma waits_check convResult : within waits (inCluster (checkRoutes convResult)).
Proof.
  intros s Hq. assert (within (changes nothing) (checkRoutes convResult)) as Hw by (unfold checkRoutes, checkRoute; within_solve).
  specialize (Hw (ck_cluster s)). unfold inCluster, zoom. simpl. destruct (checkRoutes convResult (ck_cluster s)) as [r c']. simpl in *.
  split; [destruct Hq; split; [by apply (changes_wf _ _ _ Hw)|by eapply changes_no_faults]|]. apply changes_drifts. eapply changes_weaken, Hw. by intros k [].
Qed.

Lemma waits_poll convResult : within waits (pollRouteAcceptance elapse convResult).
Proof.
  unfold pollRouteAcceptance. destruct (_ && _); [apply within_ret, _|]. apply within_bind; [apply _|by intros s Hq|intros now].
  generalize pollFuel. intros fuel. induction fuel as [|fuel IH]; simpl; [by intros s Hq|].
  apply within_bind; [apply _|intros s Hq; by apply calm|intros _]. apply within_bind; [apply _|by intros s Hq|intros now'].
  destruct (_ <? _)%Z; [apply within_ret, _|]. apply within_bind; [apply _|apply waits_check|]. intros [|]; [apply within_ret, _|exact IH].
Qed.

Lemma attains_accepted convResult : attains ck_cluster [] (if skipPolling then mret true else pollRouteAcceptance elapse convResult)
  (λ accepted, skipPolling = true → accepted = true).
Proof.
  destruct skipPolling; [by apply attains_ret|]. intros s Hq _ _.
  destruct (pollRouteAcceptance_ends elapse convResult s) as (accepted & s' & Hr & _). pose proof (waits_poll convResult s) as Hw.
  rewrite Hr in Hw. destruct (Hw Hq) as [Hq' Hd]. exists accepted, s'. split_and!; try done. by intros g ?%elem_of_nil.
Qed.

Lemma attains_ingress conv accepted : (skipPolling = true → accepted = true) →
  attains id [ingressGoal conv] (updateIngressStatus (ic_ingress conv) (ic_convResult conv) accepted) (λ _, True).
Proof.
  intros Ha c [Hw Hno] _ Hn. simpl in Hw, Hno. specialize (Hn _ (list_elem_of_here _ _)). simpl in Hn.
  set (ing := ic_ingress conv) in *. set (o := withStatus ing (ic_convResult conv) accepted).
  assert (findObject Ingress c (objKey o) = Some ing) as Hf by (by apply findObject_Some).
  destruct (Update_stored c Hno o ing Hf) as (c' & Hr & Hc & Hno' & Hf'); [by right|by apply (findObject_meta _ _ _ Hw Hf)|].
  exists tt, c'. unfold updateIngressStatus. fold o. rewrite (bind_eval _ _ _ _ _ Hr). split_and!; [done|by eapply quiet_changes; [exact Hc|..]| | |done].
  - eapply changes_drifts, changes_weaken, Hc. intros k <-. by left.
  - intros g [->|[]%elem_of_nil]%elem_of_cons. simpl. apply findObject_Some in Hf' as [Hf' _]. exists accepted. split; [done|].
    change (objKey ing) with (objKey o). eexists. split; [exact Hf'|apply storedAs_updated].
Qed.

Lemma goalsOf_parts conv : goalsOf conv =
  ((docGoal <$> (inject <$> res_HTTPRoutes (ic_convResult conv))) ++ (docGoal <$> (inject <$> res_GRPCRoutes (ic_convResult conv)))) ++
  (docGoal <$> policyObjects (ic_policyResult conv)) ++ [ingressGoal conv].
Proof. unfold goalsOf, docsOf. by rewrite !fmap_app, <- !app_assoc. Qed.

Lemma attains_applyConversionOf result conv : NoDup (g_key <$> goalsOf conv) → freshPolicies (ic_policyResult conv) → convKey conv ∉ failedKeys result →
  attains ck_cluster (goalsOf conv) (applyConversionOf elapse skipPolling result conv)
    (eq {| result with cr_Converted := cr_Converted result ++ [convKey conv] |}).
Proof.
  intros Hd Hfresh Hk. unfold applyConversionOf. cbv zeta. fold (convKey conv). rewrite goalsOf_parts in *.
  apply (attains_bind _ _ _ _ _ (eq result)); [done| |intros _ <-].
  { apply attains_inCluster, attains_applyRoutes. rewrite fmap_app. rewrite fmap_app in Hd. by apply NoDup_app in Hd as (? & _). }
  rewrite fmap_app in Hd. apply NoDup_app in Hd as (_ & _ & Hd). apply (attains_bind _ _ _ _ _ (λ _, True)); [done| |intros _ _].
  { apply attains_inCluster, attains_applyPolicies; [|done]. rewrite fmap_app in Hd. by apply NoDup_app in Hd as (? & _). }
  apply (attains_bind _ [] _ _ _ (λ accepted, skipPolling = true → accepted = true)); [apply NoDup_singleton|apply attains_accepted|intros accepted Ha].
  eapply attains_then; [by apply attains_inCluster, attains_try, attains_ingress|]. intros r (u & -> & _). apply attains_ret.
  rewrite bool_decide_false; [done|]. rewrite (failedKeys_fresh _ _ Hk). by intros [].
Qed.
End conversion.

(** ** The Gateway *)

Section gateway.
Context (opts : Options).

Definition gatewayReady (c : Cluster) (listeners : list TLSListener) : Prop :=
  is_Some (findObject Namespace c ("", opt_GatewayNamespace opts)) ∧
  (∀ gw, findObject Gateway c (gatewayKey opts) = Some gw → NoDup (ls_Name <$> gw_Listeners gw)) ∧
  NoDup (ls_Name <$> BuildListeners listeners).

Lemma gateway_quiet c c' : quiet c → changes (ofGateway opts) c c' → quiet c'.
Proof. intros [Hw Hno] Hc. split; [by apply (changes_wf _ _ _ Hc)|by eapply changes_no_faults]. Qed.

Lemma applyGateway_lands c listeners : quiet c → gatewayReady c listeners →
  ∃ r c', applyGateway opts listeners c = (Ret r, c') ∧ changes (ofGateway opts) c c' ∧
    ∃ o, findObject Gateway c' (gatewayKey opts) = Some o ∧ ∀ l, l ∈ BuildListeners listeners → l ∈ gw_Listeners o.
Proof.
  intros [Hw Hno] ([ns Hns] & He & Hd). pose proof (within_putGateway opts (ofGateway opts) listeners ltac:(done) c) as Hc.
  unfold applyGateway in *. pose proof (Get_eval c Hno (O:=Namespace) ("", opt_GatewayNamespace opts)) as Hg. rewrite Hns in Hg.
  rewrite (bind_eval _ _ _ _ _ (try_eval _ _ _ _ Hg)) in *. cbv zeta in *. set (desired := BuildGateway _) in *.
  pose proof (Get_eval c Hno (O:=Gateway) (gatewayKey opts)) as Hgw. destruct (findObject Gateway c (gatewayKey opts)) as [existing|] eqn:Hf.
  - rewrite (bind_eval _ _ _ _ _ (try_eval _ _ _ _ Hgw)) in *. set (merged := {| existing with gw_Listeners := _; gw_Meta := _ |}) in *.
    pose proof (findObject_key _ _ _ Hf) as Hk. assert (objKey merged = gatewayKey opts) as Hk' by done.
    destruct (Update_stored c Hno merged existing) as (c' & Hr & _ & _ & Hf'); [by rewrite Hk'|by right|by apply (findObject_meta _ _ _ Hw Hf)|].
    rewrite (bind_eval _ _ _ _ _ (wrap_eval _ _ _ _ _ Hr)) in *. eexists _, c'. split; [done|]. split; [done|]. eexists. rewrite <- Hk'. split; [done|].
    intros l Hl. simpl. rewrite MergeListeners_merged by auto. by apply elem_of_merged_desired.
  - rewrite (bind_eval _ _ _ _ _ (try_Fail _ _ _ _ Hgw)) in *. cbn [IsNotFound notFound] in *.
    destruct (Create_stored c Hno desired) as (c' & Hr & _ & _ & Hf'); [done|]. simpl in *.
    rewrite (bind_eval _ _ _ _ _ (wrap_eval _ _ _ _ _ Hr)) in *. eexists _, c'. split; [done|]. split; [done|]. by eexists.
Qed.

Lemma returns_copyTLSSecrets listeners ns : returns (copyTLSSecrets listeners ns).
Proof. unfold copyTLSSecrets, CopyTLSSecretWithManagedBy. ends_solve. Qed.

Lemma applyGatewayAndSecrets_lands c listeners result : quiet c → gatewayReady c listeners →
  ∃ r c', applyGatewayAndSecrets opts listeners result c = (Ret r, c') ∧ changes (ofGateway opts) c c' ∧
    ∃ o, findObject Gateway c' (gatewayKey opts) = Some o ∧ ∀ l, l ∈ BuildListeners listeners → l ∈ gw_Listeners o.
Proof.
  intros Hq Hready. destruct (applyGateway_lands c listeners Hq Hready) as ([gw created] & c1 & Hr & Hc1 & o & Hf & Hl).
  unfold applyGatewayAndSecrets. rewrite (bind_eval _ _ _ _ _ (wrap_eval _ _ _ _ _ Hr)). cbv beta iota. unfold when.
  destruct (opt_CopyTLSSecrets opts); [|by eexists _, c1; split; [|split; [|exists o]]].
  destruct (returns_copyTLSSecrets listeners (opt_GatewayNamespace opts) c1) as ([] & c2 & Hr2). rewrite (bind_eval _ _ _ _ _ Hr2).
  pose proof (within_copyTLSSecrets opts (λ k, ∃ name, k = storeKey Secret (opt_GatewayNamespace opts, name)) listeners ltac:(by eexists) c1) as Hc2.
  rewrite Hr2 in Hc2. simpl in Hc2. eexists _, c2. split; [done|]. split.
  - etrans; [done|]. eapply changes_weaken, Hc2. intros k Hk. by right.
  - exists o. split; [|done]. rewrite (findObject_frame _ _ _ _ Hc2); [done|]. intros [name Hn]. discriminate (f_equal fst Hn).
Qed.
End gateway.

(** ** Every document of the preview is applied *)

Section preview.
Context (opts : Options).
Context (url_Parse : string -> result URL) (MarshalHTTP : list HTTPRouteRule -> option (list N)) (MarshalGRPC : list GRPCRouteRule -> option (list N)).
Context (elapse : Z -> Cluster -> Cluster) (rangeNames : gset string -> list string) (skipPolling : bool).
#[local] Abbreviation goalsOf := (goalsOf skipPolling).
#[local] Abbreviation plan := (plan opts url_Parse MarshalHTTP MarshalGRPC rangeNames).
#[local] Abbreviation applyConversions := (applyConversions opts url_Parse MarshalHTTP MarshalGRPC elapse rangeNames).
#[local] Abbreviation generatePreview := (generatePreview opts url_Parse MarshalHTTP MarshalGRPC rangeNames).

Lemma plan_elem c refs conv : conv ∈ plan c refs → ∃ ref, ref ∈ refs ∧ findObject Ingress c ref = Some (ic_ingress conv) ∧
  objKey (ic_ingress conv) = ref ∧ freshPolicies (ic_policyResult conv).
Proof.
  intros (ref & Hr & Hp)%list_elem_of_omap. exists ref. unfold planned in Hp. destruct (findObject Ingress c ref) as [ing|] eqn:Hf; [|done].
  destruct (_ || _); [done|]. injection Hp as <-. split_and!; [done|done|by eapply findObject_key|apply policiesOf_fresh].
Qed.

(** The documents by their conversions *)
Lemma shown_docs c refs output gw : shows opts url_Parse MarshalHTTP MarshalGRPC rangeNames c refs output → po_Gateway output = gw →
  ∀ x, x ∈ (documents output).*2 → (∃ g, gw = Some g ∧ x = OGateway g) ∨ ∃ conv, conv ∈ plan c refs ∧ x ∈ docsOf conv.
Proof.
  intros [Hh Hg Hp _] Hgw x. unfold documents. rewrite Hh, Hg, Hp, Hgw, !fmap_app, !elem_of_app, <- !list_fmap_compose.
  intros [Hx|[Hx|[Hx|Hx]]]; apply list_elem_of_fmap in Hx as (y & -> & Hy); [left|right..].
  - destruct gw as [g|]; [|by apply elem_of_nil in Hy]. apply list_elem_of_singleton in Hy as ->. by exists g.
  - apply list_elem_of_bind in Hy as (conv & Hy & Hc). exists conv. split; [done|]. unfold docsOf. rewrite !elem_of_app. left. by apply list_elem_of_fmap_2.
  - apply list_elem_of_bind in Hy as (conv & Hy & Hc). exists conv. split; [done|]. unfold docsOf. rewrite !elem_of_app. right; left. by apply list_elem_of_fmap_2.
  - apply list_elem_of_bind in Hy as (conv & Hy & Hc). exists conv. split; [done|]. unfold docsOf. rewrite !elem_of_app. by right; right.
Qed.

Lemma bind_app_Permutation {A B} (f g : A -> list B) l : l ≫= (λ x, f x ++ g x) ≡ₚ (l ≫= f) ++ (l ≫= g).
Proof. induction l as [|x l IH]; [done|]. simpl. rewrite IH. solve_Permutation. Qed.
Lemma bind_fmap_list {A B C} (f : A -> list B) (h : B -> C) l : h <$> (l ≫= f) = l ≫= λ x, h <$> f x.
Proof. induction l as [|x l IH]; [done|]. csimpl. by rewrite fmap_app, IH. Qed.

Lemma docs_keys c refs output : shows opts url_Parse MarshalHTTP MarshalGRPC rangeNames c refs output →
  keyOf <$> (plan c refs ≫= docsOf) ⊆+ keyOf <$> (documents output).*2.
Proof.
  intros [Hh Hg Hp _]. unfold documents. rewrite Hh, Hg, Hp, !fmap_app, <- !list_fmap_compose.
  apply submseteq_inserts_l. unfold docsOf. rewrite !bind_app_Permutation, !fmap_app. unfold httpOf, grpcOf, policiesIn. rewrite !bind_fmap_list.
  apply submseteq_app; [|apply submseteq_app].
  all: apply Permutation_submseteq, Permutation_refl', list_bind_ext; [intros conv|done]; by rewrite <- ?list_fmap_compose.
Qed.

Lemma kind_of_docs conv x : x ∈ docsOf conv → kindOf x ∈ ["HTTPRoute"; "GRPCRoute"; "SecurityPolicy"; "BackendTrafficPolicy"].
Proof.
  unfold docsOf. rewrite !elem_of_app. intros [(y & -> & _)%list_elem_of_fmap|[(y & -> & _)%list_elem_of_fmap|Hx]]; [by apply (bool_decide_unpack _)..|].
  destruct (ic_policyResult conv) as [[security backend]|]; [|by apply elem_of_nil in Hx]. simpl in Hx. apply elem_of_app in Hx as [Hx|Hx].
  - destruct security; [|by apply elem_of_nil in Hx]. apply list_elem_of_singleton in Hx as ->. by apply (bool_decide_unpack _).
  - destruct backend; [|by apply elem_of_nil in Hx]. apply list_elem_of_singleton in Hx as ->. by apply (bool_decide_unpack _).
Qed.

Lemma goal_keys conversions : g_key <$> (conversions ≫= goalsOf) ≡ₚ (keyOf <$> (conversions ≫= docsOf)) ++ ((λ conv, storeKey Ingress (objKey (ic_ingress conv))) <$> conversions).
Proof.
  unfold goalsOf. rewrite bind_app_Permutation, fmap_app. apply Permutation_app.
  - rewrite !bind_fmap_list. apply Permutation_refl', list_bind_ext; [intros conv|done]. by rewrite <- list_fmap_compose.
  - by rewrite bind_fmap_list, fmap_as_bind.
Qed.

Lemma plan_sublist c refs : (λ conv, objKey (ic_ingress conv)) <$> plan c refs `sublist_of` refs.
Proof.
  induction refs as [|ref refs IH]; [done|]. simpl. destruct (planned _ _ _ _ _ c ref) as [conv|] eqn:Hp; [|by apply sublist_cons].
  assert (objKey (ic_ingress conv) = ref) as Hk.
  { destruct (plan_elem c [ref] conv) as (ref' & ->%list_elem_of_singleton & _ & Hk & _); [simpl; rewrite Hp; by left|done]. }
  csimpl. rewrite Hk. by apply sublist_skip.
Qed.

Lemma goals_NoDup c refs output : shows opts url_Parse MarshalHTTP MarshalGRPC rangeNames c refs output →
  NoDup refs → NoDup (keyOf <$> (documents output).*2) → NoDup (g_key <$> (plan c refs ≫= goalsOf)).
Proof.
  intros Hs Hrefs Hd. rewrite goal_keys. apply NoDup_app. split_and!.
  - destruct (submseteq_Permutation _ _ (docs_keys c refs output Hs)) as [rest Hp]. rewrite Hp in Hd. by apply NoDup_app in Hd as (? & _).
  - intros k (x & -> & (conv & Hx & _)%list_elem_of_bind)%list_elem_of_fmap (conv' & Hk & _)%list_elem_of_fmap.
    apply kind_of_docs in Hx. apply (f_equal fst) in Hk. simpl in Hk. rewrite Hk in Hx. by apply (bool_decide_pack _) in Hx.
  - change (NoDup (storeKey Ingress ∘ (λ conv, objKey (ic_ingress conv)) <$> plan c refs)). rewrite list_fmap_compose. apply NoDup_fmap_2; [by intros ?? [=]|].
    eapply sublist_NoDup; [exact Hrefs|]. apply plan_sublist.
Qed.

Lemma docs_not_gateway conv x : x ∈ docsOf conv → ¬ ofGateway opts (keyOf x).
Proof.
  intros Hx%kind_of_docs [E|[name E]]; apply (f_equal fst) in E; simpl in E; rewrite E in Hx; by apply (bool_decide_pack _) in Hx.
Qed.

Lemma docs_shown c refs output conv x : shows opts url_Parse MarshalHTTP MarshalGRPC rangeNames c refs output →
  conv ∈ plan c refs → x ∈ docsOf conv → x ∈ (documents output).*2.
Proof.
  intros [Hh Hg Hp _] Hin. unfold docsOf, documents. rewrite Hh, Hg, Hp, !fmap_app, !elem_of_app, <- !list_fmap_compose.
  intros [(y & -> & Hy)%list_elem_of_fmap|[(y & -> & Hy)%list_elem_of_fmap|Hx]]; right; [left|right;left|right;right]; apply list_elem_of_fmap; eexists; (split; [done|]);
    apply list_elem_of_bind; exists conv; done.
Qed.

Lemma attains_applyRoutesAndPolicies conversions result : calmly elapse →
  NoDup (g_key <$> (conversions ≫= goalsOf)) → (∀ conv, conv ∈ conversions → freshPolicies (ic_policyResult conv) ∧ convKey conv ∉ failedKeys result) →
  attains ck_cluster (conversions ≫= goalsOf) (applyRoutesAndPolicies elapse conversions skipPolling result)
    (eq {| result with cr_Converted := cr_Converted result ++ (convKey <$> conversions) |}).
Proof.
  intros Hcalm Hd Hc. apply (attains_foldM_prefix ck_cluster goalsOf (λ pre, eq {| result with cr_Converted := cr_Converted result ++ (convKey <$> pre) |}) _ conversions []); [done| |].
  - simpl. rewrite app_nil_r. by destruct result.
  - intros pre b conv Hin <-. destruct (Hc conv Hin) as [Hf Hk]. intros s Hq Hs Hn.
    destruct (attains_applyConversionOf elapse Hcalm skipPolling {| result with cr_Converted := cr_Converted result ++ (convKey <$> pre) |} conv) with (s := s) as (a & s' & Hr & H1 & H2 & H3 & <-); [|done|done|done|done|done|].
    + apply list_elem_of_split in Hin as (l1 & l2 & ->). rewrite bind_app, fmap_app in Hd. apply NoDup_app in Hd as (_ & _ & Hd).
      simpl in Hd. rewrite fmap_app in Hd. by apply NoDup_app in Hd as (? & _).
    + eexists _, s'. split; [exact Hr|]. split_and!; [done|done|done|]. simpl. by rewrite fmap_app, app_assoc.
Qed.

(** C23: when the calls go through, everything that the preview shows is applied, with and
    without waiting for the routes: every document is stored, routes with the parents, hosts
    and rules shown and the label of the command, policies as shown, the listeners of the
    Gateway among those of the Gateway; the Ingresses that the preview lists are reported as
    converted, and each is marked as converted or, only when the command waits, as pending.
    This needs distinct documents, a namespace for the Gateway, a Gateway with distinct
    listener names, no generated object that is being deleted, and others that only change
    statuses while the command waits. *)
Theorem preview_is_applied refs s preview :
  let c := ck_cluster s in
  quiet c → calmly elapse → NoDup (slashed <$> refs) →
  generatePreview refs c = (Ret preview, c) →
  NoDup (keyOf <$> (documents preview).*2) →
  gatewayReady opts c (listenersOf (plan c refs)) →
  (∀ x, x ∈ (documents preview).*2 → notDeleting (cl_objects c !! keyOf x)) →
  ∃ result s', applyConversions refs skipPolling s = (Ret (result, None), s') ∧
    (∀ x, x ∈ (documents preview).*2 → applied x (cl_objects (ck_cluster s') !! keyOf x)) ∧
    cr_Converted result = po_Converted preview ∧
    (∀ conv, conv ∈ plan c refs → marked skipPolling conv (cl_objects (ck_cluster s') !! storeKey Ingress (objKey (ic_ingress conv)))).
Proof.
  intros c Hq Hcalm Hrefs Hpreview Hdocs Hready Hdel. pose proof (proj2 Hq) as Hno.
  destruct (generatePreview_eval opts url_Parse MarshalHTTP MarshalGRPC rangeNames c Hno refs) as (output & Hp & Hshows & Hgw).
  rewrite Hp in Hpreview. injection Hpreview as <-.
  pose proof (shown_docs c refs output _ Hshows Hgw) as Hshown.
  destruct (convertIngresses_eval opts url_Parse MarshalHTTP MarshalGRPC rangeNames c Hno refs emptyResult) as (result & Hconv).
  destruct (convertIngresses_accounts opts url_Parse MarshalHTTP MarshalGRPC rangeNames refs c Hrefs) as (conversions & listeners & result0 & c0 & Hconv0 & Hnone & Hall).
  rewrite Hconv in Hconv0. injection Hconv0 as <- <- <- <-.
  unfold CLIIngress.applyConversions. rewrite (bind_eval _ _ _ _ _ (inCluster_read _ s _ Hconv)).
  pose proof (goals_NoDup c refs output Hshows (NoDup_fmap_1 slashed _ Hrefs) Hdocs) as Hgoals.
  assert (∀ r, cr_Failed r = cr_Failed result → ∀ conv, conv ∈ plan c refs → freshPolicies (ic_policyResult conv) ∧ convKey conv ∉ failedKeys r) as Hok.
  { intros r Hr conv Hin. split; [by destruct (plan_elem c refs conv Hin) as (? & _ & _ & _ & ?)|]. unfold failedKeys. rewrite Hr. rewrite <- Hall in Hrefs.
    apply NoDup_app in Hrefs as (_ & Hrefs & _). intros Hf. apply (Hrefs (convKey conv)); [by apply list_elem_of_fmap_2|]. apply elem_of_app. by right. }
  assert (∃ r s1, (if bool_decide (plan c refs = []) then mret (inl result) else inCluster (try (applyGatewayAndSecrets opts (listenersOf (plan c refs)) result))) s = (Ret (inl r), s1) ∧
    cr_Converted r = [] ∧ cr_Failed r = cr_Failed result ∧ changes (ofGateway opts) c (ck_cluster s1) ∧
    (plan c refs ≠ [] → ∃ o, findObject Gateway (ck_cluster s1) (gatewayKey opts) = Some o ∧ ∀ l, l ∈ BuildListeners (listenersOf (plan c refs)) → l ∈ gw_Listeners o))
    as (r & s1 & Hr & Hrc & Hrf & Hch & Hgateway).
  { destruct (decide (plan c refs = [])) as [He|He]; [rewrite bool_decide_true by done; exists result, s; split_and!; [done|done|done|reflexivity|by intros []]|rewrite bool_decide_false by done]. destruct (applyGatewayAndSecrets_lands opts c _ result Hq Hready) as (r & c1 & Hr & Hch & Ho).
    destruct (applyGatewayAndSecrets_result opts _ result _ _ _ Hr) as (Hrc & _ & Hrf). eexists r, _.
    split; [by apply (inCluster_eval _ s), try_eval|]. split_and!; [by rewrite Hrc, Hnone|done|done|done]. }
  rewrite (bind_eval _ _ _ _ _ Hr). cbv beta iota. pose proof (gateway_quiet opts _ _ Hq Hch) as Hq1.
  destruct (attains_applyRoutesAndPolicies (plan c refs) r Hcalm Hgoals (Hok r Hrf) s1 Hq1) as (r2 & s2 & Hr2 & Hq2 & Hc2 & Hleft & Hresult).
  { intros g (conv & Hg & _)%list_elem_of_bind. by eapply goalsOf_steady. }
  { intros g (conv & [(x & -> & Hx)%list_elem_of_fmap| ->%list_elem_of_singleton]%elem_of_app & Hin)%list_elem_of_bind.
    - simpl. rewrite (changes_frame _ _ _ Hch) by (by eapply docs_not_gateway). by apply Hdel, (docs_shown c refs output conv).
    - destruct (plan_elem c refs conv Hin) as (ref & _ & Hf & Hk & _). simpl. rewrite (changes_frame _ _ _ Hch), Hk; [by apply findObject_Some in Hf as [-> _]|].
      intros [E|[name E]]; discriminate (f_equal fst E). }
  rewrite (bind_eval _ _ _ _ _ Hr2). subst r2. eexists _, s2. split; [done|]. split_and!.
  - intros x Hx. destruct (Hshown x Hx) as [(g & Hg & ->)|(conv & Hin & Hd)].
    + destruct (_ && _) eqn:Hsome; [done|]. injection Hg as <-.
      destruct Hgateway as (o & Ho & Hl); [intros He; by rewrite He in Hsome|].
      apply findObject_Some in Ho as [Ho _]. match goal with |- applied ?doc _ => eapply (applied_steady doc) end.
      { apply Hc2. rewrite goal_keys, elem_of_app. intros [(x & Hk & (conv & Hd & _)%list_elem_of_bind)%list_elem_of_fmap|(conv & Hk & _)%list_elem_of_fmap];
          [|discriminate (f_equal fst Hk)]. apply kind_of_docs in Hd. apply (f_equal fst) in Hk. simpl in Hk. rewrite <- Hk in Hd. by apply (bool_decide_pack _) in Hd. }
      exists o. by split.
    + apply (Hleft (docGoal x)). apply list_elem_of_bind. exists conv. split; [|done]. apply elem_of_app. left. by apply list_elem_of_fmap_2.
  - simpl. rewrite Hrc. by rewrite (shows_converted _ _ _ _ _ _ _ _ Hshows).
  - intros conv Hin. apply (Hleft (ingressGoal skipPolling conv)). apply list_elem_of_bind. exists conv. split; [|done]. apply elem_of_app. right. by left.
Qed.
End preview.
