(* ===== verification/CLIExamples.v ===== *)
(** * Runs of the Ingress converter on the command line

    Concrete inputs for the theorems of [CLIPass] and [CLIPreview], and runs that show where
    the command does not do what it means to. *)

From Stdlib Require Import Ascii.
From S2P Require Import Prelude GoStrings Api GatewayApi Kube Finalizers ConvAnnotations ConvPolicies Converter ConvGateway Manager Upserts IngressToGateway ConversionPass CLIIngress CLIPass CLIPreview.
Local Open Scope go_scope.

(** An Ingress with a rate limit, an allow list and a certificate *)
Definition shopIngress (annotations : StrMap) : Ingress := convertedIngress annotations.
Definition limited : StrMap := {[ LimitRPS := "5"; WhitelistSourceRange := "10.0.0.0/8" ]}.
Definition gatewayNamespace : Namespace := {| ns_Meta := objectMeta "kubelb" "" "uid-9" None None |}.
Definition onDisk (objects : list Object) : Clocked := {| ck_cluster := sampleCluster (ONamespace gatewayNamespace :: objects); ck_now := 1000 |}.
Definition shop : Clocked := onDisk [OIngress (shopIngress limited)].

Definition byName (names : gset string) : list string := elements names.
#[local] Abbreviation generatePreview := (generatePreview sampleReconciler noURL sampleMarshal sampleMarshal byName).
#[local] Abbreviation applyConversions := (applyConversions sampleReconciler noURL sampleMarshal sampleMarshal (λ _ c, c) byName).
#[local] Abbreviation plan := (plan sampleReconciler noURL sampleMarshal sampleMarshal byName).

Definition shopPreview : previewOutput :=
  match generatePreview [("apps", "web")] (ck_cluster shop) with (Ret preview, _) => preview | _ => emptyPreview end.

Example shop_documents : keyOf <$> (documents shopPreview).*2 =
  [("Gateway", ("kubelb", "kubelb")); ("HTTPRoute", ("apps", "web")); ("SecurityPolicy", ("apps", "web-security")); ("BackendTrafficPolicy", ("apps", "web-backend"))].
Proof. vm_compute. reflexivity. Qed.

(** Others that accept the route while the command waits *)
Definition acceptWeb (d : Z) (c : Cluster) : Cluster :=
  match findObject HTTPRoute c ("apps", "web") with
  | Some route =>
      {| c with cl_objects := <[storeKey HTTPRoute ("apps", "web") := OHTTPRoute {| route with gr_Status :=
           [{| rps_Name := "kubelb"; rps_Conditions := [{| cond_Type := "Accepted"; cond_Status := "True"; cond_Reason := "Accepted"; cond_Message := "" |}] |}] |}]> (cl_objects c) |}
  | None => c
  end.

Lemma acceptWeb_calm : calmly acceptWeb.
Proof.
  intros d c [Hw Hno]. unfold acceptWeb. destruct (findObject HTTPRoute c _) as [route|] eqn:Hf; [|by split].
  pose proof (findObject_key _ _ _ Hf) as Hk. pose proof (findObject_meta _ _ _ Hw Hf) as Hm.
  apply findObject_Some in Hf as Hl. destruct Hl as [Hl _]. split; [split; [|done]|].
  - apply map_Forall_insert_2; [|exact Hw]. rewrite <-Hk. by split.
  - intros k _. simpl. destruct (decide (k = storeKey HTTPRoute ("apps", "web"))) as [->|Hne].
    + rewrite lookup_insert_eq, Hl. apply so_http.
    + rewrite lookup_insert_ne by done. constructor.
Qed.

Lemma preview_is_applied_witness : ∃ result s',
  CLIIngress.applyConversions sampleReconciler noURL sampleMarshal sampleMarshal acceptWeb byName [("apps", "web")] false shop = (Ret (result, None), s') ∧
  cr_Converted result = ["apps/web"] ∧ ∀ x, x ∈ (documents shopPreview).*2 → applied x (cl_objects (ck_cluster s') !! keyOf x).
Proof.
  destruct (preview_is_applied sampleReconciler noURL sampleMarshal sampleMarshal acceptWeb byName false [("apps", "web")] shop shopPreview) as (result & s' & Hr & Hx & Hc & _).
  - split; [apply (bool_decide_unpack _); vm_compute; reflexivity|reflexivity].
  - exact acceptWeb_calm.
  - apply (bool_decide_unpack _). vm_compute. reflexivity.
  - vm_compute. reflexivity.
  - apply (bool_decide_unpack _). vm_compute. reflexivity.
  - split; [by vm_compute; eexists|]. split; [intros gw; vm_compute; discriminate|apply (bool_decide_unpack _); vm_compute; reflexivity].
  - apply Forall_forall, (bool_decide_unpack _). vm_compute. reflexivity.
  - exists result, s'. split; [exact Hr|]. split; [rewrite Hc; vm_compute; reflexivity|exact Hx].
Defined.

(** The route is seen accepted at the first tick; with nobody to accept it the Ingress is
    left pending. *)
Example accepted_and_pending :
  let mark elapse := let '(_, s') := CLIIngress.applyConversions sampleReconciler noURL sampleMarshal sampleMarshal elapse byName [("apps", "web")] false shop in
    (findObject Ingress (ck_cluster s') ("apps", "web") ≫= λ ing, entries (om_Annotations (ing_Meta ing)) !! AnnotationConversionStatus, ck_now s' - 1000)%Z in
  mark acceptWeb = (Some ConversionStatusConverted, 2%Z) ∧ mark (λ _ c, c) = (Some ConversionStatusPending, 32%Z).
Proof. vm_compute. split; reflexivity. Qed.

Lemma cli_apply_accounts_witness : ∃ result err s', applyConversions [("apps", "web"); ("apps", "gone")] false shop = (Ret (result, err), s') ∧
  (1000 <= ck_now s' <= 1064)%Z.
Proof.
  destruct (cli_apply_accounts sampleReconciler noURL sampleMarshal sampleMarshal (λ _ c, c) byName [("apps", "web"); ("apps", "gone")] false shop)
    as (result & err & s' & Hr & Hn & _); [apply (bool_decide_unpack _); vm_compute; reflexivity|].
  exists result, err, s'. split; [exact Hr|exact Hn].
Defined.

Definition allOf (dryRun : bool) : ConvertOptions :=
  {| co_OutputDir := ""; co_DryRun := dryRun; co_Names := ["web"]; co_Namespace := "apps"; co_SkipAcceptancePolling := true |}.
Definition terminal : Console := {| cn_clocked := shop; cn_files := ∅; cn_documents := [] |}.
Definition marshalName (x : Object) : result string := Ok (om_Name (metaOf x)).
#[local] Abbreviation Convert := (Convert sampleReconciler noURL sampleMarshal sampleMarshal (λ _ c, c) byName marshalName (λ _, None)).

Lemma cli_convert_isolated_witness :
  ticks (λ k, nothing k ∨ written sampleReconciler (allOf false) k) shop (cn_clocked (Convert (allOf false) terminal).2).
Proof. apply (cli_convert_isolated sampleReconciler noURL sampleMarshal sampleMarshal (λ _ c, c) byName marshalName (λ _, None) (allOf false) nothing terminal). reflexivity. Defined.

Lemma cli_preview_reads_only_witness : untouched terminal (Convert (allOf true) terminal).2 ∧
  cn_documents (Convert (allOf true) terminal).2 = ["kubelb"; "web"; "web-security"; "web-backend"].
Proof.
  split; [apply (cli_preview_reads_only sampleReconciler noURL sampleMarshal sampleMarshal (λ _ c, c) byName marshalName (λ _, None)); by right|].
  vm_compute. reflexivity.
Defined.

Lemma cli_policies_agree_witness :
  option_list (buildPoliciesFromAnnotations (shopIngress limited) "web" ≫= pc_securityPolicy) = pcr_SecurityPolicies (policyResultFor sampleReconciler (shopIngress limited) "web").
Proof. apply (cli_policies_agree sampleReconciler (shopIngress limited) "web"); [discriminate|]. split; [by left|by right]. Defined.

Definition shopConverted : Converter.Result := convertOne sampleReconciler noURL sampleMarshal sampleMarshal (shopIngress limited) ∅.
Lemma list_reads_back_witness :
  let result := {| shopConverted with res_Warnings := ["port not found"; "unknown annotation"] |} in
  inf_Warnings (extractInfo (withStatus (shopIngress limited) result true)) = ["port not found"; "unknown annotation"] ∧
  inf_HTTPRoutes (extractInfo (withStatus (shopIngress limited) result true)) = ["web"].
Proof.
  cbv zeta. set (result := {| shopConverted with res_Warnings := _ |}).
  assert (names (res_HTTPRoutes result) = ["web"]) as Hn by (vm_compute; reflexivity).
  destruct (list_reads_back (shopIngress limited) result true) as (_ & Hh & _ & Hw & _).
  - vm_compute. reflexivity.
  - rewrite Hn. repeat constructor; discriminate.
  - change (names (res_GRPCRoutes result)) with ([] : list string). constructor.
  - repeat constructor; discriminate.
  - intros E. unfold names in Hn. rewrite E in Hn. discriminate Hn.
  - intros _. vm_compute. reflexivity.
  - discriminate.
  - split; [exact Hw|]. rewrite Hh. exact Hn.
Defined.

Lemma cli_marks_respected_witness : ∃ c, updateIngressStatus (shopIngress limited) shopConverted true (ck_cluster shop) = (Ret tt, c) ∧
  Reconcile sampleReconciler noURL sampleMarshal sampleMarshal sampleFormat sampleParse (λ _ c, c) ("apps", "web") {| shop with ck_cluster := c |} = (Ret false, {| shop with ck_cluster := c |}).
Proof.
  eexists. split; [reflexivity|].
  apply (cli_marks_respected sampleReconciler noURL sampleMarshal sampleMarshal sampleFormat sampleParse (λ _ c, c) (shopIngress limited) shopConverted shop eq_refl tt).
  reflexivity.
Defined.

(** ** Where the command does not do what it means to *)

(** The route cannot be stored, the result says so; but without polling the Ingress is
    marked [converted], and then the controller leaves it alone as well. *)
Definition refused : Clocked :=
  {| shop with ck_cluster := {| (ck_cluster shop) with cl_faults := [None; None; None; None; None; None; Some (StatusError (OtherReason "InternalError") "etcd")] |} |}.
Example failed_but_converted :
  let '(r, s) := applyConversions [("apps", "web")] true refused in
  match r with Ret (result, _) => failedKeys result = ["apps/web"] ∧ cr_Converted result = [] | _ => False end ∧
  findObject HTTPRoute (ck_cluster s) ("apps", "web") = None ∧
  (λ ing, inf_Status (extractInfo ing)) <$> findObject Ingress (ck_cluster s) ("apps", "web") = Some ConversionStatusConverted.
Proof. vm_compute. split_and!; reflexivity. Qed.

(** Warnings of an earlier conversion stay when there are none any more: the list shows an
    Ingress as converted, with warnings. *)
Definition warnedBefore : Ingress := shopIngress {[ AnnotationConversionStatus := "partial"; AnnotationConversionWarnings := "port not found" ]}.
Example stale_warnings :
  let info := extractInfo (withStatus warnedBefore shopConverted true) in
  res_Warnings shopConverted = [] ∧ inf_Status info = ConversionStatusConverted ∧ inf_Warnings info = ["port not found"].
Proof. vm_compute. split_and!; reflexivity. Qed.

(** A warning of the converter contains the separator: the list shows two. *)
Definition passthrough : Ingress := shopIngress {[ SSLPassthrough := "true" ]}.
Example warning_split :
  let convResult := convertOne sampleReconciler noURL sampleMarshal sampleMarshal passthrough ∅ in
  length (res_Warnings convResult) = 1 ∧
  inf_Warnings (extractInfo (withStatus passthrough convResult true)) =
    ["ssl-passthrough=true requires TLSRoute instead of HTTPRoute";
     " create a TLSRoute with passthrough mode to forward encrypted traffic directly to backend"].
Proof. vm_compute. split; reflexivity. Qed.

(** The controller separates warnings by a semicolon and a space, the list splits at the
    semicolon: the second warning starts with a space. *)
Example warnings_of_controller :
  let annotations := statusAnnotations sampleFormat ∅ {| sd_status := "partial"; sd_requeue := false; sd_clearVerifyTime := true |} ["a"; "b"] ["apps/web"] [] 0 in
  inf_Warnings (extractInfo (convertedIngress annotations)) = ["a"; " b"].
Proof. vm_compute. reflexivity. Qed.

(** A send timeout alone makes a policy in the controller; the command makes none, and does
    not warn either. *)
Definition slowClients : Ingress := shopIngress {[ ProxySendTimeout := "30" ]}.
Example send_timeout_lost :
  buildPoliciesFromAnnotations slowClients "web" = None ∧
  res_Warnings (convertOne sampleReconciler noURL sampleMarshal sampleMarshal slowClients ∅) = [] ∧
  btp_Timeout <$> pcr_BackendTrafficPolicies (policyResultFor sampleReconciler slowClients "web") = [Some {| to_TCP := None; to_HTTP := Some (Some "30s") |}].
Proof. vm_compute. split_and!; reflexivity. Qed.

(** A secret for digest authentication becomes basic authentication. *)
Definition digestUsers : Ingress := shopIngress {[ AuthType := "digest"; AuthSecret := "users" ]}.
Example digest_becomes_basic :
  (secp_BasicAuth <$> (buildPoliciesFromAnnotations digestUsers "web" ≫= pc_securityPolicy)) = Some (Some {| ba_Name := "users"; ba_Namespace := Some "apps" |}) ∧
  pcr_SecurityPolicies (policyResultFor sampleReconciler digestUsers "web") = [].
Proof. vm_compute. split; reflexivity. Qed.

(** A label by another manager is replaced. *)
Example label_replaced : ensureManagedByLabel (Some {[ LabelManagedBy := "argocd" ]}) managedByValue = Some {[ LabelManagedBy := managedByValue ]}.
Proof. vm_compute. reflexivity. Qed.

(** Annotations of a route that exists are not updated: host names for external DNS stay. *)
Example annotations_not_updated (existing route : HTTPRoute) : om_Annotations (gr_Meta (keepAnnotations existing route)) = om_Annotations (gr_Meta existing).
Proof. reflexivity. Qed.
