(* ===== verification/CLIClient.v ===== *)
(** * Setting up the command line client

    [cli/internal/config], [cli/internal/edition], [cli/internal/cache] and the part of
    [cli/cmd/root.go] that makes a client of them: the kubeconfig and the tenant from flags
    or the environment, the edition of the management cluster from its TenantState or its
    definitions, kept in a file for 48 hours, and the types the client knows; and of
    [cli/cmd/ingress.go] the choice of Ingresses and the options from the environment.

    The environment, the reading of a kubeconfig, the home directory and the refusals of
    the file system are parameters; a cache file is its content, [None] when it is not the
    JSON of one. *)

From Stdlib Require Import Ascii.
From S2P Require Import Prelude GoStrings GoCrypto Api GatewayApi Kube ConvAnnotations ConvGateway Manager IngressToGateway CLIIngress CLIPass.
Local Open Scope go_scope.

(** ** [config.go] *)

Record Config := {
  cfg_KubeConfig : string;
  cfg_Tenant : string;
  cfg_TenantNamespace : string;
  cfg_InsecureSkipVerify : bool;
  cfg_Edition : string;
}.

Definition GetTenantNamespace (tenant : string) : string := if HasPrefix tenant "tenant-" then tenant else "tenant-" ⊕ tenant.

Definition ValidateConfig (c : Config) : option string := if bool_decide (cfg_Tenant c = "") then Some "tenant name is required" else None.
Definition IsCE (c : Config) : bool := bool_decide (cfg_Edition c = "CE").

(** [strconv.ParseBool] *)
Definition strconv_ParseBool (s : string) : option bool :=
  if bool_decide (s ∈ ["1"; "t"; "T"; "TRUE"; "true"; "True"]) then Some true
  else if bool_decide (s ∈ ["0"; "f"; "F"; "FALSE"; "false"; "False"]) then Some false
  else None.

(** ** [detector.go] *)

Definition EditionCE : string := "CE".
Definition EditionEE : string := "EE".
Definition EditionUnknown : string := "Unknown".
Definition TenantStateName : string := "default".
Definition IsEE (edition : string) : bool := bool_decide (edition = EditionEE).

Definition extractEditionFromTenantState (tenantState : TenantState) : option string :=
  let edition := ToUpper (ver_Edition (tss_Version (ts_Status tenantState))) in
  if bool_decide (edition ∈ ["EE"; "ENTERPRISE"]) then Some EditionEE
  else if bool_decide (edition ∈ ["CE"; "COMMUNITY"]) then Some EditionCE
  else None.

(** Definitions have no namespace. *)
Definition detectEditionByCRDs : M Cluster string :=
  r ← try (Get CustomResourceDefinition ("", "tunnels.kubelb.k8c.io"));
  mret match r with inl _ => EditionEE | inr _ => EditionCE end.

Definition readTenantState (tenantNamespace : string) : M Cluster (option TenantState) :=
  r ← try (Get TenantState (tenantNamespace, TenantStateName));
  match r with
  | inl tenantState => mret (Some tenantState)
  | inr _ =>
      r ← try (Get TenantState (tenantNamespace, tenantNamespace));
      mret match r with inl tenantState => Some tenantState | inr _ => None end
  end.

(** ** [edition.go] of the cache *)

Definition CacheTTL : Z := 48 * 3600.
Record EditionCache := { ec_Edition : string; ec_Timestamp : Z }.

(** What the command reads and writes: the cluster with the clock, and cache files by path *)
Record Station := { sn_clocked : Clocked; sn_files : gmap string (option EditionCache) }.
Definition stationClock : Lens Station Clocked := {| view := sn_clocked; over t s := {| s with sn_clocked := t |} |}.
#[export] Instance stationClock_laws : LensLaws stationClock.
Proof. split; intros; simpl; try done; by destruct s. Qed.
Definition atCluster {A} (m : M Cluster A) : M Station A := zoom stationClock (inCluster m).

(** [createKubernetesClientWithEditionDetection] registers the types of one edition with the
    client, and a call with a type that is not registered fails. *)
Definition eeCall {S A} (cfg : Config) (kind : string) (call : M S A) : M S A :=
  if IsEE (cfg_Edition cfg) then call else raise (Errorf ("no kind is registered for the type v1alpha1." ⊕ kind ⊕ " in scheme")).

Lemma answers_eeCall {S A} cfg kind (call : M S A) : answers call → answers (eeCall cfg kind call).
Proof. intros Hc. unfold eeCall. destruct (IsEE _); [done|apply answers_raise]. Qed.
Lemma within_eeCall {S A} (R : relation S) `{!PreOrder R} cfg kind (call : M S A) : within R call → within R (eeCall cfg kind call).
Proof. intros Hc. unfold eeCall. destruct (IsEE _); [done|apply within_raise; apply _]. Qed.
Lemma yields_eeCall {S A} Q cfg kind (call : M S A) : yields Q call → yields Q (eeCall cfg kind call).
Proof. intros Hc. unfold eeCall. destruct (IsEE _); [done|by intros ???]. Qed.

Section setup.
(** [os.Getenv]; the current context of a kubeconfig; [os.UserHomeDir]; what a kubeconfig,
    the dynamic client and the file system refuse *)
Context (Getenv : string -> string) (LoadFromFile : string -> result string) (UserHomeDir : result string).
Context (BuildConfigFromFlags : string -> option string) (NewForConfig : option string) (refuses : string -> option string).

Definition resolveKubeConfig (flagValue : string) : result string :=
  if negb (bool_decide (flagValue = "")) then Ok flagValue
  else if negb (bool_decide (Getenv "KUBECONFIG" = "")) then Ok (Getenv "KUBECONFIG")
  else Err "kubeconfig is required: use --kubeconfig flag or KUBECONFIG environment variable".

Definition resolveTenant (flagValue : string) : result string :=
  if negb (bool_decide (flagValue = "")) then Ok flagValue
  else if negb (bool_decide (Getenv "TENANT_NAME" = "")) then Ok (Getenv "TENANT_NAME")
  else Err "tenant name is required: use --tenant flag or TENANT_NAME environment variable".

Definition resolveInsecureSkipVerify : result bool :=
  let envValue := Getenv "KUBELB_INSECURE_SKIP_VERIFY" in
  if bool_decide (envValue = "") then Ok false
  else match strconv_ParseBool envValue with
       | Some value => Ok value
       | None => Err ("invalid value for KUBELB_INSECURE_SKIP_VERIFY: " ⊕ Quote envValue ⊕ " (must be true/false)")
       end.

Definition LoadConfig (kubeconfigFlag tenantFlag : string) : result Config :=
  match resolveKubeConfig kubeconfigFlag with
  | Err msg => Err ("failed to resolve kubeconfig: " ⊕ msg)
  | Ok kubeconfig =>
      match resolveTenant tenantFlag with
      | Err msg => Err ("failed to resolve tenant: " ⊕ msg)
      | Ok tenant =>
          match resolveInsecureSkipVerify with
          | Err msg => Err ("failed to resolve insecure skip verify: " ⊕ msg)
          | Ok insecure =>
              Ok {| cfg_KubeConfig := kubeconfig; cfg_Tenant := tenant; cfg_TenantNamespace := GetTenantNamespace tenant;
                    cfg_InsecureSkipVerify := insecure; cfg_Edition := "" |}
          end
      end
  end.

Definition CreateKubernetesConfig (kubeconfigPath : string) : result unit :=
  if bool_decide (kubeconfigPath = "") then Err "kubeconfig path is required"
  else match BuildConfigFromFlags kubeconfigPath with
       | Some msg => Err ("failed to load kubeconfig from " ⊕ kubeconfigPath ⊕ ": " ⊕ msg)
       | None => Ok tt
       end.

(** *** The edition *)

Definition DetectEdition (tenantNamespace : string) : M Cluster string :=
  match NewForConfig with
  | Some msg => raise (Errorf ("failed to create dynamic client: " ⊕ msg))
  | None =>
      found ← readTenantState tenantNamespace;
      match found ≫= extractEditionFromTenantState with
      | Some edition => mret edition
      | None => detectEditionByCRDs
      end
  end.

(** *** The cache *)

Definition cacheIdentifier (kubeconfig currentContext tenant : string) : string := kubeconfig ⊕ "-" ⊕ currentContext ⊕ "-" ⊕ tenant.

Definition getCacheFilePath (kubeconfig tenant : string) : result string :=
  match LoadFromFile kubeconfig with
  | Err msg => Err ("failed to load kubeconfig: " ⊕ msg)
  | Ok currentContext =>
      if bool_decide (currentContext = "") then Err "no current context in kubeconfig"
      else
        let hashStr := str_take 16 (EncodeToString (Sum256 (bytes_of (cacheIdentifier kubeconfig currentContext tenant)))) in
        match UserHomeDir with
        | Err msg => Err ("failed to get home directory: " ⊕ msg)
        | Ok homeDir => Ok (homeDir ⊕ "/.kubelb/cache/edition-" ⊕ hashStr ⊕ ".json")
        end
  end.

(** The empty string on a miss *)
Definition LoadCache (kubeconfig tenant : string) : M Station string :=
  match getCacheFilePath kubeconfig tenant with
  | Err _ => mret ""
  | Ok cacheFile =>
      gets (λ s, match sn_files s !! cacheFile with
                 | Some (Some cache) => if (CacheTTL <? ck_now (sn_clocked s) - ec_Timestamp cache)%Z then "" else ec_Edition cache
                 | _ => ""
                 end)
  end.

(** The directory is refused with the file. *)
Definition SaveCache (kubeconfig tenant edition : string) : M Station unit :=
  match getCacheFilePath kubeconfig tenant with
  | Err msg => raise (Errorf ("failed to get cache file path: " ⊕ msg))
  | Ok cacheFile =>
      match refuses cacheFile with
      | Some msg => raise (Errorf ("failed to write cache file: " ⊕ msg))
      | None => modify (λ s, {| s with sn_files := <[cacheFile := Some {| ec_Edition := edition; ec_Timestamp := ck_now (sn_clocked s) |}]> (sn_files s) |})
      end
  end.

(** *** [root.go] *)

(** The configuration with its edition; the client knows the types of that edition only. *)
Definition createKubernetesClientWithEditionDetection (cfg : Config) : M Station Config :=
  match CreateKubernetesConfig (cfg_KubeConfig cfg) with
  | Err msg => raise (Errorf msg)
  | Ok _ =>
      cachedEdition ← LoadCache (cfg_KubeConfig cfg) (cfg_Tenant cfg);
      if negb (bool_decide (cachedEdition = "")) then mret {| cfg with cfg_Edition := cachedEdition |}
      else
        r ← try (atCluster (DetectEdition (cfg_TenantNamespace cfg)));
        let detectedEdition := match r with inl edition => edition | inr _ => EditionCE end in
        _ ← try (SaveCache (cfg_KubeConfig cfg) (cfg_Tenant cfg) detectedEdition);
        mret {| cfg with cfg_Edition := detectedEdition |}
  end.

(** [PersistentPreRunE] of the commands that need a tenant *)
Definition preRun (kubeconfigFlag tenantFlag : string) : M Station Config :=
  match LoadConfig kubeconfigFlag tenantFlag with
  | Err msg => raise (Errorf msg)
  | Ok cfg => createKubernetesClientWithEditionDetection cfg
  end.

(** Names of a command and its parents, the innermost first *)
Definition skipConfigCommands : list string := ["version"; "help"; "completion"; "docs"].
Definition shouldSkipConfig (command : list string) : bool :=
  match command with
  | [] | [_] => true
  | name :: _ => bool_decide (name ∈ skipConfigCommands)
  end.
Definition needsMinimalClient (command : list string) : bool := existsb (λ name, bool_decide (name ∈ ["ingress"; "serve"])) command.

Definition initializeMinimalClient (kubeconfigFlag : string) : result Config :=
  let kubeconfigPath := if bool_decide (kubeconfigFlag = "") then Getenv "KUBECONFIG" else kubeconfigFlag in
  if bool_decide (kubeconfigPath = "") then Err "kubeconfig is required: use --kubeconfig flag or KUBECONFIG environment variable"
  else match CreateKubernetesConfig kubeconfigPath with
       | Err msg => Err msg
       | Ok _ => Ok {| cfg_KubeConfig := kubeconfigPath; cfg_Tenant := ""; cfg_TenantNamespace := ""; cfg_InsecureSkipVerify := false; cfg_Edition := "" |}
       end.

(** *** [ingress.go] *)

Definition validateSelectionFlags (args : list string) (all allNamespaces : bool) (namespace : string) : option string :=
  let hasNames := negb (bool_decide (args = [])) in
  if hasNames && (all || allNamespaces) then Some "cannot specify NAME(s) with --all or -A"
  else if all && allNamespaces then Some "cannot use --all and -A together"
  else if all && bool_decide (namespace = "") then Some "--all requires -n/--namespace"
  else if negb hasNames && negb all && negb allNamespaces then Some "specify NAME(s), --all (with -n), or -A"
  else None.

Definition defaultNamespace : string := "default".

Definition getEnvOrDefault (key defaultVal : string) : string := if bool_decide (Getenv key = "") then defaultVal else Getenv key.
Definition getEnvBoolOrDefault (key : string) (defaultVal : bool) : bool :=
  if bool_decide (Getenv key = "") then defaultVal else default defaultVal (strconv_ParseBool (Getenv key)).

Definition addPairs (s : string) (result : StrMap) : StrMap :=
  foldl (λ result pair, match Cut pair "="%char with Some (k, v) => <[TrimSpace k := TrimSpace v]> result | None => result end) result (Split s ","%char).
Definition parseAnnotations (s : string) : StrMap := addPairs s ∅.

(** [Set] of the flag: what is there stays. *)
Definition gatewayAnnotationsValue_Set (target : GoMap) (value : string) : GoMap :=
  Some (if bool_decide (value = "") then entries target else addPairs value (entries target)).

(** The two options of the controller only are never set. *)
Definition initConversionOptsFromEnv : Options :=
  {| opt_StandaloneMode := false; opt_Enabled := false;
     opt_GatewayName := getEnvOrDefault "KUBELB_GATEWAY_NAME" "kubelb";
     opt_GatewayNamespace := getEnvOrDefault "KUBELB_GATEWAY_NAMESPACE" "kubelb";
     opt_GatewayClassName := getEnvOrDefault "KUBELB_GATEWAY_CLASS" "kubelb";
     opt_IngressClass := Getenv "KUBELB_INGRESS_CLASS";
     opt_DomainReplace := Getenv "KUBELB_DOMAIN_REPLACE";
     opt_DomainSuffix := Getenv "KUBELB_DOMAIN_SUFFIX";
     opt_PropagateExternalDNS := getEnvBoolOrDefault "KUBELB_PROPAGATE_EXTERNAL_DNS" true;
     opt_GatewayAnnotations := if bool_decide (Getenv "KUBELB_GATEWAY_ANNOTATIONS" = "") then None else Some (parseAnnotations (Getenv "KUBELB_GATEWAY_ANNOTATIONS"));
     opt_DisableEnvoyGatewayFeatures := getEnvBoolOrDefault "KUBELB_DISABLE_ENVOY_GATEWAY_FEATURES" false;
     opt_CopyTLSSecrets := getEnvBoolOrDefault "KUBELB_COPY_TLS_SECRETS" true |}.

(** What [runIngressConvert] asks [Convert] for, after the flags were checked *)
Definition convertOptionsOf (args : list string) (outputDir : string) (dryRun : bool) (namespace : string) (allNamespaces : bool) : ConvertOptions :=
  let convertNS :=
    if allNamespaces then ""
    else if bool_decide (namespace = "") && negb (bool_decide (args = [])) then defaultNamespace else namespace in
  {| co_OutputDir := outputDir; co_DryRun := dryRun; co_Names := args; co_Namespace := convertNS; co_SkipAcceptancePolling := false |}.

(** *** [format.go] *)

Definition supportedTerms : list string := ["xterm"; "screen"; "tmux"; "color"; "ansi"].
Definition isTerminalSupported : bool :=
  let term := Getenv "TERM" in
  if bool_decide (term = "") then false
  else if existsb (Contains term) supportedTerms then true
  else bool_decide (Getenv "NO_COLOR" = "").

Definition esc : string := String (ascii_of_nat 27) "".
Definition backslash : string := String (ascii_of_nat 92) "".
Definition BrightBlue : string := esc ⊕ "[94m".
Definition Bold : string := esc ⊕ "[1m".
Definition Reset : string := esc ⊕ "[0m".
Definition FormatURL (url : string) : string :=
  if isTerminalSupported then
    let clickableURL := esc ⊕ "]8;;" ⊕ url ⊕ esc ⊕ backslash ⊕ url ⊕ esc ⊕ "]8;;" ⊕ esc ⊕ backslash in
    BrightBlue ⊕ Bold ⊕ clickableURL ⊕ Reset ⊕ Reset
  else url.
End setup.

(** *** The commands of [ingress.go] *)

(** A name without namespace is one of [-n], or of [default]. *)
Definition selectedIngress (name namespace : string) : NamespacedName :=
  let '(ns, n) := parseIngressName name namespace in (if bool_decide (ns = "") then defaultNamespace else ns, n).

Definition listIngressInputs (namespace : string) : M Cluster (list NamespacedName) :=
  ingresses ← wrap "failed to list ingresses" (List Ingress (if bool_decide (namespace = "") then None else Some namespace) ∅);
  match ingresses with [] => raise (Errorf "no ingresses found") | _ => mret (objKey <$> ingresses) end.

Section commands.
Context (opts : Options).
Context (url_Parse : string -> result URL) (MarshalHTTP : list HTTPRouteRule -> option (list N)) (MarshalGRPC : list GRPCRouteRule -> option (list N)).
Context (elapse : Z -> Cluster -> Cluster) (rangeNames : gset string -> list string) (Marshal : Object -> result string) (fileRefuses : string -> option string).
#[local] Abbreviation Preview := (Preview opts url_Parse MarshalHTTP MarshalGRPC rangeNames Marshal).
#[local] Abbreviation BatchPreview := (BatchPreview opts url_Parse MarshalHTTP MarshalGRPC rangeNames Marshal).
#[local] Abbreviation Convert := (Convert opts url_Parse MarshalHTTP MarshalGRPC elapse rangeNames Marshal fileRefuses).

Definition runIngressGet (name namespace : string) : M Cluster string := GetYAML Marshal (selectedIngress name namespace).
Definition runIngressList (namespace : string) (allNamespaces : bool) : M Cluster (Summary * list Info) :=
  ListInfos opts (if allNamespaces then "" else namespace).

(** The YAML and the warnings of many Ingresses, or the preview of one *)
Definition runIngressPreview (args : list string) (namespace : string) (all allNamespaces : bool) : M Cluster ((string * list string) + PreviewResult) :=
  match validateSelectionFlags args all allNamespaces namespace with
  | Some msg => raise (Errorf msg)
  | None =>
      if all || allNamespaces then
        inputs ← listIngressInputs (if allNamespaces then "" else namespace);
        result ← BatchPreview inputs;
        mret (inl result)
      else
        match args with
        | name :: _ => result ← Preview (selectedIngress name namespace); mret (inr result)
        | [] => panic
        end
  end.

Definition runIngressConvert (args : list string) (outputDir : string) (dryRun : bool) (namespace : string) (all allNamespaces : bool) : M Console ConvertResult :=
  match validateSelectionFlags args all allNamespaces namespace with
  | Some msg => raise (Errorf msg)
  | None =>
      r ← Convert (convertOptionsOf args outputDir dryRun namespace allNamespaces);
      match r with (result, Some err) => raise err | (result, None) => mret result end
  end.

(** The commands are about the same Ingress when given one name. *)
Theorem preview_selects_like_convert name outputDir dryRun namespace s :
  HasPrefix name "/" = false →
  buildIngressList (convertOptionsOf [name] outputDir dryRun namespace false) s = (Ret [selectedIngress name namespace], s).
Proof.
  intros Hname. unfold buildIngressList, convertOptionsOf, selectedIngress, defaultNamespace. cbn [co_Names co_Namespace]. rewrite !(bool_decide_false ([name] = [])) by done. cbn [negb]. rewrite andb_true_r.
  unfold parseIngressName. simpl. destruct (Cut name "/"%char) as [[ns n]|] eqn:Hc; simpl; [|by case_bool_decide].
  rewrite bool_decide_false; [done|]. intros ->. destruct name as [|a rest]; [discriminate Hc|]. simpl in Hc. destruct (Ascii.eqb_spec a "/") as [->|Hne].
  - by destruct rest.
  - destruct (Cut rest "/"%char) as [[]|]; discriminate Hc.
Qed.

(** Without [--all] or [-A] and without a name nothing is read or written. *)
Theorem no_implicit_bulk outputDir dryRun namespace s :
  ∃ err, runIngressConvert [] outputDir dryRun namespace false false s = (Fail err, s) ∧ runIngressPreview [] namespace false false (ck_cluster (cn_clocked s)) = (Fail err, ck_cluster (cn_clocked s)).
Proof. by eexists. Qed.
End commands.

(** ** The tenant's namespace *)

Lemma str_app_longer p s : s = p ⊕ s → p = "".
Proof. intros E. apply (f_equal String.length) in E. rewrite str_length_app in E. destruct p; [done|]. simpl in E. lia. Qed.

(** The command works in the namespace that the manager made for the tenant exactly when the
    name of the tenant does not itself start with [tenant-]; otherwise it works in that of
    the tenant without the prefix. *)
Theorem tenant_namespace_agrees (tenant : string) :
  (GetTenantNamespace tenant = tenantNamespacePattern tenant ↔ HasPrefix tenant "tenant-" = false) ∧
  (∀ other, GetTenantNamespace (tenantNamespacePattern other) = tenantNamespacePattern other) ∧
  (HasPrefix tenant "tenant-" = false → RemoveTenantPrefix (GetTenantNamespace tenant) = tenant).
Proof.
  unfold GetTenantNamespace. split_and!.
  - destruct (HasPrefix tenant "tenant-"); [|done]. split; [|done]. intros E. apply str_app_longer in E. discriminate E.
  - intros other. unfold tenantNamespacePattern. by rewrite HasPrefix_app.
  - intros ->. apply RemoveTenantPrefix_pattern.
Qed.

(** ** The edition *)

Section edition.
Context (LoadFromFile : string -> result string) (UserHomeDir : result string).
Context (BuildConfigFromFlags : string -> option string) (NewForConfig : option string) (refuses : string -> option string).
#[local] Abbreviation DetectEdition := (DetectEdition NewForConfig).
#[local] Abbreviation LoadCache := (LoadCache LoadFromFile UserHomeDir).
#[local] Abbreviation createClient := (createKubernetesClientWithEditionDetection LoadFromFile UserHomeDir BuildConfigFromFlags NewForConfig refuses).
#[local] Abbreviation getCacheFilePath := (getCacheFilePath LoadFromFile UserHomeDir).

Lemma extract_editions tenantState edition : extractEditionFromTenantState tenantState = Some edition → edition = EditionEE ∨ edition = EditionCE.
Proof. unfold extractEditionFromTenantState. repeat case_bool_decide; intros; simplify_eq; auto. Qed.

Lemma yields_DetectEdition ns : yields (λ edition, edition = EditionEE ∨ edition = EditionCE) (DetectEdition ns).
Proof.
  unfold CLIClient.DetectEdition. destruct NewForConfig; [by intros ???|]. apply yields_bind. intros found.
  destruct (found ≫= extractEditionFromTenantState) as [edition|] eqn:Hf.
  - apply bind_Some in Hf as (tenantState & _ & Hf). apply yields_ret. by eapply extract_editions.
  - unfold detectEditionByCRDs. apply yields_bind. intros [|]; apply yields_ret; [by left|by right].
Qed.

Lemma answers_DetectEdition ns : answers (DetectEdition ns).
Proof. unfold CLIClient.DetectEdition, readTenantState, detectEditionByCRDs. destruct NewForConfig; ends_solve. Qed.

Lemma within_DetectEdition ns : within (changes nothing) (DetectEdition ns).
Proof. unfold CLIClient.DetectEdition, readTenantState, detectEditionByCRDs. destruct NewForConfig; within_solve. Qed.

(** making a client fails only for the kubeconfig; it changes no object and takes no
    time; the edition is one of the two. After a miss of the cache it is remembered: for 48
    hours every command with that kubeconfig and tenant takes it from the file, without a
    call, whatever has become of the cluster. *)
Theorem edition_remembered cfg s f :
  CreateKubernetesConfig BuildConfigFromFlags (cfg_KubeConfig cfg) = Ok tt →
  getCacheFilePath (cfg_KubeConfig cfg) (cfg_Tenant cfg) = Ok f → refuses f = None → LoadCache (cfg_KubeConfig cfg) (cfg_Tenant cfg) s = (Ret "", s) →
  ∃ edition s1, createClient cfg s = (Ret {| cfg with cfg_Edition := edition |}, s1) ∧ (edition = EditionEE ∨ edition = EditionCE) ∧
    ticks nothing (sn_clocked s) (sn_clocked s1) ∧ ck_now (sn_clocked s1) = ck_now (sn_clocked s) ∧
    ∀ s2, sn_files s2 !! f = sn_files s1 !! f → (ck_now (sn_clocked s2) <= ck_now (sn_clocked s) + CacheTTL)%Z →
      createClient cfg s2 = (Ret {| cfg with cfg_Edition := edition |}, s2).
Proof.
  intros Hconf Hpath Hok Hmiss. unfold createKubernetesClientWithEditionDetection. rewrite Hconf. rewrite (bind_eval _ _ _ _ _ Hmiss). cbn [negb]. rewrite bool_decide_true by done. cbn [negb].
  pose proof (within_DetectEdition (cfg_TenantNamespace cfg) (ck_cluster (sn_clocked s))) as Hc.
  pose proof (answers_DetectEdition (cfg_TenantNamespace cfg) (ck_cluster (sn_clocked s))) as Ha.
  pose proof (yields_DetectEdition (cfg_TenantNamespace cfg) (ck_cluster (sn_clocked s))) as Hy.
  destruct (DetectEdition (cfg_TenantNamespace cfg) (ck_cluster (sn_clocked s))) as [r c1] eqn:Hr. simpl in Hc, Ha.
  set (edition := match r with Ret edition => edition | _ => EditionCE end).
  assert (edition = EditionEE ∨ edition = EditionCE) as He by (unfold edition; destruct r; [by eapply Hy|by right|done|done]).
  set (s1 := {| s with sn_clocked := {| (sn_clocked s) with ck_cluster := c1 |} |}).
  assert (∃ r', try (atCluster (DetectEdition (cfg_TenantNamespace cfg))) s = (Ret r', s1) ∧ match r' with inl e => e | inr _ => EditionCE end = edition) as (r' & Hr' & Hre).
  { assert (atCluster (DetectEdition (cfg_TenantNamespace cfg)) s = (r, s1)) as Hat.
    { unfold atCluster. erewrite zoom_eval; [reflexivity|]. by apply (inCluster_eval _ (sn_clocked s)). }
    destruct r; try done; [by eexists (inl _); split; [apply try_eval|]|by eexists (inr _); split; [apply try_Fail|]]. }
  rewrite (bind_eval _ _ _ _ _ Hr'). cbv zeta. rewrite Hre.
  set (s2 := {| s1 with sn_files := <[f := Some {| ec_Edition := edition; ec_Timestamp := ck_now (sn_clocked s) |}]> (sn_files s) |}).
  assert (SaveCache LoadFromFile UserHomeDir refuses (cfg_KubeConfig cfg) (cfg_Tenant cfg) edition s1 = (Ret tt, s2)) as Hsave by (unfold SaveCache; by rewrite Hpath, Hok).
  rewrite (bind_eval _ _ _ _ _ (try_eval _ _ _ _ Hsave)). exists edition, s2. split_and!; [done|done|split; simpl; [done|lia]|done|].
  intros s3 Hf Hn. assert (LoadCache (cfg_KubeConfig cfg) (cfg_Tenant cfg) s3 = (Ret edition, s3)) as Hhit.
  { unfold CLIClient.LoadCache. rewrite Hpath. unfold gets. rewrite Hf. simpl. rewrite lookup_insert_eq. simpl. by rewrite (proj2 (Z.ltb_ge _ _)) by lia. }
  rewrite (bind_eval _ _ _ _ _ Hhit). rewrite bool_decide_false; [done|]. destruct He as [-> | ->]; discriminate.
Qed.
End edition.

(** ** The choice of Ingresses *)

(** there is no bulk conversion by omission. Flags that pass the check mean either the
    named Ingresses, a name without namespace taken from [-n] or from [default], or with
    [--all] those of the namespace given, or with [-A] all of the cluster. *)
Theorem selection_explicit args outputDir dryRun all allNamespaces namespace :
  validateSelectionFlags args all allNamespaces namespace = None →
  let o := convertOptionsOf args outputDir dryRun namespace allNamespaces in
  args ≠ [] ∧ (∀ ref, meant o ref ↔ ref ∈ (λ name, parseIngressName name (if bool_decide (namespace = "") then "default" else namespace)) <$> args) ∨
  args = [] ∧ all = true ∧ namespace ≠ "" ∧ (∀ ref, meant o ref ↔ ref.1 = namespace) ∨
  args = [] ∧ allNamespaces = true ∧ all = false ∧ (∀ ref, meant o ref).
Proof.
  unfold validateSelectionFlags, convertOptionsOf, meant. cbv zeta. cbn [co_Names co_Namespace].
  destruct (decide (args = [])) as [->|Hne].
  - rewrite (bool_decide_true ([] = [])) by done. simpl. destruct all; simpl.
    + destruct allNamespaces; simpl; [done|]. case_bool_decide; [done|]. intros _. right. left. split_and!; try done. intros ref. naive_solver.
    + destruct allNamespaces; [|done]. intros _. right. right. split_and!; try done. by left.
  - rewrite (bool_decide_false (args = [])) by done. simpl. destruct (all || allNamespaces) eqn:Ha; [done|]. apply orb_false_iff in Ha as [-> ->]. simpl.
    intros _. left. split; [done|]. intros ref. by case_bool_decide.
Qed.

(** ** Examples *)

(** A tenant called [tenant-a] has the namespace [tenant-tenant-a]; the command goes to that
    of the tenant [a]. *)
Example tenant_with_prefix : tenantNamespacePattern "tenant-a" = "tenant-tenant-a" ∧ GetTenantNamespace "tenant-a" = tenantNamespacePattern "a".
Proof. split; reflexivity. Qed.

Definition sampleConfig : Config :=
  {| cfg_KubeConfig := "/kube"; cfg_Tenant := "a"; cfg_TenantNamespace := "tenant-a"; cfg_InsecureSkipVerify := false; cfg_Edition := "" |}.
Definition stationOf (c : Cluster) : Station := {| sn_clocked := {| ck_cluster := c; ck_now := 1000 |}; sn_files := ∅ |}.
Definition tenantStateOf (edition : string) : TenantState :=
  {| ts_Meta := objectMeta "default" "tenant-a" "uid-1" None None;
     ts_Status := {| (emptyTenantStateStatus) with tss_Version := {| (emptyVersion) with ver_Edition := edition |} |} |}.
#[local] Abbreviation sampleClient := (createKubernetesClientWithEditionDetection (λ _, Ok "ctx") (Ok "/root") (λ _, None) None (λ _, None)).

Lemma edition_remembered_witness : ∃ edition s1, sampleClient sampleConfig (stationOf (sampleCluster [OTenantState (tenantStateOf "EE")])) =
  (Ret {| sampleConfig with cfg_Edition := edition |}, s1) ∧ sampleClient sampleConfig {| s1 with sn_clocked := {| ck_cluster := sampleCluster []; ck_now := 5000 |} |} =
  (Ret {| sampleConfig with cfg_Edition := edition |}, {| s1 with sn_clocked := {| ck_cluster := sampleCluster []; ck_now := 5000 |} |}).
Proof.
  destruct (edition_remembered (λ _, Ok "ctx") (Ok "/root") (λ _, None) None (λ _, None) sampleConfig (stationOf (sampleCluster [OTenantState (tenantStateOf "EE")]))
    (match getCacheFilePath (λ _, Ok "ctx") (Ok "/root") "/kube" "a" with Ok f => f | Err _ => "" end)) as (edition & s1 & Hr & _ & _ & _ & Hlater);
    [reflexivity|vm_compute; reflexivity|reflexivity|vm_compute; reflexivity|].
  exists edition, s1. split; [exact Hr|]. apply Hlater; [reflexivity|]. unfold CacheTTL. simpl. lia.
Defined.

Lemma selection_explicit_witness : meant (convertOptionsOf ["web"; "shop/api"] "" false "" false) ("default", "web") ∧ meant (convertOptionsOf [] "" false "shop" false) ("shop", "api").
Proof.
  split.
  - destruct (selection_explicit ["web"; "shop/api"] "" false false false "" eq_refl) as [[_ H]|[(H & _)|(H & _)]]; [|discriminate H..]. apply H. left.
  - destruct (selection_explicit [] "" false true false "shop" eq_refl) as [[H _]|[(_ & _ & _ & H)|(_ & H & _)]]; [by destruct H| |discriminate H]. by apply H.
Defined.

(** Every error on the way counts as the community edition, which is then kept: one refused
    read, and for two days the enterprise commands are not available. *)
Example refused_read_is_community :
  let s := stationOf {| (sampleCluster [OTenantState (tenantStateOf "EE")]) with cl_faults := [Some (Errorf "timeout"); Some (Errorf "timeout"); Some (Errorf "timeout")] |} in
  let '(r, s1) := sampleClient sampleConfig s in
  r = Ret {| sampleConfig with cfg_Edition := EditionCE |} ∧
  (sampleClient sampleConfig {| s1 with sn_clocked := {| ck_cluster := sampleCluster [OTenantState (tenantStateOf "EE")]; ck_now := 170000 |} |}).1 = Ret {| sampleConfig with cfg_Edition := EditionCE |}.
Proof. vm_compute. split; reflexivity. Qed.

(** The key of a cache file is ambiguous: two contexts share one. *)
Example cache_key_ambiguous : cacheIdentifier "/kube" "a" "b-c" = cacheIdentifier "/kube" "a-b" "c".
Proof. reflexivity. Qed.

(** The flag for annotations of the Gateway adds to those of the environment; the others
    replace the value there. *)
Example annotation_flag_adds :
  (λ m : StrMap, map_to_list m) <$> gatewayAnnotationsValue_Set (Some (parseAnnotations "a=1,b=2")) "a=3" = Some [("a", "3"); ("b", "2")].
Proof. vm_compute. reflexivity. Qed.

(** The variable that turns colours off counts only for terminals that are not known. *)
Definition noColor (key : string) : string := if bool_decide (key = "TERM") then "xterm-256color" else if bool_decide (key = "NO_COLOR") then "1" else "".
Example no_color_ignored : isTerminalSupported noColor = true.
Proof. reflexivity. Qed.
