(* ===== verification/CLIUI.v ===== *)
(** * The dashboard of the command line

    [cli/internal/ui]: [kubelb serve] answers requests of a browser: it lists Ingresses,
    routes, Gateways and policies, shows, converts, skips and deletes them, one or many. It
    acts with the rights of the kubeconfig, and asks for no credentials.

    A request is its method, the segments of its path and the keys its JSON body names,
    [None] when it cannot be decoded; a response is its code and the body before it becomes
    JSON. The addresses of a Gateway are not part of the model. *)

From Stdlib Require Import Ascii.
From S2P Require Import Prelude GoStrings Api GatewayApi Kube Finalizers ConvAnnotations ConvPolicies Converter ConvGateway Manager Upserts IngressToGateway ConversionPass CLIIngress CLIPass CLIPreview CLIExamples.
Local Open Scope go_scope.

(** ** Responses *)

Definition conditionAccepted : string := "Accepted".
Definition kindGateway : string := "Gateway".
Definition kindHTTPRoute : string := "HTTPRoute".
Definition kindGRPCRoute : string := "GRPCRoute".
Definition kindBackendPolicy : string := "BackendTrafficPolicy".
Definition kindSecurityPolicy : string := "SecurityPolicy".
Definition kindClientPolicy : string := "ClientTrafficPolicy".
Definition statusUnknown : string := "Unknown".
Definition statusTrue : string := "True".

Record ConfigInfo := {
  ci_GatewayName : string;
  ci_GatewayNamespace : string;
  ci_GatewayClass : string;
  ci_IngressClass : string;
  ci_DomainReplace : string;
  ci_DomainSuffix : string;
  ci_PropagateExtDNS : bool;
  ci_CopyTLSSecrets : bool;
  ci_DisableEGFeatures : bool;
}.

Record SummaryResponse := {
  sr_Total : nat; sr_Converted : nat; sr_Partial : nat; sr_Pending : nat; sr_Failed : nat; sr_Skipped : nat; sr_New : nat;
}.

Record IngressResponse := {
  ir_Name : string;
  ir_Namespace : string;
  ir_Status : string;
  ir_Hosts : list string;
  ir_HTTPRoutes : list string;
  ir_GRPCRoutes : list string;
  ir_Warnings : list string;
  ir_SkipReason : string;
}.

Record IngressListResponse := { ilr_Summary : SummaryResponse; ilr_Ingresses : list IngressResponse; ilr_Config : ConfigInfo }.

Record GatewayResourceResponse := {
  grr_Kind : string;
  grr_Name : string;
  grr_Namespace : string;
  grr_Hostnames : list string;
  grr_Gateway : string;
  grr_TargetRef : string;
  grr_SourceIngress : string;
  grr_ManagedBy : string;
  grr_Status : string;
  grr_StatusReason : string;
}.

Record RoutesListResponse := {
  rlr_Gateways : list GatewayResourceResponse;
  rlr_HTTPRoutes : list GatewayResourceResponse;
  rlr_GRPCRoutes : list GatewayResourceResponse;
  rlr_BackendTrafficPolicies : list GatewayResourceResponse;
  rlr_SecurityPolicies : list GatewayResourceResponse;
  rlr_ClientTrafficPolicies : list GatewayResourceResponse;
}.

Record ConvertResponse := {
  cv_Success : bool;
  cv_Message : string;
  cv_Error : string;
  cv_Ingresses : option IngressListResponse;
  cv_Routes : option RoutesListResponse;
}.

Record BatchConvertResponse := {
  bc_Converted : list string;
  bc_Skipped : list string;
  bc_Failed : gmap string string;
  bc_Ingresses : option IngressListResponse;
  bc_Routes : option RoutesListResponse;
}.

Record AnnotationInfo := { ai_Annotation : string; ai_Status : string; ai_GatewayAPI : string; ai_Description : string }.
Record AnnotationsResponse := { ar_Converted : list AnnotationInfo; ar_Policy : list AnnotationInfo; ar_Unsupported : list AnnotationInfo }.

Inductive Body :=
| BodyPage
| BodyError (msg : string)
| BodyMessage (msg : string)
| BodyIngresses (r : IngressListResponse)
| BodyPreview (r : PreviewResult)
| BodyConvert (r : ConvertResponse)
| BodyBatchConvert (r : BatchConvertResponse)
| BodyBatchPreview (convertedYAML : string) (warnings : list string)
| BodyAnnotations (r : AnnotationsResponse)
| BodyRoutes (r : RoutesListResponse)
| BodyYAML (yaml : string).

Record Response := { rsp_Code : Z; rsp_Body : Body }.
Definition writeJSON {S} (code : Z) (data : Body) : M S Response := mret {| rsp_Code := code; rsp_Body := data |}.
Definition StatusOK : Z := 200.
Definition StatusBadRequest : Z := 400.
Definition StatusNotFound : Z := 404.
Definition StatusMethodNotAllowed : Z := 405.
Definition StatusInternalServerError : Z := 500.
Definition refuse {S} (code : Z) (err : Error) : M S Response := writeJSON code (BodyError (ErrorString err)).

(** ** What is shown *)

(** [if value, ok := annotations[key]; ok] *)
Definition ifPresent (annotations : GoMap) (key : string) (found : string -> Info -> Info) (info : Info) : Info :=
  match entries annotations !! key with Some value => found value info | None => info end.
Definition unlessEmpty (found : string -> Info -> Info) (value : string) (info : Info) : Info := if bool_decide (value = "") then info else found value info.

(** A nil map has no entries; the early return for one changes nothing. *)
Definition extractInfo (ing : Ingress) : Info :=
  let annotations := om_Annotations (ing_Meta ing) in
  let setReason reason info := {| info with inf_SkipReason := reason |} in
  if ShouldSkip ing then
    let info := ifPresent annotations AnnotationConversionSkipReason setReason
      {| inf_Name := om_Name (ing_Meta ing); inf_Namespace := om_Namespace (ing_Meta ing); inf_Status := ConversionStatusSkipped;
         inf_Hosts := filter (λ host, host ≠ "") (ir_Host <$> ing_Rules ing);
         inf_HTTPRoutes := []; inf_GRPCRoutes := []; inf_Warnings := []; inf_SkipReason := "" |} in
    if bool_decide (inf_SkipReason info = "") then setReason "marked with skip-conversion" info else info
  else
    ifPresent annotations AnnotationConversionSkipReason setReason
      (ifPresent annotations AnnotationConversionWarnings (unlessEmpty (λ warnings info, {| info with inf_Warnings := Split warnings ";"%char |}))
        (ifPresent annotations AnnotationConvertedGRPCRoute (unlessEmpty (λ routes info, {| info with inf_GRPCRoutes := Split routes ","%char |}))
          (ifPresent annotations AnnotationConvertedHTTPRoute (unlessEmpty (λ routes info, {| info with inf_HTTPRoutes := Split routes ","%char |}))
            (ifPresent annotations AnnotationConversionStatus (λ status info, {| info with inf_Status := status |})
              {| inf_Name := om_Name (ing_Meta ing); inf_Namespace := om_Namespace (ing_Meta ing); inf_Status := StatusNew;
                 inf_Hosts := filter (λ host, host ≠ "") (ir_Host <$> ing_Rules ing);
                 inf_HTTPRoutes := []; inf_GRPCRoutes := []; inf_Warnings := []; inf_SkipReason := "" |})))).

Fixpoint extractGatewayStatus (conditions : list Condition) : string * string :=
  match conditions with
  | [] => (statusUnknown, "")
  | cond :: conditions =>
      if bool_decide (cond_Type cond = conditionAccepted) || bool_decide (cond_Type cond = "Programmed") then
        if bool_decide (cond_Status cond = statusTrue) then ("Ready", "") else ("NotReady", cond_Reason cond)
      else extractGatewayStatus conditions
  end.

Fixpoint acceptedStatus (conditions : list Condition) : option (string * string) :=
  match conditions with
  | [] => None
  | cond :: conditions =>
      if bool_decide (cond_Type cond = conditionAccepted)
      then Some (if bool_decide (cond_Status cond = statusTrue) then ("Accepted", "") else ("NotAccepted", cond_Reason cond))
      else acceptedStatus conditions
  end.
Fixpoint extractRouteStatus (parents : list RouteParentStatus) : string * string :=
  match parents with
  | [] => (statusUnknown, "")
  | parent :: parents => match acceptedStatus (rps_Conditions parent) with Some status => status | None => extractRouteStatus parents end
  end.

(** [extractLabel] and [extractAnnotation] *)
Definition extractLabel (labels : GoMap) (key : string) : string := get labels key.

Definition extractParentRef (refs : list ParentReference) (defaultNS : string) : string :=
  match refs with [] => "" | ref :: _ => default defaultNS (pr_Namespace ref) ⊕ "/" ⊕ pr_Name ref end.

Definition extractPolicyTargetRef (ref : option PolicyTargetReference) : string :=
  match ref with Some ref => ptr_Kind ref ⊕ "/" ⊕ ptr_Name ref | None => "" end.

(** What the responses for all kinds have in common *)
Definition resourceResponse (kind : string) (meta : ObjectMeta) (status : string * string) : GatewayResourceResponse :=
  {| grr_Kind := kind; grr_Name := om_Name meta; grr_Namespace := om_Namespace meta; grr_Hostnames := []; grr_Gateway := ""; grr_TargetRef := "";
     grr_SourceIngress := ""; grr_ManagedBy := extractLabel (om_Labels meta) LabelManagedBy; grr_Status := status.1; grr_StatusReason := status.2 |}.

Definition gatewayResponse (gw : Gateway) : GatewayResourceResponse := resourceResponse kindGateway (gw_Meta gw) (extractGatewayStatus (gw_Conditions gw)).
Definition routeResponse {Rule} (kind : string) (route : GatewayRoute Rule) : GatewayResourceResponse :=
  {| (resourceResponse kind (gr_Meta route) (extractRouteStatus (gr_Status route))) with
       grr_Hostnames := gr_Hostnames route;
       grr_Gateway := extractParentRef (gr_ParentRefs route) (om_Namespace (gr_Meta route));
       grr_SourceIngress := get (om_Annotations (gr_Meta route)) "kubelb.k8c.io/source-ingress" |}.
Definition policyResponse (kind : string) (meta : ObjectMeta) (targetRef : option PolicyTargetReference) : GatewayResourceResponse :=
  {| (resourceResponse kind meta ("Active", "")) with
       grr_TargetRef := extractPolicyTargetRef targetRef; grr_SourceIngress := extractLabel (om_Labels meta) LabelSourceIngress |}.

(** Nothing is shown of what cannot be listed. *)
Definition listResources (O : Type) `{!Resource O} (show : O -> GatewayResourceResponse) : M Cluster (list GatewayResourceResponse) :=
  r ← try (List O None ∅);
  mret match r with inl items => show <$> items | inr _ => [] end.

(** ** Which annotations are converted *)

Definition nginx (s : string) : string := "nginx.ingress.kubernetes.io/" ⊕ s.
Definition annotationInfo (status annotation gatewayAPI : string) : AnnotationInfo :=
  {| ai_Annotation := nginx annotation; ai_Status := status; ai_GatewayAPI := gatewayAPI; ai_Description := "" |}.
Definition unsupported (annotation description : string) : AnnotationInfo :=
  {| ai_Annotation := nginx annotation; ai_Status := "unsupported"; ai_GatewayAPI := ""; ai_Description := description |}.
Definition annotationMatrix : AnnotationsResponse :=
  {| ar_Converted := [
       annotationInfo "converted" "ssl-redirect" "RequestRedirect (301)";
       annotationInfo "converted" "force-ssl-redirect" "RequestRedirect (308)";
       annotationInfo "converted" "permanent-redirect" "RequestRedirect (301)";
       annotationInfo "converted" "rewrite-target" "URLRewrite (ReplacePrefixMatch)";
       annotationInfo "converted" "use-regex" "pathType: RegularExpression";
       annotationInfo "converted" "proxy-set-headers" "RequestHeaderModifier";
       annotationInfo "converted" "custom-headers" "ResponseHeaderModifier";
       annotationInfo "converted" "hsts*" "ResponseHeaderModifier (Strict-Transport-Security)"];
     ar_Policy := [
       annotationInfo "policy" "proxy-*-timeout" "BackendTrafficPolicy";
       annotationInfo "policy" "enable-cors" "SecurityPolicy";
       annotationInfo "policy" "cors-*" "SecurityPolicy";
       annotationInfo "policy" "limit-rps" "BackendTrafficPolicy (rateLimit)";
       annotationInfo "policy" "limit-rpm" "BackendTrafficPolicy (rateLimit)";
       annotationInfo "policy" "whitelist-source-range" "SecurityPolicy (authorization)";
       annotationInfo "policy" "auth-*" "SecurityPolicy (basicAuth/extAuth)"];
     ar_Unsupported := [
       unsupported "configuration-snippet" "Raw NGINX config not supported";
       unsupported "canary-*" "Canary ingresses are skipped entirely";
       unsupported "enable-modsecurity" "WAF is implementation-specific"] |}.

(** ** The handlers *)

Section server.
Context (opts : Options).
Context (url_Parse : string -> result URL) (MarshalHTTP : list HTTPRouteRule -> option (list N)) (MarshalGRPC : list GRPCRouteRule -> option (list N)).
Context (elapse : Z -> Cluster -> Cluster) (rangeNames : gset string -> list string) (Marshal : Object -> result string) (fileRefuses : string -> option string).
#[local] Abbreviation Preview := (Preview opts url_Parse MarshalHTTP MarshalGRPC rangeNames Marshal).
#[local] Abbreviation BatchPreview := (BatchPreview opts url_Parse MarshalHTTP MarshalGRPC rangeNames Marshal).
#[local] Abbreviation Convert := (Convert opts url_Parse MarshalHTTP MarshalGRPC elapse rangeNames Marshal fileRefuses).

Definition configInfo : ConfigInfo :=
  {| ci_GatewayName := opt_GatewayName opts; ci_GatewayNamespace := opt_GatewayNamespace opts; ci_GatewayClass := opt_GatewayClassName opts;
     ci_IngressClass := opt_IngressClass opts; ci_DomainReplace := opt_DomainReplace opts; ci_DomainSuffix := opt_DomainSuffix opts;
     ci_PropagateExtDNS := opt_PropagateExternalDNS opts; ci_CopyTLSSecrets := opt_CopyTLSSecrets opts; ci_DisableEGFeatures := opt_DisableEnvoyGatewayFeatures opts |}.

Definition summaryResponse (s : Summary) : SummaryResponse :=
  {| sr_Total := sm_Total s; sr_Converted := sm_Converted s; sr_Partial := sm_Partial s; sr_Pending := sm_Pending s;
     sr_Failed := sm_Failed s; sr_Skipped := sm_Skipped s; sr_New := sm_New s |}.
Definition ingressResponse (info : Info) : IngressResponse :=
  {| ir_Name := inf_Name info; ir_Namespace := inf_Namespace info; ir_Status := inf_Status info; ir_Hosts := inf_Hosts info;
     ir_HTTPRoutes := inf_HTTPRoutes info; ir_GRPCRoutes := inf_GRPCRoutes info; ir_Warnings := inf_Warnings info; ir_SkipReason := inf_SkipReason info |}.

Definition ingressListResponse (ingresses : list Ingress) : IngressListResponse :=
  let infos := extractInfo <$> filter (λ ing, bool_decide (opt_IngressClass opts ≠ "") && negb (MatchesIngressClass ing (opt_IngressClass opts)) = false) ingresses in
  {| ilr_Summary := summaryResponse (calculateSummary infos); ilr_Ingresses := ingressResponse <$> infos; ilr_Config := configInfo |}.

Definition handleListIngresses : M Cluster Response :=
  r ← try (List Ingress None ∅);
  match r with
  | inr err => refuse StatusInternalServerError err
  | inl ingresses => writeJSON StatusOK (BodyIngresses (ingressListResponse ingresses))
  end.

Definition fetchIngressList : M Cluster (option IngressListResponse) :=
  r ← try (List Ingress None ∅);
  mret match r with inl ingresses => Some (ingressListResponse ingresses) | inr _ => None end.

Definition buildRoutesListResponse : M Cluster RoutesListResponse :=
  gateways ← listResources Gateway gatewayResponse;
  httpRoutes ← listResources HTTPRoute (routeResponse kindHTTPRoute);
  grpcRoutes ← listResources GRPCRoute (routeResponse kindGRPCRoute);
  if opt_DisableEnvoyGatewayFeatures opts then
    mret {| rlr_Gateways := gateways; rlr_HTTPRoutes := httpRoutes; rlr_GRPCRoutes := grpcRoutes;
            rlr_BackendTrafficPolicies := []; rlr_SecurityPolicies := []; rlr_ClientTrafficPolicies := [] |}
  else
    backend ← listResources BackendTrafficPolicy (λ policy, policyResponse kindBackendPolicy (btp_Meta policy) (Some (btp_TargetRef policy)));
    security ← listResources SecurityPolicy (λ policy, policyResponse kindSecurityPolicy (secp_Meta policy) (Some (secp_TargetRef policy)));
    client ← listResources ClientTrafficPolicy (λ policy, policyResponse kindClientPolicy (ctp_Meta policy) (ctp_TargetRef policy));
    mret {| rlr_Gateways := gateways; rlr_HTTPRoutes := httpRoutes; rlr_GRPCRoutes := grpcRoutes;
            rlr_BackendTrafficPolicies := backend; rlr_SecurityPolicies := security; rlr_ClientTrafficPolicies := client |}.

Definition handleListRoutes : M Cluster Response := resp ← buildRoutesListResponse; writeJSON StatusOK (BodyRoutes resp).
Definition handleAnnotations : M Cluster Response := writeJSON StatusOK (BodyAnnotations annotationMatrix).

Definition handlePreview (key : NamespacedName) : M Cluster Response :=
  r ← try (Preview key);
  match r with inr err => refuse StatusBadRequest err | inl result => writeJSON StatusOK (BodyPreview result) end.

Definition handleBatchPreview (body : option (list NamespacedName)) : M Cluster Response :=
  match body with
  | None => writeJSON StatusBadRequest (BodyError "invalid request body")
  | Some [] => writeJSON StatusBadRequest (BodyError "no ingresses specified")
  | Some inputs =>
      r ← try (BatchPreview inputs);
      match r with inr err => refuse StatusBadRequest err | inl (convertedYAML, warnings) => writeJSON StatusOK (BodyBatchPreview convertedYAML warnings) end
  end.

(** *** Converting *)

Definition convertNamed (names : list string) : ConvertOptions :=
  {| co_OutputDir := ""; co_DryRun := false; co_Names := names; co_Namespace := ""; co_SkipAcceptancePolling := true |}.

Definition refusedConvert (code : Z) (msg : string) : M Console Response :=
  writeJSON code (BodyConvert {| cv_Success := false; cv_Message := ""; cv_Error := msg; cv_Ingresses := None; cv_Routes := None |}).

(** The error of [Convert], whether it comes with a result or not *)
Definition convertOrError (names : list string) : M Console (ConvertResult + Error) :=
  r ← try (Convert (convertNamed names));
  mret match r with inl (result, None) => inl result | inl (_, Some err) => inr err | inr err => inr err end.

Definition handleConvert (key : NamespacedName) : M Console Response :=
  r ← convertOrError [slashed key];
  match r with
  | inr err => refusedConvert StatusInternalServerError (ErrorString err)
  | inl result =>
      match map_to_list (cr_Failed result) with
      | (_, e) :: _ => refusedConvert StatusBadRequest (ErrorString e)
      | [] =>
          ingressList ← onCluster fetchIngressList;
          routesList ← onCluster buildRoutesListResponse;
          writeJSON StatusOK (BodyConvert {| cv_Success := true; cv_Message := "Converted successfully"; cv_Error := "";
                                             cv_Ingresses := ingressList; cv_Routes := Some routesList |})
      end
  end.

Definition handleBatchConvert (body : option (list NamespacedName)) : M Console Response :=
  match body with
  | None => writeJSON StatusBadRequest (BodyError "invalid request body")
  | Some ingresses =>
      r ← convertOrError (slashed <$> ingresses);
      match r with
      | inr err => refuse StatusInternalServerError err
      | inl result =>
          ingressList ← onCluster fetchIngressList;
          routesList ← onCluster buildRoutesListResponse;
          writeJSON StatusOK (BodyBatchConvert {| bc_Converted := cr_Converted result; bc_Skipped := cr_Skipped result; bc_Failed := ErrorString <$> cr_Failed result;
                                                  bc_Ingresses := ingressList; bc_Routes := Some routesList |})
      end
  end.

(** *** Changing and deleting *)

Definition deleteObject (O : Type) `{!Resource O} (key : NamespacedName) : M Cluster Response :=
  r ← try (Get O key);
  match r with
  | inr err => refuse StatusNotFound err
  | inl _ =>
      r ← try (Delete O key);
      match r with inr err => refuse StatusInternalServerError err | inl _ => writeJSON StatusOK (BodyMessage "deleted") end
  end.

Definition handleDeleteIngress (key : NamespacedName) : M Cluster Response := deleteObject Ingress key.

Definition skipped (ing : Ingress) : Ingress :=
  {| ing with ing_Meta := {| (ing_Meta ing) with
       om_Annotations := Some (<[AnnotationConversionSkipReason := "skipped via UI"]> (<[AnnotationSkipConversion := "true"]> (entries (om_Annotations (ing_Meta ing))))) |} |}.

Definition handleSkipIngress (key : NamespacedName) : M Cluster Response :=
  r ← try (Get Ingress key);
  match r with
  | inr err => refuse StatusNotFound err
  | inl ing =>
      r ← try (Update (skipped ing));
      match r with inr err => refuse StatusInternalServerError err | inl _ => writeJSON StatusOK (BodyMessage "skipped") end
  end.

(** *** Resources of the Gateway API *)

Definition unsupportedKind (kind : string) : M Cluster Response := writeJSON StatusBadRequest (BodyError ("unsupported resource kind: " ⊕ kind)).

(** Managed fields are not part of the model; version and kind are those of the type. *)
Definition previewObject (O : Type) `{!Resource O} (key : NamespacedName) : M Cluster Response :=
  r ← try (Get O key);
  match r with
  | inr err => refuse StatusNotFound err
  | inl obj =>
      match Marshal (inject obj) with
      | Err msg => writeJSON StatusInternalServerError (BodyError ("failed to marshal: " ⊕ msg))
      | Ok yaml => writeJSON StatusOK (BodyYAML yaml)
      end
  end.

Definition handleResourcePreview (kind : string) (key : NamespacedName) : M Cluster Response :=
  if bool_decide (kind = kindGateway) then previewObject Gateway key
  else if bool_decide (kind = kindHTTPRoute) then previewObject HTTPRoute key
  else if bool_decide (kind = kindGRPCRoute) then previewObject GRPCRoute key
  else if bool_decide (kind = kindBackendPolicy) then previewObject BackendTrafficPolicy key
  else if bool_decide (kind = kindSecurityPolicy) then previewObject SecurityPolicy key
  else if bool_decide (kind = kindClientPolicy) then previewObject ClientTrafficPolicy key
  else unsupportedKind kind.

Definition handleResourceDelete (kind : string) (key : NamespacedName) : M Cluster Response :=
  if bool_decide (kind = kindGateway) then deleteObject Gateway key
  else if bool_decide (kind = kindHTTPRoute) then deleteObject HTTPRoute key
  else if bool_decide (kind = kindGRPCRoute) then deleteObject GRPCRoute key
  else if bool_decide (kind = kindBackendPolicy) then deleteObject BackendTrafficPolicy key
  else if bool_decide (kind = kindSecurityPolicy) then deleteObject SecurityPolicy key
  else if bool_decide (kind = kindClientPolicy) then deleteObject ClientTrafficPolicy key
  else unsupportedKind kind.

(** ** [handler.go] *)

(** A handler gets the values of the path's wildcards and the body. *)
Definition arg (n : nat) (args : list string) : string := default "" (args !! n).
Definition keyArg (n : nat) (args : list string) : NamespacedName := (arg n args, arg (S n) args).

Definition mux : list (string * list string * (list string -> option (list NamespacedName) -> M Console Response)) := [
  ("GET", ["api"; "ingresses"], λ _ _, onCluster handleListIngresses);
  ("GET", ["api"; "ingresses"; "{namespace}"; "{name}"; "preview"], λ args _, onCluster (handlePreview (keyArg 0 args)));
  ("POST", ["api"; "ingresses"; "{namespace}"; "{name}"; "convert"], λ args _, handleConvert (keyArg 0 args));
  ("DELETE", ["api"; "ingresses"; "{namespace}"; "{name}"], λ args _, onCluster (handleDeleteIngress (keyArg 0 args)));
  ("POST", ["api"; "ingresses"; "{namespace}"; "{name}"; "skip"], λ args _, onCluster (handleSkipIngress (keyArg 0 args)));
  ("POST", ["api"; "ingresses"; "convert"], λ _ body, handleBatchConvert body);
  ("POST", ["api"; "ingresses"; "preview"], λ _ body, onCluster (handleBatchPreview body));
  ("GET", ["api"; "routes"], λ _ _, onCluster handleListRoutes);
  ("GET", ["api"; "annotations"], λ _ _, onCluster handleAnnotations);
  ("GET", ["api"; "resources"; "{kind}"; "{namespace}"; "{name}"], λ args _, onCluster (handleResourcePreview (arg 0 args) (keyArg 1 args)));
  ("DELETE", ["api"; "resources"; "{kind}"; "{namespace}"; "{name}"], λ args _, onCluster (handleResourceDelete (arg 0 args) (keyArg 1 args)))].

(** [net/http]'s matching of a pattern: the values of the wildcards *)
Fixpoint matchPath (pattern path : list string) : option (list string) :=
  match pattern, path with
  | [], [] => Some []
  | p :: pattern, s :: path =>
      if HasPrefix p "{" then cons s <$> matchPath pattern path
      else if bool_decide (p = s) then matchPath pattern path else None
  | _, _ => None
  end.

(** No two patterns match one request, so their order does not matter; the page is what any
    other [GET] gets. *)
Definition Handler (method : string) (path : list string) (body : option (list NamespacedName)) : M Console Response :=
  foldr (λ '(m, pattern, handle) other,
           match matchPath pattern path with
           | Some args => if bool_decide (method = m) then handle args body else other
           | None => other
           end)
        (if bool_decide (method = "GET") then writeJSON StatusOK BodyPage else writeJSON StatusMethodNotAllowed (BodyError "Method Not Allowed"))
        mux.
End server.

(** ** The list *)

Section extract.
Context (ing : Ingress) (name namespace status : string) (hosts http grpc warnings : list string) (reason : string).
#[local] Abbreviation annotations := (om_Annotations (ing_Meta ing)).
#[local] Abbreviation infoWith := (Build_Info name namespace).

Lemma ifPresent_reason : ifPresent annotations AnnotationConversionSkipReason (λ reason info, {| info with inf_SkipReason := reason |})
  (infoWith status hosts http grpc warnings "") = infoWith status hosts http grpc warnings (annotation ing AnnotationConversionSkipReason).
Proof. unfold ifPresent, annotation, get. by destruct (entries _ !! _). Qed.
Lemma ifPresent_status : ifPresent annotations AnnotationConversionStatus (λ status info, {| info with inf_Status := status |})
  (infoWith status hosts http grpc warnings reason) = infoWith (default status (entries annotations !! AnnotationConversionStatus)) hosts http grpc warnings reason.
Proof. unfold ifPresent. by destruct (entries _ !! _). Qed.

Lemma ifPresent_split key sep (found : list string -> Info -> Info) info (with' : list string -> Info) :
  (∀ value, found value info = with' value) → info = with' [] →
  ifPresent annotations key (unlessEmpty (λ value, found (Split value sep))) info = with' (splitAnnotation ing key sep).
Proof.
  intros Hf Hi. unfold ifPresent, unlessEmpty, splitAnnotation, annotation, get. destruct (entries _ !! _) as [value|]; simpl; [|done].
  by destruct (bool_decide (value = "")).
Qed.
End extract.

(** The dashboard has its own copy of this function. *)
Lemma extractInfo_same ing : extractInfo ing = CLIIngress.extractInfo ing.
Proof.
  unfold extractInfo, CLIIngress.extractInfo. rewrite ifPresent_status.
  erewrite (ifPresent_split _ AnnotationConvertedHTTPRoute _ (λ l info, {| info with inf_HTTPRoutes := l |})); [|reflexivity|reflexivity].
  erewrite (ifPresent_split _ AnnotationConvertedGRPCRoute _ (λ l info, {| info with inf_GRPCRoutes := l |})); [|reflexivity|reflexivity].
  erewrite (ifPresent_split _ AnnotationConversionWarnings _ (λ l info, {| info with inf_Warnings := l |})); [|reflexivity|reflexivity].
  rewrite ?ifPresent_reason. destruct (ShouldSkip ing); [|reflexivity]. cbv zeta. cbn [inf_SkipReason]. by destruct (bool_decide (_ = "")).
Qed.

Section promises.
Context (opts : Options).
Context (url_Parse : string -> result URL) (MarshalHTTP : list HTTPRouteRule -> option (list N)) (MarshalGRPC : list GRPCRouteRule -> option (list N)).
Context (elapse : Z -> Cluster -> Cluster) (rangeNames : gset string -> list string) (Marshal : Object -> result string) (fileRefuses : string -> option string).
#[local] Abbreviation Handler := (Handler opts url_Parse MarshalHTTP MarshalGRPC elapse rangeNames Marshal fileRefuses).
#[local] Abbreviation Convert := (Convert opts url_Parse MarshalHTTP MarshalGRPC elapse rangeNames Marshal fileRefuses).
#[local] Abbreviation convertOrError := (convertOrError opts url_Parse MarshalHTTP MarshalGRPC elapse rangeNames Marshal fileRefuses).
#[local] Abbreviation handleConvert := (handleConvert opts url_Parse MarshalHTTP MarshalGRPC elapse rangeNames Marshal fileRefuses).
#[local] Abbreviation handleBatchConvert := (handleBatchConvert opts url_Parse MarshalHTTP MarshalGRPC elapse rangeNames Marshal fileRefuses).

Lemma ingressListResponse_same ingresses :
  let infos := CLIIngress.extractInfo <$> filter (λ ing, classFiltered opts ing = false) ingresses in
  ingressListResponse opts ingresses = {| ilr_Summary := summaryResponse (calculateSummary infos); ilr_Ingresses := ingressResponse <$> infos; ilr_Config := configInfo opts |}.
Proof.
  cbv zeta. unfold ingressListResponse. cbv zeta. unfold classFiltered. rewrite (list_fmap_ext extractInfo CLIIngress.extractInfo); [done|].
  intros. apply extractInfo_same.
Qed.

(** the dashboard lists what [kubelb ingress list -A] lists: the same Ingresses with the
    same status, routes and warnings, and the same counts. *)
Theorem dashboard_lists_like_command c :
  match ListInfos opts "" c with
  | (Ret (summary, infos), c') =>
      handleListIngresses opts c = (Ret {| rsp_Code := StatusOK; rsp_Body := BodyIngresses
        {| ilr_Summary := summaryResponse summary; ilr_Ingresses := ingressResponse <$> infos; ilr_Config := configInfo opts |} |}, c')
  | (_, c') => ∃ msg, handleListIngresses opts c = (Ret {| rsp_Code := StatusInternalServerError; rsp_Body := BodyError msg |}, c')
  end.
Proof.
  unfold ListInfos, handleListIngresses, wrap, try, mbind, M_bind. change (bool_decide ("" = "")) with true. cbv iota.
  pose proof (answers_List (O:=Ingress) None ∅ c) as Ha. destruct (List Ingress None ∅ c) as [[ingresses|err| |] c']; try done.
  - unfold mret, M_ret. cbv zeta. unfold writeJSON, mret, M_ret. by rewrite ingressListResponse_same.
  - by eexists.
Qed.

(** ** What a request may change *)

Definition resourceKinds : list string := [kindGateway; kindHTTPRoute; kindGRPCRoute; kindBackendPolicy; kindSecurityPolicy; kindClientPolicy].

(** What converting some Ingresses writes *)
Definition converting (P : NamespacedName -> Prop) (k : ObjectKey) : Prop := ofGateway opts k ∨ ∃ ref, P ref ∧ ofIngress ref k.

(** What a request names. An Ingress goes to the conversion as [namespace/name], so with a
    slash in its namespace it stands for every Ingress that reads the same. *)
Inductive requested (method : string) (path : list string) (body : option (list NamespacedName)) : ObjectKey -> Prop :=
| requested_convert ns name k : method = "POST" → path = ["api"; "ingresses"; ns; name; "convert"] →
    converting (λ ref, slashed ref = slashed (ns, name)) k → requested method path body k
| requested_batch refs k : method = "POST" → path = ["api"; "ingresses"; "convert"] → body = Some refs → refs ≠ [] →
    converting (λ ref, slashed ref ∈ slashed <$> refs) k → requested method path body k
| requested_delete ns name : method = "DELETE" → path = ["api"; "ingresses"; ns; name] → requested method path body (storeKey Ingress (ns, name))
| requested_skip ns name : method = "POST" → path = ["api"; "ingresses"; ns; name; "skip"] → requested method path body (storeKey Ingress (ns, name))
| requested_resource kind ns name : method = "DELETE" → path = ["api"; "resources"; kind; ns; name] → kind ∈ resourceKinds →
    requested method path body (kind, (ns, name)).

(** A batch without an Ingress is the exception: it is taken for all of them. *)
Definition emptyBatch (method : string) (path : list string) (body : option (list NamespacedName)) : Prop :=
  method = "POST" ∧ path = ["api"; "ingresses"; "convert"] ∧ body = Some [].

Lemma parseIngressName_slashed ref : slashed (parseIngressName (slashed ref) "") = slashed ref.
Proof.
  unfold parseIngressName. destruct (Cut_app ref.1 "/" ref.2) as [[ns name] Hc]. change (ref.1 ⊕ String "/" ref.2) with (slashed ref) in Hc.
  rewrite Hc. apply Cut_Some in Hc. by rewrite Hc.
Qed.
Lemma written_named refs k : refs ≠ [] → written opts (convertNamed (slashed <$> refs)) k → converting (λ ref, slashed ref ∈ slashed <$> refs) k.
Proof.
  intros Hne [Hg|(ref & Hm & Hi)]; [by left|]. right. exists ref. split; [|done]. unfold meant in Hm. cbn [convertNamed co_Names co_Namespace] in Hm.
  rewrite bool_decide_false in Hm by (by destruct refs). apply list_elem_of_fmap in Hm as (text & -> & (ref' & -> & Hin)%list_elem_of_fmap).
  rewrite parseIngressName_slashed. by apply list_elem_of_fmap_2.
Qed.
Lemma written_any convertOpts k : written opts convertOpts k → converting (λ _, True) k.
Proof. intros [Hg|(ref & _ & Hi)]; [by left|right; by exists ref]. Qed.

Definition changing (K : ObjectKey -> Prop) (s s' : Console) : Prop := ticks K (cn_clocked s) (cn_clocked s').
#[local] Instance changing_preorder K : PreOrder (changing K).
Proof. split; [by intros ?|]. intros s1 s2 s3 H1 H2. unfold changing in *. by etrans. Qed.

Lemma changing_onCluster {A} K (m : M Cluster A) : within (changes K) m → within (changing K) (onCluster m).
Proof. intros Hm. unfold onCluster, onClock. apply (within_zoom _ consoleClock (ticks K)); [done|]. by apply within_inCluster. Qed.

Lemma within_listResources K O `{!Resource O} show : within (changes K) (listResources O show).
Proof. unfold listResources. within_solve. Qed.
Lemma within_buildRoutes K : within (changes K) (buildRoutesListResponse opts).
Proof. unfold buildRoutesListResponse. repeat (apply within_listResources || within_step). Qed.
Lemma within_fetchIngressList K : within (changes K) (fetchIngressList opts).
Proof. unfold fetchIngressList. within_solve. Qed.

Lemma within_writeJSON {S} (R : relation S) `{!PreOrder R} code data : within R (writeJSON code data).
Proof. apply within_ret. apply _. Qed.
Lemma within_deleteObject K O `{!Resource O} key : K (storeKey O key) → within (changes K) (deleteObject O key).
Proof. intros HK. unfold deleteObject, refuse. repeat first [apply within_writeJSON; apply _ | apply within_Get | by apply within_Delete | within_step]. Qed.
Lemma within_previewObject K O `{!Resource O} key : within (changes K) (previewObject Marshal O key).
Proof. unfold previewObject, refuse. repeat first [apply within_writeJSON; apply _ | apply within_Get | within_step]. Qed.

Lemma within_resourceDelete K kind key : (kind ∈ resourceKinds → K (kind, key)) → within (changes K) (handleResourceDelete kind key).
Proof.
  intros HK. unfold handleResourceDelete, unsupportedKind.
  repeat (case_bool_decide as Hkind; [apply within_deleteObject; rewrite Hkind in HK; apply HK; unfold resourceKinds; set_solver|clear Hkind]).
  apply within_writeJSON. apply _.
Qed.
Lemma within_resourcePreview K kind key : within (changes K) (handleResourcePreview Marshal kind key).
Proof. unfold handleResourcePreview, unsupportedKind. repeat (case_bool_decide; [apply within_previewObject|]). apply within_writeJSON. apply _. Qed.

Lemma within_skipIngress K key : K (storeKey Ingress key) → within (changes K) (handleSkipIngress key).
Proof.
  intros HK. unfold handleSkipIngress, refuse. eapply within_bind_yields; [apply _|apply yields_try, yields_Get|within_solve|].
  intros [ing|err] Hk; [|apply within_writeJSON; apply _]. within_step; [within_step; apply within_Update|].
  - change (objKey (skipped ing)) with (objKey ing). by rewrite Hk.
  - destruct a; apply within_writeJSON; apply _.
Qed.

Lemma within_preview K key : within (changes K) (handlePreview opts url_Parse MarshalHTTP MarshalGRPC rangeNames Marshal key).
Proof.
  unfold handlePreview, refuse, Preview, yamlOf. repeat first [apply within_writeJSON; apply _ | apply within_generatePreview | within_step]. apply within_Get.
Qed.
Lemma within_batchPreview K body : within (changes K) (handleBatchPreview opts url_Parse MarshalHTTP MarshalGRPC rangeNames Marshal body).
Proof.
  unfold handleBatchPreview, refuse, BatchPreview. repeat first [apply within_writeJSON; apply _ | apply within_generatePreview | within_step].
Qed.
(** A request does not wait, so what others do meanwhile does not matter. *)
Lemma within_convertOrError K names : (∀ k, written opts (convertNamed names) k → K k) → within (changing K) (convertOrError names).
Proof.
  intros HK. unfold CLIUI.convertOrError. within_step; [|within_step]. within_step.
  change (Convert (convertNamed names)) with (CLIIngress.Convert opts url_Parse MarshalHTTP MarshalGRPC (λ _ c, c) rangeNames Marshal fileRefuses (convertNamed names)).
  by apply within_Convert.
Qed.

Lemma within_refreshed {A} K (k : option IngressListResponse -> RoutesListResponse -> M Console A) : (∀ l r, within (changing K) (k l r)) →
  within (changing K) (ingressList ← onCluster (fetchIngressList opts); routesList ← onCluster (buildRoutesListResponse opts); k ingressList routesList).
Proof.
  intros Hk. within_step; [apply changing_onCluster, within_fetchIngressList|]. within_step; [apply changing_onCluster, within_buildRoutes|]. apply Hk.
Qed.

Lemma within_handleConvert K key : (∀ k, written opts (convertNamed [slashed key]) k → K k) → within (changing K) (handleConvert key).
Proof.
  intros HK. unfold CLIUI.handleConvert, refusedConvert. within_step; [by apply within_convertOrError|].
  destruct a as [result|err]; [|apply within_writeJSON; apply _]. destruct (map_to_list _) as [|[]]; [|apply within_writeJSON; apply _].
  apply within_refreshed. intros. apply within_writeJSON. apply _.
Qed.
Lemma within_handleBatchConvert K body : (∀ refs, body = Some refs → ∀ k, written opts (convertNamed (slashed <$> refs)) k → K k) → within (changing K) (handleBatchConvert body).
Proof.
  intros HK. unfold CLIUI.handleBatchConvert, refuse. destruct body as [refs|]; [|apply within_writeJSON; apply _]. within_step; [by apply within_convertOrError; apply HK|].
  destruct a as [result|err]; [|apply within_writeJSON; apply _]. apply within_refreshed. intros. apply within_writeJSON. apply _.
Qed.

(** A path that a pattern matches is the pattern with values for its wildcards. *)
Fixpoint fillPath (pattern args : list string) : list string :=
  match pattern with
  | [] => []
  | p :: pattern => if HasPrefix p "{" then arg 0 args :: fillPath pattern (tail args) else p :: fillPath pattern args
  end.
Lemma arg_S n args : arg (S n) args = arg n (tail args).
Proof. unfold arg. destruct args; [by rewrite !lookup_nil|done]. Qed.
Lemma matchPath_fill pattern path args : matchPath pattern path = Some args → path = fillPath pattern args.
Proof.
  revert path args. induction pattern as [|p pattern IH]; intros [|s path] args; simpl; try done.
  destruct (HasPrefix p "{").
  - intros (args' & Hm & ->)%fmap_Some. simpl. by rewrite <- (IH _ _ Hm).
  - case_bool_decide; [subst|done]. intros Hm. by rewrite <- (IH _ _ Hm).
Qed.

#[local] Abbreviation entry := (string * list string * (list string -> option (list NamespacedName) -> M Console Response))%type.
Lemma within_dispatch K (method : string) path body (table : list entry) other :
  Forall (λ '(m, pattern, handle), ∀ args, path = fillPath pattern args → method = m → within (changing K) (handle args body)) table → within (changing K) other →
  within (changing K) (foldr (λ '(m, pattern, handle) other,
    match matchPath pattern path with Some args => if bool_decide (method = m) then handle args body else other | None => other end) other table).
Proof.
  intros Ht Ho. induction Ht as [|[[m pattern] handle] table Hh Ht IH]; [done|]. simpl.
  destruct (matchPath pattern path) as [args|] eqn:Hp; [|done]. case_bool_decide; [|done]. apply Hh; [by apply matchPath_fill|done].
Qed.

Lemma within_Handler K method path body : (∀ k, requested method path body k → K k) → (emptyBatch method path body → ∀ k, converting (λ _, True) k → K k) →
  within (changing K) (Handler method path body).
Proof.
  intros HK Hempty. apply within_dispatch; [|case_bool_decide; apply within_writeJSON; apply _].
  unfold mux. repeat first [apply List.Forall_nil | apply List.Forall_cons; [intros args Hpath Hm; unfold keyArg; rewrite ?arg_S; try apply changing_onCluster|]].
  - unfold handleListIngresses, refuse. repeat first [apply within_writeJSON; apply _ | apply within_List | within_step].
  - apply within_preview.
  - apply within_handleConvert. intros k Hk. apply HK. eapply requested_convert; [exact Hm|exact Hpath|].
    apply (written_named [_]) in Hk as [Hg|(ref & Hin%list_elem_of_singleton & Hi)]; [by left|right; by exists ref|done].
  - apply within_deleteObject, HK. eapply requested_delete; [exact Hm|exact Hpath].
  - apply within_skipIngress, HK. eapply requested_skip; [exact Hm|exact Hpath].
  - apply within_handleBatchConvert. intros refs Hb k Hk. destruct (decide (refs = [])) as [->|Hne].
    + apply Hempty; [by split_and!|by eapply written_any].
    + apply HK. eapply requested_batch; [exact Hm|exact Hpath|exact Hb|exact Hne|by apply written_named].
  - apply within_batchPreview.
  - unfold handleListRoutes. within_step; [apply within_buildRoutes|apply within_writeJSON; apply _].
  - apply within_writeJSON. apply _.
  - apply within_resourcePreview.
  - apply within_resourceDelete. intros Hk. apply HK. eapply requested_resource; [exact Hm|exact Hpath|exact Hk].
Qed.

(** C32: whatever the API server answers, a request changes nothing in the cluster but what it
    names: the Ingress it deletes or skips, the resource it deletes, or what converting the
    Ingresses of the request writes. A [GET] and a preview change nothing. The one exception
    is the conversion of a batch that lists no Ingress, which may convert any. *)
Theorem dashboard_isolated method path body s :
  let s' := (Handler method path body s).2 in
  (¬ emptyBatch method path body → ticks (requested method path body) (cn_clocked s) (cn_clocked s')) ∧
  (emptyBatch method path body → ticks (converting (λ _, True)) (cn_clocked s) (cn_clocked s')).
Proof.
  split; intros He; apply within_Handler; try done. intros k Hk. destruct He as (-> & -> & ->). inversion Hk; simplify_eq.
Qed.

(** ** Every request is answered *)

(** Programs that return and do not take time *)
Definition prompt {S A} (now : S -> Z) (m : M S A) : Prop := ∀ s, ∃ a s', m s = (Ret a, s') ∧ now s' = now s.
Definition consoleNow (s : Console) : Z := ck_now (cn_clocked s).

Lemma prompt_ret {S A} now (a : A) : prompt now (mret (M:=M S) a).
Proof. intros s. by eexists _, _. Qed.
Lemma prompt_bind {S A B} now (m : M S A) (k : A -> M S B) : prompt now m → (∀ a, prompt now (k a)) → prompt now (m ≫= k).
Proof.
  intros Hm Hk s. destruct (Hm s) as (a & s1 & Hr & Hn). rewrite (bind_eval _ _ _ _ _ Hr). destruct (Hk a s1) as (b & s2 & Hr2 & Hn2).
  exists b, s2. split; [done|congruence].
Qed.
Lemma prompt_foldM {S A B} now (f : B -> A -> M S B) b l : (∀ b x, prompt now (f b x)) → prompt now (foldM f b l).
Proof. intros Hf. revert b. induction l as [|x l IH]; intros b; [apply prompt_ret|]. by apply prompt_bind. Qed.
Lemma prompt_inCluster {A} (m : M Cluster A) : returns m → prompt ck_now (inCluster m).
Proof. intros Hm s. destruct (Hm (ck_cluster s)) as (a & c & Hr). eexists a, _. by rewrite (inCluster_eval _ _ _ _ Hr). Qed.
Lemma prompt_onClock {A} (m : M Clocked A) : prompt ck_now m → prompt consoleNow (onClock m).
Proof. intros Hm s. destruct (Hm (cn_clocked s)) as (a & t & Hr & Hn). eexists a, _. split; [apply zoom_eval, Hr|exact Hn]. Qed.
Lemma prompt_onCluster {A} (m : M Cluster A) : returns m → prompt consoleNow (onCluster m).
Proof. intros Hm. by apply prompt_onClock, prompt_inCluster. Qed.
(** A failure after the first step that is caught *)
Lemma prompt_try_onCluster {A B} (m : M Cluster A) (k : A -> M Console B) : answers m → (∀ a, prompt consoleNow (k a)) → prompt consoleNow (try (onCluster m ≫= k)).
Proof.
  intros Hm Hk s. specialize (Hm (ck_cluster (cn_clocked s))). unfold try, onCluster, onClock, inCluster, zoom, mbind, M_bind. simpl in *.
  destruct (m (ck_cluster (cn_clocked s))) as [[a|e| |] c]; try done; [|by eexists _, _].
  match goal with |- context [k a ?s1] => destruct (Hk a s1) as (b & s2 & -> & Hn) end. by eexists _, _.
Qed.

Lemma returns_writeJSON {S} code data : returns (writeJSON (S:=S) code data).
Proof. apply returns_ret. Qed.
Lemma returns_deleteObject O `{!Resource O} key : returns (deleteObject O key).
Proof. unfold deleteObject, refuse. repeat first [apply returns_writeJSON | apply answers_Get | apply answers_Delete | ends_step]. Qed.
Lemma returns_previewObject O `{!Resource O} key : returns (previewObject Marshal O key).
Proof. unfold previewObject, refuse. repeat first [apply returns_writeJSON | apply answers_Get | ends_step]. Qed.
Lemma returns_resourceDelete kind key : returns (handleResourceDelete kind key).
Proof. unfold handleResourceDelete. repeat (case_bool_decide; [apply returns_deleteObject|]). apply returns_writeJSON. Qed.
Lemma returns_resourcePreview kind key : returns (handleResourcePreview Marshal kind key).
Proof. unfold handleResourcePreview. repeat (case_bool_decide; [apply returns_previewObject|]). apply returns_writeJSON. Qed.
Lemma returns_skipIngress key : returns (handleSkipIngress key).
Proof. unfold handleSkipIngress, refuse. repeat first [apply returns_writeJSON | apply answers_Get | apply answers_Update | ends_step]. Qed.

Lemma returns_generatePreview refs : returns (generatePreview opts url_Parse MarshalHTTP MarshalGRPC rangeNames refs).
Proof. unfold generatePreview, previewIngress. repeat first [apply answers_Get | apply returns_fetchServices | ends_step]. Qed.
Lemma returns_preview key : returns (handlePreview opts url_Parse MarshalHTTP MarshalGRPC rangeNames Marshal key).
Proof.
  unfold handlePreview, refuse, Preview, yamlOf. repeat first [apply returns_writeJSON | apply answers_Get | apply returns_answers, returns_generatePreview | ends_step].
Qed.
Lemma returns_batchPreview body : returns (handleBatchPreview opts url_Parse MarshalHTTP MarshalGRPC rangeNames Marshal body).
Proof.
  unfold handleBatchPreview, refuse, BatchPreview. repeat first [apply returns_writeJSON | apply returns_answers, returns_generatePreview | ends_step].
Qed.
Lemma returns_buildRoutes : returns (buildRoutesListResponse opts).
Proof. unfold buildRoutesListResponse, listResources. ends_solve. Qed.
Lemma returns_fetchIngressList : returns (fetchIngressList opts).
Proof. unfold fetchIngressList. ends_solve. Qed.

(** Converting without waiting for the routes *)
Lemma returns_applyRoutes conv key result : returns (applyRoutes conv key result).
Proof. unfold applyRoutes, applyRoute. repeat first [apply answers_applyObject | ends_step]. Qed.

Lemma prompt_applyConversions refs : prompt ck_now (applyConversions opts url_Parse MarshalHTTP MarshalGRPC elapse rangeNames refs true).
Proof.
  unfold applyConversions. apply prompt_bind; [apply prompt_inCluster|intros [[conversions listeners] result]].
  { unfold convertIngresses, convertIngress. repeat first [apply answers_Get | apply returns_fetchServices | ends_step]. }
  apply prompt_bind.
  { destruct (bool_decide _); [apply prompt_ret|]. apply prompt_inCluster, returns_try, applyGatewayAndSecrets_answers. }
  intros [res|err]; [|apply prompt_ret]. apply prompt_bind; [|intros; apply prompt_ret].
  apply prompt_foldM. intros r conv. unfold applyConversionOf. cbv zeta.
  apply prompt_bind; [apply prompt_inCluster, returns_applyRoutes|intros r']. apply prompt_bind; [apply prompt_inCluster, returns_applyPolicies|intros []].
  apply prompt_bind; [apply prompt_ret|intros accepted]. apply prompt_bind; [|intros; apply prompt_ret].
  apply prompt_inCluster, returns_try. unfold updateIngressStatus. ends_solve.
Qed.

Lemma prompt_convertOrError names : prompt consoleNow (convertOrError names).
Proof.
  unfold CLIUI.convertOrError, CLIIngress.Convert. apply prompt_bind; [|intros; apply prompt_ret].
  apply prompt_try_onCluster; [unfold buildIngressList; ends_solve|]. intros refs. apply prompt_onClock, prompt_applyConversions.
Qed.

Lemma prompt_refreshed {A} (k : option IngressListResponse -> RoutesListResponse -> M Console A) : (∀ l r, prompt consoleNow (k l r)) →
  prompt consoleNow (ingressList ← onCluster (fetchIngressList opts); routesList ← onCluster (buildRoutesListResponse opts); k ingressList routesList).
Proof. intros Hk. apply prompt_bind; [apply prompt_onCluster, returns_fetchIngressList|intros l]. apply prompt_bind; [apply prompt_onCluster, returns_buildRoutes|apply Hk]. Qed.

Lemma prompt_handleConvert key : prompt consoleNow (handleConvert key).
Proof.
  unfold CLIUI.handleConvert. apply prompt_bind; [apply prompt_convertOrError|]. intros [result|err]; [|apply prompt_ret].
  destruct (map_to_list _) as [|[]]; [|apply prompt_ret]. apply prompt_refreshed. intros. apply prompt_ret.
Qed.
Lemma prompt_handleBatchConvert body : prompt consoleNow (handleBatchConvert body).
Proof.
  unfold CLIUI.handleBatchConvert. destruct body as [refs|]; [|apply prompt_ret]. apply prompt_bind; [apply prompt_convertOrError|].
  intros [result|err]; [|apply prompt_ret]. apply prompt_refreshed. intros. apply prompt_ret.
Qed.

Lemma prompt_dispatch (method : string) path body (table : list entry) other :
  Forall (λ '(m, pattern, handle), ∀ args, prompt consoleNow (handle args body)) table → prompt consoleNow other →
  prompt consoleNow (foldr (λ '(m, pattern, handle) other,
    match matchPath pattern path with Some args => if bool_decide (method = m) then handle args body else other | None => other end) other table).
Proof.
  intros Ht Ho. induction Ht as [|[[m pattern] handle] table Hh Ht IH]; [done|]. simpl.
  destruct (matchPath pattern path) as [args|]; [|done]. by case_bool_decide.
Qed.

(** every request is answered, whatever the API server answers, and at once: unlike the
    command, the dashboard does not wait until routes are accepted. *)
Theorem dashboard_answers method path body s :
  ∃ response s', Handler method path body s = (Ret response, s') ∧ ck_now (cn_clocked s') = ck_now (cn_clocked s).
Proof.
  enough (prompt consoleNow (Handler method path body)) as H by apply H. unfold CLIUI.Handler.
  apply prompt_dispatch; [|case_bool_decide; apply prompt_ret].
  unfold mux. repeat first [apply List.Forall_nil | apply List.Forall_cons; [intros args; try apply prompt_onCluster|]].
  - unfold handleListIngresses, refuse. repeat first [apply returns_writeJSON | apply answers_List | ends_step].
  - apply returns_preview.
  - apply prompt_handleConvert.
  - apply returns_deleteObject.
  - apply returns_skipIngress.
  - apply prompt_handleBatchConvert.
  - apply returns_batchPreview.
  - unfold handleListRoutes. apply returns_bind; [apply returns_buildRoutes|intros; apply returns_writeJSON].
  - apply returns_writeJSON.
  - apply returns_resourcePreview.
  - apply returns_resourceDelete.
Qed.
End promises.

(** ** Requests *)

Definition browser (objects : list Object) : Console := {| cn_clocked := onDisk objects; cn_files := ∅; cn_documents := [] |}.
#[local] Abbreviation request := (Handler sampleReconciler noURL sampleMarshal sampleMarshal (λ _ c, c) byName marshalName (λ _, None)).
Definition answerOf (r : outcome Response * Console) : option Response := match r.1 with Ret response => Some response | _ => None end.

(** The two lists of one Ingress, over its life: new, skipped, listed as skipped *)
Example skip_is_listed :
  let s := (request "POST" ["api"; "ingresses"; "apps"; "web"; "skip"] None (browser [OIngress (shopIngress limited)])).2 in
  match answerOf (request "GET" ["api"; "ingresses"] None s) with
  | Some {| rsp_Body := BodyIngresses {| ilr_Ingresses := [ing]; ilr_Summary := summary |} |} =>
      ir_Status ing = "skipped" ∧ ir_SkipReason ing = "skipped via UI" ∧ sr_Skipped summary = 1
  | _ => False
  end.
Proof. vm_compute. split_and!; reflexivity. Qed.

(** The preview refuses an empty batch; converting one converts every Ingress of the
    cluster, which the command does only for [-A]. *)
Example empty_batch_converts_all :
  rsp_Code <$> answerOf (request "POST" ["api"; "ingresses"; "preview"] (Some []) (browser [OIngress (shopIngress limited)])) = Some StatusBadRequest ∧
  match answerOf (request "POST" ["api"; "ingresses"; "convert"] (Some []) (browser [OIngress (shopIngress limited)])) with
  | Some {| rsp_Body := BodyBatchConvert response |} => bc_Converted response = ["apps/web"]
  | _ => False
  end.
Proof. vm_compute. split; reflexivity. Qed.

(** An Ingress that is skipped is answered with success; nothing was converted. *)
Example skipped_is_success :
  let skippedIngress := shopIngress {[ AnnotationSkipConversion := "true" ]} in
  let '(r, s) := request "POST" ["api"; "ingresses"; "apps"; "web"; "convert"] None (browser [OIngress skippedIngress]) in
  match r with
  | Ret {| rsp_Code := code; rsp_Body := BodyConvert response |} => code = StatusOK ∧ cv_Message response = "Converted successfully"
  | _ => False
  end ∧ findObject HTTPRoute (ck_cluster (cn_clocked s)) ("apps", "web") = None.
Proof. vm_compute. split_and!; reflexivity. Qed.

(** A Gateway that is accepted but has no address yet is shown as ready: the first of the two
    conditions counts. *)
Example accepted_is_ready :
  let condition type status := {| cond_Type := type; cond_Status := status; cond_Reason := "AddressNotAssigned"; cond_Message := "" |} in
  extractGatewayStatus [condition "Accepted" "True"; condition "Programmed" "False"] = ("Ready", "") ∧
  extractGatewayStatus [condition "Programmed" "False"; condition "Accepted" "True"] = ("NotReady", "AddressNotAssigned").
Proof. split; reflexivity. Qed.

(** Any other request with [GET] gets the page; it changes nothing. *)
Example page_for_the_rest : rsp_Body <$> answerOf (request "GET" ["api"; "nothing"] None (browser [])) = Some BodyPage ∧
  rsp_Code <$> answerOf (request "PUT" ["api"; "ingresses"] None (browser [])) = Some StatusMethodNotAllowed.
Proof. vm_compute. split; reflexivity. Qed.
