(* ===== verification/CLILoadBalancer.v ===== *)
(** * Load balancers from the command line

    [cli/internal/loadbalancer]: [kubelb loadbalancer create], [get], [list] and [delete].
    Creating makes a LoadBalancer of a list of endpoints and waits until the manager has
    given it an address.

    The commands use the types of the enterprise edition, so a client for the community
    edition refuses every call. The order in which Go ranges over a set, the answer typed
    at the prompt and the YAML of an object are parameters; ages are left out. *)

From Stdlib Require Import Ascii.
From S2P Require Import Prelude GoStrings Api Names PortAllocator LoadBalancers Kube Services Manager Upserts IngressToGateway CLIPass CLIClient.
Local Open Scope go_scope.

Definition DefaultWaitTimeout : Z := 4 * 60.
Definition DefaultPollInterval : Z := 3.
Definition ProtocolHTTP : string := "http".
Definition DefaultProtocol : string := ProtocolHTTP.
Definition DefaultEndpointName : string := "default".
Definition NoneValue : string := "<none>".
Definition TrueString : string := "true".
Definition CLIResourceAnnotation : string := "kubelb.k8c.io/cli-generated".

Record CreateOptions := {
  opts_Name : string;
  opts_Endpoints : string;
  opts_Type : string;
  opts_Protocol : string;
  opts_Route : bool;
  opts_Hostname : string;
  opts_Wait : bool;
  opts_Output : string;
}.

(** ** [create.go] *)

(** One part of the list, [None] for a blank one *)
Definition parsePart (part : string) : result (option (string * Z)) :=
  let part := TrimSpace part in
  if bool_decide (part = "") then Ok None
  else
    match Cut part ":"%char with
    | None => Err ("invalid endpoint format: " ⊕ part ⊕ " (expected IP:port)")
    | Some (host, portStr) =>
        match Atoi portStr with
        | Some port => if ((port <? 1) || (65535 <? port))%Z then Err ("invalid port in " ⊕ part) else Ok (Some (host, port))
        | None => Err ("invalid port in " ⊕ part)
        end
    end.

Fixpoint parseParts (parts : list string) (ipMap : gset string) (endpointPortMap : gset Z) : result (gset string * gset Z) :=
  match parts with
  | [] => Ok (ipMap, endpointPortMap)
  | part :: parts =>
      match parsePart part with
      | Err msg => Err msg
      | Ok None => parseParts parts ipMap endpointPortMap
      | Ok (Some (host, port)) => parseParts parts ({[host]} ∪ ipMap) ({[port]} ∪ endpointPortMap)
      end
  end.

Definition portName (port : Z) : string := Itoa port ⊕ "-tcp".

Definition generateLoadBalancer (name namespace : string) (endpoints : list LoadBalancerEndpoints) (ports : list Z) (lbType : string) (hasRoute : bool) (hostname : string) : LoadBalancer :=
  let annotations : StrMap := {[ CLIResourceAnnotation := "true" ]} in
  let annotations := if hasRoute && bool_decide (hostname = "") then <["kubelb.k8c.io/request-wildcard-domain" := "true"]> annotations else annotations in
  {| lb_Meta := objectMeta name namespace "" (Some {[ "app.kubernetes.io/managed-by" := "kubelb-cli" ]}) (Some annotations);
     lb_Spec :=
       {| lbs_Endpoints := endpoints;
          lbs_Ports := (λ port, {| lbp_Name := portName port; lbp_Protocol := ProtocolTCP; lbp_Port := port |}) <$> ports;
          lbs_Hostname := if hasRoute && negb (bool_decide (hostname = "")) then hostname else "";
          lbs_Type := lbType; lbs_ExternalTrafficPolicy := ""; lbs_Persistence := None |};
     lb_Status := emptyLoadBalancerStatus |}.

(** The condition of the wait *)
Definition becameReady (hasRoute : bool) (lb : LoadBalancer) : bool :=
  (hasRoute && match lst_Hostname (lb_Status lb) with
               | Some h => negb (bool_decide (hs_Hostname h = "")) && hs_DNSRecordCreated h && hs_TLSEnabled h
               | None => false
               end) ||
  (bool_decide (lbs_Type (lb_Spec lb) = ServiceTypeLoadBalancer) && negb (bool_decide (lst_LoadBalancer (lb_Status lb) = []))).

Definition isCLIGenerated (lb : LoadBalancer) : bool :=
  match om_Annotations (lb_Meta lb) with
  | None => false
  | Some annotations => match annotations !! CLIResourceAnnotation with Some value => bool_decide (value = TrueString) | None => false end
  end.
Definition isManagedByCLI (lb : LoadBalancer) : bool := isCLIGenerated lb.
Definition boolToString (b : bool) : string := if b then "true" else "false".

Definition getIngressEndpointsSummary (ingress : list LoadBalancerIngress) : string :=
  let addresses := omap (λ ing, if negb (bool_decide (lbi_IP ing = "")) then Some (lbi_IP ing)
                                else if negb (bool_decide (lbi_Hostname ing = "")) then Some (lbi_Hostname ing) else None) ingress in
  match addresses with
  | [] => NoneValue
  | [address] => address
  | address :: rest => address ⊕ " + " ⊕ Itoa (Z.of_nat (length rest)) ⊕ " more"
  end.

(** A row of the list: name, hostname, addresses, type, whether it was made here *)
Definition loadbalancerRow (lb : LoadBalancer) : list string :=
  let hostname := match lst_Hostname (lb_Status lb) with Some h => if bool_decide (hs_Hostname h = "") then NoneValue else hs_Hostname h | None => NoneValue end in
  [om_Name (lb_Meta lb); hostname; getIngressEndpointsSummary (lst_LoadBalancer (lb_Status lb)); lbs_Type (lb_Spec lb); boolToString (isCLIGenerated lb)].

(** The facts of the summary: the URL, whether DNS is ready, the addresses *)
Definition outputSummary (lb : LoadBalancer) : list string :=
  let url :=
    match lst_Hostname (lb_Status lb) with
    | Some h =>
        if bool_decide (hs_Hostname h = "") then []
        else [(if hs_TLSEnabled h then "https" else "http") ⊕ "://" ⊕ hs_Hostname h;
              if hs_DNSRecordCreated h then "Your application is accessible at the URL above."
              else "Your application will be accessible at the URL above once DNS propagation completes."]
    | None => []
    end in
  let addresses :=
    if bool_decide (lbs_Type (lb_Spec lb) = ServiceTypeLoadBalancer)
    then lst_LoadBalancer (lb_Status lb) ≫= (λ ing, filter (λ a, a ≠ "") [lbi_IP ing; lbi_Hostname ing]) else [] in
  url ++ addresses.

Section commands.
Context (rangeIPs : gset string -> list string) (rangePorts : gset Z -> list Z).
Context (elapse : Z -> Cluster -> Cluster) (Marshal : Object -> result string).

Definition parseEndpoints (endpointStr : string) : result (list LoadBalancerEndpoints * list Z) :=
  match parseParts (Split endpointStr ","%char) ∅ ∅ with
  | Err msg => Err msg
  | Ok (ipMap, endpointPortMap) =>
      Ok ([{| lbe_Name := DefaultEndpointName;
              lbe_Addresses := (λ ip, {| ea_IP := ip; ea_Hostname := "" |}) <$> rangeIPs ipMap;
              lbe_AddressesReference := None;
              lbe_Ports := (λ port, {| ep_Name := portName port; ep_Port := port; ep_Protocol := ProtocolTCP |}) <$> rangePorts endpointPortMap |}],
          [8080%Z])
  end.

Definition lbKey (cfg : Config) (name : string) : NamespacedName := (cfg_TenantNamespace cfg, name).

(** The timer and the deadline fall together at the end; the deadline wins. *)
Fixpoint pollLoadBalancer (cfg : Config) (name : string) (hasRoute : bool) (deadline : Z) (fuel : nat) : M Clocked LoadBalancer :=
  match fuel with
  | O => diverge
  | S fuel =>
      lb ← inCluster (eeCall cfg "LoadBalancer" (Get LoadBalancer (lbKey cfg name)));
      if becameReady hasRoute lb then mret lb
      else
        _ ← sleep elapse DefaultPollInterval;
        now ← gets ck_now;
        if (deadline <=? now)%Z then raise (Errorf "context deadline exceeded")
        else pollLoadBalancer cfg name hasRoute deadline fuel
  end.
Definition pollFuel : nat := 80.
Definition waitForLoadBalancer (cfg : Config) (name : string) (hasRoute : bool) : M Clocked LoadBalancer :=
  now ← gets ck_now;
  pollLoadBalancer cfg name hasRoute (now + DefaultWaitTimeout) pollFuel.

(** [get.go]: managed fields are not part of the model. *)
Definition GetLoadBalancer (cfg : Config) (name : string) : M Cluster string :=
  loadbalancer ← wrap ("failed to get load balancer " ⊕ name) (eeCall cfg "LoadBalancer" (Get LoadBalancer (lbKey cfg name)));
  match Marshal (OLoadBalancer {| loadbalancer with lb_Meta := {| (lb_Meta loadbalancer) with om_Namespace := "" |} |}) with
  | Err msg => raise (Errorf ("failed to marshal load balancer to YAML: " ⊕ msg))
  | Ok yamlData => mret yamlData
  end.

Definition Create (cfg : Config) (opts : CreateOptions) : M Clocked (list string) :=
  match parseEndpoints (opts_Endpoints opts) with
  | Err msg => raise (Errorf ("invalid endpoints: " ⊕ msg))
  | Ok (endpoints, ports) =>
      let protocol := if bool_decide (opts_Protocol opts = "") then DefaultProtocol else opts_Protocol opts in
      if negb (bool_decide (protocol = ProtocolHTTP)) then raise (Errorf ("invalid protocol: " ⊕ protocol ⊕ ". Only 'http' is supported"))
      else if negb (bool_decide (opts_Type opts = ServiceTypeClusterIP)) && negb (bool_decide (opts_Type opts = ServiceTypeLoadBalancer))
      then raise (Errorf ("invalid load balancer type: " ⊕ opts_Type opts))
      else
        let lb := generateLoadBalancer (opts_Name opts) (cfg_TenantNamespace cfg) endpoints ports (opts_Type opts) (opts_Route opts) (opts_Hostname opts) in
        lb ← inCluster (wrap "failed to create load balancer" (eeCall cfg "LoadBalancer" (Kube.Create lb)));
        updatedLB ← (if opts_Wait opts then wrap "load balancer did not become ready" (waitForLoadBalancer cfg (om_Name (lb_Meta lb)) (opts_Route opts)) else mret lb);
        if bool_decide (opts_Output opts = "yaml") then yaml ← inCluster (GetLoadBalancer cfg (om_Name (lb_Meta updatedLB))); mret [yaml]
        else mret (outputSummary updatedLB)
  end.

(** *** [delete.go], [list.go] *)

(** What was typed, [None] when nothing could be read *)
Definition confirmDeletion (response : option string) : bool :=
  match response with
  | None => false
  | Some response => bool_decide (TrimSpace (ToLower response) ∈ ["y"; "yes"])
  end.

(** What is shown before a deletion *)
Definition deletionNotice (name : string) (lb : LoadBalancer) : list string :=
  (if isManagedByCLI lb then []
   else ["⚠️  WARNING: Load balancer '" ⊕ name ⊕ "' was not created by the CLI.";
         "This resource may have been created manually or by another tool. Deleting it may cause unexpected issues."; ""]) ++
  ["Load balancer to be deleted:"; "  Name: " ⊕ om_Name (lb_Meta lb)] ++
  (if bool_decide (lbs_Type (lb_Spec lb) = "") then [] else ["  Type: " ⊕ lbs_Type (lb_Spec lb)]) ++
  (if bool_decide (lbs_Type (lb_Spec lb) = ServiceTypeLoadBalancer) && negb (bool_decide (lst_LoadBalancer (lb_Status lb) = []))
   then "  Ingress Endpoints:" ::
        omap (λ ing, if negb (bool_decide (lbi_IP ing = "")) then Some ("    - " ⊕ lbi_IP ing)
                     else if negb (bool_decide (lbi_Hostname ing = "")) then Some ("    - " ⊕ lbi_Hostname ing) else None) (lst_LoadBalancer (lb_Status lb))
   else []) ++ [""].

(** The lines that are shown *)
Definition DeleteLoadBalancer (cfg : Config) (name : string) (force : bool) (response : option string) : M Cluster (list string) :=
  loadbalancer ← wrap ("failed to get load balancer " ⊕ name) (eeCall cfg "LoadBalancer" (Get LoadBalancer (lbKey cfg name)));
  let notice := deletionNotice name loadbalancer in
  if negb force && negb (confirmDeletion response) then mret (notice ++ ["Deletion cancelled."])
  else
    _ ← wrap ("failed to delete load balancer " ⊕ name) (eeCall cfg "LoadBalancer" (Delete LoadBalancer (objKey loadbalancer)));
    mret (notice ++ ["✅ Load balancer '" ⊕ name ⊕ "' deleted successfully."]).

Definition ListLoadBalancers (cfg : Config) : M Cluster (list (list string)) :=
  loadbalancers ← wrap "failed to list load balancers" (eeCall cfg "LoadBalancerList" (List LoadBalancer (Some (cfg_TenantNamespace cfg)) ∅));
  mret (loadbalancerRow <$> loadbalancers).
End commands.

(** ** The endpoints *)

(** The pairs that the list names *)
Definition endpointPairs (endpointStr : string) : list (string * Z) :=
  omap (λ part, match parsePart part with Ok found => found | Err _ => None end) (Split endpointStr ","%char).

Lemma parseParts_pairs parts ips ports ips' ports' : parseParts parts ips ports = Ok (ips', ports') →
  let pairs := omap (λ part, match parsePart part with Ok found => found | Err _ => None end) parts in
  ips' = ips ∪ list_to_set pairs.*1 ∧ ports' = ports ∪ list_to_set pairs.*2.
Proof.
  cbv zeta. revert ips ports. induction parts as [|part parts IH]; intros ips ports; simpl; [intros; simplify_eq; set_solver|].
  destruct (parsePart part) as [[[host port]|]|msg]; simpl; [|apply IH|done]. intros [-> ->]%IH. set_solver.
Qed.

Lemma portName_inj p q : portName p = portName q → p = q.
Proof. unfold portName. intros [E _]%str_app_inj_r; [by apply Itoa_inj|done]. Qed.

Definition endpointPorts (ports : list Z) : list EndpointPort := (λ port, {| ep_Name := portName port; ep_Port := port; ep_Protocol := ProtocolTCP |}) <$> ports.
Lemma find_portName port ports :
  List.find (λ p, bool_decide (ep_Name p = portName port)) (endpointPorts ports) =
  if bool_decide (port ∈ ports) then Some {| ep_Name := portName port; ep_Port := port; ep_Protocol := ProtocolTCP |} else None.
Proof.
  induction ports as [|x ports IH]; [done|]. cbn [endpointPorts fmap list_fmap List.find ep_Name]. fold (endpointPorts ports).
  destruct (decide (x = port)) as [->|Hne].
  - rewrite (bool_decide_true (portName port = portName port)) by done. by rewrite bool_decide_true by left.
  - rewrite bool_decide_false by (by intros ?%portName_inj). rewrite IH.
    destruct (decide (port ∈ ports)); [by rewrite !bool_decide_true by (try right; done)|]. rewrite !bool_decide_false; [done| |done]. by intros [|]%elem_of_cons.
Qed.

Section theorems.
Context (rangeIPs : gset string -> list string) (rangePorts : gset Z -> list Z).
Context (rangePorts_elements : ∀ ports, rangePorts ports ≡ₚ elements ports).

(** C33: composition with the manager: a load balancer made from a list with at least one
    endpoint gets exactly one port, 8080, which leads to the endpoint port 8080 when the
    list names it, and else to one of the ports that it names; without an endpoint the
    command makes a load balancer all the same, and the manager panics on it. *)
Theorem cli_lb_served (pa : PortAllocator) (svc : Service) endpointStr endpoints ports name namespace lbType hasRoute hostname :
  parseEndpoints rangeIPs rangePorts endpointStr = Ok (endpoints, ports) →
  match CreateServicePorts pa (generateLoadBalancer name namespace endpoints ports lbType hasRoute hostname) svc with
  | None => endpointPairs endpointStr = []
  | Some out =>
      ∃ upstream p, out = [p] ∧ upstream ∈ (endpointPairs endpointStr).*2 ∧ (8080%Z ∈ (endpointPairs endpointStr).*2 → upstream = 8080%Z) ∧
        sp_Port p = 8080%Z ∧ sp_TargetPort p = FromInt (match port_lookup pa (EnvoyEndpoint namespace name 0) (EnvoyListenerKey upstream ProtocolTCP) with
                                                        | (value, true) => to_int32 value | (_, false) => upstream end)
  end.
Proof.
  unfold parseEndpoints. destruct (parseParts _ ∅ ∅) as [[ips upstreams]|] eqn:Hp; [|done]. intros [= <- <-].
  apply parseParts_pairs in Hp as [_ Hp]. fold (endpointPairs endpointStr) in Hp.
  assert (∀ x, x ∈ rangePorts upstreams ↔ x ∈ (endpointPairs endpointStr).*2) as Hin.
  { intros x. rewrite rangePorts_elements, elem_of_elements, Hp. set_solver. }
  unfold CreateServicePorts, generateLoadBalancer. cbn [lbs_Endpoints lb_Spec lbs_Ports fmap list_fmap desiredPorts].
  unfold desiredPort, upstreamPort. cbn [lbe_Ports lbp_Name lbp_Protocol lb_Meta om_Name om_Namespace objectMeta lbp_Port].
  change (_ <$> rangePorts upstreams) with (endpointPorts (rangePorts upstreams)). rewrite find_portName.
  destruct (rangePorts upstreams) as [|x l] eqn:Hl; simpl.
  { apply (fmap_nil_inv snd). destruct ((endpointPairs endpointStr).*2) as [|y]; [done|]. assert (y ∈ @nil Z) as []%elem_of_nil by (apply Hin; by left). }
  set (upstream := match (if bool_decide (8080%Z ∈ x :: l) then _ else _) with Some byName => _ | None => _ end).
  assert (upstream ∈ x :: l ∧ (8080%Z ∈ x :: l → upstream = 8080%Z)) as [Hu H8] by (unfold upstream; case_bool_decide; split; simpl; [done|done|by left|done]).
  destruct (port_lookup pa _ _) as [value found] eqn:Hv. eexists upstream, _. split; [reflexivity|]. cbn [sp_Port sp_TargetPort].
  rewrite <- !Hin, Hv. split_and!; done.
Qed.
End theorems.

(** ** What the commands change, and how long they take *)

Section commands_promises.
Context (rangeIPs : gset string -> list string) (rangePorts : gset Z -> list Z).
Context (elapse : Z -> Cluster -> Cluster) (Marshal : Object -> result string).
#[local] Abbreviation Create := (Create rangeIPs rangePorts elapse Marshal).
#[local] Abbreviation pollLoadBalancer := (pollLoadBalancer elapse).

(** As many polls as fit in the time are enough fuel. *)
Lemma pollLoadBalancer_ends cfg name hasRoute n s :
  endsWithin (DefaultPollInterval * Z.of_nat (S n)) (pollLoadBalancer cfg name hasRoute (ck_now s + DefaultPollInterval * Z.of_nat (S n)) (S n)) s.
Proof.
  revert s. induction n as [|n IH]; intros s; set (deadline := (ck_now s + _)%Z).
  all: apply endsWithin_call; [unfold DefaultPollInterval; lia|apply answers_eeCall, answers_Get|intros lb c].
  all: destruct (becameReady hasRoute lb); [unfold endsWithin, DefaultPollInterval; simpl; lia|].
  all: match goal with |- endsWithin (_ * Z.of_nat (S ?n)) _ _ => replace (DefaultPollInterval * Z.of_nat (S n))%Z with (DefaultPollInterval + DefaultPollInterval * Z.of_nat n)%Z by lia end.
  all: apply endsWithin_sleep, endsWithin_gets; cbn [ck_now].
  - rewrite (proj2 (Z.leb_le _ _)) by (unfold deadline; simpl; lia). unfold endsWithin. simpl. lia.
  - rewrite (proj2 (Z.leb_gt _ _)) by (unfold deadline, DefaultPollInterval; simpl; lia).
    set (s' := {| ck_cluster := _; ck_now := _ |}). specialize (IH s').
    replace (ck_now s' + DefaultPollInterval * Z.of_nat (S n))%Z with deadline in IH by (unfold deadline, s'; simpl ck_now; lia).
    exact IH.
Qed.

Lemma waitForLoadBalancer_ends cfg name hasRoute s : endsWithin DefaultWaitTimeout (waitForLoadBalancer elapse cfg name hasRoute) s.
Proof.
  unfold waitForLoadBalancer. apply endsWithin_gets. generalize (pollLoadBalancer_ends cfg name hasRoute 79 s).
  change (DefaultPollInterval * Z.of_nat 80)%Z with DefaultWaitTimeout. change 80 with pollFuel. by generalize pollFuel.
Qed.

Lemma answers_GetLoadBalancer cfg name : answers (GetLoadBalancer Marshal cfg name).
Proof. unfold GetLoadBalancer. repeat first [apply answers_eeCall, answers_Get | ends_step]. Qed.
Lemma within_GetLoadBalancer K cfg name : within (changes K) (GetLoadBalancer Marshal cfg name).
Proof. unfold GetLoadBalancer. repeat first [apply within_eeCall; [apply _|apply within_Get] | within_step]. Qed.

Lemma Create_ends cfg opts s : endsWithin DefaultWaitTimeout (Create cfg opts) s.
Proof.
  assert (∀ msg, endsWithin DefaultWaitTimeout (raise (A:=list string) (Errorf msg)) s) as Hfail by (intros; unfold endsWithin, DefaultWaitTimeout; simpl; lia).
  unfold CLILoadBalancer.Create. destruct (parseEndpoints _ _ _) as [[endpoints ports]|msg]; [|done]. cbv zeta. destruct (negb _); [done|]. destruct (negb _ && _); [done|].
  apply endsWithin_call; [unfold DefaultWaitTimeout; lia|apply answers_wrap, answers_eeCall, answers_Create|]. intros lb c.
  apply endsWithin_bind.
  - destruct (opts_Wait opts); [apply endsWithin_wrap, waitForLoadBalancer_ends|]. unfold endsWithin, DefaultWaitTimeout. simpl. lia.
  - intros updatedLB s'. case_bool_decide; [|unfold endsWithin; simpl; lia].
    apply endsWithin_call; [lia|apply answers_GetLoadBalancer|]. intros yaml c'. unfold endsWithin. simpl. lia.
Qed.

Lemma within_waitForLoadBalancer K cfg name hasRoute : (∀ d c, changes K c (elapse d c)) → within (ticks K) (waitForLoadBalancer elapse cfg name hasRoute).
Proof.
  intros He. unfold waitForLoadBalancer. within_step; [within_step|]. generalize pollFuel. intros fuel. induction fuel as [|fuel IH]; simpl; [within_step|].
  within_step; [apply within_inCluster, within_eeCall; [apply _|apply within_Get]|]. destruct (becameReady hasRoute _); [within_step|].
  within_step; [apply within_modify; intros s; split; simpl; [done|unfold DefaultPollInterval; lia]|].
  within_step; [within_step|]. destruct (_ <=? _)%Z; [within_step|done].
Qed.

(** creating ends, whatever the API server answers and whatever others do meanwhile: it
    returns or fails after at most four minutes, and writes the new load balancer only. *)
Theorem cli_lb_create_bounded cfg opts (others : ObjectKey -> Prop) s : (∀ d c, changes others c (elapse d c)) →
  (match (Create cfg opts s).1 with Ret _ | Fail _ => True | _ => False end) ∧
  (ck_now (Create cfg opts s).2 <= ck_now s + DefaultWaitTimeout)%Z ∧
  ticks (λ k, others k ∨ k = storeKey LoadBalancer (lbKey cfg (opts_Name opts))) s (Create cfg opts s).2.
Proof.
  intros He. pose proof (Create_ends cfg opts s) as Hends. unfold endsWithin in Hends. split_and!; [by destruct (Create cfg opts s).1|by destruct (Create cfg opts s).1|].
  set (K := λ k, others k ∨ _). enough (within (ticks K) (Create cfg opts)) as H by apply H.
  assert (∀ d c, changes K c (elapse d c)) as HK by (intros d c; eapply changes_weaken, He; by left).
  unfold CLILoadBalancer.Create. destruct (parseEndpoints _ _ _) as [[endpoints ports]|msg]; [|within_step]. cbv zeta. destruct (negb _); [within_step|].
  destruct (negb _ && _); [within_step|].
  within_step; [apply within_inCluster; within_step; apply within_eeCall; [apply _|apply within_Create; by right]|].
  within_step; [destruct (opts_Wait opts); [within_step; by apply within_waitForLoadBalancer|within_step]|].
  case_bool_decide; [|within_step]. within_step; [apply within_inCluster, within_GetLoadBalancer|within_step].
Qed.

(** a load balancer is deleted only when the flag says so or the answer is yes, and nothing
    else is touched; otherwise nothing changes at all. *)
Theorem cli_lb_delete_confirmed cfg name force response c :
  changes (λ k, (force = true ∨ confirmDeletion response = true) ∧ k = storeKey LoadBalancer (lbKey cfg name)) c (DeleteLoadBalancer cfg name force response c).2.
Proof.
  set (K := λ k, _). enough (within (changes K) (DeleteLoadBalancer cfg name force response)) as H by apply H.
  unfold DeleteLoadBalancer. apply within_bind_yields with (Q := λ lb, objKey lb = lbKey cfg name); [apply _| | |].
  - apply yields_wrap, yields_eeCall, yields_Get.
  - within_step. apply within_eeCall; [apply _|apply within_Get].
  - intros lb Hk. destruct force; simpl.
    + within_step; [|within_step]. within_step. apply within_eeCall; [apply _|]. apply within_Delete. rewrite Hk. split; [by left|done].
    + destruct (confirmDeletion response) eqn:Hr; simpl; [|within_step].
      within_step; [|within_step]. within_step. apply within_eeCall; [apply _|]. apply within_Delete. rewrite Hk. split; [by right|done].
Qed.

(** Without the types of the enterprise edition every command fails, and changes nothing. *)
Theorem lb_needs_enterprise cfg opts name force response s : IsEE (cfg_Edition cfg) = false →
  (∃ err, Create cfg opts s = (Fail err, s)) ∧
  (∃ err, GetLoadBalancer Marshal cfg name (ck_cluster s) = (Fail err, ck_cluster s)) ∧
  (∃ err, DeleteLoadBalancer cfg name force response (ck_cluster s) = (Fail err, ck_cluster s)) ∧
  (∃ err, ListLoadBalancers cfg (ck_cluster s) = (Fail err, ck_cluster s)).
Proof.
  intros Hce. split_and!.
  - unfold CLILoadBalancer.Create. destruct (parseEndpoints _ _ _) as [[endpoints ports]|msg]; [|by eexists]. cbv zeta. destruct (negb _); [by eexists|].
    destruct (negb _ && _); [by eexists|]. unfold eeCall. rewrite Hce. eexists. by destruct s.
  - unfold GetLoadBalancer, eeCall. rewrite Hce. by eexists.
  - unfold DeleteLoadBalancer, eeCall. rewrite Hce. by eexists.
  - unfold ListLoadBalancers, eeCall. rewrite Hce. by eexists.
Qed.
End commands_promises.

(** ** Runs *)

Definition ipsOf (ips : gset string) : list string := elements ips.
Definition portsOf (ports : gset Z) : list Z := elements ports.
Definition enterprise : Config := {| sampleConfig with cfg_Edition := EditionEE |}.
Definition createApp (endpoints type : string) (route wait : bool) (format : string) : CreateOptions :=
  {| opts_Name := "app"; opts_Endpoints := endpoints; opts_Type := type; opts_Protocol := "http"; opts_Route := route; opts_Hostname := "";
     opts_Wait := wait; opts_Output := format |}.
Definition clocked (objects : list Object) : Clocked := {| ck_cluster := sampleCluster objects; ck_now := 0 |}.
Definition nameAsYAML (x : Object) : result string := Ok ("name: " ⊕ om_Name (metaOf x)).
#[local] Abbreviation create := (Create ipsOf portsOf (λ _ c, c) nameAsYAML enterprise).
#[local] Abbreviation parse := (parseEndpoints ipsOf portsOf).

Definition servedOf (endpointStr : string) : LoadBalancer :=
  match parse endpointStr with Ok (endpoints, ports) => generateLoadBalancer "app" "tenant-a" endpoints ports "ClusterIP" true "" | Err _ => generateLoadBalancer "" "" [] [] "" false "" end.
Definition noService : Service := service (objectMeta "" "" "" None None) [] "" "" "".

Lemma cli_lb_served_witness : ∃ upstream p, CreateServicePorts NewPortAllocator (servedOf "10.0.0.1:9000, 10.0.0.2:8080") noService = Some [p] ∧
  upstream = 8080%Z ∧ sp_Port p = 8080%Z.
Proof.
  pose proof (cli_lb_served ipsOf portsOf (λ ports, reflexivity _) NewPortAllocator noService "10.0.0.1:9000, 10.0.0.2:8080" _ _ "app" "tenant-a" "ClusterIP" true "" eq_refl) as H.
  change (generateLoadBalancer _ _ _ _ _ _ _) with (servedOf "10.0.0.1:9000, 10.0.0.2:8080") in H.
  destruct (CreateServicePorts _ _ _) as [out|] eqn:E; [|vm_compute in E; discriminate E].
  destruct H as (upstream & p & -> & _ & H8 & Hp & _). exists upstream, p. split; [reflexivity|]. split; [|exact Hp].
  apply H8. apply (bool_decide_unpack _). vm_compute. reflexivity.
Defined.

Lemma cli_lb_create_bounded_witness : (ck_now (create (createApp "10.0.0.1:80" "ClusterIP" true true "summary") (clocked [])).2 <= 240)%Z.
Proof. apply (cli_lb_create_bounded ipsOf portsOf (λ _ c, c) nameAsYAML enterprise (createApp "10.0.0.1:80" "ClusterIP" true true "summary") nothing (clocked [])). reflexivity. Defined.

(** The addresses and the ports of the list are kept apart: two pairs become four backends.
    Of several ports the manager serves one, the first in Go's random order. *)
Example pairs_are_crossed :
  match parse "10.0.0.1:80,10.0.0.2:81" with
  | Ok ([eps], _) => length (lbe_Addresses eps) = 2 ∧ length (lbe_Ports eps) = 2
  | _ => False
  end.
Proof. vm_compute. split; reflexivity. Qed.

Example served_port_depends_on_order :
  let targets range := match parseEndpoints ipsOf range "10.0.0.1:80,10.0.0.1:81" with
    | Ok (endpoints, ports) => option_map (fmap sp_TargetPort) (CreateServicePorts NewPortAllocator (generateLoadBalancer "app" "tenant-a" endpoints ports "ClusterIP" true "") noService)
    | Err _ => None end in
  targets portsOf = Some [FromInt 81] ∧ targets (λ ports, reverse (portsOf ports)) = Some [FromInt 80].
Proof. vm_compute. split; reflexivity. Qed.

(** A list of separators only is accepted; the manager panics on what is made of it. *)
Example blank_list_panics : CreateServicePorts NewPortAllocator (servedOf " ,") noService = None.
Proof. vm_compute. reflexivity. Qed.

(** The list is split at the first colon, so no IPv6 address can be given. *)
Example ipv6_refused : parse "[2001:db8::1]:80" = Err "invalid port in [2001:db8::1]:80".
Proof. vm_compute. reflexivity. Qed.

(** Without a route the default type is never ready: the example of the help text waits for
    four minutes and fails, and the load balancer stays. *)
Example no_route_times_out :
  let '(r, s) := create (createApp "10.0.1.1:8080" "ClusterIP" false true "summary") (clocked []) in
  match r with Fail err => ErrorString err = "load balancer did not become ready: context deadline exceeded" | _ => False end ∧
  ck_now s = 240%Z ∧ is_Some (findObject LoadBalancer (ck_cluster s) ("tenant-a", "app")).
Proof. vm_compute. split_and!; [reflexivity|reflexivity|by eexists]. Qed.

(** The format [json] of the help text prints the summary. *)
Example json_is_summary :
  (create (createApp "10.0.1.1:8080" "ClusterIP" true false "json") (clocked [])).1 = Ret [] ∧
  (create (createApp "10.0.1.1:8080" "ClusterIP" true false "yaml") (clocked [])).1 = Ret ["name: app"].
Proof. vm_compute. split; reflexivity. Qed.

(** In the community edition every command on load balancers fails. *)
Example lb_fails_in_community :
  match (ListLoadBalancers {| sampleConfig with cfg_Edition := EditionCE |} (sampleCluster [])).1 with Fail _ => True | _ => False end.
Proof. exact I. Qed.
