(* ===== verification/TunnelClient.v ===== *)
(** * The connection of a tunnel

    [cli/internal/tunnel/connect.go]: the client holds a stream of events open to the
    connection manager, hands every request that comes in to the local service and posts the
    answer, and opens the stream again when it breaks.

    What the connection manager and the local service answer, the randomness of a delay and
    the moments of a cancellation are inputs. A delay is in nanoseconds, a time of the health
    check in seconds. Goroutines are merged into one sequence of inputs. [shutdownCtx] is only
    cancelled by [Close], which its caller defers until the tunnel has ended, and is left out. *)

From Stdlib Require Import Ascii.
From S2P Require Import Prelude GoStrings GoBase64 Api Names ConvAnnotations.
Local Open Scope go_scope.
Local Open Scope Z_scope.

(** ** State *)

Inductive ConnectionState := StateDisconnected | StateConnecting | StateConnected | StateReconnecting | StateFailed.

Definition ConnectionStateString (s : ConnectionState) : string :=
  match s with
  | StateDisconnected => "disconnected"
  | StateConnecting => "connecting"
  | StateConnected => "connected"
  | StateReconnecting => "reconnecting"
  | StateFailed => "failed"
  end.

Record Auth := { au_Token : string; au_TokenExpiry : Z }.

(** What stays the same, and the fields that change *)
Record Client := {
  tc_baseURL : string;
  tc_auth : Auth;
  tc_tunnelName : string;
  tc_hostname : string;
  tc_tenantName : string;
  tc_targetPort : string;
  tc_state : ConnectionState;
  tc_lastPing : Z;
  tc_reconnectCount : Z;
  tc_needsReconnect : bool;
}.

(** [context.Canceled] is told from the other errors. *)
Inductive TunnelError := Canceled | TunnelErr (msg : string).

Definition parseConnectionURL (url_Parse : string -> result URL) (connectionURL : string) : result string :=
  let connectionURL := if Contains connectionURL "://" then connectionURL else "https://" ⊕ connectionURL in
  match url_Parse connectionURL with
  | Err msg => Err ("failed to parse URL: " ⊕ msg)
  | Ok parsedURL =>
      if bool_decide (url_Host parsedURL = "") then Err "no host found in URL"
      else Ok (url_Scheme parsedURL ⊕ "://" ⊕ url_Host parsedURL)
  end.

Definition NewClient (url_Parse : string -> result URL) (auth : Auth) (connectionManagerURL tunnelName hostname tenantName targetPort : string) : result Client :=
  match parseConnectionURL url_Parse connectionManagerURL with
  | Err msg => Err ("invalid connection manager URL: " ⊕ msg)
  | Ok baseURL =>
      Ok {| tc_baseURL := baseURL; tc_auth := auth; tc_tunnelName := tunnelName; tc_hostname := hostname; tc_tenantName := tenantName; tc_targetPort := targetPort;
            tc_state := StateDisconnected; tc_lastPing := 0; tc_reconnectCount := 0; tc_needsReconnect := false |}
  end.

(** ** Reading events *)

(** What happens to a connection: a line of the stream, its end, an error of reading it, the
    ticker of the health check, the end of the context, and what the connection manager says
    to the answers the workers post. A line is without its line feed, and has no carriage
    return at its end, which the scanner would drop. *)
Inductive Input :=
| InLine (line : string)
| InEOF
| InReadError (msg : string)
| InHealthTick
| InContextDone
| InPostedOK
| InPosted404.

(** [rd_event]: the event whose data line comes next; [rd_requests]: what was handed to
    workers; [rd_monitored]: whether the health check still runs *)
Record Reader := {
  rd_client : Client;
  rd_event : option string;
  rd_requests : list string;
  rd_monitored : bool;
}.

(** The limit of a [bufio.Scanner], with the line break *)
Definition MaxScanTokenSize : Z := 64 * 1024.
Definition readError (msg : string) : TunnelError := TunnelErr ("error reading SSE stream: " ⊕ msg).

Definition withClient (r : Reader) (f : Client -> Client) : Reader := {| r with rd_client := f (rd_client r) |}.

Definition handleEvent (now : Z) (eventType data : string) (r : Reader) : Reader + TunnelError :=
  if bool_decide (eventType = "request") then inl {| r with rd_requests := rd_requests r ++ [data] |}
  else if bool_decide (eventType = "ping") then inl (withClient r (λ c, {| c with tc_lastPing := now |}))
  else if bool_decide (eventType = "error") then inr (TunnelErr ("server error: " ⊕ data))
  else inl r.

(** A data line that does not follow is skipped together with its event. *)
Definition handleLine (now : Z) (line : string) (r : Reader) : Reader + TunnelError :=
  match rd_event r with
  | Some eventType =>
      let r := {| r with rd_event := None |} in
      if HasPrefix line "data: " then handleEvent now eventType (TrimPrefix line "data: ") r else inl r
  | None => inl (if HasPrefix line "event: " then {| r with rd_event := Some (TrimPrefix line "event: ") |} else r)
  end.

Definition pingTimeout : Z := 90.
(** One tick of [monitorConnectionHealth]: whether it returns *)
Definition monitorReturns (now : Z) (c : Client) : bool :=
  tc_needsReconnect c || ((0 <? tc_lastPing c) && (pingTimeout <? now - tc_lastPing c)).

Definition readInput (r : Reader) (input : Z * Input) : Reader + TunnelError :=
  let '(now, input) := input in
  match input with
  | InLine line => if MaxScanTokenSize <=? Z.of_nat (String.length line) then inr (readError "bufio.Scanner: token too long") else handleLine now line r
  | InEOF => inr (TunnelErr "SSE stream ended unexpectedly")
  | InReadError msg => inr (readError msg)
  | InHealthTick => inl (if monitorReturns now (rd_client r) then {| r with rd_monitored := false |} else r)
  | InContextDone => inr Canceled
  | InPostedOK => inl (withClient r (λ c, {| c with tc_needsReconnect := false |}))
  | InPosted404 => inl (withClient r (λ c, {| c with tc_needsReconnect := true |}))
  end.

(** Without an error the connection is still open when the inputs are used up. *)
Fixpoint handleSSEEvents (r : Reader) (inputs : list (Z * Input)) : Reader * option TunnelError :=
  match inputs with
  | [] => (r, None)
  | input :: inputs => match readInput r input with inl r => handleSSEEvents r inputs | inr err => (r, Some err) end
  end.

(** ** One connection *)

Definition validHeaderByte (a : ascii) : bool := negb ((byte_of a <? 32) || (byte_of a =? 127)).
(** Bytes from 128 on belong to characters from 128 on. *)
Definition isValidHTTPHeaderValue (value : string) : bool := str_forall validHeaderByte value.
(** The invalid characters of a value, as [%v] prints them *)
Definition invalidChars (value : string) : list Z := byte_of <$> filter (λ a, validHeaderByte a = false) (String.list_ascii_of_string value).
Definition printRunes (runes : list Z) : string := "[" ⊕ Join (Itoa <$> runes) " " ⊕ "]".

Definition connectURL (c : Client) : string := tc_baseURL c ⊕ "/tunnel/connect".
(** The headers of the request that opens the stream *)
Definition connectHeaders (c : Client) : StrMap :=
  <["Authorization" := "Bearer " ⊕ au_Token (tc_auth c)]> (<["X-Tunnel-Hostname" := tc_hostname c]> (<["X-Target-Port" := tc_targetPort c]>
    (<["X-Tunnel-Name" := tc_tunnelName c]> (<["X-Tenant-Name" := tc_tenantName c]> (<["Accept" := "text/event-stream"]>
      (<["Cache-Control" := "no-cache"]> ∅)))))).

(** What becomes of the request for [connectURL]: it is not made, for [connectURL] is not a
    URL, or the connection manager answers *)
Inductive ConnectAnswer :=
| AnswerNoRequest (msg : string)
| AnswerError (err : TunnelError)
| AnswerStatus (code : Z) (body : string)
| AnswerStream (inputs : list (Z * Input)).

Definition opened (c : Client) : Client := {| c with tc_state := StateConnected; tc_needsReconnect := false |}.
Definition readerOf (c : Client) : Reader := {| rd_client := c; rd_event := None; rd_requests := []; rd_monitored := true |}.

(** The client and the requests of the connection *)
Definition establishSingleConnection (c : Client) (answer : ConnectAnswer) : Client * list string * option TunnelError :=
  let failed msg := (c, [], Some (TunnelErr msg)) in
  let authHeader := "Bearer " ⊕ au_Token (tc_auth c) in
  match answer with
  | AnswerNoRequest msg => failed ("failed to create SSE request: " ⊕ msg)
  | _ =>
      if negb (isValidHTTPHeaderValue authHeader)
      then failed ("invalid characters in auth token: " ⊕ printRunes (invalidChars authHeader) ⊕ " (token length: " ⊕ Itoa (Z.of_nat (String.length (au_Token (tc_auth c)))) ⊕ ")")
      else if negb (isValidHTTPHeaderValue (tc_tunnelName c)) then failed ("invalid characters in tunnel name: " ⊕ Quote (tc_tunnelName c))
      else if negb (isValidHTTPHeaderValue (tc_tenantName c)) then failed ("invalid characters in tenant name: " ⊕ Quote (tc_tenantName c))
      else
        match answer with
        | AnswerNoRequest msg => failed ("failed to create SSE request: " ⊕ msg)
        | AnswerError Canceled => (c, [], Some Canceled)
        | AnswerError (TunnelErr msg) => failed ("failed to connect to tunnel server: " ⊕ msg)
        | AnswerStatus code body => failed ("tunnel connection failed: " ⊕ body ⊕ " (status: " ⊕ Itoa code ⊕ ")")
        | AnswerStream inputs =>
            let '(r, err) := handleSSEEvents (readerOf (opened c)) inputs in (rd_client r, rd_requests r, err)
        end
  end.

Definition isNonRecoverableError (msg : string) : bool :=
  Contains msg "401" || Contains msg "403" || Contains msg "invalid token" || Contains msg "authentication failed".

(** ** Reconnecting *)

Definition maxRetries : nat := 10.
Definition second : Z := 10 ^ 9.
Definition baseDelay : Z := second.
Definition maxDelay : Z := 60 * second.

(** The delay before an attempt, without the jitter *)
Definition backoff (attempt : nat) : Z :=
  let multiplier := Z.shiftl 1 (Z.of_nat attempt - 1) in
  let delay := baseDelay * multiplier in
  if maxDelay <? delay then maxDelay else delay.
(** [jitter] is a random part of half the delay, [spread] of the jitter. *)
Definition jittered (delay jitter spread : Z) : Z := delay - Z.quot jitter 2 + spread.

(** What happens around one attempt: a cancellation before it or during the delay, the
    randomness, the answer, and how long it takes until the connection has ended, or, when
    the delay is cut short, until then *)
Record Attempt := {
  at_cancelled : bool;
  at_cancelledInDelay : bool;
  at_jitter : Z;
  at_spread : Z;
  at_answer : ConnectAnswer;
  at_lasts : Z;
}.

(** The run so far: the client, the delays that were waited for, the requests, the result,
    [None] while the last connection is open, and, from the start of the run, when its
    connections were opened and the time that has passed *)
Record Run := {
  run_client : Client; run_delays : list Z; run_connections : nat; run_requests : list string; run_result : option TunnelError;
  run_opened : list Z; run_elapsed : Z;
}.

Definition total (delays : list Z) : Z := foldr Z.add 0 delays.
Definition attemptConnection (attempt : nat) (env : Attempt) (r : Run) : Run :=
  let c := run_client r in
  let finish err := {| r with run_result := Some err |} in
  if at_cancelled env then finish Canceled
  else
    let c := {| c with tc_needsReconnect := false |} in
    let c := if (attempt =? 0)%nat then {| c with tc_state := StateConnecting |}
             else {| c with tc_state := StateReconnecting; tc_reconnectCount := tc_reconnectCount c + 1 |} in
    if negb (attempt =? 0)%nat && at_cancelledInDelay env then {| r with run_client := c; run_result := Some Canceled; run_elapsed := run_elapsed r + at_lasts env |}
    else
      let delays := if (attempt =? 0)%nat then [] else [jittered (backoff attempt) (at_jitter env) (at_spread env)] in
      let now := run_elapsed r + total delays in
      let '(c, requests, err) := establishSingleConnection c (at_answer env) in
      {| run_client := c; run_delays := run_delays r ++ delays; run_connections := S (run_connections r); run_requests := run_requests r ++ requests; run_result := err;
         run_opened := run_opened r ++ [now]; run_elapsed := now + at_lasts env |}.

(** The loop, with [n] attempts left. An error ends it when it is the cancellation or cannot
    be recovered from; a connection that is still open ends the run, as do no more inputs. *)
Fixpoint attempts (n attempt : nat) (envs : list Attempt) (r : Run) : Run :=
  match n with
  | O =>
      {| r with run_client := {| (run_client r) with tc_state := StateFailed |};
                run_result := Some (TunnelErr ("failed to establish tunnel after " ⊕ Itoa (Z.of_nat maxRetries) ⊕ " attempts")) |}
  | S n =>
      match envs with
      | [] => r
      | env :: envs =>
          let r := attemptConnection attempt env r in
          match run_result r with
          | None => r
          | Some Canceled => r
          | Some (TunnelErr msg) =>
              if isNonRecoverableError msg
              then {| r with run_client := {| (run_client r) with tc_state := StateFailed |}; run_result := Some (TunnelErr ("non-recoverable error: " ⊕ msg)) |}
              else attempts n (S attempt) envs {| r with run_result := None |}
          end
      end
  end.

Definition startRun (c : Client) : Run :=
  {| run_client := c; run_delays := []; run_connections := 0; run_requests := []; run_result := None; run_opened := []; run_elapsed := 0 |}.
Definition EstablishTunnel (c : Client) (envs : list Attempt) : Run := attempts maxRetries 0 envs (startRun c).

(** ** Forwarding a request *)

Record HTTPRequest := {
  hq_RequestID : string;
  hq_Method : string;
  hq_Path : string;
  hq_Headers : StrMap;
  hq_Body : string;
}.

Record HTTPResponse := {
  hp_RequestID : string;
  hp_StatusCode : Z;
  hp_Headers : StrMap;
  hp_Body : string;
}.

(** The request to the local service and its answer; reading the body may fail. *)
Record LocalRequest := { lq_Method : string; lq_URL : string; lq_Headers : StrMap; lq_Body : string }.
Record LocalResponse := { lp_StatusCode : Z; lp_Header : gmap string (list string); lp_Body : result string }.

(** The request that posts an answer to the connection manager *)
Record PostedResponse := { po_URL : string; po_Headers : StrMap; po_Response : HTTPResponse }.
Inductive PostAnswer := PostError (msg : string) | PostStatus (code : Z) (body : string).

Definition sendResponse (c : Client) (resp : HTTPResponse) : PostedResponse :=
  {| po_URL := tc_baseURL c ⊕ "/tunnel/response";
     po_Headers := <["Content-Type" := "application/json"]> (<["Authorization" := "Bearer " ⊕ au_Token (tc_auth c)]>
       (<["X-Tunnel-Name" := tc_tunnelName c]> (<["X-Tenant-Name" := tc_tenantName c]> ∅)));
     po_Response := resp |}.

(** What [sendResponse] makes of the answer: the flag for a reconnection, and its error *)
Definition responseSent (needsReconnect : bool) (answer : PostAnswer) : bool * option string :=
  match answer with
  | PostError msg => (needsReconnect, Some ("failed to send response: " ⊕ msg))
  | PostStatus code body =>
      if bool_decide (code = 404) then (true, Some "tunnel not found on server (404), may need reconnection")
      else if negb (bool_decide (code = 200)) then (needsReconnect, Some ("server returned error: " ⊕ Itoa code ⊕ " - " ⊕ body))
      else (false, None)
  end.
(** Whether the error is shown to the user *)
Definition sendErrorShown (err : string) : bool := negb (Contains err "reconnection triggered").

Definition sendError (requestID message : string) : HTTPResponse :=
  {| hp_RequestID := requestID; hp_StatusCode := 500; hp_Headers := {[ "Content-Type" := "text/plain" ]}; hp_Body := Base64 message |}.

Definition hopByHopHeaders : list string :=
  ["Connection"; "Keep-Alive"; "Proxy-Authenticate"; "Proxy-Authorization"; "Te"; "Trailers"; "Transfer-Encoding"; "Upgrade"].

Definition forwardedHeaders (header : gmap string (list string)) : StrMap :=
  omap (λ values, if bool_decide (values = []) then None else Some (Join values ", "))
    (filter (λ kv, kv.1 ∉ hopByHopHeaders) header).

Section forward.
(** Why [http.NewRequestWithContext] refuses a method and a URL; [Header.Set]'s spelling of
    a name; Go's order of a map; the text of a decoding error *)
Context (refusesRequest : string -> string -> option string) (canonical : string -> string) (rangeHeaders : StrMap -> list (string * string)).
Context (corruptInput : string -> string).
(** What [net/http] sends a request to, after the ones it sent for the same call; the URL a
    location stands for, seen from another; the headers that go along with a redirect; the
    text of an error after the requests that were sent *)
Context (transport : list LocalRequest -> LocalRequest -> result LocalResponse) (resolve : string -> string -> result string).
Context (redirectHeaders : LocalRequest -> string -> StrMap) (urlError : list LocalRequest -> string -> string).

(** [http.Client.Do] with the default policy on redirects, as [localHTTPClient] has it: where
    an answer sends the client next, if anywhere, *)
Definition redirected (req : LocalRequest) (resp : LocalResponse) : option (result LocalRequest) :=
  let code := lp_StatusCode resp in
  let location := default "" (lp_Header resp !! "Location" ≫= head) in
  if negb (bool_decide (code ∈ [301; 302; 303; 307; 308])) || bool_decide (location = "") then None
  else
    Some match resolve (lq_URL req) location with
         | Err msg => Err ("failed to parse Location header " ⊕ Quote location ⊕ ": " ⊕ msg)
         | Ok url =>
             let same := bool_decide (code ∈ [307; 308]) in
             Ok {| lq_Method := if same || bool_decide (lq_Method req = "HEAD") then lq_Method req else "GET"; lq_URL := url;
                   lq_Headers := redirectHeaders req url; lq_Body := if same then lq_Body req else "" |}
         end.

(** and the requests it sends in all, with the last answer; [hops]: how many redirects it
    still follows *)
Fixpoint Do (hops : nat) (earlier : list LocalRequest) (req : LocalRequest) : list LocalRequest * result LocalResponse :=
  let sent := earlier ++ [req] in
  let error msg := (sent, Err (urlError sent msg)) in
  match transport earlier req with
  | Err msg => error msg
  | Ok resp =>
      match redirected req resp with
      | None => (sent, Ok resp)
      | Some (Err msg) => error msg
      | Some (Ok next) => match hops with O => error "stopped after 10 redirects" | S hops => Do hops sent next end
      end
  end.
(** Ten requests at most *)
Definition defaultHops : nat := 9.

Definition localURL (c : Client) (path : string) : string := "http://localhost:" ⊕ tc_targetPort c ⊕ path.

Definition localRequest (c : Client) (req : HTTPRequest) (body : string) : LocalRequest :=
  {| lq_Method := if bool_decide (hq_Method req = "") then "GET" else hq_Method req; lq_URL := localURL c (hq_Path req);
     lq_Headers := foldl (λ header kv, <[canonical kv.1 := kv.2]> header) ∅ (rangeHeaders (hq_Headers req)); lq_Body := body |}.

(** The requests made, and the response that is posted *)
Definition forwardToLocalService (c : Client) (req : HTTPRequest) : list LocalRequest * HTTPResponse :=
  let error msg := sendError (hq_RequestID req) msg in
  match DecodeString (hq_Body req) with
  | None => ([], error ("Invalid request body: " ⊕ corruptInput (hq_Body req)))
  | Some body =>
      if negb (HasPrefix (hq_Path req) "/") || HasPrefix (hq_Path req) "//" then ([], error "Invalid request path")
      else
        match refusesRequest (hq_Method req) (localURL c (hq_Path req)) with
        | Some msg => ([], error ("Invalid request: " ⊕ msg))
        | None =>
            let '(requests, answer) := Do defaultHops [] (localRequest c req body) in
            (requests,
             match answer with
             | Err msg => error ("Request failed: " ⊕ msg)
             | Ok resp =>
                 match lp_Body resp with
                 | Err msg => error ("Failed to read response: " ⊕ msg)
                 | Ok respBody =>
                     {| hp_RequestID := hq_RequestID req; hp_StatusCode := lp_StatusCode resp;
                        hp_Headers := forwardedHeaders (lp_Header resp); hp_Body := Base64 respBody |}
                 end
             end)
        end
  end.

(** A worker: data that is not a request is dropped. *)
Definition handleRequestEventWithTracking (Unmarshal : string -> option HTTPRequest) (c : Client) (data : string) : option (list LocalRequest * PostedResponse) :=
  match Unmarshal data with
  | None => None
  | Some req => let '(requests, resp) := forwardToLocalService c req in Some (requests, sendResponse c resp)
  end.
End forward.

(** [truncateString], for log messages *)
Definition truncateString (s : string) (maxLen : nat) : string := if (String.length s <=? maxLen)%nat then s else str_take maxLen s ⊕ "...".

(** ** The health check has no effect *)

Definition isTick (input : Z * Input) : bool := match input.2 with InHealthTick => true | _ => false end.
(** Readers that differ at most in whether the health check runs *)
Definition sameButMonitor (r r' : Reader) : Prop :=
  rd_client r = rd_client r' ∧ rd_event r = rd_event r' ∧ rd_requests r = rd_requests r'.

Lemma handleLine_monitor now line r r' : sameButMonitor r r' →
  match handleLine now line r, handleLine now line r' with
  | inl s, inl s' => sameButMonitor s s' | inr e, inr e' => e = e' | _, _ => False
  end.
Proof.
  destruct r as [c e q m], r' as [c' e' q' m']. intros (Hc & He & Hq). simpl in Hc, He, Hq. subst. unfold handleLine. simpl. destruct e' as [eventType|].
  - destruct (HasPrefix line "data: "); [|done]. unfold handleEvent. repeat case_bool_decide; done.
  - by destruct (HasPrefix line "event: ").
Qed.

Lemma handleSSEEvents_monitor inputs r r' : sameButMonitor r r' →
  sameButMonitor (handleSSEEvents r inputs).1 (handleSSEEvents r' (filter (λ i, isTick i = false) inputs)).1 ∧
  (handleSSEEvents r inputs).2 = (handleSSEEvents r' (filter (λ i, isTick i = false) inputs)).2.
Proof.
  revert r r'. induction inputs as [|[now input] inputs IH]; intros r r' Hr; [done|].
  destruct input as [line|msg| | | | |]; cbn [isTick]; try (rewrite (filter_cons_True (λ i, isTick i = false)) by done; simpl).
  - destruct (MaxScanTokenSize <=? Z.of_nat (String.length line)); [by split|]. pose proof (handleLine_monitor now line r r' Hr) as H.
    destruct (handleLine now line r), (handleLine now line r'); try done; [by apply IH|by subst].
  - by split.
  - by split.
  - rewrite (filter_cons_False (λ i, isTick i = false)) by done. simpl. apply IH. by destruct (monitorReturns now (rd_client r)).
  - by split.
  - apply IH. destruct Hr as (Hc & ? & ?). split_and!; simpl; [by rewrite Hc|done|done].
  - apply IH. destruct Hr as (Hc & ? & ?). split_and!; simpl; [by rewrite Hc|done|done].
Qed.

(** the health check only ends itself: a connection with it is read exactly as one
    without, so neither a silent connection manager nor a lost registration, which it is to
    answer with a reconnection, ends a connection. *)
Theorem health_check_without_effect c inputs :
  let with_ticks := handleSSEEvents (readerOf c) inputs in
  let without := handleSSEEvents (readerOf c) (filter (λ i, isTick i = false) inputs) in
  with_ticks.2 = without.2 ∧ rd_client with_ticks.1 = rd_client without.1 ∧ rd_requests with_ticks.1 = rd_requests without.1.
Proof. cbv zeta. destruct (handleSSEEvents_monitor inputs (readerOf c) (readerOf c)) as [(Hc & _ & Hq) He]; [done|]. done. Qed.

(** ** Reconnecting comes to an end *)

(** What the random numbers may be: [rand.Float64] is in the unit interval. *)
Definition drawn (attempt : nat) (env : Attempt) : Prop :=
  0 ≤ at_jitter env ∧ 2 * at_jitter env ≤ backoff attempt ∧ 0 ≤ at_spread env ≤ at_jitter env.

Lemma total_app delays delays' : total (delays ++ delays') = total delays + total delays'.
Proof. unfold total. induction delays as [|x delays IH]; simpl; [lia|]. rewrite IH. lia. Qed.
Lemma total_snoc delays d : total (delays ++ [d]) = total delays + d.
Proof. rewrite total_app. unfold total. simpl. lia. Qed.

(** All delays before the attempt of a number, without the jitter *)
Definition backoffs (attempt : nat) : Z := total (backoff <$> seq 1 (attempt - 1)).
Lemma backoff_nonneg attempt : (1 ≤ attempt)%nat → second ≤ backoff attempt ≤ maxDelay.
Proof.
  intros Ha. unfold backoff. cbv zeta. rewrite Z.shiftl_1_l. assert (1 ≤ 2 ^ (Z.of_nat attempt - 1)) as Hp by (apply (Z.pow_le_mono_r 2 0); lia).
  destruct (Z.ltb_spec maxDelay (baseDelay * 2 ^ (Z.of_nat attempt - 1))); unfold maxDelay, baseDelay, second in *; nia.
Qed.
Lemma backoffs_S attempt : (1 ≤ attempt)%nat → backoffs (S attempt) = backoffs attempt + backoff attempt.
Proof.
  intros Ha. unfold backoffs. replace (S attempt - 1)%nat with (attempt - 1 + 1)%nat by lia. rewrite seq_app, fmap_app. simpl.
  replace (S (attempt - 1)) with attempt by lia. apply total_snoc.
Qed.
Lemma backoffs_mono i j : (i ≤ j)%nat → backoffs i ≤ backoffs j.
Proof.
  induction 1 as [|j Hj IH]; [done|]. destruct (decide (1 ≤ j)%nat) as [H1|H1].
  - rewrite (backoffs_S j H1). destruct (backoff_nonneg j H1) as [Hb _]. assert (0 < second) by done. clear - IH Hb H. lia.
  - assert (j = 0)%nat as -> by lia. assert (i = 0)%nat as -> by lia. done.
Qed.
Lemma backoffs_all : backoffs maxRetries = 243 * second.
Proof. reflexivity. Qed.

Lemma backoff_quarters attempt : ∃ k, backoff attempt = 4 * k.
Proof.
  unfold backoff. cbv zeta. destruct (_ <? _); [by exists (maxDelay `div` 4)|]. exists (250000000 * Z.shiftl 1 (Z.of_nat attempt - 1)). unfold baseDelay, second. lia.
Qed.
(** A jittered delay is within a quarter of the delay. *)
Lemma jittered_bounds attempt env : drawn attempt env →
  3 * backoff attempt ≤ 4 * jittered (backoff attempt) (at_jitter env) (at_spread env) ≤ 5 * backoff attempt.
Proof. intros (Hj & Hd & Hs). unfold jittered. destruct (backoff_quarters attempt) as [k Hk]. rewrite Hk in *. Z.to_euclidean_division_equations. lia. Qed.

(** Connections that do not stay open *)
Definition closing (input : Z * Input) : bool := match input.2 with InEOF | InReadError _ | InContextDone => true | _ => false end.
Definition closes (env : Attempt) : Prop :=
  match at_answer env with AnswerStream inputs => existsb closing inputs = true | _ => True end.

Lemma handleSSEEvents_closes r inputs : existsb closing inputs = true → is_Some (handleSSEEvents r inputs).2.
Proof.
  revert r. induction inputs as [|[now input] inputs IH]; intros r; [done|]. cbn [existsb]. intros Hc.
  change (handleSSEEvents r ((now, input) :: inputs)) with (match readInput r (now, input) with inl r => handleSSEEvents r inputs | inr err => (r, Some err) end).
  destruct (readInput r (now, input)) as [r'|err] eqn:Hr; [|by eexists]. apply IH. apply orb_true_iff in Hc as [Hc|Hc]; [|done].
  destruct input; try discriminate Hc; discriminate Hr.
Qed.

Lemma establish_closes c env : closes env → is_Some (establishSingleConnection c (at_answer env)).2.
Proof.
  unfold closes, establishSingleConnection. cbv zeta. intros Hc. destruct (at_answer env) as [msg|[|msg]|code body|inputs]; [by eexists|..];
    repeat (destruct (negb (isValidHTTPHeaderValue _)); [by eexists|]); try by eexists.
  pose proof (handleSSEEvents_closes (readerOf (opened c)) inputs Hc) as H. by destruct (handleSSEEvents _ inputs).
Qed.

(** What holds before the attempt of a number *)
Record keeps (attempt : nat) (r : Run) : Prop := {
  keeps_connections : (run_connections r ≤ attempt)%nat;
  keeps_total : 4 * total (run_delays r) ≤ 5 * backoffs attempt;
}.

Lemma attemptConnection_keeps attempt env r : drawn attempt env → keeps attempt r → keeps (S attempt) (attemptConnection attempt env r).
Proof.
  intros Hd [Hc Ht]. pose proof (backoffs_mono attempt (S attempt) ltac:(lia)) as Hmono. unfold attemptConnection. cbv zeta.
  destruct (at_cancelled env); [split; simpl; lia|]. destruct (_ && _) eqn:Hdelay; [split; simpl; lia|].
  destruct (establishSingleConnection _ _) as [[c requests] err]. destruct (Nat.eqb_spec attempt 0) as [->|Hne]; split; simpl; try lia.
  { by rewrite app_nil_r. }
  rewrite total_snoc, backoffs_S by lia. pose proof (jittered_bounds attempt env Hd). lia.
Qed.

Lemma attemptConnection_closes attempt env r : closes env → is_Some (run_result (attemptConnection attempt env r)).
Proof.
  intros Hc. unfold attemptConnection. cbv zeta. destruct (at_cancelled env); [by eexists|]. destruct (_ && _); [by eexists|].
  match goal with |- context [establishSingleConnection ?c ?a] => pose proof (establish_closes c env Hc) as H; destruct (establishSingleConnection c a) as [[c' requests] err] end.
  exact H.
Qed.

Lemma attempts_end n attempt envs r :
  (attempt + n = maxRetries)%nat → keeps attempt r → (∀ i env, envs !! i = Some env → drawn (attempt + i) env) → run_result r = None →
  let r' := attempts n attempt envs r in
  keeps maxRetries r' ∧
  (n ≤ length envs → Forall closes envs → is_Some (run_result r'))%nat ∧
  (∀ msg, run_result r' = Some (TunnelErr msg) → tc_state (run_client r') = StateFailed).
Proof.
  revert attempt envs r. induction n as [|n IH]; intros attempt envs r Hn Hk Hd Hr; cbv zeta; simpl.
  { replace attempt with maxRetries in Hk by lia. split_and!; [by destruct Hk|by eexists|done]. }
  destruct envs as [|env envs]; simpl.
  { split_and!; [|intros; lia|by rewrite Hr]. destruct Hk as [Hc Ht]. pose proof (backoffs_mono attempt maxRetries ltac:(lia)). split; lia. }
  assert (drawn attempt env) as Hd0 by (specialize (Hd 0%nat env eq_refl); by rewrite Nat.add_0_r in Hd).
  pose proof (attemptConnection_keeps attempt env r Hd0 Hk) as Hk1. set (r1 := attemptConnection attempt env r) in *.
  assert (keeps maxRetries r1) as Hk1'.
  { destruct Hk1 as [Hc Ht]. pose proof (backoffs_mono (S attempt) maxRetries ltac:(lia)). split; lia. }
  destruct (run_result r1) as [[|msg]|] eqn:Hr1.
  - split_and!; [done|intros; rewrite Hr1; by eexists|by rewrite Hr1].
  - destruct (isNonRecoverableError msg).
    + split_and!; [by destruct Hk1'|by eexists|done].
    + destruct (IH (S attempt) envs {| r1 with run_result := None |}) as (HK & HC & HF); [lia|by destruct Hk1|..|done|].
      { intros i env' Hi. specialize (Hd (S i) env' Hi). by replace (S attempt + i)%nat with (attempt + S i)%nat by lia. }
      split_and!; [done| |done]. intros Hl [_ Hcl]%Forall_cons. apply HC; [lia|done].
  - split_and!; [done| |by rewrite Hr1]. intros _ [Hcl _]%Forall_cons. destruct (attemptConnection_closes attempt env r Hcl) as [err E]. fold r1 in E. congruence.
Qed.

(** C31: the client opens at most ten connections and waits for at most 303.75 seconds between
    them, whatever it is answered; when none stays open it gives up, with the state
    [failed] unless it was cancelled. *)
Theorem tunnel_gives_up c envs : (∀ i env, envs !! i = Some env → drawn i env) →
  let r := EstablishTunnel c envs in
  (run_connections r ≤ maxRetries)%nat ∧ 100 * total (run_delays r) ≤ 30375 * second ∧
  (maxRetries ≤ length envs → Forall closes envs → is_Some (run_result r))%nat ∧
  (∀ msg, run_result r = Some (TunnelErr msg) → tc_state (run_client r) = StateFailed).
Proof.
  intros Hd. cbv zeta. unfold EstablishTunnel.
  destruct (attempts_end maxRetries 0 envs (startRun c)) as ([Hc Ht] & HC & HF);
    [done|split; simpl; [lia|]; reflexivity|done|done|].
  rewrite backoffs_all in Ht. split_and!; [done|lia|done|done].
Qed.

(** The witness has a refused connection at each attempt, without jitter. *)
Definition refused : Attempt := {| at_cancelled := false; at_cancelledInDelay := false; at_jitter := 0; at_spread := 0; at_answer := AnswerError (TunnelErr "connection refused"); at_lasts := 0 |}.
Definition exampleClient : Client :=
  {| tc_baseURL := "https://tunnel.example.com"; tc_auth := {| au_Token := "t0ken"; au_TokenExpiry := 0 |}; tc_tunnelName := "web"; tc_hostname := "web.example.com";
     tc_tenantName := "tenant-a"; tc_targetPort := "8080"; tc_state := StateDisconnected; tc_lastPing := 0; tc_reconnectCount := 0; tc_needsReconnect := false |}.
Lemma refused_drawn n i env : replicate n refused !! i = Some env → drawn i env.
Proof.
  intros [-> _]%lookup_replicate. split_and!; simpl; [lia| |lia|lia]. destruct i as [|i]; [done|]. pose proof (backoff_nonneg (S i) ltac:(lia)) as [Hb _]. assert (0 < second) by done. lia.
Qed.
Lemma refused_closes n : Forall closes (replicate n refused).
Proof. by apply Forall_replicate. Qed.

Lemma tunnel_gives_up_witness :
  (∀ i env, replicate 10 refused !! i = Some env → drawn i env) ∧
  run_connections (EstablishTunnel exampleClient (replicate 10 refused)) = 10%nat ∧
  is_Some (run_result (EstablishTunnel exampleClient (replicate 10 refused))).
Proof.
  split; [apply refused_drawn|]. split; [vm_compute; reflexivity|].
  apply (tunnel_gives_up exampleClient (replicate 10 refused) (refused_drawn 10)); [vm_compute; repeat constructor|apply refused_closes].
Defined.

(** ** The time of a run *)

(** What the randomness of an attempt and the time it takes may be *)
Definition timed (attempt : nat) (env : Attempt) : Prop := drawn attempt env ∧ 0 ≤ at_lasts env.
(** How long the connections of attempts may last together *)
Definition lasting (envs : list Attempt) : Z := total (at_lasts <$> envs).
Lemma lasting_cons env envs : lasting (env :: envs) = at_lasts env + lasting envs.
Proof. done. Qed.

Lemma attemptConnection_elapsed attempt env r : timed attempt env →
  let r' := attemptConnection attempt env r in
  run_elapsed r ≤ run_elapsed r' ∧ run_elapsed r' - total (run_delays r') ≤ run_elapsed r - total (run_delays r) + at_lasts env.
Proof.
  intros [Hd Hl]. unfold attemptConnection. cbv zeta. destruct (at_cancelled env); [simpl; lia|]. destruct (_ && _); [simpl; lia|].
  destruct (establishSingleConnection _ _) as [[c requests] err]. cbn [run_elapsed run_delays]. rewrite total_app.
  destruct (Nat.eqb_spec attempt 0) as [|Hne]; [unfold total; simpl; lia|]. cbn [total foldr].
  pose proof (jittered_bounds attempt env Hd). pose proof (backoff_nonneg attempt ltac:(lia)) as [Hb _]. assert (0 < second) by done. lia.
Qed.

Lemma lasting_nonneg attempt envs : (∀ i env, envs !! i = Some env → timed (attempt + i) env) → 0 ≤ lasting envs.
Proof.
  revert attempt. induction envs as [|env envs IH]; intros attempt Ht; [done|]. rewrite lasting_cons.
  destruct (Ht 0%nat env eq_refl) as [_ Hl]. assert (0 ≤ lasting envs); [|lia]. apply (IH (S attempt)).
  intros i env' Hi. specialize (Ht (S i) env' Hi). by replace (S attempt + i)%nat with (attempt + S i)%nat by lia.
Qed.

Lemma attempts_elapsed n attempt envs r : (∀ i env, envs !! i = Some env → timed (attempt + i) env) →
  let r' := attempts n attempt envs r in
  run_elapsed r ≤ run_elapsed r' ∧ run_elapsed r' - total (run_delays r') ≤ run_elapsed r - total (run_delays r) + lasting envs.
Proof.
  revert attempt envs r. induction n as [|n IH]; intros attempt envs r Ht; cbv zeta; pose proof (lasting_nonneg attempt envs Ht) as Hnn; [simpl; lia|].
  destruct envs as [|env envs]; [simpl; lia|]. cbn [attempts]. rewrite lasting_cons in *.
  assert (timed attempt env) as H0 by (specialize (Ht 0%nat env eq_refl); by rewrite Nat.add_0_r in Ht).
  assert (∀ i env', envs !! i = Some env' → timed (S attempt + i) env') as Ht'.
  { intros i env' Hi. specialize (Ht (S i) env' Hi). by replace (S attempt + i)%nat with (attempt + S i)%nat by lia. }
  pose proof (attemptConnection_elapsed attempt env r H0) as [H1 H2]. pose proof (lasting_nonneg _ _ Ht') as Hnn'.
  set (r1 := attemptConnection attempt env r) in *. clearbody r1. destruct (run_result r1) as [[|msg]|]; [lia| |lia].
  destruct (isNonRecoverableError msg); [simpl; lia|]. specialize (IH (S attempt) envs {| r1 with run_result := None |} Ht'). simpl in IH. lia.
Qed.

(** In whole seconds: the delays, and the connections *)
Definition connectionTime (envs : list Attempt) : Z := 304 + lasting envs `div` second.
Lemma EstablishTunnel_elapsed c envs : (∀ i env, envs !! i = Some env → timed i env) →
  0 ≤ run_elapsed (EstablishTunnel c envs) `div` second ≤ connectionTime envs.
Proof.
  intros Ht. unfold EstablishTunnel.
  destruct (attempts_end maxRetries 0 envs (startRun c)) as ([_ Htot] & _); [done|split; simpl; [lia|]; reflexivity|by intros i env [? _]%Ht|done|].
  pose proof (attempts_elapsed maxRetries 0 envs (startRun c) Ht) as [H1 H2]. cbv zeta in Htot, H1, H2.
  generalize dependent (attempts maxRetries 0 envs (startRun c)). intros r Htot H1 H2. rewrite backoffs_all in Htot.
  change (run_elapsed (startRun c)) with 0 in H1, H2. change (total (run_delays (startRun c))) with 0 in H2.
  assert (0 < second) as Hs by done. unfold connectionTime. split; [by apply Z.div_pos|].
  rewrite <- Z.div_add_l by lia. apply Z.div_le_mono; lia.
Qed.

Lemma attempts_opened n attempt envs r : ∃ later, run_opened (attempts n attempt envs r) = run_opened r ++ later.
Proof.
  revert attempt envs r. induction n as [|n IH]; intros attempt envs r; [exists []; by rewrite app_nil_r|].
  destruct envs as [|env envs]; [exists []; by rewrite app_nil_r|]. cbn [attempts].
  assert (∃ later, run_opened (attemptConnection attempt env r) = run_opened r ++ later) as [later H].
  { unfold attemptConnection. cbv zeta. destruct (at_cancelled env); [exists []; by rewrite app_nil_r|]. destruct (_ && _); [exists []; by rewrite app_nil_r|].
    destruct (establishSingleConnection _ _) as [[c requests] err]. by eexists. }
  destruct (run_result _) as [[|msg]|]; [by eexists| |by eexists]. destruct (isNonRecoverableError msg); [by eexists|].
  destruct (IH (S attempt) envs {| (attemptConnection attempt env r) with run_result := None |}) as [later' ->]. simpl. rewrite H, <- app_assoc. by eexists.
Qed.
(** The first connection is opened at once. *)
Lemma attempts_first n c envs t : head (run_opened (attempts (S n) 0 envs (startRun c))) = Some t → t = 0.
Proof.
  destruct envs as [|env envs]; [done|]. cbn [attempts]. unfold attemptConnection. cbn [Nat.eqb negb andb]. cbv zeta.
  destruct (at_cancelled env); [done|]. destruct (establishSingleConnection _ _) as [[c' requests] err]. cbn [run_result].
  destruct err as [[|msg]|]; [by intros [= <-]| |by intros [= <-]]. destruct (isNonRecoverableError msg); [by intros [= <-]|].
  match goal with |- context [attempts n 1 envs ?r] => destruct (attempts_opened n 1 envs r) as [later ->] end. by intros [= <-].
Qed.
Lemma EstablishTunnel_first c envs t : head (run_opened (EstablishTunnel c envs)) = Some t → t = 0.
Proof. apply attempts_first. Qed.

(** ** A request goes to the local service first *)

(** The authority of a URL with the scheme [http]: what is before the path, the query and
    the fragment *)
Fixpoint str_until (stop : ascii -> bool) (s : string) : string :=
  match s with
  | EmptyString => EmptyString
  | String a s => if stop a then EmptyString else String a (str_until stop s)
  end.
Definition endsAuthority (a : ascii) : bool := Ascii.eqb a "/" || Ascii.eqb a "?" || Ascii.eqb a "#".
Definition authority (url : string) : string := str_until endsAuthority (TrimPrefix url "http://").

Lemma str_until_app stop s t : str_forall (λ a, negb (stop a)) s = true → str_until stop (s ⊕ t) = s ⊕ str_until stop t.
Proof.
  induction s as [|a s IH]; [done|]. rewrite str_app_cons. cbn [str_forall str_until]. intros [Ha Hs]%andb_true_iff.
  apply negb_true_iff in Ha as ->. rewrite IH by done. by rewrite str_app_cons.
Qed.
Lemma authority_localURL c port path : tc_targetPort c = Itoa port → 0 ≤ port → HasPrefix path "/" = true →
  authority (localURL c path) = "localhost:" ⊕ Itoa port.
Proof.
  intros Hc Hp Hpath. unfold authority, localURL. rewrite Hc. apply HasPrefix_inv in Hpath as [rest ->].
  change ("http://localhost:" ⊕ Itoa port ⊕ "/" ⊕ rest) with ("http://" ⊕ ("localhost:" ⊕ (Itoa port ⊕ ("/" ⊕ rest)))).
  rewrite TrimPrefix_app, <- str_app_assoc, str_until_app.
  - by rewrite str_app_nil_r.
  - rewrite str_forall_app. apply andb_true_iff. split; [done|]. apply (str_forall_impl is_digit); [|by apply Itoa_digits].
    intros a Ha. unfold endsAuthority. byte_cases a; by vm_compute in Ha |- *.
Qed.

Section forwarding.
Context (refusesRequest : string -> string -> option string) (canonical : string -> string) (rangeHeaders : StrMap -> list (string * string)).
Context (corruptInput : string -> string).
Context (transport : list LocalRequest -> LocalRequest -> result LocalResponse) (resolve : string -> string -> result string).
Context (redirectHeaders : LocalRequest -> string -> StrMap) (urlError : list LocalRequest -> string -> string).
#[local] Abbreviation redirected := (redirected resolve redirectHeaders).
#[local] Abbreviation Do := (Do transport resolve redirectHeaders urlError).
#[local] Abbreviation forward := (forwardToLocalService refusesRequest canonical rangeHeaders corruptInput transport resolve redirectHeaders urlError).

(** Answers that belong to a request and can be decoded *)
Definition answered (id : string) (resp : HTTPResponse) : Prop := hp_RequestID resp = id ∧ is_Some (DecodeString (hp_Body resp)).
Lemma answered_Base64 id resp b : hp_RequestID resp = id → hp_Body resp = Base64 b → answered id resp.
Proof. intros Hi Hb. split; [done|]. rewrite Hb, DecodeString_Base64. by eexists. Qed.
Lemma answered_sendError id msg : answered id (sendError id msg).
Proof. by apply (answered_Base64 _ _ msg). Qed.

(** Each request but the first is where the answer to the one before sends the client. *)
Definition followed (requests : list LocalRequest) : Prop :=
  ∀ i l', requests !! S i = Some l' →
    ∃ l answer, requests !! i = Some l ∧ transport (take i requests) l = Ok answer ∧ redirected l answer = Some (Ok l').

Lemma followed_snoc earlier req answer next : followed (earlier ++ [req]) → transport earlier req = Ok answer → redirected req answer = Some (Ok next) →
  followed ((earlier ++ [req]) ++ [next]).
Proof.
  intros Hf Ht Hr i l' [Hl|[Hi ->]]%lookup_snoc_Some.
  - destruct Hl as [Hi Hl]. destruct (Hf i l' Hl) as (l & a & H1 & H2 & H3). exists l, a.
    rewrite (lookup_app_l_Some _ _ _ _ H1), take_app_le by lia. by split_and!.
  - rewrite length_app in Hi. simpl in Hi. assert (i = length earlier) as -> by lia. exists req, answer.
    rewrite <- app_assoc, lookup_app_r, Nat.sub_diag, take_app_length by lia. by split_and!.
Qed.

(** What [Do] sends, and when the last answer is the one it returns *)
Lemma Do_follows hops earlier req requests res : followed (earlier ++ [req]) → Do hops earlier req = (requests, res) →
  followed requests ∧ (∃ rest, requests = earlier ++ req :: rest ∧ (length rest ≤ hops)%nat) ∧
  (∃ before l, requests = before ++ [l] ∧ ∀ answer, transport before l = Ok answer → redirected l answer = None → res = Ok answer).
Proof.
  revert earlier req. induction hops as [|hops IH]; intros earlier req Hf H; cbn [TunnelClient.Do] in H.
  all: destruct (transport earlier req) as [answer|msg] eqn:Ht;
    [|simplify_eq; split_and!; [done|exists []; split; [done|simpl; lia]|exists earlier, req; split; [done|congruence]]].
  all: destruct (redirected req answer) as [[next|msg]|] eqn:Hr;
    [|simplify_eq; split_and!; [done|exists []; split; [done|simpl; lia]|exists earlier, req; split; [done|congruence]]
     |simplify_eq; split_and!; [done|exists []; split; [done|simpl; lia]|exists earlier, req; split; [done|congruence]]].
  - simplify_eq. split_and!; [done|exists []; split; [done|simpl; lia]|exists earlier, req; split; [done|congruence]].
  - apply IH in H as (H1 & (rest & -> & Hlen) & H3); [|by eapply followed_snoc]. split_and!; [done| |done].
    exists (next :: rest). rewrite <- app_assoc. split; [done|simpl; lia].
Qed.

(** The first request of a call *)
Lemma forward_first c port req l : tc_targetPort c = Itoa port → 0 ≤ port → head (forward c req).1 = Some l →
  authority (lq_URL l) = "localhost:" ⊕ Itoa port ∧ DecodeString (hq_Body req) = Some (lq_Body l).
Proof.
  intros Hc Hp. unfold forwardToLocalService. cbv zeta. destruct (DecodeString (hq_Body req)) as [body|]; [|done].
  destruct (_ || _) eqn:Hpath; [done|]. apply orb_false_iff in Hpath as [Habs _]. apply negb_false_iff in Habs.
  destruct (refusesRequest _ _); [done|]. destruct (Do _ _ _) as [requests answer] eqn:Hdo.
  apply Do_follows in Hdo as (_ & (rest & -> & _) & _); [|by intros []]. intros [= <-]. split; [by apply authority_localURL|done].
Qed.

(** C29: whatever the connection manager asks for, the client first asks the service at its
    port of localhost, with the body that was sent, and every further request, of ten in all,
    is where the answer to the one before redirects it; without a request the answer is an
    error. The answer has the identifier of the request, and a body that can be decoded. *)
Theorem forward_asks_local_service c port req : tc_targetPort c = Itoa port → 0 ≤ port →
  let '(requests, resp) := forward c req in
  (∀ l, head requests = Some l → authority (lq_URL l) = "localhost:" ⊕ Itoa port ∧ DecodeString (hq_Body req) = Some (lq_Body l)) ∧
  followed requests ∧ (length requests ≤ 10)%nat ∧
  (requests = [] → hp_StatusCode resp = 500) ∧
  answered (hq_RequestID req) resp.
Proof.
  intros Hc Hp. pose proof (forward_first c port req) as Hfirst. destruct (forward c req) as [requests resp] eqn:Hforward.
  split; [intros l Hl; by apply Hfirst|]. clear Hfirst. revert Hforward. unfold forwardToLocalService. cbv zeta.
  assert (∀ msg, followed [] ∧ (0 ≤ 10)%nat ∧ (@nil LocalRequest = [] → hp_StatusCode (sendError (hq_RequestID req) msg) = 500) ∧
    answered (hq_RequestID req) (sendError (hq_RequestID req) msg)) as Hrefused by (intros; split_and!; [done|lia|done|apply answered_sendError]).
  destruct (DecodeString (hq_Body req)) as [body|]; [|intros [= <- <-]; apply Hrefused].
  destruct (_ || _); [intros [= <- <-]; apply Hrefused|]. destruct (refusesRequest _ _); [intros [= <- <-]; apply Hrefused|].
  destruct (Do _ _ _) as [sent answer] eqn:Hdo. apply Do_follows in Hdo as (Hf & (rest & -> & Hlen) & _); [|by intros []].
  intros [= <- <-]. split_and!; [done|unfold defaultHops in Hlen; simpl; lia|done|].
  destruct answer as [answer|msg]; [|apply answered_sendError]. destruct (lp_Body answer) as [b|msg]; [|apply answered_sendError].
  by apply (answered_Base64 _ _ b).
Qed.

(** The headers of the service that are handed on *)
Lemma forwardedHeaders_lookup header key :
  forwardedHeaders header !! key =
  (if bool_decide (key ∈ hopByHopHeaders) then None else values ← header !! key; if bool_decide (values = []) then None else Some (Join values ", ")).
Proof.
  unfold forwardedHeaders. rewrite lookup_omap. case_bool_decide as Hk.
  - rewrite map_lookup_filter_None_2; [done|]. right. by intros x _ [].
  - destruct (header !! key) as [values|] eqn:Hv.
    + by rewrite (map_lookup_filter_Some_2 _ _ _ _ Hv).
    + rewrite map_lookup_filter_None_2 by (by left). done.
Qed.

(** when the last request is answered without a redirect, that answer reaches the connection
    manager: the status, the body, which decodes to the one of the service, and each header
    that is not between two hops, with its values joined. *)
Theorem forward_returns_answer c req before l answer body : (forward c req).1 = before ++ [l] → transport before l = Ok answer → redirected l answer = None →
  lp_Body answer = Ok body →
  let resp := (forward c req).2 in
  hp_StatusCode resp = lp_StatusCode answer ∧ DecodeString (hp_Body resp) = Some body ∧
  (∀ key, hp_Headers resp !! key =
     (if bool_decide (key ∈ hopByHopHeaders) then None else values ← lp_Header answer !! key; if bool_decide (values = []) then None else Some (Join values ", "))).
Proof.
  assert (∀ before : list LocalRequest, before ++ [l] ≠ []) as Hne by (by intros []). specialize (Hne before).
  unfold forwardToLocalService. cbv zeta. destruct (DecodeString (hq_Body req)) as [b|]; [|simpl; congruence].
  destruct (_ || _); [simpl; congruence|]. destruct (refusesRequest _ _); [simpl; congruence|].
  destruct (Do _ _ _) as [requests res] eqn:Hdo. apply Do_follows in Hdo as (_ & _ & before' & l' & -> & Hres); [|by intros []].
  cbn [fst snd]. intros [-> ->]%app_inj_tail Ht Hr Hb. rewrite (Hres _ Ht Hr), Hb. simpl. split_and!; [done|apply DecodeString_Base64|apply forwardedHeaders_lookup].
Qed.
End forwarding.

Definition exampleRequest : HTTPRequest := {| hq_RequestID := "r1"; hq_Method := "POST"; hq_Path := "/api"; hq_Headers := {[ "X-A" := "1" ]}; hq_Body := "aGk=" |}.
Definition exampleAnswer : LocalResponse :=
  {| lp_StatusCode := 201; lp_Header := {[ "Connection" := ["close"]; "X-B" := ["1"; "2"] ]}; lp_Body := Ok "done" |}.
(** A service at the port that knows one page that has moved within it, and one that has moved
    to the metadata service of a cloud; the latter answers. *)
Definition movedTo (location : string) : LocalResponse := {| lp_StatusCode := 307; lp_Header := {[ "Location" := [location] ]}; lp_Body := Ok "" |}.
Definition exampleService (earlier : list LocalRequest) (req : LocalRequest) : result LocalResponse :=
  if bool_decide (lq_URL req = "http://localhost:8080/old") then Ok (movedTo "/api")
  else if bool_decide (lq_URL req = "http://localhost:8080/away") then Ok (movedTo "http://169.254.169.254/latest/meta-data/")
  else Ok exampleAnswer.
Definition exampleResolve (base location : string) : result string := Ok (if HasPrefix location "/" then "http://" ⊕ authority base ⊕ location else location).
#[local] Abbreviation forwarding service := (forwardToLocalService (λ _ _, None) (λ s, s) map_to_list (λ _, "illegal base64 data") service exampleResolve (λ req _, lq_Headers req) (λ _ msg, msg)).
Definition exampleForward (req : HTTPRequest) : list LocalRequest * HTTPResponse := forwarding exampleService exampleClient req.
Definition movedRequest : HTTPRequest := {| exampleRequest with hq_Path := "/old" |}.

Lemma forward_asks_local_service_witness :
  tc_targetPort exampleClient = Itoa 8080 ∧ lq_URL <$> (exampleForward movedRequest).1 = ["http://localhost:8080/old"; "http://localhost:8080/api"] ∧
  hp_StatusCode (exampleForward movedRequest).2 = 201 ∧
  (let '(requests, resp) := exampleForward movedRequest in
   (∀ l, head requests = Some l → authority (lq_URL l) = "localhost:" ⊕ Itoa 8080 ∧ DecodeString (hq_Body movedRequest) = Some (lq_Body l)) ∧
   followed exampleService exampleResolve (λ req _, lq_Headers req) requests ∧ (length requests ≤ 10)%nat ∧
   (requests = [] → hp_StatusCode resp = 500) ∧ answered (hq_RequestID movedRequest) resp).
Proof.
  split; [reflexivity|]. split; [vm_compute; reflexivity|]. split; [vm_compute; reflexivity|].
  apply (forward_asks_local_service (λ _ _, None) (λ s, s) map_to_list (λ _, "illegal base64 data") exampleService exampleResolve (λ req _, lq_Headers req) (λ _ msg, msg)
    exampleClient 8080); [reflexivity|lia].
Defined.

Definition exampleLocal (path : string) : LocalRequest :=
  {| lq_Method := "POST"; lq_URL := "http://localhost:8080" ⊕ path; lq_Headers := {[ "X-A" := "1" ]}; lq_Body := "hi" |}.
Lemma forward_returns_answer_witness :
  (exampleForward movedRequest).1 = [exampleLocal "/old"; exampleLocal "/api"] ∧
  DecodeString (hp_Body (exampleForward movedRequest).2) = Some "done".
Proof.
  assert ((exampleForward movedRequest).1 = [exampleLocal "/old"] ++ [exampleLocal "/api"]) as H by (vm_compute; reflexivity).
  split; [exact H|].
  apply (forward_returns_answer (λ _ _, None) (λ s, s) map_to_list (λ _, "illegal base64 data") exampleService exampleResolve (λ req _, lq_Headers req) (λ _ msg, msg)
    exampleClient movedRequest [exampleLocal "/old"] (exampleLocal "/api") exampleAnswer "done" H); reflexivity.
Defined.

(** The request of another host is refused. *)
Example other_host_refused :
  exampleForward {| exampleRequest with hq_Path := "//evil.example.com/" |} = ([], sendError "r1" "Invalid request path") ∧
  exampleForward {| exampleRequest with hq_Path := "@evil.example.com/" |} = ([], sendError "r1" "Invalid request path").
Proof. split; vm_compute; reflexivity. Qed.

(** But a redirect of the local service to another host is followed, with the method and the
    body: what answers there goes back through the tunnel. *)
Example redirect_leaves_localhost :
  let '(requests, resp) := exampleForward {| exampleRequest with hq_Path := "/away" |} in
  (λ l, (lq_Method l, lq_URL l, lq_Body l)) <$> requests =
    [("POST", "http://localhost:8080/away", "hi"); ("POST", "http://169.254.169.254/latest/meta-data/", "hi")] ∧
  hp_StatusCode resp = 201 ∧ DecodeString (hp_Body resp) = Some "done".
Proof. vm_compute. split_and!; reflexivity. Qed.

(** A service that redirects to itself is asked ten times. *)
Example redirects_end :
  let '(requests, resp) := forwarding (λ _ _, Ok (movedTo "/api")) exampleClient exampleRequest in
  length requests = 10%nat ∧ resp = sendError "r1" "Request failed: stopped after 10 redirects".
Proof. vm_compute. split; reflexivity. Qed.

(** ** What modelling the connection showed *)

(** The health check finds the connection dead, and the connection goes on. *)
Example dead_connection_goes_on :
  let '(r, err) := handleSSEEvents (readerOf exampleClient) [(100, InLine "event: ping"); (100, InLine "data: keepalive-1"); (200, InHealthTick); (1000, InPosted404); (1030, InHealthTick)] in
  rd_monitored r = false ∧ err = None ∧ tc_needsReconnect (rd_client r) = true.
Proof. vm_compute. split_and!; reflexivity. Qed.

(** Ten connections that worked and were closed by the connection manager use up the
    attempts: a successful connection does not start the count again. *)
Definition worked : Attempt :=
  {| at_cancelled := false; at_cancelledInDelay := false; at_jitter := 0; at_spread := 0;
     at_answer := AnswerStream [(1, InLine "event: request"); (1, InLine "data: {}"); (2, InPostedOK); (3, InEOF)]; at_lasts := 3 * second |}.
Example successes_use_up_attempts :
  let r := EstablishTunnel exampleClient (replicate 11 worked) in
  run_result r = Some (TunnelErr "failed to establish tunnel after 10 attempts") ∧ length (run_requests r) = 10%nat.
Proof. vm_compute. split; reflexivity. Qed.

(** No answer of the connection manager is kept from the user. *)
Lemma send_errors_shown needsReconnect code err :
  (responseSent needsReconnect (PostStatus code "")).2 = Some err → code = 404 → sendErrorShown err = true.
Proof. intros H ->. cbn in H. injection H as <-. vm_compute. reflexivity. Qed.

(** A tab in the token is refused, though the comment lists it. *)
Example tab_refused : isValidHTTPHeaderValue (String (ascii_of_nat 9) "token") = false.
Proof. reflexivity. Qed.

(** Errors that name a port or an address with the digits of a status stop the reconnections. *)
Example port_is_taken_for_status : isNonRecoverableError "failed to connect to tunnel server: dial tcp 10.0.0.1:4030: connect: connection refused" = true.
Proof. vm_compute. reflexivity. Qed.
Example server_error_is_final :
  run_connections (EstablishTunnel exampleClient (replicate 10 {| refused with at_answer := AnswerError (TunnelErr "dial tcp 10.0.0.1:4030: connect: connection refused") |})) = 1%nat.
Proof. vm_compute. reflexivity. Qed.

(** An event without a data line takes the next event with it. *)
Example event_without_data :
  rd_requests (handleSSEEvents (readerOf exampleClient) [(1, InLine "event: pong"); (1, InLine "event: request"); (1, InLine "data: {}")]).1 = [].
Proof. vm_compute. reflexivity. Qed.

(** A request of 64 KiB or more breaks the connection. *)
Lemma long_request_breaks_connection now data r : rd_event r = Some "request" → MaxScanTokenSize ≤ Z.of_nat (String.length data) →
  readInput r (now, InLine ("data: " ⊕ data)) = inr (readError "bufio.Scanner: token too long").
Proof.
  intros _ Hl. cbn [readInput]. assert (MaxScanTokenSize <=? Z.of_nat (String.length ("data: " ⊕ data)) = true) as ->; [|done].
  apply Z.leb_le. etrans; [exact Hl|]. generalize data. intros d. change (String.length ("data: " ⊕ d)) with (6 + String.length d)%nat. lia.
Qed.
