(* ===== verification/CLITunnel.v ===== *)
(** * Tunnels from the command line

    [cli/internal/tunnel] without the connection itself and the commands of
    [cli/cmd/tunnel.go]: creating a Tunnel and waiting until it is ready, connecting with
    the token of the SyncSecret that belongs to it, the menu after Ctrl+C, deleting, listing.

    The environment, the reading and printing of times, the YAML and JSON of an object, the
    age of an object, what is typed and [sort.Slice] are parameters. Times are in seconds.
    What a failed wait has printed is not part of its result. *)

From Stdlib Require Import Ascii.
From S2P Require Import Prelude GoStrings GoBase64 Api Names Kube ConvAnnotations Manager IngressToGateway CLIIngress CLIPass CLIClient TunnelClient.
Local Open Scope go_scope.

Definition ErrTunnelNotAvailable : string :=
  "tunneling is not available in Community Edition. Please upgrade to Enterprise Edition to use tunnel features. For more details contact sales@kubermatic.com".

Definition TunnelPhasePending : string := "Pending".
Definition TunnelPhaseReady : string := "Ready".
Definition TunnelPhaseFailed : string := "Failed".
Definition TunnelPhaseTerminating : string := "Terminating".

Record CreateOptions := {
  opts_Name : string;
  opts_Port : Z;
  opts_Hostname : string;
  opts_Wait : bool;
  opts_Connect : bool;
  opts_Output : string;
}.

(** ** [types.go], [mapper.go] *)

Definition adjectives : list string := ["quick"; "brave"; "clever"; "bright"; "swift"; "gentle"; "happy"; "calm"; "bold"; "smart"].
Definition nouns : list string := ["tunnel"; "bridge"; "portal"; "gateway"; "passage"; "conduit"; "channel"; "link"; "path"; "route"].
(** The three numbers are drawn. *)
Definition GenerateTunnelName (i j : nat) (number : Z) : string := nth i adjectives "" ⊕ "-" ⊕ nth j nouns "" ⊕ "-" ⊕ Itoa number.

Definition FormatTunnelStatus (phase : string) : string :=
  if bool_decide (phase = TunnelPhaseReady) then "✓ Ready"
  else if bool_decide (phase = TunnelPhasePending) then "⏳ Pending"
  else if bool_decide (phase = TunnelPhaseFailed) then "✗ Failed"
  else if bool_decide (phase = TunnelPhaseTerminating) then "🗑 Terminating"
  else phase.

Definition TruncateString (s : string) (maxLength : nat) : string :=
  if (String.length s <=? maxLength)%nat then s
  else if (maxLength <=? 3)%nat then str_take maxLength s
  else str_take (maxLength - 3) s ⊕ "...".

Definition FormatConditions (conditions : list Condition) : string :=
  match conditions with
  | [] => "No conditions"
  | _ =>
      let part condition :=
        let status := if bool_decide (cond_Status condition = "True") then "✓" else if bool_decide (cond_Status condition = "False") then "✗" else "Unknown" in
        status ⊕ " " ⊕ cond_Type condition in
      Join (part <$> conditions) ", "
  end.

(** [formatAge] of a duration in nanoseconds *)
Definition formatAge (duration : Z) : string :=
  let minute := (60 * second)%Z in
  let hour := (60 * minute)%Z in
  if (duration <? minute)%Z then Itoa (Z.quot duration second) ⊕ "s"
  else if (duration <? hour)%Z then Itoa (Z.quot duration minute) ⊕ "m"
  else if (duration <? 24 * hour)%Z then Itoa (Z.quot duration hour) ⊕ "h"
  else Itoa (Z.quot duration (24 * hour)) ⊕ "d".

(** ** The token *)

(** A key that is not in the data has no bytes. *)
Definition decodeBase64Field (data fieldName : string) : result string :=
  if bool_decide (data = "") then Err ("no " ⊕ fieldName ⊕ " found in sync secret")
  else
    let rawData := TrimSpace data in
    if bool_decide (rawData = "") then Err (fieldName ⊕ " is empty")
    else
      match DecodeString rawData with
      | Some decoded => let result := TrimSpace decoded in if bool_decide (result = "") then Ok rawData else Ok result
      | None => Ok rawData
      end.

Definition dataOf (secret : SyncSecret) (key : string) : string := get (syn_Data secret) key.

(** ** [output] *)

Definition FormatConnectionInfo (Getenv : string -> string) (url localPort : string) : string := "   🌐 " ⊕ FormatURL Getenv url ⊕ " → localhost:" ⊕ localPort.
Definition FormatPublicURL (Getenv : string -> string) (url : string) : string := "   🌐 Public URL: " ⊕ FormatURL Getenv url.

(** ** The progress of a wait *)

Record Shown := { sh_Status : string; sh_Hostname : string; sh_URL : string; sh_Conditions : gset string }.
Definition nothingShown : Shown := {| sh_Status := ""; sh_Hostname := ""; sh_URL := ""; sh_Conditions := ∅ |}.

Definition conditionLine (type : string) : option string :=
  if bool_decide (type = "DNSReady") then Some "✓ DNS ready"
  else if bool_decide (type = "TLSReady") then Some "✓ TLS ready"
  else if bool_decide (type = "EndpointReady") then Some "✓ Endpoint ready"
  else None.

Definition showConditionsProgress (conditions : list Condition) (shownConditions : gset string) : list string * gset string :=
  foldl (λ acc condition,
    let '(lines, shown) := acc in
    if bool_decide (cond_Status condition = "True") && negb (bool_decide (cond_Type condition ∈ shown)) then
      match conditionLine (cond_Type condition) with
      | Some line => (lines ++ [line], {[cond_Type condition]} ∪ shown)
      | None => (lines, shown)
      end
    else (lines, shown)) ([], shownConditions) conditions.

Definition showProgress (quiet : bool) (status : TunnelStatus) (shown : Shown) : list string * Shown :=
  let newHostname := negb (bool_decide (tus_Hostname status = "")) && negb (bool_decide (tus_Hostname status = sh_Hostname shown)) in
  let hostnameLines := if newHostname then ["✓ Hostname assigned: " ⊕ tus_Hostname status] else [] in
  let newURL := negb (bool_decide (tus_URL status = "")) && negb (bool_decide (tus_URL status = sh_URL shown)) in
  let urlLines := if newURL && negb quiet then ["✓ URL ready"] else [] in
  let currentStatus := tus_Phase status in
  let statusLines :=
    if bool_decide (currentStatus = sh_Status shown) then []
    else if bool_decide (currentStatus = TunnelPhasePending) then if quiet then [] else ["⏳ Tunnel provisioning..."]
    else if bool_decide (currentStatus = TunnelPhaseReady) then if quiet then [] else ["✓ Tunnel ready"]
    else if bool_decide (currentStatus = TunnelPhaseFailed) then ["✗ Tunnel failed"]
    else [] in
  let '(conditionLines, shownConditions) := if quiet then ([], sh_Conditions shown) else showConditionsProgress (tus_Conditions status) (sh_Conditions shown) in
  (hostnameLines ++ urlLines ++ statusLines ++ conditionLines,
   {| sh_Status := currentStatus; sh_Hostname := if newHostname then tus_Hostname status else sh_Hostname shown;
      sh_URL := if newURL then tus_URL status else sh_URL shown; sh_Conditions := shownConditions |}).

(** ** The commands *)

Section commands.
Context (Getenv : string -> string) (url_Parse : string -> result URL) (time_Parse : string -> result Z) (time_String : Z -> string).
Context (elapse : Z -> Cluster -> Cluster) (Marshal MarshalIndent : Object -> result string).
Context (creationTimestamp : Tunnel -> Z) (sortSlice : (Tunnel -> Tunnel -> bool) -> list Tunnel -> list Tunnel).

Definition tunnelKey (cfg : Config) (name : string) : NamespacedName := (cfg_TenantNamespace cfg, name).
Definition getTunnel (cfg : Config) (name : string) : M Cluster Tunnel := eeCall cfg "Tunnel" (Get Tunnel (tunnelKey cfg name)).
(** [Get] with the errors that several commands have in common *)
Definition fetchTunnel (cfg : Config) (name : string) : M Cluster Tunnel :=
  r ← try (getTunnel cfg name);
  match r with
  | inl tunnel => mret tunnel
  | inr err => if IsNotFound err then raise (Errorf ("tunnel " ⊕ Quote name ⊕ " not found")) else raise (Wrap "failed to get tunnel" err)
  end.
Definition enterpriseOnly {S A} (cfg : Config) (command : M S A) : M S A := if IsCE cfg then raise (Errorf ErrTunnelNotAvailable) else command.

(** *** [auth.go] *)

Definition LoadTunnelAuth (cfg : Config) (namespace tunnelName : string) : M Clocked Auth :=
  syncSecret ← inCluster (wrap "failed to read tunnel auth" (eeCall cfg "SyncSecret" (Get SyncSecret (namespace, "tunnel-auth-" ⊕ tunnelName))));
  let tokenData := dataOf syncSecret "token" in
  if bool_decide (tokenData = "") then raise (Errorf "no token found in sync secret")
  else
    let token := TrimSpace tokenData in
    if bool_decide (token = "") then raise (Errorf "token is empty")
    else
      match decodeBase64Field (dataOf syncSecret "tokenExpiry") "tokenExpiry" with
      | Err msg => raise (Errorf msg)
      | Ok expiryStr =>
          match time_Parse expiryStr with
          | Err msg => raise (Errorf ("failed to parse token expiry: " ⊕ msg))
          | Ok tokenExpiry =>
              now ← gets ck_now;
              if (tokenExpiry <? now)%Z then raise (Errorf ("token expired at " ⊕ time_String tokenExpiry))
              else mret {| au_Token := token; au_TokenExpiry := tokenExpiry |}
          end
      end.

(** *** [delete.go], [get.go], [list.go] *)

Definition tunnelFacts (tunnel : Tunnel) : list string :=
  let status := tun_Status tunnel in
  ["Tunnel: " ⊕ om_Name (tun_Meta tunnel)] ++
  (if bool_decide (tus_Hostname status = "") then [] else ["Hostname: " ⊕ tus_Hostname status]) ++
  (if bool_decide (tus_URL status = "") then [] else ["URL: " ⊕ tus_URL status]) ++
  ["Status: " ⊕ tus_Phase status] ++
  (if bool_decide (entries (om_Labels (tun_Meta tunnel)) !! "app.kubernetes.io/managed-by" = Some "kubelb-cli") then []
   else [""; "⚠️  Warning: This tunnel was not created by the kubelb CLI."; "   It may have been created manually or by another tool."]).

(** What was typed, an error when no line could be read; the lines that are printed *)
Definition DeleteWithOptions (cfg : Config) (name : string) (force verbose : bool) (response : result string) : M Cluster (list string) :=
  enterpriseOnly cfg
    (tunnel ← fetchTunnel cfg name;
     let facts := if verbose then tunnelFacts tunnel else [] in
     let delete := (_ ← wrap "failed to delete tunnel" (eeCall cfg "Tunnel" (Delete Tunnel (objKey tunnel))); mret (facts ++ ["✓ Tunnel " ⊕ name ⊕ " deleted successfully"])) in
     if force then delete
     else
       match response with
       | Err msg => raise (Errorf ("failed to read user input: " ⊕ msg))
       | Ok response => if bool_decide (TrimSpace (ToLower response) ∈ ["y"; "yes"]) then delete else mret (facts ++ ["Deletion cancelled."])
       end).
Definition DeleteTunnel (cfg : Config) (name : string) (force : bool) (response : result string) : M Cluster (list string) :=
  DeleteWithOptions cfg name force true response.

(** The references to generated resources are not part of the model of a Tunnel. *)
Definition GetTunnel (cfg : Config) (name : string) : M Cluster string :=
  enterpriseOnly cfg
    (tunnel ← fetchTunnel cfg name;
     match Marshal (OTunnel {| tunnel with tun_Meta := {| (tun_Meta tunnel) with om_Namespace := "" |} |}) with
     | Err msg => raise (Errorf ("failed to marshal tunnel to YAML: " ⊕ msg))
     | Ok data => mret data
     end).

Definition tunnelRow (now : Z) (tunnel : Tunnel) : list string :=
  let orElse s d := if bool_decide (s = "") then d else s in
  let status := tun_Status tunnel in
  [om_Name (tun_Meta tunnel); orElse (tus_Hostname status) "-"; orElse (tus_Phase status) "Pending"; orElse (tus_URL status) "-";
   formatAge ((now - creationTimestamp tunnel) * second)].

Definition ListTunnels (cfg : Config) : M Clocked (list (list string)) :=
  enterpriseOnly cfg
    (tunnels ← inCluster (wrap "failed to list tunnels" (eeCall cfg "TunnelList" (List Tunnel (Some (cfg_TenantNamespace cfg)) ∅)));
     now ← gets ck_now;
     mret (tunnelRow now <$> sortSlice (λ a b, (creationTimestamp b <? creationTimestamp a)%Z) tunnels)).

(** *** [connect.go] *)

(** [PromptChoice] with what is typed within the time, [None] for nothing or an error *)
Definition PromptChoice (enableUI : bool) (typed : option string) (defaultChoice : string) : string :=
  if negb enableUI then defaultChoice
  else match typed with
       | None => defaultChoice
       | Some typed => let input := TrimSpace (ToLower typed) in if bool_decide (input = "") then defaultChoice else input
       end.

(** Whether the connection is cancelled, and the error *)
Definition handleTunnelDisconnectionMenu (cfg : Config) (tunnel : Tunnel) (enableUI : bool) (typed : option string) : M Cluster (bool * option string) :=
  let choice := PromptChoice enableUI typed "c" in
  if bool_decide (choice ∈ ["d"; "delete"]) then
    r ← try (DeleteWithOptions cfg (om_Name (tun_Meta tunnel)) true false (Err ""));
    mret (true, Some match r with inl _ => "tunnel_deleted" | inr err => ErrorString err end)
  else if bool_decide (choice ∈ ["c"; "disconnect"]) then mret (true, Some "user_disconnect")
  else if bool_decide (choice ∈ ["a"; "cancel"]) then mret (false, None)
  else mret (true, Some "user_disconnect").

(** The signals of a connection, with what is typed at the menu of each: the goroutine reads
    one of them and ends. *)
Definition onSignals (cfg : Config) (tunnel : Tunnel) (enableUI : bool) (signals : list (option string)) : M Cluster bool :=
  match signals with
  | [] => mret false
  | typed :: _ => r ← handleTunnelDisconnectionMenu cfg tunnel enableUI typed; mret r.1
  end.

Definition validPort (port : Z) : bool := negb ((port <=? 0) || (65535 <? port))%Z.
Definition invalidPort (port : Z) : Error := Errorf ("invalid port: " ⊕ Itoa port ⊕ " (must be between 1 and 65535)").

(** [Close] after the requests in flight, or ten seconds *)
Definition Close (c : Client) : Client := {| c with tc_state := StateDisconnected |}.

(** What comes before the connection *)
Definition prepareConnection (cfg : Config) (tunnelName : string) (port : Z) : M Clocked Client :=
  enterpriseOnly cfg
    (if negb (validPort port) then raise (invalidPort port)
     else
       tunnel ← inCluster (fetchTunnel cfg tunnelName);
       let status := tun_Status tunnel in
       if negb (bool_decide (tus_Phase status = TunnelPhaseReady)) then raise (Errorf ("tunnel is not ready (status: " ⊕ tus_Phase status ⊕ ")"))
       else if bool_decide (tus_ConnectionManagerURL status = "") then raise (Errorf "tunnel connection manager URL not available")
       else
         auth ← wrap "failed to load tunnel auth" (LoadTunnelAuth cfg (cfg_TenantNamespace cfg) tunnelName);
         match NewClient url_Parse auth (tus_ConnectionManagerURL status) tunnelName (tus_Hostname status) (cfg_TenantNamespace cfg) (Itoa port) with
         | Err msg => raise (Errorf ("failed to create tunnel client: " ⊕ msg))
         | Ok client => mret client
         end).

(** The run of the connection, with its client closed; time passes while it lasts. *)
Definition Connect (cfg : Config) (tunnelName : string) (port : Z) (envs : list Attempt) : M Clocked Run :=
  client ← prepareConnection cfg tunnelName port;
  let run := EstablishTunnel client envs in
  _ ← sleep elapse (run_elapsed run `div` second);
  mret {| run with run_client := Close (run_client run) |}.

(** *** [create.go] *)

Fixpoint pollTunnel (cfg : Config) (name : string) (quiet : bool) (deadline : Z) (fuel : nat) (shown : Shown) (printed : list string) : M Clocked (list string) :=
  match fuel with
  | O => diverge
  | S fuel =>
      tunnel ← inCluster (getTunnel cfg name);
      let '(lines, shown) := showProgress quiet (tun_Status tunnel) shown in
      let printed := printed ++ lines in
      let phase := tus_Phase (tun_Status tunnel) in
      if bool_decide (phase = TunnelPhaseReady) then mret printed
      else if bool_decide (phase = TunnelPhaseFailed) then raise (Errorf "tunnel provisioning failed")
      else if bool_decide (phase = TunnelPhaseTerminating) then raise (Errorf "tunnel is being terminated")
      else
        _ ← sleep elapse 2;
        now ← gets ck_now;
        if (deadline <=? now)%Z then raise (Errorf "context deadline exceeded") else pollTunnel cfg name quiet deadline fuel shown printed
  end.
Definition readyTimeout : Z := 2 * 60.
Definition readyFuel : nat := 60.
Definition waitForTunnelReady (cfg : Config) (name : string) (quiet : bool) : M Clocked (list string) :=
  now ← gets ck_now;
  pollTunnel cfg name quiet (now + readyTimeout) readyFuel nothingShown [].

Definition displayTunnel (tunnel : Tunnel) (format : string) : result (list string) :=
  let status := tun_Status tunnel in
  let marshalled r := match r with Ok data => Ok [data] | Err msg => Err msg end in
  if bool_decide (format = "yaml") then marshalled (Marshal (OTunnel tunnel))
  else if bool_decide (format = "json") then marshalled (MarshalIndent (OTunnel tunnel))
  else
    Ok (["✓ Tunnel created: " ⊕ om_Name (tun_Meta tunnel)] ++
        (if negb (bool_decide (tus_URL status = "")) then [FormatPublicURL Getenv (tus_URL status)]
         else if negb (bool_decide (tus_Hostname status = "")) then ["Hostname: " ⊕ tus_Hostname status]
         else if bool_decide (entries (om_Annotations (tun_Meta tunnel)) !! "kubelb.k8c.io/request-wildcard-domain" = Some "true")
         then ["Hostname: Waiting for dynamic assignment (wildcard domain requested)"] else []) ++
        ["Status: " ⊕ tus_Phase status] ++
        (if bool_decide (tus_ConnectionManagerURL status = "") then []
         else ["Connection: Use 'kubelb tunnel connect " ⊕ om_Name (tun_Meta tunnel) ⊕ " --port <port>' to start"])).

Definition newTunnel (cfg : Config) (opts : CreateOptions) : Tunnel :=
  let annotations : StrMap := {[ "kubelb.k8c.io/cli-resource" := "true" ]} in
  let annotations := if bool_decide (opts_Hostname opts = "") then <["kubelb.k8c.io/request-wildcard-domain" := "true"]> annotations else annotations in
  {| tun_Meta := objectMeta (opts_Name opts) (cfg_TenantNamespace cfg) ""
       (Some {[ "app.kubernetes.io/managed-by" := "kubelb-cli"; "kubelb.k8c.io/created-by" := "cli" ]}) (Some annotations);
     tun_Hostname := opts_Hostname opts; tun_Status := emptyTunnelStatus |}.

(** The Tunnel that is there, or a new one *)
Definition ensureTunnel (cfg : Config) (opts : CreateOptions) : M Cluster Tunnel :=
  r ← try (getTunnel cfg (opts_Name opts));
  match r with
  | inl existingTunnel => mret existingTunnel
  | inr err =>
      if negb (IsNotFound err) then raise (Wrap "failed to check existing tunnel" err)
      else wrap "failed to create tunnel" (eeCall cfg "Tunnel" (Create (newTunnel cfg opts)))
  end.

(** What was printed of the wait and the Tunnel, and the run of the connection. The goroutine
    that connects as soon as the Tunnel is ready only reads before, so its calls are put
    behind the wait; [started] tells whether it has begun five seconds after the wait. *)
Definition CreateTunnel (cfg : Config) (opts : CreateOptions) (started : bool) (envs : list Attempt) : M Clocked (list string * option Run) :=
  enterpriseOnly cfg
    (if negb (validPort (opts_Port opts)) then raise (invalidPort (opts_Port opts))
     else
       _ ← inCluster (ensureTunnel cfg opts);
       let connect := Connect cfg (opts_Name opts) (opts_Port opts) envs in
       if opts_Connect opts && opts_Wait opts then
         printed ← wrap "tunnel creation failed" (waitForTunnelReady cfg (opts_Name opts) (opts_Connect opts));
         _ ← inCluster (wrap "failed to get tunnel status" (getTunnel cfg (opts_Name opts)));
         if started then run ← connect; mret (printed, Some run)
         else
           t ← inCluster (wrap "failed to get tunnel status" (getTunnel cfg (opts_Name opts)));
           if negb (bool_decide (tus_Phase (tun_Status t) = TunnelPhaseReady))
           then raise (Errorf ("tunnel is not ready for connection (status: " ⊕ tus_Phase (tun_Status t) ⊕ ")"))
           else run ← connect; mret (printed, Some run)
       else if opts_Wait opts then
         printed ← wrap "tunnel creation failed" (waitForTunnelReady cfg (opts_Name opts) (opts_Connect opts));
         tunnel ← inCluster (wrap "failed to get tunnel status" (getTunnel cfg (opts_Name opts)));
         match displayTunnel tunnel (opts_Output opts) with
         | Err msg => raise (Errorf ("failed to display tunnel: " ⊕ msg))
         | Ok lines => mret (printed ++ lines, None)
         end
       else if opts_Connect opts then run ← connect; mret ([], Some run)
       else mret ([], None)).

(** *** [cmd/tunnel.go] *)

(** The error of a run as the command reports it; a cancellation is none. *)
Definition reported (run : Run) : option string := match run_result run with Some (TunnelErr msg) => Some msg | _ => None end.
(** A deleted tunnel is no error either. *)
Definition runTunnelConnect (cfg : Config) (tunnelName : string) (port : Z) (envs : list Attempt) : M Clocked (option string) :=
  run ← Connect cfg tunnelName port envs;
  mret (if bool_decide (reported run = Some "tunnel_deleted") then None else reported run).
Definition runTunnelCreate (cfg : Config) (opts : CreateOptions) (started : bool) (envs : list Attempt) : M Clocked (list string * option string) :=
  r ← CreateTunnel cfg opts started envs;
  mret (r.1, r.2 ≫= reported).

(** [kubelb expose]: the flags without the name, the port and [--connect] *)
Definition runExpose (cfg : Config) (opts : CreateOptions) (portStr name : string) (started : bool) (envs : list Attempt) : M Clocked (list string * option string) :=
  match Atoi portStr with
  | None => raise (Errorf ("invalid port: " ⊕ portStr ⊕ " (must be a number)"))
  | Some port => runTunnelCreate cfg {| opts with opts_Port := port; opts_Name := name; opts_Connect := true |} started envs
  end.
End commands.

(** ** The expiry in either encoding *)

Lemma trim_left_none p s : str_forall (λ a, negb (p a)) s = true → trim_left p s = s.
Proof. destruct s as [|a s]; [done|]. cbn [str_forall trim_left]. intros [Ha _]%andb_true_iff. apply negb_true_iff in Ha. by rewrite Ha. Qed.
Lemma trim_right_none p s : str_forall (λ a, negb (p a)) s = true → trim_right p s = s.
Proof.
  induction s as [|a s IH]; [done|]. cbn [str_forall trim_right]. intros [Ha Hs]%andb_true_iff. apply negb_true_iff in Ha. rewrite IH by done. rewrite Ha. by destruct s.
Qed.
Lemma TrimSpace_Base64 s : TrimSpace (Base64 s) = Base64 s.
Proof.
  assert (str_forall (λ a, negb (is_ws a)) (Base64 s) = true) as H.
  { apply (str_forall_impl base64_byte); [|apply Base64_bytes]. intros a. byte_cases a. }
  unfold TrimSpace. by rewrite trim_left_none, trim_right_none.
Qed.

(** the expiry of a token is read the same whether the secret holds it as it is or once
    more encoded: a time of day, which has a colon, is never taken for an encoding. *)
Theorem expiry_either_encoding s fieldName : TrimSpace s = s → has_byte ":" s = true →
  decodeBase64Field s fieldName = Ok s ∧ decodeBase64Field (Base64 s) fieldName = Ok s.
Proof.
  intros Ht Hc. assert (s ≠ "") as Hne by by intros ->. unfold decodeBase64Field. split.
  - rewrite (bool_decide_false (s = "")) by done. rewrite Ht. rewrite bool_decide_false by done. by rewrite (DecodeString_foreign s ":").
  - assert (Base64 s ≠ "") as Hb by (intros E; pose proof (DecodeString_Base64 s) as H; rewrite E in H; by injection H as <-).
    rewrite (bool_decide_false (Base64 s = "")) by done. rewrite TrimSpace_Base64, bool_decide_false by done.
    by rewrite DecodeString_Base64, Ht, bool_decide_false.
Qed.

(** ** What the commands do *)

(** A connection keeps what does not change of its client. *)
Definition sameTarget (c c' : Client) : Prop :=
  tc_baseURL c = tc_baseURL c' ∧ tc_auth c = tc_auth c' ∧ tc_targetPort c = tc_targetPort c' ∧ tc_tunnelName c = tc_tunnelName c' ∧ tc_tenantName c = tc_tenantName c'.
#[export] Instance sameTarget_preorder : PreOrder sameTarget.
Proof. split; [by intros ?|]. unfold sameTarget. intros ??? (? & ? & ? & ? & ?) (? & ? & ? & ? & ?). split_and!; by etrans. Qed.

Lemma handleSSEEvents_target r inputs : sameTarget (rd_client r) (rd_client (handleSSEEvents r inputs).1).
Proof.
  revert r. induction inputs as [|[now input] inputs IH]; intros r; [reflexivity|]. cbn [handleSSEEvents].
  destruct (readInput r (now, input)) as [r'|err] eqn:Hr; [|reflexivity]. etrans; [|apply IH]. clear IH.
  destruct input; simpl in Hr; simplify_eq/=; try reflexivity; try done.
  - destruct (_ <=? _)%Z; [done|]. unfold handleLine in Hr. destruct (rd_event r); [|destruct (HasPrefix _ _); by simplify_eq/=].
    destruct (HasPrefix _ _); [|by simplify_eq/=]. unfold handleEvent in Hr. repeat case_bool_decide; by simplify_eq/=.
  - by destruct (monitorReturns now (rd_client r)).
Qed.

Lemma establish_target c answer : sameTarget c (establishSingleConnection c answer).1.1.
Proof.
  unfold establishSingleConnection. cbv zeta. destruct answer as [msg|[|msg]|code body|inputs]; [reflexivity|..];
    repeat (destruct (negb (isValidHTTPHeaderValue _)); [reflexivity|]); try reflexivity.
  pose proof (handleSSEEvents_target (readerOf (opened c)) inputs) as H. destruct (handleSSEEvents _ inputs) as [r err]. by etrans; [|exact H].
Qed.

Lemma attempts_target n attempt envs r : sameTarget (run_client r) (run_client (attempts n attempt envs r)).
Proof.
  revert attempt envs r. induction n as [|n IH]; intros attempt envs r; [by simpl|]. destruct envs as [|env envs]; [reflexivity|]. cbn [attempts].
  assert (sameTarget (run_client r) (run_client (attemptConnection attempt env r))) as H1.
  { unfold attemptConnection. cbv zeta. destruct (at_cancelled env); [reflexivity|].
    set (c := if (attempt =? 0)%nat then _ else _). assert (sameTarget (run_client r) c) as Hc by (unfold c; by destruct (_ =? _)%nat).
    destruct (_ && _); [exact Hc|]. pose proof (establish_target c (at_answer env)) as H. destruct (establishSingleConnection c _) as [[c' requests] err]. by etrans. }
  destruct (run_result _) as [[|msg]|] eqn:Hr; [done| |done]. destruct (isNonRecoverableError msg); [done|]. etrans; [exact H1|]. apply (IH _ _ {| (attemptConnection attempt env r) with run_result := None |}).
Qed.

Lemma EstablishTunnel_target c envs : sameTarget c (run_client (EstablishTunnel c envs)).
Proof. apply (attempts_target maxRetries 0 envs (startRun c)). Qed.

Section promises.
Context (Getenv : string -> string) (url_Parse : string -> result URL) (time_Parse : string -> result Z) (time_String : Z -> string).
Context (elapse : Z -> Cluster -> Cluster) (Marshal MarshalIndent : Object -> result string).
(** What the client of a connection is given, see [TunnelClient] *)
Context (refusesRequest : string -> string -> option string) (canonical : string -> string) (rangeHeaders : StrMap -> list (string * string)).
Context (corruptInput : string -> string) (transport : list LocalRequest -> LocalRequest -> result LocalResponse) (resolve : string -> string -> result string).
Context (redirectHeaders : LocalRequest -> string -> StrMap) (urlError : list LocalRequest -> string -> string) (Unmarshal : string -> option HTTPRequest).
#[local] Abbreviation handle := (handleRequestEventWithTracking refusesRequest canonical rangeHeaders corruptInput transport resolve redirectHeaders urlError Unmarshal).
#[local] Abbreviation LoadTunnelAuth := (LoadTunnelAuth time_Parse time_String).
#[local] Abbreviation prepareConnection := (prepareConnection url_Parse time_Parse time_String).
#[local] Abbreviation Connect := (Connect url_Parse time_Parse time_String elapse).
#[local] Abbreviation waitForTunnelReady := (waitForTunnelReady elapse).
#[local] Abbreviation CreateTunnel := (CreateTunnel Getenv url_Parse time_Parse time_String elapse Marshal MarshalIndent).

Lemma eeCall_Ret {S A} cfg kind (call : M S A) s a s' : eeCall cfg kind call s = (Ret a, s') → call s = (Ret a, s').
Proof. unfold eeCall. by destruct (IsEE _). Qed.
Lemma enterpriseOnly_Ret {S A} cfg (command : M S A) s a s' : enterpriseOnly cfg command s = (Ret a, s') → IsCE cfg = false ∧ command s = (Ret a, s').
Proof. unfold enterpriseOnly. by destruct (IsCE cfg). Qed.

Lemma fetchTunnel_Ret cfg name c tunnel c' : fetchTunnel cfg name c = (Ret tunnel, c') → findObject Tunnel c (tunnelKey cfg name) = Some tunnel ∧ cl_objects c' = cl_objects c.
Proof.
  unfold fetchTunnel. intros H. minv. destruct a as [t|err]; [|by destruct (IsNotFound err)]. minv.
  unfold getTunnel in Hm. apply eeCall_Ret, Get_Ret in Hm. done.
Qed.

Lemma LoadTunnelAuth_Ret cfg ns name s auth s' : LoadTunnelAuth cfg ns name s = (Ret auth, s') →
  ∃ secret expiryStr, findObject SyncSecret (ck_cluster s) (ns, "tunnel-auth-" ⊕ name) = Some secret ∧
    au_Token auth = TrimSpace (dataOf secret "token") ∧ au_Token auth ≠ "" ∧
    decodeBase64Field (dataOf secret "tokenExpiry") "tokenExpiry" = Ok expiryStr ∧ time_Parse expiryStr = Ok (au_TokenExpiry auth) ∧ (ck_now s <= au_TokenExpiry auth)%Z ∧ ck_now s' = ck_now s.
Proof.
  unfold CLITunnel.LoadTunnelAuth, inCluster. intros H. minv. apply eeCall_Ret, Get_Ret in Hz as [Hf _]. simpl in Hf.
  case_bool_decide; [done|]. case_bool_decide; [done|]. destruct (decodeBase64Field _ _) as [expiryStr|] eqn:He; [|done]. destruct (time_Parse expiryStr) as [expiry|] eqn:Hp; [|done].
  minv. unfold gets in Hm. simplify_eq/=. destruct (Z.ltb_spec expiry (ck_now s)); [done|]. minv. simpl. by exists a, expiryStr.
Qed.

Lemma prepareConnection_Ret cfg tunnelName port s client s' : prepareConnection cfg tunnelName port s = (Ret client, s') →
  ck_now s' = ck_now s ∧ IsCE cfg = false ∧ (1 <= port <= 65535)%Z ∧ tc_targetPort client = Itoa port ∧ tc_tunnelName client = tunnelName ∧
  ∃ tunnel secret, findObject Tunnel (ck_cluster s) (tunnelKey cfg tunnelName) = Some tunnel ∧
    findObject SyncSecret (ck_cluster s) (cfg_TenantNamespace cfg, "tunnel-auth-" ⊕ tunnelName) = Some secret ∧
    tus_Phase (tun_Status tunnel) = TunnelPhaseReady ∧
    au_Token (tc_auth client) = TrimSpace (dataOf secret "token") ∧ (ck_now s <= au_TokenExpiry (tc_auth client))%Z.
Proof.
  unfold CLITunnel.prepareConnection. intros [Hce Hm]%enterpriseOnly_Ret.
  destruct (negb (validPort port)) eqn:Hport; [done|]. apply negb_false_iff, negb_true_iff, orb_false_iff in Hport as [Hp1%Z.leb_gt Hp2%Z.ltb_ge].
  unfold inCluster in Hm. minv. apply fetchTunnel_Ret in Hz as [Hf Ho]. simpl in Hf. case_bool_decide as Hphase; [|done]. cbn [negb] in Hm.
  case_bool_decide; [done|]. minv. apply LoadTunnelAuth_Ret in Hm0 as (secret & expiryStr & Hs & Htok & _ & _ & _ & Hnow & Hck). simpl in Hs, Hnow, Hck.
  destruct (NewClient _ _ _ _ _ _ _) as [c|] eqn:Hn; [|done]. minv. unfold NewClient in Hn. destruct (parseConnectionURL _ _); [|done]. simplify_eq.
  split_and!; [done|done|lia|lia|done|done|]. eexists _, secret. by split_and!; [|erewrite <- findObject_objects|..].
Qed.

(** C30: a connection is opened only for a Tunnel of the tenant that is ready, with the token of
    its SyncSecret, which has not expired when the first connection is opened, at once, and is
    used again, as it is, when the stream is opened later; in the enterprise edition, and for a
    valid port. What comes in over it is asked first of that port of localhost, and the answer
    is posted for the Tunnel with the same token. *)
Theorem connect_serves_port cfg tunnelName port envs s run s' : Connect cfg tunnelName port envs s = (Ret run, s') →
  ∃ tunnel secret, findObject Tunnel (ck_cluster s) (tunnelKey cfg tunnelName) = Some tunnel ∧
    findObject SyncSecret (ck_cluster s) (cfg_TenantNamespace cfg, "tunnel-auth-" ⊕ tunnelName) = Some secret ∧
    IsCE cfg = false ∧ tus_Phase (tun_Status tunnel) = TunnelPhaseReady ∧ (1 <= port <= 65535)%Z ∧
    au_Token (tc_auth (run_client run)) = TrimSpace (dataOf secret "token") ∧
    (∀ t, head (run_opened run) = Some t → t = 0%Z ∧ (ck_now s <= au_TokenExpiry (tc_auth (run_client run)))%Z) ∧
    ∀ data requests posted, data ∈ run_requests run → handle (run_client run) data = Some (requests, posted) →
      (∀ l, head requests = Some l → authority (lq_URL l) = "localhost:" ⊕ Itoa port) ∧
      po_Headers posted !! "X-Tunnel-Name" = Some tunnelName ∧
      po_Headers posted !! "Authorization" = Some ("Bearer " ⊕ TrimSpace (dataOf secret "token")).
Proof.
  unfold CLITunnel.Connect. intros H. minv. apply prepareConnection_Ret in Hm as (_ & Hce & Hport & Hp & Hn & tunnel & secret & Ht & Hs & Hphase & Htok & Hnow).
  clear Hm0. exists tunnel, secret. destruct (EstablishTunnel_target a envs) as (_ & Ha & Hp' & Hn' & _). pose proof (EstablishTunnel_first a envs) as Hfirst.
  generalize dependent (EstablishTunnel a envs). intros r Ha Hp' Hn' Hfirst.
  cbn [run_client run_opened run_requests Close tc_auth]. rewrite <- Ha. split_and!; [done..|lia|lia|done| |].
  - intros t Hhead. split; [by apply Hfirst|done].
  - intros data requests posted _. unfold handleRequestEventWithTracking. destruct (Unmarshal data) as [req|]; [|done].
    pose proof (λ l, forward_first refusesRequest canonical rangeHeaders corruptInput transport resolve redirectHeaders urlError (Close (run_client r)) port req l) as Hloc.
    destruct (forwardToLocalService _ _ _ _ _ _ _ _ _ req) as [sent resp]. intros [= <- <-]. split.
    + intros l Hl. apply Hloc; [simpl; by rewrite <- Hp'|lia|done].
    + unfold sendResponse. cbn [po_Headers tc_auth tc_tunnelName Close]. rewrite <- Ha, <- Hn', Hn, <- Htok. by simplify_map_eq.
Qed.

(** *** Creating *)

Lemma answers_getTunnel cfg name : answers (getTunnel cfg name).
Proof. apply answers_eeCall, answers_Get. Qed.
Lemma within_getTunnel K cfg name : within (changes K) (getTunnel cfg name).
Proof. apply within_eeCall; [apply _|apply within_Get]. Qed.
Lemma answers_ensureTunnel cfg opts : answers (ensureTunnel cfg opts).
Proof. unfold ensureTunnel. repeat first [apply answers_getTunnel | apply answers_eeCall, answers_Create | ends_step]. Qed.
Lemma answers_fetchTunnel cfg name : answers (fetchTunnel cfg name).
Proof. unfold fetchTunnel. repeat first [apply answers_getTunnel | ends_step]. Qed.
Lemma within_fetchTunnel K cfg name : within (changes K) (fetchTunnel cfg name).
Proof. unfold fetchTunnel. repeat first [apply within_getTunnel | within_step]. Qed.

Lemma ensureTunnel_changes cfg opts c :
  changes (λ k, k = storeKey Tunnel (tunnelKey cfg (opts_Name opts)) ∧ findObject Tunnel c (tunnelKey cfg (opts_Name opts)) = None) c (ensureTunnel cfg opts c).2.
Proof.
  destruct (findObject Tunnel c (tunnelKey cfg (opts_Name opts))) as [t|] eqn:Hf.
  - set (K := λ k : ObjectKey, _ ∧ Some t = None). assert (∀ c1, findObject Tunnel c1 (tunnelKey cfg (opts_Name opts)) = Some t → changes K c1 (eeCall cfg "Tunnel" (Create (newTunnel cfg opts)) c1).2) as Hc.
    { intros c1 H1. unfold eeCall. destruct (IsEE _); [|done]. unfold Create. pose proof (within_apiCall K c1) as Ha. unfold mbind, M_bind.
      destruct (apiCall c1) as [[[]|e| |] c2] eqn:Hac; try done. apply apiCall_Ret in Hac as [Ho _]. simpl.
      change (objKey (newTunnel cfg opts)) with (tunnelKey cfg (opts_Name opts)). rewrite (findObject_objects _ _ _ Ho), H1. exact Ha. }
    unfold ensureTunnel. destruct (returns_try _ (answers_getTunnel cfg (opts_Name opts)) c) as (r & c1 & Hr). rewrite (bind_eval _ _ _ _ _ Hr).
    assert (changes nothing c c1) as H1 by (pose proof (within_try _ _ (within_getTunnel nothing cfg (opts_Name opts)) c) as H; by rewrite Hr in H).
    assert (changes K c c1) as H1' by (eapply changes_weaken, H1; by intros ? []).
    destruct r as [t'|err]; [done|]. destruct (negb _); [done|]. etrans; [exact H1'|].
    assert (findObject Tunnel c1 (tunnelKey cfg (opts_Name opts)) = Some t) as Hf1.
    { rewrite <- Hf. unfold findObject. by rewrite (changes_frame _ _ _ H1) by intros []. }
    specialize (Hc c1 Hf1). unfold wrap, try, mbind, M_bind. by destruct (eeCall _ _ _ c1) as [[] ?].
  - set (K := λ k : ObjectKey, _). enough (within (changes K) (ensureTunnel cfg opts)) as H by apply H. unfold ensureTunnel.
    repeat first [apply within_getTunnel | apply within_eeCall; [apply _|by apply within_Create] | within_step].
Qed.

Lemma pollTunnel_ends cfg name quiet n shown printed s :
  endsWithin (2 * Z.of_nat (S n)) (pollTunnel elapse cfg name quiet (ck_now s + 2 * Z.of_nat (S n)) (S n) shown printed) s.
Proof.
  revert shown printed s. induction n as [|n IH]; intros shown printed s; set (deadline := (ck_now s + _)%Z).
  all: apply endsWithin_call; [lia|apply answers_getTunnel|intros tunnel c]; destruct (showProgress _ _ shown) as [lines shown'].
  all: cbv zeta; do 3 (case_bool_decide; [unfold endsWithin; simpl; lia|]).
  all: match goal with |- endsWithin (_ * Z.of_nat (S ?n)) _ _ => replace (2 * Z.of_nat (S n))%Z with (2 + 2 * Z.of_nat n)%Z by lia end.
  all: apply endsWithin_sleep, endsWithin_gets; cbn [ck_now].
  - rewrite (proj2 (Z.leb_le _ _)) by (unfold deadline; simpl; lia). unfold endsWithin. simpl. lia.
  - rewrite (proj2 (Z.leb_gt _ _)) by (unfold deadline; simpl; lia).
    set (s' := {| ck_cluster := _; ck_now := _ |}). specialize (IH shown' (printed ++ lines) s').
    replace (ck_now s' + 2 * Z.of_nat (S n))%Z with deadline in IH by (unfold deadline, s'; simpl ck_now; lia).
    exact IH.
Qed.

Lemma waitForTunnelReady_ends cfg name quiet s : endsWithin readyTimeout (waitForTunnelReady cfg name quiet) s.
Proof.
  unfold CLITunnel.waitForTunnelReady. apply endsWithin_gets. generalize (pollTunnel_ends cfg name quiet 59 nothingShown [] s).
  change (2 * Z.of_nat 60)%Z with readyTimeout. change 60 with readyFuel. by generalize readyFuel.
Qed.

Lemma endsWithin_ret {A} b (a : A) s : (0 <= b)%Z → endsWithin b (mret a) s.
Proof. intros Hb. unfold endsWithin. simpl. lia. Qed.
Lemma endsWithin_raise {A} b e s : (0 <= b)%Z → endsWithin b (raise (A:=A) e) s.
Proof. intros Hb. unfold endsWithin. simpl. lia. Qed.
Lemma endsWithin_enterpriseOnly {A} b cfg (m : M Clocked A) s : (0 <= b)%Z → endsWithin b m s → endsWithin b (enterpriseOnly cfg m) s.
Proof. intros Hb Hm. unfold enterpriseOnly. destruct (IsCE cfg); [by apply endsWithin_raise|done]. Qed.

Ltac time_step :=
  lazymatch goal with
  | |- endsWithin _ (mret _) _ => apply endsWithin_ret; unfold readyTimeout; lia
  | |- endsWithin _ (raise _) _ => apply endsWithin_raise; unfold readyTimeout; lia
  | |- endsWithin _ (inCluster _ ≫= _) _ => apply endsWithin_call; [unfold readyTimeout; lia| |intros ? ?]
  | |- endsWithin _ (wrap _ _) _ => apply endsWithin_wrap
  | |- endsWithin _ (enterpriseOnly _ _) _ => apply endsWithin_enterpriseOnly; [unfold readyTimeout; lia|]
  | |- endsWithin _ (gets _ ≫= _) _ => apply endsWithin_gets
  | |- endsWithin _ (match ?x with _ => _ end) _ => destruct x
  end.

Lemma LoadTunnelAuth_ends cfg ns name s : endsWithin 0 (LoadTunnelAuth cfg ns name) s.
Proof. unfold CLITunnel.LoadTunnelAuth. repeat first [progress cbv zeta | apply answers_wrap, answers_eeCall, answers_Get | time_step]. Qed.
Lemma endsWithin_then {A B} b b' (m : M Clocked A) (k : A -> M Clocked B) s : (0 <= b')%Z → endsWithin b m s → (∀ a s', endsWithin b' (k a) s') → endsWithin (b + b') (m ≫= k) s.
Proof.
  unfold endsWithin, mbind, M_bind. intros Hb Hm Hk. destruct (m s) as [[a|e| |] s1]; simpl in *; try done; [|lia].
  specialize (Hk a s1). destruct (k a s1) as [[] s2]; simpl in *; try done; lia.
Qed.

Lemma prepareConnection_ends cfg name port s : endsWithin 0 (prepareConnection cfg name port) s.
Proof.
  unfold CLITunnel.prepareConnection.
  repeat first [progress cbv zeta | apply answers_fetchTunnel | apply endsWithin_bind; [apply endsWithin_wrap, LoadTunnelAuth_ends|intros ? ?] | time_step].
Qed.

(** What a connection adds to the time *)
Section timed_connection.
Context (envs : list Attempt) (Htimed : ∀ i env, envs !! i = Some env → timed i env).

Lemma connectionTime_nonneg : (0 <= connectionTime envs)%Z.
Proof. pose proof (EstablishTunnel_elapsed exampleClient envs Htimed). lia. Qed.
Lemma Connect_ends cfg name port s : endsWithin (connectionTime envs) (Connect cfg name port envs) s.
Proof.
  rewrite <- (Z.add_0_l (connectionTime envs)). apply (endsWithin_then 0); [apply connectionTime_nonneg|apply prepareConnection_ends|]. intros client s'. cbv zeta.
  destruct (EstablishTunnel_elapsed client envs Htimed) as [_ Hle].
  apply (endsWithin_weaken (run_elapsed (EstablishTunnel client envs) `div` second + 0)); [lia|]. by apply endsWithin_sleep, endsWithin_ret.
Qed.

(** The time a creation may take *)
Definition createTime (opts : CreateOptions) : Z := readyTimeout + if opts_Connect opts then connectionTime envs else 0.
Lemma CreateTunnel_ends cfg opts started s : endsWithin (createTime opts) (CreateTunnel cfg opts started envs) s.
Proof.
  pose proof connectionTime_nonneg as Hnn. assert (∀ name, answers (wrap "failed to get tunnel status" (getTunnel cfg name))) as Hget by (intros; apply answers_wrap, answers_getTunnel).
  assert (∀ (printed : list string) s', endsWithin (connectionTime envs) (run ← Connect cfg (opts_Name opts) (opts_Port opts) envs; mret (printed, Some run)) s') as Hconnect.
  { intros. apply endsWithin_bind; [apply Connect_ends|intros; by apply endsWithin_ret]. }
  unfold CLITunnel.CreateTunnel, createTime. destruct (opts_Connect opts), (opts_Wait opts); cbn [andb]; rewrite ?Z.add_0_r.
  all: repeat first [progress cbv zeta | apply answers_ensureTunnel | apply Hget | apply Hconnect
    | apply endsWithin_then; [lia|apply endsWithin_wrap, waitForTunnelReady_ends|intros ? ?]
    | apply endsWithin_bind; [apply endsWithin_wrap, waitForTunnelReady_ends|intros ? ?] | time_step].
  eapply endsWithin_weaken; [|apply Hconnect]. unfold readyTimeout. lia.
Qed.
End timed_connection.

(** Everything after the Tunnel is there only reads. *)
Lemma within_LoadTunnelAuth K cfg ns name : within (ticks K) (LoadTunnelAuth cfg ns name).
Proof. unfold CLITunnel.LoadTunnelAuth. repeat first [progress cbv zeta | apply within_inCluster; within_step; apply within_eeCall; [apply _|apply within_Get] | within_step]. Qed.
Lemma within_sleep K d : (∀ d c, changes K c (elapse d c)) → (0 <= d)%Z → within (ticks K) (sleep elapse d).
Proof. intros He Hd. apply within_modify. intros s. split; simpl; [done|lia]. Qed.
Lemma within_Connect K cfg name port envs : (∀ d c, changes K c (elapse d c)) → (∀ i env, envs !! i = Some env → timed i env) →
  within (ticks K) (Connect cfg name port envs).
Proof.
  intros He Ht. unfold CLITunnel.Connect, CLITunnel.prepareConnection, enterpriseOnly.
  repeat first [progress cbv zeta | apply within_inCluster, within_fetchTunnel | apply within_LoadTunnelAuth
    | apply within_sleep; [done|by apply EstablishTunnel_elapsed] | within_step].
Qed.
Lemma within_waitForTunnelReady K cfg name quiet : (∀ d c, changes K c (elapse d c)) → within (ticks K) (waitForTunnelReady cfg name quiet).
Proof.
  intros He. unfold CLITunnel.waitForTunnelReady. within_step; [within_step|]. generalize readyFuel nothingShown (@nil string). intros fuel. induction fuel as [|fuel IH]; intros shown printed; simpl; [within_step|].
  within_step; [apply within_inCluster, within_getTunnel|]. destruct (showProgress _ _ _) as [lines shown']. do 3 (case_bool_decide; [within_step|]).
  within_step; [by apply within_sleep|].
  within_step; [within_step|]. destruct (_ <=? _)%Z; [within_step|apply IH].
Qed.

Lemma ticks_after {A B} K (m : M Cluster A) (k : A -> M Clocked B) s :
  changes K (ck_cluster s) (m (ck_cluster s)).2 → (∀ a, within (ticks K) (k a)) → ticks K s ((inCluster m ≫= k) s).2.
Proof.
  intros Hm Hk. unfold mbind, M_bind, inCluster, zoom. cbn [view over clusterClient]. destruct (m (ck_cluster s)) as [[a|e| |] c]; simpl in *.
  - etrans; [|apply Hk]. split; [done|simpl; lia].
  - split; [done|simpl; lia].
  - split; [done|simpl; lia].
  - split; [done|simpl; lia].
Qed.

(** creating a tunnel ends, whatever the API server answers and whatever others do
    meanwhile: it takes at most two minutes, and with a connection 304 seconds more and the
    time the connections are open. It writes nothing but the Tunnel, and that only when there
    is none of the name: one that exists is used as it is. *)
Theorem tunnel_create_bounded cfg opts started envs (others : ObjectKey -> Prop) s : (∀ d c, changes others c (elapse d c)) →
  (∀ i env, envs !! i = Some env → timed i env) →
  let key := tunnelKey cfg (opts_Name opts) in
  let s' := (CreateTunnel cfg opts started envs s).2 in
  (match (CreateTunnel cfg opts started envs s).1 with Ret _ | Fail _ => True | _ => False end) ∧
  (ck_now s' <= ck_now s + createTime envs opts)%Z ∧
  ticks (λ k, others k ∨ (k = storeKey Tunnel key ∧ findObject Tunnel (ck_cluster s) key = None)) s s'.
Proof.
  intros He Ht key. cbv zeta. pose proof (CreateTunnel_ends envs Ht cfg opts started s) as Hends. unfold endsWithin in Hends.
  split_and!; [by destruct (CreateTunnel _ _ _ _ s).1|by destruct (CreateTunnel _ _ _ _ s).1|].
  set (K := λ k, _). assert (∀ d c, changes K c (elapse d c)) as HK by (intros d c; eapply changes_weaken, He; by left).
  unfold CLITunnel.CreateTunnel, enterpriseOnly. destruct (IsCE cfg); [reflexivity|]. destruct (negb (validPort _)); [reflexivity|]. apply ticks_after.
  - eapply changes_weaken; [|apply ensureTunnel_changes]. intros k Hk. by right.
  - intros tunnel. cbv zeta. repeat first [apply within_inCluster; within_step; apply within_getTunnel | by apply within_Connect
      | apply within_wrap; [apply _|by apply within_waitForTunnelReady] | within_step].
Qed.

(** The deletion was asked for. *)
Definition confirmed (force : bool) (response : result string) : Prop :=
  force = true ∨ ∃ typed, response = Ok typed ∧ TrimSpace (ToLower typed) ∈ ["y"; "yes"].

Lemma DeleteWithOptions_changes cfg name force verbose response c :
  changes (λ k, IsCE cfg = false ∧ confirmed force response ∧ k = storeKey Tunnel (tunnelKey cfg name)) c (DeleteWithOptions cfg name force verbose response c).2.
Proof.
  set (K := λ k, _). enough (within (changes K) (DeleteWithOptions cfg name force verbose response)) as H by apply H.
  unfold DeleteWithOptions, enterpriseOnly. destruct (IsCE cfg) eqn:Hce; [within_step|].
  apply within_bind_yields with (Q := λ tunnel, objKey tunnel = tunnelKey cfg name); [apply _|intros s tunnel s' [Hf _]%fetchTunnel_Ret; by eapply findObject_key|apply within_fetchTunnel|].
  intros tunnel Hk. cbv zeta. rewrite Hk.
  assert (∀ lines, K (storeKey Tunnel (tunnelKey cfg name)) → within (changes K) (_ ← wrap "failed to delete tunnel" (eeCall cfg "Tunnel" (Delete Tunnel (tunnelKey cfg name))); mret (A:=list string) lines)) as Hdelete.
  { intros lines HK. within_step; [|within_step]. within_step. apply within_eeCall; [apply _|by apply within_Delete]. }
  destruct force; [apply Hdelete; split_and!; [done|by left|done]|]. destruct response as [typed|msg]; [|within_step].
  case_bool_decide; [|within_step]. apply Hdelete. split_and!; [done|right; by exists typed|done].
Qed.

(** a Tunnel is deleted only when the flag says so or the answer is yes, and at the menu of
    a connection only by that choice; nothing else changes, and in the community edition
    nothing does. *)
Theorem tunnel_delete_confirmed cfg name force response (tunnel : Tunnel) enableUI typed c :
  changes (λ k, IsCE cfg = false ∧ confirmed force response ∧ k = storeKey Tunnel (tunnelKey cfg name)) c (DeleteTunnel cfg name force response c).2 ∧
  changes (λ k, IsCE cfg = false ∧ PromptChoice enableUI typed "c" ∈ ["d"; "delete"] ∧ k = storeKey Tunnel (tunnelKey cfg (om_Name (tun_Meta tunnel))))
    c (handleTunnelDisconnectionMenu cfg tunnel enableUI typed c).2.
Proof.
  split; [apply DeleteWithOptions_changes|]. set (K := λ k, _). enough (within (changes K) (handleTunnelDisconnectionMenu cfg tunnel enableUI typed)) as H by apply H.
  unfold handleTunnelDisconnectionMenu. cbv zeta. case_bool_decide as Hd; [|repeat (case_bool_decide; [within_step|]); within_step].
  within_step; [|within_step]. within_step. intros s. eapply changes_weaken; [|apply DeleteWithOptions_changes]. intros k (Hce & _ & Hk). by split_and!.
Qed.

End promises.

(** ** Runs *)

Definition ready : TunnelStatus :=
  {| tus_Hostname := "web.example.com"; tus_URL := "https://web.example.com"; tus_ConnectionManagerURL := "tunnel.example.com"; tus_Phase := TunnelPhaseReady; tus_Conditions := [] |}.
Definition tunnelOf (status : TunnelStatus) : Tunnel := {| tun_Meta := objectMeta "web" "tenant-a" "uid-1" None None; tun_Hostname := ""; tun_Status := status |}.
Definition authSecret : SyncSecret :=
  {| syn_Meta := objectMeta "tunnel-auth-web" "tenant-a" "uid-2" None None; syn_Immutable := None; syn_Data := Some {[ "token" := "t0ken"; "tokenExpiry" := "2030-01-01T00:00:00Z" ]};
     syn_StringData := None; syn_Type := "Opaque"; syn_Status := emptyPhaseStatus |}.
Definition enterpriseConfig : Config := {| sampleConfig with cfg_Edition := EditionEE |}.
Definition station (objects : list Object) : Clocked := {| ck_cluster := sampleCluster objects; ck_now := 1000 |}.
Definition hostOnly (url : string) : result URL := Ok {| url_Scheme := "https"; url_Host := TrimPrefix url "https://"; url_Hostname := TrimPrefix url "https://"; url_Port := ""; url_Path := "" |}.
Definition webOptions (wait : bool) (format : string) : CreateOptions :=
  {| opts_Name := "web"; opts_Port := 8080; opts_Hostname := ""; opts_Wait := wait; opts_Connect := false; opts_Output := format |}.
Definition asText (x : Object) : result string := Ok (om_Name (metaOf x)).
#[local] Abbreviation connect := (Connect hostOnly (λ _, Ok 5000%Z) Itoa (λ _ c, c)).
#[local] Abbreviation create := (CreateTunnel (λ _, "") hostOnly (λ _, Ok 5000%Z) Itoa (λ _ c, c) asText asText).

Lemma expiry_either_encoding_witness : decodeBase64Field "2030-01-01T00:00:00Z" "tokenExpiry" = Ok "2030-01-01T00:00:00Z" ∧
  decodeBase64Field (Base64 "2030-01-01T00:00:00Z") "tokenExpiry" = Ok "2030-01-01T00:00:00Z".
Proof. apply (expiry_either_encoding "2030-01-01T00:00:00Z" "tokenExpiry"); vm_compute; reflexivity. Defined.

Definition connectionObjects : list Object := [OTunnel (tunnelOf ready); OSyncSecret authSecret].
Definition connected (envs : list Attempt) : outcome Run * Clocked := connect enterpriseConfig "web" 8080 envs (station connectionObjects).
Definition connectedRun (envs : list Attempt) : Run := match (connected envs).1 with Ret run => run | _ => startRun exampleClient end.
Definition readRequest (data : string) : option HTTPRequest := Some exampleRequest.
Lemma connect_serves_port_witness : run_requests (connectedRun [worked]) = ["{}"] ∧
  handleRequestEventWithTracking (λ _ _, None) (λ s, s) map_to_list (λ _, "") exampleService exampleResolve (λ req _, lq_Headers req) (λ _ msg, msg) readRequest
    (run_client (connectedRun [worked])) "{}" = Some ([exampleLocal "/api"], sendResponse (run_client (connectedRun [worked])) (exampleForward exampleRequest).2) ∧
  authority (lq_URL (exampleLocal "/api")) = "localhost:8080".
Proof.
  assert (connected [worked] = (Ret (connectedRun [worked]), (connected [worked]).2)) as H by (vm_compute; reflexivity).
  assert ("{}" ∈ run_requests (connectedRun [worked])) as Hin by (vm_compute; constructor).
  split; [vm_compute; reflexivity|]. split; [vm_compute; reflexivity|].
  destruct (connect_serves_port hostOnly (λ _, Ok 5000%Z) Itoa (λ _ c, c) (λ _ _, None) (λ s, s) map_to_list (λ _, "") exampleService exampleResolve (λ req _, lq_Headers req) (λ _ msg, msg)
    readRequest enterpriseConfig "web" 8080 [worked] _ _ _ H) as (tunnel & secret & _ & _ & _ & _ & _ & _ & _ & Hs).
  destruct (Hs "{}" [exampleLocal "/api"] (sendResponse (run_client (connectedRun [worked])) (exampleForward exampleRequest).2) Hin) as [Hl _]; [vm_compute; reflexivity|].
  apply (Hl (exampleLocal "/api")). reflexivity.
Defined.

(** The stream breaks after two hours, long after the token expired: it is opened again with
    that token, and the run goes on. *)
Definition longLived : Attempt := {| worked with at_lasts := 7200 * second |}.
Example expired_token_reused :
  let run := connectedRun [longLived; worked] in
  au_TokenExpiry (tc_auth (run_client run)) = 5000%Z ∧ run_opened run = [0; 7201 * second]%Z ∧ run_requests run = ["{}"; "{}"] ∧
  ck_now (connected [longLived; worked]).2 = 8204%Z.
Proof. vm_compute. split_and!; reflexivity. Qed.

Lemma worked_timed i env : [worked] !! i = Some env → timed i env.
Proof. destruct i; [|done]. intros [= <-]. by vm_compute. Qed.
Lemma tunnel_create_bounded_witness :
  (ck_now (create enterpriseConfig {| (webOptions true "summary") with opts_Connect := true |} true [worked] (station connectionObjects)).2 <= 1000 + 120 + 307)%Z.
Proof.
  apply (tunnel_create_bounded (λ _, "") hostOnly (λ _, Ok 5000%Z) Itoa (λ _ c, c) asText asText enterpriseConfig {| (webOptions true "summary") with opts_Connect := true |} true [worked]
    nothing (station connectionObjects)); [reflexivity|exact worked_timed].
Defined.

(** Nobody makes the Tunnel ready: two minutes, and the Tunnel stays. *)
Example create_times_out :
  let '(r, s) := create enterpriseConfig (webOptions true "summary") true [] (station []) in
  match r with Fail err => ErrorString err = "tunnel creation failed: context deadline exceeded" | _ => False end ∧
  ck_now s = 1120%Z ∧ is_Some (findObject Tunnel (ck_cluster s) ("tenant-a", "web")).
Proof. vm_compute. split_and!; [reflexivity|reflexivity|by eexists]. Qed.

(** A Tunnel that is there and ready is shown as it is; without the wait no format prints anything. *)
Example existing_is_shown :
  (create enterpriseConfig (webOptions true "json") true [] (station [OTunnel (tunnelOf ready)])).1 =
    Ret (["✓ Hostname assigned: web.example.com"; "✓ URL ready"; "✓ Tunnel ready"; "web"], None) ∧
  (create enterpriseConfig (webOptions false "json") true [] (station [OTunnel (tunnelOf ready)])).1 = Ret ([], None).
Proof. vm_compute. split; reflexivity. Qed.

(** After the menu was left without a choice to end, a second signal is not read: the
    deletion that is chosen then does not happen. *)
Example second_signal_ignored :
  let c := sampleCluster [OTunnel (tunnelOf ready)] in
  onSignals enterpriseConfig (tunnelOf ready) true [Some "a"; Some "d"] c = (Ret false, c) ∧
  (onSignals enterpriseConfig (tunnelOf ready) true [Some "d"] c).1 = Ret true ∧
  findObject Tunnel (onSignals enterpriseConfig (tunnelOf ready) true [Some "d"] c).2 ("tenant-a", "web") = None.
Proof. vm_compute. split_and!; reflexivity. Qed.

(** Every command on tunnels is refused in the community edition, without a call. *)
Lemma tunnel_needs_enterprise cfg name port envs force response c s : IsCE cfg = true →
  connect cfg name port envs s = (Fail (Errorf ErrTunnelNotAvailable), s) ∧
  DeleteTunnel cfg name force response c = (Fail (Errorf ErrTunnelNotAvailable), c).
Proof.
  intros Hce. split.
  - unfold Connect, prepareConnection, enterpriseOnly. by rewrite Hce.
  - unfold DeleteTunnel, DeleteWithOptions, enterpriseOnly. by rewrite Hce.
Qed.
