(* ===== verification/EntryPoints.v ===== *)
(** * The entry points

    [cmd/kubelb/main.go] and [cmd/ccm/main.go], with [internal/ingress-to-gateway/standalone.go]:
    what the flags make of the two programs, which controllers they start with which
    settings and types, and in which order the manager restores its ports.

    What [SetupWithManager] refuses is a parameter. Addresses for metrics and probes, leader
    election and the client configuration are left to the libraries; an exit with code 1 is
    an error. *)

From Stdlib Require Import Ascii.
From S2P Require Import Prelude GoStrings Api Kube PortAllocator LoadBalancers ConvGateway EnvoyBootstrap Manager LBController GatewayCRDs.
Local Open Scope go_scope.

(** ** The CCM *)

Record CCMOptions := {
  co_enableCloudController : bool;
  co_useLoadbalancerClass : bool;
  co_endpointAddressTypeString : string;
  co_clusterName : string;
  co_useIngressClass : bool;
  co_useGatewayClass : bool;
  co_disableIngressController : bool;
  co_disableGatewayController : bool;
  co_disableHTTPRouteController : bool;
  co_disableGRPCRouteController : bool;
  co_enableSecretSynchronizer : bool;
  co_enableGatewayAPI : bool;
  co_installGatewayAPICRDs : bool;
  co_gatewayAPICRDsChannel : string;
  co_conversionOpts : ConvGateway.Options;
}.

(** The groups of types a scheme knows *)
Inductive APIGroup := ClientGoTypes | KubeLBTypes | ExtensionTypes | GatewayTypes | EnvoyGatewayTypes.
#[export] Instance APIGroup_eq_dec : EqDecision APIGroup.
Proof. solve_decision. Defined.
Definition ccmScheme : list APIGroup := [ClientGoTypes; KubeLBTypes; ExtensionTypes].

(** A controller with the settings it is given *)
Inductive CCMController :=
| NodeController (clusterName endpointAddressType : string)
| ServiceController (clusterName : string) (cloudController useLoadbalancerClass : bool)
| IngressController (clusterName : string) (useIngressClass : bool)
| GatewayCRDController (channel : string)
| GatewayController (clusterName : string) (useGatewayClass : bool)
| HTTPRouteController (clusterName : string)
| GRPCRouteController (clusterName : string)
| SecretConversionController
| SyncSecretController (clusterName : string)
| ConversionController (opts : ConvGateway.Options).

Record CCMRun := { ccm_scheme : list APIGroup; ccm_controllers : list CCMController; ccm_installsCRDs : option string }.

Section ccm.
Context (refuses : CCMController -> option string).

Definition start (c : CCMController) : result CCMController := match refuses c with Some msg => Err msg | None => Ok c end.

Definition setupControllers (opt : CCMOptions) (clusterName endpointAddressType : string) : result (list CCMController) :=
  let when (enabled : bool) (c : CCMController) := if enabled then [start c] else [] in
  mapR (λ started, started)
    ([start (NodeController clusterName endpointAddressType);
      start (ServiceController clusterName (co_enableCloudController opt) (co_useLoadbalancerClass opt))] ++
     when (negb (co_disableIngressController opt)) (IngressController clusterName (co_useIngressClass opt)) ++
     when (co_installGatewayAPICRDs opt) (GatewayCRDController (co_gatewayAPICRDsChannel opt)) ++
     when (negb (co_disableGatewayController opt) && co_enableGatewayAPI opt) (GatewayController clusterName (co_useGatewayClass opt)) ++
     when (negb (co_disableHTTPRouteController opt) && co_enableGatewayAPI opt) (HTTPRouteController clusterName) ++
     when (negb (co_disableGRPCRouteController opt) && co_enableGatewayAPI opt) (GRPCRouteController clusterName) ++
     when (co_enableSecretSynchronizer opt) SecretConversionController ++
     [start (SyncSecretController clusterName)] ++
     (if opt_Enabled (co_conversionOpts opt)
      then [let? _ := ValidateOptions (co_conversionOpts opt) in start (ConversionController (co_conversionOpts opt))] else [])).

Definition RunStandalone (scheme : list APIGroup) (opts : ConvGateway.Options) : result CCMRun :=
  let? _ := ValidateOptions opts in
  let? c := start (ConversionController opts) in
  Ok {| ccm_scheme := scheme; ccm_controllers := [c]; ccm_installsCRDs := None |}.

Definition endpointAddressType (s : string) : result string :=
  if bool_decide (s ∈ ["InternalIP"; "ExternalIP"; "Hostname"]) then Ok s
  else Err ("Expected: InternalIP, ExternalIP, or Hostname, got: " ⊕ s).

Definition ccmMain (opt : CCMOptions) : result CCMRun :=
  let opts := co_conversionOpts opt in
  if opt_StandaloneMode opts
  then RunStandalone (ccmScheme ++ [GatewayTypes] ++ (if opt_DisableEnvoyGatewayFeatures opts then [] else [EnvoyGatewayTypes])) opts
  else if bool_decide (co_clusterName opt = "")
  then Err "cluster/tenant name is required. Please provide a valid cluster/tenant name using the --cluster-name flag"
  else
    let clusterName := if HasPrefix (co_clusterName opt) "tenant-" then co_clusterName opt else "tenant-" ⊕ co_clusterName opt in
    let scheme := ccmScheme ++ (if co_enableGatewayAPI opt then [GatewayTypes] else []) in
    if negb (IsValidGatewayAPICRDsChannel (co_gatewayAPICRDsChannel opt))
    then Err "Invalid value for --gateway-api-crds-channel. Must be 'standard' or 'experimental'."
    else
      let? addressType := endpointAddressType (co_endpointAddressTypeString opt) in
      let? controllers := setupControllers opt clusterName addressType in
      Ok {| ccm_scheme := scheme; ccm_controllers := controllers;
            ccm_installsCRDs := if co_installGatewayAPICRDs opt then Some (co_gatewayAPICRDsChannel opt) else None |}.
End ccm.

(** ** The manager *)

(** The namespace: the variable is looked at before the flags are parsed, when the value
    is the default of the flag. *)
Definition managerNamespace (NAMESPACE : string) (namespaceFlag : option string) : result string :=
  let unparsed := "kubelb" in
  let? namespace :=
    if bool_decide (unparsed = "") then
      if bool_decide (NAMESPACE = "")
      then Err "unable to determine controller namespace. Please set NAMESPACE environment variable or use --namespace flag."
      else Ok NAMESPACE
    else Ok unparsed in
  Ok (default namespace namespaceFlag).

Inductive ManagerController :=
| LoadBalancerReconciler
| EnvoyCPReconciler (disableGatewayAPI : bool)
| RouteReconciler (disableGatewayAPI : bool)
| SyncSecretReconciler
| TenantReconciler.

Record ManagerRun := {
  mr_namespace : string;
  mr_scheme : list APIGroup;
  mr_server : Server;
  mr_portAllocator : PortAllocator;
  mr_controllers : list ManagerController;
}.

Section manager.
Context (IntValue : IntOrString -> Z) (refuses : ManagerController -> option string).

Definition startReconciler (c : ManagerController) : M Cluster ManagerController := match refuses c with Some msg => raise (Errorf msg) | None => mret c end.

(** What happens before the two managers of the library are started *)
Definition managerMain (namespace listenAddress : string) (debug enableGatewayAPI : bool) : M Cluster ManagerRun :=
  let disableGatewayAPI := negb enableGatewayAPI in
  _ ← wrap "unable to load controller config" (GetConfig namespace);
  match NewServer listenAddress debug with
  | None => panic
  | Some (Err msg) => raise (Errorf ("unable to create envoy server: " ⊕ msg))
  | Some (Ok server) =>
      loadBalancers ← wrap "unable to load port lookup state" (List LoadBalancer None ∅);
      routes ← wrap "unable to load port lookup state" (List Route None ∅);
      match LoadState IntValue NewPortAllocator (Ok loadBalancers) (Ok routes) with
      | Err msg => raise (Errorf ("unable to load port lookup state: " ⊕ msg))
      | Ok portAllocator =>
          controllers ← forM [LoadBalancerReconciler; EnvoyCPReconciler disableGatewayAPI; RouteReconciler disableGatewayAPI; SyncSecretReconciler; TenantReconciler] startReconciler;
          mret {| mr_namespace := namespace; mr_scheme := [ClientGoTypes; KubeLBTypes] ++ (if enableGatewayAPI then [GatewayTypes] else []);
                  mr_server := server; mr_portAllocator := portAllocator; mr_controllers := controllers |}
      end
  end.
End manager.

(** ** What is started *)

Section ccm_theorems.
Context (refuses : CCMController -> option string).

Lemma mapR_id_elem {A} (l : list (result A)) l' x : mapR (λ r, r) l = Ok l' → x ∈ l' ↔ Ok x ∈ l.
Proof.
  revert l'. induction l as [|r l IH]; intros l' H; simpl in H; [injection H as <-; split; by intros ?%elem_of_nil|].
  destruct r as [y|e]; [|done]. destruct (mapR _ l) as [ys|]; [|done]. injection H as <-. rewrite !elem_of_cons, (IH ys eq_refl). naive_solver.
Qed.

Lemma start_Ok c x : start refuses c = Ok x ↔ refuses c = None ∧ x = c.
Proof. unfold start. destruct (refuses c); naive_solver. Qed.
Lemma elem_when (b : bool) c x : (Ok x : result CCMController) ∈ (if b then [start refuses c] else @nil (result CCMController)) ↔ b = true ∧ refuses c = None ∧ x = c.
Proof. destruct b; [rewrite list_elem_of_singleton|rewrite elem_of_nil; naive_solver]. rewrite <- start_Ok. naive_solver. Qed.

(** What the flags ask for *)
Definition asked (opt : CCMOptions) (clusterName addressType : string) (c : CCMController) : Prop :=
  match c with
  | NodeController cluster address => cluster = clusterName ∧ address = addressType
  | ServiceController cluster cloud class => cluster = clusterName ∧ cloud = co_enableCloudController opt ∧ class = co_useLoadbalancerClass opt
  | IngressController cluster class => co_disableIngressController opt = false ∧ cluster = clusterName ∧ class = co_useIngressClass opt
  | GatewayCRDController channel => co_installGatewayAPICRDs opt = true ∧ channel = co_gatewayAPICRDsChannel opt
  | GatewayController cluster class =>
      co_disableGatewayController opt = false ∧ co_enableGatewayAPI opt = true ∧ cluster = clusterName ∧ class = co_useGatewayClass opt
  | HTTPRouteController cluster => co_disableHTTPRouteController opt = false ∧ co_enableGatewayAPI opt = true ∧ cluster = clusterName
  | GRPCRouteController cluster => co_disableGRPCRouteController opt = false ∧ co_enableGatewayAPI opt = true ∧ cluster = clusterName
  | SecretConversionController => co_enableSecretSynchronizer opt = true
  | SyncSecretController cluster => cluster = clusterName
  | ConversionController opts => opts = co_conversionOpts opt ∧ opt_Enabled opts = true ∧ opt_GatewayNamespace opts ≠ ""
  end.

Lemma setupControllers_asked opt clusterName addressType controllers c :
  setupControllers refuses opt clusterName addressType = Ok controllers → c ∈ controllers → asked opt clusterName addressType c.
Proof.
  unfold setupControllers. cbv zeta. intros H Hc. apply (mapR_id_elem _ _ _ H) in Hc. clear H.
  rewrite !elem_of_app, !elem_of_cons, !elem_when, elem_of_nil in Hc.
  assert (∀ x, Ok c = start refuses x → c = x) as Hs by (intros x E; symmetry in E; by apply start_Ok in E as [_ E]).
  destruct Hc as [[E%Hs|[E%Hs|[]]]|[(E & _ & ->)|[(E & _ & ->)|[(E & _ & ->)|[(E & _ & ->)|[(E & _ & ->)|[(E & _ & ->)|[[E%Hs|[]]|E]]]]]]]]; subst; simpl; try (rewrite ?andb_true_iff, ?negb_true_iff in E); try naive_solver.
  destruct (opt_Enabled _) eqn:He; [|by apply elem_of_nil in E]. apply list_elem_of_singleton in E. unfold ValidateOptions in E. rewrite He in E. simpl in E.
  case_bool_decide; [done|]. simpl in E. apply Hs in E as ->. done.
Qed.

(** The controllers that watch types of the Gateway API *)
Definition watchesGatewayTypes (c : CCMController) : bool :=
  match c with GatewayController _ _ | HTTPRouteController _ | GRPCRouteController _ => true | _ => false end.
Definition clusterOf (c : CCMController) : option string :=
  match c with
  | NodeController cluster _ | ServiceController cluster _ _ | IngressController cluster _ | GatewayController cluster _
  | HTTPRouteController cluster | GRPCRouteController cluster | SyncSecretController cluster => Some cluster
  | GatewayCRDController _ | SecretConversionController | ConversionController _ => None
  end.

(** the CCM starts a controller only with the types it watches, all of them for one
    namespace of a tenant; and the conversion only with a namespace for the Gateway. The
    conversion has the types it writes exactly when the Gateway API is enabled or it runs
    alone, and those of its policies only when it runs alone. *)
Theorem ccm_starts_with_types opt run : ccmMain refuses opt = Ok run →
  (∀ c, c ∈ ccm_controllers run → watchesGatewayTypes c = true → GatewayTypes ∈ ccm_scheme run) ∧
  (∃ clusterName, HasPrefix clusterName "tenant-" = true ∧ ∀ c cluster, c ∈ ccm_controllers run → clusterOf c = Some cluster → cluster = clusterName) ∧
  (∀ opts, ConversionController opts ∈ ccm_controllers run → opts = co_conversionOpts opt ∧ opt_GatewayNamespace opts ≠ "" ∧
     (GatewayTypes ∈ ccm_scheme run ↔ opt_StandaloneMode opts = true ∨ co_enableGatewayAPI opt = true) ∧
     (EnvoyGatewayTypes ∈ ccm_scheme run ↔ opt_StandaloneMode opts = true ∧ opt_DisableEnvoyGatewayFeatures opts = false)).
Proof.
  unfold ccmMain. destruct (opt_StandaloneMode _) eqn:Hs.
  - unfold RunStandalone, ValidateOptions. rewrite Hs, orb_true_r. simpl. case_bool_decide as Hns; [done|]. intros H. rinv.
    match goal with H : start refuses _ = Ok ?c |- _ => apply start_Ok in H as [_ ->] end. simpl. split_and!.
    + intros c ->%list_elem_of_singleton. done.
    + exists "tenant-". split; [done|]. by intros c cluster ->%list_elem_of_singleton.
    + intros opts [= ->]%list_elem_of_singleton. rewrite Hs. split_and!; [done|done| |]; destruct (opt_DisableEnvoyGatewayFeatures _); set_solver.
  - case_bool_decide; [done|]. set (clusterName := if HasPrefix _ _ then _ else _). destruct (negb _); [done|]. intros Hr. rinv. simpl.
    match goal with H : setupControllers _ _ _ _ = Ok ?l |- _ => pose proof (λ c, setupControllers_asked _ _ _ _ c H) as Ha end.
    split_and!.
    + intros c Hc%Ha. destruct c; simpl in *; try done; intros _; destruct Hc as (_ & -> & _); set_solver.
    + exists clusterName. split; [unfold clusterName; destruct (HasPrefix (co_clusterName opt) "tenant-") eqn:E; [done|apply HasPrefix_app]|].
      intros c cluster Hc%Ha. destruct c; simpl in *; naive_solver.
    + intros opts (-> & _ & Hns)%Ha. rewrite Hs. split_and!; [done|done| |]; destruct (co_enableGatewayAPI opt); set_solver.
Qed.
End ccm_theorems.

Section manager_theorems.
Context (IntValue : IntOrString -> Z) (refuses : ManagerController -> option string).

(** the manager that starts has read the cluster and changed nothing; its allocator
    gives no port to two endpoints and its tables agree, whatever the stored statuses were,
    and this stays so under every later allocation and deallocation. *)
Theorem manager_starts_consistent namespace listenAddress debug enableGatewayAPI c run c' :
  managerMain IntValue refuses namespace listenAddress debug enableGatewayAPI c = (Ret run, c') →
  cl_objects c' = cl_objects c ∧
  ∀ pa, rtc step (mr_portAllocator run) pa → reverse_exact pa ∧ unique_across_endpoints (portLookup pa).
Proof.
  intros H. split.
  - assert (within (changes nothing) (managerMain IntValue refuses namespace listenAddress debug enableGatewayAPI)) as Hw.
    { unfold managerMain. cbv zeta. within_step; [within_step; apply within_GetConfig|]. destruct (NewServer _ _) as [[server|]|]; [|within_step..].
      within_step; [within_step; apply within_List|]. within_step; [within_step; apply within_List|]. destruct (LoadState _ _ _ _); [|within_step].
      within_step; [|within_step]. within_step. unfold startReconciler. destruct (refuses _); within_step. }
    specialize (Hw c). rewrite H in Hw. apply map_eq. intros k. apply (changes_frame _ _ _ Hw). by intros [].
  - unfold managerMain in H. cbv zeta in H. minv. destruct (NewServer _ _) as [[server|]|]; [|done..]. minv.
    destruct (LoadState _ _ _ _) as [pa0|] eqn:Hl; [|done]. minv. simpl. intros pa Hs. unfold LoadState in Hl. rinv.
    apply (steps_shared same_endpoint _ _ _ Hs); [apply recompute_exact|apply heal_unique_across].
Qed.
End manager_theorems.

(** ** Runs *)

Definition conversionOptions (enabled standalone : bool) : ConvGateway.Options :=
  {| opt_StandaloneMode := standalone; opt_Enabled := enabled; opt_GatewayName := "kubelb"; opt_GatewayNamespace := "kubelb"; opt_GatewayClassName := "kubelb";
     opt_IngressClass := ""; opt_DomainReplace := ""; opt_DomainSuffix := ""; opt_PropagateExternalDNS := true; opt_GatewayAnnotations := None;
     opt_DisableEnvoyGatewayFeatures := false; opt_CopyTLSSecrets := true |}.
(** The defaults of the flags, with a name for the cluster *)
Definition ccmDefaults (gatewayAPI conversion standalone : bool) : CCMOptions :=
  {| co_enableCloudController := true; co_useLoadbalancerClass := false; co_endpointAddressTypeString := "ExternalIP"; co_clusterName := "a"; co_useIngressClass := true;
     co_useGatewayClass := true; co_disableIngressController := false; co_disableGatewayController := false; co_disableHTTPRouteController := false;
     co_disableGRPCRouteController := false; co_enableSecretSynchronizer := false; co_enableGatewayAPI := gatewayAPI; co_installGatewayAPICRDs := false;
     co_gatewayAPICRDsChannel := "standard"; co_conversionOpts := conversionOptions conversion standalone |}.

Definition ccmRun (gatewayAPI conversion standalone : bool) : CCMRun :=
  match ccmMain (λ _, None) (ccmDefaults gatewayAPI conversion standalone) with
  | Ok run => run | Err _ => {| ccm_scheme := []; ccm_controllers := []; ccm_installsCRDs := None |} end.

Lemma ccm_starts_with_types_witness : GatewayTypes ∈ ccm_scheme (ccmRun true false false).
Proof.
  destruct (ccm_starts_with_types (λ _, None) (ccmDefaults true false false) (ccmRun true false false) eq_refl) as [H _].
  apply (H (HTTPRouteController "tenant-a")); [|reflexivity].
  apply (list_elem_of_lookup_2 _ 4). vm_compute. reflexivity.
Defined.

(** The conversion beside the other controllers lacks types: those of its policies always,
    and with the default of the flag those of its routes. *)
Example conversion_lacks_types :
  ConversionController (conversionOptions true false) ∈ ccm_controllers (ccmRun true true false) ∧
  EnvoyGatewayTypes ∉ ccm_scheme (ccmRun true true false) ∧
  ConversionController (conversionOptions true false) ∈ ccm_controllers (ccmRun false true false) ∧
  GatewayTypes ∉ ccm_scheme (ccmRun false true false) ∧
  ccm_scheme (ccmRun false true true) = ccmScheme ++ [GatewayTypes; EnvoyGatewayTypes].
Proof.
  split_and!; [apply (list_elem_of_lookup_2 _ 7)| |apply (list_elem_of_lookup_2 _ 4)| |]; try (vm_compute; reflexivity);
    apply (bool_decide_unpack _); vm_compute; exact I.
Qed.

(** The variable for the namespace has no effect, and an empty flag goes through. *)
Example namespace_variable_ignored : managerNamespace "other" None = Ok "kubelb" ∧ managerNamespace "other" (Some "") = Ok "".
Proof. split; reflexivity. Qed.

(** A replica of the manager at its start, and while it reconciles the load balancer *)
Definition started (c : Cluster) : outcome ManagerRun * Cluster := managerMain sampleIntValue (λ _, None) "kubelb" ":8001" false false c.
Definition allocatorOf (c : Cluster) : PortAllocator := match (started c).1 with Ret run => mr_portAllocator run | _ => NewPortAllocator end.
Definition reconciled (alloc : PortAllocator) (draws : list Z) (c : Cluster) : Manager :=
  (LBController.Reconcile "kubelb" (λ _, true) (λ _, true) None 0%Z ("tenant-a", "uid-1")
    {| mg_cluster := c; mg_alloc := alloc; mg_draws := draws; mg_cache := ∅ |}).2.
Definition publishedPorts (c : Cluster) : list (option IntOrString) :=
  match findObject LoadBalancer c ("tenant-a", "uid-1") with
  | Some lb => (λ port, Some (sp_TargetPort (stp_Core port))) <$> ss_Ports (lst_Service (lb_Status lb))
  | None => []
  end.

Definition freshCluster : Cluster := sampleCluster [OLoadBalancer {| sampleLB with lb_Status := emptyLoadBalancerStatus |}; OTenant sampleTenant].
Lemma manager_starts_consistent_witness : mr_namespace <$> match (started freshCluster).1 with Ret run => Some run | _ => None end = Some "kubelb" ∧
  unique_across_endpoints (portLookup (allocatorOf freshCluster)).
Proof.
  split; [vm_compute; reflexivity|]. unfold allocatorOf. destruct (started freshCluster) as [[run|e| |] c'] eqn:H; try (vm_compute in H; discriminate H).
  apply (manager_starts_consistent sampleIntValue (λ _, None) "kubelb" ":8001" false false freshCluster run c' H). apply rtc_refl.
Defined.

(** A manager without a Config starts all the same. *)
Example missing_config_starts : findObject Config freshCluster ("kubelb", DefaultConfigResourceName) = None ∧
  match (started freshCluster).1 with Ret _ => True | _ => False end.
Proof. vm_compute. split; [reflexivity|exact I]. Qed.

(** Two replicas start; the first becomes the leader and publishes a port. When the second
    takes over, it still has the tables of its start, and gives the load balancer another
    port; a replica that had started then would have kept it. *)
Definition published : Cluster := mg_cluster (reconciled (allocatorOf freshCluster) [42; 43]%Z freshCluster).
Example takeover_moves_ports :
  publishedPorts published = [Some (FromInt 10042)] ∧
  publishedPorts (mg_cluster (reconciled (allocatorOf freshCluster) [77; 78]%Z published)) = [Some (FromInt 10077)] ∧
  publishedPorts (mg_cluster (reconciled (allocatorOf published) [77; 78]%Z published)) = [Some (FromInt 10042)].
Proof. vm_compute. split_and!; reflexivity. Qed.
